(* ===== verification/_CoqProject ===== *)
-Q . S2P
Prelude.v
Hoare.v
Mem.v
Layout.v
Kalloc.v
Vm.v
VmSpec.v
VmUser.v
VmCopy.v
VmFree.v
VmExample.v
VmThms.v
Sleeplock.v
FsFormat.v
DList.v
Bio.v
BioSpec.v
Tx.v
BioThms.v
Log.v
LogSpec.v
Store.v
LogSim.v
LogThms.v
Fs.v
FsAlloc.v
FsFile.v
FsIO.v
FsInode.v
FsWrite.v
FsTrunc.v
FsDir.v
LogStore.v
FsExample.v
FsThms.v
FsDirThms.v
Spinlock.v
SpinlockThms.v
Kernel.v
Sched.v
File.v
Proc.v
ProcSpec.v
Exec.v
Arg.v
Sysfile.v
Sysproc.v
Syscall.v
Trap.v
Console.v
PipeSpec.v
WaitSpec.v
PipeThms.v
SleepWake.v
SchedThms.v
ProcThms.v
KernelInv.v
SyscallKeeps.v
FileRefs.v
RefCalls.v
SystemThms.v
Grep.v
Virtio.v
VirtioSpec.v
VirtioSteps.v
VirtioThms.v
Umalloc.v
UmallocThms.v
Printf.v
Ulib.v
Sh.v
ShThms.v
ShRun.v
Mkfs.v
MkfsSpec.v
MkfsThms.v
MkfsBoot.v
Asm.v
Boot.v
UserProgs.v
