(* ===== verification/Prelude.v ===== *)
(** * A verification of xv6 for RISC-V

    A shallow embedding of the xv6 teaching kernel, of the program that makes its
    initial file system, and of its shell and libraries: the C and assembly code of
    src/kernel, src/mkfs and src/user as Rocq functions on explicit state, and the
    theorems that make it correct.  A function has the name it has in the source.

    ** How the code is modelled

    A routine of the kernel is a function [M S A] on the state [S] of its component
    (this file): it returns a value and a state ([Ok]), ends in [panic] with the
    source's message ([Panic]), or goes to sleep or spins for good ([Block], with the
    state it leaves).  Loops that are not structural take fuel and can answer
    [NoFuel]; the theorems give an amount that is enough, from the size of the data
    walked (a page count, a number of free blocks, the characters of a line), and
    show that the routine returns.  Integers keep the width C gives them: [u8] to
    [u64], [s16], [s32] and [s64] are the wrap-around, written where the code can
    wrap.  Memory is bytes by physical address; a pointer into an array of structures
    ([proc[]], [ftable], the buffer cache, the inode table) is an index.

    A critical section under a spin lock is one atomic step of the routines that take
    it.  That this is right is the theorem on spin locks; where the steps between the
    lock operations matter (sleep and wakeup, the log's operations, the disk driver,
    the harts' timers), they are separate steps of a transition system, and the
    theorems hold of all interleavings.

    Outside the sources, and so parameters with what is documented of them as
    hypotheses: the addresses the linker chooses ([end], [etext], [trampoline], the
    entry points), the devices (the UART: class [UartDev]; the virtio disk: the
    virtio specification in VirtioSpec; the PLIC's claims), the translation of
    addresses by the hardware in Asm, the build host's files for mkfs.  A program's
    system calls are parameters in its model ([sbrk] with class [SbrkLaws]; the
    reads, writes and failures of grep, cat, wc and the shell).

    ** The parts, and the files that model them

    - Memory and strings (kernel/string.c, riscv.h, memlayout.h, param.h): Mem,
      Layout.  Page allocator (kalloc.c): Kalloc; the free list is in the free pages.
    - Virtual memory (vm.c, the page tables of proc.c): Vm has the code, over page
      tables in memory; VmSpec the abstraction to a map from pages to entries, VmUser,
      VmCopy and VmFree the operations on it, VmThms the theorems, VmExample a
      concrete address space.
    - Disk blocks (bio.c, sleeplock.c, log.c): Sleeplock, Bio, BioSpec, BioThms over
      the circular lists of DList; Log, LogSpec, LogSim, LogThms.  The disk keeps the
      history of its writes, from which every state a crash can leave is read off.
      Tx is the cache as a transaction sees it.
    - File system (fs.c, fs.h): FsFormat, Fs, and its lemmas by layer: FsAlloc (the
      bitmap), FsFile (block maps), FsIO (bmap, readi, writei), FsInode, FsWrite,
      FsTrunc, FsDir; FsThms and FsDirThms.  It is proved against the interface of
      Store (classes [TxOps], [TxGhost], [TxLaws]); LogStore shows that the log over
      the buffer cache satisfies it, FsExample that a plain map of blocks does.
    - Disk driver (virtio_disk.c): Virtio, VirtioSpec, VirtioSteps, VirtioThms.
    - Locks (spinlock.c): Spinlock, SpinlockThms, hart by hart and access by access.
    - Processes, files and pipes (proc.c, file.c, pipe.c): Kernel (the state), Sched,
      File, Proc, ProcSpec, WaitSpec, PipeSpec; SleepWake; ProcThms, SchedThms,
      PipeThms.
    - System calls (syscall.c, sysfile.c, sysproc.c, exec.c): Arg, Sysfile, Sysproc,
      Exec, Syscall; the invariants of all of them in Hoare, KernelInv, SyscallKeeps,
      FileRefs, RefCalls, SystemThms.
    - Traps and console (trap.c, console.c, uart.c, printf.c): Trap, Console, Printf.
    - Assembly and start (entry.S, swtch.S, trampoline.S, kernelvec.S, start.c,
      plic.c, the per-hart part of main.c): Asm, Boot.
    - mkfs (mkfs/mkfs.c): Mkfs, MkfsSpec, MkfsThms, MkfsBoot.
    - User programs (user/): Ulib and Printf (ulib.c, printf.c), Umalloc and
      UmallocThms (umalloc.c), Grep (grep.c), Sh, ShThms and ShRun (sh.c), UserProgs
      (cat.c, wc.c, echo.c, parts of ls.c, init.c and grind.c).

    ** What the theorems show

    - Storage survives crashes: any interleaving of operations on the log refines an
      abstract log with durable and volatile contents, at whatever disk write the
      machine stops, recovery included (C1, C10, C20), on a cache that never has two
      copies of a block (C34), over a driver that transfers every block and never
      leaves a caller asleep, for any device that keeps to the specification (C14,
      C15).  What [begin_op] reserves is too little for three operations (C36).
    - Files are sequences of bytes: [writei] and [readi] (C3, C24), freeing files
      (C26), directories and paths (C25, C35).  The image mkfs makes is a file system
      the kernel boots from, with every file in it (C7).
    - Memory is neither lost nor shared: the page allocator (C12), growing, copying and
      freeing address spaces (C9, C21, C23), and copies between kernel and user (C22).
    - Processes: fork, exit, wait (C4, C27, C28), no lost wakeup and no deadlock in
      sleep and wakeup (C5), a fair scheduler (C33), pipes as bounded queues with no
      reader or writer left asleep without reason (C8, C29, C30), mutual exclusion
      (C11); and kill on an unused slot (C40).
    - System calls, all of them, whatever their arguments, keep the tables well formed
      and the reference counts of open files right (C2, C13).
    - The machine's edges: a trap is invisible to the program (C18), a context switch
      to the thread (C19); every hart starts as main expects (C32) and its timer goes
      on (C31).
    - Programs: a session at the shell's prompt, from the bytes typed to the programs
      executed and their descriptors (C6, C17), malloc (C16), grep (C37, C38), printf
      (C39).

    Each property with hypotheses has a witness, which applies it to a concrete state.

    ** Bounds and fuel

    Page walks have three levels; the loops over pages, blocks and directory entries
    take fuel equal to their number of rounds, which the theorems compute from the
    size of the range or the file.  Path resolution takes fuel above the path's length,
    the shell's parser four units for each character and four more, its main loop one
    for each character of the input, the matcher of grep a bound from pattern and text,
    malloc's and free's loops one for each block of the free list.  The table sizes
    (NPROC, NFILE, NINODE, NBUF, LOGSIZE, FSSIZE, ...) are the source's.

    ** Not modelled

    - Memory ordering: the fences of acquire, release and main are not there, and an
      access is atomic; the C compiler and the instruction encoding are trusted, the
      models being of the source text.
    - The TLB and the hardware's page walk (Asm takes the translation as a parameter;
      Vm proves what is in the page tables).  CSR fields that ignore writes.
    - [main]'s order of the initialisation calls beyond what Boot and MkfsBoot run,
      [kvminit], [forkret], [procdump] and the routines that only initialise a lock:
      each assigns a global, prints, or calls routines that are modelled.
    - [plic_claim] and [plic_complete], whose accesses change the device's own state.
    - [stat] of ulib.c, and the programs kill, ln, mkdir, rm, zombie and trace: they
      make a few system calls, and there is nothing between the calls to verify.  Of
      ls, init and grind only the parts with logic of their own are modelled.
    - usertests, forktest, stressfs, sysinfotest, test_syscalls and the grading
      scripts: tests of the system.  ramdisk.c is not part of the build and does not
      fit the present [struct buf].  Headers with prototypes, usys.pl and kernel.ld
      contain no code that runs.

    This file has the notations, the monad and its tactics, the hint databases, and the
    lemmas on machine integers, lists and little-endian bytes the components share. *)

From stdpp Require Import base list gmap strings sorting.
From Stdlib Require Import ZArith Lia.
Open Scope Z_scope.

(** ** Machine integers

    C integers are kept as [Z]; every conversion to a fixed width is written
    out.  [char] is unsigned on RISC-V. *)

Definition u8 (x : Z) : Z := x mod 2 ^ 8.
Definition u16 (x : Z) : Z := x mod 2 ^ 16.
Definition u32 (x : Z) : Z := x mod 2 ^ 32.
Definition u64 (x : Z) : Z := x mod 2 ^ 64.
Definition s16 (x : Z) : Z := (x + 2 ^ 15) mod 2 ^ 16 - 2 ^ 15.
Definition s32 (x : Z) : Z := (x + 2 ^ 31) mod 2 ^ 32 - 2 ^ 31.
Definition s64 (x : Z) : Z := (x + 2 ^ 63) mod 2 ^ 64 - 2 ^ 63.

(** A value is a byte. *)
Definition is_byte (x : Z) : Prop := 0 <= x < 256.

(** [goal_lia] closes arithmetic goals that mention the wrap-around
    functions on values known to be in range. *)
Ltac wrap_unfold := unfold u8, u16, u32, u64, s16, s32, s64, is_byte in *.
Ltac wrap_lia := wrap_unfold; Z.div_mod_to_equations; lia.

Lemma u32_small x : 0 <= x < 2 ^ 32 -> u32 x = x.
Proof. intros; unfold u32; now apply Z.mod_small. Qed.

Lemma u64_small x : 0 <= x < 2 ^ 64 -> u64 x = x.
Proof. intros; unfold u64; now apply Z.mod_small. Qed.

Lemma s32_small x : - 2 ^ 31 <= x < 2 ^ 31 -> s32 x = x.
Proof. intros; unfold s32; rewrite Z.mod_small; lia. Qed.

Lemma u32_range x : 0 <= u32 x < 2 ^ 32.
Proof. apply Z.mod_pos_bound; lia. Qed.

Lemma u64_range x : 0 <= u64 x < 2 ^ 64.
Proof. apply Z.mod_pos_bound; lia. Qed.

Lemma u8_range x : is_byte (u8 x).
Proof. apply Z.mod_pos_bound; lia. Qed.

(** ** Outcomes and the kernel monad

    A kernel routine, run by one thread, either returns, panics, goes to sleep
    (waiting for another thread to wake it), or - in the model only - runs out
    of the fuel given to a loop that has no structural bound. *)

Inductive outcome (S A : Type) : Type :=
| Ok (a : A) (s : S)
| Panic (msg : string)
| Block (s : S)
| NoFuel.
Arguments Ok {S A} _ _.
Arguments Panic {S A} _.
Arguments Block {S A} _.
Arguments NoFuel {S A}.

Definition M (S A : Type) : Type := S -> outcome S A.

Definition retM {S A} (a : A) : M S A := fun s => Ok a s.

Definition bindM {S A B} (m : M S A) (k : A -> M S B) : M S B :=
  fun s =>
    match m s with
    | Ok a s' => k a s'
    | Panic msg => Panic msg
    | Block s' => Block s'
    | NoFuel => NoFuel
    end.

Definition panicM {S A} (msg : string) : M S A := fun _ => Panic msg.
Definition blockM {S A} : M S A := fun s => Block s.
Definition getM {S A} (f : S -> A) : M S A := fun s => Ok (f s) s.
Definition modifyM {S} (f : S -> S) : M S unit := fun s => Ok tt (f s).

(** [zoomM get put m] runs a routine of a component inside the state of a
    client that owns the component's state. *)
Definition zoomM {K S A} (get : K -> S) (put : S -> K -> K) (m : M S A) : M K A :=
  fun k =>
    match m (get k) with
    | Ok a s => Ok a (put s k)
    | Panic msg => Panic msg
    | Block s => Block (put s k)
    | NoFuel => NoFuel
    end.

Declare Scope kernel_scope.
Delimit Scope kernel_scope with kernel.
Notation "'let!' x ':=' m 'in' k" := (bindM m (fun x => k))
  (at level 10, x name, m at level 100, k at level 200) : kernel_scope.
Notation "'let!' ' p ':=' m 'in' k" := (bindM m (fun p => k))
  (at level 10, p strict pattern, m at level 100, k at level 200) : kernel_scope.
Notation "'do!' m 'in' k" := (bindM m (fun _ => k))
  (at level 10, m at level 100, k at level 200) : kernel_scope.
Open Scope kernel_scope.

(** [for_each l f] runs [f] on each element of [l] in order: the body of a
    [for] loop over a fixed range. *)
Fixpoint for_each {S A} (l : list A) (f : A -> M S unit) : M S unit :=
  match l with
  | [] => retM tt
  | a :: l' => do! f a in for_each l' f
  end.

(** *** Total correctness: [returns m s Q] says that [m] run from [s] returns,
    with a result and a final state that satisfy [Q]. *)
Definition returns {S A} (m : M S A) (s : S) (Q : A -> S -> Prop) : Prop :=
  match m s with
  | Ok a s' => Q a s'
  | _ => False
  end.

Section Returns.
Context {S A B : Type}.
Implicit Types (s : S) (m : M S A).

Lemma returns_ok m s Q a s' : m s = Ok a s' -> Q a s' -> returns m s Q.
Proof. unfold returns; now intros ->. Qed.

Lemma returns_inv m s Q : returns m s Q -> exists a s', m s = Ok a s' /\ Q a s'.
Proof. unfold returns; destruct (m s); naive_solver. Qed.

Lemma returns_bind m (k : A -> M S B) s Q :
  returns m s (fun a s' => returns (k a) s' Q) -> returns (bindM m k) s Q.
Proof. unfold returns, bindM; destruct (m s); naive_solver. Qed.

Lemma returns_mono m s (Q Q' : A -> S -> Prop) :
  returns m s Q -> (forall a s', Q a s' -> Q' a s') -> returns m s Q'.
Proof. unfold returns; destruct (m s); naive_solver. Qed.

Lemma returns_eq m s m' s' Q : m s = m' s' -> returns m' s' Q -> returns m s Q.
Proof. unfold returns; now intros ->. Qed.

Lemma returns_seq m (k : A -> M S B) s (P : A -> S -> Prop) Q :
  returns m s P -> (forall a s', P a s' -> returns (k a) s' Q) -> returns (bindM m k) s Q.
Proof. intros Hm Hk. apply returns_bind. eapply returns_mono; eauto. Qed.

Lemma bindM_ok m (k : A -> M S B) s a s' : m s = Ok a s' -> bindM m k s = k a s'.
Proof. unfold bindM; now intros ->. Qed.

Lemma bindM_panic m (k : A -> M S B) s msg : m s = Panic msg -> bindM m k s = Panic msg.
Proof. unfold bindM; now intros ->. Qed.

Lemma bindM_ok_inv m (k : A -> M S B) s b s' :
  bindM m k s = Ok b s' -> exists a s1, m s = Ok a s1 /\ k a s1 = Ok b s'.
Proof. unfold bindM; destruct (m s); naive_solver. Qed.

Lemma returns_ret (a : A) s (Q : A -> S -> Prop) : Q a s -> returns (retM a) s Q.
Proof. exact id. Qed.
End Returns.

Lemma for_each_app {S A} (l1 l2 : list A) (f : A -> M S unit) s :
  for_each (l1 ++ l2) f s = bindM (for_each l1 f) (fun _ => for_each l2 f) s.
Proof.
  revert s; induction l1 as [|a l1 IH]; intros s; [done|]; simpl.
  unfold bindM at 1 2 3; destruct (f a s); auto.
Qed.

(** Rule for loops over a list: an invariant indexed by the elements done. *)
Lemma returns_for_each {S A} (l : list A) (f : A -> M S unit)
    (I : list A -> S -> Prop) s :
  I [] s ->
  (forall done a rest s, l = done ++ a :: rest -> I done s ->
     returns (f a) s (fun _ s' => I (done ++ [a]) s')) ->
  returns (for_each l f) s (fun _ s' => I l s').
Proof.
  intros H0 Hstep.
  assert (Hgen : forall rest done s, l = done ++ rest -> I done s ->
            returns (for_each rest f) s (fun _ s' => I l s')).
  { induction rest as [|a rest IH]; intros done s' -> HI.
    - rewrite app_nil_r. exact HI.
    - simpl. apply returns_bind. eapply returns_mono; [now eapply Hstep|].
      intros u s'' HI'. apply (IH (done ++ [a])); [now rewrite <- app_assoc|done]. }
  now apply (Hgen l []).
Qed.

(** Stepping through monadic code by rewriting. *)
Lemma bind_get {S A B} (f : S -> A) (k : A -> M S B) s : bindM (getM f) k s = k (f s) s.
Proof. done. Qed.
Lemma bind_modify {S B} (f : S -> S) (k : unit -> M S B) s : bindM (modifyM f) k s = k tt (f s).
Proof. done. Qed.
Lemma bind_ret {S A B} (a : A) (k : A -> M S B) s : bindM (retM a) k s = k a s.
Proof. done. Qed.
Lemma bind_assoc {S A B C} (m : M S A) (f : A -> M S B) (k : B -> M S C) s :
  bindM (bindM m f) k s = bindM m (fun a => bindM (f a) k) s.
Proof. unfold bindM. by destruct (m s). Qed.

(** *** Automation for running monadic code. *)
Create HintDb kernel.
#[export] Hint Resolve u32_range u64_range u8_range : kernel.

Ltac minv H :=
  repeat match type of H with
  | bindM _ _ _ = Ok _ _ =>
      let a := fresh "a" in let s1 := fresh "s" in let Ha := fresh "Hstep" in
      apply bindM_ok_inv in H as (a & s1 & Ha & H)
  end.

Ltac mrun := repeat first
  [ rewrite bind_assoc | rewrite bind_get | rewrite bind_modify | rewrite bind_ret ]; cbn beta.
Ltac mstep H := rewrite (bindM_ok _ _ _ _ _ H); cbn beta.

Ltac mred := cbn [bindM retM getM modifyM panicM blockM zoomM fst snd].

(** ** Little-endian encoding *)

Fixpoint le_val (bs : list Z) : Z :=
  match bs with
  | [] => 0
  | b :: t => b + 256 * le_val t
  end.

Fixpoint le_bytes (n : nat) (v : Z) : list Z :=
  match n with
  | O => []
  | S n => v mod 256 :: le_bytes n (v / 256)
  end.

Lemma length_le_bytes n v : length (le_bytes n v) = n.
Proof. revert v; induction n; simpl; auto. Qed.

Lemma le_bytes_byte n v : Forall is_byte (le_bytes n v).
Proof.
  revert v; induction n; simpl; constructor; auto.
  apply Z.mod_pos_bound; lia.
Qed.

Lemma le_val_bytes n v : le_val (le_bytes n v) = v mod 256 ^ Z.of_nat n.
Proof.
  revert v; induction n as [|n IH]; intros v.
  - simpl. now rewrite Z.mod_1_r.
  - cbn [le_bytes le_val]. rewrite IH, Nat2Z.inj_succ, Z.pow_succ_r by lia.
    rewrite Z.rem_mul_r; lia.
Qed.

Lemma le_val_range bs : Forall is_byte bs -> 0 <= le_val bs < 256 ^ Z.of_nat (length bs).
Proof.
  induction 1 as [|b t Hb _ IH]; [simpl; lia|].
  cbn [le_val length]. rewrite Nat2Z.inj_succ, Z.pow_succ_r by lia.
  unfold is_byte in Hb. lia.
Qed.

Lemma le_bytes_val bs : Forall is_byte bs -> le_bytes (length bs) (le_val bs) = bs.
Proof.
  induction 1 as [|b t Hb _ IH]; [done|].
  cbn [length le_val le_bytes]. unfold is_byte in Hb. f_equal.
  - rewrite Z.mul_comm, Z.mod_add, Z.mod_small; lia.
  - replace ((b + 256 * le_val t) / 256) with (le_val t); [done|].
    rewrite Z.mul_comm, Z.div_add, Z.div_small; lia.
Qed.

Lemma le_val_zeros n : le_val (replicate n 0) = 0.
Proof. induction n; simpl; lia. Qed.

(** ** Byte arrays: reading and overwriting a slice at an offset

    Struct fields of an in-memory block are read and written through a cast
    pointer; [get_at]/[put_at] are that access on the byte list. *)

Definition slice {A} (off n : nat) (l : list A) : list A := take n (drop off l).
Definition splice {A} (off : nat) (new l : list A) : list A :=
  take off l ++ new ++ drop (off + length new) l.

Section Splice.
Context {A : Type}.
Implicit Types l new : list A.

Lemma length_splice off new l :
  (off + length new <= length l)%nat -> length (splice off new l) = length l.
Proof.
  intros. unfold splice. rewrite !length_app, length_take, length_drop. lia.
Qed.

Lemma length_slice off n l : (off + n <= length l)%nat -> length (slice off n l) = n.
Proof. intros; unfold slice. rewrite length_take, length_drop. lia. Qed.

Lemma lookup_slice off n l (i : nat) :
  (i < n)%nat -> slice off n l !! i = l !! (off + i)%nat.
Proof. intros; unfold slice. rewrite lookup_take_lt by done. apply lookup_drop. Qed.

Lemma lookup_splice off new l (i : nat) :
  (off + length new <= length l)%nat ->
  splice off new l !! i =
    if decide (off <= i < off + length new)%nat then new !! (i - off)%nat else l !! i.
Proof.
  intros Hlen. unfold splice. case_decide as Hi.
  - rewrite lookup_app_r, length_take by (rewrite length_take; lia).
    rewrite lookup_app_l by (rewrite ?length_take; lia). f_equal; lia.
  - destruct (decide (i < off)%nat).
    + rewrite lookup_app_l by (rewrite length_take; lia). now apply lookup_take_lt.
    + rewrite lookup_app_r, length_take by (rewrite length_take; lia).
      rewrite lookup_app_r by lia. rewrite lookup_drop. f_equal; lia.
Qed.

Lemma slice_splice_eq off new l :
  (off + length new <= length l)%nat -> slice off (length new) (splice off new l) = new.
Proof.
  intros. apply list_eq; intros i.
  destruct (decide (i < length new)%nat).
  - rewrite lookup_slice, lookup_splice, decide_True by lia. f_equal; lia.
  - rewrite !lookup_ge_None_2; [done|lia|].
    rewrite length_slice; [lia|]. rewrite length_splice; lia.
Qed.

Lemma slice_splice_ne off off' n new l :
  (off + length new <= length l)%nat ->
  (off' + n <= off \/ off + length new <= off')%nat ->
  slice off' n (splice off new l) = slice off' n l.
Proof.
  intros. apply list_eq; intros i. unfold slice.
  destruct (decide (i < n)%nat).
  - rewrite !lookup_take_lt, !lookup_drop by done.
    rewrite lookup_splice, decide_False by lia. done.
  - rewrite !lookup_take_ge; [done|lia|lia].
Qed.

Lemma Forall_splice (P : A -> Prop) off new l :
  Forall P new -> Forall P l -> Forall P (splice off new l).
Proof.
  intros. unfold splice.
  apply Forall_app; split; [now apply Forall_take|].
  apply Forall_app; split; [done|now apply Forall_drop].
Qed.
End Splice.

Definition get_at (n : nat) (off : Z) (bs : list Z) : Z :=
  le_val (slice (Z.to_nat off) n bs).
Definition put_at (n : nat) (off v : Z) (bs : list Z) : list Z :=
  splice (Z.to_nat off) (le_bytes n v) bs.

Abbreviation get32 := (get_at 4).
Abbreviation put32 := (put_at 4).
Abbreviation get16 := (get_at 2).
Abbreviation put16 := (put_at 2).
Abbreviation get64 := (get_at 8).
Abbreviation put64 := (put_at 8).

Lemma length_put_at n off v bs :
  0 <= off -> off + Z.of_nat n <= Z.of_nat (length bs) ->
  length (put_at n off v bs) = length bs.
Proof. intros. unfold put_at. apply length_splice. rewrite length_le_bytes. lia. Qed.

Lemma get_put_eq n off v bs :
  0 <= off -> off + Z.of_nat n <= Z.of_nat (length bs) ->
  get_at n off (put_at n off v bs) = v mod 256 ^ Z.of_nat n.
Proof.
  intros. unfold get_at, put_at.
  rewrite <- (length_le_bytes n v) at 1.
  rewrite slice_splice_eq by (rewrite length_le_bytes; lia).
  apply le_val_bytes.
Qed.

Lemma get_put_ne n n' off off' v bs :
  0 <= off -> 0 <= off' -> off + Z.of_nat n <= Z.of_nat (length bs) ->
  off' + Z.of_nat n' <= off \/ off + Z.of_nat n <= off' ->
  get_at n' off' (put_at n off v bs) = get_at n' off' bs.
Proof.
  intros. unfold get_at, put_at.
  rewrite slice_splice_ne; rewrite ?length_le_bytes; [done|lia|lia].
Qed.

Lemma get_at_range n off bs : Forall is_byte bs -> 0 <= off ->
  off + Z.of_nat n <= Z.of_nat (length bs) ->
  0 <= get_at n off bs < 256 ^ Z.of_nat n.
Proof.
  intros Hb Ho Hl. unfold get_at.
  pose proof (le_val_range (slice (Z.to_nat off) n bs)) as H.
  rewrite length_slice in H by lia. apply H.
  unfold slice. now apply Forall_take, Forall_drop.
Qed.

Lemma put_at_byte n off v bs : Forall is_byte bs -> Forall is_byte (put_at n off v bs).
Proof. intros. apply Forall_splice; auto using le_bytes_byte. Qed.

#[export] Hint Resolve le_bytes_byte put_at_byte : kernel.
