(* ===== verification/Hoare.v ===== *)
(** * Invariants of kernel routines

    [triple P m Q B]: from a state in [P], a routine that returns ends in [Q],
    and one that goes to sleep leaves a state in [B].  [keeps P B m F] is the
    case of an invariant [P], with a fact [F] about the result. *)

From stdpp Require Import base list strings.
From Stdlib Require Import ZArith Lia.
From S2P Require Import Prelude.
Open Scope Z_scope.

Definition triple {S A} (P : S -> Prop) (m : M S A) (Q : A -> S -> Prop) (B : S -> Prop) : Prop :=
  forall s, P s ->
    match m s with
    | Ok a s' => Q a s'
    | Block s' => B s'
    | Panic _ | NoFuel => True
    end.

Definition keeps {S A} (P B : S -> Prop) (m : M S A) (F : A -> Prop) : Prop :=
  triple P m (fun a s => P s /\ F a) B.

(** A state that satisfies the invariant is one a sleeper may leave. *)
Class Weaker {S} (P B : S -> Prop) := weaker : forall s, P s -> B s.
#[export] Instance weaker_refl {S} (P : S -> Prop) : Weaker P P.
Proof. by intros s. Qed.
#[export] Instance weaker_True {S} (P : S -> Prop) : Weaker P (fun _ => True).
Proof. by intros s. Qed.
#[export] Instance weaker_and {S} (P X B : S -> Prop) : Weaker P B -> Weaker (fun s => P s /\ X s) B.
Proof. intros H s [Hs _]. by apply H. Qed.

Section Hoare.
Context {S : Type}.
Implicit Types (P B : S -> Prop).

Lemma triple_bind {A A'} P (m : M S A) (f : A -> M S A') Q R B :
  triple P m Q B -> (forall a, triple (Q a) (f a) R B) -> triple P (bindM m f) R B.
Proof.
  intros Hm Hf s Hs. specialize (Hm s Hs). unfold bindM. destruct (m s) as [a s'| | |]; try done. by apply Hf.
Qed.

Lemma triple_conseq {A} P P' (m : M S A) Q Q' B :
  triple P m Q B -> (forall s, P' s -> P s) -> (forall a s, Q a s -> Q' a s) -> triple P' m Q' B.
Proof. intros Hm HP HQ s Hs. specialize (Hm s (HP s Hs)). destruct (m s); try done. by apply HQ. Qed.

(** A fact that does not depend on the state. *)
Lemma triple_pure {A} P (X : Prop) (m : M S A) Q B : (X -> triple P m Q B) -> triple (fun s => P s /\ X) m Q B.
Proof. intros Hm s [Hs HX]. by apply Hm. Qed.
(** The value read is that of the state the continuation starts from. *)
Lemma triple_get {A A'} P (g : S -> A) (f : A -> M S A') Q B :
  (forall a, triple (fun s => P s /\ a = g s) (f a) Q B) -> triple P (bindM (getM g) f) Q B.
Proof. intros Hf s Hs. by apply (Hf (g s) s). Qed.
Lemma triple_keeps {A} P P' (m : M S A) F Q B :
  keeps P B m F -> (forall s, P' s -> P s) -> (forall a s, P s -> F a -> Q a s) -> triple P' m Q B.
Proof. intros Hm HP HQ. eapply triple_conseq; [exact Hm|exact HP|]. intros a s [Hs Ha]; auto. Qed.
Lemma triple_kept {A} P (m : M S A) B : keeps P B m (fun _ => True) -> triple P m (fun _ => P) B.
Proof. intros Hm. by eapply triple_keeps; [exact Hm| |]. Qed.
Lemma triple_pre {A} P P' (m : M S A) Q B : triple P m Q B -> (forall s, P' s -> P s) -> triple P' m Q B.
Proof. intros Hm HP s Hs. apply Hm. by apply HP. Qed.
(** A step that keeps the precondition. *)
Lemma triple_then {A A'} P (m : M S A) (f : A -> M S A') F R B :
  keeps P B m F -> (forall a, F a -> triple P (f a) R B) -> triple P (bindM m f) R B.
Proof. intros Hm Hf. eapply triple_bind; [exact Hm|]. intros a s [Hs Ha]. by apply (Hf a Ha). Qed.
Lemma triple_seq {A A'} P (m : M S A) (f : A -> M S A') R B :
  keeps P B m (fun _ => True) -> (forall a, triple P (f a) R B) -> triple P (bindM m f) R B.
Proof. intros Hm Hf. eapply triple_then; [exact Hm|]. auto. Qed.

Lemma keeps_bind {A A'} P B (m : M S A) (f : A -> M S A') F G :
  keeps P B m F -> (forall a, F a -> keeps P B (f a) G) -> keeps P B (bindM m f) G.
Proof.
  intros Hm Hf. eapply triple_bind; [exact Hm|]. intros a s [Hs Ha]. by apply (Hf a Ha).
Qed.
(** After a routine about whose result nothing is needed. *)
Lemma keeps_seq {A A'} P B (m : M S A) (f : A -> M S A') G :
  keeps P B m (fun _ => True) -> (forall a, keeps P B (f a) G) -> keeps P B (bindM m f) G.
Proof. intros Hm Hf. eapply keeps_bind; [exact Hm|]. auto. Qed.
Lemma keeps_mono {A} P B (m : M S A) (F G : A -> Prop) : keeps P B m F -> (forall a, F a -> G a) -> keeps P B m G.
Proof. intros Hm HG. eapply triple_conseq; [exact Hm|done|]. intros a s [Hs Ha]; auto. Qed.
Lemma keeps_ret {A} P B (a : A) (F : A -> Prop) : F a -> keeps P B (retM a) F.
Proof. by intros Ha s Hs. Qed.
Lemma keeps_panic {A} P B msg (F : A -> Prop) : keeps P B (panicM msg) F.
Proof. by intros s Hs. Qed.
Lemma keeps_nofuel {A} P B (F : A -> Prop) : keeps P B (fun _ => NoFuel) F.
Proof. by intros s Hs. Qed.
Lemma keeps_block {A} P B `{!Weaker P B} (F : A -> Prop) : keeps P B blockM F.
Proof. intros s Hs. by apply weaker. Qed.
(** What is read is read from a state of the invariant. *)
Lemma keeps_get {A} P B (g : S -> A) : keeps P B (getM g) (fun a => exists s, P s /\ a = g s).
Proof. intros s Hs. cbn. eauto. Qed.
Lemma keeps_modify P B (f : S -> S) : (forall s, P s -> P (f s)) -> keeps P B (modifyM f) (fun _ => True).
Proof. intros Hf s Hs. cbn. auto. Qed.
Lemma keeps_zoom {T A} P B `{!Weaker P B} (get : S -> T) put (m : M T A) :
  (forall v s, P s -> P (put v s)) -> keeps P B (zoomM get put m) (fun _ => True).
Proof.
  intros Hput s Hs. unfold zoomM. destruct (m (get s)); try done; [split; auto|]. apply weaker; auto.
Qed.
Lemma keeps_for_each {A} P B (l : list A) (f : A -> M S unit) :
  (forall a, a ∈ l -> keeps P B (f a) (fun _ => True)) -> keeps P B (for_each l f) (fun _ => True).
Proof.
  induction l as [|a l IH]; cbn [for_each]; intros H; [by apply keeps_ret|].
  apply keeps_seq; [apply H; left|]. intros _. apply IH. intros a' Ha'. apply H. by right.
Qed.
End Hoare.

Create HintDb keeps discriminated.
#[export] Hint Constants Opaque : keeps.
#[export] Hint Extern 0 (Weaker _ _) => apply _ : keeps.
#[export] Hint Resolve keeps_panic keeps_nofuel keeps_block : keeps.
#[export] Hint Extern 10 (keeps _ _ (getM _) _) => apply keeps_get : keeps.

(** [kstep] takes a routine apart: each call by its rule in [keeps], the rest by
    the shape of the code. *)
Ltac kread := match goal with H : exists _, _ /\ _ = _ |- _ => destruct H as (? & ? & H) end.
Ltac keta :=
  lazymatch goal with
  | |- keeps (fun s => ?P s) ?B ?m ?F => change (keeps P B m F)
  | |- triple (fun s => ?P s) ?m ?Q ?B => change (triple P m Q B)
  | |- _ => idtac
  end.
Ltac kstep :=
  keta;
  lazymatch goal with
  | |- keeps _ _ (retM _) _ => apply keeps_ret
  | |- keeps _ _ (bindM _ _) _ =>
      first [ eapply keeps_bind; [solve [eauto 3 with keeps]|intros ? ?]
            | apply keeps_seq; [|intros ?] ]
  | |- triple _ (bindM _ _) _ _ =>
      first [ eapply triple_then; [solve [eauto 3 with keeps]|intros ? ?]
            | apply triple_seq; [|intros ?] ]
  | |- keeps _ _ (if ?b then _ else _) _ => destruct b eqn:?
  | |- triple _ (if ?b then _ else _) _ _ => destruct b eqn:?
  | |- keeps _ _ (match ?x with _ => _ end) _ => destruct x eqn:?
  | |- keeps _ _ _ _ => first [solve [eauto 3 with keeps] | eapply keeps_mono; [solve [eauto 3 with keeps]|]]
  end.
Ltac krun := repeat (kstep; cbn beta zeta in * ); try done.
