(* ===== verification/Mem.v ===== *)
(** * Physical memory and kernel/string.c

    Physical memory is a finite map from addresses to bytes (an address never
    written reads as 0).  The routines of [kernel/string.c] run on it with the
    source's loops; the theorems relate each loop to what it is for: [memmove]
    copies as if through a temporary buffer even when the ranges overlap,
    [safestrcpy] always leaves a terminated string, [strncmp] and [memcmp]
    decide equality of prefixes. *)

From stdpp Require Import base list gmap strings.
From Stdlib Require Import ZArith Lia.
From S2P Require Import Prelude.
Open Scope Z_scope.

Abbreviation mem := (gmap Z Z).

Definition mget (m : mem) (a : Z) : Z := default 0 (m !! a).
Definition mset (m : mem) (a v : Z) : mem := <[a := v]> m.

Lemma mget_mset m a v x : mget (mset m a v) x = if decide (x = a) then v else mget m x.
Proof.
  unfold mget, mset. case_decide; subst.
  - now rewrite lookup_insert_eq.
  - now rewrite lookup_insert_ne.
Qed.

Lemma mget_mset_eq m a v : mget (mset m a v) a = v.
Proof. rewrite mget_mset. now rewrite decide_True. Qed.

Lemma mget_mset_ne m a v x : x <> a -> mget (mset m a v) x = mget m x.
Proof. intros. rewrite mget_mset. now rewrite decide_False. Qed.

(** Reading and writing a run of bytes. *)
Fixpoint mread (m : mem) (a : Z) (n : nat) : list Z :=
  match n with
  | O => []
  | S n => mget m a :: mread m (a + 1) n
  end.

Fixpoint mwrite (m : mem) (a : Z) (bs : list Z) : mem :=
  match bs with
  | [] => m
  | b :: t => mwrite (mset m a b) (a + 1) t
  end.

Lemma length_mread m a n : length (mread m a n) = n.
Proof. revert a; induction n; simpl; auto. Qed.

Lemma lookup_mread m a n (i : nat) :
  (i < n)%nat -> mread m a n !! i = Some (mget m (a + Z.of_nat i)).
Proof.
  revert a i; induction n as [|n IH]; intros a i Hi; [lia|].
  destruct i; simpl; [do 2 f_equal; lia|].
  rewrite IH by lia. do 2 f_equal; lia.
Qed.

Lemma mread_ext m m' a n :
  (forall x, a <= x < a + Z.of_nat n -> mget m x = mget m' x) -> mread m a n = mread m' a n.
Proof.
  revert a; induction n as [|n IH]; intros a H; [done|]; simpl.
  f_equal; [apply H; lia|]. apply IH; intros; apply H; lia.
Qed.

Lemma mget_mwrite m a bs x :
  mget (mwrite m a bs) x =
    if decide (a <= x < a + Z.of_nat (length bs))
    then nth (Z.to_nat (x - a)) bs 0 else mget m x.
Proof.
  revert m a; induction bs as [|b bs IH]; intros m a; simpl.
  { rewrite decide_False by lia. done. }
  rewrite IH, mget_mset. repeat case_decide; try lia; try done.
  - replace (Z.to_nat (x - a)) with (S (Z.to_nat (x - (a + 1)))) by lia. done.
  - replace (x - a) with 0 by lia. done.
Qed.

Lemma mget_mwrite_out m a bs x :
  x < a \/ a + Z.of_nat (length bs) <= x -> mget (mwrite m a bs) x = mget m x.
Proof. intros. rewrite mget_mwrite. now rewrite decide_False by lia. Qed.

Lemma mread_mwrite_eq m a bs : mread (mwrite m a bs) a (length bs) = bs.
Proof.
  apply list_eq; intros i. destruct (decide (i < length bs)%nat).
  - rewrite lookup_mread by done. rewrite mget_mwrite, decide_True by lia.
    replace (Z.to_nat (a + Z.of_nat i - a)) with i by lia.
    symmetry. rewrite (nth_lookup bs i 0).
    destruct (bs !! i) eqn:E; [done|]. apply lookup_ge_None in E. lia.
  - rewrite !lookup_ge_None_2; rewrite ?length_mread; auto; lia.
Qed.

Lemma mread_mwrite_ne m a bs x n :
  x + Z.of_nat n <= a \/ a + Z.of_nat (length bs) <= x ->
  mread (mwrite m a bs) x n = mread m x n.
Proof. intros. apply mread_ext. intros. apply mget_mwrite_out. lia. Qed.

(** 64-bit words, little endian. *)
Definition load64 (m : mem) (a : Z) : Z := le_val (mread m a 8).
Definition store64 (m : mem) (a v : Z) : mem := mwrite m a (le_bytes 8 v).

Lemma load64_store64_eq m a v : load64 (store64 m a v) a = u64 v.
Proof.
  unfold load64, store64. change 8%nat with (length (le_bytes 8 v)) at 1.
  rewrite mread_mwrite_eq. rewrite le_val_bytes. done.
Qed.

Lemma load64_store64_ne m a v x :
  x + 8 <= a \/ a + 8 <= x -> load64 (store64 m a v) x = load64 m x.
Proof.
  intros. unfold load64, store64. rewrite mread_mwrite_ne; [done|].
  rewrite length_le_bytes. lia.
Qed.

Lemma mget_store64_out m a v x :
  x < a \/ a + 8 <= x -> mget (store64 m a v) x = mget m x.
Proof. intros. apply mget_mwrite_out. rewrite length_le_bytes. lia. Qed.

Lemma load64_ext m m' a :
  (forall x, a <= x < a + 8 -> mget m x = mget m' x) -> load64 m a = load64 m' a.
Proof. intros. unfold load64. f_equal. now apply mread_ext. Qed.

(** ** kernel/string.c *)

(** [memset]: [n] byte stores of [(char)c]. *)
Fixpoint memset_loop (m : mem) (cdst : Z) (c : Z) (i : Z) (k : nat) : mem :=
  match k with
  | O => m
  | S k => memset_loop (mset m (cdst + i) (u8 c)) cdst c (i + 1) k
  end.
Definition memset (m : mem) (dst c n : Z) : mem := memset_loop m dst c 0 (Z.to_nat n).

Lemma mget_memset_loop m dst c i k x :
  mget (memset_loop m dst c i k) x =
    if decide (dst + i <= x < dst + i + Z.of_nat k) then u8 c else mget m x.
Proof.
  revert m i; induction k as [|k IH]; intros m i; cbn [memset_loop].
  { now rewrite decide_False by lia. }
  rewrite IH, mget_mset. repeat case_decide; try lia; done.
Qed.

Lemma mget_memset m dst c n x :
  mget (memset m dst c n) x = if decide (dst <= x < dst + n) then u8 c else mget m x.
Proof.
  unfold memset. rewrite mget_memset_loop.
  repeat case_decide; try lia; done.
Qed.

Lemma mget_memset_in m dst c n x : dst <= x < dst + n -> mget (memset m dst c n) x = u8 c.
Proof. intros. rewrite mget_memset. now rewrite decide_True. Qed.

Lemma mget_memset_out m dst c n x :
  x < dst \/ dst + n <= x -> mget (memset m dst c n) x = mget m x.
Proof. intros. rewrite mget_memset. now rewrite decide_False by lia. Qed.

Lemma load64_memset_out m dst c n a :
  a + 8 <= dst \/ dst + n <= a -> load64 (memset m dst c n) a = load64 m a.
Proof. intros. apply load64_ext. intros. apply mget_memset_out. lia. Qed.

Lemma load64_memset_zero m dst n a :
  dst <= a -> a + 8 <= dst + n -> load64 (memset m dst 0 n) a = 0.
Proof.
  intros. unfold load64.
  replace (mread (memset m dst 0 n) a 8) with (replicate 8 0).
  { apply le_val_zeros. }
  apply list_eq; intros i. destruct (decide (i < 8)%nat).
  - rewrite lookup_mread, lookup_replicate_2 by done.
    rewrite mget_memset_in by lia. done.
  - rewrite !lookup_ge_None_2; rewrite ?length_mread, ?length_replicate; auto; lia.
Qed.

(** [memcmp]: 0, or the difference of the first differing bytes. *)
Fixpoint memcmp (m : mem) (s1 s2 : Z) (n : nat) : Z :=
  match n with
  | O => 0
  | S n =>
      if negb (mget m s1 =? mget m s2) then mget m s1 - mget m s2
      else memcmp m (s1 + 1) (s2 + 1) n
  end.

(** [memmove]: the two copy loops, [*--d = *--s] and [*d++ = *s++]. *)
Fixpoint copy_backward (m : mem) (d s : Z) (n : nat) : mem :=
  match n with
  | O => m
  | S n => copy_backward (mset m (d - 1) (mget m (s - 1))) (d - 1) (s - 1) n
  end.
Fixpoint copy_forward (m : mem) (d s : Z) (n : nat) : mem :=
  match n with
  | O => m
  | S n => copy_forward (mset m d (mget m s)) (d + 1) (s + 1) n
  end.

Definition memmove (m : mem) (dst src n : Z) : mem :=
  if n =? 0 then m
  else if (src <? dst) && (dst <? src + n)
       then copy_backward m (dst + n) (src + n) (Z.to_nat n)
       else copy_forward m dst src (Z.to_nat n).

Definition memcpy (m : mem) (dst src n : Z) : mem := memmove m dst src n.

(** [strncmp] on memory. *)
Fixpoint strncmp (m : mem) (p q : Z) (n : nat) : Z :=
  match n with
  | O => 0
  | S n' =>
      if negb (mget m p =? 0) && (mget m p =? mget m q)
      then strncmp m (p + 1) (q + 1) n'
      else u8 (mget m p) - u8 (mget m q)
  end.

(** [strncpy]: the second loop of the source, padding with NULs. *)
Fixpoint strncpy_pad (m : mem) (s : Z) (n : nat) : mem :=
  match n with
  | O => m
  | S n => strncpy_pad (mset m s 0) (s + 1) n
  end.
Fixpoint strncpy_loop (m : mem) (s t : Z) (n : nat) : mem :=
  match n with
  | O => m
  | S n =>
      let m := mset m s (mget m t) in
      if negb (mget m s =? 0) then strncpy_loop m (s + 1) (t + 1) n
      else strncpy_pad m (s + 1) n
  end.
Definition strncpy (m : mem) (s t n : Z) : mem := strncpy_loop m s t (Z.to_nat n).

(** [safestrcpy]: [n] is the value of [--n] tested by the loop. *)
Fixpoint safestrcpy_loop (m : mem) (s t : Z) (n : nat) : mem :=
  match n with
  | O => mset m s 0
  | S n =>
      let m := mset m s (mget m t) in
      if negb (mget m s =? 0) then safestrcpy_loop m (s + 1) (t + 1) n
      else mset m (s + 1) 0
  end.
Definition safestrcpy (m : mem) (s t n : Z) : mem :=
  if n <=? 0 then m else safestrcpy_loop m s t (Z.to_nat (n - 1)).

(** [strlen] has no bound of its own; [fuel] bounds the scan. *)
Fixpoint strlen_loop (m : mem) (s n : Z) (fuel : nat) : option Z :=
  match fuel with
  | O => None
  | S fuel => if mget m (s + n) =? 0 then Some n else strlen_loop m s (n + 1) fuel
  end.
Definition strlen (m : mem) (s : Z) (fuel : nat) : option Z := strlen_loop m s 0 fuel.

#[global] Arguments memset : simpl never.
#[global] Arguments memmove : simpl never.
#[global] Arguments load64 : simpl never.
#[global] Arguments store64 : simpl never.

(** ** What the string routines compute *)

Lemma copy_forward_spec m d s n x :
  d <= s \/ s + Z.of_nat n <= d ->
  mget (copy_forward m d s n) x =
    if decide (d <= x < d + Z.of_nat n) then mget m (s + (x - d)) else mget m x.
Proof.
  revert m d s; induction n as [|n IH]; intros m d s H; cbn [copy_forward].
  { now rewrite decide_False by lia. }
  rewrite IH by lia. rewrite !mget_mset.
  repeat case_decide; subst; try lia; try done; f_equal; lia.
Qed.

Lemma copy_backward_spec m d s n x :
  s <= d \/ d <= s - Z.of_nat n ->
  mget (copy_backward m d s n) x =
    if decide (d - Z.of_nat n <= x < d) then mget m (s + (x - d)) else mget m x.
Proof.
  revert m d s; induction n as [|n IH]; intros m d s H; cbn [copy_backward].
  { now rewrite decide_False by lia. }
  rewrite IH by lia. rewrite !mget_mset.
  repeat case_decide; subst; try lia; try done; f_equal; lia.
Qed.

Lemma memmove_spec (m : mem) (dst src : Z) (n : nat) (x : Z) :
  mget (memmove m dst src (Z.of_nat n)) x =
    if decide (dst <= x < dst + Z.of_nat n) then mget m (src + (x - dst)) else mget m x.
Proof.
  unfold memmove. destruct (Z.eqb_spec (Z.of_nat n) 0).
  { now rewrite decide_False by lia. }
  rewrite Nat2Z.id.
  destruct (Z.ltb_spec src dst), (Z.ltb_spec dst (src + Z.of_nat n)); simpl;
    rewrite ?copy_backward_spec, ?copy_forward_spec by lia;
    repeat case_decide; try lia; try done; f_equal; lia.
Qed.

Lemma mget_memmove_out m dst src n x : 0 <= n ->
  x < dst \/ dst + n <= x -> mget (memmove m dst src n) x = mget m x.
Proof.
  intros Hn H. rewrite <- (Z2Nat.id n) by done. rewrite memmove_spec.
  now rewrite decide_False by lia.
Qed.

Lemma mget_memmove_in m dst src n x : 0 <= n ->
  dst <= x < dst + n -> mget (memmove m dst src n) x = mget m (src + (x - dst)).
Proof.
  intros Hn H. rewrite <- (Z2Nat.id n) by done. rewrite memmove_spec.
  now rewrite decide_True by lia.
Qed.

(** [memmove] moves [n] bytes from [src] to [dst] as if through a
    temporary buffer, for any overlap of the two ranges, and changes nothing
    outside the destination. *)
Theorem memmove_correct (m : mem) (dst src : Z) (n : nat) (x : Z) :
  mget (memmove m dst src (Z.of_nat n)) x =
    if decide (dst <= x < dst + Z.of_nat n) then mget m (src + (x - dst)) else mget m x.
Proof. apply memmove_spec. Qed.

(** [cstr m a l]: the NUL-terminated string at [a] is [l]. *)
Fixpoint cstr (m : mem) (a : Z) (l : list Z) : Prop :=
  match l with
  | [] => mget m a = 0
  | b :: l => mget m a = b /\ b <> 0 /\ cstr m (a + 1) l
  end.

Lemma cstr_ext m m' a l :
  (forall x, a <= x <= a + Z.of_nat (length l) -> mget m x = mget m' x) ->
  cstr m a l -> cstr m' a l.
Proof.
  revert a; induction l as [|b l IH]; intros a Heq; simpl in *.
  - intros <-. symmetry; apply Heq; lia.
  - intros (<- & Hb & Hl). split_and!; [symmetry; apply Heq; lia|done|].
    apply IH; [|done]. intros; apply Heq; lia.
Qed.

Lemma memcmp_zero_iff m a b n : memcmp m a b n = 0 <-> mread m a n = mread m b n.
Proof.
  revert a b; induction n as [|n IH]; intros a b; cbn [memcmp mread]; [done|].
  destruct (Z.eqb_spec (mget m a) (mget m b)) as [E|E]; simpl.
  - rewrite IH, E. split; [now intros ->|congruence].
  - split; [lia|]. intros [= ? ?]; congruence.
Qed.

Lemma strlen_loop_cstr m s n l fuel :
  cstr m (s + n) l -> (length l < fuel)%nat ->
  strlen_loop m s n fuel = Some (n + Z.of_nat (length l)).
Proof.
  revert n fuel; induction l as [|b l IH]; intros n [|fuel] H Hf; simpl in *; try lia.
  - rewrite H. simpl. f_equal; lia.
  - destruct H as (Hb & Hb0 & Hl). rewrite Hb.
    destruct (Z.eqb_spec b 0); [done|].
    rewrite IH; [f_equal; lia| |lia]. now rewrite Z.add_assoc.
Qed.

Lemma strlen_cstr m s l fuel :
  cstr m s l -> (length l < fuel)%nat -> strlen m s fuel = Some (Z.of_nat (length l)).
Proof.
  intros. unfold strlen. rewrite (strlen_loop_cstr _ _ _ l); auto.
  now rewrite Z.add_0_r.
Qed.

(** [strncmp] decides whether the first [n] characters agree. *)
Lemma strncmp_zero_iff m p q lp lq n :
  cstr m p lp -> cstr m q lq -> Forall is_byte lp -> Forall is_byte lq ->
  strncmp m p q n = 0 <-> take n lp = take n lq.
Proof.
  revert p q lp lq; induction n as [|n IH]; intros p q lp lq Hp Hq Bp Bq; [done|].
  cbn [strncmp].
  destruct lp as [|a lp], lq as [|b lq]; simpl in *;
    repeat match goal with H : _ /\ _ |- _ => destruct H end;
    repeat match goal with H : Forall _ (_ :: _) |- _ => inversion H; clear H; subst end;
    unfold is_byte in *.
  - rewrite Hp, Hq. done.
  - rewrite Hp. simpl. unfold u8. rewrite (Z.mod_small (mget m q)) by done.
    split; [|done]. change (0 mod 2 ^ 8) with 0. lia.
  - rewrite Hq. destruct (Z.eqb_spec (mget m p) 0); [lia|]; simpl.
    unfold u8. rewrite Z.mod_small by done. change (0 mod 2 ^ 8) with 0. split; [lia|done].
  - destruct (Z.eqb_spec (mget m p) 0); [lia|]; simpl.
    destruct (Z.eqb_spec (mget m p) (mget m q)) as [E|E].
    + rewrite (IH _ _ lp lq) by done. rewrite E. split; [now intros ->|congruence].
    + unfold u8. rewrite !Z.mod_small by done. split; [lia|].
      intros [= ? ?]; congruence.
Qed.

Lemma mget_strncpy_pad m s n x :
  mget (strncpy_pad m s n) x = if decide (s <= x < s + Z.of_nat n) then 0 else mget m x.
Proof.
  revert m s; induction n as [|n IH]; intros m s; cbn [strncpy_pad].
  { now rewrite decide_False by lia. }
  rewrite IH, mget_mset. repeat case_decide; try lia; done.
Qed.

(** [strncpy] of a string that does not overlap the destination stores its
    first [n] characters, padded with NULs to exactly [n] bytes. *)
Lemma strncpy_loop_spec m s t l n x :
  cstr m t l ->
  s + Z.of_nat n <= t \/ t + Z.of_nat (length l) < s ->
  mget (strncpy_loop m s t n) x =
    if decide (s <= x < s + Z.of_nat n) then nth (Z.to_nat (x - s)) l 0 else mget m x.
Proof.
  revert m s t l; induction n as [|n IH]; intros m s t l Hl Hd; cbn [strncpy_loop].
  { now rewrite decide_False by lia. }
  rewrite !mget_mset_eq. destruct l as [|b l]; simpl in Hl.
  - rewrite Hl. simpl. rewrite mget_strncpy_pad, mget_mset.
    repeat case_decide; try lia; try done; destruct (Z.to_nat _); done.
  - destruct Hl as (Hb & Hb0 & Hl). rewrite Hb.
    destruct (Z.eqb_spec b 0); [done|]; simpl.
    rewrite (IH _ _ _ l); simpl in *; [|eapply cstr_ext; [|done]|lia].
    + rewrite mget_mset. repeat case_decide; subst; try lia; try done.
      * replace (Z.to_nat (x - s)) with (S (Z.to_nat (x - (s + 1)))) by lia. done.
      * rewrite Z.sub_diag. done.
    + intros. rewrite mget_mset_ne; [done|lia].
Qed.

Lemma strncpy_mread m s t l n :
  cstr m t l -> s + Z.of_nat n <= t \/ t + Z.of_nat (length l) < s ->
  mread (strncpy m s t (Z.of_nat n)) s n = take n (l ++ replicate n 0).
Proof.
  intros Hl Hd. unfold strncpy. rewrite Nat2Z.id. apply list_eq; intros i.
  destruct (decide (i < n)%nat).
  - rewrite lookup_mread by done.
    rewrite (strncpy_loop_spec _ _ _ l), decide_True by (done || lia).
    replace (Z.to_nat (s + Z.of_nat i - s)) with i by lia.
    rewrite lookup_take_lt by done.
    destruct (decide (i < length l)%nat).
    + rewrite lookup_app_l, nth_lookup by done.
      destruct (l !! i) eqn:E; [done|]. apply lookup_ge_None in E; lia.
    + rewrite lookup_app_r, nth_overflow by lia.
      rewrite lookup_replicate_2; [done|lia].
  - rewrite !lookup_ge_None_2; rewrite ?length_mread, ?length_take, ?length_app; auto; lia.
Qed.

Lemma safestrcpy_loop_spec m s t l n :
  cstr m t l ->
  s + Z.of_nat n < t \/ t + Z.of_nat (length l) < s ->
  cstr (safestrcpy_loop m s t n) s (take n l) /\
  (forall x, x < s \/ s + Z.of_nat n < x -> mget (safestrcpy_loop m s t n) x = mget m x).
Proof.
  revert m s t l; induction n as [|n IH]; intros m s t l Hl Hd; cbn [safestrcpy_loop].
  { simpl. rewrite mget_mset_eq. split; [done|]. intros. apply mget_mset_ne. lia. }
  rewrite !mget_mset_eq. destruct l as [|b l]; simpl in Hl.
  - rewrite Hl. simpl. rewrite mget_mset_ne, mget_mset_eq by lia. split; [done|].
    intros. rewrite !mget_mset_ne by lia. done.
  - destruct Hl as (Hb & Hb0 & Hl). rewrite Hb.
    destruct (Z.eqb_spec b 0); [done|]; simpl in *.
    destruct (IH (mset m s b) (s + 1) (t + 1) l) as [H1 H2]; [|lia|].
    { eapply cstr_ext; [|done]. intros. rewrite mget_mset_ne; [done|lia]. }
    split.
    + split_and!; [|done|done]. rewrite H2 by lia. apply mget_mset_eq.
    + intros x Hx. rewrite H2 by lia. apply mget_mset_ne. lia.
Qed.

(** [safestrcpy] into an [n]-byte buffer leaves there the source string cut
    to [n-1] characters, always NUL-terminated, and touches nothing outside
    the buffer. *)
Theorem safestrcpy_terminates_string (m : mem) (s t : Z) (l : list Z) (n : Z)
    (Hn : 0 < n) (Hl : cstr m t l)
    (Hd : s + n <= t \/ t + Z.of_nat (length l) < s) :
  cstr (safestrcpy m s t n) s (take (Z.to_nat (n - 1)) l) /\
  (forall x, x < s \/ s + n <= x -> mget (safestrcpy m s t n) x = mget m x).
Proof.
  unfold safestrcpy. destruct (Z.leb_spec n 0); [lia|].
  destruct (safestrcpy_loop_spec m s t l (Z.to_nat (n - 1))) as [H1 H2]; [done|lia|].
  split; [done|]. intros x Hx. apply H2. lia.
Qed.

(** Witness for [safestrcpy_terminates_string]: copying "abc" into 3 bytes. *)
Definition mem_abc : mem := mwrite ∅ 100 [97; 98; 99; 0].
Lemma safestrcpy_terminates_string_witness :
  cstr mem_abc 100 [97; 98; 99] /\ cstr (safestrcpy mem_abc 0 100 3) 0 [97; 98].
Proof.
  assert (H : cstr mem_abc 100 [97; 98; 99]) by (vm_compute; repeat split; discriminate).
  split; [exact H|].
  exact (proj1 (safestrcpy_terminates_string mem_abc 0 100 [97; 98; 99] 3
                  ltac:(lia) H ltac:(left; lia))).
Defined.
