(* ===== verification/Layout.v ===== *)
(** * Page arithmetic, page-table entries and the address-space layout

    The macros of [kernel/riscv.h] (page rounding, PTE packing, Sv39 index
    extraction) and of [kernel/memlayout.h], as functions on 64-bit values,
    with the arithmetic facts the other components use. *)

From stdpp Require Import base list.
From Stdlib Require Import ZArith Lia.
From S2P Require Import Prelude.
Open Scope Z_scope.

(** ** kernel/riscv.h *)

Definition PGSIZE : Z := 4096.
Definition PGSHIFT : Z := 12.

Definition PGROUNDUP (sz : Z) : Z := Z.land (u64 (sz + PGSIZE - 1)) (u64 (Z.lnot (PGSIZE - 1))).
Definition PGROUNDDOWN (a : Z) : Z := Z.land a (u64 (Z.lnot (PGSIZE - 1))).

Definition PTE_V : Z := Z.shiftl 1 0.
Definition PTE_R : Z := Z.shiftl 1 1.
Definition PTE_W : Z := Z.shiftl 1 2.
Definition PTE_X : Z := Z.shiftl 1 3.
Definition PTE_U : Z := Z.shiftl 1 4.

Definition PA2PTE (pa : Z) : Z := u64 (Z.shiftl (Z.shiftr pa 12) 10).
Definition PTE2PA (pte : Z) : Z := u64 (Z.shiftl (Z.shiftr pte 10) 12).
Definition PTE_FLAGS (pte : Z) : Z := Z.land pte 1023.

Definition PXMASK : Z := 511.
Definition PXSHIFT (level : Z) : Z := PGSHIFT + 9 * level.
Definition PX (level va : Z) : Z := Z.land (Z.shiftr va (PXSHIFT level)) PXMASK.

Definition MAXVA : Z := Z.shiftl 1 (9 + 9 + 9 + 12 - 1).

Definition SATP_SV39 : Z := Z.shiftl 8 60.
Definition MAKE_SATP (pagetable : Z) : Z := Z.lor SATP_SV39 (Z.shiftr pagetable 12).

(** ** kernel/memlayout.h *)

Definition UART0 : Z := 0x10000000.
Definition UART0_IRQ : Z := 10.
Definition VIRTIO0 : Z := 0x10001000.
Definition VIRTIO0_IRQ : Z := 1.
Definition CLINT : Z := 0x2000000.
Definition CLINT_MTIMECMP (hartid : Z) : Z := CLINT + 0x4000 + 8 * hartid.
Definition CLINT_MTIME : Z := CLINT + 0xBFF8.
Definition PLIC : Z := 0x0c000000.
Definition PLIC_SENABLE (hart : Z) : Z := PLIC + 0x2080 + hart * 0x100.
Definition PLIC_SPRIORITY (hart : Z) : Z := PLIC + 0x201000 + hart * 0x2000.
Definition PLIC_SCLAIM (hart : Z) : Z := PLIC + 0x201004 + hart * 0x2000.
Definition KERNBASE : Z := 0x80000000.
Definition PHYSTOP : Z := KERNBASE + 128 * 1024 * 1024.
Definition TRAMPOLINE : Z := MAXVA - PGSIZE.
Definition KSTACK (p : Z) : Z := TRAMPOLINE - (p + 1) * 2 * PGSIZE.
Definition TRAPFRAME : Z := TRAMPOLINE - PGSIZE.

(** kernel/param.h *)
Definition NPROC : Z := 64.
Definition NCPU : Z := 8.
Definition NOFILE : Z := 16.
Definition NFILE : Z := 100.
Definition NINODE : Z := 50.
Definition NDEV : Z := 10.
Definition ROOTDEV : Z := 1.
Definition MAXARG : Z := 32.
Definition MAXOPBLOCKS : Z := 10.
Definition LOGSIZE : Z := MAXOPBLOCKS * 3.
Definition NBUF : Z := MAXOPBLOCKS * 3.
Definition FSSIZE : Z := 1000.
Definition MAXPATH : Z := 128.

(** ** Arithmetic of the macros *)

Lemma land_page_mask x : 0 <= x < 2 ^ 64 ->
  Z.land x (u64 (Z.lnot (PGSIZE - 1))) = x - x mod 4096.
Proof.
  intros Hx.
  assert (H : Z.land x (u64 (Z.lnot (PGSIZE - 1))) = Z.ldiff x (Z.ones 12)).
  { unfold u64. rewrite <- Z.land_ones by lia.
    apply Z.bits_inj'. intros i Hi.
    rewrite !Z.land_spec, Z.ldiff_spec.
    change (PGSIZE - 1) with (Z.ones 12). rewrite Z.lnot_spec by done.
    destruct (decide (i < 64)).
    - rewrite (Z.ones_spec_low 64) by lia. now rewrite andb_true_r.
    - rewrite (Z.ones_spec_high 64) by lia. rewrite andb_false_r.
      rewrite <- (Z.mod_small x (2 ^ 64)) by done.
      rewrite Z.mod_pow2_bits_high by lia. done. }
  rewrite H. rewrite Z.ldiff_ones_r by lia.
  rewrite Z.shiftr_div_pow2, Z.shiftl_mul_pow2 by lia.
  change (2 ^ 12) with 4096. Z.div_mod_to_equations; lia.
Qed.

Lemma PGROUNDDOWN_eq a : 0 <= a < 2 ^ 64 -> PGROUNDDOWN a = a - a mod 4096.
Proof. apply land_page_mask. Qed.

Lemma PGROUNDUP_eq a : 0 <= a <= 2 ^ 64 - 4096 ->
  PGROUNDUP a = (a + 4095) - (a + 4095) mod 4096.
Proof.
  intros. unfold PGROUNDUP, PGSIZE. rewrite u64_small by lia.
  replace (a + 4096 - 1) with (a + 4095) by lia. apply land_page_mask. lia.
Qed.

Lemma PGROUNDUP_bounds a : 0 <= a <= 2 ^ 64 - 4096 ->
  a <= PGROUNDUP a < a + 4096 /\ PGROUNDUP a mod 4096 = 0.
Proof. intros. rewrite PGROUNDUP_eq by done. Z.div_mod_to_equations; lia. Qed.

Lemma PGROUNDUP_aligned a : 0 <= a <= 2 ^ 64 - 4096 -> a mod 4096 = 0 -> PGROUNDUP a = a.
Proof. intros. rewrite PGROUNDUP_eq by done. Z.div_mod_to_equations; lia. Qed.

Lemma PGROUNDDOWN_aligned a : 0 <= a < 2 ^ 64 -> a mod 4096 = 0 -> PGROUNDDOWN a = a.
Proof. intros. rewrite PGROUNDDOWN_eq by done. lia. Qed.

(** The Sv39 indices are the base-512 digits of the virtual page number. *)
Lemma PX_eq level va : 0 <= level ->
  PX level va = (va / 2 ^ (12 + 9 * level)) mod 512.
Proof.
  intros. unfold PX, PXSHIFT, PGSHIFT. change PXMASK with (Z.ones 9).
  rewrite Z.land_ones, Z.shiftr_div_pow2 by lia. done.
Qed.

Lemma PX_range level va : 0 <= PX level va < 512.
Proof.
  unfold PX. change PXMASK with (Z.ones 9). rewrite Z.land_ones by lia.
  apply Z.mod_pos_bound. lia.
Qed.

Lemma MAXVA_eq : MAXVA = 2 ^ 38.
Proof. reflexivity. Qed.

Lemma PX0_eq va : PX 0 va = (va / 4096) mod 512.
Proof. rewrite PX_eq by lia. done. Qed.
Lemma PX1_eq va : PX 1 va = (va / 4096 / 512) mod 512.
Proof.
  rewrite PX_eq by lia. change (2 ^ (12 + 9 * 1)) with (4096 * 512).
  now rewrite Z.div_div by lia.
Qed.
Lemma PX2_eq va : PX 2 va = (va / 4096 / 512 / 512) mod 512.
Proof.
  rewrite PX_eq by lia. change (2 ^ (12 + 9 * 2)) with (4096 * 512 * 512).
  now rewrite !Z.div_div by lia.
Qed.

Lemma PX2_top va : 0 <= va < MAXVA -> PX 2 va < 256.
Proof. rewrite MAXVA_eq, PX2_eq. intros. Z.div_mod_to_equations; lia. Qed.

(** The address with given indices. *)
Lemma PX_build i j x : 0 <= i < 512 -> 0 <= j < 512 -> 0 <= x < 512 ->
  let va := 4096 * (512 * (512 * i + j) + x) in
  PX 2 va = i /\ PX 1 va = j /\ PX 0 va = x.
Proof.
  intros Hi Hj Hx va. rewrite PX2_eq, PX1_eq, PX0_eq.
  assert (E0 : va / 4096 = 512 * (512 * i + j) + x) by (unfold va; rewrite Z.mul_comm; apply Z.div_mul; lia).
  assert (E1 : va / 4096 / 512 = 512 * i + j) by (rewrite E0; Z.div_mod_to_equations; lia).
  assert (E2 : va / 4096 / 512 / 512 = i) by (rewrite E1; Z.div_mod_to_equations; lia).
  rewrite E2, E1, E0. split_and!; Z.div_mod_to_equations; lia.
Qed.

(** The three indices determine the page of a virtual address. *)
Lemma PX_inj va va' : 0 <= va < MAXVA -> 0 <= va' < MAXVA ->
  PX 2 va = PX 2 va' -> PX 1 va = PX 1 va' -> PX 0 va = PX 0 va' ->
  va / 4096 = va' / 4096.
Proof.
  rewrite MAXVA_eq, !PX0_eq, !PX1_eq, !PX2_eq. intros H H'.
  change (2 ^ 38) with (4096 * 512 * 512 * 256) in *.
  assert (Hq : 0 <= va / 4096 < 512 * 512 * 256) by (Z.div_mod_to_equations; lia).
  assert (Hq' : 0 <= va' / 4096 < 512 * 512 * 256) by (Z.div_mod_to_equations; lia).
  revert Hq Hq'. generalize (va / 4096) (va' / 4096). clear.
  intros q q' H' H E2 E1 E0. Z.div_mod_to_equations; lia.
Qed.

(** ** Page-table entries *)

Lemma PTE_V_range : 0 <= PTE_V < 1024.
Proof. by vm_compute. Qed.
Lemma PTE_U_range : 0 <= PTE_U < 1024.
Proof. by vm_compute. Qed.

Lemma PTE_pack_div pa flags : 0 <= pa -> pa mod 4096 = 0 -> 0 <= flags < 1024 ->
  pa < 2 ^ 56 ->
  Z.lor (PA2PTE pa) flags = pa / 4096 * 1024 + flags.
Proof.
  intros. unfold PA2PTE.
  rewrite Z.shiftr_div_pow2, Z.shiftl_mul_pow2 by lia.
  change (2 ^ 12) with 4096. change (2 ^ 10) with 1024.
  rewrite u64_small by (Z.div_mod_to_equations; lia).
  rewrite <- Z.add_lor_land.
  replace (Z.land (pa / 4096 * 1024) flags) with 0; [lia|].
  symmetry. change 1024 with (2 ^ 10). rewrite <- Z.shiftl_mul_pow2 by lia.
  apply Z.bits_inj'. intros i Hi. rewrite Z.bits_0, Z.land_spec.
  destruct (decide (i < 10)).
  - rewrite Z.shiftl_spec_low by done. done.
  - rewrite <- (Z.mod_small flags (2 ^ 10)) by (change (2 ^ 10) with 1024; lia).
    rewrite Z.mod_pow2_bits_high by lia. apply andb_false_r.
Qed.

Lemma PTE2PA_pack pa flags : 0 <= pa < 2 ^ 56 -> pa mod 4096 = 0 -> 0 <= flags < 1024 ->
  PTE2PA (Z.lor (PA2PTE pa) flags) = pa.
Proof.
  intros. rewrite PTE_pack_div by lia. unfold PTE2PA.
  rewrite Z.shiftr_div_pow2, Z.shiftl_mul_pow2 by lia.
  change (2 ^ 12) with 4096. change (2 ^ 10) with 1024.
  replace ((pa / 4096 * 1024 + flags) / 1024) with (pa / 4096)
    by (Z.div_mod_to_equations; lia).
  rewrite u64_small; Z.div_mod_to_equations; lia.
Qed.

Lemma PTE_FLAGS_pack pa flags : 0 <= pa < 2 ^ 56 -> pa mod 4096 = 0 -> 0 <= flags < 1024 ->
  PTE_FLAGS (Z.lor (PA2PTE pa) flags) = flags.
Proof.
  intros. rewrite PTE_pack_div by lia. unfold PTE_FLAGS.
  change 1023 with (Z.ones 10). rewrite Z.land_ones by lia.
  change (2 ^ 10) with 1024. Z.div_mod_to_equations; lia.
Qed.

Lemma PTE_pack_range pa flags : 0 <= pa < 2 ^ 56 -> pa mod 4096 = 0 -> 0 <= flags < 1024 ->
  0 <= Z.lor (PA2PTE pa) flags < 2 ^ 54.
Proof. intros. rewrite PTE_pack_div by lia. Z.div_mod_to_equations; lia. Qed.

(** Reading a low bit of a packed entry reads the flag. *)
Lemma land_pack_low pa flags b : 0 <= pa < 2 ^ 56 -> pa mod 4096 = 0 -> 0 <= flags < 1024 ->
  0 <= b < 1024 -> Z.land (Z.lor (PA2PTE pa) flags) b = Z.land flags b.
Proof.
  intros Hp Ha Hf Hb.
  assert (Hb' : Z.land b 1023 = b).
  { change 1023 with (Z.ones 10). rewrite Z.land_ones by lia. apply Z.mod_small.
    change (2 ^ 10) with 1024; lia. }
  rewrite <- Hb' at 1. rewrite Z.land_comm, <- Z.land_assoc, (Z.land_comm 1023).
  change (Z.land (Z.lor (PA2PTE pa) flags) 1023) with (PTE_FLAGS (Z.lor (PA2PTE pa) flags)).
  rewrite PTE_FLAGS_pack by done. apply Z.land_comm.
Qed.

Lemma PTE2PA_aligned pte : PTE2PA pte mod 4096 = 0.
Proof.
  unfold PTE2PA, u64. rewrite Z.shiftl_mul_pow2 by lia. change (2 ^ 12) with 4096.
  change (2 ^ 64) with (4096 * 2 ^ 52). rewrite Z.mul_comm.
  rewrite Z.mul_mod_distr_l by lia. rewrite Z.mul_comm. apply Z.mod_mul. lia.
Qed.

(** Kernel stacks of distinct processes are disjoint pages below TRAMPOLINE,
    separated by an unmapped guard page. *)
Lemma KSTACK_disjoint p q : 0 <= p < NPROC -> 0 <= q < NPROC -> p <> q ->
  KSTACK p + 2 * PGSIZE <= KSTACK q \/ KSTACK q + 2 * PGSIZE <= KSTACK p.
Proof. unfold KSTACK, PGSIZE. lia. Qed.
