(* ===== verification/Kalloc.v ===== *)
(** * kernel/kalloc.c: the physical page allocator

    The free list is threaded through the free pages themselves: the first
    eight bytes of a free page hold the address of the next one.  The state is
    physical memory and the list head.  [end] (set by the linker script) is a
    parameter.

    The theorems show that the list in memory is always a duplicate-free list
    of page-aligned addresses between [end] and [PHYSTOP], that [kalloc] hands
    out a page no one else holds, that [kfree] accepts exactly the valid page
    addresses, and that [kinit] frees every whole page once. *)

From stdpp Require Import base list gmap strings sorting.
From Stdlib Require Import ZArith Lia.
From S2P Require Import Prelude Mem Layout.
Open Scope Z_scope.

(** [struct { struct spinlock lock; struct run *freelist; } kmem], with the
    physical memory it is threaded through. *)
Record kmem := mk_kmem { ram : mem; freelist : Z }.

Section Kalloc.
(** First address after the kernel, defined by kernel.ld. *)
Context (kend : Z).

Definition kfree (pa : Z) : M kmem unit :=
  if negb (pa mod PGSIZE =? 0) || (pa <? kend) || (PHYSTOP <=? pa)
  then panicM "kfree"
  else modifyM (fun k =>
    let m := memset (ram k) pa 1 PGSIZE in
    mk_kmem (store64 m pa (freelist k)) pa).

Definition kalloc : M kmem Z := fun k =>
  let r := freelist k in
  let k := if negb (r =? 0) then mk_kmem (ram k) (load64 (ram k) r) else k in
  let k := if negb (r =? 0) then mk_kmem (memset (ram k) r 5 PGSIZE) (freelist k) else k in
  Ok r k.

(** [for(; p + PGSIZE <= pa_end; p += PGSIZE) kfree(p);] *)
Fixpoint freerange_loop (p pa_end : Z) (fuel : nat) : M kmem unit :=
  match fuel with
  | O => fun _ => NoFuel
  | S fuel =>
      if p + PGSIZE <=? pa_end
      then do! kfree p in freerange_loop (p + PGSIZE) pa_end fuel
      else retM tt
  end.
Definition freerange (pa_start pa_end : Z) : M kmem unit :=
  freerange_loop (PGROUNDUP pa_start) pa_end
    (Z.to_nat ((pa_end - PGROUNDUP pa_start) / PGSIZE) + 1).

Definition kinit : M kmem unit := freerange kend PHYSTOP.

(** ** The free list as a list *)

(** Addresses [kfree] accepts. *)
Definition page_ok (a : Z) : Prop := a mod 4096 = 0 /\ kend <= a < PHYSTOP.

#[global] Instance page_ok_dec a : Decision (page_ok a).
Proof. unfold page_ok; apply _. Defined.

Fixpoint chain (m : mem) (p : Z) (l : list Z) : Prop :=
  match l with
  | [] => p = 0
  | a :: l => p = a /\ chain m (load64 m a) l
  end.

(** The allocator invariant: the chain from the list head is [l], a
    duplicate-free list of pages. *)
Record kmem_inv (k : kmem) (l : list Z) : Prop := {
  ki_chain : chain (ram k) (freelist k) l;
  ki_nodup : NoDup l;
  ki_pages : Forall page_ok l;
}.

(** Two addresses on distinct pages. *)
Lemma page_disjoint a b : a mod 4096 = 0 -> b mod 4096 = 0 -> a <> b ->
  a + 4096 <= b \/ b + 4096 <= a.
Proof. intros. Z.div_mod_to_equations; lia. Qed.

Lemma chain_ext m m' p l :
  Forall (fun a => load64 m a = load64 m' a) l -> chain m p l -> chain m' p l.
Proof.
  revert p; induction l as [|a l IH]; intros p Hf; [done|]; simpl.
  inversion Hf as [|?? Ha Hl]; subst. intros [-> Hc]. split; [done|].
  rewrite <- Ha. auto.
Qed.

(** A change of memory confined to a page outside the list keeps the chain. *)
Lemma chain_frame m m' p l a :
  a mod 4096 = 0 -> Forall page_ok l -> a ∉ l ->
  (forall x, x < a \/ a + 4096 <= x -> mget m' x = mget m x) ->
  chain m p l -> chain m' p l.
Proof.
  intros Ha Hl Hn Hm. apply chain_ext. apply Forall_forall. intros b Hb.
  assert (page_ok b) as [Hb4 _] by (eapply (proj1 (Forall_forall _ _)); eauto).
  assert (b <> a) by (intros ->; contradiction).
  apply load64_ext. intros. symmetry. apply Hm.
  destruct (page_disjoint a b); auto; lia.
Qed.

Section WithBounds.
Hypothesis (Hend : 0 < kend).

Lemma page_ok_pos a : page_ok a -> 0 < a < 2 ^ 32.
Proof. intros [_ H]. unfold PHYSTOP, KERNBASE in H. lia. Qed.

Lemma kfree_ok k l pa : kmem_inv k l -> page_ok pa -> pa ∉ l ->
  returns (kfree pa) k (fun _ k' =>
    kmem_inv k' (pa :: l) /\
    forall x, x < pa \/ pa + 4096 <= x -> mget (ram k') x = mget (ram k) x).
Proof.
  intros [Hc Hn Hp] Hpa Hnin. pose proof (page_ok_pos pa Hpa).
  destruct Hpa as [Ha Hr]. unfold kfree, PGSIZE.
  rewrite Ha. destruct (Z.ltb_spec pa kend), (Z.leb_spec PHYSTOP pa); try lia.
  simpl. unfold returns, modifyM; simpl.
  assert (Hout : forall x, x < pa \/ pa + 4096 <= x ->
    mget (store64 (memset (ram k) pa 1 4096) pa (freelist k)) x = mget (ram k) x).
  { intros. rewrite mget_store64_out, mget_memset_out by lia. done. }
  split; [|exact Hout]. split; simpl.
  - split; [done|]. rewrite load64_store64_eq.
    assert (Hf : u64 (freelist k) = freelist k).
    { apply u64_small. destruct l as [|b l]; simpl in Hc; [rewrite Hc; lia|].
      destruct Hc as [-> _]. inversion Hp as [|?? Hb]; subst.
      apply page_ok_pos in Hb. lia. }
    rewrite Hf. eapply (chain_frame _ _ _ _ pa); eauto.
  - now constructor.
  - constructor; [split; [done|lia]|done].
Qed.

Lemma kalloc_ok k a l : kmem_inv k (a :: l) ->
  returns kalloc k (fun r k' =>
    r = a /\ kmem_inv k' l /\
    (forall x, a <= x < a + 4096 -> mget (ram k') x = 5) /\
    forall x, x < a \/ a + 4096 <= x -> mget (ram k') x = mget (ram k) x).
Proof.
  intros [Hc Hn Hp]. simpl in Hc. destruct Hc as [Hr Hc].
  inversion Hn as [|?? Hnin Hn']; subst. inversion Hp as [|?? Ha Hp']; subst.
  pose proof (page_ok_pos _ Ha). unfold returns, kalloc.
  destruct (Z.eqb_spec (freelist k) 0); [lia|]; simpl. split; [done|].
  assert (Hout : forall x, x < freelist k \/ freelist k + 4096 <= x ->
    mget (memset (ram k) (freelist k) 5 PGSIZE) x = mget (ram k) x).
  { intros. apply mget_memset_out. unfold PGSIZE. lia. }
  split_and!; [|intros; apply mget_memset_in; unfold PGSIZE; lia|exact Hout].
  split; simpl; [|done|done].
  destruct Ha as [Ha ?]. eapply (chain_frame _ _ _ _ (freelist k)); eauto.
Qed.

Lemma kalloc_none k : kmem_inv k [] -> kalloc k = Ok 0 k.
Proof. intros [Hc _ _]. simpl in Hc. unfold kalloc. rewrite Hc. done. Qed.

Lemma kfree_reject k pa : ~ page_ok pa -> kfree pa k = Panic "kfree".
Proof.
  intros Hno. unfold kfree, PGSIZE.
  destruct (Z.eqb_spec (pa mod 4096) 0), (Z.ltb_spec pa kend), (Z.leb_spec PHYSTOP pa);
    simpl; try done.
  exfalso. apply Hno. split; [done|lia].
Qed.

(** Pages from [p] upward that fit below [pa_end]. *)
Definition pages_from (p : Z) (n : nat) : list Z :=
  map (fun i => p + 4096 * Z.of_nat i) (seq 0 n).

Lemma pages_from_S p n : pages_from p (S n) = p :: pages_from (p + 4096) n.
Proof.
  unfold pages_from. simpl. f_equal; [lia|].
  rewrite <- seq_shift, map_map. apply map_ext. intros. lia.
Qed.

Lemma freerange_loop_ok n : forall fuel k l p pa_end,
  (n < fuel)%nat ->
  p + 4096 * Z.of_nat n <= pa_end < p + 4096 * (Z.of_nat n + 1) ->
  p mod 4096 = 0 -> kend <= p -> pa_end <= PHYSTOP ->
  kmem_inv k l -> Forall (fun b => b < p) l ->
  returns (freerange_loop p pa_end fuel) k (fun _ k' =>
    kmem_inv k' (reverse (pages_from p n) ++ l)).
Proof.
  induction n as [|n IH]; intros [|fuel] k l p pa_end Hf Hr Ha Hk Hp Hi Hlt; try lia;
    cbn [freerange_loop]; unfold PGSIZE.
  - destruct (Z.leb_spec (p + 4096) pa_end); [lia|]. exact Hi.
  - destruct (Z.leb_spec (p + 4096) pa_end); [|lia].
    apply returns_bind.
    assert (Hn : p ∉ l).
    { intros Hin. pose proof (proj1 (Forall_forall _ _) Hlt p Hin). simpl in *. lia. }
    eapply returns_mono; [apply kfree_ok; eauto; split; lia|].
    intros ? k' [Hi' _].
    eapply returns_mono.
    + apply (IH fuel k' (p :: l) (p + 4096)); try lia; auto.
      * Z.div_mod_to_equations; lia.
      * constructor; [lia|]. eapply Forall_impl; [exact Hlt|]. simpl. lia.
    + intros ? k'' H''. rewrite pages_from_S, reverse_cons, <- app_assoc. done.
Qed.

Lemma kinit_ok k : kend <= PHYSTOP -> freelist k = 0 ->
  returns kinit k (fun _ k' =>
    kmem_inv k' (reverse (pages_from (PGROUNDUP kend)
                    (Z.to_nat ((PHYSTOP - PGROUNDUP kend) / 4096))))).
Proof.
  intros Hk H0. unfold kinit, freerange, PGSIZE.
  assert (HP : PHYSTOP = 2281701376) by reflexivity.
  pose proof (PGROUNDUP_bounds kend ltac:(lia)) as [Hb Ha].
  assert (Hpt : PHYSTOP mod 4096 = 0) by reflexivity.
  assert (PGROUNDUP kend <= PHYSTOP) by (Z.div_mod_to_equations; lia).
  assert (0 <= (PHYSTOP - PGROUNDUP kend) / 4096) by (apply Z.div_pos; lia).
  eapply returns_mono.
  - apply (freerange_loop_ok (Z.to_nat ((PHYSTOP - PGROUNDUP kend) / 4096)) _ k []);
      try lia; auto.
    + rewrite Z2Nat.id by done. Z.div_mod_to_equations; lia.
    + split; simpl; [done|constructor|constructor].
  - intros ? k' H'. now rewrite app_nil_r in H'.
Qed.

Lemma elem_pages_from p n a :
  a ∈ pages_from p n <-> exists i, (i < n)%nat /\ a = p + 4096 * Z.of_nat i.
Proof.
  unfold pages_from. rewrite list_elem_of_In, in_map_iff.
  setoid_rewrite in_seq. split; [intros (i & <- & ?)|intros (i & ? & ->)];
    exists i; split; (done || lia).
Qed.

(** ** Clients of the allocator

    A system of clients: pages move between the free list and [used], the
    set of pages handed out; an owner may write any byte of its pages. *)
Inductive kstep : kmem * gset Z -> kmem * gset Z -> Prop :=
| ks_alloc k k' used r :
    kalloc k = Ok r k' -> r <> 0 -> kstep (k, used) (k', {[r]} ∪ used)
| ks_alloc_fail k k' used :
    kalloc k = Ok 0 k' -> kstep (k, used) (k', used)
| ks_free k k' used pa :
    pa ∈ used -> kfree pa k = Ok tt k' -> kstep (k, used) (k', used ∖ {[pa]})
| ks_write m f used pa x v :
    pa ∈ used -> pa <= x < pa + 4096 ->
    kstep (mk_kmem m f, used) (mk_kmem (mset m x v) f, used).

(** Every page is either on the free list or handed out, never both. *)
Definition owned_inv (s : kmem * gset Z) : Prop :=
  exists l, kmem_inv s.1 l /\
    (forall a, page_ok a <-> a ∈ l \/ a ∈ s.2) /\ (forall a, a ∈ l -> a ∉ s.2).

Lemma kstep_inv s s' : kstep s s' -> owned_inv s -> owned_inv s'.
Proof.
  destruct 1 as [k k' used r Hr H0|k k' used Hr|k k' used pa Hpa Hf|m f used pa x v Hpa Hx];
    intros (l & Hi & Hall & Hdisj); simpl in *.
  - destruct l as [|a l].
    { rewrite kalloc_none in Hr by done. congruence. }
    pose proof (kalloc_ok _ _ _ Hi) as Hok. unfold returns in Hok. rewrite Hr in Hok.
    destruct Hok as (-> & Hi' & _). exists l. split; [done|].
    destruct Hi as [_ Hn _]. inversion Hn; subst. split; intros x; cbn.
    + rewrite Hall, elem_of_union, elem_of_singleton, elem_of_cons. tauto.
    + intros Hx. rewrite elem_of_union, elem_of_singleton. intros [->|Hu]; [done|].
      apply (Hdisj x); [|done]. now right.
  - destruct l as [|a l].
    { rewrite kalloc_none in Hr by done. simplify_eq. exists []. done. }
    pose proof (kalloc_ok _ _ _ Hi) as Hok. unfold returns in Hok. rewrite Hr in Hok.
    destruct Hok as (<- & _). destruct Hi as [_ _ Hp]. inversion Hp as [|?? H0]; subst.
    apply page_ok_pos in H0. lia.
  - assert (Hok : page_ok pa) by (apply Hall; auto).
    assert (Hnin : pa ∉ l) by (intros Hin; apply (Hdisj pa); auto).
    pose proof (kfree_ok _ _ _ Hi Hok Hnin) as H. unfold returns in H. rewrite Hf in H.
    destruct H as [Hi' _]. exists (pa :: l). split; [done|].
    split; intros x; cbn.
    + rewrite Hall, elem_of_difference, elem_of_singleton, elem_of_cons.
      destruct (decide (x = pa)) as [->|]; tauto.
    + rewrite elem_of_difference, elem_of_singleton, elem_of_cons.
      intros [->|Hx] [Hu ?]; [done|]. now apply (Hdisj x).
  - exists l. split; [|done]. destruct Hi as [Hc Hn Hp]. split; simpl in *; [|done|done].
    assert (Hok : page_ok pa) by (apply Hall; auto).
    apply (chain_frame m _ f l pa); auto; [apply Hok|intros Hin; now apply (Hdisj pa)|].
    intros. apply mget_mset_ne. lia.
Qed.

Lemma kinit_owned k k1 : kend <= PHYSTOP -> freelist k = 0 -> kinit k = Ok tt k1 ->
  owned_inv (k1, ∅).
Proof.
  intros Hk H0 H1. pose proof (kinit_ok k Hk H0) as H. unfold returns in H.
  rewrite H1 in H. eexists; split; [exact H|]. simpl. split; [|set_solver].
  assert (HP : PHYSTOP = 2281701376) by reflexivity.
  pose proof (PGROUNDUP_bounds kend ltac:(lia)) as [Hb Ha].
  intros a. rewrite elem_of_reverse, elem_pages_from.
  unfold page_ok. split.
  - intros [Ha4 Hr]. left. exists (Z.to_nat ((a - PGROUNDUP kend) / 4096)).
    assert (PGROUNDUP kend <= a) by (Z.div_mod_to_equations; lia).
    assert (0 <= (a - PGROUNDUP kend) / 4096) by (apply Z.div_pos; lia).
    split; [|rewrite Z2Nat.id by done; Z.div_mod_to_equations; lia].
    apply Z2Nat.inj_lt; [done|apply Z.div_pos; lia|].
    assert (PHYSTOP mod 4096 = 0) by reflexivity. Z.div_mod_to_equations; lia.
  - intros [(i & Hi & ->)|?]; [|set_solver].
    assert (Z.of_nat i < (PHYSTOP - PGROUNDUP kend) / 4096).
    { assert (0 <= (PHYSTOP - PGROUNDUP kend) / 4096 \/
              (PHYSTOP - PGROUNDUP kend) / 4096 < 0) as [?|?] by lia; lia. }
    Z.div_mod_to_equations; lia.
Qed.
End WithBounds.
End Kalloc.

Lemma owned_inv_rtc kend s s' : 0 < kend -> rtc (kstep kend) s s' ->
  owned_inv kend s -> owned_inv kend s'.
Proof. intros Hend. induction 1; eauto using kstep_inv. Qed.

(** C12: after [kinit], through any sequence of [kalloc], [kfree] of pages that
    were handed out, and writes of owners to their pages: [kalloc] returns a
    page that no one holds, it returns 0 only when every page of
    [end..PHYSTOP) is handed out, and freeing a held page never panics. *)
Theorem kalloc_ownership (kend : Z) (k k1 : kmem) (s : kmem * gset Z)
    (Hend : 0 < kend <= PHYSTOP) (H0 : freelist k = 0)
    (H1 : kinit kend k = Ok tt k1) (Hr : rtc (kstep kend) (k1, ∅) s) :
  (forall r k', kalloc s.1 = Ok r k' ->
     (r = 0 /\ forall a, page_ok kend a -> a ∈ s.2) \/ (page_ok kend r /\ r ∉ s.2)) /\
  (forall pa, pa ∈ s.2 -> exists k', kfree kend pa s.1 = Ok tt k').
Proof.
  destruct (owned_inv_rtc kend _ _ ltac:(lia) Hr) as (l & Hi & Hall & Hdisj).
  { eapply kinit_owned; [..|exact H1]; auto; lia. }
  split.
  - intros r k' Hk. destruct l as [|a l].
    + rewrite (kalloc_none kend) in Hk by done. simplify_eq. left. split; [done|].
      intros a Ha. apply Hall in Ha as [Ha|Ha]; [|done]. inversion Ha.
    + pose proof (kalloc_ok kend ltac:(lia) _ _ _ Hi) as Hok. unfold returns in Hok.
      rewrite Hk in Hok. destruct Hok as (-> & _). right.
      assert (a ∈ a :: l) by apply list_elem_of_here. split; [apply Hall; auto|auto].
  - intros pa Hpa.
    assert (Hok : page_ok kend pa) by (apply Hall; auto).
    destruct (returns_inv _ _ _ (kfree_ok kend ltac:(lia) _ _ pa Hi Hok
                ltac:(intros Hin; now apply (Hdisj pa)))) as ([] & k' & -> & _).
    eauto.
Qed.

Lemma kalloc_ownership_witness :
  exists k1, kinit (PHYSTOP - 8192) (mk_kmem ∅ 0) = Ok tt k1 /\
    forall r k', kalloc k1 = Ok r k' ->
      (r = 0 /\ forall a, page_ok (PHYSTOP - 8192) a -> a ∈ (∅ : gset Z)) \/
      (page_ok (PHYSTOP - 8192) r /\ r ∉ (∅ : gset Z)).
Proof.
  destruct (returns_inv _ _ _ (kinit_ok (PHYSTOP - 8192) ltac:(reflexivity) (mk_kmem ∅ 0)
              ltac:(discriminate) ltac:(reflexivity))) as ([] & k1 & Hk & _).
  exists k1. split; [exact Hk|].
  exact (proj1 (kalloc_ownership (PHYSTOP - 8192) (mk_kmem ∅ 0) k1 (k1, ∅)
                  ltac:(split; [reflexivity|discriminate]) ltac:(reflexivity) Hk
                  (rtc_refl _ _))).
Defined.

(** [kfree] panics exactly on the addresses that are not page-aligned or
    lie outside the kernel's free memory [end..PHYSTOP). *)
Theorem kfree_panics_iff (kend pa : Z) (k : kmem) :
  kfree kend pa k = Panic "kfree" <-> ~ page_ok kend pa.
Proof.
  split; [|apply kfree_reject].
  intros H [Ha Hr]. revert H. unfold kfree, PGSIZE. rewrite Ha.
  destruct (Z.ltb_spec pa kend), (Z.leb_spec PHYSTOP pa); try lia. discriminate.
Qed.
