(* ===== verification/Vm.v ===== *)
(** * kernel/vm.c: Sv39 page tables

    Every routine of [vm.c] as a state function over physical memory and the
    page allocator.  Page-table pages are words of physical memory; [walk]
    reads and writes them there.  Buffers of the kernel that [copyin] and
    [copyout] move (locals of their callers) are byte lists.

    [etext] and [trampoline] (set by the linker script) are parameters of
    [kvmmake]. *)

From stdpp Require Import base list gmap strings.
From Stdlib Require Import ZArith Lia.
From S2P Require Import Prelude Mem Layout Kalloc.
Open Scope Z_scope.

Definition set_ram (f : mem -> mem) : M kmem unit :=
  modifyM (fun k => mk_kmem (f (ram k)) (freelist k)).
Definition load_pte (a : Z) : M kmem Z := getM (fun k => load64 (ram k) a).
Definition store_pte (a v : Z) : M kmem unit := set_ram (fun m => store64 m a v).

Section Vm.
Context (kend : Z).

Local Abbreviation kfree := (kfree kend).

(** One level of [walk]: the next-level table, allocated if asked for. *)
Definition walk_level (alloc : bool) (va level pagetable : Z) : M kmem (option Z) :=
  let pte := pagetable + 8 * PX level va in
  let! v := load_pte pte in
  if negb (Z.land v PTE_V =? 0) then retM (Some (PTE2PA v))
  else if negb alloc then retM None
  else
    let! pagetable := kalloc in
    if pagetable =? 0 then retM None
    else
      do! set_ram (fun m => memset m pagetable 0 PGSIZE) in
      do! store_pte pte (Z.lor (PA2PTE pagetable) PTE_V) in
      retM (Some pagetable).

Fixpoint walk_levels (alloc : bool) (va : Z) (levels : list Z) (pagetable : Z) : M kmem Z :=
  match levels with
  | [] => retM (pagetable + 8 * PX 0 va)
  | level :: levels =>
      let! r := walk_level alloc va level pagetable in
      match r with
      | None => retM 0
      | Some pagetable => walk_levels alloc va levels pagetable
      end
  end.

Definition walk (pagetable va : Z) (alloc : bool) : M kmem Z :=
  if MAXVA <=? va then panicM "walk"
  else walk_levels alloc va [2; 1] pagetable.

Definition walkaddr (pagetable va : Z) : M kmem Z :=
  if MAXVA <=? va then retM 0
  else
    let! pte := walk pagetable va false in
    if pte =? 0 then retM 0
    else
      let! v := load_pte pte in
      if Z.land v PTE_V =? 0 then retM 0
      else if Z.land v PTE_U =? 0 then retM 0
      else retM (PTE2PA v).

(** The [for(;;)] loop of [mappages], from address [a] up to [last]. *)
Fixpoint mappages_loop (pagetable a last pa perm : Z) (fuel : nat) : M kmem Z :=
  match fuel with
  | O => fun _ => NoFuel
  | S fuel =>
      let! pte := walk pagetable a true in
      if pte =? 0 then retM (-1)
      else
        let! v := load_pte pte in
        if negb (Z.land v PTE_V =? 0) then panicM "mappages: remap"
        else
          do! store_pte pte (Z.lor (Z.lor (PA2PTE pa) perm) PTE_V) in
          if a =? last then retM 0
          else mappages_loop pagetable (u64 (a + PGSIZE)) last (u64 (pa + PGSIZE)) perm fuel
  end.

Definition mappages (pagetable va size pa perm : Z) : M kmem Z :=
  if size =? 0 then panicM "mappages: size"
  else
    let a := PGROUNDDOWN va in
    let last := PGROUNDDOWN (u64 (va + size - 1)) in
    mappages_loop pagetable a last pa perm (Z.to_nat ((last - a) / PGSIZE) + 1).

Definition kvmmap (kpgtbl va pa sz perm : Z) : M kmem unit :=
  let! r := mappages kpgtbl va sz pa perm in
  if negb (r =? 0) then panicM "kvmmap" else retM tt.

(** The loop of [uvmunmap], from [a] while [a < stop]. *)
Fixpoint uvmunmap_loop (pagetable a stop : Z) (do_free : bool) (fuel : nat) : M kmem unit :=
  match fuel with
  | O => fun _ => NoFuel
  | S fuel =>
      if a <? stop then
        let! pte := walk pagetable a false in
        if pte =? 0 then panicM "uvmunmap: walk"
        else
          let! v := load_pte pte in
          if Z.land v PTE_V =? 0 then panicM "uvmunmap: not mapped"
          else if PTE_FLAGS v =? PTE_V then panicM "uvmunmap: not a leaf"
          else
            do! (if do_free then kfree (PTE2PA v) else retM tt) in
            do! store_pte pte 0 in
            uvmunmap_loop pagetable (u64 (a + PGSIZE)) stop do_free fuel
      else retM tt
  end.

Definition uvmunmap (pagetable va npages : Z) (do_free : bool) : M kmem unit :=
  if negb (va mod PGSIZE =? 0) then panicM "uvmunmap: not aligned"
  else
    uvmunmap_loop pagetable va (u64 (va + npages * PGSIZE)) do_free (Z.to_nat npages + 1).

Definition uvmcreate : M kmem Z :=
  let! pagetable := kalloc in
  if pagetable =? 0 then retM 0
  else
    do! set_ram (fun m => memset m pagetable 0 PGSIZE) in
    retM pagetable.

(** [uvminit]: [src] holds the [sz] bytes of the initial program. *)
Definition uvminit (pagetable : Z) (src : list Z) : M kmem unit :=
  if PGSIZE <=? Z.of_nat (length src) then panicM "inituvm: more than a page"
  else
    let! mem := kalloc in
    do! set_ram (fun m => memset m mem 0 PGSIZE) in
    let! _ := mappages pagetable 0 PGSIZE mem
                (Z.lor (Z.lor (Z.lor PTE_W PTE_R) PTE_X) PTE_U) in
    set_ram (fun m => mwrite m mem src).

Definition uvmdealloc (pagetable oldsz newsz : Z) : M kmem Z :=
  if oldsz <=? newsz then retM oldsz
  else
    do! (if PGROUNDUP newsz <? PGROUNDUP oldsz then
           let npages := s32 ((PGROUNDUP oldsz - PGROUNDUP newsz) / PGSIZE) in
           uvmunmap pagetable (PGROUNDUP newsz) (u64 npages) true
         else retM tt) in
    retM newsz.

Fixpoint uvmalloc_loop (pagetable oldsz a newsz : Z) (fuel : nat) : M kmem Z :=
  match fuel with
  | O => fun _ => NoFuel
  | S fuel =>
      if a <? newsz then
        let! mem := kalloc in
        if mem =? 0 then
          do! uvmdealloc pagetable a oldsz in
          retM 0
        else
          do! set_ram (fun m => memset m mem 0 PGSIZE) in
          let! r := mappages pagetable a PGSIZE mem
                      (Z.lor (Z.lor (Z.lor PTE_W PTE_X) PTE_R) PTE_U) in
          if negb (r =? 0) then
            do! kfree mem in
            do! uvmdealloc pagetable a oldsz in
            retM 0
          else uvmalloc_loop pagetable oldsz (u64 (a + PGSIZE)) newsz fuel
      else retM newsz
  end.

Definition uvmalloc (pagetable oldsz newsz : Z) : M kmem Z :=
  if newsz <? oldsz then retM oldsz
  else
    let oldsz := PGROUNDUP oldsz in
    uvmalloc_loop pagetable oldsz oldsz newsz (Z.to_nat ((newsz - oldsz) / PGSIZE) + 2).

(** [freewalk] recurses through the levels of the tree; [fuel] bounds the
    depth of the recursion. *)
Fixpoint freewalk (fuel : nat) (pagetable : Z) : M kmem unit :=
  match fuel with
  | O => fun _ => NoFuel
  | S fuel =>
      do! for_each (seqZ 0 512) (fun i =>
        let! pte := load_pte (pagetable + 8 * i) in
        if negb (Z.land pte PTE_V =? 0) &&
           (Z.land pte (Z.lor (Z.lor PTE_R PTE_W) PTE_X) =? 0) then
          let child := PTE2PA pte in
          do! freewalk fuel child in
          store_pte (pagetable + 8 * i) 0
        else if negb (Z.land pte PTE_V =? 0) then panicM "freewalk: leaf"
        else retM tt) in
      kfree pagetable
  end.

(** A three-level tree needs depth three. *)
Definition uvmfree (pagetable sz : Z) : M kmem unit :=
  do! (if 0 <? sz then uvmunmap pagetable 0 (PGROUNDUP sz / PGSIZE) true else retM tt) in
  freewalk 3 pagetable.

Fixpoint uvmcopy_loop (old new i sz : Z) (fuel : nat) : M kmem Z :=
  match fuel with
  | O => fun _ => NoFuel
  | S fuel =>
      if i <? sz then
        let! pte := walk old i false in
        if pte =? 0 then panicM "uvmcopy: pte should exist"
        else
          let! v := load_pte pte in
          if Z.land v PTE_V =? 0 then panicM "uvmcopy: page not present"
          else
            let pa := PTE2PA v in
            let flags := PTE_FLAGS v in
            let err := do! uvmunmap new 0 (i / PGSIZE) true in retM (-1) in
            let! mem := kalloc in
            if mem =? 0 then err
            else
              do! set_ram (fun m => memmove m mem pa PGSIZE) in
              let! r := mappages new i PGSIZE mem flags in
              if negb (r =? 0) then do! kfree mem in err
              else uvmcopy_loop old new (u64 (i + PGSIZE)) sz fuel
      else retM 0
  end.

Definition uvmcopy (old new sz : Z) : M kmem Z :=
  uvmcopy_loop old new 0 sz (Z.to_nat (sz / PGSIZE) + 2).

Definition uvmclear (pagetable va : Z) : M kmem unit :=
  let! pte := walk pagetable va false in
  if pte =? 0 then panicM "uvmclear"
  else
    let! v := load_pte pte in
    store_pte pte (Z.land v (u64 (Z.lnot PTE_U))).

(** [copyout]: copy the kernel bytes [src] to user address [dstva].  Each
    iteration copies at least one byte, so [length src] iterations suffice. *)
Fixpoint copyout_loop (pagetable dstva : Z) (src : list Z) (fuel : nat) : M kmem Z :=
  match fuel with
  | O => fun _ => NoFuel
  | S fuel =>
      if 0 <? Z.of_nat (length src) then
        let va0 := PGROUNDDOWN dstva in
        let! pa0 := walkaddr pagetable va0 in
        if pa0 =? 0 then retM (-1)
        else
          let n := PGSIZE - (dstva - va0) in
          let n := if Z.of_nat (length src) <? n then Z.of_nat (length src) else n in
          do! set_ram (fun m => mwrite m (pa0 + (dstva - va0)) (take (Z.to_nat n) src)) in
          copyout_loop pagetable (u64 (va0 + PGSIZE)) (drop (Z.to_nat n) src) fuel
      else retM 0
  end.
Definition copyout (pagetable dstva : Z) (src : list Z) : M kmem Z :=
  copyout_loop pagetable dstva src (length src + 1).

(** [copyin]: returns the status and the bytes stored at the start of [dst]
    (all [len] of them when the status is 0). *)
Fixpoint copyin_loop (pagetable : Z) (dst : list Z) (srcva len : Z) (fuel : nat)
  : M kmem (Z * list Z) :=
  match fuel with
  | O => fun _ => NoFuel
  | S fuel =>
      if 0 <? len then
        let va0 := PGROUNDDOWN srcva in
        let! pa0 := walkaddr pagetable va0 in
        if pa0 =? 0 then retM (-1, dst)
        else
          let n := PGSIZE - (srcva - va0) in
          let n := if len <? n then len else n in
          let! bs := getM (fun k => mread (ram k) (pa0 + (srcva - va0)) (Z.to_nat n)) in
          copyin_loop pagetable (dst ++ bs) (u64 (va0 + PGSIZE)) (len - n) fuel
      else retM (0, dst)
  end.
Definition copyin (pagetable srcva len : Z) : M kmem (Z * list Z) :=
  copyin_loop pagetable [] srcva len (Z.to_nat len + 1).

(** The inner loop of [copyinstr] on the bytes of one page: the bytes copied
    and whether the NUL was found. *)
Fixpoint copyinstr_page (bs : list Z) : list Z * bool :=
  match bs with
  | [] => ([], false)
  | b :: bs =>
      if b =? 0 then ([0], true)
      else let '(out, got_null) := copyinstr_page bs in (b :: out, got_null)
  end.

Fixpoint copyinstr_loop (pagetable : Z) (dst : list Z) (srcva max : Z) (fuel : nat)
  : M kmem (Z * list Z) :=
  match fuel with
  | O => fun _ => NoFuel
  | S fuel =>
      if 0 <? max then
        let va0 := PGROUNDDOWN srcva in
        let! pa0 := walkaddr pagetable va0 in
        if pa0 =? 0 then retM (-1, dst)
        else
          let n := PGSIZE - (srcva - va0) in
          let n := if max <? n then max else n in
          let! bs := getM (fun k => mread (ram k) (pa0 + (srcva - va0)) (Z.to_nat n)) in
          let '(out, got_null) := copyinstr_page bs in
          if (got_null : bool) then retM (0, dst ++ out)
          else copyinstr_loop pagetable (dst ++ out) (u64 (va0 + PGSIZE)) (max - n) fuel
      else retM (-1, dst)
  end.
Definition copyinstr (pagetable srcva max : Z) : M kmem (Z * list Z) :=
  copyinstr_loop pagetable [] srcva max (Z.to_nat max + 1).

(** [proc_mapstacks] (kernel/proc.c): one kernel stack page per process. *)
Definition proc_mapstacks (kpgtbl : Z) : M kmem unit :=
  for_each (seqZ 0 NPROC) (fun p =>
    let! pa := kalloc in
    if pa =? 0 then panicM "kalloc"
    else kvmmap kpgtbl (KSTACK p) pa PGSIZE (Z.lor PTE_R PTE_W)).

Definition kvmmake (etext trampoline : Z) : M kmem Z :=
  let! kpgtbl := kalloc in
  do! set_ram (fun m => memset m kpgtbl 0 PGSIZE) in
  do! kvmmap kpgtbl UART0 UART0 PGSIZE (Z.lor PTE_R PTE_W) in
  do! kvmmap kpgtbl VIRTIO0 VIRTIO0 PGSIZE (Z.lor PTE_R PTE_W) in
  do! kvmmap kpgtbl PLIC PLIC 0x400000 (Z.lor PTE_R PTE_W) in
  do! kvmmap kpgtbl KERNBASE KERNBASE (etext - KERNBASE) (Z.lor PTE_R PTE_X) in
  do! kvmmap kpgtbl etext etext (PHYSTOP - etext) (Z.lor PTE_R PTE_W) in
  do! kvmmap kpgtbl TRAMPOLINE trampoline PGSIZE (Z.lor PTE_R PTE_X) in
  do! proc_mapstacks kpgtbl in
  retM kpgtbl.

(** [proc_pagetable] and [proc_freepagetable] (kernel/proc.c). *)
Definition proc_pagetable (trampoline trapframe : Z) : M kmem Z :=
  let! pagetable := uvmcreate in
  if pagetable =? 0 then retM 0
  else
    let! r := mappages pagetable TRAMPOLINE PGSIZE trampoline (Z.lor PTE_R PTE_X) in
    if r <? 0 then
      do! uvmfree pagetable 0 in
      retM 0
    else
      let! r := mappages pagetable TRAPFRAME PGSIZE trapframe (Z.lor PTE_R PTE_W) in
      if r <? 0 then
        do! uvmunmap pagetable TRAMPOLINE 1 false in
        do! uvmfree pagetable 0 in
        retM 0
      else retM pagetable.

Definition proc_freepagetable (pagetable sz : Z) : M kmem unit :=
  do! uvmunmap pagetable TRAMPOLINE 1 false in
  do! uvmunmap pagetable TRAPFRAME 1 false in
  uvmfree pagetable sz.

End Vm.
