(* ===== verification/VmSpec.v ===== *)
(** * Page tables refine a map from virtual pages to entries

    The abstract state of a page table is the function giving the leaf entry
    of each virtual page.  [pt_inv m root T] says that physical memory [m]
    holds at [root] a three-level table whose pages are the distinct pages
    listed by [T] (indexed by the path of indices leading to them).  The
    operations of [vm.c] are shown to preserve it and to change exactly the
    entries they are meant to change. *)

From stdpp Require Import base list gmap strings.
From Stdlib Require Import ZArith Lia.
From S2P Require Import Prelude Mem Layout Kalloc Vm.
Open Scope Z_scope.

(** The table an entry of a non-leaf table points to, if valid; an entry with
    permission bits at a non-leaf level points to no page ([0]). *)
Definition pt_next (m : mem) (p i : Z) : option Z :=
  let v := load64 m (p + 8 * i) in
  if Z.land v PTE_V =? 0 then None
  else Some (if Z.land v (Z.lor (Z.lor PTE_R PTE_W) PTE_X) =? 0 then PTE2PA v else 0).

(** The leaf entry for [va] (0 when an intermediate table is missing). *)
Definition leaf (m : mem) (T : gmap (list Z) Z) (va : Z) : Z :=
  match T !! [PX 2 va; PX 1 va] with
  | Some p => load64 m (p + 8 * PX 0 va)
  | None => 0
  end.

Definition vpn (va : Z) : Z * Z * Z := (PX 2 va, PX 1 va, PX 0 va).

Lemma vpn_page va va' : 0 <= va < MAXVA -> 0 <= va' < MAXVA ->
  vpn va = vpn va' <-> va / 4096 = va' / 4096.
Proof.
  intros H H'. unfold vpn. split.
  - intros [= ? ? ?]. now apply PX_inj.
  - intros E. now rewrite !PX0_eq, !PX1_eq, !PX2_eq, E.
Qed.

Section VmSpec.
Context (kend : Z) (Hend : 0 < kend).

Record pt_inv (m : mem) (root : Z) (T : gmap (list Z) Z) : Prop := {
  pt_root : T !! [] = Some root;
  pt_inj : forall a b p, T !! a = Some p -> T !! b = Some p -> a = b;
  pt_page : forall a p, T !! a = Some p -> page_ok kend p;
  pt_dom : forall a p, T !! a = Some p -> (length a <= 2)%nat;
  pt_idx : forall a p, T !! a = Some p -> Forall (fun i => 0 <= i < 512) a;
  pt_top : forall i b p, T !! (i :: b) = Some p -> i < 256;
  pt_closed : forall a i p, T !! (a ++ [i]) = Some p -> is_Some (T !! a);
  pt_link : forall a p i, T !! a = Some p -> (length a < 2)%nat -> 0 <= i < 512 ->
    T !! (a ++ [i]) = pt_next m p i;
}.

(** Page table and allocator together: no page-table page is free. *)
Record vm_inv (k : kmem) (root : Z) (T : gmap (list Z) Z) (l : list Z) : Prop := {
  vi_kmem : kmem_inv kend k l;
  vi_pt : pt_inv (ram k) root T;
  vi_disj : forall a p, T !! a = Some p -> p ∉ l;
}.

(** [k'] has the page-table pages of [k] and perhaps new ones taken from the
    free list; memory outside them is unchanged. *)
Record vm_grow (k : kmem) (T : gmap (list Z) Z) (l : list Z)
    (k' : kmem) (T' : gmap (list Z) Z) (l' : list Z) : Prop := {
  vg_sub : T ⊆ T';
  vg_frame : forall x, (forall a p, T' !! a = Some p -> ~ p <= x < p + 4096) ->
    mget (ram k') x = mget (ram k) x;
  vg_used : exists u, l = u ++ l' /\ (forall p, p ∈ u -> exists a, T' !! a = Some p) /\
    forall a p, T' !! a = Some p -> T !! a = Some p \/ p ∈ u;
}.

(** ... and moreover no leaf entry changed. *)
Definition vm_ext k T l k' T' l' : Prop :=
  vm_grow k T l k' T' l' /\ forall va, leaf (ram k') T' va = leaf (ram k) T va.

Lemma vm_grow_refl k T l : vm_grow k T l k T l.
Proof.
  split; auto. exists []. split_and!; [done| |auto]. intros p Hp. inversion Hp.
Qed.

Lemma vm_grow_trans k T l k1 T1 l1 k2 T2 l2 :
  vm_grow k T l k1 T1 l1 -> vm_grow k1 T1 l1 k2 T2 l2 -> vm_grow k T l k2 T2 l2.
Proof.
  intros [S1 F1 (u1 & E1 & V1 & U1)] [S2 F2 (u2 & E2 & V2 & U2)]. split.
  - etrans; eauto.
  - intros x Hx. rewrite F2 by done. apply F1.
    intros a p Ha. apply (Hx a). eapply lookup_weaken; eauto.
  - exists (u1 ++ u2). subst. rewrite app_assoc. split_and!; [done| |].
    { intros p Hp. apply elem_of_app in Hp as [Hp|Hp]; [|auto].
      apply V1 in Hp as [a Ha]. exists a. eapply lookup_weaken; eauto. }
    intros a p Ha. apply U2 in Ha as [Ha|Ha]; [apply U1 in Ha as [Ha|Ha]|]; auto;
      right; apply elem_of_app; auto.
Qed.

Lemma vm_ext_refl k T l : vm_ext k T l k T l.
Proof. split; auto using vm_grow_refl. Qed.

Lemma vm_ext_trans k T l k1 T1 l1 k2 T2 l2 :
  vm_ext k T l k1 T1 l1 -> vm_ext k1 T1 l1 k2 T2 l2 -> vm_ext k T l k2 T2 l2.
Proof.
  intros [G1 L1] [G2 L2]. split; [eapply vm_grow_trans; eauto|].
  intros. rewrite L2. apply L1.
Qed.

(** ** Reading the tree *)

Lemma PX_offset level va : 0 <= 8 * PX level va /\ 8 * PX level va + 8 <= 4096.
Proof. pose proof (PX_range level va). lia. Qed.

Lemma pt_link_valid m root T a p i : pt_inv m root T -> T !! a = Some p ->
  (length a < 2)%nat -> 0 <= i < 512 -> let v := load64 m (p + 8 * i) in
  Z.land v PTE_V <> 0 -> T !! (a ++ [i]) = Some (PTE2PA v) /\
  Z.land v (Z.lor (Z.lor PTE_R PTE_W) PTE_X) = 0.
Proof.
  intros Hi Ha Hl Hr v HV. pose proof (pt_link _ _ _ Hi a p i Ha Hl Hr) as HL.
  unfold pt_next in HL. fold v in HL. rewrite (proj2 (Z.eqb_neq _ 0) HV) in HL.
  destruct (Z.eqb_spec (Z.land v (Z.lor (Z.lor PTE_R PTE_W) PTE_X)) 0); [done|].
  apply (pt_page _ _ _ Hi) in HL. apply page_ok_pos in HL; [lia|done].
Qed.

Lemma walk_level_read k root T a p va level :
  pt_inv (ram k) root T -> T !! a = Some p -> (length a < 2)%nat ->
  walk_level false va level p k = Ok (T !! (a ++ [PX level va])) k.
Proof.
  intros Hi Ha Hl. unfold walk_level, load_pte, getM, bindM, retM.
  destruct (Z.eqb_spec (Z.land (load64 (ram k) (p + 8 * PX level va)) PTE_V) 0) as [E|E]; simpl.
  - rewrite (pt_link _ _ _ Hi a p) by (done || apply PX_range).
    unfold pt_next. by rewrite E.
  - destruct (pt_link_valid _ _ _ _ _ _ Hi Ha Hl (PX_range level va) E) as [-> _]. done.
Qed.

Lemma walk_read k root T va : pt_inv (ram k) root T -> va < MAXVA ->
  walk root va false k =
    Ok (match T !! [PX 2 va; PX 1 va] with Some p => p + 8 * PX 0 va | None => 0 end) k.
Proof.
  intros Hi Hva. unfold walk. destruct (Z.leb_spec MAXVA va); [lia|].
  cbn [walk_levels]. pose proof (pt_root _ _ _ Hi) as Hr.
  rewrite (bindM_ok _ _ _ _ _ (walk_level_read k root T [] root va 2 Hi Hr ltac:(simpl; lia))).
  simpl. destruct (T !! [PX 2 va]) as [p|] eqn:Hp.
  - rewrite (bindM_ok _ _ _ _ _ (walk_level_read k root T [PX 2 va] p va 1 Hi Hp ltac:(simpl; lia))).
    simpl. destruct (T !! [PX 2 va; PX 1 va]); done.
  - destruct (T !! [PX 2 va; PX 1 va]) as [q|] eqn:Hq; [|done].
    apply (pt_closed _ _ _ Hi [PX 2 va]) in Hq as [? Hq]. simplify_eq.
Qed.

(** ** Writing a leaf entry *)

Lemma entry_disjoint p q o o' : page_ok kend p -> page_ok kend q -> p <> q ->
  0 <= o /\ o + 8 <= 4096 -> 0 <= o' /\ o' + 8 <= 4096 ->
  (p + o) + 8 <= q + o' \/ (q + o') + 8 <= p + o.
Proof. intros [Hp _] [Hq _] Hne ? ?. destruct (page_disjoint p q); auto; lia. Qed.

Lemma leaf_store m root T va p v : pt_inv m root T -> T !! [PX 2 va; PX 1 va] = Some p ->
  let m' := store64 m (p + 8 * PX 0 va) v in
  pt_inv m' root T /\
  forall va', leaf m' T va' = if decide (vpn va = vpn va') then u64 v else leaf m T va'.
Proof.
  intros Hi Hp m'. destruct Hi as [Hroot Hinj Hpage Hdom Hidx Htop Hcl Hlink]. split.
  - split; auto. intros a q i Ha Hl Hr. rewrite (Hlink a q i) by done.
    unfold pt_next, m'. rewrite load64_store64_ne; [done|].
    apply entry_disjoint; eauto using PX_offset; try lia.
    intros ->. apply (Hinj _ _ _ Hp) in Ha. subst. simpl in Hl. lia.
  - intros va'. unfold leaf, vpn. destruct (T !! [PX 2 va'; PX 1 va']) as [q|] eqn:Hq.
    + destruct (decide (q = p)) as [->|Hne].
      * pose proof (Hinj _ _ _ Hp Hq) as [= E2 E1]. rewrite E1, E2.
        destruct (decide (PX 0 va = PX 0 va')) as [E0|E0].
        -- rewrite decide_True by congruence. unfold m'. rewrite <- E0. apply load64_store64_eq.
        -- rewrite decide_False by congruence. unfold m'. apply load64_store64_ne. lia.
      * rewrite decide_False by (intros [= E2 E1 E0]; rewrite E1, E2 in Hp; congruence).
        unfold m'. apply load64_store64_ne.
        apply entry_disjoint; eauto using PX_offset.
    + rewrite decide_False; [done|]. intros [= E2 E1 E0]. rewrite E1, E2 in Hp. congruence.
Qed.

(** The allocator is untouched by a store inside a page-table page. *)
Lemma kmem_store k root T l a p o v : vm_inv k root T l -> T !! a = Some p ->
  0 <= o /\ o + 8 <= 4096 ->
  kmem_inv kend (mk_kmem (store64 (ram k) (p + o) v) (freelist k)) l.
Proof.
  intros [[Hc Hn Hp] Hpt Hd] Ha Ho. split; simpl; [|done|done].
  apply (chain_frame kend (ram k) _ _ l p); eauto.
  - apply (pt_page _ _ _ Hpt _ _ Ha).
  - intros. apply mget_store64_out. lia.
Qed.

(** ** Adding a table *)

Section Grow.
Context (m m3 : mem) (root : Z) (T : gmap (list Z) Z) (a : list Z) (p i q : Z).
Context (Hi : pt_inv m root T) (Ha : T !! a = Some p) (Hl : (length a < 2)%nat)
  (Hr : 0 <= i < 512) (Htop : a = [] -> i < 256) (Hnew : T !! (a ++ [i]) = None) (Hq : page_ok kend q)
  (Hfresh : forall b, T !! b <> Some q)
  (Hm : forall x, x < q \/ q + 4096 <= x -> x < p + 8 * i \/ p + 8 * i + 8 <= x ->
        mget m3 x = mget m x)
  (Hz : forall j, 0 <= j < 512 -> load64 m3 (q + 8 * j) = 0)
  (He : load64 m3 (p + 8 * i) = Z.lor (PA2PTE q) PTE_V).

Lemma grow_load b r j : T !! b = Some r -> 0 <= j < 512 -> (b <> a \/ j <> i) ->
  load64 m3 (r + 8 * j) = load64 m (r + 8 * j).
Proof.
  intros Hb Hj Hne. apply load64_ext. intros x Hx.
  pose proof (pt_page _ _ _ Hi _ _ Hb) as Hrok. pose proof (pt_page _ _ _ Hi _ _ Ha) as Hpok.
  apply Hm.
  - assert (r <> q) by (intros ->; now apply (Hfresh b)).
    destruct Hrok as [Hrok _], Hq as [Hq4 _]. destruct (page_disjoint r q); auto; lia.
  - destruct (decide (b = a)) as [->|Hba].
    + rewrite Ha in Hb. simplify_eq. destruct Hne; [done|lia].
    + assert (r <> p) by (intros ->; apply Hba; eapply pt_inj; eauto).
      destruct Hrok as [Hrok _], Hpok as [Hp4 _].
      destruct (page_disjoint r p); auto; lia.
Qed.

Lemma pack_q : Z.land (Z.lor (PA2PTE q) PTE_V) PTE_V =? 0 = false /\
  (if Z.land (Z.lor (PA2PTE q) PTE_V) (Z.lor (Z.lor PTE_R PTE_W) PTE_X) =? 0
   then PTE2PA (Z.lor (PA2PTE q) PTE_V) else 0) = q.
Proof.
  pose proof (page_ok_pos kend Hend q Hq). destruct Hq as [Hq4 _].
  rewrite !land_pack_low by (apply PTE_V_range || done || lia).
  split; [done|]. apply PTE2PA_pack; [lia|done|apply PTE_V_range].
Qed.

Lemma grow_inv : pt_inv m3 root (<[a ++ [i] := q]> T).
Proof.
  assert (Hane : a ++ [i] <> []) by (destruct a; discriminate).
  split.
  - rewrite lookup_insert_ne by done. apply (pt_root _ _ _ Hi).
  - intros b c r. rewrite !lookup_insert.
    repeat case_decide; subst; intros H1 H2; simplify_eq; auto.
    + exfalso; eapply Hfresh; eauto.
    + exfalso; eapply Hfresh; eauto.
    + eapply pt_inj; eauto.
  - intros b r. rewrite lookup_insert. case_decide; intros; simplify_eq; auto.
    eapply pt_page; eauto.
  - intros b r. rewrite lookup_insert. case_decide; intros; simplify_eq.
    + rewrite length_app. simpl. lia.
    + eapply pt_dom; eauto.
  - intros b r. rewrite lookup_insert. case_decide; intros; simplify_eq.
    + apply Forall_app. split; [eapply pt_idx; eauto|]. auto.
    + eapply pt_idx; eauto.
  - intros j b r. rewrite lookup_insert. case_decide as E; intros; simplify_eq.
    + destruct a as [|i' a']; simplify_eq/=; [auto|]. eapply pt_top; eauto.
    + eapply pt_top; eauto.
  - intros b j r. rewrite (lookup_insert T _ (b ++ [j])). case_decide as E; intros Hb.
    + apply app_inj_2 in E as [<- _]; [|done]. rewrite lookup_insert, Ha. case_decide; eauto.
    + apply (pt_closed _ _ _ Hi) in Hb as [x Hx]. rewrite lookup_insert, Hx.
      case_decide; eauto.
  - intros b r j. rewrite (lookup_insert T (a ++ [i]) b). case_decide as Eb.
    + (* the new, empty table *)
      intros [= <-] Hlb Hj. subst b. unfold pt_next. rewrite Hz by done.
      change (Z.land 0 PTE_V =? 0) with true. cbn match.
      rewrite lookup_insert_ne by (intros E; apply (f_equal length) in E; rewrite !length_app in E; simpl in E; lia).
      destruct (T !! ((a ++ [i]) ++ [j])) eqn:E; [|done].
      apply (pt_closed _ _ _ Hi) in E as [? E]. congruence.
    + intros Hb Hlb Hj. rewrite lookup_insert. case_decide as E.
      * apply app_inj_2 in E as [<- [= <-]]; [|done]. rewrite Ha in Hb. injection Hb as <-.
        unfold pt_next. rewrite He. destruct pack_q as [-> ->]. done.
      * rewrite (pt_link _ _ _ Hi b r j) by done. unfold pt_next.
        rewrite (grow_load b r j); auto.
        destruct (decide (b = a)) as [->|]; [|auto]. right. congruence.
Qed.

Lemma grow_leaf va : leaf m3 (<[a ++ [i] := q]> T) va = leaf m T va.
Proof.
  unfold leaf. rewrite lookup_insert. case_decide as E.
  - rewrite <- E, Hnew. apply Hz, PX_range.
  - destruct (T !! [PX 2 va; PX 1 va]) as [r|] eqn:Hb; [|done].
    apply (grow_load [PX 2 va; PX 1 va]); [done|apply PX_range|].
    left. intros <-. simpl in Hl. lia.
Qed.
End Grow.

Lemma walk_level_alloc k root T l a p va level :
  vm_inv k root T l -> T !! a = Some p -> (length a < 2)%nat -> (a = [] -> PX level va < 256) ->
  returns (walk_level true va level p) k (fun r k' => exists T' l',
    vm_inv k' root T' l' /\ vm_ext k T l k' T' l' /\ (length l <= length l' + 1)%nat /\
    match r with
    | None => l' = []
    | Some q => T' !! (a ++ [PX level va]) = Some q
    end).
Proof.
  intros Hv Ha Hl Htop. pose proof (vi_pt _ _ _ _ Hv) as Hi.
  pose proof (pt_link _ _ _ Hi a p _ Ha Hl (PX_range level va)) as Hlink.
  pose proof (pt_link_valid _ _ _ a p _ Hi Ha Hl (PX_range level va)) as Hlk. cbv zeta in Hlk.
  unfold pt_next in Hlink. unfold walk_level, load_pte, getM.
  apply returns_bind. unfold returns at 1.
  destruct (Z.eqb_spec (Z.land (load64 (ram k) (p + 8 * PX level va)) PTE_V) 0); cbn [negb].
  2: { destruct Hlk as [Hlk _]; [done|]. exists T, l. split_and!; auto using vm_ext_refl; simpl; lia. }
  apply returns_bind. destruct l as [|q l].
  { eapply returns_ok; [eapply kalloc_none, (vi_kmem _ _ _ _ Hv)|].
    apply returns_ret. exists T, []. split_and!; auto using vm_ext_refl. simpl; lia. }
  eapply returns_mono; [apply (kalloc_ok kend Hend _ _ _ (vi_kmem _ _ _ _ Hv))|].
  intros r k1 (-> & Hk1 & _ & Hout).
  assert (Hq : page_ok kend q) by (pose proof (ki_pages _ _ _ (vi_kmem _ _ _ _ Hv)) as H; now inversion H).
  pose proof (page_ok_pos kend Hend q Hq). destruct (Z.eqb_spec q 0); [lia|].
  assert (Hnin : q ∉ l) by (pose proof (ki_nodup _ _ _ (vi_kmem _ _ _ _ Hv)) as H'; now inversion H').
  assert (Hfresh : forall b, T !! b <> Some q).
  { intros b Hb. apply (vi_disj _ _ _ _ Hv _ _ Hb). apply list_elem_of_here. }
  set (i := PX level va) in *.
  set (m3 := store64 (memset (ram k1) q 0 PGSIZE) (p + 8 * i) (Z.lor (PA2PTE q) PTE_V)).
  assert (Hpok : page_ok kend p) by eauto using pt_page.
  assert (Hpq : p <> q) by (intros ->; now apply (Hfresh a)).
  pose proof (PX_offset level va) as Ho. fold i in Ho.
  assert (Hdpq : p + 4096 <= q \/ q + 4096 <= p)
    by (apply page_disjoint; [apply Hpok|apply Hq|done]).
  assert (Hm : forall x, x < q \/ q + 4096 <= x -> x < p + 8 * i \/ p + 8 * i + 8 <= x ->
        mget m3 x = mget (ram k) x).
  { intros x Hx1 Hx2. unfold m3, PGSIZE. rewrite mget_store64_out, mget_memset_out by lia.
    apply Hout. lia. }
  assert (Hz : forall j, 0 <= j < 512 -> load64 m3 (q + 8 * j) = 0).
  { intros j Hj. unfold m3, PGSIZE. rewrite load64_store64_ne by lia.
    apply load64_memset_zero; lia. }
  assert (He : load64 m3 (p + 8 * i) = Z.lor (PA2PTE q) PTE_V).
  { unfold m3. rewrite load64_store64_eq. apply u64_small. destruct Hq as [Hq4 _].
    pose proof (PTE_pack_range q PTE_V ltac:(lia) Hq4 PTE_V_range). lia. }
  apply (returns_ok _ _ _ (Some q) (mk_kmem m3 (freelist k1))); [reflexivity|].
  assert (Hk3 : kmem_inv kend (mk_kmem m3 (freelist k1)) l).
  { destruct Hk1 as [Hc Hn Hpg]. split; cbn [ram freelist]; [|done|done].
    assert (chain (memset (ram k1) q 0 PGSIZE) (freelist k1) l).
    { apply (chain_frame kend (ram k1) _ _ l q); [apply Hq|done|done| |done].
      intros. apply mget_memset_out. unfold PGSIZE. lia. }
    apply (chain_frame kend (memset (ram k1) q 0 PGSIZE) _ _ l p);
      [apply Hpok|done| | |done].
    - intros Hin. apply (vi_disj _ _ _ _ Hv _ _ Ha). now right.
    - intros. apply mget_store64_out. lia. }
  pose proof (PX_range level va) as Hir. fold i in Hir.
  clearbody m3 i.
  exists (<[a ++ [i] := q]> T), l. split_and!.
  - split; cbn [ram freelist].
    + done.
    + now apply (grow_inv (ram k) m3 root T a p i q).
    + intros b r. rewrite lookup_insert. case_decide; intros; simplify_eq; [done|].
      intros Hin. eapply (vi_disj _ _ _ _ Hv); eauto. now right.
  - split; [split|intros; now apply (grow_leaf (ram k) m3 root T a p i q)].
    + apply insert_subseteq. done.
    + intros x Hx. simpl. apply Hm.
      * assert (~ q <= x < q + 4096) by (apply (Hx (a ++ [i])), lookup_insert_eq). lia.
      * assert (~ p <= x < p + 4096).
        { apply (Hx a). rewrite lookup_insert_ne; [done|].
          intros E. apply (f_equal length) in E. rewrite length_app in E. simpl in E. lia. }
        lia.
    + exists [q]. split_and!; [done| |].
      { intros r Hr. apply list_elem_of_singleton in Hr as ->. exists (a ++ [i]).
        apply lookup_insert_eq. }
      intros b r. rewrite lookup_insert.
      case_decide; intros; simplify_eq; auto. right. apply list_elem_of_here.
  - simpl. lia.
  - apply lookup_insert_eq.
Qed.

Lemma walk_alloc k root T l va : vm_inv k root T l -> 0 <= va < MAXVA ->
  returns (walk root va true) k (fun r k' => exists T' l',
    vm_inv k' root T' l' /\ vm_ext k T l k' T' l' /\ (length l <= length l' + 2)%nat /\
    ((r = 0 /\ l' = []) \/
     exists p, T' !! [PX 2 va; PX 1 va] = Some p /\ r = p + 8 * PX 0 va)).
Proof.
  intros Hv Hva. unfold walk. destruct (Z.leb_spec MAXVA va); [lia|]. cbn [walk_levels].
  apply returns_bind. pose proof (pt_root _ _ _ (vi_pt _ _ _ _ Hv)) as Hr.
  eapply returns_mono; [apply (walk_level_alloc k root T l [] root va 2 Hv Hr); [simpl; lia|intros _; now apply PX2_top]|].
  intros r k1 (T1 & l1 & Hv1 & He1 & Hl1 & H1). destruct r as [p1|].
  2: { apply returns_ret. exists T1, l1. split_and!; auto. lia. }
  apply returns_bind.
  eapply returns_mono; [apply (walk_level_alloc k1 root T1 l1 [PX 2 va] p1 va 1 Hv1 H1); [simpl; lia|done]|].
  intros r k2 (T2 & l2 & Hv2 & He2 & Hl2 & H2). destruct r as [p2|]; apply returns_ret;
    exists T2, l2; (split_and!; [done|eapply vm_ext_trans; eauto|lia|]); [right|left]; eauto.
Qed.

(** Storing a leaf entry keeps the invariant and changes that entry only. *)
Lemma store_leaf k root T l va p v :
  vm_inv k root T l -> T !! [PX 2 va; PX 1 va] = Some p ->
  let k' := mk_kmem (store64 (ram k) (p + 8 * PX 0 va) v) (freelist k) in
  vm_inv k' root T l /\ vm_grow k T l k' T l /\
  forall va', leaf (ram k') T va' = if decide (vpn va = vpn va') then u64 v else leaf (ram k) T va'.
Proof.
  intros Hv Hp k'. pose proof (PX_offset 0 va).
  destruct (leaf_store (ram k) root T va p v (vi_pt _ _ _ _ Hv) Hp) as [H1 H2].
  split_and!; [split| |exact H2].
  - eapply kmem_store; eauto.
  - exact H1.
  - apply (vi_disj _ _ _ _ Hv).
  - split; auto.
    + intros x Hx. apply mget_store64_out. pose proof (Hx _ _ Hp). lia.
    + exists []. split_and!; [done| |auto]. intros ? Hin. inversion Hin.
Qed.

(** ** mappages *)

Definition map_entry (pa perm : Z) : Z := Z.lor (Z.lor (PA2PTE pa) perm) PTE_V.

(** The leaf function after mapping the pages of [a, a + 4096 j) to [pa] on. *)
Definition mapped (lf : Z -> Z) (a j pa perm va : Z) : Z :=
  if decide (a <= va < a + 4096 * j)
  then map_entry (pa + (va - va mod 4096 - a)) perm else lf va.

Lemma lor_flags_range a b : 0 <= a < 1024 -> 0 <= b < 1024 -> 0 <= Z.lor a b < 1024.
Proof.
  intros Ha Hb. change 1024 with (2 ^ 10) in *.
  assert (E : Z.lor a b = Z.lor a b mod 2 ^ 10).
  { rewrite <- Z.land_ones, Z.land_lor_distr_l, !Z.land_ones by lia.
    rewrite !Z.mod_small by done. done. }
  rewrite E. apply Z.mod_pos_bound. lia.
Qed.

Lemma map_entry_pack pa perm : map_entry pa perm = Z.lor (PA2PTE pa) (Z.lor perm PTE_V).
Proof. unfold map_entry. now rewrite Z.lor_assoc. Qed.

Lemma map_entry_range pa perm : 0 <= pa < 2 ^ 56 -> pa mod 4096 = 0 -> 0 <= perm < 1024 ->
  0 <= map_entry pa perm < 2 ^ 64.
Proof.
  intros. rewrite map_entry_pack.
  pose proof (PTE_pack_range pa (Z.lor perm PTE_V) ltac:(lia) ltac:(lia)
                (lor_flags_range perm PTE_V ltac:(lia) PTE_V_range)). lia.
Qed.

Lemma pt_pos m root T a p : pt_inv m root T -> T !! a = Some p -> 0 < p < 2 ^ 32.
Proof. intros Hi Ha. apply (page_ok_pos kend Hend). eapply pt_page; eauto. Qed.

(** One iteration of [mappages]: either the walk runs out of memory, or the
    entry of the page of [a] is set and the loop goes on as [K]. *)
Lemma map_one_page k root T l a pa perm (K : M kmem Z) (Q : Z -> kmem -> Prop) :
  vm_inv k root T l -> 0 <= a < MAXVA -> 0 <= perm < 1024 ->
  pa mod 4096 = 0 -> 0 <= pa < 2 ^ 56 -> Z.land (leaf (ram k) T a) PTE_V = 0 ->
  (forall k1 T1, vm_inv k1 root T1 [] -> vm_ext k T l k1 T1 [] ->
     (length l <= 2)%nat -> Q (-1) k1) ->
  (forall k2 T2 l2, vm_inv k2 root T2 l2 -> vm_grow k T l k2 T2 l2 ->
     (length l <= length l2 + 2)%nat ->
     (forall va, leaf (ram k2) T2 va =
        if decide (vpn a = vpn va) then map_entry pa perm else leaf (ram k) T va) ->
     returns K k2 Q) ->
  returns (let! pte := walk root a true in
           if pte =? 0 then retM (-1)
           else
             let! v := load_pte pte in
             if negb (Z.land v PTE_V =? 0) then panicM "mappages: remap"
             else do! store_pte pte (map_entry pa perm) in K) k Q.
Proof.
  intros Hv Ha Hperm Hpa Hpar Hun Hfail Hgo. apply returns_bind.
  eapply returns_mono; [apply (walk_alloc k root T l a Hv); lia|].
  intros pte k1 (T1 & l1 & Hv1 & [Hg1 Hl1] & Hlen & [[-> ->]|(p & Hp & ->)]).
  { apply returns_ret, (Hfail _ T1); [done|by split|simpl in Hlen; lia]. }
  pose proof (pt_pos _ _ _ _ _ (vi_pt _ _ _ _ Hv1) Hp). pose proof (PX_offset 0 a).
  destruct (Z.eqb_spec (p + 8 * PX 0 a) 0); [lia|].
  apply returns_bind; unfold load_pte, getM, returns at 1.
  assert (Hleaf : leaf (ram k1) T1 a = load64 (ram k1) (p + 8 * PX 0 a))
    by (unfold leaf; now rewrite Hp).
  rewrite <- Hleaf, Hl1, Hun. cbn [negb Z.eqb].
  apply returns_bind; unfold store_pte, set_ram, modifyM, returns at 1.
  destruct (store_leaf k1 root T1 l1 a p (map_entry pa perm) Hv1 Hp) as (Hv2 & Hg2 & Hl2).
  rewrite (u64_small (map_entry _ _)) in Hl2 by (apply map_entry_range; lia).
  apply (Hgo _ T1 l1); auto; [eapply vm_grow_trans; eauto|].
  intros va. rewrite Hl2, Hl1. done.
Qed.

Lemma mappages_loop_ok perm : 0 <= perm < 1024 -> forall n k root T l a pa fuel,
  vm_inv k root T l -> a mod 4096 = 0 -> 0 <= a -> a + 4096 * (Z.of_nat n + 1) <= MAXVA ->
  pa mod 4096 = 0 -> 0 <= pa -> pa + 4096 * Z.of_nat n < 2 ^ 56 ->
  (forall va, a <= va < a + 4096 * (Z.of_nat n + 1) -> Z.land (leaf (ram k) T va) PTE_V = 0) ->
  (n < fuel)%nat ->
  returns (mappages_loop root a (a + 4096 * Z.of_nat n) pa perm fuel) k (fun r k' =>
    exists T' l' j, vm_inv k' root T' l' /\ vm_grow k T l k' T' l' /\
    (forall va, 0 <= va < MAXVA ->
       leaf (ram k') T' va = mapped (leaf (ram k) T) a j pa perm va) /\
    (length l <= length l' + 2 * (n + 1))%nat /\
    ((r = 0 /\ j = Z.of_nat n + 1) \/ (r = -1 /\ 0 <= j <= Z.of_nat n /\ l' = []))).
Proof.
  intros Hperm. pose proof MAXVA_eq. induction n as [|n IH];
    intros k root T l a pa [|fuel] Hv Ha Ha0 Hmax Hpa Hpa0 Hpamax Hun Hf; try lia;
    cbn [mappages_loop]; fold (map_entry pa perm);
    (apply (map_one_page k root T l); auto; try lia; [apply Hun; lia|..]).
  1, 3: intros k1 T1 Hv1 [Hg1 Hl1] Hlen; exists T1, [], 0;
    (split_and!; [done|done| |simpl; lia|right; split_and!; auto; lia]);
    intros va Hva; rewrite Hl1; unfold mapped; now rewrite decide_False by lia.
  all: intros k2 T2 l2 Hv2 Hg2 Hlen Hl2.
  all: assert (Hiff : forall va, 0 <= va < MAXVA -> (vpn a = vpn va <-> a <= va < a + 4096))
    by (intros va Hva; rewrite vpn_page by lia; Z.div_mod_to_equations; lia).
  - rewrite Z.mul_0_r, Z.add_0_r, Z.eqb_refl. apply returns_ret.
    exists T2, l2, 1. split_and!; [done|done| |lia|left; split; lia].
    intros va Hva. rewrite Hl2. unfold mapped. specialize (Hiff va Hva).
    case_decide as E1; case_decide as E2; try lia; try tauto.
    f_equal. Z.div_mod_to_equations; lia.
  - destruct (Z.eqb_spec a (a + 4096 * Z.of_nat (S n))); [lia|].
    unfold PGSIZE. rewrite (u64_small (a + 4096)), (u64_small (pa + 4096)) by lia.
    replace (a + 4096 * Z.of_nat (S n)) with ((a + 4096) + 4096 * Z.of_nat n) by lia.
    eapply returns_mono.
    + apply (IH k2 root T2 l2 (a + 4096) (pa + 4096) fuel); auto; try lia.
      * Z.div_mod_to_equations; lia.
      * Z.div_mod_to_equations; lia.
      * intros va Hva. rewrite Hl2, decide_False by (rewrite Hiff by lia; lia).
        apply Hun. lia.
    + intros r k3 (T3 & l3 & j & Hv3 & Hg3 & Hl3 & Hlen3 & Hc).
      exists T3, l3, (j + 1). split_and!; [done|eapply vm_grow_trans; eauto| |lia|].
      * intros va Hva. rewrite Hl3 by done. unfold mapped. rewrite Hl2.
        specialize (Hiff va Hva). assert (0 <= j) by lia.
        destruct (decide (vpn a = vpn va)) as [Ev|Ev]; rewrite Hiff in Ev;
          repeat case_decide; try lia; f_equal; Z.div_mod_to_equations; lia.
      * destruct Hc as [[-> ->]|(-> & Hj & ->)]; [left|right]; split_and!; auto; lia.
Qed.

Lemma mappages_ok k root T l va size pa perm (n : nat) :
  vm_inv k root T l -> 0 <= va -> 0 < size -> va + size <= MAXVA -> 0 <= perm < 1024 ->
  pa mod 4096 = 0 -> 0 <= pa -> pa + 4096 * Z.of_nat n < 2 ^ 56 ->
  (va + size - 1) / 4096 - va / 4096 = Z.of_nat n ->
  (forall v, va / 4096 <= v / 4096 <= (va + size - 1) / 4096 ->
     Z.land (leaf (ram k) T v) PTE_V = 0) ->
  returns (mappages root va size pa perm) k (fun r k' =>
    exists T' l' j, vm_inv k' root T' l' /\ vm_grow k T l k' T' l' /\
    (forall v, 0 <= v < MAXVA ->
       leaf (ram k') T' v = mapped (leaf (ram k) T) (va - va mod 4096) j pa perm v) /\
    (length l <= length l' + 2 * (n + 1))%nat /\
    ((r = 0 /\ j = Z.of_nat n + 1) \/ (r = -1 /\ 0 <= j <= Z.of_nat n /\ l' = []))).
Proof.
  intros Hv Hva Hsz Hmax Hperm Hpa Hpa0 Hpam Hn Hun. pose proof MAXVA_eq.
  unfold mappages. destruct (Z.eqb_spec size 0); [lia|].
  rewrite (u64_small (va + size - 1)), !PGROUNDDOWN_eq by lia.
  replace (va + size - 1 - (va + size - 1) mod 4096)
    with (va - va mod 4096 + 4096 * Z.of_nat n) by (Z.div_mod_to_equations; lia).
  assert (va - va mod 4096 + 4096 * (Z.of_nat n + 1) <= MAXVA).
  { assert (MAXVA mod 4096 = 0) by reflexivity. Z.div_mod_to_equations; lia. }
  apply mappages_loop_ok; auto; try lia.
  - Z.div_mod_to_equations; lia.
  - Z.div_mod_to_equations; lia.
  - intros v Hv'. apply Hun. Z.div_mod_to_equations; lia.
  - unfold PGSIZE.
    replace (va - va mod 4096 + 4096 * Z.of_nat n - (va - va mod 4096))
      with (Z.of_nat n * 4096) by lia.
    rewrite Z.div_mul by lia. lia.
Qed.

(** ** Memory changes outside the page table *)

Definition off_page (d x : Z) : Prop := x < d \/ d + 4096 <= x.

(** The page table depends on the memory of its own pages only. *)
Lemma pt_agree m m' root T : pt_inv m root T ->
  (forall a p x, T !! a = Some p -> p <= x < p + 4096 -> mget m' x = mget m x) ->
  pt_inv m' root T /\ forall va, leaf m' T va = leaf m T va.
Proof.
  intros Hi Hm.
  assert (Hld : forall a p i, T !! a = Some p -> 0 <= i < 512 ->
            load64 m' (p + 8 * i) = load64 m (p + 8 * i)).
  { intros a p i Ha Hr. apply load64_ext. intros x Hx. apply (Hm a p); [done|lia]. }
  split.
  - destruct Hi as [H1 H2 H3 H4 H4' H4'' H5 H6]. split; auto.
    intros a p i Ha Hl Hr. rewrite (H6 a p i) by done. unfold pt_next.
    rewrite (Hld a p i) by done. done.
  - intros va. unfold leaf. destruct (T !! _) as [p|] eqn:Hp; [|done].
    eapply Hld; [exact Hp|apply PX_range].
Qed.

(** Changing memory inside a page that is not a page-table page. *)
Lemma pt_frame m m' root T d : pt_inv m root T -> d mod 4096 = 0 ->
  (forall a, T !! a <> Some d) ->
  (forall x, off_page d x -> mget m' x = mget m x) ->
  pt_inv m' root T /\ forall va, leaf m' T va = leaf m T va.
Proof.
  intros Hi Hd Hn Hm. apply pt_agree; [done|]. intros a p x Ha Hx. apply Hm.
  destruct (pt_page _ _ _ Hi a p Ha) as [Hp _].
  assert (p <> d) by (intros ->; now apply (Hn a)).
  destruct (page_disjoint p d); auto; unfold off_page; lia.
Qed.

Lemma vm_kfree k root T l d : vm_inv k root T l -> page_ok kend d -> d ∉ l ->
  (forall a, T !! a <> Some d) ->
  returns (kfree kend d) k (fun _ k' =>
    vm_inv k' root T (d :: l) /\ (forall va, leaf (ram k') T va = leaf (ram k) T va) /\
    forall x, off_page d x -> mget (ram k') x = mget (ram k) x).
Proof.
  intros [Hk Hp Hd] Hok Hnin Hnt.
  eapply returns_mono; [apply (kfree_ok kend Hend k l d); auto|].
  intros _ k' [Hk' Hout]. destruct (pt_frame (ram k) (ram k') root T d) as [Hi' Hl']; auto.
  { apply Hok. }
  split_and!; auto. split; auto.
  intros a p Ha. apply not_elem_of_cons. split; [|eauto].
  intros ->. now apply (Hnt a).
Qed.

(** ** uvmunmap

    [unmapped lf a n]: the leaf function with the [n] pages from [a] cleared. *)
Definition unmapped (lf : Z -> Z) (a n va : Z) : Z :=
  if decide (a <= va < a + 4096 * n) then 0 else lf va.

(** The physical pages behind the [n] virtual pages from [a]. *)
Definition phys_pages (lf : Z -> Z) (a : Z) (n : nat) : list Z :=
  map (fun i => PTE2PA (lf (a + 4096 * Z.of_nat i))) (seq 0 n).

Lemma phys_pages_S lf a n : phys_pages lf a (S n) = PTE2PA (lf a) :: phys_pages lf (a + 4096) n.
Proof.
  unfold phys_pages. simpl. f_equal; [do 2 f_equal; lia|].
  rewrite <- seq_shift, map_map. apply map_ext. intros. do 2 f_equal. lia.
Qed.

Lemma phys_pages_ext lf lf' a n :
  (forall va, a <= va < a + 4096 * Z.of_nat n -> lf va = lf' va) ->
  phys_pages lf a n = phys_pages lf' a n.
Proof.
  intros H. unfold phys_pages. apply map_ext_in. intros i Hi. apply in_seq in Hi.
  f_equal. apply H. lia.
Qed.

Definition is_leaf_pte (v : Z) : Prop := Z.land v PTE_V <> 0 /\ PTE_FLAGS v <> PTE_V.

Lemma uvmunmap_loop_ok do_free : forall n k root T l a fuel,
  vm_inv k root T l -> a mod 4096 = 0 -> 0 <= a -> a + 4096 * Z.of_nat n <= MAXVA ->
  (forall va, a <= va < a + 4096 * Z.of_nat n -> is_leaf_pte (leaf (ram k) T va)) ->
  (do_free = true ->
     let D := phys_pages (leaf (ram k) T) a n in
     NoDup D /\ Forall (fun d => page_ok kend d /\ d ∉ l /\ forall b, T !! b <> Some d) D) ->
  (n < fuel)%nat ->
  returns (uvmunmap_loop kend root a (a + 4096 * Z.of_nat n) do_free fuel) k (fun _ k' =>
    let l' := if do_free then reverse (phys_pages (leaf (ram k) T) a n) ++ l else l in
    vm_inv k' root T l' /\
    (forall va, 0 <= va < MAXVA ->
       leaf (ram k') T va = unmapped (leaf (ram k) T) a (Z.of_nat n) va) /\
    forall x, (forall b p, T !! b = Some p -> off_page p x) ->
      (do_free = true -> Forall (fun d => off_page d x) (phys_pages (leaf (ram k) T) a n)) ->
      mget (ram k') x = mget (ram k) x).
Proof.
  induction n as [|n IH]; intros k root T l a [|fuel] Hv Ha Ha0 Hmax Hleaf HD Hf; try lia;
    pose proof MAXVA_eq; cbn [uvmunmap_loop].
  { destruct (Z.ltb_spec a (a + 4096 * Z.of_nat 0)); [lia|]. apply returns_ret.
    destruct do_free; (split_and!; [done| |done]); intros va Hva; unfold unmapped;
      now rewrite decide_False by lia. }
  destruct (Z.ltb_spec a (a + 4096 * Z.of_nat (S n))); [|lia].
  apply returns_bind. eapply returns_ok.
  { apply (walk_read k root T a (vi_pt _ _ _ _ Hv)). lia. }
  destruct (Hleaf a ltac:(lia)) as [HV HF].
  destruct (T !! [PX 2 a; PX 1 a]) as [p|] eqn:Hp.
  2: { exfalso. apply HV. unfold leaf. rewrite Hp. done. }
  pose proof (pt_pos _ _ _ _ _ (vi_pt _ _ _ _ Hv) Hp). pose proof (PX_offset 0 a).
  destruct (Z.eqb_spec (p + 8 * PX 0 a) 0); [lia|].
  apply returns_bind; unfold load_pte, getM, returns at 1.
  assert (E : leaf (ram k) T a = load64 (ram k) (p + 8 * PX 0 a))
    by (unfold leaf; now rewrite Hp).
  rewrite <- E. destruct (Z.eqb_spec (Z.land (leaf (ram k) T a) PTE_V) 0); [done|].
  destruct (Z.eqb_spec (PTE_FLAGS (leaf (ram k) T a)) PTE_V); [done|].
  set (d := PTE2PA (leaf (ram k) T a)) in *.
  apply returns_bind. rewrite phys_pages_S in HD |- *. fold d in HD |- *.
  set (D := phys_pages (leaf (ram k) T) (a + 4096) n) in *.
  (* the optional kfree *)
  eapply (returns_mono _ _ (fun _ k1 =>
    vm_inv k1 root T (if do_free then d :: l else l) /\
    (forall va, leaf (ram k1) T va = leaf (ram k) T va) /\
    (forall x, (do_free = true -> off_page d x) -> mget (ram k1) x = mget (ram k) x))).
  { destruct do_free; [|by apply returns_ret].
    destruct (HD eq_refl) as [_ HF']. inversion HF' as [|?? (Hd1 & Hd2 & Hd3)]; subst.
    eapply returns_mono; [apply (vm_kfree k root T l d); auto|]. naive_solver. }
  intros _ k1 (Hv1 & Hl1 & Hf1).
  apply returns_bind; unfold store_pte, set_ram, modifyM, returns at 1.
  destruct (store_leaf k1 root T _ a p 0 Hv1 Hp) as (Hv2 & Hg2 & Hl2).
  set (k2 := mk_kmem _ _) in *. clearbody k2. change (u64 0) with 0 in Hl2.
  unfold PGSIZE. rewrite (u64_small (a + 4096)) by lia.
  replace (a + 4096 * Z.of_nat (S n)) with ((a + 4096) + 4096 * Z.of_nat n) by lia.
  assert (Hiff : forall va, 0 <= va < MAXVA -> (vpn a = vpn va <-> a <= va < a + 4096))
    by (intros va Hva; rewrite vpn_page by lia; Z.div_mod_to_equations; lia).
  assert (Hsame : forall va, a + 4096 <= va < MAXVA -> leaf (ram k2) T va = leaf (ram k) T va).
  { intros va Hva. rewrite Hl2, Hl1, decide_False; [done|]. rewrite Hiff by lia. lia. }
  assert (HDeq : phys_pages (leaf (ram k2) T) (a + 4096) n = D).
  { apply phys_pages_ext. intros. apply Hsame. lia. }
  eapply returns_mono.
  - apply (IH k2 root T _ (a + 4096) fuel Hv2); try lia.
    + Z.div_mod_to_equations; lia.
    + intros va Hva. rewrite Hsame by lia. apply Hleaf. lia.
    + intros ->. rewrite HDeq. destruct (HD eq_refl) as [Hnd HF']. 
      inversion Hnd as [|?? Hni Hnd']; subst. inversion HF' as [|?? _ HF'']; subst.
      split; [done|]. apply Forall_forall. intros x Hx.
      destruct (proj1 (Forall_forall _ _) HF'' x Hx) as (? & ? & ?). split_and!; auto.
      apply not_elem_of_cons. split; [congruence|done].
  - intros ? k3 (Hv3 & Hl3 & Hf3). rewrite HDeq in *. split_and!.
    + destruct do_free; [|done]. rewrite reverse_cons, <- app_assoc. exact Hv3.
    + intros va Hva. rewrite Hl3 by done. unfold unmapped. rewrite Hl2, Hl1.
      destruct (decide (vpn a = vpn va)) as [Ev|Ev]; rewrite Hiff in Ev by done;
        repeat case_decide; try lia; done.
    + intros x Hx Hd. rewrite Hf3; [|done|intros Ht; specialize (Hd Ht); now inversion Hd].
      rewrite (vg_frame _ _ _ _ _ _ Hg2).
      * apply Hf1. intros Ht; specialize (Hd Ht); now inversion Hd.
      * intros b q Hb. specialize (Hx _ _ Hb). unfold off_page in Hx. lia.
Qed.
End VmSpec.
