(* ===== verification/VmUser.v ===== *)
(** * Growing, shrinking and copying user address spaces

    [uvmalloc], [uvmdealloc] and [uvmcopy], proved over the page-table abstraction
    of [VmSpec]: on success the new pages are mapped to fresh zeroed memory; on
    failure the address space and the set of free pages are as before. *)

From stdpp Require Import base list gmap strings.
From Stdlib Require Import ZArith Lia.
From S2P Require Import Prelude Mem Layout Kalloc Vm VmSpec.
Open Scope Z_scope.

Section VmUser.
Context (kend : Z) (Hend : 0 < kend).

Local Abbreviation page_ok := (page_ok kend).
Local Abbreviation vm_inv := (vm_inv kend).

(** A page accounted for by a page table and the free list. *)
Definition pages_of (T : gmap (list Z) Z) (l : list Z) (p : Z) : Prop :=
  p ∈ l \/ exists b, T !! b = Some p.

Lemma vm_grow_pages k T l k' T' l' : vm_grow k T l k' T' l' ->
  forall p, pages_of T' l' p <-> pages_of T l p.
Proof.
  intros [S F (u & -> & V & U)] p. unfold pages_of. split.
  - intros [Hp|[b Hb]]; [left; apply elem_of_app; auto|].
    apply U in Hb as [Hb|Hb]; [eauto|]. left; apply elem_of_app; auto.
  - intros [Hp|[b Hb]].
    + apply elem_of_app in Hp as [Hp|Hp]; [right; auto|auto].
    + right. exists b. eapply lookup_weaken; eauto.
Qed.

(** A page owned by a client: neither free nor a page-table page. *)
Definition user_page (T : gmap (list Z) Z) (l : list Z) (d : Z) : Prop :=
  page_ok d /\ d ∉ l /\ forall b, T !! b <> Some d.

Lemma vm_kalloc k root T d l : vm_inv k root T (d :: l) ->
  returns kalloc k (fun r k' =>
    r = d /\ user_page T l d /\ vm_inv k' root T l /\
    (forall va, leaf (ram k') T va = leaf (ram k) T va) /\
    forall x, off_page d x -> mget (ram k') x = mget (ram k) x).
Proof.
  intros [Hk Hp Hd].
  assert (Hok : page_ok d) by (pose proof (ki_pages _ _ _ Hk) as H; now inversion H).
  assert (Hnin : d ∉ l) by (pose proof (ki_nodup _ _ _ Hk) as H; now inversion H).
  assert (Hnt : forall b, T !! b <> Some d).
  { intros b Hb. apply (Hd _ _ Hb). apply list_elem_of_here. }
  eapply returns_mono; [apply (kalloc_ok kend Hend _ _ _ Hk)|].
  intros r k' (-> & Hk' & _ & Hout).
  destruct (pt_frame kend (ram k) (ram k') root T d Hp ltac:(apply Hok) Hnt Hout) as [Hi' Hl'].
  split_and!; auto; [split; auto|split; auto].
  intros a p Ha Hin. apply (Hd _ _ Ha). now right.
Qed.

(** A client's write inside its own page. *)
Lemma vm_set_page k root T l d m' : vm_inv k root T l -> user_page T l d ->
  (forall x, off_page d x -> mget m' x = mget (ram k) x) ->
  vm_inv (mk_kmem m' (freelist k)) root T l /\
  forall va, leaf m' T va = leaf (ram k) T va.
Proof.
  intros [Hk Hp Hd] (Hok & Hnin & Hnt) Hout.
  destruct (pt_frame kend (ram k) m' root T d Hp ltac:(apply Hok) Hnt Hout) as [Hi' Hl'].
  split; [|done]. split; simpl; auto.
  destruct Hk as [Hc Hn Hpg]. split; simpl; auto.
  apply (chain_frame kend (ram k) _ _ l d); auto. apply Hok.
Qed.

Lemma user_page_grow k T l k' T' l' d : vm_grow k T l k' T' l' -> user_page T l d ->
  user_page T' l' d.
Proof.
  intros [S F (u & -> & V & U)] (H1 & H2 & H3). split_and!; auto.
  - intros Hin. apply H2, elem_of_app; auto.
  - intros b Hb. apply U in Hb as [Hb|Hb]; [now apply (H3 b)|].
    apply H2, elem_of_app; auto.
Qed.

(** ** uvmunmap and uvmdealloc *)

Lemma uvmunmap_ok do_free n k root T l a :
  vm_inv k root T l -> a mod 4096 = 0 -> 0 <= a -> a + 4096 * Z.of_nat n <= MAXVA ->
  (forall va, a <= va < a + 4096 * Z.of_nat n -> is_leaf_pte (leaf (ram k) T va)) ->
  (do_free = true ->
     let D := phys_pages (leaf (ram k) T) a n in
     NoDup D /\ Forall (user_page T l) D) ->
  returns (uvmunmap kend root a (Z.of_nat n) do_free) k (fun _ k' =>
    let l' := if do_free then reverse (phys_pages (leaf (ram k) T) a n) ++ l else l in
    vm_inv k' root T l' /\
    (forall va, 0 <= va < MAXVA ->
       leaf (ram k') T va = unmapped (leaf (ram k) T) a (Z.of_nat n) va) /\
    forall x, (forall b p, T !! b = Some p -> off_page p x) ->
      (do_free = true -> Forall (fun d => off_page d x) (phys_pages (leaf (ram k) T) a n)) ->
      mget (ram k') x = mget (ram k) x).
Proof.
  intros. pose proof MAXVA_eq. unfold uvmunmap, PGSIZE.
  destruct (Z.eqb_spec (a mod 4096) 0); [|lia]. simpl.
  rewrite (Z.mul_comm (Z.of_nat n)), u64_small by lia.
  apply uvmunmap_loop_ok; auto. rewrite Nat2Z.id. lia.
Qed.

(** The leaf function with the consecutive pages from [a] mapped to [ds],
    the [i]-th one with permissions [perm i]. *)
Definition mapped_list (lf : Z -> Z) (a : Z) (ds : list Z) (perm : nat -> Z) (va : Z) : Z :=
  if decide (a <= va < a + 4096 * Z.of_nat (length ds))
  then let i := Z.to_nat ((va - a) / 4096) in map_entry (nth i ds 0) (perm i) else lf va.

Definition good_perm (perm : Z) : Prop := 0 <= perm < 1024 /\ Z.lor perm PTE_V <> PTE_V.

Lemma map_entry_leaf pa perm : good_perm perm -> 0 <= pa < 2 ^ 56 -> pa mod 4096 = 0 ->
  is_leaf_pte (map_entry pa perm) /\ PTE2PA (map_entry pa perm) = pa /\
  PTE_FLAGS (map_entry pa perm) = Z.lor perm PTE_V.
Proof.
  intros [Hr Hne] Hpa Hal. rewrite map_entry_pack.
  pose proof (lor_flags_range perm PTE_V Hr PTE_V_range).
  assert (HF : PTE_FLAGS (Z.lor (PA2PTE pa) (Z.lor perm PTE_V)) = Z.lor perm PTE_V)
    by (apply PTE_FLAGS_pack; lia).
  split_and!; [split|apply PTE2PA_pack; lia|done].
  - rewrite land_pack_low by (lia || apply PTE_V_range).
    rewrite Z.land_lor_distr_l, Z.land_diag. intros H0.
    apply (f_equal (fun z => Z.testbit z 0)) in H0.
    rewrite Z.lor_spec, Z.bits_0 in H0. change (Z.testbit PTE_V 0) with true in H0.
    rewrite orb_true_r in H0. discriminate.
  - rewrite HF. done.
Qed.

Lemma phys_pages_mapped_list lf a ds perm : (forall i, good_perm (perm i)) -> Forall page_ok ds ->
  phys_pages (mapped_list lf a ds perm) a (length ds) = ds.
Proof.
  intros Hp Hds. unfold phys_pages.
  apply list_eq. intros i. rewrite list_lookup_fmap.
  destruct (decide (i < length ds)%nat) as [Hi|Hi].
  - rewrite lookup_seq_lt by done. simpl. unfold mapped_list.
    rewrite decide_True by lia. cbv zeta.
    replace (a + 4096 * Z.of_nat i - a) with (Z.of_nat i * 4096) by lia.
    rewrite Z.div_mul, Nat2Z.id by lia.
    destruct (lookup_lt_is_Some_2 ds i Hi) as [d Hd]. rewrite Hd.
    rewrite (nth_lookup_Some _ _ 0 _ Hd).
    pose proof (Forall_lookup_1 _ _ _ _ Hds Hd) as Hok.
    pose proof (page_ok_pos kend Hend d Hok).
    destruct (map_entry_leaf d (perm i)) as (_ & -> & _); auto; [lia|apply Hok].
  - rewrite lookup_seq_ge by lia. simpl. symmetry. apply lookup_ge_None_2. lia.
Qed.

(** Unmapping and freeing such a run of pages. *)
Lemma unmap_list_ok k root T l lf a ds perm :
  vm_inv k root T l -> (forall i, good_perm (perm i)) -> a mod 4096 = 0 -> 0 <= a ->
  a + 4096 * Z.of_nat (length ds) <= MAXVA ->
  (forall va, 0 <= va < MAXVA -> leaf (ram k) T va = mapped_list lf a ds perm va) ->
  (forall va, a <= va < a + 4096 * Z.of_nat (length ds) -> lf va = 0) ->
  NoDup ds -> Forall (user_page T l) ds ->
  returns (uvmunmap kend root a (Z.of_nat (length ds)) true) k (fun _ k' =>
    vm_inv k' root T (reverse ds ++ l) /\
    (forall va, 0 <= va < MAXVA -> leaf (ram k') T va = lf va) /\
    forall x, (forall b p, T !! b = Some p -> off_page p x) ->
      Forall (fun d => off_page d x) ds -> mget (ram k') x = mget (ram k) x).
Proof.
  intros Hv Hp Ha Ha0 Hmax Hl Hz Hnd Hds. pose proof MAXVA_eq.
  assert (Hok : Forall page_ok ds) by (eapply Forall_impl; [exact Hds|]; intros ? [? _]; done).
  assert (HD : phys_pages (leaf (ram k) T) a (length ds) = ds).
  { rewrite <- (phys_pages_mapped_list lf a ds perm) at 2 by done.
    apply phys_pages_ext. intros. apply Hl. lia. }
  eapply returns_mono.
  { apply (uvmunmap_ok true (length ds) k root T l a); auto.
    - intros va Hva. rewrite Hl by lia. unfold mapped_list. rewrite decide_True by lia.
      assert (Hi : (Z.to_nat ((va - a) / 4096) < length ds)%nat)
        by (apply Nat2Z.inj_lt; rewrite Z2Nat.id; Z.div_mod_to_equations; lia).
      destruct (lookup_lt_is_Some_2 ds _ Hi) as [d Hd]. rewrite (nth_lookup_Some _ _ 0 _ Hd).
      pose proof (Forall_lookup_1 _ _ _ _ Hok Hd) as Hdok.
      pose proof (page_ok_pos kend Hend d Hdok).
      apply map_entry_leaf; [done|lia|apply Hdok].
    - intros _. rewrite HD. done. }
  intros ? k' (Hv' & Hl' & Hf'). rewrite HD in *. split_and!; auto.
  intros va Hva. rewrite Hl' by done. unfold unmapped.
  case_decide; [symmetry; auto|]. rewrite Hl by done. unfold mapped_list.
  now rewrite decide_False by lia.
Qed.

Lemma uvmdealloc_unmap k root a (n : nat) :
  a mod 4096 = 0 -> 0 <= a -> a + 4096 * Z.of_nat n <= MAXVA -> n <> 0%nat ->
  uvmdealloc kend root (a + 4096 * Z.of_nat n) a k =
    bindM (uvmunmap kend root a (Z.of_nat n) true) (fun _ => retM a) k.
Proof.
  intros Ha Ha0 Hmax Hn. pose proof MAXVA_eq.
  unfold uvmdealloc. destruct (Z.leb_spec (a + 4096 * Z.of_nat n) a); [lia|].
  rewrite !PGROUNDUP_aligned by (lia || (Z.div_mod_to_equations; lia)).
  destruct (Z.ltb_spec a (a + 4096 * Z.of_nat n)); [|lia].
  replace (s32 _) with (Z.of_nat n).
  2: { unfold PGSIZE.
       replace (a + 4096 * Z.of_nat n - a) with (Z.of_nat n * 4096) by lia.
       rewrite Z.div_mul by lia. symmetry. apply s32_small. lia. }
  rewrite u64_small by lia. done.
Qed.

(** ** uvmalloc *)

(** The pages [ds] hold the contents [cont]: [cont i off] is the byte at
    offset [off] of the [i]-th one. *)
Definition filled (m : mem) (cont : nat -> Z -> Z) (ds : list Z) : Prop :=
  forall i d off, ds !! i = Some d -> 0 <= off < 4096 -> mget m (d + off) = cont i off.

(** [k] is [k0] with the pages [ds], taken from the free list and filled with
    [cont], mapped at [a] on; every page is accounted for and the memory that
    was neither free nor part of the page table is kept. *)
Record grown (k0 : kmem) (T0 : gmap (list Z) Z) (l0 : list Z) (root : Z) (lf : Z -> Z)
    (perm : nat -> Z) (cont : nat -> Z -> Z) (a : Z)
    (ds : list Z) (k : kmem) (T : gmap (list Z) Z) (l : list Z) : Prop := {
  gr_inv : vm_inv k root T l;
  gr_leaf : forall va, 0 <= va < MAXVA -> leaf (ram k) T va = mapped_list lf a ds perm va;
  gr_nodup : NoDup ds;
  gr_user : Forall (user_page T l) ds;
  gr_cont : filled (ram k) cont ds;
  gr_pages : forall p, pages_of T l p \/ p ∈ ds <-> pages_of T0 l0 p;
  gr_frame : forall x, (forall p, pages_of T0 l0 p -> off_page p x) ->
    mget (ram k) x = mget (ram k0) x;
}.

Lemma mapped_list_nil lf a perm va : mapped_list lf a [] perm va = lf va.
Proof. unfold mapped_list. simpl. now rewrite decide_False by lia. Qed.

Lemma mapped_list_snoc lf a ds d perm va : a mod 4096 = 0 ->
  mapped_list lf a (ds ++ [d]) perm va =
  mapped (mapped_list lf a ds perm) (a + 4096 * Z.of_nat (length ds)) 1 d (perm (length ds)) va.
Proof.
  intros Ha. unfold mapped_list, mapped. rewrite length_app. simpl.
  repeat case_decide; try lia; try done.
  - replace (Z.to_nat ((va - a) / 4096)) with (length ds)
      by (Z.div_mod_to_equations; lia).
    rewrite app_nth2, Nat.sub_diag by lia. f_equal. simpl. Z.div_mod_to_equations; lia.
  - f_equal. apply app_nth1. Z.div_mod_to_equations; lia.
Qed.

Lemma grown_refl k root T l lf perm cont a : vm_inv k root T l ->
  (forall va, 0 <= va < MAXVA -> leaf (ram k) T va = lf va) ->
  grown k T l root lf perm cont a [] k T l.
Proof.
  intros Hv Hl. split; auto; try constructor.
  - intros va Hva. rewrite mapped_list_nil. auto.
  - intros i d off H. by rewrite lookup_nil in H.
  - intros [?|Hp]; [done|inversion Hp].
  - auto.
Qed.

Lemma page_off d d' x : page_ok d -> page_ok d' -> d <> d' -> d <= x < d + 4096 -> off_page d' x.
Proof. intros [H _] [H' _] Hne Hx. destruct (page_disjoint d d'); auto; unfold off_page; lia. Qed.

Section GrowLoop.
Context (k0 : kmem) (T0 : gmap (list Z) Z) (l0 : list Z) (root : Z) (lf : Z -> Z).
Context (perm : nat -> Z) (cont : nat -> Z -> Z) (a : Z).
Context (Hperm : forall i, good_perm (perm i)) (Ha : a mod 4096 = 0) (Ha0 : 0 <= a).

Local Abbreviation grown := (grown k0 T0 l0 root lf perm cont a).
Local Abbreviation top ds := (a + 4096 * Z.of_nat (length ds)).

(** Rolling back with [uvmunmap]. *)
Lemma grown_unmap k T l ds : grown ds k T l -> top ds <= MAXVA ->
  (forall va, a <= va < top ds -> lf va = 0) ->
  returns (uvmunmap kend root a (Z.of_nat (length ds)) true) k (fun _ k' =>
    exists T' l', grown [] k' T' l').
Proof.
  intros [Hv Hl Hnd Hu Hz Hpg Hfr] Hmax Hlf.
  eapply returns_mono; [eapply (unmap_list_ok k root T l lf a ds perm); eauto|].
  intros r k' (Hv' & Hl' & Hf'). exists T, (reverse ds ++ l). split; auto; try constructor.
  - intros va Hva. rewrite mapped_list_nil. auto.
  - intros i d off H. by rewrite lookup_nil in H.
  - intros [H|H]; [|inversion H]. apply Hpg.
    destruct H as [H|H]; [|left; right; done].
    apply elem_of_app in H as [H|H]; [right; now apply elem_of_reverse|left; now left].
  - intros H. left. apply Hpg in H as [[H|H]|H].
    + left. apply elem_of_app; auto.
    + now right.
    + left. apply elem_of_app. left. now apply elem_of_reverse.
  - intros x Hx. rewrite Hf'; [auto| |].
    + intros b p Hb. apply Hx, Hpg. left. right. eauto.
    + apply Forall_forall. intros d Hd. apply Hx, Hpg. auto.
Qed.

(** Rolling back with [uvmdealloc]. *)
Lemma grown_rollback k T l ds : grown ds k T l -> top ds <= MAXVA ->
  (forall va, a <= va < top ds -> lf va = 0) ->
  returns (uvmdealloc kend root (top ds) a) k (fun _ k' => exists T' l', grown [] k' T' l').
Proof.
  intros Hg Hmax Hlf. destruct (decide (length ds = 0%nat)) as [E|E].
  - apply nil_length_inv in E as ->. unfold uvmdealloc. simpl length.
    destruct (Z.leb_spec (a + 4096 * Z.of_nat 0) a); [|lia]. apply returns_ret. eauto.
  - unfold returns. rewrite uvmdealloc_unmap by done.
    eapply returns_seq; [now apply (grown_unmap k T l ds Hg)|]. intros ? k' H. now apply returns_ret.
Qed.

(** The state in the middle of an iteration: page [d] has been taken and
    filled but is not mapped yet. *)
Record taken (ds : list Z) (d : Z) (k : kmem) (T : gmap (list Z) Z) (l : list Z) : Prop := {
  tk_inv : vm_inv k root T l;
  tk_leaf : forall va, 0 <= va < MAXVA -> leaf (ram k) T va = mapped_list lf a ds perm va;
  tk_nodup : NoDup (ds ++ [d]);
  tk_user : Forall (user_page T l) (ds ++ [d]);
  tk_cont : filled (ram k) cont (ds ++ [d]);
  tk_pages : forall p, pages_of T l p \/ p ∈ ds ++ [d] <-> pages_of T0 l0 p;
  tk_frame : forall x, (forall p, pages_of T0 l0 p -> off_page p x) ->
    mget (ram k) x = mget (ram k0) x;
}.

Lemma grown_full k T ds : grown ds k T [] -> kalloc k = Ok 0 k.
Proof. intros [[Hk _ _] _ _ _ _ _ _]. eapply kalloc_none, Hk. Qed.

Lemma grown_take k T ds d l : grown ds k T (d :: l) ->
  exists k1, kalloc k = Ok d k1 /\ d <> 0 /\ d mod 4096 = 0 /\
    (forall x, off_page d x -> mget (ram k1) x = mget (ram k) x) /\
    forall m', (forall x, off_page d x -> mget m' x = mget (ram k1) x) ->
      (forall off, 0 <= off < 4096 -> mget m' (d + off) = cont (length ds) off) ->
      taken ds d (mk_kmem m' (freelist k1)) T l.
Proof.
  intros [Hv Hl Hnd Hu Hz Hpg Hfr].
  destruct (returns_inv _ _ _ (vm_kalloc k root T d l Hv))
    as (? & k1 & Hk & -> & Hd & Hv1 & Hl1 & Hf1).
  pose proof Hd as (Hdok & Hdl & HdT). pose proof (page_ok_pos kend Hend d Hdok).
  exists k1. split_and!; [done|lia|apply Hdok|done|]. intros m' Hm' Hc.
  destruct (vm_set_page k1 root T l d m' Hv1 Hd Hm') as [Hv2 Hl2].
  assert (Hin : d ∉ ds).
  { intros Hin. apply (proj1 (Forall_forall _ _) Hu) in Hin as (_ & Hin & _).
    apply Hin, list_elem_of_here. }
  split; cbn [ram freelist].
  - done.
  - intros va Hva. rewrite Hl2, Hl1. auto.
  - apply NoDup_app. split_and!; [done| |apply NoDup_singleton].
    intros y Hy ->%list_elem_of_singleton. done.
  - apply Forall_app. split; [|constructor; [done|constructor]].
    eapply Forall_impl; [exact Hu|]. intros e (He1 & He2 & He3). split_and!; auto.
    intros He. apply He2. now right.
  - intros i e off [Hi|[Hlen Hi]]%lookup_app_Some Ho.
    + pose proof (Forall_lookup_1 _ _ _ _ Hu Hi) as (He1 & _).
      assert (off_page d (e + off)).
      { apply (page_off e); auto; [|lia]. intros ->. apply Hin. eauto using list_elem_of_lookup_2. }
      rewrite Hm', Hf1 by done. eauto.
    + apply list_lookup_singleton_Some in Hi as [Hi <-].
      replace i with (length ds) by lia. auto.
  - intros p. rewrite <- Hpg. unfold pages_of. rewrite elem_of_app, list_elem_of_singleton, elem_of_cons.
    tauto.
  - intros x Hx. assert (off_page d x) by (apply Hx, Hpg; left; left; apply list_elem_of_here).
    rewrite Hm', Hf1 by done. auto.
Qed.

Lemma filled_grow k T l k' T' l' ds : vm_inv k' root T' l' -> vm_grow k T l k' T' l' ->
  Forall (user_page T l) ds -> filled (ram k) cont ds -> filled (ram k') cont ds.
Proof.
  intros Hv Hg Hu Hz i e off Hi Ho. rewrite <- (Hz i e off Hi Ho). apply (vg_frame _ _ _ _ _ _ Hg).
  intros b p Hb. pose proof (Forall_lookup_1 _ _ _ _ Hu Hi) as Hue.
  destruct (user_page_grow _ _ _ _ _ _ _ Hg Hue) as (He1 & _ & He3).
  assert (off_page p (e + off)).
  { apply (page_off e); auto; [eapply pt_page; [apply (vi_pt _ _ _ _ _ Hv)|eauto]| |lia].
    intros ->. now apply (He3 b). }
  unfold off_page in *. lia.
Qed.

(** [taken] is kept while the page table grows without changing leaves. *)
Lemma taken_grow ds d k T l k' T' l' : taken ds d k T l ->
  vm_inv k' root T' l' -> vm_grow k T l k' T' l' ->
  Forall (user_page T' l') (ds ++ [d]) /\ filled (ram k') cont (ds ++ [d]) /\
  (forall p, pages_of T' l' p \/ p ∈ ds ++ [d] <-> pages_of T0 l0 p) /\
  (forall x, (forall p, pages_of T0 l0 p -> off_page p x) -> mget (ram k') x = mget (ram k0) x).
Proof.
  intros [Hv Hl Hnd Hu Hz Hpg Hfr] Hv' Hg. split_and!.
  - eapply Forall_impl; [exact Hu|]. intros e. apply (user_page_grow _ _ _ _ _ _ _ Hg).
  - eapply filled_grow; eauto.
  - intros p. rewrite (vm_grow_pages _ _ _ _ _ _ Hg). apply Hpg.
  - intros x Hx. rewrite (vg_frame _ _ _ _ _ _ Hg); [auto|].
    intros b p Hb. assert (Hp : pages_of T l p) by (apply (vm_grow_pages _ _ _ _ _ _ Hg); right; eauto).
    pose proof (Hx p ltac:(apply Hpg; auto)). unfold off_page in *. lia.
Qed.
(** Mapping the taken page at the top of the grown region. *)
Lemma taken_map ds d k T l : taken ds d k T l -> top ds + 4096 <= MAXVA ->
  (forall va, top ds <= va < top ds + 4096 -> lf va = 0) ->
  returns (mappages root (top ds) PGSIZE d (perm (length ds))) k (fun r k' =>
    exists T' l', (r = 0 /\ grown (ds ++ [d]) k' T' l') \/ (r = -1 /\ taken ds d k' T' l')).
Proof.
  intros Ht Hmax Hlf. pose proof Ht as [Hv Hl Hnd Hu Hz Hpg Hfr]. pose proof MAXVA_eq.
  assert (Hd : user_page T l d) by (apply Forall_app in Hu as [_ Hu]; now inversion Hu).
  pose proof (page_ok_pos kend Hend d (proj1 Hd)) as Hdp.
  destruct Hd as ((Hdm & Hdr) & _). unfold PHYSTOP, KERNBASE in Hdr.
  eapply returns_mono.
  - apply (mappages_ok kend Hend k root T l (top ds) PGSIZE d (perm (length ds)) 0); auto; unfold PGSIZE in *; try lia.
    + apply Hperm.
    + Z.div_mod_to_equations; lia.
    + intros v Hv'. rewrite Hl by (Z.div_mod_to_equations; lia).
      unfold mapped_list. rewrite decide_False, Hlf by (Z.div_mod_to_equations; lia). done.
  - intros r k' (T' & l' & j & Hv' & Hg & Hl' & _ & Hr). exists T', l'.
    destruct (taken_grow _ _ _ _ _ _ _ _ Ht Hv' Hg) as (Hu' & Hz' & Hp' & Hf').
    assert (Htop : top ds - top ds mod 4096 = top ds) by (Z.div_mod_to_equations; lia).
    rewrite Htop in Hl'. destruct Hr as [[-> Hj]|(-> & Hj & _)]; [left|right]; (split; [done|]).
    + split; auto. intros va Hva. rewrite Hl', mapped_list_snoc, Hj by auto.
      change (Z.of_nat 0 + 1) with 1. unfold mapped. case_decide; [done|]. auto.
    + split; auto. intros va Hva. rewrite Hl' by auto. unfold mapped.
      rewrite decide_False by lia. auto.
Qed.

(** Giving the taken page back. *)
Lemma taken_free ds d k T l : taken ds d k T l ->
  returns (kfree kend d) k (fun _ k' => grown ds k' T (d :: l)).
Proof.
  intros [Hv Hl Hnd Hu Hz Hpg Hfr].
  apply Forall_app in Hu as [Hu Hd]. inversion Hd as [|? ? (Hd1 & Hd2 & Hd3) _]; subst.
  eapply returns_mono; [apply (vm_kfree kend Hend k root T l d); auto|].
  intros _ k' (Hv' & Hl' & Hf').
  assert (Hnin : forall e, e ∈ ds -> e <> d).
  { intros e He ->. apply NoDup_app in Hnd as (_ & Hnd & _). apply (Hnd d He), list_elem_of_here. }
  split; auto.
  - intros va Hva. rewrite Hl'. auto.
  - now apply NoDup_app in Hnd as [Hnd _].
  - apply Forall_forall. intros e He. pose proof (proj1 (Forall_forall _ _) Hu e He) as (?&?&?).
    split_and!; auto. apply not_elem_of_cons. auto.
  - intros i e off Hi Ho. pose proof (Forall_lookup_1 _ _ _ _ Hu Hi) as (?&?&?).
    rewrite Hf'; [apply (Hz i e off); [now apply lookup_app_l_Some|done]|].
    apply (page_off e); auto; [|lia]. apply Hnin. eauto using list_elem_of_lookup_2.
  - intros p. rewrite <- Hpg. unfold pages_of.
    rewrite elem_of_app, list_elem_of_singleton, elem_of_cons. tauto.
  - intros x Hx. rewrite Hf'; [auto|]. apply Hx, Hpg. right. apply elem_of_app. right.
    apply list_elem_of_here.
Qed.

End GrowLoop.

Local Abbreviation uvm_perm := (Z.lor (Z.lor (Z.lor PTE_W PTE_X) PTE_R) PTE_U).

Lemma uvm_perm_good : good_perm uvm_perm.
Proof. unfold good_perm. vm_compute. split; [split; discriminate || reflexivity|discriminate]. Qed.

(** The allocation loop, from any page on: either every remaining page is
    mapped, or everything grown so far is rolled back. *)
Lemma uvmalloc_loop_ok k0 T0 l0 root lf a newsz (n : nat) : a mod 4096 = 0 -> 0 <= a ->
  forall k T l ds fuel, grown k0 T0 l0 root lf (fun _ => uvm_perm) (fun _ _ => 0) a ds k T l ->
  a + 4096 * Z.of_nat (length ds + n) <= MAXVA ->
  newsz <= a + 4096 * Z.of_nat (length ds + n) ->
  (n <> 0%nat -> a + 4096 * Z.of_nat (length ds + n - 1) < newsz) ->
  (forall va, a <= va < a + 4096 * Z.of_nat (length ds + n) -> lf va = 0) -> (n < fuel)%nat ->
  returns (uvmalloc_loop kend root a (a + 4096 * Z.of_nat (length ds)) newsz fuel) k (fun r k' =>
    exists T' l' ds', grown k0 T0 l0 root lf (fun _ => uvm_perm) (fun _ _ => 0) a ds' k' T' l' /\
      ((r = newsz /\ length ds' = (length ds + n)%nat) \/ (r = 0 /\ ds' = []))).
Proof.
  intros Ha Ha0. pose proof MAXVA_eq. induction n as [|n IH];
    intros k T l ds [|fuel] Hg Hmax Hle Hlt Hlf Hfuel; try lia; cbn [uvmalloc_loop].
  - destruct (Z.ltb_spec (a + 4096 * Z.of_nat (length ds)) newsz); [lia|].
    apply returns_ret. exists T, l, ds. split; [done|]. left. split; [done|lia].
  - assert (Hback : forall k T l, grown k0 T0 l0 root lf (fun _ => uvm_perm) (fun _ _ => 0) a ds k T l ->
      returns (do! uvmdealloc kend root (a + 4096 * Z.of_nat (length ds)) a in retM 0) k (fun r k' =>
        exists T' l' ds', grown k0 T0 l0 root lf (fun _ => uvm_perm) (fun _ _ => 0) a ds' k' T' l' /\
          ((r = newsz /\ length ds' = (length ds + S n)%nat) \/ (r = 0 /\ ds' = [])))).
    { intros k2 T2 l2 Hg2. eapply returns_seq.
      - apply (grown_rollback k0 T0 l0 root lf (fun _ => uvm_perm) (fun _ _ => 0) a (fun _ => uvm_perm_good) Ha Ha0 k2 T2 l2 ds Hg2);
          [lia|]. intros va Hva. apply Hlf. lia.
      - intros ? k3 (T3 & l3 & Hg3). apply returns_ret. exists T3, l3, []. auto. }
    destruct (Z.ltb_spec (a + 4096 * Z.of_nat (length ds)) newsz); [|lia].
    destruct l as [|d l].
    + unfold returns. rewrite (bindM_ok _ _ _ 0 k).
      2: { eapply grown_full, Hg. }
      cbn. now apply (Hback k T []).
    + destruct (grown_take k0 T0 l0 root lf (fun _ => uvm_perm) (fun _ _ => 0) a k T ds d l Hg) as (k1 & Hk & Hd & Hal & _ & Ht).
      unfold returns; rewrite (bindM_ok _ _ _ _ _ Hk). destruct (Z.eqb_spec d 0); [done|].
      unfold set_ram at 1. cbn [bindM modifyM].
      specialize (Ht (memset (ram k1) d 0 PGSIZE)
        ltac:(intros x Hx; apply mget_memset_out; unfold off_page, PGSIZE in *; lia)
        ltac:(intros off Ho; apply mget_memset_in; unfold PGSIZE; lia)).
      eapply returns_seq.
      { apply (taken_map k0 T0 l0 root lf (fun _ => uvm_perm) (fun _ _ => 0) a (fun _ => uvm_perm_good) Ha Ha0 ds d _ _ _ Ht); [lia|].
        intros va Hva. apply Hlf. lia. }
      intros r k2 (T2 & l2 & [[-> Hg2]|[-> Ht2]]); cbn [Z.eqb negb].
      * rewrite u64_small by (unfold PGSIZE; lia).
        assert (Hlen : length (ds ++ [d]) = S (length ds)) by (rewrite length_app; simpl; lia).
        replace (a + 4096 * Z.of_nat (length ds) + PGSIZE)
          with (a + 4096 * Z.of_nat (length (ds ++ [d]))) by (rewrite Hlen; unfold PGSIZE; lia).
        eapply returns_mono; [eapply (IH k2 T2 l2 (ds ++ [d]) fuel Hg2)|];
          rewrite ?Hlen; replace (S (length ds) + n)%nat with (length ds + S n)%nat by lia;
          auto; try lia.
      * eapply returns_seq; [apply (taken_free k0 T0 l0 root lf (fun _ => uvm_perm) (fun _ _ => 0) a ds d _ _ _ Ht2)|].
        intros ? k3 Hg3. now apply (Hback k3 T2 (d :: l2)).
Qed.

(** [uvmalloc] from [oldsz] to [newsz] with the region above [oldsz]
    unmapped. *)
Lemma uvmalloc_ok k root T l oldsz newsz (n : nat) :
  vm_inv k root T l -> 0 <= oldsz <= newsz -> newsz <= MAXVA ->
  PGROUNDUP newsz - PGROUNDUP oldsz = 4096 * Z.of_nat n ->
  (forall va, PGROUNDUP oldsz <= va < PGROUNDUP newsz -> leaf (ram k) T va = 0) ->
  returns (uvmalloc kend root oldsz newsz) k (fun r k' => exists T' l' ds,
    grown k T l root (leaf (ram k) T) (fun _ => uvm_perm) (fun _ _ => 0) (PGROUNDUP oldsz) ds k' T' l' /\
    ((r = newsz /\ length ds = n) \/ (r = 0 /\ ds = []))).
Proof.
  intros Hv Hsz Hmax Hn Hlf. pose proof MAXVA_eq.
  assert (Hr : PGROUNDUP newsz <= MAXVA).
  { rewrite PGROUNDUP_eq by lia. Z.div_mod_to_equations; lia. }
  unfold uvmalloc. destruct (Z.ltb_spec newsz oldsz); [lia|].
  pose proof (PGROUNDUP_bounds oldsz ltac:(lia)). pose proof (PGROUNDUP_bounds newsz ltac:(lia)).
  pose proof (uvmalloc_loop_ok k T l root (leaf (ram k) T) (PGROUNDUP oldsz) newsz n
    ltac:(lia) ltac:(lia) k T l [] (Z.to_nat ((newsz - PGROUNDUP oldsz) / PGSIZE) + 2)) as HL.
  simpl length in HL. rewrite Z.mul_0_r, Z.add_0_r in HL.
  apply HL; try lia.
  - now apply grown_refl.
  - intros va Hva. apply Hlf. lia.
  - unfold PGSIZE. Z.div_mod_to_equations; lia.
Qed.
(** ** uvmcopy *)

(** What [uvmcopy] is given: the old page table [To] maps [n] pages to memory
    that is neither free nor part of the new page table, nor is [To]
    itself. *)
Record copy_source (k : kmem) (old : Z) (To : gmap (list Z) Z) (n : nat)
    (avail : Z -> Prop) : Prop := {
  cs_pt : pt_inv kend (ram k) old To;
  cs_apart : forall b p, To !! b = Some p -> ~ avail p;
  cs_leaf : forall va, 0 <= va < 4096 * Z.of_nat n -> is_leaf_pte (leaf (ram k) To va);
  cs_page : forall va, 0 <= va < 4096 * Z.of_nat n ->
    page_ok (PTE2PA (leaf (ram k) To va)) /\ ~ avail (PTE2PA (leaf (ram k) To va));
}.

Definition src_perm (k : kmem) (To : gmap (list Z) Z) (n i : nat) : Z :=
  if decide (i < n)%nat then PTE_FLAGS (leaf (ram k) To (4096 * Z.of_nat i)) else PTE_R.
Definition src_byte (k : kmem) (To : gmap (list Z) Z) (i : nat) (off : Z) : Z :=
  mget (ram k) (PTE2PA (leaf (ram k) To (4096 * Z.of_nat i)) + off).

Lemma src_perm_good k old To n avail : copy_source k old To n avail ->
  forall i, good_perm (src_perm k To n i).
Proof.
  intros [_ _ Hl _] i. unfold src_perm. case_decide as Hi; [|by vm_compute; intuition].
  destruct (Hl (4096 * Z.of_nat i) ltac:(lia)) as [HV Hne]. set (v := leaf _ _ _) in *.
  assert (HF : PTE_FLAGS v = v mod 2 ^ 10) by (unfold PTE_FLAGS; apply (Z.land_ones v 10); lia).
  split; [rewrite HF; apply Z.mod_pos_bound; lia|].
  intros E. apply Hne. rewrite <- E. symmetry.
  apply Z.bits_inj'. intros j Hj. rewrite Z.lor_spec.
  destruct (decide (j = 0)) as [->|Hj0].
  - change (Z.testbit PTE_V 0) with true. rewrite orb_true_r.
    unfold PTE_FLAGS. rewrite Z.land_spec. change (Z.testbit 1023 0) with true.
    rewrite andb_true_r. destruct (Z.testbit v 0) eqn:Ev; [done|].
    exfalso. apply HV. apply Z.bits_inj'. intros q Hq. rewrite Z.land_spec, Z.bits_0.
    destruct (decide (q = 0)) as [->|]; [by rewrite Ev|].
    replace (Z.testbit PTE_V q) with false; [apply andb_false_r|].
    symmetry. apply (Z.pow2_bits_false 0). lia.
  - replace (Z.testbit PTE_V j) with false; [by rewrite orb_false_r|].
    symmetry. apply (Z.pow2_bits_false 0). lia.
Qed.

Lemma pages_of_ok k root T l p : vm_inv k root T l -> pages_of T l p -> page_ok p.
Proof.
  intros [[_ _ Hf] Hp _] [H|[b H]]; [|eapply pt_page; eauto].
  now apply (proj1 (Forall_forall _ _) Hf).
Qed.

Section CopyLoop.
Context (k0 : kmem) (T0 : gmap (list Z) Z) (l0 : list Z) (new old : Z).
Context (To : gmap (list Z) Z) (n : nat).
Context (Hv0 : vm_inv k0 new T0 l0) (Hsrc : copy_source k0 old To n (pages_of T0 l0)).
Context (Hmax : 4096 * Z.of_nat n <= MAXVA).
Context (Hempty : forall va, 0 <= va < 4096 * Z.of_nat n -> leaf (ram k0) T0 va = 0).

Local Abbreviation grown :=
  (grown k0 T0 l0 new (leaf (ram k0) T0) (src_perm k0 To n) (src_byte k0 To) 0).

(** The source is untouched while the copy grows. *)
Lemma source_kept ds k T l : grown ds k T l ->
  pt_inv kend (ram k) old To /\ (forall va, leaf (ram k) To va = leaf (ram k0) To va) /\
  forall va off, 0 <= va < 4096 * Z.of_nat n -> 0 <= off < 4096 ->
    mget (ram k) (PTE2PA (leaf (ram k0) To va) + off) =
    mget (ram k0) (PTE2PA (leaf (ram k0) To va) + off).
Proof.
  intros Hg. destruct Hsrc as [Hpt Hap Hl Hpg].
  assert (Hkeep : forall p x, page_ok p -> ~ pages_of T0 l0 p -> p <= x < p + 4096 ->
            mget (ram k) x = mget (ram k0) x).
  { intros p x Hok Hn Hx. apply (gr_frame _ _ _ _ _ _ _ _ _ _ _ _ Hg). intros q Hq.
    apply (page_off p); auto; [eapply pages_of_ok; eauto|]. intros ->. done. }
  destruct (pt_agree kend (ram k0) (ram k) old To Hpt) as [H1 H2].
  { intros b p x Hb. apply Hkeep; [eapply pt_page; eauto|eauto]. }
  split_and!; [done|done|]. intros va off Hva Ho.
  destruct (Hpg va Hva) as [Hok Hna]. apply (Hkeep _ _ Hok Hna). lia.
Qed.

(** Reading the source entry of one page. *)
Lemma source_walk ds k T l i : grown ds k T l -> (i < n)%nat ->
  exists p, p <> 0 /\ walk old (4096 * Z.of_nat i) false k = Ok p k /\
    load_pte p k = Ok (leaf (ram k0) To (4096 * Z.of_nat i)) k.
Proof.
  intros Hg Hi. destruct (source_kept _ _ _ _ Hg) as (Hpt & Hl & _). pose proof MAXVA_eq.
  pose proof (cs_leaf _ _ _ _ _ Hsrc (4096 * Z.of_nat i) ltac:(lia)) as [HV _].
  rewrite <- Hl in HV |- *. unfold leaf in *.
  rewrite (walk_read kend Hend k old To) by (done || lia).
  destruct (To !! _) as [p|] eqn:Hp; [|by rewrite Z.land_0_l in HV].
  pose proof (page_ok_pos kend Hend p (pt_page _ _ _ _ Hpt _ _ Hp)).
  pose proof (PX_range 0 (4096 * Z.of_nat i)).
  exists (p + 8 * PX 0 (4096 * Z.of_nat i)). split_and!; [lia|done|done].
Qed.

Lemma copy_fail ds k T l : grown ds k T l -> (length ds <= n)%nat ->
  returns (do! uvmunmap kend new 0 (4096 * Z.of_nat (length ds) / PGSIZE) true in retM (-1)) k
    (fun r k' => r = -1 /\ exists T' l', grown [] k' T' l').
Proof.
  intros Hg Hn. unfold PGSIZE. rewrite Z.mul_comm, Z.div_mul by lia.
  eapply returns_seq.
  - eapply (grown_unmap _ _ _ _ _ _ _ 0); eauto using src_perm_good; try done; [lia|].
    intros va Hva. apply Hempty. lia.
  - intros ? k' H. apply returns_ret. auto.
Qed.

Lemma uvmcopy_loop_ok sz : sz <= 4096 * Z.of_nat n ->
  (n <> 0%nat -> 4096 * Z.of_nat (n - 1) < sz) ->
  forall fuel ds k T l, grown ds k T l -> (length ds <= n)%nat -> (n - length ds < fuel)%nat ->
  returns (uvmcopy_loop kend old new (4096 * Z.of_nat (length ds)) sz fuel) k (fun r k' =>
    exists T' l' ds', grown ds' k' T' l' /\
      ((r = 0 /\ length ds' = n) \/ (r = -1 /\ ds' = []))).
Proof.
  intros Hle Hlt. pose proof MAXVA_eq. induction fuel as [|fuel IH]; [lia|].
  intros ds k T l Hg Hlen Hfuel. cbn [uvmcopy_loop].
  destruct (Z.ltb_spec (4096 * Z.of_nat (length ds)) sz).
  2: { apply returns_ret. exists T, l, ds. split; [done|]. left. split; [done|]. lia. }
  assert (Hfail : forall k T l, grown ds k T l -> returns
    (do! uvmunmap kend new 0 (4096 * Z.of_nat (length ds) / PGSIZE) true in retM (-1)) k
    (fun r k' => exists T' l' ds', grown ds' k' T' l' /\
      ((r = 0 /\ length ds' = n) \/ (r = -1 /\ ds' = [])))).
  { intros k1 T1 l1 Hg1. eapply returns_mono; [apply (copy_fail ds k1 T1 l1); done|].
    intros r k' (-> & T' & l' & Hg'). exists T', l', []. auto. }
  destruct (source_walk ds k T l (length ds) Hg ltac:(lia)) as (p & Hp & Hw & Hld).
  set (v := leaf (ram k0) To (4096 * Z.of_nat (length ds))) in *.
  destruct (cs_leaf _ _ _ _ _ Hsrc (4096 * Z.of_nat (length ds)) ltac:(lia)) as [HV _].
  fold v in HV. unfold returns. rewrite (bindM_ok _ _ _ _ _ Hw).
  rewrite (proj2 (Z.eqb_neq p 0) Hp), (bindM_ok _ _ _ _ _ Hld), (proj2 (Z.eqb_neq _ 0) HV).
  cbv zeta. destruct l as [|d l].
  { rewrite (bindM_ok _ _ _ 0 k) by eapply grown_full, Hg. cbn [Z.eqb]. now apply (Hfail k T []). }
  destruct (grown_take _ _ _ _ _ _ _ _ k T ds d l Hg) as (k1 & Hk & Hd & Hal & Hf1 & Ht).
  rewrite (bindM_ok _ _ _ _ _ Hk), (proj2 (Z.eqb_neq d 0) Hd).
  unfold set_ram at 1. cbn [bindM modifyM].
  assert (Htk : taken k0 T0 l0 new (leaf (ram k0) T0) (src_perm k0 To n) (src_byte k0 To) 0 ds d
    (mk_kmem (memmove (ram k1) d (PTE2PA v) PGSIZE) (freelist k1)) T l).
  { apply Ht.
    - intros x Hx. apply mget_memmove_out; unfold off_page, PGSIZE in *; lia.
    - intros off Ho. rewrite mget_memmove_in by (unfold PGSIZE; lia).
      replace (PTE2PA v + (d + off - d)) with (PTE2PA v + off) by lia.
      destruct (source_kept _ _ _ _ Hg) as (_ & _ & Hkeep).
      destruct (cs_page _ _ _ _ _ Hsrc (4096 * Z.of_nat (length ds)) ltac:(lia)) as [Hok Hna].
      fold v in Hok, Hna. rewrite Hf1; [apply Hkeep; lia|].
      assert (Hpd : pages_of T0 l0 d)
        by (apply (gr_pages _ _ _ _ _ _ _ _ _ _ _ _ Hg); left; left; apply list_elem_of_here).
      apply (page_off (PTE2PA v)); auto; [eapply pages_of_ok; eauto| |lia]. intros E. congruence. }
  assert (Hfl : PTE_FLAGS v = src_perm k0 To n (length ds)).
  { unfold src_perm. now rewrite decide_True by lia. }
  rewrite Hfl. eapply returns_seq.
  { eapply (taken_map _ _ _ _ _ _ _ 0); eauto using src_perm_good; try done; [lia|].
    intros va Hva. apply Hempty. lia. }
  intros r k2 (T2 & l2 & [[-> Hg2]|[-> Ht2]]); cbn [Z.eqb negb].
  - assert (Hln : length (ds ++ [d]) = S (length ds)) by (rewrite length_app; simpl; lia).
    rewrite u64_small by (unfold PGSIZE; lia).
    replace (4096 * Z.of_nat (length ds) + PGSIZE) with (4096 * Z.of_nat (length (ds ++ [d])))
      by (rewrite Hln; unfold PGSIZE; lia).
    apply (IH (ds ++ [d]) k2 T2 l2 Hg2); lia.
  - eapply returns_seq; [eapply (taken_free _ _ _ _ _ _ _ 0); eauto|].
    intros ? k3 Hg3. now apply (Hfail k3 T2 (d :: l2)).
Qed.
End CopyLoop.

(** The whole of [uvmcopy]. *)
Lemma uvmcopy_ok k old new To T l sz (n : nat) :
  vm_inv k new T l -> copy_source k old To n (pages_of T l) ->
  0 <= sz <= MAXVA -> PGROUNDUP sz = 4096 * Z.of_nat n ->
  (forall va, 0 <= va < PGROUNDUP sz -> leaf (ram k) T va = 0) ->
  returns (uvmcopy kend old new sz) k (fun r k' => exists T' l' ds,
    grown k T l new (leaf (ram k) T) (src_perm k To n) (src_byte k To) 0 ds k' T' l' /\
    pt_inv kend (ram k') old To /\ (forall va, leaf (ram k') To va = leaf (ram k) To va) /\
    ((r = 0 /\ length ds = n) \/ (r = -1 /\ ds = []))).
Proof.
  intros Hv Hs Hsz Hn Hl. pose proof MAXVA_eq. pose proof (PGROUNDUP_bounds sz ltac:(lia)).
  assert (4096 * Z.of_nat n <= MAXVA) by (Z.div_mod_to_equations; lia).
  rewrite Hn in Hl. unfold uvmcopy.
  pose proof (uvmcopy_loop_ok k T l new old To n Hv Hs ltac:(lia) Hl sz ltac:(lia)
    ltac:(lia) (Z.to_nat (sz / PGSIZE) + 2) [] k T l) as HL.
  eapply returns_mono.
  - apply HL; [by apply grown_refl|simpl; lia|].
    simpl length. unfold PGSIZE. Z.div_mod_to_equations; lia.
  - intros r k' (T' & l' & ds & Hg & Hr). exists T', l', ds.
    destruct (source_kept k T l new old To n Hv Hs ds k' T' l' Hg) as (Hpt & Hlf & _). auto.
Qed.

End VmUser.
