(* ===== verification/VmCopy.v ===== *)
(** * Copying between the kernel and user memory

    [walkaddr], [copyout], [copyin] and [copyinstr] of kernel/vm.c, against a
    view of the user's memory: [uaddr] is the translation the page table
    gives to a user address and [umem] the byte a user program reads there.
    The copy routines are shown to read and to write exactly that view, up to
    the first address that has no translation. *)

From stdpp Require Import base list gmap strings.
From Stdlib Require Import ZArith Lia.
From S2P Require Import Prelude Mem Layout Kalloc Vm VmSpec VmUser.
Open Scope Z_scope.

(** The physical address of user address [va]: a valid leaf with the user
    bit, pointing to a page other than page 0 (which [walkaddr] cannot tell
    from a failure). *)
Definition uaddr (m : mem) (T : gmap (list Z) Z) (va : Z) : option Z :=
  let v := leaf m T va in
  if (MAXVA <=? va) || (Z.land v PTE_V =? 0) || (Z.land v PTE_U =? 0) || (PTE2PA v =? 0)
  then None else Some (PTE2PA v + va mod 4096).

(** The byte a user program sees at [va]. *)
Definition umem (m : mem) (T : gmap (list Z) Z) (va : Z) : option Z :=
  mget m <$> uaddr m T va.

Lemma leaf_vpn m T va vb : vpn va = vpn vb -> leaf m T va = leaf m T vb.
Proof. unfold vpn, leaf. intros [= -> -> ->]. done. Qed.

Lemma uaddr_page m T va vb pa : 0 <= va -> 0 <= vb -> va / 4096 = vb / 4096 ->
  uaddr m T va = Some pa -> uaddr m T vb = Some (pa + (vb - va)).
Proof.
  intros Ha Hb Hp. unfold uaddr. pose proof MAXVA_eq.
  assert (HM : MAXVA mod 4096 = 0) by reflexivity.
  destruct (Z.leb_spec MAXVA va); [done|].
  destruct (Z.leb_spec MAXVA vb); [Z.div_mod_to_equations; lia|].
  rewrite (leaf_vpn m T vb va) by (apply vpn_page; lia).
  destruct (_ || _); intros; simplify_eq. f_equal. Z.div_mod_to_equations; lia.
Qed.

Lemma uaddr_page_none m T va vb : 0 <= va -> 0 <= vb -> va / 4096 = vb / 4096 ->
  uaddr m T va = None -> uaddr m T vb = None.
Proof.
  intros Ha Hb Hp Hn. destruct (uaddr m T vb) as [p|] eqn:E; [|done].
  erewrite (uaddr_page m T vb va) in Hn by eauto. done.
Qed.

Lemma uaddr_range m T va pa : 0 <= va -> uaddr m T va = Some pa -> va < MAXVA /\ pa <> 0.
Proof.
  unfold uaddr. intros Hva H. destruct (Z.leb_spec MAXVA va); [done|].
  destruct (Z.eqb_spec (PTE2PA (leaf m T va)) 0) as [|Hne]; [now rewrite orb_true_r in H|].
  split; [done|]. destruct (_ || _); simplify_eq.
  pose proof (u64_range (Z.shiftl (Z.shiftr (leaf m T va) 10) 12)). unfold PTE2PA in *.
  pose proof (Z.mod_pos_bound va 4096). lia.
Qed.

Lemma uaddr_offset m T va pa : uaddr m T va = Some pa -> pa mod 4096 = va mod 4096.
Proof.
  unfold uaddr. destruct (_ || _); intros; simplify_eq.
  pose proof (PTE2PA_aligned (leaf m T va)). Z.div_mod_to_equations; lia.
Qed.

Section VmCopy.
Context (kend : Z) (Hend : 0 < kend).

(** A user address space: each translated address is in a page that is
    neither free nor part of the page table, and no two user addresses share
    memory. *)
Record uspace (k : kmem) (root : Z) (T : gmap (list Z) Z) (l : list Z) : Prop := {
  us_vm : vm_inv kend k root T l;
  us_user : forall va pa, 0 <= va -> uaddr (ram k) T va = Some pa ->
    user_page kend T l (pa - va mod 4096);
  us_inj : forall va vb pa, 0 <= va -> 0 <= vb -> uaddr (ram k) T va = Some pa ->
    uaddr (ram k) T vb = Some pa -> va = vb;
}.

Lemma walkaddr_ok k root T l va : vm_inv kend k root T l -> 0 <= va ->
  walkaddr root va k =
    Ok (match uaddr (ram k) T va with Some pa => pa - va mod 4096 | None => 0 end) k.
Proof.
  intros [_ Hpt _] Hva. unfold walkaddr, uaddr.
  destruct (Z.leb_spec MAXVA va); [done|]. cbn [orb].
  rewrite (bindM_ok _ _ _ _ _ (walk_read kend Hend _ _ _ _ Hpt H)). unfold leaf.
  destruct (T !! [PX 2 va; PX 1 va]) as [p|] eqn:Hp; [|done].
  pose proof (page_ok_pos kend Hend p (pt_page _ _ _ _ Hpt _ _ Hp)).
  pose proof (PX_range 0 va).
  destruct (Z.eqb_spec (p + 8 * PX 0 va) 0); [lia|].
  unfold load_pte, getM. cbn [bindM].
  destruct (Z.land _ PTE_V =? 0); [done|]. destruct (Z.land _ PTE_U =? 0); [done|].
  cbn [orb]. destruct (Z.eqb_spec (PTE2PA (load64 (ram k) (p + 8 * PX 0 va))) 0) as [->|]; [done|].
  unfold retM. f_equal. lia.
Qed.

Lemma uaddr_leaf m m' T : (forall va, leaf m' T va = leaf m T va) ->
  forall va, uaddr m' T va = uaddr m T va.
Proof. intros H va. unfold uaddr. now rewrite H. Qed.

(** Writing the bytes [bs] at [va]: what a user sees afterwards. *)
Definition uwrite (f : Z -> option Z) (va : Z) (bs : list Z) (vb : Z) : option Z :=
  if decide (va <= vb < va + Z.of_nat (length bs))
  then Some (nth (Z.to_nat (vb - va)) bs 0) else f vb.

(** [k'] differs from [k] only in the bytes [bs] the user sees at [va]. *)
Record wrote (k k' : kmem) (T : gmap (list Z) Z) (va : Z) (bs : list Z) : Prop := {
  wr_leaf : forall vb, leaf (ram k') T vb = leaf (ram k) T vb;
  wr_umem : forall vb, 0 <= vb -> umem (ram k') T vb = uwrite (umem (ram k) T) va bs vb;
  wr_frame : forall x, (forall vb, 0 <= vb -> uaddr (ram k) T vb <> Some x) ->
    mget (ram k') x = mget (ram k) x;
  wr_free : freelist k' = freelist k;
}.

Lemma wrote_nil k T va : wrote k k T va [].
Proof. split; auto. intros vb _. unfold uwrite. simpl. now rewrite decide_False by lia. Qed.

Lemma wrote_app k k1 k2 T va bs cs : wrote k k1 T va bs ->
  wrote k1 k2 T (va + Z.of_nat (length bs)) cs -> wrote k k2 T va (bs ++ cs).
Proof.
  intros [L1 U1 F1 E1] [L2 U2 F2 E2]. split.
  - intros vb. now rewrite L2.
  - intros vb Hvb. rewrite U2 by done. unfold uwrite. rewrite length_app, U1 by done. unfold uwrite.
    repeat case_decide; try lia; auto.
    + rewrite app_nth2 by lia. f_equal. f_equal. lia.
    + rewrite app_nth1 by lia. done.
  - intros x Hx. rewrite F2, F1; auto. intros vb Hvb. rewrite (uaddr_leaf _ _ _ L1). auto.
  - congruence.
Qed.

Lemma uspace_wrote k root T l va pa bs : uspace k root T l -> 0 <= va ->
  uaddr (ram k) T va = Some pa -> va mod 4096 + Z.of_nat (length bs) <= 4096 ->
  let k' := mk_kmem (mwrite (ram k) pa bs) (freelist k) in
  uspace k' root T l /\ wrote k k' T va bs.
Proof.
  intros [Hv Hu Hi] Hva Hpa Hlen k'. pose proof (Z.mod_pos_bound va 4096 ltac:(lia)) as Hm.
  destruct (vm_set_page kend k root T l _ (mwrite (ram k) pa bs) Hv (Hu _ _ Hva Hpa)) as [Hv' Hl'].
  { intros x Hx. apply mget_mwrite_out. unfold off_page in Hx. lia. }
  assert (Ha : forall vb, uaddr (mwrite (ram k) pa bs) T vb = uaddr (ram k) T vb)
    by now apply uaddr_leaf.
  assert (Hin : forall vb, 0 <= vb -> va <= vb < va + Z.of_nat (length bs) ->
            uaddr (ram k) T vb = Some (pa + (vb - va))).
  { intros vb Hvb Hr. apply uaddr_page; auto. Z.div_mod_to_equations; lia. }
  split; [split|split]; unfold k'; cbn [ram freelist].
  - done.
  - intros vb q Hvb. rewrite Ha. auto.
  - intros vb vc q Hb Hc. rewrite !Ha. eauto.
  - done.
  - intros vb Hvb. unfold umem, uwrite. rewrite Ha. case_decide as Hr.
    + rewrite Hin by done. simpl. rewrite mget_mwrite, decide_True by lia. do 2 f_equal. lia.
    + destruct (uaddr (ram k) T vb) as [q|] eqn:Hq; [|done]. simpl. f_equal.
      rewrite mget_mwrite. case_decide as Hr'; [|done]. exfalso. apply Hr.
      rewrite (Hi vb (va + (q - pa)) q); [lia|lia|lia|done|].
      rewrite Hin by lia. f_equal. lia.
  - intros x Hx. apply mget_mwrite_out.
    destruct (decide (pa <= x < pa + Z.of_nat (length bs))); [|lia].
    exfalso. apply (Hx (va + (x - pa))); [lia|]. rewrite Hin by lia. f_equal. lia.
  - done.
Qed.

Lemma walkaddr_down k root T l va : vm_inv kend k root T l -> 0 <= va < 2 ^ 64 ->
  walkaddr root (PGROUNDDOWN va) k =
    Ok (match uaddr (ram k) T va with Some pa => pa - va mod 4096 | None => 0 end) k.
Proof.
  intros Hv Hva. rewrite PGROUNDDOWN_eq by done.
  pose proof (Z.mod_pos_bound va 4096 ltac:(lia)).
  assert (0 <= va - va mod 4096) by (Z.div_mod_to_equations; lia).
  assert (Hp : va / 4096 = (va - va mod 4096) / 4096) by (Z.div_mod_to_equations; lia).
  assert (Hm : (va - va mod 4096) mod 4096 = 0) by (Z.div_mod_to_equations; lia).
  rewrite (walkaddr_ok k root T l) by done. rewrite Hm.
  destruct (uaddr (ram k) T va) as [pa|] eqn:E.
  - rewrite (uaddr_page _ _ va _ pa) by (done || lia). f_equal. lia.
  - rewrite (uaddr_page_none _ _ va) by (done || lia). done.
Qed.

Lemma uspace_page_pos k root T l va pa : uspace k root T l -> 0 <= va ->
  uaddr (ram k) T va = Some pa -> (pa - va mod 4096 =? 0) = false.
Proof.
  intros Hs Hva Hpa. pose proof (us_user _ _ _ _ Hs _ _ Hva Hpa) as (Hok & _).
  pose proof (page_ok_pos kend Hend _ Hok). apply Z.eqb_neq. lia.
Qed.

Lemma copyout_loop_ok root T l fuel : forall k dstva src,
  uspace k root T l -> 0 <= dstva < 2 ^ 64 -> (length src < fuel)%nat ->
  returns (copyout_loop root dstva src fuel) k (fun r k' => uspace k' root T l /\
    exists n : nat, (n <= length src)%nat /\ wrote k k' T dstva (take n src) /\
    ((r = 0 /\ n = length src) \/
     (r = -1 /\ (n < length src)%nat /\ uaddr (ram k) T (dstva + Z.of_nat n) = None))).
Proof.
  induction fuel as [|fuel IH]; intros k dstva src Hs Hd Hf; [lia|]. cbn [copyout_loop].
  destruct (Z.ltb_spec 0 (Z.of_nat (length src))).
  2: { apply returns_ret. split; [done|]. exists 0%nat. rewrite take_0.
       split_and!; [lia|apply wrote_nil|left; split; [done|lia]]. }
  unfold returns. rewrite (bindM_ok _ _ _ _ _ (walkaddr_down k root T l dstva (us_vm _ _ _ _ Hs) Hd)).
  destruct (uaddr (ram k) T dstva) as [pa|] eqn:Hpa.
  2: { cbn. split; [done|]. exists 0%nat. rewrite take_0, Z.add_0_r.
       split_and!; [lia|apply wrote_nil|right; auto with lia]. }
  rewrite (uspace_page_pos _ _ _ _ _ _ Hs (proj1 Hd) Hpa), PGROUNDDOWN_eq by done.
  pose proof (Z.mod_pos_bound dstva 4096 ltac:(lia)) as Hm.
  replace (dstva - (dstva - dstva mod 4096)) with (dstva mod 4096) by lia.
  replace (pa - dstva mod 4096 + dstva mod 4096) with pa by lia.
  set (c := if Z.of_nat (length src) <? PGSIZE - dstva mod 4096 then _ else _).
  assert (Hc : c = Z.min (Z.of_nat (length src)) (4096 - dstva mod 4096)).
  { unfold c, PGSIZE. destruct (Z.ltb_spec (Z.of_nat (length src)) (4096 - dstva mod 4096)); lia. }
  clearbody c. unfold set_ram. cbn [bindM modifyM].
  destruct (uspace_wrote k root T l dstva pa (take (Z.to_nat c) src) Hs (proj1 Hd) Hpa) as [Hs1 Hw1].
  { rewrite length_take. lia. }
  set (k1 := mk_kmem _ _) in *. clearbody k1.
  pose proof (uaddr_range _ _ _ _ (proj1 Hd) Hpa) as [Hmax _]. pose proof MAXVA_eq.
  eapply returns_mono; [apply (IH k1); [done|apply u64_range|rewrite length_drop; lia]|].
  intros r k' (Hs' & n & Hn & Hw & Hr). split; [done|].
  exists (Z.to_nat c + n)%nat. rewrite length_drop in Hn, Hr.
  rewrite <- take_take_drop. destruct (decide (Z.of_nat (length src) = c)) as [E|E].
  - assert (n = 0)%nat as -> by lia. rewrite take_0, app_nil_r in *.
    split_and!; [lia| |left; destruct Hr as [Hr|Hr]; lia].
    rewrite <- (app_nil_r (take _ src)). apply (wrote_app k k1); [done|].
    destruct Hw as [? Hu ? ?]; split; auto. intros vb Hvb. rewrite Hu by done.
    unfold uwrite. simpl. now rewrite !decide_False by lia.
  - assert (Hnext : u64 (dstva - dstva mod 4096 + PGSIZE) = dstva + c)
      by (rewrite u64_small; unfold PGSIZE; lia).
    rewrite Hnext in *. split_and!; [lia| |].
    + apply (wrote_app k k1); [done|]. rewrite length_take.
      replace (Z.of_nat (Z.to_nat c `min` length src)) with c by lia. done.
    + destruct Hr as [[-> Hr]|(-> & Hr & Hnone)]; [left; lia|right].
      rewrite (uaddr_leaf _ _ _ (wr_leaf _ _ _ _ _ Hw1)) in Hnone.
      split_and!; [done|lia|]. rewrite <- Hnone. f_equal. lia.
Qed.
(** The user sees the bytes [bs] at [va]. *)
Definition ureads (m : mem) (T : gmap (list Z) Z) (va : Z) (bs : list Z) : Prop :=
  forall i b, bs !! i = Some b -> umem m T (va + Z.of_nat i) = Some b.

Lemma ureads_app m T va bs cs :
  ureads m T va (bs ++ cs) <-> ureads m T va bs /\ ureads m T (va + Z.of_nat (length bs)) cs.
Proof.
  unfold ureads. split.
  - intros H. split; intros i b Hi.
    + apply H. now apply lookup_app_l_Some.
    + replace (va + Z.of_nat (length bs) + Z.of_nat i)
        with (va + Z.of_nat (length bs + i)) by lia.
      apply H. rewrite lookup_app_r by lia. now replace (length bs + i - length bs)%nat with i by lia.
  - intros [H1 H2] i b [Hi|[Hl Hi]]%lookup_app_Some; [auto|].
    rewrite <- (H2 _ _ Hi). f_equal. lia.
Qed.

Lemma ureads_page m T va pa (n : nat) : 0 <= va -> uaddr m T va = Some pa ->
  va mod 4096 + Z.of_nat n <= 4096 -> ureads m T va (mread m pa n).
Proof.
  intros Hva Hpa Hn i b Hi. pose proof (lookup_lt_Some _ _ _ Hi) as Hl. rewrite length_mread in Hl.
  rewrite lookup_mread in Hi by done. simplify_eq. pose proof (Z.mod_pos_bound va 4096 ltac:(lia)).
  unfold umem. rewrite (uaddr_page m T va _ pa) by (done || Z.div_mod_to_equations; lia).
  simpl. f_equal. f_equal. lia.
Qed.

(** The part of the range that lies in the first page. *)
Lemma chunk_eq va len : 0 <= va < 2 ^ 64 ->
  (if len <? PGSIZE - (va - PGROUNDDOWN va) then len else PGSIZE - (va - PGROUNDDOWN va)) =
  Z.min len (4096 - va mod 4096).
Proof.
  intros. rewrite PGROUNDDOWN_eq by done. unfold PGSIZE.
  destruct (Z.ltb_spec len (4096 - (va - (va - va mod 4096)))); lia.
Qed.

Lemma chunk_next m T va len : 0 <= va -> is_Some (uaddr m T va) -> 4096 - va mod 4096 < len ->
  u64 (PGROUNDDOWN va + PGSIZE) = va + Z.min len (4096 - va mod 4096).
Proof.
  intros Hva [pa Hpa] Hlt. pose proof (uaddr_range _ _ _ _ Hva Hpa) as [Hmax _]. pose proof MAXVA_eq.
  rewrite PGROUNDDOWN_eq by lia. pose proof (Z.mod_pos_bound va 4096 ltac:(lia)).
  rewrite u64_small; unfold PGSIZE; lia.
Qed.

Lemma copyin_loop_ok k root T l fuel : uspace k root T l -> forall dst srcva len,
  0 <= srcva < 2 ^ 64 -> 0 <= len < Z.of_nat fuel ->
  exists r bs, copyin_loop root dst srcva len fuel k = Ok (r, dst ++ bs) k /\
    ureads (ram k) T srcva bs /\
    ((r = 0 /\ Z.of_nat (length bs) = len) \/
     (r = -1 /\ Z.of_nat (length bs) < len /\
      uaddr (ram k) T (srcva + Z.of_nat (length bs)) = None)).
Proof.
  intros Hs. induction fuel as [|fuel IH]; intros dst srcva len Hd Hf; [lia|]. cbn [copyin_loop].
  destruct (Z.ltb_spec 0 len).
  2: { exists 0, []. rewrite app_nil_r. split_and!; [done|intros i b; by rewrite lookup_nil|].
       left. simpl. lia. }
  rewrite (bindM_ok _ _ _ _ _ (walkaddr_down k root T l srcva (us_vm _ _ _ _ Hs) Hd)).
  destruct (uaddr (ram k) T srcva) as [pa|] eqn:Hpa.
  2: { exists (-1), []. rewrite app_nil_r. simpl. rewrite Z.add_0_r.
       split_and!; [done|intros i b; by rewrite lookup_nil|]. right. auto with lia. }
  rewrite (uspace_page_pos _ _ _ _ _ _ Hs (proj1 Hd) Hpa).
  rewrite chunk_eq by done. pose proof (Z.mod_pos_bound srcva 4096 ltac:(lia)) as Hm.
  replace (pa - srcva mod 4096 + (srcva - PGROUNDDOWN srcva)) with pa
    by (rewrite PGROUNDDOWN_eq by done; lia).
  cbn [bindM getM]. set (c := Z.min len (4096 - srcva mod 4096)).
  destruct (IH (dst ++ mread (ram k) pa (Z.to_nat c)) (u64 (PGROUNDDOWN srcva + PGSIZE)) (len - c))
    as (r & bs & -> & Hu & Hr); [apply u64_range|lia|].
  assert (Hpage : ureads (ram k) T srcva (mread (ram k) pa (Z.to_nat c)))
    by (apply ureads_page; [lia|done|lia]).
  exists r, (mread (ram k) pa (Z.to_nat c) ++ bs). rewrite <- app_assoc.
  rewrite length_app, length_mread, Nat2Z.inj_add, Z2Nat.id by lia.
  split; [done|]. rewrite ureads_app, length_mread, Z2Nat.id by lia.
  destruct (decide (len = c)) as [E|E].
  - assert (bs = []) as -> by (apply nil_length_inv; lia). simpl in *.
    split; [split; [done|intros i b; by rewrite lookup_nil]|]. lia.
  - rewrite (chunk_next (ram k) T srcva len) in Hu, Hr by (eauto || lia).
    split; [done|]. rewrite Z.add_assoc. lia || destruct Hr as [Hr|(-> & Hl & Hr)]; [lia|right]; auto with lia.
Qed.

Lemma copyinstr_page_spec bs out b : copyinstr_page bs = (out, b) ->
  if b then exists s t, bs = s ++ 0 :: t /\ out = s ++ [0] /\ 0 ∉ s
  else out = bs /\ 0 ∉ bs.
Proof.
  revert out b; induction bs as [|x bs IH]; simpl; intros out b H.
  { simplify_eq. split; [done|apply not_elem_of_nil]. }
  destruct (Z.eqb_spec x 0) as [->|Hx].
  - simplify_eq. exists [], bs. split_and!; auto. apply not_elem_of_nil.
  - destruct (copyinstr_page bs) as [o g]. specialize (IH o g eq_refl). simplify_eq.
    destruct b.
    + destruct IH as (s & t & -> & -> & Hn). exists (x :: s), t.
      split_and!; auto. apply not_elem_of_cons. auto.
    + destruct IH as [-> Hn]. split; [done|]. apply not_elem_of_cons. auto.
Qed.

(** A string of at most [max] bytes (NUL included) at [va], or the first
    obstacle to reading one: an unmapped address or [max] bytes without NUL. *)
Definition str_result (m : mem) (T : gmap (list Z) Z) (va max r : Z) (bs : list Z) : Prop :=
  ureads m T va bs /\ Z.of_nat (length bs) <= max /\
  ((r = 0 /\ exists s, bs = s ++ [0] /\ 0 ∉ s) \/
   (r = -1 /\ 0 ∉ bs /\ (Z.of_nat (length bs) = max \/
     uaddr m T (va + Z.of_nat (length bs)) = None))).

Lemma str_result_nil m T va max r : r = -1 -> 0 <= max ->
  (max = 0 \/ uaddr m T va = None) -> str_result m T va max r [].
Proof.
  intros -> Hm H. split_and!; [intros i b; by rewrite lookup_nil|simpl; lia|right].
  split_and!; [done|apply not_elem_of_nil|]. simpl. rewrite Z.add_0_r. destruct H; auto.
Qed.

(** A page without NUL in front of the rest of the scan. *)
Lemma str_result_app m T va max r c bs : ureads m T va c -> 0 ∉ c -> 
  str_result m T (va + Z.of_nat (length c)) (max - Z.of_nat (length c)) r bs ->
  str_result m T va max r (c ++ bs).
Proof.
  intros Hc H0 (Hb & Hl & Hr). split_and!; [by apply ureads_app|rewrite length_app; lia|].
  rewrite length_app, Nat2Z.inj_add, Z.add_assoc.
  destruct Hr as [(-> & s & -> & Hs)|(-> & Hn & Hr)].
  - left. split; [done|]. exists (c ++ s). split; [by rewrite app_assoc|].
    rewrite elem_of_app. tauto.
  - right. split_and!; [done|rewrite elem_of_app; tauto|]. destruct Hr; [left; lia|auto].
Qed.

Lemma copyinstr_loop_ok k root T l fuel : uspace k root T l -> forall dst srcva max,
  0 <= srcva < 2 ^ 64 -> 0 <= max < Z.of_nat fuel ->
  exists r bs, copyinstr_loop root dst srcva max fuel k = Ok (r, dst ++ bs) k /\
    str_result (ram k) T srcva max r bs.
Proof.
  intros Hs. induction fuel as [|fuel IH]; intros dst srcva max Hd Hf; [lia|].
  cbn [copyinstr_loop]. destruct (Z.ltb_spec 0 max).
  2: { exists (-1), []. rewrite app_nil_r. split; [done|]. apply str_result_nil; auto; lia. }
  rewrite (bindM_ok _ _ _ _ _ (walkaddr_down k root T l srcva (us_vm _ _ _ _ Hs) Hd)).
  destruct (uaddr (ram k) T srcva) as [pa|] eqn:Hpa.
  2: { exists (-1), []. rewrite app_nil_r. split; [done|]. apply str_result_nil; auto; lia. }
  rewrite (uspace_page_pos _ _ _ _ _ _ Hs (proj1 Hd) Hpa).
  rewrite chunk_eq by done. pose proof (Z.mod_pos_bound srcva 4096 ltac:(lia)) as Hm.
  replace (pa - srcva mod 4096 + (srcva - PGROUNDDOWN srcva)) with pa
    by (rewrite PGROUNDDOWN_eq by done; lia).
  cbn [bindM getM]. set (c := Z.min max (4096 - srcva mod 4096)).
  assert (Hpage : ureads (ram k) T srcva (mread (ram k) pa (Z.to_nat c)))
    by (apply ureads_page; [lia|done|lia]).
  pose proof (length_mread (ram k) pa (Z.to_nat c)) as Hlen.
  set (pg := mread (ram k) pa (Z.to_nat c)) in *. clearbody pg.
  destruct (copyinstr_page pg) as [out got] eqn:Epg. apply copyinstr_page_spec in Epg. destruct got.
  - destruct Epg as (s & t & -> & -> & Hn). exists 0, (s ++ [0]). split; [done|].
    replace (s ++ 0 :: t) with ((s ++ [0]) ++ t) in * by (by rewrite <- app_assoc).
    apply ureads_app in Hpage as [Hpage _]. rewrite length_app in Hlen.
    split_and!; [done|lia|]. left. eauto.
  - destruct Epg as [-> Hn].
    destruct (IH (dst ++ pg) (u64 (PGROUNDDOWN srcva + PGSIZE)) (max - c))
      as (r & bs & -> & Hr); [apply u64_range|lia|].
    exists r, (pg ++ bs). rewrite <- app_assoc. split; [done|].
    destruct (decide (max = c)) as [E|E].
    + destruct Hr as (_ & Hl & Hr). assert (bs = []) as -> by (apply nil_length_inv; lia).
      rewrite app_nil_r. split_and!; [done|lia|]. right. split_and!; [|done|left; lia].
      destruct Hr as [(_ & s & Habs & _)|[-> _]]; [by destruct s|done].
    + apply str_result_app; [done|done|]. replace (Z.of_nat (length pg)) with c by lia.
      by rewrite (chunk_next (ram k) T srcva max) in Hr by (eauto || lia).
Qed.

(** ** Copying a single byte *)

Lemma copyin_byte k root T l va : uspace k root T l -> 0 <= va < 2 ^ 64 ->
  copyin root va 1 k = Ok (match umem (ram k) T va with Some b => (0, [b]) | None => (-1, []) end) k.
Proof.
  intros Hs Hva.
  destruct (copyin_loop_ok k root T l (Z.to_nat 1 + 1) Hs [] va 1 Hva ltac:(lia)) as (r & bs & Hc & Hrd & Hr).
  unfold copyin. rewrite Hc. f_equal. destruct Hr as [[-> Hl]|(-> & Hl & Hn)].
  - destruct bs as [|b [|]]; cbn in Hl; try lia. pose proof (Hrd 0%nat b eq_refl) as E. rewrite Z.add_0_r in E. by rewrite E.
  - destruct bs; cbn in Hl, Hn; [|lia]. rewrite Z.add_0_r in Hn. unfold umem. by rewrite Hn.
Qed.

Lemma copyout_byte k root T l va b : uspace k root T l -> 0 <= va < 2 ^ 64 ->
  returns (copyout root va [b]) k (fun r k' => uspace k' root T l /\
    match umem (ram k) T va with
    | Some _ => r = 0 /\ wrote k k' T va [b]
    | None => r = -1 /\ wrote k k' T va []
    end).
Proof.
  intros Hs Hva. eapply returns_mono; [apply (copyout_loop_ok root T l _ k va [b] Hs Hva); cbn; lia|].
  intros r k' (Hs' & n & Hn & Hw & Hr). split; [done|]. cbn in Hn. unfold umem.
  destruct Hr as [[-> ->]|(-> & Hlt & Hnone)].
  - destruct (uaddr (ram k) T va) eqn:Ea; [done|]. pose proof (wr_umem _ _ _ _ _ Hw va ltac:(lia)) as Hu.
    unfold umem, uwrite in Hu. rewrite decide_True in Hu by (cbn; lia).
    apply fmap_Some in Hu as (pa & Hpa & _). rewrite (uaddr_leaf _ _ _ (wr_leaf _ _ _ _ _ Hw)) in Hpa. congruence.
  - replace n with 0%nat in * by (cbn in Hlt; lia). rewrite Z.add_0_r in Hnone. by rewrite Hnone.
Qed.

(** Mapped addresses are below [MAXVA]. *)
Lemma umem_range m T va b : umem m T va = Some b -> va < MAXVA.
Proof. unfold umem, uaddr. destruct (Z.leb_spec MAXVA va); [done|lia]. Qed.

(** The bytes a user has from [va] on, up to [n] of them or the first one that
    is not mapped. *)
Fixpoint ubytes (m : mem) (T : gmap (list Z) Z) (va : Z) (n : nat) : list Z :=
  match n with
  | O => []
  | S n => match umem m T va with Some b => b :: ubytes m T (va + 1) n | None => [] end
  end.
Lemma length_ubytes m T n : forall va, (length (ubytes m T va n) <= n)%nat.
Proof. induction n; intros va; cbn; [done|]. destruct (umem m T va); cbn; [|lia]. specialize (IHn (va + 1)). lia. Qed.
Lemma ubytes_wrote k k' T va bs n : wrote k k' T va bs -> 0 <= va ->
  ubytes (ram k') T (va + Z.of_nat (length bs)) n = ubytes (ram k) T (va + Z.of_nat (length bs)) n.
Proof.
  intros Hw Hva. assert (H : forall m vb, va + Z.of_nat (length bs) <= vb -> ubytes (ram k') T vb m = ubytes (ram k) T vb m); [|by apply H].
  induction m as [|m IH]; intros vb Hvb; cbn; [done|]. rewrite (wr_umem _ _ _ _ _ Hw) by lia.
  unfold uwrite. rewrite decide_False by lia. destruct (umem (ram k) T vb); [|done]. by rewrite IH by lia.
Qed.
End VmCopy.
