(* ===== verification/VmFree.v ===== *)
(** * Tearing a page table down

    [freewalk], [uvmfree] and, at the end, [proc_pagetable] and
    [proc_freepagetable] of kernel/proc.c: once the leaves are unmapped, walking the
    tree gives back exactly its page-table pages, each once, and touches no other
    memory. *)

From stdpp Require Import base list gmap strings.
From Stdlib Require Import ZArith Lia.
From S2P Require Import Prelude Mem Layout Kalloc Vm VmSpec VmUser.
Open Scope Z_scope.


Section VmFree.
Context (kend : Z) (Hend : 0 < kend).
Context (T : gmap (list Z) Z).

(** [q] is a table of the subtree rooted at path [a]. *)
Definition in_subtree (a : list Z) (q : Z) : Prop := exists b, T !! (a ++ b) = Some q.

(** The static facts of the tree that [pt_inv] gives. *)
Record tree_shape : Prop := {
  ts_inj : forall a b p, T !! a = Some p -> T !! b = Some p -> a = b;
  ts_page : forall a p, T !! a = Some p -> page_ok kend p;
  ts_dom : forall a p, T !! a = Some p -> (length a <= 2)%nat;
  ts_idx : forall a p, T !! a = Some p -> Forall (fun i => 0 <= i < 512) a;
  ts_closed : forall a i p, T !! (a ++ [i]) = Some p -> is_Some (T !! a);
}.

(** Entry [i] of the table at path [a] reads [v]: no leaf is left. *)
Definition entry_free (a : list Z) (i v : Z) : Prop :=
  (Z.land v PTE_V = 0 /\ T !! (a ++ [i]) = None) \/
  (Z.land v PTE_V <> 0 /\ Z.land v (Z.lor (Z.lor PTE_R PTE_W) PTE_X) = 0 /\
   T !! (a ++ [i]) = Some (PTE2PA v)).

Definition subtree_free (m : mem) (a : list Z) : Prop :=
  forall b q i, T !! (a ++ b) = Some q -> 0 <= i < 512 ->
    entry_free (a ++ b) i (load64 m (q + 8 * i)).

Context (Hts : tree_shape).

Lemma closed_app a b : T !! a = None -> T !! (a ++ b) = None.
Proof.
  revert a. induction b as [|i b IH]; intros a Ha; [by rewrite app_nil_r|].
  replace (a ++ i :: b) with ((a ++ [i]) ++ b) by (by rewrite <- app_assoc).
  apply IH. destruct (T !! (a ++ [i])) eqn:E; [|done].
  apply (ts_closed Hts) in E as [? E]. congruence.
Qed.

Lemma subtree_off a b q r x : in_subtree a q -> in_subtree b r -> q <> r ->
  q <= x < q + 4096 -> off_page r x.
Proof.
  intros [c Hc] [d Hd] Hne Hx.
  destruct (ts_page Hts _ _ Hc) as [Hq _], (ts_page Hts _ _ Hd) as [Hr _].
  destruct (page_disjoint q r); auto; unfold off_page; lia.
Qed.

(** Subtrees at different entries of a table are disjoint. *)
Lemma subtree_apart a i j q r : in_subtree (a ++ [i]) q -> in_subtree (a ++ [j]) r -> i <> j -> q <> r.
Proof.
  intros [b Hb] [c Hc] Hne ->. pose proof (ts_inj Hts _ _ _ Hb Hc) as E.
  rewrite <- !app_assoc in E. apply app_inv_head in E. simpl in E. congruence.
Qed.

Lemma subtree_root_apart a p i q : T !! a = Some p -> in_subtree (a ++ [i]) q -> q <> p.
Proof.
  intros Hp [b Hb] ->. pose proof (ts_inj Hts _ _ _ Hb Hp) as E.
  apply (f_equal length) in E. rewrite !length_app in E. simpl in E. lia.
Qed.

Lemma subtree_free_agree m m' a : subtree_free m a ->
  (forall q x, in_subtree a q -> q <= x < q + 4096 -> mget m' x = mget m x) ->
  subtree_free m' a.
Proof.
  intros Hf Hm b q i Hb Hi. replace (load64 m' (q + 8 * i)) with (load64 m (q + 8 * i)); [auto|].
  symmetry. apply load64_ext. intros x Hx. apply (Hm q); [by exists b|lia].
Qed.

(** What freeing the subtrees of the entries [done] of table [a] leaves. *)
Record entries_done (k0 : kmem) (l0 : list Z) (a : list Z) (p : Z) (done : list Z)
    (l' : list Z) (k : kmem) : Prop := {
  ed_inv : kmem_inv kend k (l' ++ l0);
  ed_freed : forall q, q ∈ l' <-> exists i, i ∈ done /\ in_subtree (a ++ [i]) q;
  ed_frame : forall x, off_page p x ->
    (forall i q, i ∈ done -> in_subtree (a ++ [i]) q -> off_page q x) ->
    mget (ram k) x = mget (ram k0) x;
  ed_rest : forall j, j ∉ done -> 0 <= j < 512 ->
    load64 (ram k) (p + 8 * j) = load64 (ram k0) (p + 8 * j);
}.

(** The specification of [freewalk] on one subtree. *)
Definition freewalk_spec (fuel : nat) (a : list Z) : Prop :=
  forall p k l, T !! a = Some p -> (length a + fuel = 3)%nat -> kmem_inv kend k l ->
    subtree_free (ram k) a -> (forall q, in_subtree a q -> q ∉ l) ->
    returns (freewalk kend fuel p) k (fun _ k' => exists l',
      kmem_inv kend k' (l' ++ l) /\ (forall q, q ∈ l' <-> in_subtree a q) /\
      forall x, (forall q, in_subtree a q -> off_page q x) -> mget (ram k') x = mget (ram k) x).
Lemma kmem_inv_store k l p o v : kmem_inv kend k l -> page_ok kend p -> p ∉ l ->
  0 <= o /\ o + 8 <= 4096 ->
  kmem_inv kend (mk_kmem (store64 (ram k) (p + o) v) (freelist k)) l.
Proof.
  intros [Hc Hn Hp] Hok Hnin Ho. split; cbn [ram freelist]; [|done|done].
  apply (chain_frame kend (ram k) _ _ l p); auto; [apply Hok|].
  intros. apply mget_store64_out. lia.
Qed.

Local Abbreviation entry_body fuel p i :=
  (let! pte := load_pte (p + 8 * i) in
   if negb (Z.land pte PTE_V =? 0) &&
      (Z.land pte (Z.lor (Z.lor PTE_R PTE_W) PTE_X) =? 0) then
     let child := PTE2PA pte in
     do! freewalk kend fuel child in
     store_pte (p + 8 * i) 0
   else if negb (Z.land pte PTE_V =? 0) then panicM "freewalk: leaf"
   else retM tt).

Section Node.
Context (k0 : kmem) (l0 : list Z) (a : list Z) (p : Z) (fuel : nat).
Context (Hp : T !! a = Some p) (Hlen : (length a + S fuel = 3)%nat).
Context (Hfree : subtree_free (ram k0) a) (Hdisj : forall q, in_subtree a q -> q ∉ l0).
Context (IH : forall i, freewalk_spec fuel (a ++ [i])).

Lemma sub_child i q : in_subtree (a ++ [i]) q -> in_subtree a q.
Proof. intros [b Hb]. exists (i :: b). by rewrite <- app_assoc in Hb. Qed.

(** A child of the node satisfies the precondition of the recursive call. *)
Lemma node_child i l' dn k : entries_done k0 l0 a p dn l' k -> i ∉ dn ->
  subtree_free (ram k) (a ++ [i]) /\ (forall q, in_subtree (a ++ [i]) q -> q ∉ l' ++ l0).
Proof.
  intros [H1 H2 H3 H4] Hi. split.
  - assert (Hch : subtree_free (ram k0) (a ++ [i])).
    { intros b q j. rewrite <- app_assoc. apply Hfree. }
    eapply subtree_free_agree; [exact Hch|]. intros q x Hq Hx. apply H3.
    + apply (subtree_off (a ++ [i]) a q p); auto; [by exists []; rewrite app_nil_r|].
      eapply (subtree_root_apart a p); eauto.
    + intros j r Hj Hr. apply (subtree_off (a ++ [i]) (a ++ [j]) q r); auto.
      eapply subtree_apart; eauto. congruence.
  - intros q Hq [Hin|Hin]%elem_of_app.
    + apply H2 in Hin as (j & Hj & Hr). eapply subtree_apart; [exact Hq|exact Hr| |done]. congruence.
    + apply (Hdisj q); [by eapply sub_child|done].
Qed.

Lemma node_step i l' dn k : entries_done k0 l0 a p dn l' k -> i ∉ dn -> 0 <= i < 512 ->
  returns (entry_body fuel p i) k (fun _ k' =>
    exists l'', entries_done k0 l0 a p (dn ++ [i]) l'' k').
Proof.
  intros Hd Hi Hr. destruct (node_child i l' dn k Hd Hi) as [Hcf Hcd].
  destruct Hd as [H1 H2 H3 H4].
  pose proof (Hfree [] p i) as He. rewrite app_nil_r in He. specialize (He Hp Hr).
  unfold returns. rewrite (bindM_ok _ _ _ (load64 (ram k) (p + 8 * i)) k) by done.
  rewrite (H4 i) by done.
  set (v := load64 (ram k0) (p + 8 * i)) in *. clearbody v.
  destruct He as [[E Hn]|(E & E' & Hs)].
  - rewrite E. cbn. exists l'. split; auto.
    + intros q. rewrite H2. split.
      * intros (j & Hj & Hq). exists j. split; [apply elem_of_app; auto|done].
      * intros (j & Hj & Hq). apply elem_of_app in Hj as [Hj|Hj]; [eauto|].
        apply list_elem_of_singleton in Hj as ->. destruct Hq as [b Hq]. rewrite closed_app in Hq; done.
    + intros x Hx Hq. apply H3; [done|]. intros j q Hj. apply Hq, elem_of_app; auto.
    + intros j Hj. apply H4. intros Hin. apply Hj, elem_of_app; auto.
  - rewrite (proj2 (Z.eqb_neq _ 0) E), E'. cbn [negb andb Z.eqb].
    eapply returns_seq; [apply (IH i _ k (l' ++ l0) Hs); auto; rewrite length_app; simpl; lia|].
    intros _ k1 (lc & Hk1 & Hc1 & Hf1).
    pose proof (ts_page Hts _ _ Hp) as Hpok.
    assert (Hpn : p ∉ (lc ++ l') ++ l0).
    { intros [[Hin|Hin]%elem_of_app|Hin]%elem_of_app.
      - apply Hc1 in Hin. eapply (subtree_root_apart a p); eauto.
      - apply H2 in Hin as (j & _ & Hin). eapply (subtree_root_apart a p); eauto.
      - apply (Hdisj p); [by exists []; rewrite app_nil_r|done]. }
    rewrite app_assoc in Hk1.
    pose proof (kmem_inv_store k1 _ p (8 * i) 0 Hk1 Hpok Hpn ltac:(lia)) as Hk2.
    unfold store_pte, set_ram, modifyM, returns. exists (lc ++ l'). split; cbn [ram freelist].
    + done.
    + intros q. rewrite elem_of_app, Hc1, H2. split.
      * intros [Hq|(j & Hj & Hq)]; [exists i|exists j]; (split; [apply elem_of_app|done]); auto.
        right. apply list_elem_of_here.
      * intros (j & Hj & Hq). apply elem_of_app in Hj as [Hj|Hj]; [eauto|].
        apply list_elem_of_singleton in Hj as ->. eauto.
    + intros x Hx Hq. rewrite mget_store64_out by (unfold off_page in Hx; lia).
      rewrite Hf1; [apply H3; [done|]|]; intros; eapply Hq; eauto; apply elem_of_app; auto.
      right. apply list_elem_of_here.
    + intros j Hj Hjr. assert (j <> i) by (intros ->; apply Hj, elem_of_app; right; apply list_elem_of_here).
      rewrite load64_store64_ne by lia.
      rewrite <- (H4 j); [|intros Hin; apply Hj, elem_of_app; auto|done].
      apply load64_ext. intros x Hx. apply Hf1. intros q Hq.
      apply (subtree_off a (a ++ [i]) p q); auto; [by exists []; rewrite app_nil_r| |lia].
      intros <-. eapply (subtree_root_apart a p); eauto.
Qed.
End Node.

Lemma freewalk_ok fuel : forall a, freewalk_spec fuel a.
Proof.
  induction fuel as [|fuel IH]; intros a p k l Hp Hlen Hk Hfree Hdisj.
  { apply (ts_dom Hts) in Hp. lia. }
  cbn [freewalk]. eapply returns_seq.
  - eapply (returns_for_each (seqZ 0 512) _ (fun dn k' => exists l', entries_done k l a p dn l' k')).
    + exists []. split; auto. intros q. split; [by intros ?%not_elem_of_nil|].
      intros (i & Hi & _). by apply not_elem_of_nil in Hi.
    + intros dn i rest k1 E (l' & Hd).
      assert (Hnd : NoDup (dn ++ i :: rest)) by (rewrite <- E; apply NoDup_seqZ).
      apply (node_step k l a p fuel Hp Hlen Hfree Hdisj (fun i => IH (a ++ [i])) i l' dn k1 Hd).
      * apply NoDup_app in Hnd as (_ & Hnd & _). intros Hin. apply (Hnd i Hin), list_elem_of_here.
      * apply (elem_of_seqZ 0 512 i). rewrite E. apply elem_of_app. right. apply list_elem_of_here.
  - intros _ k1 (l' & [H1 H2 H3 H4]). pose proof (ts_page Hts _ _ Hp) as Hpok.
    assert (Hpn : p ∉ l' ++ l).
    { intros [Hin|Hin]%elem_of_app.
      - apply H2 in Hin as (j & _ & Hin). eapply (subtree_root_apart a p); eauto.
      - apply (Hdisj p); [by exists []; rewrite app_nil_r|done]. }
    eapply returns_mono; [apply (kfree_ok kend Hend k1 (l' ++ l) p); auto|].
    intros _ k2 [Hk2 Hf2]. exists (p :: l'). split_and!; [done| |].
    + intros q. rewrite elem_of_cons, H2. split.
      * intros [->|(i & _ & Hq)]; [by exists []; rewrite app_nil_r|by eapply sub_child].
      * intros [[|i b] Hb]; [rewrite app_nil_r in Hb; left; congruence|right].
        exists i. split; [|exists b; by rewrite <- app_assoc].
        apply elem_of_seqZ. apply (ts_idx Hts) in Hb. apply Forall_app in Hb as [_ Hb]. by inversion Hb.
    + intros x Hx. assert (off_page p x) by (apply Hx; by exists []; rewrite app_nil_r).
      rewrite Hf2 by (unfold off_page in *; lia). apply H3; [done|].
      intros i q _ Hq. apply Hx. by eapply sub_child.
Qed.

End VmFree.

Section Uvmfree.
Context (kend : Z) (Hend : 0 < kend).

Lemma pt_tree_shape m root T : pt_inv kend m root T -> tree_shape kend T.
Proof. intros [H1 H2 H3 H4 H5 H6 H7 H8]. split; eauto. Qed.

(** With no valid leaf, every entry of the tree is free for [freewalk]. *)
Lemma pt_subtree_free m root T : pt_inv kend m root T ->
  (forall va, 0 <= va < MAXVA -> Z.land (leaf m T va) PTE_V = 0) -> subtree_free T m [].
Proof.
  intros Hi Hl b q i Hb Hr. cbn [app] in *. destruct (decide (length b < 2)%nat) as [Hlt|Hge].
  - destruct (Z.eq_dec (Z.land (load64 m (q + 8 * i)) PTE_V) 0) as [E|E].
    + left. split; [done|]. rewrite (pt_link _ _ _ _ Hi b q i) by done. unfold pt_next. by rewrite E.
    + right. split; [done|].
      destruct (pt_link_valid kend Hend _ _ _ _ _ _ Hi Hb Hlt Hr E). done.
  - pose proof (pt_dom _ _ _ _ Hi _ _ Hb). pose proof (pt_idx _ _ _ _ Hi _ _ Hb) as Hidx.
    left. split.
    + destruct b as [|x [|y [|? ?]]]; simpl in *; try lia.
      inversion Hidx as [|? ? Hx Hidx']; subst. inversion Hidx' as [|? ? Hy _]; subst.
      destruct (PX_build x y i Hx Hy Hr) as (E2 & E1 & E0).
      pose proof (pt_top _ _ _ _ Hi _ _ _ Hb). pose proof MAXVA_eq.
      pose proof (Hl (4096 * (512 * (512 * x + y) + i)) ltac:(lia)) as Hleaf.
      unfold leaf in Hleaf. rewrite E2, E1, E0, Hb in Hleaf. done.
    + destruct (T !! (b ++ [i])) as [r|] eqn:E; [|done].
      apply (pt_dom _ _ _ _ Hi) in E. rewrite length_app in E. simpl in E. lia.
Qed.

Lemma freewalk_all k root T l : vm_inv kend k root T l ->
  (forall va, 0 <= va < MAXVA -> Z.land (leaf (ram k) T va) PTE_V = 0) ->
  returns (freewalk kend 3 root) k (fun _ k' => exists l', kmem_inv kend k' l' /\
    (forall p, p ∈ l' <-> pages_of T l p) /\
    forall x, (forall b p, T !! b = Some p -> off_page p x) -> mget (ram k') x = mget (ram k) x).
Proof.
  intros [Hk Hi Hd] Hl. eapply returns_mono.
  - apply (freewalk_ok kend Hend T (pt_tree_shape _ _ _ Hi) 3 [] root k l); auto.
    + apply (pt_root _ _ _ _ Hi).
    + by eapply pt_subtree_free.
    + intros q [b Hb]. eauto.
  - intros _ k' (l' & Hk' & Hin & Hf). exists (l' ++ l). split_and!; [done| |].
    + intros p. rewrite elem_of_app, Hin. unfold pages_of, in_subtree. cbn [app]. tauto.
    + intros x Hx. apply Hf. intros q [b Hb]. eauto.
Qed.

(** [uvmfree] of an address space whose only mappings are the pages [ds] of
    [[0, sz)]. *)
Lemma uvmfree_ok k root T l ds perm sz :
  vm_inv kend k root T l -> (forall i, good_perm (perm i)) -> 0 <= sz <= MAXVA ->
  PGROUNDUP sz = 4096 * Z.of_nat (length ds) ->
  (forall va, 0 <= va < MAXVA -> leaf (ram k) T va = mapped_list (fun _ => 0) 0 ds perm va) ->
  NoDup ds -> Forall (user_page kend T l) ds ->
  returns (uvmfree kend root sz) k (fun _ k' => exists l', kmem_inv kend k' l' /\
    (forall p, p ∈ l' <-> pages_of T l p \/ p ∈ ds) /\
    forall x, (forall b p, T !! b = Some p -> off_page p x) ->
      Forall (fun d => off_page d x) ds -> mget (ram k') x = mget (ram k) x).
Proof.
  intros Hv Hp Hsz Hn Hl Hnd Hds. pose proof MAXVA_eq. unfold uvmfree.
  pose proof (PGROUNDUP_bounds sz ltac:(lia)).
  assert (Hmax : 4096 * Z.of_nat (length ds) <= MAXVA) by (Z.div_mod_to_equations; lia).
  eapply (returns_seq _ _ _ (fun _ k' => vm_inv kend k' root T (reverse ds ++ l) /\
    (forall va, 0 <= va < MAXVA -> leaf (ram k') T va = 0) /\
    forall x, (forall b p, T !! b = Some p -> off_page p x) ->
      Forall (fun d => off_page d x) ds -> mget (ram k') x = mget (ram k) x)).
  - destruct (Z.ltb_spec 0 sz).
    + rewrite Hn. unfold PGSIZE. rewrite Z.mul_comm, Z.div_mul by lia.
      eapply (unmap_list_ok kend Hend k root T l (fun _ => 0) 0 ds perm); auto. lia.
    + assert (sz = 0) as -> by lia. change (PGROUNDUP 0) with 0 in Hn.
      assert (ds = []) as -> by (apply nil_length_inv; lia).
      apply returns_ret. split_and!; auto.
      intros va Hva. by rewrite Hl, mapped_list_nil.
  - intros _ k1 (Hv1 & Hl1 & Hf1). eapply returns_mono; [apply (freewalk_all k1 root T _ Hv1)|].
    { intros va Hva. by rewrite Hl1. }
    intros _ k' (l' & Hk' & Hin & Hf). exists l'. split_and!; [done| |].
    + intros p. rewrite Hin. unfold pages_of. rewrite elem_of_app, elem_of_reverse. tauto.
    + intros x Hx Hdx. rewrite Hf by done. auto.
Qed.
End Uvmfree.

(** ** The page table of a process (kernel/proc.c)

    [proc_pagetable] and [proc_freepagetable]: an empty page table, the
    trampoline and the trapframe, and taking it all down again. *)


Section VmProc.
Context (kend : Z) (Hend : 0 < kend).
Local Abbreviation vm_inv := (vm_inv kend).
Local Abbreviation kmem_inv := (kmem_inv kend).

(** A page of zeroes is an empty page table. *)
Lemma zero_root m d : page_ok kend d -> (forall i, 0 <= i < 512 -> load64 m (d + 8 * i) = 0) ->
  pt_inv kend m d {[ [] := d ]} /\ forall va, leaf m {[ [] := d ]} va = 0.
Proof.
  intros Hd Hz. assert (HT : forall a p, ({[ [] := d ]} : gmap (list Z) Z) !! a = Some p -> a = [] /\ p = d)
    by (intros a p [<- <-]%lookup_singleton_Some; done). split; [split|].
  - apply lookup_singleton_eq.
  - intros a b p [-> ->]%HT [-> _]%HT. done.
  - intros a p [_ ->]%HT. done.
  - intros a p [-> _]%HT. cbn. lia.
  - intros a p [-> _]%HT. constructor.
  - intros i b p [? _]%HT. done.
  - intros a i p [? _]%HT. by destruct a.
  - intros a p i [-> ->]%HT _ Hi. unfold pt_next. rewrite Hz by done. cbn. by rewrite lookup_singleton_ne.
  - intros va. unfold leaf. by rewrite lookup_singleton_ne.
Qed.

Lemma uvmcreate_ok k l : kmem_inv k l ->
  returns uvmcreate k (fun r k' =>
    match l with
    | [] => r = 0 /\ k' = k
    | d :: l => r = d /\ page_ok kend d /\ vm_inv k' d {[ [] := d ]} l /\ (forall va, leaf (ram k') {[ [] := d ]} va = 0) /\
        forall x, off_page d x -> mget (ram k') x = mget (ram k) x
    end).
Proof.
  intros Hk. unfold uvmcreate. destruct l as [|d l].
  { unfold returns. mstep (kalloc_none kend k Hk). cbn. done. }
  pose proof Hk as [_ Hnd Hpg]. apply NoDup_cons in Hnd as [Hni _]. apply Forall_cons in Hpg as [Hd Hpg].
  pose proof (page_ok_pos kend Hend d Hd).
  eapply returns_seq; [apply (kalloc_ok kend Hend k d l Hk)|]. intros r k1 (-> & Hk1 & _ & Hf).
  destruct (Z.eqb_spec d 0); [lia|]. unfold set_ram, returns. mrun. cbn.
  destruct (zero_root (memset (ram k1) d 0 PGSIZE) d Hd) as [Hpt Hl].
  { intros i Hi. apply load64_memset_zero; unfold PGSIZE; lia. }
  assert (Hout : forall x, off_page d x -> mget (memset (ram k1) d 0 PGSIZE) x = mget (ram k1) x).
  { intros x Hx. apply mget_memset_out. unfold off_page, PGSIZE in *. lia. }
  split_and!; [done|done| |done|].
  - split; [|done|].
    + destruct Hk1 as [Hc Hn1 Hp1]. split; [|done|done]. cbn [ram freelist].
      eapply (chain_frame kend _ _ _ _ d); [apply Hd|done|done|exact Hout|exact Hc].
    + intros a p [_ <-]%lookup_singleton_Some. done.
  - intros x Hx. cbn. rewrite Hout by done. by apply Hf.
Qed.

(** Mapping one page. *)
Lemma map_page k root T l va pa perm : vm_inv k root T l -> va mod 4096 = 0 -> 0 <= va -> va + 4096 <= MAXVA -> 0 <= perm < 1024 ->
  pa mod 4096 = 0 -> 0 <= pa < 2 ^ 56 -> (forall v, va <= v < va + 4096 -> leaf (ram k) T v = 0) ->
  returns (mappages root va PGSIZE pa perm) k (fun r k' => exists T' l', vm_inv k' root T' l' /\ vm_grow k T l k' T' l' /\
    (length l <= length l' + 2)%nat /\
    ((r = 0 /\ forall v, 0 <= v < MAXVA -> leaf (ram k') T' v = if decide (va <= v < va + 4096) then map_entry pa perm else leaf (ram k) T v) \/
     (r = -1 /\ l' = [] /\ forall v, 0 <= v < MAXVA -> leaf (ram k') T' v = leaf (ram k) T v))).
Proof.
  intros Hv Ha H0 Hm Hp Hpa Hpr Hz.
  assert (Hdiv : (va + PGSIZE - 1) / 4096 = va / 4096) by (unfold PGSIZE; Z.div_mod_to_equations; lia).
  eapply returns_mono; [apply (mappages_ok kend Hend k root T l va PGSIZE pa perm 0); unfold PGSIZE in *; try done; try lia|].
  - intros v Hv'. rewrite Hz; [done|]. Z.div_mod_to_equations; lia.
  - intros r k' (T' & l' & j & Hv' & Hg & Hl & Hlen & Hr). exists T', l'. split_and!; [done|done|lia|].
    rewrite Ha, Z.sub_0_r in Hl. unfold mapped in Hl. destruct Hr as [[-> ->]|(-> & Hj & ->)].
    + left. split; [done|]. intros v Hvr. rewrite Hl by done. change (4096 * (Z.of_nat 0 + 1)) with 4096. case_decide; [|done].
      f_equal. Z.div_mod_to_equations; lia.
    + right. split_and!; [done|done|]. intros v Hvr. rewrite Hl by done. replace j with 0 by lia. by rewrite decide_False by lia.
Qed.

(** The leaf entries of a new process. *)
Definition proc_leaf (trampoline trapframe : Z) (lf : Z -> Z) (va : Z) : Z :=
  if decide (TRAMPOLINE <= va < TRAMPOLINE + 4096) then map_entry trampoline (Z.lor PTE_R PTE_X)
  else if decide (TRAPFRAME <= va < TRAPFRAME + 4096) then map_entry trapframe (Z.lor PTE_R PTE_W)
  else lf va.

Definition phys_addr (pa : Z) : Prop := pa mod 4096 = 0 /\ 0 <= pa < 2 ^ 56.

Lemma layout_facts : MAXVA = 2 ^ 38 /\ TRAMPOLINE = 2 ^ 38 - 4096 /\ TRAPFRAME = 2 ^ 38 - 8192.
Proof. done. Qed.

(** Taking down a page table without user pages. *)
Lemma uvmfree_empty k root T l : vm_inv k root T l -> (forall va, 0 <= va < MAXVA -> leaf (ram k) T va = 0) ->
  returns (uvmfree kend root 0) k (fun _ k' => exists l', kmem_inv k' l' /\ (forall p, p ∈ l' <-> pages_of T l p) /\
    forall x, (forall b p, T !! b = Some p -> off_page p x) -> mget (ram k') x = mget (ram k) x).
Proof.
  intros Hv Hz. eapply returns_mono; [apply (uvmfree_ok kend Hend k root T l [] (fun _ => PTE_R) 0)|].
  - done.
  - intros _. split; [change PTE_R with 2; lia|done].
  - pose proof MAXVA_eq. lia.
  - done.
  - intros va Hva. rewrite Hz by done. unfold mapped_list. cbn [length]. by rewrite decide_False by lia.
  - constructor.
  - constructor.
  - intros _ k' (l' & Hk' & Hin & Hf). exists l'. split_and!; [done| |].
    + intros p. rewrite Hin, elem_of_nil. tauto.
    + intros x Hx. apply Hf; [done|constructor].
Qed.

(** Unmapping one page that stays allocated. *)
Lemma unmap_page k root T l a pa perm : vm_inv k root T l -> a mod 4096 = 0 -> 0 <= a -> a + 4096 <= MAXVA ->
  good_perm perm -> phys_addr pa -> (forall va, a <= va < a + 4096 -> leaf (ram k) T va = map_entry pa perm) ->
  returns (uvmunmap kend root a 1 false) k (fun _ k' => vm_inv k' root T l /\
    (forall va, 0 <= va < MAXVA -> leaf (ram k') T va = if decide (a <= va < a + 4096) then 0 else leaf (ram k) T va) /\
    forall x, (forall b p, T !! b = Some p -> off_page p x) -> mget (ram k') x = mget (ram k) x).
Proof.
  intros Hv Ha H0 Hm Hp [Hpa1 Hpa2] Hl. eapply returns_mono; [apply (uvmunmap_ok kend Hend false 1 k root T l a); try done; try lia|].
  - intros va Hva. rewrite Hl by lia. by apply map_entry_leaf.
  - cbn zeta. intros _ k' (Hv' & Hl' & Hf). split_and!; [done| |].
    + intros va Hva. rewrite Hl' by done. unfold unmapped. change (4096 * Z.of_nat 1) with 4096. done.
    + intros x Hx. by apply Hf.
Qed.

Lemma good_rx : good_perm (Z.lor PTE_R PTE_X).
Proof. split; [change (Z.lor PTE_R PTE_X) with 10; lia|done]. Qed.
Lemma good_rw : good_perm (Z.lor PTE_R PTE_W).
Proof. split; [change (Z.lor PTE_R PTE_W) with 6; lia|done]. Qed.

(** Memory outside the pages of [l] is as before. *)
Definition same_outside (k k' : kmem) (l : list Z) : Prop :=
  forall x, (forall p, p ∈ l -> off_page p x) -> mget (ram k') x = mget (ram k) x.

(** [proc_pagetable] on failure and on success. *)
Definition gave_up (k k' : kmem) (l : list Z) : Prop :=
  exists l', kmem_inv k' l' /\ (forall p, p ∈ l' <-> p ∈ l) /\ same_outside k k' l.
Definition built (k k' : kmem) (l : list Z) (root trampoline trapframe : Z) : Prop :=
  exists T l', vm_inv k' root T l' /\ root <> 0 /\ (forall p, pages_of T l' p <-> p ∈ l) /\ (length l <= length l' + 5)%nat /\ same_outside k k' l /\
    forall va, 0 <= va < MAXVA -> leaf (ram k') T va = proc_leaf trampoline trapframe (fun _ => 0) va.

Lemma grow_outside k k' T l T' l' d : vm_grow k T l k' T' l' -> (forall p, pages_of T l p <-> p ∈ d) -> same_outside k k' d.
Proof.
  intros Hg Hd x Hx. apply (vg_frame _ _ _ _ _ _ Hg). intros a p Ha Hr.
  assert (Hp : p ∈ d) by (apply Hd, (vm_grow_pages _ _ _ _ _ _ Hg); right; eauto). specialize (Hx p Hp). unfold off_page in Hx. lia.
Qed.
Lemma same_outside_trans k k' k'' l : same_outside k k' l -> same_outside k' k'' l -> same_outside k k'' l.
Proof. intros H1 H2 x Hx. by rewrite H2, H1. Qed.

Lemma pages_root d l p : pages_of {[ [] := d ]} l p <-> p ∈ d :: l.
Proof.
  unfold pages_of. rewrite elem_of_cons. split.
  - intros [?|[b [_ ->]%lookup_singleton_Some]]; auto.
  - intros [->|?]; [right; exists []; apply lookup_singleton_eq|auto].
Qed.

(** Giving up a page table without leaves. *)
Lemma drop_table k k1 root T l d : vm_inv k1 root T l -> (forall va, 0 <= va < MAXVA -> leaf (ram k1) T va = 0) ->
  (forall p, pages_of T l p <-> p ∈ d) -> same_outside k k1 d ->
  returns (do! uvmfree kend root 0 in retM 0) k1 (fun r k' => r = 0 /\ gave_up k k' d).
Proof.
  intros Hv Hz Hd Hs. eapply returns_seq; [by apply (uvmfree_empty k1 root T l)|]. intros _ k' (l' & Hk' & Hin & Hf).
  apply returns_ret. split; [done|]. exists l'. split_and!; [done|intros p; by rewrite Hin, Hd|].
  eapply same_outside_trans; [exact Hs|]. intros x Hx. apply Hf. intros b p Hb. apply Hx, Hd. right. eauto.
Qed.

Lemma proc_pagetable_ok k l trampoline trapframe : kmem_inv k l -> phys_addr trampoline -> phys_addr trapframe ->
  returns (proc_pagetable kend trampoline trapframe) k (fun r k' =>
    if decide (r = 0) then gave_up k k' l /\ (length l <= 5)%nat else built k k' l r trampoline trapframe).
Proof.
  intros Hk [Ht1 Ht2] [Hf1 Hf2]. destruct layout_facts as (EM & ET & EF). unfold proc_pagetable.
  eapply returns_seq; [by apply uvmcreate_ok|]. intros root k1 H1. destruct l as [|d l].
  { destruct H1 as [-> ->]. apply returns_ret. rewrite decide_True by done. split; [|cbn; lia]. exists []. split_and!; [done|done|by intros x _]. }
  destruct H1 as (-> & Hd & Hv1 & Hz1 & Hf). pose proof (page_ok_pos kend Hend d Hd). destruct (Z.eqb_spec d 0); [lia|].
  assert (Hs1 : same_outside k k1 (d :: l)) by (intros x Hx; apply Hf, Hx; left).
  eapply returns_seq; [apply (map_page k1 d {[ [] := d ]} l TRAMPOLINE trampoline (Z.lor PTE_R PTE_X)); try done; try lia|].
  intros r k2 (T2 & l2 & Hv2 & Hg2 & Hl2 & Hr2).
  assert (Hp2 : forall p, pages_of T2 l2 p <-> p ∈ d :: l) by (intros p; by rewrite (vm_grow_pages _ _ _ _ _ _ Hg2), pages_root).
  assert (Hs2 : same_outside k k2 (d :: l)) by (eapply same_outside_trans; [exact Hs1|eapply grow_outside; [exact Hg2|intros p; apply pages_root]]).
  destruct Hr2 as [[-> Hlf2]|(-> & -> & Hlf2)]; cbn [Z.ltb Z.compare].
  2: { eapply returns_mono; [apply (drop_table k k2 d T2 [] (d :: l)); try done; intros va Hva; by rewrite Hlf2, Hz1|].
       intros r k' [-> Hg]. rewrite decide_True by done. split; [done|cbn in *; lia]. }
  eapply returns_seq; [apply (map_page k2 d T2 l2 TRAPFRAME trapframe (Z.lor PTE_R PTE_W)); try done; try lia|].
  { intros v Hr. rewrite Hlf2, decide_False, Hz1 by lia. done. }
  intros r k3 (T3 & l3 & Hv3 & Hg3 & Hl3 & Hr3).
  assert (Hp3 : forall p, pages_of T3 l3 p <-> p ∈ d :: l) by (intros p; by rewrite (vm_grow_pages _ _ _ _ _ _ Hg3)).
  assert (Hs3 : same_outside k k3 (d :: l)) by (eapply same_outside_trans; [exact Hs2|eapply grow_outside; [exact Hg3|done]]).
  destruct Hr3 as [[-> Hlf3]|(-> & -> & Hlf3)]; cbn [Z.ltb Z.compare].
  - apply returns_ret. rewrite decide_False by done. exists T3, l3. split_and!; [done|done|done|cbn in *; lia|done|].
    intros va Hva. rewrite Hlf3 by done. unfold proc_leaf. repeat case_decide; try lia; try done; rewrite Hlf2 by done;
      [by rewrite decide_True by lia|by rewrite decide_False, Hz1 by lia].
  - eapply returns_seq; [apply (unmap_page k3 d T3 [] TRAMPOLINE trampoline (Z.lor PTE_R PTE_X)); try done; try lia; try by apply good_rx|].
    { intros v Hr. by rewrite Hlf3, Hlf2, decide_True by lia. }
    intros _ k4 (Hv4 & Hlf4 & Hf4).
    eapply returns_mono; [apply (drop_table k k4 d T3 [] (d :: l)); try done|].
    + intros va Hva. rewrite Hlf4 by done. case_decide; [done|]. by rewrite Hlf3, Hlf2, decide_False, Hz1 by done.
    + eapply same_outside_trans; [exact Hs3|]. intros x Hx. apply Hf4. intros b p Hb. apply Hx, Hp3. right. eauto.
    + intros r k' [-> Hg]. rewrite decide_True by done. split; [done|cbn in *; lia].
Qed.

(** Taking down a process with user pages [ds]. *)
Lemma proc_freepagetable_ok k root T l ds perm sz trampoline trapframe : vm_inv k root T l -> (forall i, good_perm (perm i)) ->
  0 <= sz <= TRAPFRAME -> PGROUNDUP sz = 4096 * Z.of_nat (length ds) -> phys_addr trampoline -> phys_addr trapframe ->
  (forall va, 0 <= va < MAXVA -> leaf (ram k) T va = proc_leaf trampoline trapframe (mapped_list (fun _ => 0) 0 ds perm) va) ->
  NoDup ds -> Forall (user_page kend T l) ds ->
  returns (proc_freepagetable kend root sz) k (fun _ k' => exists l', kmem_inv k' l' /\
    (forall p, p ∈ l' <-> pages_of T l p \/ p ∈ ds) /\
    forall x, (forall b p, T !! b = Some p -> off_page p x) ->
      Forall (fun d => off_page d x) ds -> mget (ram k') x = mget (ram k) x).
Proof.
  intros Hv Hp Hsz Hn Ht Hf Hl Hnd Hds. destruct layout_facts as (EM & ET & EF). unfold proc_freepagetable.
  pose proof (PGROUNDUP_bounds sz ltac:(lia)) as Hb.
  assert (Hup : 4096 * Z.of_nat (length ds) <= TRAPFRAME) by (rewrite EF in *; Z.div_mod_to_equations; lia).
  eapply returns_seq; [apply (unmap_page k root T l TRAMPOLINE trampoline (Z.lor PTE_R PTE_X)); try done; try lia; try by apply good_rx|].
  { intros v Hr. rewrite Hl by lia. unfold proc_leaf. by rewrite decide_True by lia. }
  intros _ k1 (Hv1 & Hl1 & Hf1).
  eapply returns_seq; [apply (unmap_page k1 root T l TRAPFRAME trapframe (Z.lor PTE_R PTE_W)); try done; try lia; try by apply good_rw|].
  { intros v Hr. rewrite Hl1, decide_False, Hl by lia. unfold proc_leaf. by rewrite decide_False, decide_True by lia. }
  intros _ k2 (Hv2 & Hl2 & Hf2).
  eapply returns_mono; [apply (uvmfree_ok kend Hend k2 root T l ds perm sz); try done; try lia|].
  - intros va Hva. rewrite Hl2 by done. unfold mapped_list at 1. case_decide as D1.
    + by rewrite decide_False by lia.
    + rewrite Hl1 by done. case_decide as D2; [by rewrite decide_False by lia|]. rewrite Hl by done.
      unfold proc_leaf. by rewrite !decide_False by done.
  - intros _ k3 (l' & Hk3 & Hin & Hf3). exists l'. split_and!; [done|done|]. intros x Hx Hx'. by rewrite Hf3, Hf2, Hf1.
Qed.
End VmProc.
