(* ===== verification/VmExample.v ===== *)
(** * A concrete address space

    A small machine state on which the hypotheses of the virtual-memory
    theorems hold: one user page at address 0 behind three page-table pages,
    eight free pages, an empty second page table and a page for a
    trapframe. *)

From stdpp Require Import base list gmap strings.
From Stdlib Require Import ZArith Lia.
From S2P Require Import Prelude Mem Layout Kalloc Vm VmSpec VmUser VmCopy.
Open Scope Z_scope.

(** Memory with the given 64-bit words, zero elsewhere. *)
Fixpoint mem_of (l : list (Z * Z)) : mem :=
  match l with
  | [] => ∅
  | (a, v) :: l => store64 (mem_of l) a v
  end.
Fixpoint word_of (l : list (Z * Z)) (a : Z) : Z :=
  match l with
  | [] => 0
  | (b, v) :: l => if a =? b then v else word_of l a
  end.

Lemma load_mem_of l a : Forall (fun e => e.1 mod 8 = 0 /\ 0 <= e.2 < 2 ^ 64) l -> a mod 8 = 0 ->
  load64 (mem_of l) a = word_of l a.
Proof.
  intros Hl Ha. induction Hl as [|[b v] l [Hb Hv] Hl IH]; simpl in *.
  - reflexivity.
  - destruct (Z.eqb_spec a b) as [->|Hne].
    + rewrite load64_store64_eq. by apply u64_small.
    + rewrite load64_store64_ne; [done|]. Z.div_mod_to_equations; lia.
Qed.

Definition ex_kend : Z := 0x80020000.
Definition ex_root : Z := 0x80100000.
Definition ex_p1 : Z := 0x80101000.
Definition ex_p2 : Z := 0x80102000.
Definition ex_data : Z := 0x80103000.
Definition ex_f1 : Z := 0x80104000.
Definition ex_f2 : Z := 0x80105000.
Definition ex_f3 : Z := 0x80106000.
Definition ex_f4 : Z := 0x80108000.
Definition ex_f5 : Z := 0x80109000.
Definition ex_f6 : Z := 0x8010A000.
Definition ex_f7 : Z := 0x8010B000.
Definition ex_f8 : Z := 0x8010C000.
Definition ex_new : Z := 0x80107000.
Definition ex_tf : Z := 0x8010D000.
Definition ex_leaf : Z := Z.lor (PA2PTE ex_data) 0x17.   (* V | R | W | U *)

Definition ex_words : list (Z * Z) :=
  [(ex_root, Z.lor (PA2PTE ex_p1) PTE_V); (ex_p1, Z.lor (PA2PTE ex_p2) PTE_V);
   (ex_p2, ex_leaf); (ex_f1, ex_f2); (ex_f2, ex_f3); (ex_f3, ex_f4); (ex_f4, ex_f5);
   (ex_f5, ex_f6); (ex_f6, ex_f7); (ex_f7, ex_f8)].
Definition ex_kmem : kmem := mk_kmem (mem_of ex_words) ex_f1.
Definition ex_T : gmap (list Z) Z := {[ [] := ex_root; [0] := ex_p1; [0; 0] := ex_p2 ]}.
Definition ex_free : list Z := [ex_f1; ex_f2; ex_f3; ex_f4; ex_f5; ex_f6; ex_f7; ex_f8].

Lemma ex_load a : a mod 8 = 0 -> load64 (ram ex_kmem) a = word_of ex_words a.
Proof. apply load_mem_of. repeat constructor; vm_compute; congruence. Qed.

Lemma ex_T_inv a p : ex_T !! a = Some p ->
  (a = [] /\ p = ex_root) \/ (a = [0] /\ p = ex_p1) \/ (a = [0; 0] /\ p = ex_p2).
Proof.
  unfold ex_T. rewrite !lookup_insert. repeat case_decide; subst; intros; simplify_eq; auto.
  match goal with H : {[_ := _]} !! _ = _ |- _ => apply lookup_singleton_Some in H as [<- <-] end. auto.
Qed.

Ltac ex_cases H := apply ex_T_inv in H as [[? ?]|[[? ?]|[? ?]]]; subst.

Lemma ex_page_ok p : p ∈ [ex_root; ex_p1; ex_p2; ex_data; ex_new; ex_tf] -> page_ok ex_kend p.
Proof.
  intros H. assert (HF : Forall (page_ok ex_kend) [ex_root; ex_p1; ex_p2; ex_data; ex_new; ex_tf]).
  { repeat constructor; vm_compute; congruence. }
  by apply (proj1 (Forall_forall _ _) HF).
Qed.

Lemma ex_word p i : p mod 4096 = 0 -> 0 <= i < 512 -> load64 (ram ex_kmem) (p + 8 * i) =
  if decide (i = 0) then word_of ex_words p else 0.
Proof.
  intros Hp Hi. rewrite ex_load by (Z.div_mod_to_equations; lia).
  case_decide as E; [subst; f_equal; lia|]. unfold ex_words, word_of.
  unfold ex_root, ex_p1, ex_p2, ex_f1, ex_f2, ex_f3, ex_f4, ex_f5, ex_f6, ex_f7.
  repeat (match goal with |- context [if ?a =? ?b then _ else _] => destruct (Z.eqb_spec a b) end);
    [Z.div_mod_to_equations; lia..|done].
Qed.

Lemma ex_pt_inv : pt_inv ex_kend (ram ex_kmem) ex_root ex_T.
Proof.
  split.
  - reflexivity.
  - intros a b p Ha Hb. ex_cases Ha; ex_cases Hb; done.
  - intros a p Ha. ex_cases Ha; apply ex_page_ok; by repeat (left || right).
  - intros a p Ha. ex_cases Ha; simpl; lia.
  - intros a p Ha. ex_cases Ha; repeat constructor; lia.
  - intros i b p Ha. ex_cases Ha; simplify_eq; lia.
  - intros a i p Ha. ex_cases Ha; [by destruct a| |].
    + destruct a as [|? [|]]; simplify_eq/=. eexists. reflexivity.
    + destruct a as [|? [|? [|]]]; simplify_eq/=. eexists. reflexivity.
  - intros a p i Ha Hl Hi. unfold pt_next.
    ex_cases Ha; simpl in Hl; try lia; rewrite ex_word by (done || lia); case_decide as E;
      try (subst i; reflexivity); cbn [app];
      (destruct (ex_T !! _) as [q|] eqn:Eq; [ex_cases Eq; simplify_eq|done]).
Qed.

Lemma ex_vm_inv : vm_inv ex_kend ex_kmem ex_root ex_T ex_free.
Proof.
  split.
  - split.
    + cbn [chain ex_free ex_kmem freelist]. unfold chain.
      do 8 (split; [done|]; rewrite ex_load by done). done.
    + repeat constructor; set_solver by done.
    + repeat constructor; vm_compute; congruence.
  - exact ex_pt_inv.
  - intros a p Ha. ex_cases Ha; unfold ex_free; rewrite !elem_of_cons, elem_of_nil; vm_compute; intuition congruence.
Qed.

Lemma ex_leaf_eq va : 0 <= va < MAXVA ->
  leaf (ram ex_kmem) ex_T va = if decide (va < 4096) then ex_leaf else 0.
Proof.
  intros Hva. case_decide as E.
  - rewrite (leaf_vpn _ _ va 0) by (apply vpn_page; [lia|vm_compute; intuition congruence|
      rewrite !Z.div_small by lia; done]).
    change (leaf (ram ex_kmem) ex_T 0) with (load64 (ram ex_kmem) ex_p2). by rewrite ex_load.
  - unfold leaf. destruct (ex_T !! _) as [p|] eqn:Eq; [|done]. ex_cases Eq; simplify_eq.
    rewrite ex_word by (done || apply PX_range). case_decide as E0; [|done].
    exfalso. apply E. assert (Hz : vpn va = vpn 0) by (change (vpn 0) with (0, 0, 0); unfold vpn; congruence).
    apply vpn_page in Hz; [|done|vm_compute; intuition congruence].
    rewrite (Z.div_small 0) in Hz by lia. Z.div_mod_to_equations; lia.
Qed.

Lemma ex_uaddr va : 0 <= va ->
  uaddr (ram ex_kmem) ex_T va = if decide (va < 4096) then Some (ex_data + va) else None.
Proof.
  intros Hva. unfold uaddr. pose proof MAXVA_eq.
  destruct (Z.leb_spec MAXVA va); [by rewrite decide_False by lia|].
  rewrite ex_leaf_eq by lia. case_decide; [|done]. rewrite (Z.mod_small va) by lia. reflexivity.
Qed.

Lemma ex_user_page : user_page ex_kend ex_T ex_free ex_data.
Proof.
  split_and!.
  - apply ex_page_ok. by repeat (left || right).
  - unfold ex_free. rewrite !elem_of_cons, elem_of_nil. vm_compute. intuition congruence.
  - intros b Hb. ex_cases Hb; discriminate.
Qed.

Lemma ex_uspace : uspace ex_kend ex_kmem ex_root ex_T ex_free.
Proof.
  split.
  - exact ex_vm_inv.
  - intros va pa Hva. rewrite ex_uaddr by done. case_decide; intros; simplify_eq.
    rewrite (Z.mod_small va) by lia. replace (ex_data + va - va) with ex_data by lia.
    exact ex_user_page.
  - intros va vb pa Ha Hb. rewrite !ex_uaddr by done. repeat case_decide; intros; simplify_eq. lia.
Qed.

Lemma ex_kend_pos : 0 < ex_kend.
Proof. reflexivity. Qed.

Definition ex_T2 : gmap (list Z) Z := {[ [] := ex_new ]}.

Lemma ex_new_vm_inv : vm_inv ex_kend ex_kmem ex_new ex_T2 ex_free.
Proof.
  assert (HT : forall a p, ex_T2 !! a = Some p -> a = [] /\ p = ex_new).
  { intros a p H. unfold ex_T2 in H. by apply lookup_singleton_Some in H as [<- <-]. }
  split.
  - apply ex_vm_inv.
  - split.
    + reflexivity.
    + intros a b p [-> ->]%HT [-> _]%HT. done.
    + intros a p [_ ->]%HT. apply ex_page_ok. by repeat (left || right).
    + intros a p [-> _]%HT. simpl. lia.
    + intros a p [-> _]%HT. constructor.
    + intros i b p [? _]%HT. done.
    + intros a i p [? _]%HT. by destruct a.
    + intros a p i [-> ->]%HT _ Hi. unfold pt_next. rewrite ex_word by done.
      destruct (ex_T2 !! _) as [q|] eqn:Eq; [apply HT in Eq as [? _]; done|].
      case_decide; reflexivity.
  - intros a p [_ ->]%HT. unfold ex_free. rewrite !elem_of_cons, elem_of_nil.
    vm_compute. intuition congruence.
Qed.

Lemma ex_pages2 p : pages_of ex_T2 ex_free p -> p = ex_new \/ p ∈ ex_free.
Proof.
  intros [?|[b Hb]]; auto. unfold ex_T2 in Hb. apply lookup_singleton_Some in Hb as [_ <-]. auto.
Qed.

Lemma ex_copy_source : copy_source ex_kend ex_kmem ex_root ex_T 1 (pages_of ex_T2 ex_free).
Proof.
  assert (Hl : forall va, 0 <= va < 4096 * Z.of_nat 1 -> leaf (ram ex_kmem) ex_T va = ex_leaf).
  { intros va Hva. pose proof MAXVA_eq. rewrite ex_leaf_eq by lia. by rewrite decide_True by lia. }
  assert (Hap : forall p, p ∈ [ex_root; ex_p1; ex_p2; ex_data] -> ~ pages_of ex_T2 ex_free p).
  { intros p Hp Hq%ex_pages2. revert Hp Hq. unfold ex_free. rewrite !elem_of_cons, !elem_of_nil.
    vm_compute. intuition congruence. }
  split.
  - exact ex_pt_inv.
  - intros b p Hb. ex_cases Hb; apply Hap; by repeat (left || right).
  - intros va Hva. rewrite Hl by done. vm_compute. intuition congruence.
  - intros va Hva. rewrite Hl by done. split.
    + apply ex_page_ok. change (PTE2PA ex_leaf) with ex_data. by repeat (left || right).
    + apply Hap. change (PTE2PA ex_leaf) with ex_data. by repeat (left || right).
Qed.
