(* ===== verification/VmThms.v ===== *)
(** * The theorems of the virtual-memory component

    What the kernel relies on when it calls vm.c: mapping, growing, copying
    and freeing address spaces, and moving bytes between the kernel and user
    memory.  The lemmas are in [VmSpec], [VmUser], [VmCopy] and [VmFree]; the
    witnesses run on the state of [VmExample]. *)

From stdpp Require Import base list gmap strings.
From Stdlib Require Import ZArith Lia.
From S2P Require Import Prelude Mem Layout Kalloc Vm VmSpec VmUser VmCopy VmFree VmExample.
Open Scope Z_scope.

(** [mappages] on an unmapped, page-covered range terminates; on success
    it has set exactly the leaf entries of the pages of [[va, va+size)] to
    consecutive physical pages with the given permissions, and on failure (only
    when the free list ran dry) a prefix of them; the page-table tree stays
    well formed, and page-table pages come off the free list. *)
Theorem mappages_correct kend k root T l va size pa perm (n : nat) : 0 < kend ->
  vm_inv kend k root T l -> 0 <= va -> 0 < size -> va + size <= MAXVA -> 0 <= perm < 1024 ->
  pa mod 4096 = 0 -> 0 <= pa -> pa + 4096 * Z.of_nat n < 2 ^ 56 ->
  (va + size - 1) / 4096 - va / 4096 = Z.of_nat n ->
  (forall v, va / 4096 <= v / 4096 <= (va + size - 1) / 4096 ->
     Z.land (leaf (ram k) T v) PTE_V = 0) ->
  returns (mappages root va size pa perm) k (fun r k' =>
    exists T' l' j, vm_inv kend k' root T' l' /\ vm_grow k T l k' T' l' /\
    (forall v, 0 <= v < MAXVA ->
       leaf (ram k') T' v = mapped (leaf (ram k) T) (va - va mod 4096) j pa perm v) /\
    (length l <= length l' + 2 * (n + 1))%nat /\
    ((r = 0 /\ j = Z.of_nat n + 1) \/ (r = -1 /\ 0 <= j <= Z.of_nat n /\ l' = []))).
Proof. intros Hend. exact (mappages_ok kend Hend k root T l va size pa perm n). Qed.

Lemma mappages_correct_witness :
  returns (mappages ex_root 4096 4096 ex_new PTE_R) ex_kmem (fun r k' =>
    exists T' l' j, vm_inv ex_kend k' ex_root T' l' /\ vm_grow ex_kmem ex_T ex_free k' T' l' /\
    (forall v, 0 <= v < MAXVA ->
       leaf (ram k') T' v = mapped (leaf (ram ex_kmem) ex_T) (4096 - 4096 mod 4096) j ex_new PTE_R v) /\
    (length ex_free <= length l' + 2 * (0 + 1))%nat /\
    ((r = 0 /\ j = Z.of_nat 0 + 1) \/ (r = -1 /\ 0 <= j <= Z.of_nat 0 /\ l' = []))).
Proof.
  apply (mappages_correct ex_kend ex_kmem ex_root ex_T ex_free 4096 4096 ex_new PTE_R 0);
    [exact ex_kend_pos|exact ex_vm_inv|lia|lia|vm_compute; congruence|vm_compute; intuition congruence
    |reflexivity|vm_compute; congruence|reflexivity|reflexivity|].
  intros v Hv. assert (4096 <= v < 8192) by (Z.div_mod_to_equations; lia). pose proof MAXVA_eq.
  rewrite ex_leaf_eq by lia. by rewrite decide_False by lia.
Defined.

(** C21: [uvmalloc] from [oldsz] to [newsz], with nothing mapped above
    [oldsz]: it returns [newsz] with every page of the new range mapped
    user-readable, writable and executable to its own zeroed page, or 0 with
    the mappings and the set of allocated pages as before. *)
Theorem uvmalloc_correct kend k root T l oldsz newsz (n : nat) : 0 < kend ->
  vm_inv kend k root T l -> 0 <= oldsz <= newsz -> newsz <= MAXVA ->
  PGROUNDUP newsz - PGROUNDUP oldsz = 4096 * Z.of_nat n ->
  (forall va, PGROUNDUP oldsz <= va < PGROUNDUP newsz -> leaf (ram k) T va = 0) ->
  returns (uvmalloc kend root oldsz newsz) k (fun r k' => exists T' l' ds,
    grown kend k T l root (leaf (ram k) T)
      (fun _ => Z.lor (Z.lor (Z.lor PTE_W PTE_X) PTE_R) PTE_U) (fun _ _ => 0)
      (PGROUNDUP oldsz) ds k' T' l' /\
    ((r = newsz /\ length ds = n) \/ (r = 0 /\ ds = []))).
Proof. intros Hend. exact (uvmalloc_ok kend Hend k root T l oldsz newsz n). Qed.

Lemma uvmalloc_correct_witness :
  returns (uvmalloc ex_kend ex_root 4096 5000) ex_kmem (fun r k' => exists T' l' ds,
    grown ex_kend ex_kmem ex_T ex_free ex_root (leaf (ram ex_kmem) ex_T)
      (fun _ => Z.lor (Z.lor (Z.lor PTE_W PTE_X) PTE_R) PTE_U) (fun _ _ => 0)
      (PGROUNDUP 4096) ds k' T' l' /\
    ((r = 5000 /\ length ds = 1%nat) \/ (r = 0 /\ ds = []))).
Proof.
  apply (uvmalloc_correct ex_kend ex_kmem ex_root ex_T ex_free 4096 5000 1);
    [exact ex_kend_pos|exact ex_vm_inv|lia|vm_compute; congruence|reflexivity|].
  change (PGROUNDUP 4096) with 4096. change (PGROUNDUP 5000) with 8192.
  intros va Hva. pose proof MAXVA_eq. rewrite ex_leaf_eq by lia. by rewrite decide_False by lia.
Defined.

(** C9: [uvmcopy] (the memory half of fork): the child gets, page by page, a
    private copy of the parent's bytes under the parent's permissions, and
    the parent's page table and memory are untouched; when memory runs out it
    returns -1 with everything it took given back. *)
Theorem uvmcopy_correct kend k old new To T l sz (n : nat) : 0 < kend ->
  vm_inv kend k new T l -> copy_source kend k old To n (pages_of T l) ->
  0 <= sz <= MAXVA -> PGROUNDUP sz = 4096 * Z.of_nat n ->
  (forall va, 0 <= va < PGROUNDUP sz -> leaf (ram k) T va = 0) ->
  returns (uvmcopy kend old new sz) k (fun r k' => exists T' l' ds,
    grown kend k T l new (leaf (ram k) T) (src_perm k To n) (src_byte k To) 0 ds k' T' l' /\
    pt_inv kend (ram k') old To /\ (forall va, leaf (ram k') To va = leaf (ram k) To va) /\
    ((r = 0 /\ length ds = n) \/ (r = -1 /\ ds = []))).
Proof. intros Hend. exact (uvmcopy_ok kend Hend k old new To T l sz n). Qed.

Lemma uvmcopy_correct_witness :
  returns (uvmcopy ex_kend ex_root ex_new 4096) ex_kmem (fun r k' => exists T' l' ds,
    grown ex_kend ex_kmem ex_T2 ex_free ex_new (leaf (ram ex_kmem) ex_T2)
      (src_perm ex_kmem ex_T 1) (src_byte ex_kmem ex_T) 0 ds k' T' l' /\
    pt_inv ex_kend (ram k') ex_root ex_T /\
    (forall va, leaf (ram k') ex_T va = leaf (ram ex_kmem) ex_T va) /\
    ((r = 0 /\ length ds = 1%nat) \/ (r = -1 /\ ds = []))).
Proof.
  apply (uvmcopy_correct ex_kend ex_kmem ex_root ex_new ex_T ex_T2 ex_free 4096 1);
    [exact ex_kend_pos|exact ex_new_vm_inv|exact ex_copy_source|vm_compute; intuition congruence
    |reflexivity|].
  intros va _. unfold leaf, ex_T2. by rewrite lookup_singleton_ne.
Defined.

(** C22: moving bytes out to user memory and reading them back.  [copyout]
    succeeds exactly when every destination byte is mapped for the user; then
    the user sees the bytes there, no other user byte and no memory outside
    the user's pages has changed, and [copyin] of the same range returns
    exactly these bytes. *)
Theorem copyout_copyin_roundtrip kend k root T l va bs : 0 < kend ->
  uspace kend k root T l -> 0 <= va < 2 ^ 64 ->
  returns (let! r := copyout root va bs in
           let! p := copyin root va (Z.of_nat (length bs)) in retM (r, p)) k
    (fun '(r, (r', bs')) k' => uspace kend k' root T l /\
      (r = 0 \/ r = -1) /\
      (r = 0 <-> forall i, (i < length bs)%nat -> is_Some (uaddr (ram k) T (va + Z.of_nat i))) /\
      (r = 0 -> wrote k k' T va bs /\ r' = 0 /\ bs' = bs)).
Proof.
  intros Hend Hs Hva.
  eapply returns_seq; [apply (copyout_loop_ok kend Hend root T l _ k va bs Hs Hva); lia|].
  intros r k1 (Hs1 & n & Hn & Hw & Hr).
  destruct (copyin_loop_ok kend Hend k1 root T l (Z.to_nat (Z.of_nat (length bs)) + 1) Hs1 [] va
    (Z.of_nat (length bs)) Hva ltac:(lia)) as (r' & bs' & Hin & Hrd & Hr').
  unfold returns, copyin. rewrite (bindM_ok _ _ _ _ _ Hin). simpl.
  pose proof (uaddr_leaf _ _ _ (wr_leaf _ _ _ _ _ Hw)) as Hua.
  split_and!; [done|tauto| |].
  - split; [intros ->|].
    + intros i Hi. destruct Hr as [[_ ->]|[? _]]; [|done]. rewrite take_ge in Hw by lia.
      pose proof (wr_umem _ _ _ _ _ Hw (va + Z.of_nat i) ltac:(lia)) as Hu.
      unfold uwrite in Hu. rewrite decide_True in Hu by lia.
      unfold umem in Hu. apply fmap_Some in Hu as (pa & Hpa & _). rewrite Hua in Hpa. eauto.
    + intros Hall. destruct Hr as [[-> _]|(_ & Hlt & Hnone)]; [done|].
      destruct (Hall n Hlt) as [? E]. congruence.
  - intros ->. destruct Hr as [[_ ->]|[? _]]; [|done]. rewrite take_ge in Hw by lia.
    assert (Hu : forall i, (i < length bs)%nat ->
              umem (ram k1) T (va + Z.of_nat i) = Some (nth i bs 0)).
    { intros i Hi. rewrite (wr_umem _ _ _ _ _ Hw) by lia. unfold uwrite.
      rewrite decide_True by lia. do 2 f_equal. lia. }
    destruct Hr' as [[-> Hlen]|(_ & Hlt & Hnone)].
    + split_and!; [done|done|]. apply list_eq. intros i.
      destruct (bs' !! i) as [b|] eqn:E.
      * pose proof (Hrd _ _ E) as Hb. pose proof (lookup_lt_Some _ _ _ E).
        rewrite Hu in Hb by lia. simplify_eq. destruct (nth_lookup_or_length bs i 0); [done|lia].
      * symmetry. apply lookup_ge_None in E. apply lookup_ge_None. lia.
    + specialize (Hu (length bs') ltac:(lia)). unfold umem in Hu. by rewrite Hnone in Hu.
Qed.

Lemma copyout_copyin_roundtrip_witness :
  returns (let! r := copyout ex_root 100 [104; 105] in
           let! p := copyin ex_root 100 2 in retM (r, p)) ex_kmem
    (fun '(r, (r', bs')) k' => uspace ex_kend k' ex_root ex_T ex_free /\
      (r = 0 \/ r = -1) /\
      (r = 0 <-> forall i, (i < 2)%nat -> is_Some (uaddr (ram ex_kmem) ex_T (100 + Z.of_nat i))) /\
      (r = 0 -> wrote ex_kmem k' ex_T 100 [104; 105] /\ r' = 0 /\ bs' = [104; 105])).
Proof.
  apply (copyout_copyin_roundtrip ex_kend ex_kmem ex_root ex_T ex_free 100 [104; 105]);
    [exact ex_kend_pos|exact ex_uspace|lia].
Defined.

(** [copyinstr] returns 0 exactly with the NUL-terminated string the user
    has at [srcva], of at most [max] bytes, and -1 when there is no NUL among
    the first [max] bytes or an unmapped address comes first. *)
Theorem copyinstr_correct kend k root T l srcva max : 0 < kend ->
  uspace kend k root T l -> 0 <= srcva < 2 ^ 64 -> 0 <= max ->
  exists r bs, copyinstr root srcva max k = Ok (r, bs) k /\
    str_result (ram k) T srcva max r bs.
Proof.
  intros Hend Hs Hva Hm.
  apply (copyinstr_loop_ok kend Hend k root T l _ Hs [] srcva max Hva). lia.
Qed.

Lemma copyinstr_correct_witness :
  exists r bs, copyinstr ex_root 10 8 ex_kmem = Ok (r, bs) ex_kmem /\
    str_result (ram ex_kmem) ex_T 10 8 r bs.
Proof.
  apply (copyinstr_correct ex_kend ex_kmem ex_root ex_T ex_free 10 8);
    [exact ex_kend_pos|exact ex_uspace|lia|lia].
Defined.

(** C23: [uvmfree] of an address space returns every page to the allocator:
    afterwards the free list holds exactly the pages that were free, the
    page-table pages and the mapped user pages, each once. *)
Theorem uvmfree_no_leak kend k root T l ds perm sz : 0 < kend ->
  vm_inv kend k root T l -> (forall i, good_perm (perm i)) -> 0 <= sz <= MAXVA ->
  PGROUNDUP sz = 4096 * Z.of_nat (length ds) ->
  (forall va, 0 <= va < MAXVA -> leaf (ram k) T va = mapped_list (fun _ => 0) 0 ds perm va) ->
  NoDup ds -> Forall (user_page kend T l) ds ->
  returns (uvmfree kend root sz) k (fun _ k' => exists l', kmem_inv kend k' l' /\
    (forall p, p ∈ l' <-> pages_of T l p \/ p ∈ ds) /\
    forall x, (forall b p, T !! b = Some p -> off_page p x) ->
      Forall (fun d => off_page d x) ds -> mget (ram k') x = mget (ram k) x).
Proof. intros Hend. exact (uvmfree_ok kend Hend k root T l ds perm sz). Qed.

Lemma uvmfree_no_leak_witness :
  returns (uvmfree ex_kend ex_root 4096) ex_kmem (fun _ k' => exists l', kmem_inv ex_kend k' l' /\
    (forall p, p ∈ l' <-> pages_of ex_T ex_free p \/ p ∈ [ex_data]) /\
    forall x, (forall b p, ex_T !! b = Some p -> off_page p x) ->
      Forall (fun d => off_page d x) [ex_data] -> mget (ram k') x = mget (ram ex_kmem) x).
Proof.
  apply (uvmfree_no_leak ex_kend ex_kmem ex_root ex_T ex_free [ex_data] (fun _ => 22) 4096);
    [exact ex_kend_pos|exact ex_vm_inv|intros _; vm_compute; intuition congruence
    |vm_compute; intuition congruence|reflexivity| |apply NoDup_singleton|].
  - intros va Hva. rewrite ex_leaf_eq by done. unfold mapped_list. cbn [length].
    repeat case_decide; try lia. rewrite Z.sub_0_r, Z.div_small by lia. reflexivity.
  - constructor; [exact ex_user_page|constructor].
Defined.
