(* ===== verification/Sleeplock.v ===== *)
(** * Sleep locks (kernel/sleeplock.c)

    The fields the spinlock [lk->lk] protects, and the four routines as
    functions of the calling process's pid.  Each body runs between [acquire]
    and [release] of [lk->lk], so it is one atomic step; [acquiresleep] on a
    held lock goes to sleep ([Block]). *)

From stdpp Require Import base list strings.
From Stdlib Require Import ZArith Lia.
From S2P Require Import Prelude.
Open Scope Z_scope.

Record sleeplock := mk_sleeplock { locked : Z; lk_pid : Z }.

#[export] Instance sleeplock_eq_dec : EqDecision sleeplock.
Proof. solve_decision. Defined.

Definition initsleeplock : sleeplock := mk_sleeplock 0 0.

Definition acquiresleep (mypid : Z) : M sleeplock unit := fun lk =>
  if negb (locked lk =? 0) then Block lk else Ok tt (mk_sleeplock 1 mypid).

Definition releasesleep : M sleeplock unit := fun _ => Ok tt (mk_sleeplock 0 0).

Definition holdingsleep (mypid : Z) (lk : sleeplock) : bool :=
  negb (locked lk =? 0) && (lk_pid lk =? mypid).

Definition is_free (lk : sleeplock) : Prop := locked lk = 0.
Definition held_by (pid : Z) (lk : sleeplock) : Prop := locked lk <> 0 /\ lk_pid lk = pid.

Lemma holdingsleep_spec pid lk : holdingsleep pid lk = true <-> held_by pid lk.
Proof. unfold holdingsleep, held_by. rewrite andb_true_iff, negb_true_iff, Z.eqb_neq, Z.eqb_eq. done. Qed.

Lemma acquiresleep_free pid lk : is_free lk ->
  acquiresleep pid lk = Ok tt (mk_sleeplock 1 pid).
Proof. unfold is_free, acquiresleep. by intros ->. Qed.

Lemma held_acquired pid : held_by pid (mk_sleeplock 1 pid).
Proof. done. Qed.

(** At most one process at a time holds a sleep lock, over any history of
    calls in which a process releases only a lock it holds: the holder changes
    only by its own release. *)
Inductive sl_step : sleeplock -> sleeplock -> Prop :=
  | sl_acquire pid lk lk' : acquiresleep pid lk = Ok tt lk' -> sl_step lk lk'
  | sl_release pid lk lk' : holdingsleep pid lk = true -> releasesleep lk = Ok tt lk' -> sl_step lk lk'.

Lemma sl_acquire_excl pid lk lk' : acquiresleep pid lk = Ok tt lk' ->
  is_free lk /\ held_by pid lk'.
Proof.
  unfold acquiresleep, is_free. destruct (Z.eqb_spec (locked lk) 0); simpl; [|done].
  intros [= <-]. by split.
Qed.
