(* ===== verification/FsFormat.v ===== *)
(** * The on-disk format (kernel/fs.h, kernel/stat.h)

    Constants and structures of the file system, with the byte layout the C
    compiler gives them: little-endian fields at the offsets of the
    structures' members. *)

From stdpp Require Import base list strings.
From Stdlib Require Import ZArith Lia.
From S2P Require Import Prelude.
Open Scope Z_scope.

Definition ROOTINO : Z := 1.
Definition BSIZE : Z := 1024.
Definition FSMAGIC : Z := 0x10203040.

Record superblock := mk_superblock {
  sb_magic : Z; sb_size : Z; sb_nblocks : Z; sb_ninodes : Z;
  sb_nlog : Z; sb_logstart : Z; sb_inodestart : Z; sb_bmapstart : Z;
}.

Definition NDIRECT : Z := 12.
Definition NINDIRECT : Z := BSIZE / 4.
Definition MAXFILE : Z := NDIRECT + NINDIRECT.

(** [struct dinode]: 64 bytes. *)
Record dinode := mk_dinode {
  di_type : Z; di_major : Z; di_minor : Z; di_nlink : Z; di_size : Z;
  di_addrs : list Z;   (* NDIRECT + 1 *)
}.
Definition sizeof_dinode : Z := 64.

Definition IPB : Z := BSIZE / sizeof_dinode.
Definition IBLOCK (i : Z) (sb : superblock) : Z := u32 (i / IPB + sb_inodestart sb).
Definition BPB : Z := BSIZE * 8.
Definition BBLOCK (b : Z) (sb : superblock) : Z := u32 (b / BPB + sb_bmapstart sb).

Definition DIRSIZ : Z := 14.
(** [struct dirent]: a 16-bit inode number and [DIRSIZ] name bytes. *)
Record dirent := mk_dirent { de_inum : Z; de_name : list Z }.
Definition sizeof_dirent : Z := 16.

Definition T_DIR : Z := 1.
Definition T_FILE : Z := 2.
Definition T_DEVICE : Z := 3.

(** Reading the structures from bytes and writing them. *)
Definition sb_of_bytes (bs : list Z) : superblock :=
  mk_superblock (get32 0 bs) (get32 4 bs) (get32 8 bs) (get32 12 bs)
    (get32 16 bs) (get32 20 bs) (get32 24 bs) (get32 28 bs).

Definition dinode_at (off : Z) (bs : list Z) : dinode :=
  mk_dinode (s16 (get16 off bs)) (s16 (get16 (off + 2) bs)) (s16 (get16 (off + 4) bs))
    (s16 (get16 (off + 6) bs)) (get32 (off + 8) bs)
    ((fun k => get32 (off + 12 + 4 * k) bs) <$> seqZ 0 (NDIRECT + 1)).

Definition put_addrs (off : Z) (addrs : list Z) (bs : list Z) : list Z :=
  foldl (fun bs k => put32 (off + 4 * Z.of_nat k) (nth k addrs 0) bs) bs (seq 0 (Z.to_nat (NDIRECT + 1))).

Definition put_dinode (off : Z) (d : dinode) (bs : list Z) : list Z :=
  put_addrs (off + 12) (di_addrs d)
    (put32 (off + 8) (di_size d) (put16 (off + 6) (di_nlink d) (put16 (off + 4) (di_minor d)
      (put16 (off + 2) (di_major d) (put16 off (di_type d) bs))))).

Definition dirent_of_bytes (bs : list Z) : dirent :=
  mk_dirent (get16 0 bs) (take (Z.to_nat DIRSIZ) (drop 2 bs)).
Definition bytes_of_dirent (de : dirent) : list Z := le_bytes 2 (de_inum de) ++ de_name de.
