(* ===== verification/DList.v ===== *)
(** * Circular linked lists through an array of links

    [linked f i l j]: following [f] from [i] visits the nodes [l] in order and
    then arrives at [j].  A circular list with head [h] is [linked f h l h].
    The lemmas say what the pointer assignments of an unlink and of an
    insertion at either end do to the visited list. *)

From stdpp Require Import base list.
From Stdlib Require Import Lia.

Fixpoint linked (f : nat -> nat) (i : nat) (l : list nat) (j : nat) : Prop :=
  match l with
  | [] => f i = j
  | x :: l => f i = x /\ linked f x l j
  end.

Definition fupd (f : nat -> nat) (a v : nat) : nat -> nat :=
  fun x => if decide (x = a) then v else f x.

Lemma fupd_eq f a v : fupd f a v a = v.
Proof. unfold fupd. by rewrite decide_True. Qed.
Lemma fupd_ne f a v x : x <> a -> fupd f a v x = f x.
Proof. intros. unfold fupd. by rewrite decide_False. Qed.

Lemma linked_ext f g i l j : (forall x, x ∈ i :: l -> f x = g x) ->
  linked f i l j -> linked g i l j.
Proof.
  revert i; induction l as [|x l IH]; simpl; intros i H Hl.
  - rewrite <- H; [done|apply list_elem_of_here].
  - destruct Hl as [<- Hl]. split; [symmetry; apply H, list_elem_of_here|].
    apply IH; [|done]. intros y Hy. apply H. by right.
Qed.

Lemma linked_app f i l1 x l2 j :
  linked f i (l1 ++ x :: l2) j <-> linked f i l1 x /\ linked f x l2 j.
Proof.
  revert i; induction l1 as [|y l1 IH]; simpl; intros i; [done|].
  rewrite IH. tauto.
Qed.

(** The last node before the end. *)
Fixpoint lastn (i : nat) (l : list nat) : nat :=
  match l with
  | [] => i
  | x :: l => lastn x l
  end.

Lemma lastn_elem i l : lastn i l ∈ i :: l.
Proof.
  revert i; induction l as [|x l IH]; intros i; simpl; [apply list_elem_of_here|].
  right. apply IH.
Qed.

Lemma lastn_app i l x : lastn i (l ++ [x]) = x.
Proof. revert i; induction l; simpl; auto. Qed.

Lemma linked_last f i l j : linked f i l j -> f (lastn i l) = j.
Proof. revert i; induction l as [|x l IH]; intros i; [done|]. intros [_ Hl]. by apply IH. Qed.

(** Redirecting the last link. *)
Lemma linked_redirect f i l j v : NoDup (i :: l) -> linked f i l j ->
  linked (fupd f (lastn i l) v) i l v.
Proof.
  revert i; induction l as [|x l IH]; intros i Hnd; [intros; apply fupd_eq|].
  intros [Hi Hl]. apply NoDup_cons in Hnd as [Hni Hnd']. simpl. split; [|by apply IH].
  rewrite fupd_ne; [done|]. intros E. apply Hni. rewrite E at 1. apply lastn_elem.
Qed.

(** Joining two runs. *)
Lemma linked_join f i l1 x l2 j : linked f i l1 x -> linked f x l2 j ->
  linked f i (l1 ++ x :: l2) j.
Proof. intros. by apply linked_app. Qed.

(** Unlinking [x]: its predecessor points to its successor. *)
Lemma linked_remove f i l1 x l2 j : NoDup (i :: l1 ++ x :: l2) ->
  linked f i (l1 ++ x :: l2) j ->
  linked (fupd f (lastn i l1) (f x)) i (l1 ++ l2) j.
Proof.
  intros Hnd [H1 H2]%linked_app.
  assert (Hp : lastn i l1 ∈ i :: l1) by apply lastn_elem.
  assert (Hnd1 : NoDup (i :: l1)).
  { rewrite app_comm_cons in Hnd. by apply NoDup_app in Hnd as [? _]. }
  pose proof (linked_redirect _ _ _ _ (f x) Hnd1 H1) as H1'.
  destruct l2 as [|y l2]; simpl in H2.
  - by rewrite app_nil_r, <- H2 in *.
  - destruct H2 as [<- H2]. apply linked_app. split; [done|].
    eapply linked_ext; [|exact H2]. intros z Hz. rewrite fupd_ne; [done|]. intros ->.
    rewrite app_comm_cons in Hnd. apply NoDup_app in Hnd as (_ & Hnd & _).
    apply (Hnd _ Hp). by right.
Qed.

(** Inserting [x] right after the head. *)
Lemma linked_push f i l j x : x ∉ i :: l -> i ∉ l -> linked f i l j ->
  linked (fupd (fupd f x (f i)) i x) i (x :: l) j.
Proof.
  intros Hx Hi Hl. split; [apply fupd_eq|].
  assert (x <> i) by (intros ->; apply Hx, list_elem_of_here).
  destruct l as [|y l]; simpl in *.
  - by rewrite fupd_ne, fupd_eq.
  - destruct Hl as [Hy Hl]. rewrite fupd_ne, fupd_eq by done. split; [done|].
    eapply linked_ext; [|exact Hl]. intros z Hz.
    rewrite !fupd_ne; [done| |]; intros ->; [apply Hx; by right|done].
Qed.

(** Appending [x] at the far end. *)
Lemma linked_snoc f i l j x : x ∉ i :: l -> NoDup (i :: l) -> linked f i l j ->
  linked (fupd (fupd f x j) (lastn i l) x) i (l ++ [x]) j.
Proof.
  intros Hx Hnd Hl. apply linked_app. simpl.
  assert (Hne : x <> lastn i l) by (intros ->; apply Hx, lastn_elem).
  split; [|by rewrite fupd_ne, fupd_eq].
  apply (linked_redirect _ _ _ j); [done|]. eapply linked_ext; [|exact Hl].
  intros y Hy. rewrite fupd_ne; [done|]. by intros ->.
Qed.

(** The first step of a run over a reversed list. *)
Lemma linked_first f i l j : linked f i l j -> f i = lastn j (reverse l).
Proof.
  destruct l as [|x l]; simpl; [done|]. intros [-> _]. by rewrite reverse_cons, lastn_app.
Qed.
