(* ===== verification/Bio.v ===== *)
(** * The buffer cache (kernel/bio.c)

    The cache is an array of [NBUF] buffers and a list head, linked into a
    circular doubly linked list by [prev] and [next]; pointers are indices
    into the array, [HEAD] being the list head.  The disk behind it is a map
    from block numbers to block contents with the history of the writes made
    to it, from which every state a crash can leave is read off.

    Critical sections under [bcache.lock] are atomic steps; [acquiresleep] on
    a buffer someone else holds is a [Block]. *)

From stdpp Require Import base list gmap strings.
From Stdlib Require Import ZArith Lia.
From S2P Require Import Prelude Layout Sleeplock FsFormat.
Open Scope Z_scope.

Definition bsize : nat := 1024.
Definition nbuf : nat := Z.to_nat NBUF.
Definition HEAD : nat := nbuf.

Record buf := mk_buf {
  valid : Z;
  dev : Z;
  blockno : Z;
  lock : sleeplock;
  refcnt : Z;
  prev : nat;
  next : nat;
  data : list Z;
}.

(** Field assignments. *)
Definition set_valid (v : Z) (b : buf) := mk_buf v (dev b) (blockno b) (lock b) (refcnt b) (prev b) (next b) (data b).
Definition set_lock (lk : sleeplock) (b : buf) := mk_buf (valid b) (dev b) (blockno b) lk (refcnt b) (prev b) (next b) (data b).
Definition set_refcnt (r : Z) (b : buf) := mk_buf (valid b) (dev b) (blockno b) (lock b) r (prev b) (next b) (data b).
Definition set_prev (p : nat) (b : buf) := mk_buf (valid b) (dev b) (blockno b) (lock b) (refcnt b) p (next b) (data b).
Definition set_next (p : nat) (b : buf) := mk_buf (valid b) (dev b) (blockno b) (lock b) (refcnt b) (prev b) p (data b).
Definition set_data (d : list Z) (b : buf) := mk_buf (valid b) (dev b) (blockno b) (lock b) (refcnt b) (prev b) (next b) d.

Definition zero_block : list Z := replicate bsize 0.
Definition buf0 : buf := mk_buf 0 0 0 (mk_sleeplock 0 0) 0 0 0 zero_block.

(** The disk: contents by block number and the writes made so far, oldest
    first. *)
Record disk := mk_disk { blocks : gmap Z (list Z); writes : list (Z * list Z) }.
Definition dread (d : disk) (b : Z) : list Z := default zero_block (blocks d !! b).
Definition dwrite (b : Z) (v : list Z) (d : disk) : disk :=
  mk_disk (<[b := v]> (blocks d)) (writes d ++ [(b, v)]).

(** The state: cache nodes (the head is the last), disk, and the pid of the
    process that runs. *)
Record bio := mk_bio { nodes : list buf; dsk : disk; mypid : Z }.

Definition node (s : bio) (i : nat) : buf := nth i (nodes s) buf0.
Definition upd (i : nat) (f : buf -> buf) (s : bio) : bio :=
  mk_bio (alter f i (nodes s)) (dsk s) (mypid s).
Definition set_dsk (f : disk -> disk) (s : bio) : bio := mk_bio (nodes s) (f (dsk s)) (mypid s).

Definition getf {A} (i : nat) (f : buf -> A) : M bio A := getM (fun s => f (node s i)).
Definition setf (i : nat) (f : buf -> buf) : M bio unit := modifyM (upd i f).

(** A sleep lock inside a buffer. *)
Definition on_lock {A} (i : nat) (m : Z -> M sleeplock A) : M bio A := fun s =>
  zoomM (fun s => lock (node s i)) (fun lk => upd i (set_lock lk)) (m (mypid s)) s.

(** [binit] *)
Definition binit_buf (b : nat) : M bio unit :=
  let! hn := getf HEAD next in
  do! setf b (set_next hn) in
  do! setf b (set_prev HEAD) in
  do! setf b (set_lock initsleeplock) in
  let! hn := getf HEAD next in
  do! setf hn (set_prev b) in
  setf HEAD (set_next b).
Definition binit : M bio unit :=
  do! setf HEAD (set_prev HEAD) in
  do! setf HEAD (set_next HEAD) in
  for_each (seq 0 nbuf) binit_buf.

(** The two scans of [bget]: along [next] for a cached copy, along [prev] for
    an unused buffer. *)
Fixpoint bget_cached (d bn : Z) (b : nat) (fuel : nat) : M bio (option nat) :=
  match fuel with
  | O => fun _ => NoFuel
  | S fuel =>
      if decide (b = HEAD) then retM None
      else
        let! n := getM (fun s => node s b) in
        if (dev n =? d) && (blockno n =? bn) then retM (Some b)
        else bget_cached d bn (next n) fuel
  end.
Fixpoint bget_unused (b : nat) (fuel : nat) : M bio (option nat) :=
  match fuel with
  | O => fun _ => NoFuel
  | S fuel =>
      if decide (b = HEAD) then retM None
      else
        let! n := getM (fun s => node s b) in
        if refcnt n =? 0 then retM (Some b)
        else bget_unused (prev n) fuel
  end.

(** Each scan visits at most [NBUF] buffers and the head. *)
Definition bget (d bn : Z) : M bio nat :=
  let! h := getf HEAD next in
  let! hit := bget_cached d bn h (nbuf + 1) in
  match hit with
  | Some b =>
      let! r := getf b refcnt in
      do! setf b (set_refcnt (u32 (r + 1))) in
      do! on_lock b acquiresleep in
      retM b
  | None =>
      let! h := getf HEAD prev in
      let! free := bget_unused h (nbuf + 1) in
      match free with
      | Some b =>
          do! setf b (fun n => mk_buf 0 d bn (lock n) 1 (prev n) (next n) (data n)) in
          do! on_lock b acquiresleep in
          retM b
      | None => panicM "bget: no buffers"
      end
  end.

(** [virtio_disk_rw] as the cache uses it: a synchronous transfer of the
    block between the buffer and the disk. *)
Definition disk_rw (b : nat) (write : bool) : M bio unit :=
  let! n := getM (fun s => node s b) in
  if write then modifyM (set_dsk (dwrite (blockno n) (data n)))
  else
    let! v := getM (fun s => dread (dsk s) (blockno n)) in
    setf b (set_data v).

Definition bread (d bn : Z) : M bio nat :=
  let! b := bget d bn in
  let! v := getf b valid in
  if v =? 0 then
    do! disk_rw b false in
    do! setf b (set_valid 1) in
    retM b
  else retM b.

Definition bwrite (b : nat) : M bio unit :=
  let! h := getM (fun s => holdingsleep (mypid s) (lock (node s b))) in
  if negb h then panicM "bwrite" else disk_rw b true.

(** The assignments of [brelse] that move [b] to the front of the list. *)
Definition bmove_front (b : nat) : M bio unit :=
  let! bn := getf b next in
  let! bp := getf b prev in
  do! setf bn (set_prev bp) in
  let! bp := getf b prev in
  let! bn := getf b next in
  do! setf bp (set_next bn) in
  let! hn := getf HEAD next in
  do! setf b (set_next hn) in
  do! setf b (set_prev HEAD) in
  let! hn := getf HEAD next in
  do! setf hn (set_prev b) in
  setf HEAD (set_next b).

Definition brelse (b : nat) : M bio unit :=
  let! h := getM (fun s => holdingsleep (mypid s) (lock (node s b))) in
  if negb h then panicM "brelse"
  else
    do! on_lock b (fun _ => releasesleep) in
    let! r := getf b refcnt in
    do! setf b (set_refcnt (u32 (r - 1))) in
    let! r := getf b refcnt in
    if r =? 0 then bmove_front b else retM tt.

Definition bpin (b : nat) : M bio unit :=
  let! r := getf b refcnt in setf b (set_refcnt (u32 (r + 1))).
Definition bunpin (b : nat) : M bio unit :=
  let! r := getf b refcnt in setf b (set_refcnt (u32 (r - 1))).
