(* ===== verification/BioSpec.v ===== *)
(** * The buffer cache: invariant and specifications

    The links form one circular list of all the buffers, most recently used
    first ([ord]); no block is cached twice; an unreferenced valid buffer
    agrees with the disk.  The operations are specified by what they do to
    the buffers apart from the links ([core]), and by the logical content
    [bview] of a block, which is what a reader of the cache gets. *)

From stdpp Require Import base list gmap strings.
From Stdlib Require Import ZArith Lia.
From S2P Require Import Prelude Layout Sleeplock DList Bio.
Open Scope Z_scope.

(** A buffer without its links. *)
Definition core (n : buf) : buf := set_prev 0 (set_next 0 n).

Lemma core_eq n n' : core n = core n' <->
  valid n = valid n' /\ dev n = dev n' /\ blockno n = blockno n' /\ lock n = lock n' /\
  refcnt n = refcnt n' /\ data n = data n'.
Proof. destruct n, n'; unfold core, set_prev, set_next; simpl. split; [by intros [= -> -> -> -> -> ->]|naive_solver]. Qed.

Lemma length_upd i f s : length (nodes (upd i f s)) = length (nodes s).
Proof. apply length_alter. Qed.

Lemma node_upd i f s j : (i < length (nodes s))%nat ->
  node (upd i f s) j = if decide (j = i) then f (node s j) else node s j.
Proof.
  intros Hi. unfold node, upd; simpl. rewrite !nth_lookup. case_decide as E.
  - subst. rewrite list_lookup_alter_eq. destruct (lookup_lt_is_Some_2 (nodes s) i Hi) as [n ->]. done.
  - by rewrite list_lookup_alter_ne by congruence.
Qed.

(** Invariant of the links. *)
Record lru (s : bio) (ord : list nat) : Prop := {
  lru_len : length (nodes s) = S nbuf;
  lru_perm : ord ≡ₚ seq 0 nbuf;
  lru_next : linked (fun i => next (node s i)) HEAD ord HEAD;
  lru_prev : linked (fun i => prev (node s i)) HEAD (reverse ord) HEAD;
}.

Lemma lru_elem s ord i : lru s ord -> i ∈ ord <-> (i < nbuf)%nat.
Proof. intros H. rewrite (lru_perm _ _ H), elem_of_seq. lia. Qed.

Lemma lru_nodup s ord : lru s ord -> NoDup (HEAD :: ord).
Proof.
  intros H. constructor.
  - rewrite (lru_elem s ord HEAD H). unfold HEAD. lia.
  - rewrite (lru_perm _ _ H). apply NoDup_seq.
Qed.

(** The links only depend on the link fields. *)
Lemma lru_same_links s s' ord : lru s ord -> length (nodes s') = length (nodes s) ->
  (forall i, (i <= nbuf)%nat -> next (node s' i) = next (node s i) /\ prev (node s' i) = prev (node s i)) ->
  lru s' ord.
Proof.
  intros H Hlen Hl. split.
  - rewrite Hlen. apply (lru_len _ _ H).
  - apply (lru_perm _ _ H).
  - eapply linked_ext; [|apply (lru_next _ _ H)]. intros x Hx. simpl. symmetry. apply Hl.
    apply elem_of_cons in Hx as [->|Hx]; [unfold HEAD; lia|]. apply (lru_elem s ord x H) in Hx. lia.
  - eapply linked_ext; [|apply (lru_prev _ _ H)]. intros x Hx. simpl. symmetry. apply Hl.
    apply elem_of_cons in Hx as [->|Hx]; [unfold HEAD; lia|].
    apply elem_of_reverse, (lru_elem s ord x H) in Hx. lia.
Qed.

(** ** The scans of bget *)

Lemma bget_cached_scan d bn s ord : NoDup (HEAD :: ord) -> forall fuel i l1 l2,
  ord = l1 ++ l2 -> linked (fun i => next (node s i)) i l2 HEAD -> (length l2 < fuel)%nat ->
  forall b, b = next (node s i) -> exists r, bget_cached d bn b fuel s = Ok r s /\
    match r with
    | Some b => b ∈ l2 /\ dev (node s b) = d /\ blockno (node s b) = bn
    | None => forall b, b ∈ l2 -> ~ (dev (node s b) = d /\ blockno (node s b) = bn)
    end.
Proof.
  intros Hnd. induction fuel as [|fuel IH]; intros i l1 l2 E Hl Hf b ->; [lia|].
  cbn [bget_cached]. destruct l2 as [|x l2]; simpl in Hl.
  - rewrite Hl, decide_True by done. exists None. split; [done|]. intros b ?%not_elem_of_nil. done.
  - destruct Hl as [-> Hl]. assert (x <> HEAD).
    { intros ->. apply NoDup_cons in Hnd as [Hnd _]. apply Hnd. rewrite E.
      apply elem_of_app. right. apply list_elem_of_here. }
    rewrite decide_False by done. unfold bindM, getM.
    destruct (Z.eqb_spec (dev (node s x)) d) as [Ed|Ed]; simpl.
    destruct (Z.eqb_spec (blockno (node s x)) bn) as [Eb|Eb]; simpl.
    { exists (Some x). split; [done|]. split; [apply list_elem_of_here|done]. }
    all: destruct (IH x (l1 ++ [x]) l2) with (b := next (node s x)) as (r & -> & Hr);
      [by rewrite <- app_assoc|done|simpl in Hf; lia|done|];
      exists r; (split; [done|]); destruct r as [b|];
      [destruct Hr as [Hr ?]; split; [by right|done]|];
      intros b Hb; apply elem_of_cons in Hb as [->|Hb]; [tauto|auto].
Qed.

Lemma bget_unused_scan s ord : NoDup (HEAD :: ord) -> forall fuel i l1 l2,
  reverse ord = l1 ++ l2 -> linked (fun i => prev (node s i)) i l2 HEAD -> (length l2 < fuel)%nat ->
  forall b, b = prev (node s i) -> exists r, bget_unused b fuel s = Ok r s /\
    match r with
    | Some b => exists m1 m2, l2 = m1 ++ b :: m2 /\ refcnt (node s b) = 0 /\
        forall j, j ∈ m1 -> refcnt (node s j) <> 0
    | None => forall j, j ∈ l2 -> refcnt (node s j) <> 0
    end.
Proof.
  intros Hnd. induction fuel as [|fuel IH]; intros i l1 l2 E Hl Hf b ->; [lia|].
  cbn [bget_unused]. destruct l2 as [|x l2]; simpl in Hl.
  - rewrite Hl, decide_True by done. exists None. split; [done|]. intros b ?%not_elem_of_nil. done.
  - destruct Hl as [-> Hl]. assert (x <> HEAD).
    { intros ->. apply NoDup_cons in Hnd as [Hnd _]. apply Hnd. apply elem_of_reverse. rewrite E.
      apply elem_of_app. right. apply list_elem_of_here. }
    rewrite decide_False by done. unfold bindM, getM.
    destruct (Z.eqb_spec (refcnt (node s x)) 0) as [E0|E0].
    { exists (Some x). split; [done|]. exists [], l2. split_and!; [done|done|].
      intros j ?%not_elem_of_nil. done. }
    destruct (IH x (l1 ++ [x]) l2) with (b := prev (node s x)) as (r & -> & Hr);
      [by rewrite <- app_assoc|done|simpl in Hf; lia|done|].
    exists r. split; [done|]. destruct r as [b|].
    + destruct Hr as (m1 & m2 & -> & Hr & Hm). exists (x :: m1), m2. split_and!; [done|done|].
      intros j [->|Hj]%elem_of_cons; auto.
    + intros j [->|Hj]%elem_of_cons; auto.
Qed.

(** ** Invariant of the cache *)

Definition caches (s : bio) (d bn : Z) (i : nat) : Prop :=
  (i < nbuf)%nat /\ dev (node s i) = d /\ blockno (node s i) = bn.

Record bio_inv (s : bio) (ord : list nat) : Prop := {
  bi_lru : lru s ord;
  bi_uniq : forall d bn i j, d <> 0 -> caches s d bn i -> caches s d bn j -> i = j;
  bi_valid : forall i, (i < nbuf)%nat -> valid (node s i) = 0 \/ valid (node s i) = 1;
  bi_ref : forall i, (i < nbuf)%nat -> 0 <= refcnt (node s i) < 2 ^ 32;
  bi_held : forall i, (i < nbuf)%nat -> refcnt (node s i) = 0 -> is_free (lock (node s i));
  bi_clean : forall i, (i < nbuf)%nat -> refcnt (node s i) = 0 -> valid (node s i) <> 0 ->
    data (node s i) = dread (dsk s) (blockno (node s i));
}.

(** The buffer that caches a block, and the content of a block as the cache
    presents it. *)
Definition slot (s : bio) (d bn : Z) : option nat :=
  fst <$> list_find (fun i => dev (node s i) = d /\ blockno (node s i) = bn) (seq 0 nbuf).
Definition bview (s : bio) (d bn : Z) : list Z :=
  match slot s d bn with
  | Some i => if valid (node s i) =? 0 then dread (dsk s) bn else data (node s i)
  | None => dread (dsk s) bn
  end.

Lemma slot_Some s d bn i : slot s d bn = Some i -> caches s d bn i.
Proof.
  unfold slot. intros H. apply fmap_Some in H as ([k x] & Hf & ->).
  apply list_find_Some in Hf as (Hl & [Hd Hb] & _). apply lookup_seq in Hl as [-> Hk].
  simpl in *. done.
Qed.

Lemma slot_None s d bn : slot s d bn = None <-> forall i, ~ caches s d bn i.
Proof.
  unfold slot. rewrite fmap_None, list_find_None, Forall_forall. split.
  - intros H i (Hi & Hd & Hb). apply (H i); [apply elem_of_seq; lia|done].
  - intros H i Hi%elem_of_seq [Hd Hb]. apply (H i). unfold caches. split; [lia|done].
Qed.

Lemma slot_caches s ord d bn i : bio_inv s ord -> d <> 0 ->
  slot s d bn = Some i <-> caches s d bn i.
Proof.
  intros Hi Hd. split; [apply slot_Some|]. intros Hc. destruct (slot s d bn) as [j|] eqn:E.
  - f_equal. apply slot_Some in E. eapply (bi_uniq _ _ Hi); eauto.
  - exfalso. by apply (proj1 (slot_None s d bn) E i).
Qed.

(** The caches of two states compared core by core. *)
Lemma caches_core s s' d bn i : core (node s' i) = core (node s i) ->
  caches s' d bn i <-> caches s d bn i.
Proof. intros (_ & Hd & Hb & _)%core_eq. unfold caches. by rewrite Hd, Hb. Qed.

(** [bget]: a hit references the unique buffer of the block; a miss takes the
    least recently used unreferenced buffer. *)
Lemma bget_lookup s ord d bn : lru s ord -> exists r,
  (let! h := getf HEAD next in bget_cached d bn h (nbuf + 1)) s = Ok r s /\
  match r with
  | Some b => caches s d bn b
  | None => forall b, ~ caches s d bn b
  end.
Proof.
  intros H. pose proof (lru_nodup _ _ H) as Hnd.
  assert (Hlen : length ord = nbuf) by (rewrite (lru_perm _ _ H); apply length_seq).
  destruct (bget_cached_scan d bn s ord Hnd (nbuf + 1) HEAD [] ord eq_refl (lru_next _ _ H)
    ltac:(lia) _ eq_refl) as (r & Hr & Hs).
  exists r. split; [exact Hr|]. destruct r as [b|].
  - destruct Hs as (Hb & Hd & Hn). split; [by apply (lru_elem s ord)|done].
  - intros b (Hb & Hd & Hn). apply (Hs b); [by apply (lru_elem s ord)|done].
Qed.

Lemma bget_victim s ord : lru s ord -> exists r,
  (let! h := getf HEAD prev in bget_unused h (nbuf + 1)) s = Ok r s /\
  match r with
  | Some b => exists l1 l2, ord = l1 ++ b :: l2 /\ refcnt (node s b) = 0 /\
      forall j, j ∈ l2 -> refcnt (node s j) <> 0
  | None => forall j, (j < nbuf)%nat -> refcnt (node s j) <> 0
  end.
Proof.
  intros H. pose proof (lru_nodup _ _ H) as Hnd.
  assert (Hlen : length (reverse ord) = nbuf)
    by (rewrite length_reverse, (lru_perm _ _ H); apply length_seq).
  destruct (bget_unused_scan s ord Hnd (nbuf + 1) HEAD [] (reverse ord) eq_refl (lru_prev _ _ H)
    ltac:(lia) _ eq_refl) as (r & Hr & Hs).
  exists r. split; [exact Hr|]. destruct r as [b|].
  - destruct Hs as (m1 & m2 & E & H0 & Hm). exists (reverse m2), (reverse m1). split_and!.
    + rewrite <- (reverse_involutive ord), E, reverse_app, reverse_cons, <- app_assoc. done.
    + done.
    + intros j Hj. rewrite elem_of_reverse in Hj. auto.
  - intros j Hj. apply Hs, elem_of_reverse. by apply (lru_elem s ord).
Qed.

(** ** bread *)

Lemma upd_upd i f g s : upd i f (upd i g s) = upd i (fun n => f (g n)) s.
Proof.
  unfold upd; simpl. f_equal. apply list_eq. intros j. destruct (decide (i = j)) as [->|].
  - rewrite !list_lookup_alter_eq. by destruct (nodes s !! j).
  - by rewrite !list_lookup_alter_ne.
Qed.

Lemma upd_congr i f g s : (i < length (nodes s))%nat -> f (node s i) = g (node s i) ->
  upd i f s = upd i g s.
Proof.
  intros Hi E. unfold upd. f_equal. apply list_eq. intros j.
  destruct (decide (i = j)) as [->|Hne].
  - rewrite !list_lookup_alter_eq. unfold node in E. rewrite nth_lookup in E.
    destruct (nodes s !! j); simpl in *; congruence.
  - by rewrite !list_lookup_alter_ne.
Qed.

Lemma upd_id i f s : (i < length (nodes s))%nat -> f (node s i) = node s i -> upd i f s = s.
Proof.
  intros Hi E. rewrite (upd_congr i f id) by done. destruct s as [ns dk pid]. unfold upd. simpl.
  f_equal. apply list_eq. intros j. destruct (decide (i = j)) as [->|].
  - rewrite list_lookup_alter_eq. by destruct (ns !! j).
  - by rewrite list_lookup_alter_ne.
Qed.

Lemma upd_dsk i f s : dsk (upd i f s) = dsk s.
Proof. done. Qed.
Lemma upd_pid i f s : mypid (upd i f s) = mypid s.
Proof. done. Qed.

(** The buffer [bread] returns. *)
Definition opened (d bn pid r : Z) (v : list Z) (n : buf) : buf :=
  mk_buf 1 d bn (mk_sleeplock 1 pid) r (prev n) (next n) v.

(** The part of [bread] after the buffer has been chosen. *)
Definition fill (b : nat) : M bio nat :=
  let! v := getf b valid in
  if v =? 0 then
    do! disk_rw b false in
    do! setf b (set_valid 1) in
    retM b
  else retM b.

Lemma bread_fill d bn s : bread d bn s = (let! b := bget d bn in fill b) s.
Proof. done. Qed.

Lemma on_lock_free b s : (b < length (nodes s))%nat -> is_free (lock (node s b)) ->
  on_lock b acquiresleep s = Ok tt (upd b (set_lock (mk_sleeplock 1 (mypid s))) s).
Proof. intros Hb Hf. unfold on_lock, zoomM. by rewrite acquiresleep_free. Qed.

Lemma bind_acquire {B} b s (k : unit -> M bio B) : (b < length (nodes s))%nat ->
  is_free (lock (node s b)) ->
  bindM (on_lock b acquiresleep) k s = k tt (upd b (set_lock (mk_sleeplock 1 (mypid s))) s).
Proof. intros Hb Hf. by mstep (on_lock_free b s Hb Hf). Qed.

Lemma on_lock_taken b s : ~ is_free (lock (node s b)) ->
  on_lock b acquiresleep s = Block (upd b (set_lock (lock (node s b))) s).
Proof.
  intros Hf. unfold on_lock, zoomM, acquiresleep. unfold is_free in Hf.
  by rewrite (proj2 (Z.eqb_neq _ _) Hf).
Qed.

(** Filling a buffer that has just been locked. *)
Lemma fill_eq b s n : (b < length (nodes s))%nat -> node s b = n ->
  fill b s = Ok b (upd b (fun n => mk_buf (if valid n =? 0 then 1 else valid n) (dev n) (blockno n)
    (lock n) (refcnt n) (prev n) (next n)
    (if valid n =? 0 then dread (dsk s) (blockno n) else data n)) s).
Proof.
  intros Hb Hn. unfold fill, getf, getM. cbn [bindM]. rewrite Hn.
  destruct (valid n =? 0) eqn:E.
  - unfold disk_rw, setf, modifyM, getM. cbn [bindM retM]. rewrite upd_upd. f_equal.
    apply upd_congr; [done|]. rewrite Hn, E. done.
  - unfold retM. f_equal. symmetry. apply upd_id; [done|]. rewrite Hn, E. by destruct n.
Qed.

Lemma bread_hit s ord d bn b : bio_inv s ord -> d <> 0 -> slot s d bn = Some b ->
  is_free (lock (node s b)) -> refcnt (node s b) + 1 < 2 ^ 32 ->
  bread d bn s = Ok b (upd b (opened d bn (mypid s) (refcnt (node s b) + 1) (bview s d bn)) s).
Proof.
  intros Hi Hd Hs Hfree Hr. pose proof (bi_lru _ _ Hi) as Hl. pose proof (lru_len _ _ Hl) as Hlen.
  apply (slot_caches _ _ _ _ _ Hi Hd) in Hs as Hc. pose proof Hc as (Hb & Hdev & Hbn).
  assert (Hview : bview s d bn = if valid (node s b) =? 0 then dread (dsk s) bn else data (node s b))
    by (unfold bview; by rewrite Hs).
  destruct (bget_lookup s ord d bn Hl) as (r & Hget & Hr').
  destruct r as [b'|]; [|by apply Hr' in Hc].
  assert (b' = b) as -> by exact (bi_uniq _ _ Hi d bn b' b Hd Hr' Hc).
  assert (Hbl : (b < length (nodes s))%nat) by lia.
  rewrite bread_fill. unfold bget, getf, setf in *. rewrite bind_get in Hget. mrun. mstep Hget. mrun.
  rewrite bind_acquire; [|by rewrite length_upd|by rewrite node_upd, decide_True by done]. mrun.
  rewrite upd_upd, upd_pid.
  rewrite (fill_eq _ _ _ ltac:(by rewrite length_upd) eq_refl), upd_upd, upd_dsk.
  f_equal. apply upd_congr; [done|]. rewrite Hview. pose proof (bi_ref _ _ Hi b Hb).
  unfold opened, set_lock, set_refcnt. cbn [valid dev blockno lock refcnt prev next data].
  rewrite Hdev, Hbn, u32_small by lia.
  destruct (bi_valid _ _ Hi b Hb) as [->| ->]; done.
Qed.

Lemma bread_busy s ord d bn b : bio_inv s ord -> d <> 0 -> slot s d bn = Some b ->
  ~ is_free (lock (node s b)) ->
  exists s', bread d bn s = Block s' /\ dsk s' = dsk s /\
    forall i, core (node s' i) =
      if decide (i = b) then core (set_refcnt (u32 (refcnt (node s b) + 1)) (node s b))
      else core (node s i).
Proof.
  intros Hi Hd Hs Hbusy. pose proof (bi_lru _ _ Hi) as Hl. pose proof (lru_len _ _ Hl) as Hlen.
  apply (slot_caches _ _ _ _ _ Hi Hd) in Hs as Hc. pose proof Hc as (Hb & Hdev & Hbn).
  destruct (bget_lookup s ord d bn Hl) as (r & Hget & Hr').
  destruct r as [b'|]; [|by apply Hr' in Hc].
  assert (b' = b) as -> by exact (bi_uniq _ _ Hi d bn b' b Hd Hr' Hc).
  assert (Hbl : (b < length (nodes s))%nat) by lia.
  rewrite bread_fill. unfold bget, getf, setf in *. rewrite bind_get in Hget. mrun. mstep Hget. mrun.
  unfold bindM. rewrite on_lock_taken by (by rewrite node_upd, decide_True by done).
  eexists. split; [reflexivity|]. rewrite upd_upd. split; [done|]. intros i.
  rewrite node_upd by done. case_decide; [subst|done].
  rewrite node_upd, decide_True by done. done.
Qed.

Lemma bread_miss s ord d bn : bio_inv s ord -> d <> 0 -> slot s d bn = None ->
  (exists j, (j < nbuf)%nat /\ refcnt (node s j) = 0) ->
  exists b l1 l2, ord = l1 ++ b :: l2 /\ refcnt (node s b) = 0 /\
    (forall j, j ∈ l2 -> refcnt (node s j) <> 0) /\
    bread d bn s = Ok b (upd b (opened d bn (mypid s) 1 (dread (dsk s) bn)) s).
Proof.
  intros Hi Hd Hs (j & Hj & Hj0). pose proof (bi_lru _ _ Hi) as Hl. pose proof (lru_len _ _ Hl) as Hlen.
  destruct (bget_lookup s ord d bn Hl) as (r & Hget & Hr).
  destruct r as [b|]; [exfalso; by apply (proj1 (slot_None s d bn) Hs b)|].
  destruct (bget_victim s ord Hl) as (v & Hvic & Hv).
  destruct v as [b|]; [|exfalso; by apply (Hv j)].
  destruct Hv as (l1 & l2 & E & H0 & Hm). exists b, l1, l2. split_and!; [done|done|done|].
  assert (Hb : (b < nbuf)%nat).
  { apply (lru_elem s ord b Hl). rewrite E. apply elem_of_app. right. apply list_elem_of_here. }
  assert (Hbl : (b < length (nodes s))%nat) by lia.
  rewrite bread_fill. unfold bget, getf, setf in *. rewrite bind_get in Hget, Hvic.
  mrun. mstep Hget. mrun. mstep Hvic. mrun.
  rewrite bind_acquire; [|by rewrite length_upd|].
  2: { rewrite node_upd, decide_True by done. by apply (bi_held _ _ Hi). }
  mrun.
  rewrite upd_upd, upd_pid.
  rewrite (fill_eq _ _ _ ltac:(by rewrite length_upd) eq_refl), upd_upd, upd_dsk.
  by rewrite (upd_congr b _ (opened d bn (mypid s) 1 (dread (dsk s) bn))).
Qed.

Lemma bread_panic s ord d bn : bio_inv s ord -> slot s d bn = None ->
  (forall j, (j < nbuf)%nat -> refcnt (node s j) <> 0) ->
  bread d bn s = Panic "bget: no buffers".
Proof.
  intros Hi Hs Hall. pose proof (bi_lru _ _ Hi) as Hl.
  destruct (bget_lookup s ord d bn Hl) as (r & Hget & Hr).
  destruct r as [b|]; [exfalso; by apply (proj1 (slot_None s d bn) Hs b)|].
  destruct (bget_victim s ord Hl) as (v & Hvic & Hv).
  destruct v as [b|].
  { destruct Hv as (l1 & l2 & E & H0 & _). exfalso. apply (Hall b); [|done].
    apply (lru_elem s ord b Hl). rewrite E. apply elem_of_app. right. apply list_elem_of_here. }
  rewrite bread_fill. unfold bget, getf, setf in *. rewrite bind_get in Hget, Hvic.
  mrun. mstep Hget. mrun. by mstep Hvic.
Qed.

(** ** brelse *)

Lemma next_upd_next j v s x : (j < length (nodes s))%nat ->
  next (node (upd j (set_next v) s) x) = fupd (fun i => next (node s i)) j v x.
Proof. intros. rewrite node_upd by done. unfold fupd. by case_decide. Qed.
Lemma prev_upd_prev j v s x : (j < length (nodes s))%nat ->
  prev (node (upd j (set_prev v) s) x) = fupd (fun i => prev (node s i)) j v x.
Proof. intros. rewrite node_upd by done. unfold fupd. by case_decide. Qed.
Lemma next_upd_prev j v s x : (j < length (nodes s))%nat ->
  next (node (upd j (set_prev v) s) x) = next (node s x).
Proof. intros. rewrite node_upd by done. by case_decide. Qed.
Lemma prev_upd_next j v s x : (j < length (nodes s))%nat ->
  prev (node (upd j (set_next v) s) x) = prev (node s x).
Proof. intros. rewrite node_upd by done. by case_decide. Qed.
Lemma core_upd_next j v s x : (j < length (nodes s))%nat ->
  core (node (upd j (set_next v) s) x) = core (node s x).
Proof. intros. rewrite node_upd by done. by case_decide. Qed.
Lemma core_upd_prev j v s x : (j < length (nodes s))%nat ->
  core (node (upd j (set_prev v) s) x) = core (node s x).
Proof. intros. rewrite node_upd by done. by case_decide. Qed.

(** The six assignments, as one change of the link functions. *)
Lemma bmove_front_links b s : length (nodes s) = S nbuf -> (b < nbuf)%nat ->
  (next (node s b) <= nbuf)%nat -> (prev (node s b) <= nbuf)%nat ->
  b <> next (node s b) -> b <> prev (node s b) ->
  let nx i := next (node s i) in let pv i := prev (node s i) in
  let f1 := fupd nx (pv b) (nx b) in let g1 := fupd pv (nx b) (pv b) in
  (f1 HEAD <= nbuf)%nat -> b <> f1 HEAD ->
  exists s', bmove_front b s = Ok tt s' /\ length (nodes s') = S nbuf /\ dsk s' = dsk s /\
    mypid s' = mypid s /\ (forall i, core (node s' i) = core (node s i)) /\
    (forall i, next (node s' i) = fupd (fupd f1 b (f1 HEAD)) HEAD b i) /\
    (forall i, prev (node s' i) = fupd (fupd g1 b HEAD) (f1 HEAD) b i).
Proof.
  intros Hlen Hb Hn Hp Hbn Hbp nx pv f1 g1 Hh Hbh.
  assert (HbH : b <> HEAD) by (unfold HEAD; lia).
  unfold bmove_front, getf, setf. mrun.
  set (s1 := upd (next (node s b)) (set_prev (prev (node s b))) s).
  assert (Hl1 : length (nodes s1) = S nbuf) by (unfold s1; by rewrite length_upd).
  assert (N1 : forall i, next (node s1 i) = nx i) by (intros; apply next_upd_prev; lia).
  assert (P1 : forall i, prev (node s1 i) = g1 i) by (intros; apply prev_upd_prev; lia).
  assert (C1 : forall i, core (node s1 i) = core (node s i)) by (intros; apply core_upd_prev; lia).
  assert (Epb : prev (node s1 b) = pv b) by (rewrite P1; by apply fupd_ne).
  rewrite Epb, (N1 b).
  set (s2 := upd (pv b) (set_next (nx b)) s1).
  assert (Hl2 : length (nodes s2) = S nbuf) by (unfold s2; by rewrite length_upd).
  assert (N2 : forall i, next (node s2 i) = f1 i).
  { intros. unfold s2. rewrite next_upd_next by (unfold pv; lia). unfold fupd, f1, fupd.
    by case_decide. }
  assert (P2 : forall i, prev (node s2 i) = g1 i)
    by (intros; unfold s2; rewrite prev_upd_next by (unfold pv; lia); apply P1).
  assert (C2 : forall i, core (node s2 i) = core (node s i))
    by (intros; unfold s2; rewrite core_upd_next by (unfold pv; lia); apply C1).
  rewrite (N2 HEAD).
  set (s3 := upd b (set_next (f1 HEAD)) s2).
  assert (Hl3 : length (nodes s3) = S nbuf) by (unfold s3; by rewrite length_upd).
  set (s4 := upd b (set_prev HEAD) s3).
  assert (Hl4 : length (nodes s4) = S nbuf) by (unfold s4; by rewrite length_upd).
  assert (N4 : forall i, next (node s4 i) = fupd f1 b (f1 HEAD) i).
  { intros. unfold s4. rewrite next_upd_prev by lia. unfold s3. rewrite next_upd_next by lia.
    unfold fupd at 1 2. case_decide; [done|apply N2]. }
  assert (P4 : forall i, prev (node s4 i) = fupd g1 b HEAD i).
  { intros. unfold s4. rewrite prev_upd_prev by lia. unfold fupd at 1 2. case_decide; [done|].
    unfold s3. rewrite prev_upd_next by lia. apply P2. }
  assert (EH : next (node s4 HEAD) = f1 HEAD) by (rewrite N4; by apply fupd_ne).
  rewrite EH. eexists. split; [reflexivity|].
  assert (Hl5 : length (nodes (upd (f1 HEAD) (set_prev b) s4)) = S nbuf) by (by rewrite length_upd).
  assert (HH : (HEAD < S nbuf)%nat) by (unfold HEAD; lia).
  split_and!; [by rewrite !length_upd|done|done|..]; intros i.
  - rewrite core_upd_next, core_upd_prev by lia. unfold s4. rewrite core_upd_prev by lia.
    unfold s3. rewrite core_upd_next by lia. apply C2.
  - rewrite next_upd_next by lia. unfold fupd at 1 2. case_decide; [done|].
    rewrite next_upd_prev by lia. apply N4.
  - rewrite prev_upd_next, prev_upd_prev by lia. unfold fupd at 1 2. case_decide; [done|apply P4].
Qed.

Lemma linked_range f i l j n : linked f i l j -> (forall x, x ∈ l -> (x <= n)%nat) -> (j <= n)%nat ->
  (f i <= n)%nat.
Proof. destruct l as [|x l]; simpl; [by intros ->|]. intros [-> _] H _. apply H, list_elem_of_here. Qed.

Lemma bmove_front_ok s l1 b l2 : lru s (l1 ++ b :: l2) ->
  exists s', bmove_front b s = Ok tt s' /\ lru s' (b :: l1 ++ l2) /\ dsk s' = dsk s /\
    mypid s' = mypid s /\ forall i, core (node s' i) = core (node s i).
Proof.
  intros H. pose proof (lru_nodup _ _ H) as Hnd. pose proof (lru_len _ _ H) as Hlen.
  assert (Hle : forall x, x ∈ l1 ++ b :: l2 -> (x < nbuf)%nat) by (intros x; apply (lru_elem s _ x H)).
  assert (Hb : (b < nbuf)%nat) by (apply Hle, elem_of_app; right; apply list_elem_of_here).
  pose proof (lru_next _ _ H) as HN. pose proof (lru_prev _ _ H) as HP.
  rewrite reverse_app, reverse_cons, <- app_assoc in HP. cbn [app] in HP.
  set (nx := fun i => next (node s i)) in *. set (pv := fun i => prev (node s i)) in *.
  pose proof (proj1 (linked_app _ _ _ _ _ _) HN) as [_ Hn2].
  pose proof (proj1 (linked_app _ _ _ _ _ _) HP) as [_ Hp2].
  assert (Epv : pv b = lastn HEAD l1) by (rewrite (linked_first _ _ _ _ Hp2); by rewrite reverse_involutive).
  assert (Enx : nx b = lastn HEAD (reverse l2)) by (by apply linked_first).
  assert (Hb1 : b ∉ HEAD :: l1 /\ b ∉ HEAD :: l2 /\ HEAD ∉ l1 ++ l2).
  { clear -Hnd Hb. rewrite NoDup_cons, NoDup_app, NoDup_cons in Hnd.
    destruct Hnd as (HH & _ & H1 & H2 & _). rewrite !not_elem_of_cons.
    rewrite not_elem_of_app in HH |- *. rewrite not_elem_of_cons in HH.
    assert (b <> HEAD) by (unfold HEAD; lia).
    assert (b ∉ l1) by (intros Hin; apply (H1 _ Hin), list_elem_of_here). tauto. }
  destruct Hb1 as (Hb1 & Hb2 & HH).
  assert (Hbp : b <> pv b) by (rewrite Epv; intros E; apply Hb1; rewrite E; apply lastn_elem).
  assert (Hbn : b <> nx b).
  { rewrite Enx. intros E. apply Hb2. rewrite E at 1.
    pose proof (lastn_elem HEAD (reverse l2)) as [->|He]%elem_of_cons; [apply list_elem_of_here|].
    right. by apply elem_of_reverse. }
  pose proof (linked_remove nx HEAD l1 b l2 HEAD Hnd HN) as HN1. rewrite <- Epv in HN1.
  assert (Hndr : NoDup (HEAD :: reverse l2 ++ b :: reverse l1)).
  { rewrite !reverse_Permutation, (Permutation_app_comm l2). cbn [app].
    by rewrite (Permutation_middle l1 l2 b). }
  pose proof (linked_remove pv HEAD (reverse l2) b (reverse l1) HEAD Hndr HP) as HP1.
  rewrite <- Enx, <- reverse_app in HP1.
  set (f1 := fupd nx (pv b) (nx b)) in *. set (g1 := fupd pv (nx b) (pv b)) in *.
  assert (Hrange : forall x, x ∈ l1 ++ l2 -> (x <= nbuf)%nat).
  { intros x Hx. apply Nat.lt_le_incl, Hle. rewrite elem_of_app in Hx |- *. rewrite elem_of_cons. tauto. }
  assert (Hbf : b ∉ l1 ++ l2) by (rewrite not_elem_of_app; rewrite not_elem_of_cons in Hb1, Hb2; tauto).
  assert (HHn : (HEAD <= nbuf)%nat) by (unfold HEAD; lia).
  assert (Hf1 : (f1 HEAD <= nbuf)%nat) by (apply (linked_range _ _ _ _ nbuf HN1); done).
  assert (Hf1b : b <> f1 HEAD).
  { destruct (l1 ++ l2) as [|y l]; simpl in HN1; [rewrite HN1; unfold HEAD; lia|].
    destruct HN1 as [-> _]. intros ->. apply Hbf, list_elem_of_here. }
  assert (Hnb : (nx b <= nbuf)%nat).
  { apply (linked_range nx b l2 HEAD nbuf Hn2); [|done].
    intros x Hx. apply Hrange, elem_of_app. auto. }
  assert (Hpb : (pv b <= nbuf)%nat).
  { apply (linked_range pv b (reverse l1) HEAD nbuf Hp2); [|done].
    intros x Hx. rewrite elem_of_reverse in Hx. apply Hrange, elem_of_app. auto. }
  destruct (bmove_front_links b s Hlen Hb Hnb Hpb Hbn Hbp Hf1 Hf1b)
    as (s' & Hm & Hl' & Hd & Hpid & Hc & HN' & HP').
  exists s'. split_and!; [done| |done|done|done].
  assert (Hperm : b :: l1 ++ l2 ≡ₚ seq 0 nbuf) by (rewrite <- (lru_perm _ _ H); apply Permutation_middle).
  split; [done|done| |].
  - eapply linked_ext; [intros x _; symmetry; apply HN'|].
    apply linked_push; [|done|done]. rewrite not_elem_of_cons in Hb1 |- *. tauto.
  - rewrite reverse_cons.
    apply (linked_ext (fupd (fupd g1 b HEAD) (f1 HEAD) b)); [intros x _; symmetry; apply HP'|].
    assert (EH : f1 HEAD = lastn HEAD (reverse (l1 ++ l2))) by (by apply linked_first).
    rewrite EH. apply linked_snoc.
    + rewrite not_elem_of_cons, elem_of_reverse. rewrite not_elem_of_cons in Hb1. tauto.
    + constructor; [by rewrite elem_of_reverse|]. rewrite reverse_Permutation.
      apply NoDup_cons in Hnd as [_ Hnd]. rewrite <- Permutation_middle in Hnd.
      by apply NoDup_cons in Hnd as [_ ?].
    + done.
Qed.

(** Changing one buffer (and links): what has to hold of the new buffer. *)
Lemma bio_inv_change s s' ord ord' b n' : bio_inv s ord -> lru s' ord' -> dsk s' = dsk s ->
  (forall i, (i < nbuf)%nat -> i <> b -> core (node s' i) = core (node s i)) ->
  core (node s' b) = core n' ->
  (dev n' <> 0 -> forall j, j <> b -> ~ caches s (dev n') (blockno n') j) ->
  (valid n' = 0 \/ valid n' = 1) -> 0 <= refcnt n' < 2 ^ 32 ->
  (refcnt n' = 0 -> is_free (lock n')) ->
  (refcnt n' = 0 -> valid n' <> 0 -> data n' = dread (dsk s) (blockno n')) ->
  bio_inv s' ord'.
Proof.
  intros Hi Hl Hd Hne Hb Hu Hv Hr Hh Hc. apply core_eq in Hb as (Ev & Ed & Eb & El & Er & Ea).
  assert (Hcore : forall i, (i < nbuf)%nat -> i <> b -> valid (node s' i) = valid (node s i) /\
    dev (node s' i) = dev (node s i) /\ blockno (node s' i) = blockno (node s i) /\
    lock (node s' i) = lock (node s i) /\ refcnt (node s' i) = refcnt (node s i) /\
    data (node s' i) = data (node s i)) by (intros; by apply core_eq, Hne).
  split; [done|..].
  - intros d bn i j Hd0 (Hi1 & Hi2 & Hi3) (Hj1 & Hj2 & Hj3).
    destruct (decide (i = b)) as [->|Hib], (decide (j = b)) as [->|Hjb]; [done|..].
    + destruct (Hcore j Hj1 Hjb) as (_ & E2 & E3 & _). exfalso. apply (Hu ltac:(congruence) j Hjb).
      split_and!; [done|congruence|congruence].
    + destruct (Hcore i Hi1 Hib) as (_ & E2 & E3 & _). exfalso. apply (Hu ltac:(congruence) i Hib).
      split_and!; [done|congruence|congruence].
    + destruct (Hcore i Hi1 Hib) as (_ & E2 & E3 & _), (Hcore j Hj1 Hjb) as (_ & E2' & E3' & _).
      apply (bi_uniq _ _ Hi d bn); [done| |]; (split_and!; [done|congruence|congruence]).
  - intros i Hi'. destruct (decide (i = b)) as [->|Hib]; [by rewrite Ev|].
    destruct (Hcore i Hi' Hib) as (-> & _). by apply (bi_valid _ _ Hi).
  - intros i Hi'. destruct (decide (i = b)) as [->|Hib]; [by rewrite Er|].
    destruct (Hcore i Hi' Hib) as (_ & _ & _ & _ & -> & _). by apply (bi_ref _ _ Hi).
  - intros i Hi'. destruct (decide (i = b)) as [->|Hib]; [rewrite Er, El; auto|].
    destruct (Hcore i Hi' Hib) as (_ & _ & _ & -> & -> & _). by apply (bi_held _ _ Hi).
  - intros i Hi'. rewrite Hd. destruct (decide (i = b)) as [->|Hib]; [rewrite Er, Ev, Ea, Eb; auto|].
    destruct (Hcore i Hi' Hib) as (-> & _ & -> & _ & -> & ->). by apply (bi_clean _ _ Hi).
Qed.

Lemma lru_upd s ord b f : lru s ord -> (b < nbuf)%nat ->
  (forall n, next (f n) = next n /\ prev (f n) = prev n) -> lru (upd b f s) ord.
Proof.
  intros H Hb Hf. pose proof (lru_len _ _ H). apply (lru_same_links s); [done|by rewrite length_upd|].
  intros i _. rewrite node_upd by lia. by case_decide.
Qed.

Definition released (n : buf) : buf :=
  set_lock (mk_sleeplock 0 0) (set_refcnt (refcnt n - 1) n).

Lemma brelse_ok s ord b : bio_inv s ord -> (b < nbuf)%nat ->
  held_by (mypid s) (lock (node s b)) -> 1 <= refcnt (node s b) ->
  (refcnt (node s b) = 1 -> valid (node s b) <> 0 ->
     data (node s b) = dread (dsk s) (blockno (node s b))) ->
  exists s' ord', brelse b s = Ok tt s' /\ bio_inv s' ord' /\ dsk s' = dsk s /\ mypid s' = mypid s /\
    (forall i, core (node s' i) = if decide (i = b) then core (released (node s b)) else core (node s i)) /\
    (if decide (refcnt (node s b) = 1)
     then exists l1 l2, ord = l1 ++ b :: l2 /\ ord' = b :: l1 ++ l2 else ord' = ord).
Proof.
  intros Hi Hb Hheld Href Hclean. pose proof (bi_lru _ _ Hi) as Hl. pose proof (lru_len _ _ Hl) as Hlen.
  pose proof (bi_ref _ _ Hi b Hb) as Hr. assert (Hbl : (b < length (nodes s))%nat) by lia.
  unfold brelse. mrun. rewrite (proj2 (holdingsleep_spec _ _) Hheld). cbn [negb].
  assert (Hrel : on_lock b (fun _ => releasesleep) s = Ok tt (upd b (set_lock (mk_sleeplock 0 0)) s)) by done.
  mstep Hrel. unfold getf, setf. mrun. rewrite upd_upd, !node_upd, !decide_True by done. cbn [refcnt set_lock set_refcnt].
  rewrite u32_small by lia.
  set (s1 := upd b _ s).
  assert (Hs1 : s1 = upd b released s) by (apply upd_congr; [done|reflexivity]). clearbody s1. subst s1.
  assert (Hl1 : lru (upd b released s) ord) by (by apply lru_upd).
  assert (Hcore : forall i, core (node (upd b released s) i) =
    if decide (i = b) then core (released (node s b)) else core (node s i)).
  { intros i. rewrite node_upd by done. case_decide; by subst. }
  assert (Hinv : forall s' ord', lru s' ord' -> dsk s' = dsk s ->
    (forall i, core (node s' i) = core (node (upd b released s) i)) -> bio_inv s' ord').
  { intros s' ord' Hl' Hd' Hc'. apply (bio_inv_change s s' ord ord' b (released (node s b)) Hi Hl' Hd').
    - intros i _ Hib. by rewrite Hc', Hcore, decide_False.
    - by rewrite Hc', Hcore, decide_True.
    - intros Hd0 j Hj Hc. apply Hj. apply (bi_uniq _ _ Hi (dev (node s b)) (blockno (node s b))); auto.
      by split_and!.
    - apply (bi_valid _ _ Hi b Hb).
    - simpl. lia.
    - done.
    - simpl. intros. apply Hclean; [lia|done]. }
  destruct (Z.eqb_spec (refcnt (node s b) - 1) 0) as [E|E].
  - assert (Hin : b ∈ ord) by (by apply (lru_elem s ord)).
    apply list_elem_of_split in Hin as (l1 & l2 & ->).
    destruct (bmove_front_ok _ _ _ _ Hl1) as (s' & Hm & Hl' & Hd' & Hp' & Hc').
    exists s', (b :: l1 ++ l2). split_and!; [done|by apply Hinv|done|done| |].
    + intros i. by rewrite Hc', Hcore.
    + rewrite decide_True by lia. eauto.
  - eexists _, ord. rewrite (decide_False (P := refcnt (node s b) = 1)) by lia. split_and!; [done|by apply Hinv|done|done|done|done].
Qed.

(** ** Effect of the operations on the cached blocks *)

(** The buffer chosen by [bread]: the one of the block, or an unreferenced
    one. *)
Definition chosen (s : bio) (d bn : Z) (i : nat) (r : Z) : Prop :=
  (slot s d bn = Some i /\ r = refcnt (node s i) + 1) \/
  (slot s d bn = None /\ refcnt (node s i) = 0 /\ r = 1).

Lemma bread_ok s ord d bn : bio_inv s ord -> d <> 0 ->
  (forall i, slot s d bn = Some i -> is_free (lock (node s i)) /\ refcnt (node s i) + 1 < 2 ^ 32) ->
  (slot s d bn = None -> exists j, (j < nbuf)%nat /\ refcnt (node s j) = 0) ->
  exists i r, (i < nbuf)%nat /\ chosen s d bn i r /\
    bread d bn s = Ok i (upd i (opened d bn (mypid s) r (bview s d bn)) s).
Proof.
  intros Hi Hd Hhit Hmiss. destruct (slot s d bn) as [i|] eqn:Es.
  - destruct (Hhit i eq_refl) as [Hf Hr]. exists i, (refcnt (node s i) + 1). split_and!.
    + apply slot_Some in Es. apply Es.
    + left. done.
    + by apply (bread_hit s ord).
  - destruct (bread_miss s ord d bn Hi Hd Es (Hmiss eq_refl)) as (b & l1 & l2 & E & H0 & _ & Hb).
    exists b, 1. split_and!.
    + apply (lru_elem s ord b (bi_lru _ _ Hi)). rewrite E. apply elem_of_app. right. apply list_elem_of_here.
    + right. done.
    + unfold bview. by rewrite Es.
Qed.

Section Opened.
Context (s : bio) (ord : list nat) (d bn : Z) (i : nat) (r : Z) (v : list Z).
Context (Hinv : bio_inv s ord) (Hd : d <> 0) (Hi : (i < nbuf)%nat) (Hch : chosen s d bn i r).
Local Abbreviation s' := (upd i (opened d bn (mypid s) r v) s).

Lemma opened_node j : node s' j = if decide (j = i) then opened d bn (mypid s) r v (node s i) else node s j.
Proof.
  pose proof (lru_len _ _ (bi_lru _ _ Hinv)). rewrite node_upd by lia. case_decide; by subst.
Qed.

Lemma chosen_unique j : caches s d bn j -> j = i.
Proof.
  intros Hc. destruct Hch as [[Hs _]|[Hs _]].
  - apply (slot_caches _ _ _ _ _ Hinv Hd) in Hs. by eapply (bi_uniq _ _ Hinv).
  - by apply (proj1 (slot_None s d bn) Hs) in Hc.
Qed.

Lemma opened_inv : 0 < r < 2 ^ 32 -> bio_inv s' ord.
Proof.
  intros Hr. apply (bio_inv_change s s' ord ord i (opened d bn (mypid s) r v (node s i)) Hinv).
  - apply lru_upd; [apply Hinv|done|done].
  - done.
  - intros j _ Hj. by rewrite opened_node, decide_False.
  - by rewrite opened_node, decide_True.
  - intros _ j Hj Hc. by apply Hj, chosen_unique.
  - by right.
  - simpl. lia.
  - simpl. lia.
  - simpl. lia.
Qed.

Lemma opened_caches b j : caches s' d b j <->
  (b = bn /\ j = i) \/ (b <> bn /\ j <> i /\ caches s d b j).
Proof.
  unfold caches at 1. rewrite opened_node. case_decide as E.
  - subst. simpl. split; [intros (_ & _ & ->); auto|intros [[-> _]|(_ & ? & _)]; done].
  - split; [|intros [[_ ->]|(_ & _ & ?)]; done].
    intros Hc. right. split_and!; [|done|done]. intros ->. by apply E, chosen_unique.
Qed.
End Opened.

(** Opening a block changes the logical content of no block. *)
Lemma opened_view s ord d bn i r : bio_inv s ord -> d <> 0 -> (i < nbuf)%nat ->
  chosen s d bn i r -> 0 < r < 2 ^ 32 ->
  forall b, bview (upd i (opened d bn (mypid s) r (bview s d bn)) s) d b = bview s d b.
Proof.
  intros Hinv Hd Hi Hch Hr b. set (v := bview s d bn).
  pose proof (opened_inv s ord d bn i r v Hinv Hd Hi Hch Hr) as Hinv'.
  pose proof (opened_caches s ord d bn i r v Hinv Hd Hi Hch) as Hc.
  pose proof (opened_node s ord d bn i r v Hinv Hi) as Hn.
  set (s' := upd i _ s) in *. unfold bview at 1.
  destruct (slot s' d b) as [j|] eqn:Ej.
  - apply slot_Some, Hc in Ej as [[-> ->]|(Hb & Hj & Hcj)].
    + rewrite Hn, decide_True by done. done.
    + rewrite Hn, decide_False by done. apply (slot_caches _ _ _ _ _ Hinv Hd) in Hcj.
      unfold bview. by rewrite Hcj.
  - rewrite slot_None in Ej. unfold bview. destruct (slot s d b) as [j|] eqn:Es; [|done].
    apply slot_Some in Es as Hcs. destruct (decide (b = bn)) as [->|Hb].
    { exfalso. apply (Ej i), Hc. auto. }
    destruct (decide (j = i)) as [->|Hj]; [|exfalso; apply (Ej j), Hc; auto].
    (* the victim was clean *)
    destruct Hcs as (_ & Hdv & Hbv). destruct Hch as [[Hs _]|(_ & H0 & _)].
    { apply slot_Some in Hs as (_ & _ & Hbn). congruence. }
    destruct (Z.eqb_spec (valid (node s i)) 0); [done|].
    by rewrite (bi_clean _ _ Hinv i Hi H0), Hbv.
Qed.

(** ** binit *)

Record init_links (s : bio) (l : list nat) : Prop := {
  il_len : length (nodes s) = S nbuf;
  il_next : linked (fun i => next (node s i)) HEAD (reverse l) HEAD;
  il_prev : linked (fun i => prev (node s i)) HEAD l HEAD;
  il_core : forall i, (i < nbuf)%nat -> core (node s i) = core buf0;
}.

Lemma binit_buf_ok s l b : init_links s l -> NoDup (HEAD :: l ++ [b]) ->
  (forall x, x ∈ l ++ [b] -> (x < nbuf)%nat) ->
  exists s', binit_buf b s = Ok tt s' /\ init_links s' (l ++ [b]) /\ dsk s' = dsk s /\ mypid s' = mypid s.
Proof.
  intros [Hlen HN HP HC] Hnd Hle.
  assert (Hb : (b < nbuf)%nat) by (apply Hle, elem_of_app; right; apply list_elem_of_here).
  assert (HbH : b <> HEAD) by (unfold HEAD; lia).
  assert (Hbl : b ∉ HEAD :: l).
  { rewrite app_comm_cons in Hnd. apply NoDup_app in Hnd as (_ & Hnd & _).
    intros Hin. apply (Hnd _ Hin), list_elem_of_here. }
  assert (Hnd' : NoDup (HEAD :: l)) by (rewrite app_comm_cons in Hnd; by apply NoDup_app in Hnd as [? _]).
  set (nx := fun i => next (node s i)) in *. set (pv := fun i => prev (node s i)) in *.
  assert (EH : nx HEAD = lastn HEAD l) by (rewrite (linked_first _ _ _ _ HN); by rewrite reverse_involutive).
  assert (Hh : (nx HEAD <= nbuf)%nat /\ nx HEAD <> b).
  { pose proof (lastn_elem HEAD l) as He. rewrite <- EH in He. split; [|by intros <-].
    apply elem_of_cons in He as [-> |He]; [unfold HEAD; lia|].
    apply Nat.lt_le_incl, Hle, elem_of_app. auto. }
  unfold binit_buf, getf, setf. mrun. rewrite !upd_upd.
  set (s3 := upd b _ s).
  assert (Hl3 : length (nodes s3) = S nbuf) by (unfold s3; by rewrite length_upd).
  assert (Hn3 : forall i, node s3 i = if decide (i = b) then
      set_lock initsleeplock (set_prev HEAD (set_next (nx HEAD) (node s b))) else node s i).
  { intros i. unfold s3. rewrite node_upd by lia. case_decide; by subst. }
  assert (EH3 : next (node s3 HEAD) = nx HEAD) by (rewrite Hn3; by rewrite decide_False).
  rewrite EH3. eexists. split; [reflexivity|].
  assert (HH : (HEAD < S nbuf)%nat) by (unfold HEAD; lia).
  assert (Hl4 : length (nodes (upd (nx HEAD) (set_prev b) s3)) = S nbuf) by (by rewrite length_upd).
  split_and!; [|done|done]. split.
  - by rewrite !length_upd.
  - rewrite reverse_app. cbn [reverse app rev_append].
    apply (linked_ext (fupd (fupd nx b (nx HEAD)) HEAD b)).
    + intros x _. rewrite next_upd_next by lia. unfold fupd at 1 3. case_decide; [done|].
      rewrite next_upd_prev by lia. rewrite Hn3. unfold fupd. by case_decide.
    + apply linked_push; [| |done].
      * rewrite not_elem_of_cons, elem_of_reverse in *. tauto.
      * rewrite elem_of_reverse. by apply NoDup_cons in Hnd' as [? _].
  - apply (linked_ext (fupd (fupd pv b HEAD) (lastn HEAD l) b)).
    + intros x _. rewrite prev_upd_next, prev_upd_prev by lia. rewrite EH. unfold fupd at 1 3.
      case_decide; [done|]. rewrite Hn3. unfold fupd. by case_decide.
    + by apply linked_snoc.
  - intros i Hi. rewrite core_upd_next, core_upd_prev by lia. rewrite Hn3. case_decide; [|auto].
    subst. specialize (HC b Hb). apply core_eq in HC as (? & ? & ? & _ & ? & ?).
    by apply core_eq.
Qed.

Lemma binit_ok s : length (nodes s) = S nbuf ->
  (forall i, (i < nbuf)%nat -> core (node s i) = core buf0) ->
  returns binit s (fun _ s' => bio_inv s' (reverse (seq 0 nbuf)) /\ dsk s' = dsk s /\
    forall i, (i < nbuf)%nat -> core (node s' i) = core buf0).
Proof.
  intros Hlen HC. assert (HH : (HEAD < S nbuf)%nat) by (unfold HEAD; lia).
  set (s1 := upd HEAD (fun n => set_next HEAD (set_prev HEAD n)) s).
  apply (returns_eq _ _ (for_each (seq 0 nbuf) binit_buf) s1).
  { unfold binit, setf. mrun. by rewrite upd_upd. }
  assert (H1 : init_links s1 []).
  { unfold s1. split; [by rewrite length_upd|..].
    - change (next (node (upd HEAD (fun n => set_next HEAD (set_prev HEAD n)) s) HEAD) = HEAD).
      rewrite node_upd by lia. by rewrite decide_True.
    - change (prev (node (upd HEAD (fun n => set_next HEAD (set_prev HEAD n)) s) HEAD) = HEAD).
      rewrite node_upd by lia. by rewrite decide_True.
    - intros i Hi. rewrite node_upd by lia. rewrite decide_False by (unfold HEAD; lia). auto. }
  eapply returns_mono.
  - apply (returns_for_each (seq 0 nbuf) binit_buf (fun l s' => init_links s' l /\ dsk s' = dsk s) s1).
    { done. }
    intros done b rest s2 E [H2 Hd]. destruct (binit_buf_ok s2 done b H2) as (s3 & Hs & H3 & Hd3 & _).
    + assert (Hp : (done ++ [b]) ++ rest = seq 0 nbuf) by (rewrite E, <- app_assoc; by simpl).
      constructor.
      * intros Hin. assert (Hs : HEAD ∈ seq 0 nbuf) by (rewrite <- Hp; apply elem_of_app; auto).
        apply elem_of_seq in Hs. unfold HEAD in Hs. lia.
      * pose proof (NoDup_seq 0 nbuf) as Hn. rewrite <- Hp in Hn. by apply NoDup_app in Hn as [? _].
    + intros x Hx. assert (Hs : x ∈ seq 0 nbuf).
      { rewrite E. rewrite elem_of_app in Hx |- *. rewrite elem_of_cons. rewrite list_elem_of_singleton in Hx. tauto. }
      apply elem_of_seq in Hs. lia.
    + eapply returns_ok; [exact Hs|]. split; [done|congruence].
  - intros _ s' [[Hl HN HP HC'] Hd]. split; [|done].
    assert (Hz : forall i, (i < nbuf)%nat -> valid (node s' i) = 0 /\ dev (node s' i) = 0 /\
      lock (node s' i) = mk_sleeplock 0 0 /\ refcnt (node s' i) = 0).
    { intros i Hi. pose proof (HC' i Hi) as Hc. apply core_eq in Hc as (? & ? & _ & ? & ? & _). done. }
    split.
    + split; [done|apply reverse_Permutation|done|by rewrite reverse_involutive].
    + intros d bn i j Hd0 (Hi & Hdi & _). destruct (Hz i Hi) as (_ & ? & _). congruence.
    + intros i Hi. destruct (Hz i Hi) as (-> & _). auto.
    + intros i Hi. destruct (Hz i Hi) as (_ & _ & _ & ->). lia.
    + intros i Hi _. by destruct (Hz i Hi) as (_ & _ & -> & _).
    + intros i Hi _ Hv. by destruct (Hz i Hi) as (? & _).
Qed.
