(* ===== verification/Tx.v ===== *)
(** * Using the buffer cache from a transaction

    [tx_inv s d E H L] is the cache as one process sees it while it runs
    inside the log: [H] are the buffers it has locked, [L] the blocks the log
    has pinned, and [E] the buffers other processes keep busy.  Every other
    buffer is unlocked and unreferenced, and only held and pinned buffers may
    differ from the disk.  Each operation of bio.c is specified on [tx_inv],
    with [bview] as the content of the blocks; the log and the file system
    are proved from these specifications. *)

From stdpp Require Import base list gmap strings.
From Stdlib Require Import ZArith Lia.
From S2P Require Import Prelude Layout Sleeplock FsFormat DList Bio BioSpec.
Open Scope Z_scope.

Definition is_block (v : list Z) : Prop := length v = bsize /\ Forall is_byte v.

(** References to buffer [i] that the transaction accounts for. *)
Definition held (H : list nat) (i : nat) : Z := if decide (i ∈ H) then 1 else 0.
Definition pinned (s : bio) (d : Z) (L : list Z) (i : nat) : Z :=
  if decide (dev (node s i) = d /\ blockno (node s i) ∈ L) then 1 else 0.

Record tx_inv (s : bio) (d : Z) (E H : list nat) (L : list Z) : Prop := {
  tx_bio : exists ord, bio_inv s ord;
  tx_dev : forall i, (i < nbuf)%nat -> dev (node s i) = d \/ valid (node s i) = 0;
  tx_E : forall i, i ∈ E -> (i < nbuf)%nat /\ i ∉ H /\
    1 + pinned s d L i <= refcnt (node s i) < 2 ^ 31;
  tx_Hnd : NoDup H;
  tx_H : forall i, i ∈ H -> (i < nbuf)%nat /\ dev (node s i) = d /\ valid (node s i) = 1 /\
    held_by (mypid s) (lock (node s i));
  tx_Lnd : NoDup L;
  tx_L : forall b, b ∈ L -> exists i, caches s d b i /\ valid (node s i) = 1;
  tx_ref : forall i, (i < nbuf)%nat -> i ∉ E -> refcnt (node s i) = held H i + pinned s d L i;
  tx_free : forall i, (i < nbuf)%nat -> i ∉ E -> i ∉ H -> is_free (lock (node s i));
  tx_clean : forall i, (i < nbuf)%nat -> i ∉ H -> valid (node s i) = 1 ->
    data (node s i) = dread (dsk s) (blockno (node s i)) \/ blockno (node s i) ∈ L;
  tx_data : forall i, (i < nbuf)%nat -> is_block (data (node s i));
  tx_disk : forall b, is_block (dread (dsk s) b);
}.

Lemma held_range H i : 0 <= held H i <= 1.
Proof. unfold held. case_decide; lia. Qed.
Lemma pinned_range s d L i : 0 <= pinned s d L i <= 1.
Proof. unfold pinned. case_decide; lia. Qed.
Lemma held_in H i : i ∈ H -> held H i = 1.
Proof. intros. unfold held. by rewrite decide_True. Qed.
Lemma held_out H i : i ∉ H -> held H i = 0.
Proof. intros. unfold held. by rewrite decide_False. Qed.

Lemma held_cons_ne H i j : j <> i -> held (i :: H) j = held H j.
Proof. intros Hj. unfold held. apply decide_ext. rewrite elem_of_cons. naive_solver. Qed.

Lemma pinned_core s s' d L i : core (node s' i) = core (node s i) -> pinned s' d L i = pinned s d L i.
Proof. intros (_ & Hd & Hb & _)%core_eq. unfold pinned. by rewrite Hd, Hb. Qed.

(** The order in which buffers are listed does not matter. *)
#[export] Instance held_proper : Proper ((≡ₚ) ==> eq ==> eq) held.
Proof. intros H H' HH i _ <-. unfold held. by repeat case_decide; rewrite HH in *. Qed.
#[export] Instance pinned_proper s d : Proper ((≡ₚ) ==> eq ==> eq) (pinned s d).
Proof. intros L L' HL i _ <-. unfold pinned. repeat case_decide; rewrite HL in *; tauto. Qed.
#[export] Instance tx_inv_proper s d : Proper ((≡ₚ) ==> (≡ₚ) ==> (≡ₚ) ==> iff) (tx_inv s d).
Proof.
  assert (Hgo : forall E E' H H' L L', E ≡ₚ E' -> H ≡ₚ H' -> L ≡ₚ L' ->
    tx_inv s d E H L -> tx_inv s d E' H' L').
  { intros E E' H H' L L' HE HH HL [A1 A2 A3 A4 A5 A6 A7 A8 A9 A10 A11 A12]. split; auto.
    - intros i. rewrite <- HE, <- HH, <- HL. auto.
    - by rewrite <- HH.
    - intros i. rewrite <- HH. auto.
    - by rewrite <- HL.
    - intros b. rewrite <- HL. auto.
    - intros i. rewrite <- HE, <- HH, <- HL. auto.
    - intros i. rewrite <- HE, <- HH. auto.
    - intros i. rewrite <- HH, <- HL. auto. }
  intros E E' HE H H' HH L L' HL. split; apply Hgo; auto; by symmetry.
Qed.

Lemma length_omap_le {A B} (f : A -> option B) l : (length (omap f l) <= length l)%nat.
Proof. induction l as [|x l IH]; csimpl; [done|]. destruct (f x); csimpl; lia. Qed.

(** A buffer is available as long as not all of them are accounted for. *)
Lemma tx_room s d E H L : tx_inv s d E H L -> d <> 0 ->
  (length E + length H + length L < nbuf)%nat ->
  exists i, (i < nbuf)%nat /\ refcnt (node s i) = 0 /\ i ∉ E /\ i ∉ H.
Proof.
  intros Ht Hd Hlen. destruct (tx_bio _ _ _ _ _ Ht) as [ord Hinv].
  set (used := E ++ H ++ omap (slot s d) L).
  assert (Hul : (length used < length (seq 0 nbuf))%nat).
  { unfold used. rewrite !length_app, length_seq. pose proof (length_omap_le (slot s d) L). lia. }
  destruct (decide (Exists (fun i => i ∉ used) (seq 0 nbuf))) as [Hex|Hno].
  - apply Exists_exists in Hex as (i & Hi%elem_of_seq & Hu). exists i.
    unfold used in Hu. rewrite !not_elem_of_app in Hu. destruct Hu as (HE & HH & HL).
    split_and!; [lia| |done|done]. rewrite (tx_ref _ _ _ _ _ Ht) by (done || lia).
    rewrite held_out by done. unfold pinned. rewrite decide_False; [done|]. intros [Hdv Hb].
    apply HL, list_elem_of_omap. exists (blockno (node s i)). split; [done|].
    apply (slot_caches _ _ _ _ _ Hinv Hd). split_and!; [lia|done|done].
  - exfalso. assert (Hsub : seq 0 nbuf ⊆ used).
    { intros i Hi. destruct (decide (i ∈ used)); [done|]. exfalso. apply Hno, Exists_exists. eauto. }
    pose proof (submseteq_length _ _ (NoDup_submseteq (seq 0 nbuf) used (NoDup_seq _ _) Hsub)). lia.
Qed.

Lemma bview_block s d E H L b : tx_inv s d E H L -> is_block (bview s d b).
Proof.
  intros Ht. unfold bview. destruct (slot s d b) as [i|] eqn:Es; [|apply (tx_disk _ _ _ _ _ Ht)].
  apply slot_Some in Es as (Hi & _). case_match; [apply (tx_disk _ _ _ _ _ Ht)|].
  by apply (tx_data _ _ _ _ _ Ht).
Qed.

(** Blocks the transaction may open: not held already, not busy elsewhere. *)
Definition openable (s : bio) (d : Z) (E H : list nat) (b : Z) : Prop :=
  forall i, caches s d b i -> i ∉ E /\ i ∉ H.

Section Bread.
Context (s : bio) (d : Z) (E H : list nat) (L : list Z) (b : Z).
Context (Ht : tx_inv s d E H L) (Hd : d <> 0) (Hop : openable s d E H b).

Lemma chosen_free i r : (i < nbuf)%nat -> chosen s d b i r ->
  i ∉ E /\ i ∉ H /\ refcnt (node s i) = pinned s d L i /\ r = 1 + pinned s d L i /\
  (caches s d b i \/ (pinned s d L i = 0 /\ b ∉ L)).
Proof.
  intros Hi [[Hs ->]|(Hs & H0 & ->)].
  - apply slot_Some in Hs. destruct (Hop i Hs) as [HE HH].
    rewrite (tx_ref _ _ _ _ _ Ht) by done. rewrite held_out by done. split_and!; auto; lia.
  - assert (HE : i ∉ E) by (intros [_ [_ He]]%(tx_E _ _ _ _ _ Ht); pose proof (pinned_range s d L i); lia).
    pose proof (tx_ref _ _ _ _ _ Ht i Hi HE) as Hr. pose proof (pinned_range s d L i).
    pose proof (held_range H i).
    assert (HH : i ∉ H) by (intros HH; rewrite held_in in Hr by done; lia).
    split_and!; try done; try lia. right. split; [lia|].
    intros HbL. destruct (tx_L _ _ _ _ _ Ht b HbL) as (j & Hc & _).
    by apply (proj1 (slot_None s d b) Hs j).
Qed.

Lemma tx_opened i r : (i < nbuf)%nat -> chosen s d b i r ->
  tx_inv (upd i (opened d b (mypid s) r (bview s d b)) s) d E (i :: H) L.
Proof.
  intros Hi Hch. destruct (tx_bio _ _ _ _ _ Ht) as [ord Hinv].
  destruct (chosen_free i r Hi Hch) as (HE & HH & Href & Hr & Hblk).
  pose proof (opened_node s ord d b i r (bview s d b) Hinv Hi) as Hn.
  pose proof (opened_caches s ord d b i r (bview s d b) Hinv Hd Hi Hch) as Hc.
  pose proof (pinned_range s d L i) as Hpr.
  set (s' := upd i _ s) in *.
  assert (Hni : node s' i = opened d b (mypid s) r (bview s d b) (node s i)) by (by rewrite Hn, decide_True).
  assert (Hpi : pinned s' d L i = pinned s d L i).
  { unfold pinned. rewrite Hni. cbn [dev blockno opened].
    destruct Hblk as [(_ & Ed & Eb)|[Hp HbL]].
    - by rewrite Ed, Eb.
    - unfold pinned in Hp. rewrite Hp. by rewrite decide_False by tauto. }
  assert (Hpj : forall j, j <> i -> pinned s' d L j = pinned s d L j)
    by (intros j Hj; apply pinned_core; by rewrite Hn, decide_False).
  split.
  - exists ord. apply opened_inv; auto. lia.
  - intros j Hj. rewrite Hn. case_decide; [by left|]. by apply (tx_dev _ _ _ _ _ Ht).
  - intros j Hj. assert (j <> i) by congruence. rewrite Hpj, Hn, decide_False by done.
    destruct (tx_E _ _ _ _ _ Ht j Hj) as (? & ? & ?). split_and!; try done; try lia.
    by apply not_elem_of_cons.
  - constructor; [done|apply (tx_Hnd _ _ _ _ _ Ht)].
  - intros j [->|Hj]%elem_of_cons.
    + rewrite Hn, decide_True by done. by split_and!.
    + assert (j <> i) by congruence. rewrite Hn, decide_False by done. by apply (tx_H _ _ _ _ _ Ht).
  - apply (tx_Lnd _ _ _ _ _ Ht).
  - intros b' Hb'. destruct (tx_L _ _ _ _ _ Ht b' Hb') as (j & Hcj & Hv).
    destruct (decide (b' = b)) as [->|Hb].
    + exists i. split; [apply Hc; auto|]. by rewrite Hn, decide_True.
    + exists j. assert (Hj : j <> i).
      { intros ->. destruct Hblk as [(_ & _ & Eb)|[Hp _]].
        - destruct Hcj as (_ & _ & ?). congruence.
        - destruct Hcj as (_ & Ed & Eb). unfold pinned in Hp. by rewrite decide_True in Hp by (by rewrite Eb). }
      split; [apply Hc; right; done|]. by rewrite Hn, decide_False.
  - intros j Hj HjE. destruct (decide (j = i)) as [->|Hji].
    + rewrite held_in by apply list_elem_of_here. by rewrite Hpi, Hni, Hr.
    + rewrite Hpj by done. rewrite Hn, decide_False by done. rewrite (tx_ref _ _ _ _ _ Ht) by done.
      by rewrite held_cons_ne.
  - intros j Hj HjE [Hji HjH]%not_elem_of_cons. rewrite Hn, decide_False by done.
    by apply (tx_free _ _ _ _ _ Ht).
  - intros j Hj [Hji HjH]%not_elem_of_cons. rewrite Hn, decide_False by done.
    by apply (tx_clean _ _ _ _ _ Ht).
  - intros j Hj. rewrite Hn. case_decide; [by eapply bview_block|]. by apply (tx_data _ _ _ _ _ Ht).
  - apply (tx_disk _ _ _ _ _ Ht).
Qed.

(** [bread] opens the block with its logical content and changes no block's
    content. *)
Lemma tx_bread : b ∈ L \/ (length E + length H + length L < nbuf)%nat ->
  exists i s', bread d b s = Ok i s' /\ tx_inv s' d E (i :: H) L /\
    caches s' d b i /\ data (node s' i) = bview s d b /\
    (forall b', bview s' d b' = bview s d b') /\ dsk s' = dsk s /\ mypid s' = mypid s /\
    i ∉ E /\ i ∉ H /\ (forall j, j <> i -> node s' j = node s j).
Proof.
  intros Hlen. destruct (tx_bio _ _ _ _ _ Ht) as [ord Hinv].
  destruct (bread_ok s ord d b Hinv Hd) as (i & r & Hi & Hch & Hbr).
  - intros i Hs. apply slot_Some in Hs as Hc. pose proof Hc as (Hi & _). destruct (Hop i Hc) as [HE HH].
    split; [by apply (tx_free _ _ _ _ _ Ht)|]. rewrite (tx_ref _ _ _ _ _ Ht) by done.
    pose proof (pinned_range s d L i). pose proof (held_range H i). lia.
  - intros Hs. destruct Hlen as [HbL|Hlen].
    + destruct (tx_L _ _ _ _ _ Ht b HbL) as (j & Hc & _). by apply (proj1 (slot_None s d b) Hs j) in Hc.
    + destruct (tx_room _ _ _ _ _ Ht Hd Hlen) as (i & ? & ? & _). eauto.
  - destruct (chosen_free i r Hi Hch) as (HE & HH & _ & Hr & _). pose proof (pinned_range s d L i).
    pose proof (opened_node s ord d b i r (bview s d b) Hinv Hi) as Hn.
    eexists i, _. split; [exact Hbr|]. split_and!; auto.
    + by apply tx_opened.
    + apply (opened_caches s ord d b i r (bview s d b) Hinv Hd Hi Hch). auto.
    + by rewrite Hn, decide_True.
    + apply (opened_view s ord); auto. lia.
    + intros j Hj. by rewrite Hn, decide_False.
Qed.
End Bread.

(** Facts about a held buffer. *)
Section Held.
Context (s : bio) (d : Z) (E H : list nat) (L : list Z) (i : nat).
Context (Ht : tx_inv s d E H L) (Hd : d <> 0) (Hi : i ∈ H).

Lemma held_lt : (i < nbuf)%nat /\ (i < length (nodes s))%nat.
Proof.
  destruct (tx_H _ _ _ _ _ Ht i Hi) as (Hlt & _). destruct (tx_bio _ _ _ _ _ Ht) as [ord Hinv].
  rewrite (lru_len _ _ (bi_lru _ _ Hinv)). lia.
Qed.

Lemma held_caches : caches s d (blockno (node s i)) i.
Proof. destruct (tx_H _ _ _ _ _ Ht i Hi) as (? & ? & _). by split_and!. Qed.

Lemma held_notE : i ∉ E.
Proof. intros [_ [HH _]]%(tx_E _ _ _ _ _ Ht). done. Qed.

Lemma held_unique b j : caches s d b j -> b = blockno (node s i) -> j = i.
Proof.
  intros Hc ->. destruct (tx_bio _ _ _ _ _ Ht) as [ord Hinv].
  exact (bi_uniq _ _ Hinv _ _ _ _ Hd Hc held_caches).
Qed.

(** What the holder reads is the logical content. *)
Lemma held_view : bview s d (blockno (node s i)) = data (node s i).
Proof.
  destruct (tx_bio _ _ _ _ _ Ht) as [ord Hinv]. destruct (tx_H _ _ _ _ _ Ht i Hi) as (_ & _ & Hv & _).
  unfold bview. by rewrite (proj2 (slot_caches _ _ _ _ _ Hinv Hd) held_caches), Hv.
Qed.

(** Writing into the buffer. *)
Lemma tx_setdata v : is_block v ->
  let s' := upd i (set_data v) s in
  tx_inv s' d E H L /\ data (node s' i) = v /\
  (forall b, bview s' d b = if decide (b = blockno (node s i)) then v else bview s d b).
Proof.
  intros Hv s'. destruct held_lt as [Hlt Hll]. destruct (tx_bio _ _ _ _ _ Ht) as [ord Hinv].
  assert (Hn : forall j, node s' j = if decide (j = i) then set_data v (node s i) else node s j).
  { intros j. unfold s'. rewrite node_upd by done. case_decide; by subst. }
  assert (Hf : forall j, valid (node s' j) = valid (node s j) /\ dev (node s' j) = dev (node s j) /\
    blockno (node s' j) = blockno (node s j) /\ lock (node s' j) = lock (node s j) /\
    refcnt (node s' j) = refcnt (node s j)) by (intros j; rewrite Hn; case_decide; by subst).
  assert (Hp : forall j, pinned s' d L j = pinned s d L j).
  { intros j. destruct (Hf j) as (_ & E1 & E2 & _). unfold pinned. by rewrite E1, E2. }
  assert (Hc : forall b j, caches s' d b j <-> caches s d b j).
  { intros b j. unfold caches. destruct (Hf j) as (_ & -> & -> & _). done. }
  assert (Hinv' : bio_inv s' ord).
  { apply (bio_inv_change s s' ord ord i (set_data v (node s i)) Hinv); auto.
    - apply lru_upd; [apply Hinv|done|done].
    - intros j _ Hj. by rewrite Hn, decide_False.
    - by rewrite Hn, decide_True.
    - intros Hd0 j Hj Hcj. apply Hj. simpl in Hcj, Hd0.
      exact (bi_uniq _ _ Hinv _ _ _ _ Hd0 Hcj (conj Hlt (conj eq_refl eq_refl))).
    - apply (bi_valid _ _ Hinv i Hlt).
    - apply (bi_ref _ _ Hinv i Hlt).
    - apply (bi_held _ _ Hinv i Hlt).
    - simpl. rewrite (tx_ref _ _ _ _ _ Ht i Hlt held_notE), held_in by done.
      pose proof (pinned_range s d L i). lia. }
  split_and!.
  - split; [by exists ord|..].
    + intros j Hj. destruct (Hf j) as (-> & -> & _). by apply (tx_dev _ _ _ _ _ Ht).
    + intros j Hj. destruct (Hf j) as (_ & _ & _ & _ & ->). rewrite Hp. by apply (tx_E _ _ _ _ _ Ht).
    + apply (tx_Hnd _ _ _ _ _ Ht).
    + intros j Hj. destruct (Hf j) as (-> & -> & _ & -> & _). by apply (tx_H _ _ _ _ _ Ht).
    + apply (tx_Lnd _ _ _ _ _ Ht).
    + intros b Hb. destruct (tx_L _ _ _ _ _ Ht b Hb) as (j & Hcj & Hvj). exists j.
      destruct (Hf j) as (-> & _). split; [by apply Hc|done].
    + intros j Hj HE. destruct (Hf j) as (_ & _ & _ & _ & ->). rewrite Hp. by apply (tx_ref _ _ _ _ _ Ht).
    + intros j. destruct (Hf j) as (_ & _ & _ & -> & _). apply (tx_free _ _ _ _ _ Ht).
    + intros j Hj HH. assert (j <> i) by congruence. rewrite Hn, decide_False by done.
      by apply (tx_clean _ _ _ _ _ Ht).
    + intros j Hj. rewrite Hn. case_decide; [done|]. by apply (tx_data _ _ _ _ _ Ht).
    + apply (tx_disk _ _ _ _ _ Ht).
  - by rewrite Hn, decide_True.
  - intros b. unfold bview.
    assert (Hs : slot s' d b = slot s d b).
    { destruct (slot s d b) as [j|] eqn:Es.
      - apply (slot_caches _ _ _ _ _ Hinv' Hd), Hc. by apply slot_Some.
      - apply slot_None. intros j Hj. apply Hc in Hj. by apply (proj1 (slot_None s d b) Es j). }
    rewrite Hs. destruct (slot s d b) as [j|] eqn:Es.
    + apply slot_Some in Es as Hcj. case_decide as Eb.
      * rewrite (held_unique b j Hcj Eb), Hn, decide_True by done. simpl.
        by destruct (tx_H _ _ _ _ _ Ht i Hi) as (_ & _ & -> & _).
      * assert (j <> i) by (intros ->; destruct Hcj as (_ & _ & ?); congruence).
        by rewrite Hn, decide_False.
    + rewrite decide_False; [done|]. intros ->. by apply (proj1 (slot_None s d _) Es i), held_caches.
Qed.

Lemma dread_dwrite b v dk b' : dread (dwrite b v dk) b' = if decide (b' = b) then v else dread dk b'.
Proof.
  unfold dread, dwrite; simpl. case_decide as Eb.
  - subst. by rewrite lookup_insert_eq.
  - by rewrite lookup_insert_ne.
Qed.

(** Writing the buffer to disk. *)
Lemma tx_bwrite : exists s', bwrite i s = Ok tt s' /\ tx_inv s' d E H L /\
  nodes s' = nodes s /\ mypid s' = mypid s /\
  dsk s' = dwrite (blockno (node s i)) (data (node s i)) (dsk s) /\
  (forall b, bview s' d b = bview s d b).
Proof.
  destruct (tx_H _ _ _ _ _ Ht i Hi) as (Hlt & Hdi & Hvi & Hheld).
  destruct (tx_bio _ _ _ _ _ Ht) as [ord Hinv].
  set (s' := set_dsk (dwrite (blockno (node s i)) (data (node s i))) s). exists s'.
  assert (Hn : forall j, node s' j = node s j) by done.
  assert (Hdr : forall b, dread (dsk s') b =
    if decide (b = blockno (node s i)) then data (node s i) else dread (dsk s) b)
    by (intros; apply dread_dwrite).
  (* only [i] caches the block *)
  assert (Hother : forall j, (j < nbuf)%nat -> j <> i -> valid (node s j) = 1 ->
    dread (dsk s') (blockno (node s j)) = dread (dsk s) (blockno (node s j))).
  { intros j Hj Hji Hv. rewrite Hdr. rewrite decide_False; [done|]. intros Eb. apply Hji.
    apply (held_unique (blockno (node s j))); [|done].
    destruct (tx_dev _ _ _ _ _ Ht j Hj) as [Hdj|Hvj]; [by split_and!|congruence]. }
  assert (Hri : refcnt (node s i) <> 0).
  { rewrite (tx_ref _ _ _ _ _ Ht i Hlt held_notE), held_in by done. pose proof (pinned_range s d L i). lia. }
  split_and!; try done.
  - unfold bwrite. mrun. rewrite (proj2 (holdingsleep_spec _ _) Hheld). done.
  - destruct Ht as [A1 A2 A3 A4 A5 A6 A7 A8 A9 A10 A11 A12]. split; auto.
    + exists ord. destruct Hinv as [B1 B2 B3 B4 B5 B6]. split; auto.
      * destruct B1 as [C1 C2 C3 C4]. by split.
      * intros j Hj Hr Hv. rewrite Hn in Hr, Hv |- *.
        assert (Hji : j <> i) by (intros ->; done).
        assert (valid (node s j) = 1) by (destruct (B3 j Hj); congruence).
        rewrite Hother by done. auto.
    + intros j Hj HH Hv. rewrite Hn in Hv |- *. assert (j <> i) by congruence.
      rewrite Hother by done. auto.
    + intros b. rewrite Hdr. case_decide; auto.
  - intros b. unfold bview. assert (Hs : slot s' d b = slot s d b) by done. rewrite Hs.
    destruct (slot s d b) as [j|] eqn:Es.
    + apply slot_Some in Es as Hcj. rewrite Hn. destruct (Z.eqb_spec (valid (node s j)) 0) as [Hv|Hv]; [|done].
      rewrite Hdr. rewrite decide_False; [done|]. intros Eb.
      rewrite (held_unique b j Hcj Eb) in Hv. congruence.
    + rewrite Hdr. rewrite decide_False; [done|]. intros ->.
      by apply (proj1 (slot_None s d _) Es i), held_caches.
Qed.

(** Changing the reference count of a held buffer together with the pins. *)
Lemma tx_repin L' r : NoDup L' ->
  (forall b, b <> blockno (node s i) -> b ∈ L' <-> b ∈ L) ->
  r = 1 + (if decide (blockno (node s i) ∈ L') then 1 else 0) ->
  let s' := upd i (set_refcnt r) s in
  tx_inv s' d E H L' /\ (forall b, bview s' d b = bview s d b).
Proof.
  intros Hnd' HL' Hr s'. destruct held_lt as [Hlt Hll]. destruct (tx_bio _ _ _ _ _ Ht) as [ord Hinv].
  destruct (tx_H _ _ _ _ _ Ht i Hi) as (_ & Hdi & Hvi & Hheld).
  assert (Hn : forall j, node s' j = if decide (j = i) then set_refcnt r (node s i) else node s j).
  { intros j. unfold s'. rewrite node_upd by done. destruct (decide (j = i)) as [->|]; done. }
  assert (Hf : forall j, valid (node s' j) = valid (node s j) /\ dev (node s' j) = dev (node s j) /\
    blockno (node s' j) = blockno (node s j) /\ lock (node s' j) = lock (node s j) /\
    data (node s' j) = data (node s j)) by (intros j; rewrite Hn; destruct (decide (j = i)) as [->|]; done).
  assert (Hne : forall j, (j < nbuf)%nat -> j <> i -> dev (node s j) = d ->
    blockno (node s j) <> blockno (node s i)).
  { intros j Hj Hji Hdj Eb. apply Hji. apply (held_unique (blockno (node s j))); [by split_and!|done]. }
  assert (Hp : forall j, (j < nbuf)%nat -> j <> i -> pinned s' d L' j = pinned s d L j).
  { intros j Hj Hji. destruct (Hf j) as (_ & E1 & E2 & _). unfold pinned. rewrite E1, E2.
    apply decide_ext. split; intros [Hdj Hbj]; (split; [done|]); apply (HL' (blockno (node s j))); auto. }
  assert (Hpi : pinned s' d L' i = if decide (blockno (node s i) ∈ L') then 1 else 0).
  { unfold pinned. destruct (Hf i) as (_ & -> & -> & _). apply decide_ext. tauto. }
  assert (Hc : forall b j, caches s' d b j <-> caches s d b j).
  { intros b j. unfold caches. destruct (Hf j) as (_ & -> & -> & _). done. }
  assert (Hinv' : bio_inv s' ord).
  { assert (1 <= r <= 2) by (rewrite Hr; case_decide; lia).
    apply (bio_inv_change s s' ord ord i (set_refcnt r (node s i)) Hinv).
    - apply lru_upd; [apply Hinv|done|done].
    - done.
    - intros j _ Hj. by rewrite Hn, decide_False.
    - by rewrite Hn, decide_True.
    - intros Hd0 j Hj Hcj. apply Hj. simpl in Hcj, Hd0.
      exact (bi_uniq _ _ Hinv _ _ _ _ Hd0 Hcj (conj Hlt (conj eq_refl eq_refl))).
    - apply (bi_valid _ _ Hinv i Hlt).
    - simpl. lia.
    - simpl. lia.
    - simpl. lia. }
  split.
  - split; [by exists ord|..].
    + intros j Hj. destruct (Hf j) as (-> & -> & _). by apply (tx_dev _ _ _ _ _ Ht).
    + intros j Hj. destruct (tx_E _ _ _ _ _ Ht j Hj) as (Hjl & HjH & Hr'). assert (j <> i) by congruence.
      rewrite Hp, Hn, decide_False by done. done.
    + apply (tx_Hnd _ _ _ _ _ Ht).
    + intros j Hj. destruct (Hf j) as (-> & -> & _ & -> & _). by apply (tx_H _ _ _ _ _ Ht).
    + done.
    + intros b Hb. destruct (decide (b = blockno (node s i))) as [->|Hbi].
      * exists i. destruct (Hf i) as (-> & _). split; [apply Hc, held_caches|done].
      * apply HL' in Hb; [|done]. destruct (tx_L _ _ _ _ _ Ht b Hb) as (j & Hcj & Hvj). exists j.
        destruct (Hf j) as (-> & _). split; [by apply Hc|done].
    + intros j Hj HE. destruct (decide (j = i)) as [->|Hji].
      * by rewrite held_in, Hpi, Hn, decide_True.
      * rewrite Hp by done. rewrite Hn, decide_False by done. by apply (tx_ref _ _ _ _ _ Ht).
    + intros j. destruct (Hf j) as (_ & _ & _ & -> & _). apply (tx_free _ _ _ _ _ Ht).
    + intros j Hj HH Hv. assert (Hji : j <> i) by congruence. destruct (Hf j) as (E1 & _ & -> & _ & ->).
      rewrite E1 in Hv. destruct (tx_clean _ _ _ _ _ Ht j Hj HH Hv) as [|Hb]; [by left|right].
      apply HL'; [|done]. apply Hne; [done|done|].
      destruct (tx_dev _ _ _ _ _ Ht j Hj); [done|congruence].
    + intros j Hj. destruct (Hf j) as (_ & _ & _ & _ & ->). by apply (tx_data _ _ _ _ _ Ht).
    + apply (tx_disk _ _ _ _ _ Ht).
  - intros b. unfold bview.
    assert (Hs : slot s' d b = slot s d b).
    { destruct (slot s d b) as [j|] eqn:Es.
      - apply (slot_caches _ _ _ _ _ Hinv' Hd), Hc. by apply slot_Some.
      - apply slot_None. intros j Hj. apply Hc in Hj. by apply (proj1 (slot_None s d b) Es j). }
    rewrite Hs. destruct (slot s d b) as [j|]; [|done]. destruct (Hf j) as (-> & _ & _ & _ & ->). done.
Qed.

Lemma tx_held_ref : refcnt (node s i) = 1 + (if decide (blockno (node s i) ∈ L) then 1 else 0).
Proof.
  destruct (tx_H _ _ _ _ _ Ht i Hi) as (Hlt & Hdi & _).
  rewrite (tx_ref _ _ _ _ _ Ht i Hlt held_notE), held_in by done. f_equal.
  unfold pinned. apply decide_ext. tauto.
Qed.

(** Pinning for the log. *)
Lemma tx_bpin : blockno (node s i) ∉ L ->
  exists s', bpin i s = Ok tt s' /\ tx_inv s' d E H (L ++ [blockno (node s i)]) /\
    (forall b, bview s' d b = bview s d b) /\ dsk s' = dsk s /\ mypid s' = mypid s /\
    (forall j, blockno (node s' j) = blockno (node s j) /\ data (node s' j) = data (node s j)).
Proof.
  intros Hn. destruct held_lt as [Hlt Hll]. pose proof tx_held_ref as Hr. rewrite decide_False in Hr by done.
  unfold bpin, getf, setf. mrun. rewrite Hr, u32_small by lia.
  destruct (tx_repin (L ++ [blockno (node s i)]) (1 + 0 + 1)) as [Ht' Hv'].
  - apply NoDup_app. split_and!; [apply (tx_Lnd _ _ _ _ _ Ht)| |apply NoDup_singleton].
    intros b Hb ->%list_elem_of_singleton. done.
  - intros b Hb. rewrite elem_of_app, list_elem_of_singleton. tauto.
  - rewrite decide_True; [done|]. apply elem_of_app. right. apply list_elem_of_here.
  - eexists. split; [reflexivity|]. split_and!; try done.
    all: intros j; rewrite node_upd by done; by case_decide.
Qed.

(** Unpinning after the block has been installed. *)
Lemma tx_bunpin L' : L ≡ₚ blockno (node s i) :: L' ->
  exists s', bunpin i s = Ok tt s' /\ tx_inv s' d E H L' /\
    (forall b, bview s' d b = bview s d b) /\ dsk s' = dsk s /\ mypid s' = mypid s /\
    (forall j, blockno (node s' j) = blockno (node s j) /\ data (node s' j) = data (node s j)).
Proof.
  intros HL. destruct held_lt as [Hlt Hll]. pose proof tx_held_ref as Hr.
  assert (Hnd : NoDup (blockno (node s i) :: L')) by (rewrite <- HL; apply (tx_Lnd _ _ _ _ _ Ht)).
  apply NoDup_cons in Hnd as [Hni Hnd'].
  rewrite decide_True in Hr by (rewrite HL; apply list_elem_of_here).
  unfold bunpin, getf, setf. mrun. rewrite Hr, u32_small by lia.
  destruct (tx_repin L' (1 + 1 - 1)) as [Ht' Hv'].
  - done.
  - intros b Hb. rewrite HL, elem_of_cons. tauto.
  - by rewrite decide_False.
  - eexists. split; [reflexivity|]. split_and!; try done.
    all: intros j; rewrite node_upd by done; by case_decide.
Qed.
End Held.

(** Releasing a buffer that is clean or pinned. *)
Lemma tx_brelse s d E H L i : tx_inv s d E (i :: H) L -> d <> 0 ->
  data (node s i) = dread (dsk s) (blockno (node s i)) \/ blockno (node s i) ∈ L ->
  exists s', brelse i s = Ok tt s' /\ tx_inv s' d E H L /\
    (forall b, bview s' d b = bview s d b) /\ dsk s' = dsk s /\ mypid s' = mypid s /\
    (forall j, blockno (node s' j) = blockno (node s j) /\ data (node s' j) = data (node s j) /\
       dev (node s' j) = dev (node s j)).
Proof.
  intros Ht Hd Hclean. assert (Hi : i ∈ i :: H) by apply list_elem_of_here.
  destruct (tx_bio _ _ _ _ _ Ht) as [ord Hinv].
  destruct (tx_H _ _ _ _ _ Ht i Hi) as (Hlt & Hdi & Hvi & Hheld).
  pose proof (tx_held_ref s d E (i :: H) L i Ht Hi) as Hr.
  pose proof (held_notE s d E (i :: H) L i Ht Hi) as HiE.
  destruct (brelse_ok s ord i Hinv Hlt Hheld) as (s' & ord' & Hb & Hinv' & Hdk & Hpid & Hcore & _).
  { rewrite Hr. case_decide; lia. }
  { rewrite Hr. case_decide; [lia|]. intros _ _. by destruct Hclean. }
  assert (Hf : forall j, valid (node s' j) = valid (node s j) /\ dev (node s' j) = dev (node s j) /\
    blockno (node s' j) = blockno (node s j) /\ data (node s' j) = data (node s j) /\
    lock (node s' j) = (if decide (j = i) then mk_sleeplock 0 0 else lock (node s j)) /\
    refcnt (node s' j) = (if decide (j = i) then refcnt (node s i) - 1 else refcnt (node s j))).
  { intros j. specialize (Hcore j). destruct (decide (j = i)) as [->|Hji];
      apply core_eq in Hcore; simpl in Hcore; naive_solver. }
  assert (Hp : forall j, pinned s' d L j = pinned s d L j).
  { intros j. destruct (Hf j) as (_ & E1 & E2 & _). unfold pinned. by rewrite E1, E2. }
  assert (Hc : forall b j, caches s' d b j <-> caches s d b j).
  { intros b j. unfold caches. destruct (Hf j) as (_ & -> & -> & _). done. }
  pose proof (tx_Hnd _ _ _ _ _ Ht) as Hnd. apply NoDup_cons in Hnd as [HiH Hnd].
  exists s'. split_and!; [done| | |done|done|].
  - split.
    + by exists ord'.
    + intros j Hj. destruct (Hf j) as (-> & -> & _). by apply (tx_dev _ _ _ _ _ Ht).
    + intros j Hj. destruct (tx_E _ _ _ _ _ Ht j Hj) as (? & [? ?]%not_elem_of_cons & ?).
      destruct (Hf j) as (_ & _ & _ & _ & _ & ->). rewrite Hp, decide_False by done. done.
    + done.
    + intros j Hj. assert (j <> i) by congruence. destruct (Hf j) as (-> & -> & _ & _ & -> & _).
      rewrite decide_False, Hpid by done. apply (tx_H _ _ _ _ _ Ht). by right.
    + apply (tx_Lnd _ _ _ _ _ Ht).
    + intros b Hb'. destruct (tx_L _ _ _ _ _ Ht b Hb') as (j & Hcj & Hvj). exists j.
      destruct (Hf j) as (-> & _). split; [by apply Hc|done].
    + intros j Hj HE. destruct (Hf j) as (_ & _ & _ & _ & _ & ->). rewrite Hp.
      destruct (decide (j = i)) as [->|Hji].
      * rewrite held_out by done. rewrite (tx_ref _ _ _ _ _ Ht) by done. rewrite held_in by done. lia.
      * rewrite (tx_ref _ _ _ _ _ Ht) by done. by rewrite held_cons_ne.
    + intros j Hj HE HH. destruct (Hf j) as (_ & _ & _ & _ & -> & _).
      destruct (decide (j = i)) as [->|Hji]; [done|]. apply (tx_free _ _ _ _ _ Ht); auto.
      by apply not_elem_of_cons.
    + intros j Hj HH Hv. destruct (Hf j) as (E1 & _ & -> & -> & _). rewrite E1 in Hv. rewrite Hdk.
      destruct (decide (j = i)) as [->|Hji]; [done|]. apply (tx_clean _ _ _ _ _ Ht); auto.
      by apply not_elem_of_cons.
    + intros j Hj. destruct (Hf j) as (_ & _ & _ & -> & _). by apply (tx_data _ _ _ _ _ Ht).
    + intros b. rewrite Hdk. apply (tx_disk _ _ _ _ _ Ht).
  - intros b. unfold bview.
    assert (Hs : slot s' d b = slot s d b).
    { destruct (slot s d b) as [j|] eqn:Es.
      - apply (slot_caches _ _ _ _ _ Hinv' Hd), Hc. by apply slot_Some.
      - apply slot_None. intros j Hj. apply Hc in Hj. by apply (proj1 (slot_None s d b) Es j). }
    rewrite Hs, Hdk. destruct (slot s d b) as [j|]; [|done]. destruct (Hf j) as (-> & _ & _ & -> & _). done.
  - intros j. destruct (Hf j) as (_ & ? & ? & ? & _). done.
Qed.

(** ** The interface used by the log and the file system

    [tx s d X H L]: the process holds the buffers [H], each with its block
    number; the log has pinned [L]; blocks other than [X] are not busy in
    other processes. *)
Definition tx (s : bio) (d : Z) (X : list Z) (H : list (nat * Z)) (L : list Z) : Prop :=
  d <> 0 /\ exists E, tx_inv s d E H.*1 L /\
    (forall i, i ∈ E -> blockno (node s i) ∈ X) /\ (length E <= length X)%nat /\
    (forall i b, (i, b) ∈ H -> blockno (node s i) = b).

#[export] Instance tx_proper s d X : Proper ((≡ₚ) ==> (≡ₚ) ==> iff) (tx s d X).
Proof.
  assert (Hgo : forall H H' L L', H ≡ₚ H' -> L ≡ₚ L' -> tx s d X H L -> tx s d X H' L').
  { intros H H' L L' HH HL (Hd & E & Ht & HE & Hlen & Hb). split; [done|]. exists E. split_and!; auto.
    - by rewrite <- HL, <- HH.
    - intros i b. rewrite <- HH. auto. }
  intros H H' HH L L' HL. split; apply Hgo; auto; by symmetry.
Qed.

Section TxOps.
Context (d : Z) (X : list Z).

Lemma tx_held s H L i b : tx s d X H L -> (i, b) ∈ H -> i ∈ H.*1 /\ blockno (node s i) = b.
Proof.
  intros (_ & E & _ & _ & _ & Hb) Hi. split; [|by apply Hb].
  apply list_elem_of_fmap. by exists (i, b).
Qed.

Lemma tx_len s H L i b : tx s d X H L -> (i, b) ∈ H -> (i < nbuf)%nat /\ (i < length (nodes s))%nat.
Proof.
  intros Ht Hi. pose proof Ht as (Hd & E & Hti & _). destruct (tx_held _ _ _ _ _ Ht Hi) as [Hi' _].
  by apply (held_lt s d E H.*1 L i Hti Hi').
Qed.

Lemma tx_data_view s H L i b : tx s d X H L -> (i, b) ∈ H -> data (node s i) = bview s d b.
Proof.
  intros Ht Hi. pose proof Ht as (Hd & E & Hti & _). destruct (tx_held _ _ _ _ _ Ht Hi) as [Hi' <-].
  symmetry. by apply (held_view s d E H.*1 L i Hti Hd).
Qed.

Lemma tx_block s H L b : tx s d X H L -> is_block (bview s d b).
Proof. intros (_ & E & Hti & _). by eapply bview_block. Qed.

(** Outside the held and pinned blocks the logical content is the disk's. *)
Lemma tx_disk_block s H L : tx s d X H L -> forall b, is_block (dread (dsk s) b).
Proof. intros (_ & E & Ht & _). apply (tx_disk _ _ _ _ _ Ht). Qed.

Lemma tx_unlogged s H L b : tx s d X H L -> b ∉ L -> b ∉ H.*2 -> bview s d b = dread (dsk s) b.
Proof.
  intros (Hd & E & Hti & _ & _ & Hb) HL HH. unfold bview. destruct (slot s d b) as [i|] eqn:Es; [|done].
  apply slot_Some in Es as (Hi & Hdi & Hbi). destruct (Z.eqb_spec (valid (node s i)) 0); [done|].
  destruct (tx_bio _ _ _ _ _ Hti) as [ord Hinv].
  destruct (tx_clean _ _ _ _ _ Hti i Hi) as [Hc|Hc]; [| |by rewrite <- Hbi|by rewrite Hbi in Hc].
  - intros Hin. apply list_elem_of_fmap in Hin as ([j b'] & -> & Hin). apply HH.
    apply list_elem_of_fmap. exists (j, b'). split; [|done]. simpl in *. rewrite <- Hbi. by apply Hb.
  - by destruct (bi_valid _ _ Hinv i Hi).
Qed.

Lemma tx_open s H L b : tx s d X H L -> b ∉ X -> b ∉ H.*2 ->
  b ∈ L \/ (length X + length H + length L < nbuf)%nat ->
  exists i s', bread d b s = Ok i s' /\ tx s' d X ((i, b) :: H) L /\
    (forall b', bview s' d b' = bview s d b') /\ dsk s' = dsk s /\ i ∉ H.*1.
Proof.
  intros (Hd & E & Hti & HE & Hlen & Hb) HbX HbH Hroom.
  destruct (tx_bread s d E H.*1 L b Hti Hd) as (i & s' & Hbr & Hti' & Hc & _ & Hv & Hdk & _ & HiE & HiH & Hn).
  - intros j (_ & _ & Hj). split.
    + intros Hin%HE. congruence.
    + intros Hin. apply list_elem_of_fmap in Hin as ([j' b'] & -> & Hin). apply HbH.
      apply list_elem_of_fmap. exists (j', b'). split; [|done]. simpl in *. rewrite <- Hj. by apply Hb.
  - rewrite length_fmap. destruct Hroom; [by left|right; lia].
  - exists i, s'. split_and!; try done. split; [done|]. exists E. split_and!; [done| |done|].
    + intros j Hj. rewrite Hn by congruence. auto.
    + intros j b' [[= -> ->]|Hin]%elem_of_cons; [apply Hc|]. rewrite Hn; [auto|].
      intros ->. apply HiH. apply list_elem_of_fmap. by exists (i, b').
Qed.

Lemma tx_set s H L i b v : tx s d X H L -> (i, b) ∈ H -> is_block v ->
  tx (upd i (set_data v) s) d X H L /\
  forall b', bview (upd i (set_data v) s) d b' = if decide (b' = b) then v else bview s d b'.
Proof.
  intros Ht Hi Hv. pose proof Ht as (Hd & E & Hti & HE & Hlen & Hb).
  destruct (tx_held _ _ _ _ _ Ht Hi) as [Hi' <-]. destruct (tx_len _ _ _ _ _ Ht Hi) as [_ Hll].
  destruct (tx_setdata s d E H.*1 L i Hti Hd Hi' v Hv) as (Hti' & _ & Hv').
  assert (Hbn : forall j, blockno (node (upd i (set_data v) s) j) = blockno (node s j))
    by (intros j; rewrite node_upd by done; by case_decide).
  split; [|done]. split; [done|]. exists E. split_and!; [done| |done|].
  - intros j. rewrite Hbn. auto.
  - intros j b'. rewrite Hbn. auto.
Qed.

(** Writing through a function of the old content. *)
Lemma tx_modify s H L i b F : tx s d X H L -> (i, b) ∈ H -> is_block (F (bview s d b)) ->
  let s' := upd i (fun n => set_data (F (data n)) n) s in
  tx s' d X H L /\ dsk s' = dsk s /\
  forall b', bview s' d b' = if decide (b' = b) then F (bview s d b) else bview s d b'.
Proof.
  intros Ht Hi Hv s'. destruct (tx_len _ _ _ _ _ Ht Hi) as [_ Hll].
  assert (Hs : s' = upd i (set_data (F (bview s d b))) s).
  { unfold s'. apply upd_congr; [done|]. by rewrite <- (tx_data_view _ _ _ _ _ Ht Hi). }
  destruct (tx_set s H L i b (F (bview s d b)) Ht Hi Hv) as [Ht' Hv']. rewrite Hs. by split_and!.
Qed.

Lemma tx_write s H L i b : tx s d X H L -> (i, b) ∈ H ->
  exists s', bwrite i s = Ok tt s' /\ tx s' d X H L /\ dsk s' = dwrite b (bview s d b) (dsk s) /\
    forall b', bview s' d b' = bview s d b'.
Proof.
  intros Ht Hi. pose proof Ht as (Hd & E & Hti & HE & Hlen & Hb).
  destruct (tx_held _ _ _ _ _ Ht Hi) as [Hi' Hbi].
  destruct (tx_bwrite s d E H.*1 L i Hti Hd Hi') as (s' & Hw & Hti' & Hn & _ & Hdk & Hv).
  exists s'. assert (Hno : forall j, node s' j = node s j) by (intros; unfold node; by rewrite Hn).
  split_and!; [done| |by rewrite <- (tx_data_view _ _ _ _ _ Ht Hi), Hdk, Hbi|done].
  split; [done|]. exists E. split_and!; [done| |done|]; intros j; rewrite Hno; auto.
Qed.

Lemma tx_pin s H L i b : tx s d X H L -> (i, b) ∈ H -> b ∉ L ->
  exists s', bpin i s = Ok tt s' /\ tx s' d X H (L ++ [b]) /\ dsk s' = dsk s /\
    forall b', bview s' d b' = bview s d b'.
Proof.
  intros Ht Hi HL. pose proof Ht as (Hd & E & Hti & HE & Hlen & Hb).
  destruct (tx_held _ _ _ _ _ Ht Hi) as [Hi' Hbi]. rewrite <- Hbi in HL.
  destruct (tx_bpin s d E H.*1 L i Hti Hd Hi' HL) as (s' & Hw & Hti' & Hv & Hdk & _ & Hn).
  exists s'. rewrite Hbi in Hti'. split_and!; try done. split; [done|]. exists E.
  split_and!; [done| |done|]; intros j; destruct (Hn j) as [-> _]; auto.
Qed.

Lemma tx_unpin s H L L' i b : tx s d X H L -> (i, b) ∈ H -> L ≡ₚ b :: L' ->
  exists s', bunpin i s = Ok tt s' /\ tx s' d X H L' /\ dsk s' = dsk s /\
    forall b', bview s' d b' = bview s d b'.
Proof.
  intros Ht Hi HL. pose proof Ht as (Hd & E & Hti & HE & Hlen & Hb).
  destruct (tx_held _ _ _ _ _ Ht Hi) as [Hi' Hbi]. rewrite <- Hbi in HL.
  destruct (tx_bunpin s d E H.*1 L i Hti Hd Hi' L' HL) as (s' & Hw & Hti' & Hv & Hdk & _ & Hn).
  exists s'. split_and!; try done. split; [done|]. exists E.
  split_and!; [done| |done|]; intros j; destruct (Hn j) as [-> _]; auto.
Qed.

Lemma tx_close s H L i b : tx s d X ((i, b) :: H) L ->
  bview s d b = dread (dsk s) b \/ b ∈ L ->
  exists s', brelse i s = Ok tt s' /\ tx s' d X H L /\ dsk s' = dsk s /\
    forall b', bview s' d b' = bview s d b'.
Proof.
  intros Ht Hcl. assert (Hi : (i, b) ∈ (i, b) :: H) by apply list_elem_of_here.
  pose proof Ht as (Hd & E & Hti & HE & Hlen & Hb).
  destruct (tx_held _ _ _ _ _ Ht Hi) as [Hi' Hbi].
  rewrite <- (tx_data_view _ _ _ _ _ Ht Hi), <- Hbi in Hcl.
  destruct (tx_brelse s d E H.*1 L i Hti Hd Hcl) as (s' & Hw & Hti' & Hv & Hdk & _ & Hn).
  exists s'. split_and!; try done. split; [done|]. exists E.
  split_and!; [done| |done|]; intros j; destruct (Hn j) as (-> & _); auto.
  intros b' Hin. apply Hb. by right.
Qed.
End TxOps.

(** A freshly initialised cache. *)
Lemma tx_boot s ord d : bio_inv s ord -> d <> 0 ->
  (forall i, (i < nbuf)%nat -> core (node s i) = core buf0) ->
  (forall b, is_block (dread (dsk s) b)) -> tx s d [] [] [].
Proof.
  intros Hinv Hd Hc Hdk.
  assert (Hz : forall i, (i < nbuf)%nat -> valid (node s i) = 0 /\ lock (node s i) = mk_sleeplock 0 0 /\
    refcnt (node s i) = 0 /\ data (node s i) = zero_block).
  { intros i Hi. pose proof (Hc i Hi) as E. apply core_eq in E as (? & _ & _ & ? & ? & ?). done. }
  split; [done|]. exists []. split_and!; [|by intros i ?%not_elem_of_nil|done|by intros i b ?%not_elem_of_nil].
  split.
  - by exists ord.
  - intros i Hi. destruct (Hz i Hi) as (-> & _). auto.
  - by intros i ?%not_elem_of_nil.
  - constructor.
  - by intros i ?%not_elem_of_nil.
  - constructor.
  - by intros i ?%not_elem_of_nil.
  - intros i Hi _. destruct (Hz i Hi) as (_ & _ & -> & _).
    unfold pinned. rewrite held_out by apply not_elem_of_nil. rewrite decide_False; [done|].
    by intros [_ ?%not_elem_of_nil].
  - intros i Hi _ _. by destruct (Hz i Hi) as (_ & -> & _).
  - intros i Hi _ Hv. destruct (Hz i Hi) as (E & _). congruence.
  - intros i Hi. destruct (Hz i Hi) as (_ & _ & _ & ->). split; [apply length_replicate|].
    apply Forall_replicate. unfold is_byte. lia.
  - done.
Qed.
