(* ===== verification/BioThms.v ===== *)
(** * The theorems of the buffer cache

    What [bread] and [brelse] do on every branch: hit, wait, reuse of the
    least recently used free buffer, exhaustion; and the order of the list. *)

From stdpp Require Import base list gmap strings.
From Stdlib Require Import ZArith Lia.
From S2P Require Import Prelude Layout Sleeplock FsFormat DList Bio BioSpec Tx.
Open Scope Z_scope.

(** C34: [bread] of a cached block returns its only buffer, locked by the
    caller and with the current contents, or waits if someone has it locked;
    a block that is not cached is read from disk into the least recently used
    buffer without references, and without such a buffer [bread] panics. *)
Theorem bread_correct s ord d bn : bio_inv s ord -> d <> 0 ->
  (forall i, (i < nbuf)%nat -> refcnt (node s i) + 1 < 2 ^ 32) ->
  match slot s d bn with
  | Some b => caches s d bn b /\ (forall j, caches s d bn j -> j = b) /\
      if decide (is_free (lock (node s b)))
      then bread d bn s = Ok b (upd b (opened d bn (mypid s) (refcnt (node s b) + 1) (bview s d bn)) s)
      else exists s', bread d bn s = Block s' /\ dsk s' = dsk s
  | None => (forall j, ~ caches s d bn j) /\
      if decide (Exists (fun j => refcnt (node s j) = 0) (seq 0 nbuf))
      then exists b l1 l2, ord = l1 ++ b :: l2 /\ refcnt (node s b) = 0 /\
        (forall j, j ∈ l2 -> refcnt (node s j) <> 0) /\
        bread d bn s = Ok b (upd b (opened d bn (mypid s) 1 (dread (dsk s) bn)) s)
      else bread d bn s = Panic "bget: no buffers"
  end.
Proof.
  intros Hi Hd Hmax. destruct (slot s d bn) as [b|] eqn:Es.
  - pose proof (slot_Some _ _ _ _ Es) as Hc. split; [done|]. split.
    { intros j Hj. by apply (bi_uniq _ _ Hi d bn j b Hd). }
    case_decide as Hf; [by apply (bread_hit s ord); [..|apply Hmax, Hc]|].
    destruct (bread_busy s ord d bn b Hi Hd Es Hf) as (s' & Hr & Hdk & _). by exists s'.
  - split; [by apply slot_None|]. case_decide as Hex.
    + apply (bread_miss s ord d bn Hi Hd Es). apply Exists_exists in Hex as (j & Hj%elem_of_seq & H0).
      exists j. split; [lia|done].
    + apply (bread_panic s ord d bn Hi Es). intros j Hj H0. apply Hex, Exists_exists. exists j.
      split; [apply elem_of_seq; lia|done].
Qed.

(** The cache just after [binit]. *)
Definition ex_zero : bio := mk_bio (replicate (S nbuf) buf0) (mk_disk ∅ []) 1.
Definition ex_bio : bio := match binit ex_zero with Ok _ s => s | _ => ex_zero end.

Lemma ex_bio_ok : bio_inv ex_bio (reverse (seq 0 nbuf)) /\ dsk ex_bio = mk_disk ∅ [] /\
  forall i, (i < nbuf)%nat -> core (node ex_bio i) = core buf0.
Proof.
  destruct (returns_inv _ _ _ (binit_ok ex_zero (length_replicate _ _)
    ltac:(intros; unfold node, ex_zero; cbn [nodes];
          rewrite (nth_lookup_Some _ _ _ buf0) by (apply lookup_replicate; split; [done|lia]); done)))
    as ([] & s1 & Hb & Hinv & Hdk & Hc).
  unfold ex_bio. rewrite Hb. split; [exact Hinv|]. split; [exact Hdk|exact Hc].
Qed.

Lemma ex_bio_ref i : (i < nbuf)%nat -> refcnt (node ex_bio i) = 0.
Proof. intros Hi. destruct ex_bio_ok as (_ & _ & Hc). specialize (Hc i Hi). by apply core_eq in Hc as (_ & _ & _ & _ & ? & _). Qed.

Lemma ex_bio_slot : slot ex_bio 1 5 = None.
Proof.
  apply slot_None. intros j (Hj & Hd & _). destruct ex_bio_ok as (_ & _ & Hc). specialize (Hc j Hj).
  apply core_eq in Hc as (_ & E & _). clear -E Hd. rewrite E in Hd. discriminate Hd.
Qed.

Lemma bread_correct_witness : exists b l1 l2, reverse (seq 0 nbuf) = l1 ++ b :: l2 /\
  bread 1 5 ex_bio = Ok b (upd b (opened 1 5 (mypid ex_bio) 1 (dread (dsk ex_bio) 5)) ex_bio).
Proof.
  destruct ex_bio_ok as (Hi & Hdk & Hc).
  assert (Hmax : forall i, (i < nbuf)%nat -> refcnt (node ex_bio i) + 1 < 2 ^ 32)
    by (intros i Hlt; rewrite ex_bio_ref by done; lia).
  pose proof (bread_correct ex_bio _ 1 5 Hi ltac:(discriminate) Hmax) as H.
  rewrite ex_bio_slot in H. destruct H as [_ H]. rewrite decide_True in H.
  - destruct H as (b & l1 & l2 & E & _ & _ & Hr). exists b, l1, l2. split; [exact E|exact Hr].
  - apply Exists_exists. exists 0%nat. split; [apply elem_of_seq|apply ex_bio_ref]; unfold nbuf, NBUF, MAXOPBLOCKS; lia.
Defined.

(** [brelse] by the holder frees the lock and drops a reference; the last
    release puts the buffer at the most recently used end and keeps the order
    of the others.  Anyone else panics. *)
Theorem brelse_correct s ord b : bio_inv s ord -> (b < nbuf)%nat -> 1 <= refcnt (node s b) ->
  (refcnt (node s b) = 1 -> valid (node s b) <> 0 ->
     data (node s b) = dread (dsk s) (blockno (node s b))) ->
  if decide (held_by (mypid s) (lock (node s b)))
  then exists s' ord', brelse b s = Ok tt s' /\ bio_inv s' ord' /\ dsk s' = dsk s /\
    (forall i, core (node s' i) = if decide (i = b) then core (released (node s b)) else core (node s i)) /\
    (if decide (refcnt (node s b) = 1)
     then exists l1 l2, ord = l1 ++ b :: l2 /\ ord' = b :: l1 ++ l2 else ord' = ord)
  else brelse b s = Panic "brelse".
Proof.
  intros Hi Hb Hr Hcl. case_decide as Hh.
  - destruct (brelse_ok s ord b Hi Hb Hh Hr Hcl) as (s' & ord' & E & Hi' & Hd & _ & Hc & Ho). by exists s', ord'.
  - unfold brelse. mrun. destruct (holdingsleep _ _) eqn:E; [|done]. by apply holdingsleep_spec in E.
Qed.

Lemma brelse_correct_witness : exists s b s' ord', bread 1 5 ex_bio = Ok b s /\
  brelse b s = Ok tt s' /\ bio_inv s' (b :: ord').
Proof.
  destruct ex_bio_ok as (Hi & Hdk & Hc).
  destruct (bread_miss ex_bio _ 1 5 Hi ltac:(discriminate) ex_bio_slot) as (b & l1 & l2 & E & H0 & _ & Hr).
  { exists 0%nat. split; [|apply ex_bio_ref]; unfold nbuf, NBUF, MAXOPBLOCKS; lia. }
  set (s := upd b _ ex_bio) in Hr.
  assert (Hb : (b < nbuf)%nat).
  { apply (lru_elem _ _ b (bi_lru _ _ Hi)). rewrite E. apply elem_of_app. right. apply list_elem_of_here. }
  assert (Hn : node s b = opened 1 5 (mypid ex_bio) 1 (dread (dsk ex_bio) 5) (node ex_bio b)).
  { unfold s. rewrite node_upd, decide_True; [done|done|]. rewrite (lru_len _ _ (bi_lru _ _ Hi)). lia. }
  assert (Hview : bview ex_bio 1 5 = dread (dsk ex_bio) 5) by (unfold bview; by rewrite ex_bio_slot).
  assert (Hs : bio_inv s (reverse (seq 0 nbuf))).
  { unfold s. apply opened_inv; [done|discriminate|done| |lia]. right. split; [apply ex_bio_slot|]. by split. }
  pose proof (brelse_correct s _ b Hs Hb) as H. rewrite Hn in H.
  cbn [opened refcnt valid data blockno lock mypid] in H.
  specialize (H ltac:(lia) ltac:(intros _ _; unfold s; by rewrite upd_dsk)).
  assert (Hpid : mypid s = mypid ex_bio) by (unfold s; apply upd_pid).
  destruct (decide (held_by (mypid s) _)) as [_|Hno] in H; [|exfalso; apply Hno; split; [discriminate|symmetry; exact Hpid]].
  destruct H as (s' & ord' & Hrel & Hi' & _ & _ & Ho). rewrite decide_True in Ho by reflexivity.
  destruct Ho as (l3 & l4 & _ & ->). exists s, b, s', (l3 ++ l4).
  split; [exact Hr|]. split; [exact Hrel|exact Hi'].
Defined.
