(* ===== verification/Log.v ===== *)
(** * The log (kernel/log.c)

    The in-memory log state over the buffer cache.  Critical sections under
    [log.lock] are atomic steps and [sleep(&log, ...)] is a [Block];
    [wakeup(&log)] changes nothing here.  Indexing [log.lh.block] out of its
    bounds is undefined in C and is made a [Panic]. *)

From stdpp Require Import base list gmap strings.
From Stdlib Require Import ZArith Lia.
From S2P Require Import Prelude Layout FsFormat Bio.
Open Scope Z_scope.

(** [struct log] with its [struct logheader]. *)
Record log := mk_log {
  start : Z;
  size : Z;
  outstanding : Z;
  committing : Z;
  ldev : Z;
  lh_n : Z;
  lh_block : list Z;   (* LOGSIZE of them *)
}.

Definition set_outstanding (v : Z) (l : log) := mk_log (start l) (size l) v (committing l) (ldev l) (lh_n l) (lh_block l).
Definition set_committing (v : Z) (l : log) := mk_log (start l) (size l) (outstanding l) v (ldev l) (lh_n l) (lh_block l).
Definition set_lh_n (v : Z) (l : log) := mk_log (start l) (size l) (outstanding l) (committing l) (ldev l) v (lh_block l).
Definition set_lh_block (v : list Z) (l : log) := mk_log (start l) (size l) (outstanding l) (committing l) (ldev l) (lh_n l) v.

Record lstate := mk_lstate { lbio : bio; lg : log }.

(** Running a routine of the buffer cache. *)
Definition B {A} (m : M bio A) : M lstate A := zoomM lbio (fun b s => mk_lstate b (lg s)) m.
Definition getlog {A} (f : log -> A) : M lstate A := getM (fun s => f (lg s)).
Definition setlog (f : log -> log) : M lstate unit := modifyM (fun s => mk_lstate (lbio s) (f (lg s))).

(** [log.lh.block[i]] *)
Definition get_lh_block (i : Z) : M lstate Z :=
  if (0 <=? i) && (i <? LOGSIZE) then getlog (fun l => nth (Z.to_nat i) (lh_block l) 0)
  else panicM "undefined: log.lh.block".
Definition put_lh_block (i v : Z) : M lstate unit :=
  if (0 <=? i) && (i <? LOGSIZE) then setlog (fun l => set_lh_block (<[Z.to_nat i := v]> (lh_block l)) l)
  else panicM "undefined: log.lh.block".

Definition install_trans (recovering : bool) : M lstate unit :=
  let! n := getlog lh_n in
  for_each (seqZ 0 n) (fun tail =>
    let! dev := getlog ldev in
    let! st := getlog start in
    let! lbuf := B (bread dev (u32 (s32 (st + tail + 1)))) in
    let! blk := get_lh_block tail in
    let! dbuf := B (bread dev (u32 blk)) in
    let! d := B (getf lbuf data) in
    do! B (setf dbuf (set_data d)) in
    do! B (bwrite dbuf) in
    do! (if recovering then retM tt else B (bunpin dbuf)) in
    do! B (brelse lbuf) in
    B (brelse dbuf)).

(** The [struct logheader] in a block: [n], then the block numbers. *)
Definition hdr_n (bs : list Z) : Z := s32 (get32 0 bs).
Definition hdr_block (bs : list Z) (i : Z) : Z := s32 (get32 (4 + 4 * i) bs).

Definition read_head : M lstate unit :=
  let! dev := getlog ldev in
  let! st := getlog start in
  let! buf := B (bread dev (u32 st)) in
  let! d := B (getf buf data) in
  do! setlog (set_lh_n (hdr_n d)) in
  do! for_each (seqZ 0 (hdr_n d)) (fun i => put_lh_block i (hdr_block d i)) in
  B (brelse buf).

Definition write_head : M lstate unit :=
  let! dev := getlog ldev in
  let! st := getlog start in
  let! buf := B (bread dev (u32 st)) in
  let! n := getlog lh_n in
  do! B (setf buf (fun b => set_data (put32 0 n (data b)) b)) in
  do! for_each (seqZ 0 n) (fun i =>
    let! blk := get_lh_block i in
    B (setf buf (fun b => set_data (put32 (4 + 4 * i) blk (data b)) b))) in
  do! B (bwrite buf) in
  B (brelse buf).

Definition recover_from_log : M lstate unit :=
  do! read_head in
  do! install_trans true in
  do! setlog (set_lh_n 0) in
  write_head.

(** [sizeof(struct logheader)] is [4 * (1 + LOGSIZE)]. *)
Definition initlog (dev : Z) (sb : superblock) : M lstate unit :=
  if BSIZE <=? 4 * (1 + LOGSIZE) then panicM "initlog: too big logheader"
  else
    do! setlog (fun l => mk_log (s32 (sb_logstart sb)) (s32 (sb_nlog sb)) (outstanding l)
                           (committing l) dev (lh_n l) (lh_block l)) in
    recover_from_log.

Definition begin_op : M lstate unit :=
  let! l := getlog id in
  if negb (committing l =? 0) then blockM
  else if LOGSIZE <? lh_n l + (outstanding l + 1) * MAXOPBLOCKS then blockM
  else setlog (fun l => set_outstanding (outstanding l + 1) l).

Definition write_log : M lstate unit :=
  let! n := getlog lh_n in
  for_each (seqZ 0 n) (fun tail =>
    let! dev := getlog ldev in
    let! st := getlog start in
    let! to := B (bread dev (u32 (s32 (st + tail + 1)))) in
    let! blk := get_lh_block tail in
    let! from := B (bread dev (u32 blk)) in
    let! d := B (getf from data) in
    do! B (setf to (set_data d)) in
    do! B (bwrite to) in
    do! B (brelse from) in
    B (brelse to)).

Definition commit : M lstate unit :=
  let! n := getlog lh_n in
  if 0 <? n then
    do! write_log in
    do! write_head in
    do! install_trans false in
    do! setlog (set_lh_n 0) in
    write_head
  else retM tt.

Definition end_op : M lstate unit :=
  do! setlog (fun l => set_outstanding (outstanding l - 1) l) in
  let! l := getlog id in
  if negb (committing l =? 0) then panicM "log.committing"
  else if outstanding l =? 0 then
    do! setlog (set_committing 1) in
    do! commit in
    setlog (set_committing 0)
  else retM tt.

(** The absorption scan of [log_write]: the first index at or after [i] that
    holds [bn], or [n]. *)
Fixpoint find_logged (blocks : list Z) (bn : Z) (i n : Z) (fuel : nat) : Z :=
  match fuel with
  | O => n
  | S fuel =>
      if i <? n then
        if u32 (nth (Z.to_nat i) blocks 0) =? bn then i else find_logged blocks bn (i + 1) n fuel
      else i
  end.

Definition log_write (b : nat) : M lstate unit :=
  let! l := getlog id in
  if (LOGSIZE <=? lh_n l) || (size l - 1 <=? lh_n l) then panicM "too big a transaction"
  else if outstanding l <? 1 then panicM "log_write outside of trans"
  else
    let! bn := B (getf b blockno) in
    let i := find_logged (lh_block l) bn 0 (lh_n l) (Z.to_nat (lh_n l) + 1) in
    do! put_lh_block i (s32 bn) in
    if i =? lh_n l then
      do! B (bpin b) in
      setlog (fun l => set_lh_n (lh_n l + 1) l)
    else retM tt.
