(* ===== verification/LogSpec.v ===== *)
(** * The log: crash safety

    Every disk write is in the disk's history, so a crash leaves the disk as
    some prefix of the history made it.  [recovered] is what a disk stands
    for: its home blocks with the committed log applied.  The lemmas follow
    [commit] and [recover_from_log] write by write. *)

From stdpp Require Import base list gmap strings.
From Stdlib Require Import ZArith Lia.
From S2P Require Import Prelude Layout Sleeplock FsFormat DList Bio BioSpec Tx Log.
Open Scope Z_scope.

(** ** Sequences of disk writes *)

Definition dapply (ws : list (Z * list Z)) (dk : disk) : disk :=
  foldl (fun dk w => dwrite w.1 w.2 dk) dk ws.

Lemma dapply_app ws ws' dk : dapply (ws ++ ws') dk = dapply ws' (dapply ws dk).
Proof. apply foldl_app. Qed.

Lemma dapply_writes ws dk : writes (dapply ws dk) = writes dk ++ ws.
Proof.
  revert dk; induction ws as [|w ws IH]; intros dk; [by rewrite app_nil_r|].
  cbn [dapply foldl]. unfold dapply in IH. rewrite IH. cbn [writes dwrite]. rewrite <- app_assoc.
  by destruct w.
Qed.

Lemma dread_dapply_out ws dk b : b ∉ ws.*1 -> dread (dapply ws dk) b = dread dk b.
Proof.
  revert dk; induction ws as [|w ws IH]; intros dk Hb; [done|]. cbn [dapply foldl].
  csimpl in Hb. apply not_elem_of_cons in Hb as [Hw Hb]. unfold dapply in IH. rewrite IH by done.
  rewrite dread_dwrite. by rewrite decide_False.
Qed.

Lemma dread_dapply_in ws dk b v : NoDup ws.*1 -> (b, v) ∈ ws -> dread (dapply ws dk) b = v.
Proof.
  revert dk; induction ws as [|w ws IH]; intros dk Hnd Hin; [by apply not_elem_of_nil in Hin|].
  cbn [dapply foldl]. csimpl in Hnd. apply NoDup_cons in Hnd as [Hw Hnd].
  apply elem_of_cons in Hin as [<-|Hin]; [|by apply IH].
  simpl in *. fold (dapply ws (dwrite b v dk)). rewrite dread_dapply_out by done.
  rewrite dread_dwrite. by rewrite decide_True.
Qed.

Lemma dread_dapply_cases ws dk b : dread (dapply ws dk) b = dread dk b \/
  exists v, (b, v) ∈ ws /\ dread (dapply ws dk) b = v.
Proof.
  revert dk; induction ws as [|w ws IH]; intros dk; [by left|]. cbn [dapply foldl].
  destruct (IH (dwrite w.1 w.2 dk)) as [E|(v & Hv & E)]; unfold dapply in E; rewrite E.
  - rewrite dread_dwrite. case_decide as Eb; [|by left]. right. exists w.2. split; [|done].
    rewrite Eb, <- surjective_pairing. apply list_elem_of_here.
  - right. exists v. split; [by right|done].
Qed.

Lemma dapply_block ws dk : Forall (fun w => is_block w.2) ws -> (forall b, is_block (dread dk b)) ->
  forall b, is_block (dread (dapply ws dk) b).
Proof.
  revert dk; induction ws as [|w ws IH]; intros dk Hws Hdk; [done|]. cbn [dapply foldl].
  inversion Hws; subst. apply IH; [done|]. intros b. rewrite dread_dwrite. by case_decide.
Qed.

(** ** What a disk stands for *)

(** The committed log of a disk: the block each log entry goes to. *)
Definition log_dest (st : Z) (dk : disk) : list Z :=
  let h := dread dk st in (fun i => u32 (hdr_block h i)) <$> seqZ 0 (hdr_n h).

(** The index of the last entry for block [b]. *)
Fixpoint last_index (b : Z) (l : list Z) (k : Z) : option Z :=
  match l with
  | [] => None
  | x :: l =>
      match last_index b l (k + 1) with
      | Some j => Some j
      | None => if decide (x = b) then Some k else None
      end
  end.

Definition recovered (st : Z) (dk : disk) (b : Z) : list Z :=
  match last_index b (log_dest st dk) 0 with
  | Some k => dread dk (st + k + 1)
  | None => dread dk b
  end.

Lemma last_index_None b l k : last_index b l k = None <-> b ∉ l.
Proof.
  revert k; induction l as [|x l IH]; intros k; simpl.
  - split; [intros _; apply not_elem_of_nil|done].
  - rewrite not_elem_of_cons, <- (IH (k + 1)). destruct (last_index b l (k + 1)); [naive_solver|].
    case_decide; naive_solver.
Qed.

Lemma last_index_Some b l k j : last_index b l k = Some j ->
  k <= j < k + Z.of_nat (length l) /\ l !! Z.to_nat (j - k) = Some b.
Proof.
  revert k j; induction l as [|x l IH]; intros k j; simpl; [done|].
  destruct (last_index b l (k + 1)) as [j'|] eqn:El; intros Hj.
  - simplify_eq. apply IH in El as [Hr Hl]. split; [lia|].
    replace (Z.to_nat (j - k)) with (S (Z.to_nat (j - (k + 1)))) by lia. done.
  - case_decide; simplify_eq. split; [lia|]. by rewrite Z.sub_diag.
Qed.

Lemma last_index_nodup l j b : NoDup l -> l !! j = Some b ->
  last_index b l 0 = Some (Z.of_nat j).
Proof.
  intros Hnd Hj. destruct (last_index b l 0) as [k|] eqn:E.
  - apply last_index_Some in E as [Hr Hk]. rewrite Z.sub_0_r in Hk.
    pose proof (NoDup_lookup _ _ _ _ Hnd Hj Hk). f_equal. lia.
  - apply last_index_None in E. exfalso. apply E. by eapply list_elem_of_lookup_2.
Qed.

(** The home blocks: those outside the log's own blocks. *)
Definition home (st sz b : Z) : Prop := 0 <= b < 2 ^ 31 /\ (b < st \/ st + sz <= b).

(** ** Running cache operations inside the log *)

Lemma bind_B {A C} (m : M bio A) (k : A -> M lstate C) s a b :
  m (lbio s) = Ok a b -> bindM (B m) k s = k a (mk_lstate b (lg s)).
Proof. intros Hm. unfold bindM, B, zoomM. by rewrite Hm. Qed.

Lemma B_ok {A} (m : M bio A) s a b : m (lbio s) = Ok a b -> B m s = Ok a (mk_lstate b (lg s)).
Proof. intros Hm. unfold B, zoomM. by rewrite Hm. Qed.

Lemma bind_B_getf {A C} i (f : buf -> A) (k : A -> M lstate C) s :
  bindM (B (getf i f)) k s = k (f (node (lbio s) i)) s.
Proof. by destruct s. Qed.

Lemma bind_B_setf {C} i f (k : unit -> M lstate C) s :
  bindM (B (setf i f)) k s = k tt (mk_lstate (upd i f (lbio s)) (lg s)).
Proof. done. Qed.

Lemma bind_getlog {A C} (f : log -> A) (k : A -> M lstate C) s :
  bindM (getlog f) k s = k (f (lg s)) s.
Proof. done. Qed.

Lemma bind_setlog {C} f (k : unit -> M lstate C) s :
  bindM (setlog f) k s = k tt (mk_lstate (lbio s) (f (lg s))).
Proof. done. Qed.

Ltac lrun := repeat first
  [ rewrite bind_assoc | rewrite bind_get | rewrite bind_modify | rewrite bind_ret
  | rewrite bind_getlog | rewrite bind_setlog | rewrite bind_B_getf | rewrite bind_B_setf ];
  cbn beta; cbn [lg lbio].
Ltac lstep H := erewrite bind_B by exact H; cbn beta; cbn [lg lbio].
Tactic Notation "lend" constr(H) := erewrite B_ok by exact H; cbn [lg lbio].

(** The static shape of the log. *)
Record log_shape (l : log) : Prop := {
  ls_dev : ldev l <> 0;
  ls_start : 0 <= start l;
  ls_size : 1 < size l;
  ls_end : start l + size l < 2 ^ 31;
  ls_arr : length (lh_block l) = Z.to_nat LOGSIZE;
}.

(** The blocks in the in-memory header. *)
Definition lh_list (l : log) : list Z := u32 <$> take (Z.to_nat (lh_n l)) (lh_block l).

Definition in_log (l : log) (b : Z) : Prop := start l <= b < start l + size l.

Lemma bind_lh_block {C} tail b (k : Z -> M lstate C) s : log_shape (lg s) ->
  0 <= tail -> lh_list (lg s) !! Z.to_nat tail = Some b ->
  exists v, u32 v = b /\ bindM (get_lh_block tail) k s = k v s.
Proof.
  intros Hsh Ht Hb. unfold lh_list in Hb. rewrite list_lookup_fmap in Hb.
  apply fmap_Some in Hb as (v & Hv & ->). exists v. split; [done|].
  apply lookup_take_Some in Hv as [Hv Hn]. pose proof (lookup_lt_Some _ _ _ Hv) as Hlt.
  rewrite (ls_arr _ Hsh) in Hlt. unfold get_lh_block.
  rewrite (proj2 (Z.leb_le 0 tail)), (proj2 (Z.ltb_lt tail LOGSIZE)) by (unfold LOGSIZE, MAXOPBLOCKS in *; lia).
  cbn [andb]. rewrite bind_getlog. by rewrite (nth_lookup_Some _ _ _ _ Hv).
Qed.

(** Two distinct blocks, one pinned or the other, opened together: used by
    both copying loops. *)
Section CopyBlock.
Context (d : Z) (X L : list Z) (a b : Z).
Context (HaX : a ∉ X) (HbX : b ∉ X) (Hab : a <> b) (HaL : a ∉ L).

Lemma open_two s : tx s d X [] L -> (length X + length L < nbuf)%nat ->
  b ∈ L \/ (length X + 1 + length L < nbuf)%nat ->
  exists i s1 j s2, bread d a s = Ok i s1 /\ bread d b s1 = Ok j s2 /\
    tx s2 d X [(j, b); (i, a)] L /\ (forall x, bview s2 d x = bview s d x) /\ dsk s2 = dsk s.
Proof.
  intros Ht Hr1 Hr2.
  destruct (tx_open d X s [] L a Ht HaX) as (i & s1 & Hi & Ht1 & Hv1 & Hd1 & _).
  { apply not_elem_of_nil. } { right. simpl. lia. }
  destruct (tx_open d X s1 [(i, a)] L b Ht1 HbX) as (j & s2 & Hj & Ht2 & Hv2 & Hd2 & _).
  { csimpl. rewrite list_elem_of_singleton. congruence. } { simpl. destruct Hr2; [by left|right; lia]. }
  exists i, s1, j, s2. split_and!; try done; [|congruence]. intros x. by rewrite Hv2.
Qed.
End CopyBlock.

Local Abbreviation write_log_body tail :=
  (let! dev := getlog ldev in
   let! st := getlog start in
   let! to := B (bread dev (u32 (s32 (st + tail + 1)))) in
   let! blk := get_lh_block tail in
   let! from := B (bread dev (u32 blk)) in
   let! d := B (getf from data) in
   do! B (setf to (set_data d)) in
   do! B (bwrite to) in
   do! B (brelse from) in
   B (brelse to)).

Local Abbreviation install_body recovering tail :=
  (let! dev := getlog ldev in
   let! st := getlog start in
   let! lbuf := B (bread dev (u32 (s32 (st + tail + 1)))) in
   let! blk := get_lh_block tail in
   let! dbuf := B (bread dev (u32 blk)) in
   let! d := B (getf lbuf data) in
   do! B (setf dbuf (set_data d)) in
   do! B (bwrite dbuf) in
   do! (if (recovering : bool) then retM tt else B (bunpin dbuf)) in
   do! B (brelse lbuf) in
   B (brelse dbuf)).

Lemma log_block_addr l tail : log_shape l -> 0 <= tail < size l - 1 ->
  u32 (s32 (start l + tail + 1)) = start l + tail + 1.
Proof. intros [H1 H2 H3 H4 H5] Ht. rewrite s32_small by lia. apply u32_small. lia. Qed.

Section Steps.
Context (l : log) (X : list Z).
Context (Hsh : log_shape l) (HX : forall a, in_log l a -> a ∉ X).
Local Abbreviation d := (ldev l).

Lemma write_log_step s L tail b : tx s d X [] L -> (length X + length L < nbuf)%nat ->
  (forall a, in_log l a -> a ∉ L) -> 0 <= tail < size l - 1 ->
  lh_list l !! Z.to_nat tail = Some b -> b ∈ L -> b ∉ X -> ~ in_log l b ->
  exists s', write_log_body tail (mk_lstate s l) = Ok tt (mk_lstate s' l) /\ tx s' d X [] L /\
    dsk s' = dwrite (start l + tail + 1) (bview s d b) (dsk s) /\
    forall x, bview s' d x = if decide (x = start l + tail + 1) then bview s d b else bview s d x.
Proof.
  intros Ht Hroom HL Htail Hb HbL HbX Hbh. set (a := start l + tail + 1).
  assert (Ha : in_log l a) by (unfold in_log, a; lia). assert (Hab : a <> b) by congruence.
  destruct (open_two d X L a b (HX a Ha) HbX Hab s Ht Hroom (or_introl HbL))
    as (i & s1 & j & s2 & Hi & Hj & Ht2 & Hv2 & Hd2).
  lrun. rewrite (log_block_addr l tail Hsh Htail). fold a.
  lstep Hi.
  destruct (bind_lh_block tail b (fun blk => let! from := B (bread d (u32 blk)) in
    let! dt := B (getf from data) in do! B (setf i (set_data dt)) in
    do! B (bwrite i) in do! B (brelse from) in B (brelse i)) (mk_lstate s1 l) Hsh ltac:(lia) Hb)
    as (blk & Hblk & ->).
  rewrite Hblk. lstep Hj. lrun.
  assert (Hje : (j, b) ∈ [(j, b); (i, a)]) by apply list_elem_of_here.
  assert (Hie : (i, a) ∈ [(j, b); (i, a)]) by (right; apply list_elem_of_here).
  rewrite (tx_data_view d X s2 _ _ _ _ Ht2 Hje), Hv2.
  destruct (tx_set d X s2 _ _ _ _ (bview s d b) Ht2 Hie (tx_block d X s [] L b Ht)) as [Ht3 Hv3].
  set (s3 := upd i (set_data (bview s d b)) s2) in *.
  destruct (tx_write d X s3 _ _ _ _ Ht3 Hie) as (s4 & Hw & Ht4 & Hd4 & Hv4).
  lstep Hw.
  destruct (tx_close d X s4 _ _ _ _ Ht4 (or_intror HbL)) as (s5 & Hr5 & Ht5 & Hd5 & Hv5).
  lstep Hr5.
  assert (Hva : bview s3 d a = bview s d b) by (rewrite Hv3; by rewrite decide_True).
  destruct (tx_close d X s5 _ _ _ _ Ht5) as (s6 & Hr6 & Ht6 & Hd6 & Hv6).
  { left. rewrite Hv5, Hv4, Hd5, Hd4, dread_dwrite. by rewrite decide_True. }
  exists s6. lend Hr6. split_and!; [done|done| |].
  - rewrite Hd6, Hd5, Hd4, Hva. unfold s3. by rewrite upd_dsk, Hd2.
  - intros x. rewrite Hv6, Hv5, Hv4, Hv3. case_decide; [done|apply Hv2].
Qed.

(** One step of the installation; in recovery nothing is pinned. *)
Lemma install_step s L L' (recovering : bool) tail b : tx s d X [] L ->
  (length X + length L < nbuf)%nat -> (if recovering then (length X + 1 + length L < nbuf)%nat else True) ->
  (forall a, in_log l a -> a ∉ L) -> 0 <= tail < size l - 1 ->
  lh_list l !! Z.to_nat tail = Some b -> b ∉ X -> ~ in_log l b ->
  (if recovering then b ∉ L /\ L' = L else L ≡ₚ b :: L') ->
  exists s', install_body recovering tail (mk_lstate s l) = Ok tt (mk_lstate s' l) /\ tx s' d X [] L' /\
    dsk s' = dwrite b (bview s d (start l + tail + 1)) (dsk s) /\
    forall x, bview s' d x = if decide (x = b) then bview s d (start l + tail + 1) else bview s d x.
Proof.
  intros Ht Hroom Hroom2 HL Htail Hb HbX Hbh HL'. set (a := start l + tail + 1).
  assert (Ha : in_log l a) by (unfold in_log, a; lia). assert (Hab : a <> b) by congruence.
  assert (Hr : b ∈ L \/ (length X + 1 + length L < nbuf)%nat).
  { destruct recovering; [by right|left]. rewrite HL'. apply list_elem_of_here. }
  destruct (open_two d X L a b (HX a Ha) HbX Hab s Ht Hroom Hr)
    as (i & s1 & j & s2 & Hi & Hj & Ht2 & Hv2 & Hd2).
  lrun. rewrite (log_block_addr l tail Hsh Htail). fold a.
  lstep Hi.
  destruct (bind_lh_block tail b (fun blk => let! dbuf := B (bread d (u32 blk)) in
    let! dt := B (getf i data) in do! B (setf dbuf (set_data dt)) in do! B (bwrite dbuf) in
    do! (if recovering then retM tt else B (bunpin dbuf)) in do! B (brelse i) in B (brelse dbuf))
    (mk_lstate s1 l) Hsh ltac:(lia) Hb) as (blk & Hblk & ->).
  rewrite Hblk. lstep Hj. lrun.
  assert (Hje : (j, b) ∈ [(j, b); (i, a)]) by apply list_elem_of_here.
  assert (Hie : (i, a) ∈ [(j, b); (i, a)]) by (right; apply list_elem_of_here).
  rewrite (tx_data_view d X s2 _ _ _ _ Ht2 Hie), Hv2.
  destruct (tx_set d X s2 _ _ _ _ (bview s d a) Ht2 Hje (tx_block d X s [] L a Ht)) as [Ht3 Hv3].
  set (s3 := upd j (set_data (bview s d a)) s2) in *.
  destruct (tx_write d X s3 _ _ _ _ Ht3 Hje) as (s4 & Hw & Ht4 & Hd4 & Hv4).
  lstep Hw.
  assert (Hun : exists s5, (if recovering then retM tt else B (bunpin j)) (mk_lstate s4 l) = Ok tt (mk_lstate s5 l) /\
    tx s5 d X [(j, b); (i, a)] L' /\ dsk s5 = dsk s4 /\ forall x, bview s5 d x = bview s4 d x).
  { destruct recovering.
    - destruct HL' as [_ ->]. exists s4. by split_and!.
    - destruct (tx_unpin d X s4 _ _ _ _ _ Ht4 Hje HL') as (s5 & Hu & Ht5 & Hd5 & Hv5).
      exists s5. lend Hu. by split_and!. }
  destruct Hun as (s5 & Hu5 & Ht5 & Hd5 & Hv5). mstep Hu5.
  assert (Hvb : bview s3 d b = bview s d a) by (rewrite Hv3; by rewrite decide_True).
  assert (Hva : bview s3 d a = bview s d a) by (rewrite Hv3, decide_False by done; apply Hv2).
  assert (HaL' : a ∉ L).
  { by apply HL. }
  assert (Hdka : bview s d a = dread (dsk s) a) by (apply (tx_unlogged d X s [] L); [done|done|apply not_elem_of_nil]).
  assert (Ht5' : tx s5 d X [(i, a); (j, b)] L') by (by rewrite (Permutation_swap (j, b) (i, a) [])).
  destruct (tx_close d X s5 _ _ _ _ Ht5') as (s6 & Hr6 & Ht6 & Hd6 & Hv6).
  { left. rewrite Hv5, Hv4, Hva, Hd5, Hd4, dread_dwrite. rewrite decide_False by done.
    unfold s3. by rewrite upd_dsk, Hd2. }
  lstep Hr6.
  destruct (tx_close d X s6 _ _ _ _ Ht6) as (s7 & Hr7 & Ht7 & Hd7 & Hv7).
  { left. rewrite Hv6, Hv5, Hv4, Hd6, Hd5, Hd4, dread_dwrite. by rewrite decide_True. }
  exists s7. lend Hr7. split_and!; [done|done| |].
  - rewrite Hd7, Hd6, Hd5, Hd4, Hvb. unfold s3. by rewrite upd_dsk, Hd2.
  - intros x. rewrite Hv7, Hv6, Hv5, Hv4, Hv3. case_decide; [done|apply Hv2].
Qed.
End Steps.

(** ** The loops *)

Lemma seqZ_split n dn a rest : seqZ 0 n = dn ++ a :: rest ->
  a = Z.of_nat (length dn) /\ 0 <= a < n.
Proof.
  intros E. assert (Ha : seqZ 0 n !! length dn = Some a) by (rewrite E; by apply list_lookup_middle).
  apply lookup_seqZ in Ha. lia.
Qed.

(** The header block after [k] iterations of the copy loop of [write_head]. *)
Fixpoint hdr_fill (blks : list Z) (k : nat) (h : list Z) : list Z :=
  match k with
  | O => h
  | S k => put32 (4 + 4 * Z.of_nat k) (nth k blks 0) (hdr_fill blks k h)
  end.

Lemma put32_block off v h : is_block h -> 0 <= off -> off + 4 <= 1024 -> is_block (put32 off v h).
Proof.
  intros [Hl Hb] Ho Hm. split; [|by apply put_at_byte].
  rewrite length_put_at; [done|done|]. rewrite Hl. unfold bsize. lia.
Qed.

Lemma hdr_fill_block blks k h : is_block h -> (k <= 30)%nat -> is_block (hdr_fill blks k h).
Proof. intros Hh. induction k; intros Hk; [done|]. apply put32_block; [apply IHk|..]; lia. Qed.

Lemma hdr_fill_get blks k h off : is_block h -> (k <= 30)%nat -> 0 <= off -> off + 4 <= 1024 ->
  off + 4 <= 4 \/ 4 + 4 * Z.of_nat k <= off -> get32 off (hdr_fill blks k h) = get32 off h.
Proof.
  intros Hh Hk Ho Hm Hd. induction k as [|k IH]; [done|]. cbn [hdr_fill].
  pose proof (hdr_fill_block blks k h Hh ltac:(lia)) as [Hl _].
  rewrite get_put_ne; [apply IH; lia|lia|lia| |lia]. rewrite Hl. unfold bsize. lia.
Qed.

Lemma hdr_fill_entry blks k h (i : nat) : is_block h -> (k <= 30)%nat -> (i < k)%nat ->
  get32 (4 + 4 * Z.of_nat i) (hdr_fill blks k h) = u32 (nth i blks 0).
Proof.
  intros Hh Hk Hi. induction k as [|k IH]; [lia|]. cbn [hdr_fill].
  pose proof (hdr_fill_block blks k h Hh ltac:(lia)) as [Hl _].
  destruct (decide (i = k)) as [->|Hne].
  - rewrite get_put_eq; [done|lia|]. rewrite Hl. unfold bsize. lia.
  - rewrite get_put_ne; [apply IH; lia|lia|lia| |lia]. rewrite Hl. unfold bsize. lia.
Qed.

Definition new_header (n : Z) (blks h : list Z) : list Z := hdr_fill blks (Z.to_nat n) (put32 0 n h).

Lemma s32_u32 v : s32 (u32 v) = s32 v.
Proof. unfold s32, u32. by rewrite Zplus_mod_idemp_l. Qed.
Lemma u32_s32 v : u32 (s32 v) = u32 v.
Proof. unfold s32, u32. rewrite Zminus_mod_idemp_l. f_equal. lia. Qed.

Lemma new_header_spec n blks h : is_block h -> 0 <= n <= LOGSIZE ->
  is_block (new_header n blks h) /\ hdr_n (new_header n blks h) = n /\
  forall i, 0 <= i < n -> u32 (hdr_block (new_header n blks h) i) = u32 (nth (Z.to_nat i) blks 0).
Proof.
  intros Hh Hn. unfold LOGSIZE, MAXOPBLOCKS in Hn. unfold new_header.
  assert (Hb : is_block (put32 0 n h)) by (apply put32_block; [done|lia|lia]).
  split_and!.
  - apply hdr_fill_block; [done|lia].
  - unfold hdr_n. rewrite hdr_fill_get by (done || lia). rewrite get_put_eq; [|lia|].
    + change (256 ^ Z.of_nat 4) with (2 ^ 32). rewrite Z.mod_small by lia. apply s32_small. lia.
    + destruct Hh as [-> _]. unfold bsize. lia.
  - intros i Hi. unfold hdr_block. rewrite u32_s32.
    rewrite <- (Z2Nat.id i) at 1 by lia. rewrite hdr_fill_entry by (done || lia).
    unfold u32. apply Z.mod_mod. lia.
Qed.

(** The writes of [write_log]: the content of each logged block to its place
    in the log; and those of [install_trans]: each log block to its home. *)
Definition log_writes (st : Z) (Ls : list Z) (V : Z -> list Z) : list (Z * list Z) :=
  imap (fun k b => (st + Z.of_nat k + 1, V b)) Ls.
Definition home_writes (st : Z) (Ls : list Z) (V : Z -> list Z) : list (Z * list Z) :=
  imap (fun k b => (b, V (st + Z.of_nat k + 1))) Ls.

Lemma lookup_log_writes st Ls V k : log_writes st Ls V !! k = (fun b => (st + Z.of_nat k + 1, V b)) <$> Ls !! k.
Proof. apply list_lookup_imap. Qed.
Lemma lookup_home_writes st Ls V k : home_writes st Ls V !! k = (fun b => (b, V (st + Z.of_nat k + 1))) <$> Ls !! k.
Proof. apply list_lookup_imap. Qed.

Lemma length_lh_list l : log_shape l -> 0 <= lh_n l <= LOGSIZE -> length (lh_list l) = Z.to_nat (lh_n l).
Proof.
  intros Hsh Hn. unfold lh_list. rewrite length_fmap, length_take, (ls_arr _ Hsh).
  unfold LOGSIZE, MAXOPBLOCKS in *. lia.
Qed.

Lemma log_writes_fst st Ls V b : b ∈ (log_writes st Ls V).*1 ->
  st + 1 <= b < st + 1 + Z.of_nat (length Ls).
Proof.
  intros Hb. apply list_elem_of_fmap in Hb as (w & -> & Hw).
  apply list_elem_of_lookup in Hw as [k Hk]. rewrite lookup_log_writes in Hk.
  apply fmap_Some in Hk as (x & Hx & ->). apply lookup_lt_Some in Hx. simpl. lia.
Qed.

Section Loops.
Context (l : log) (X : list Z).
Context (Hsh : log_shape l) (HX : forall a, in_log l a -> a ∉ X).
Context (Hn : 0 <= lh_n l <= LOGSIZE) (Hn' : lh_n l <= size l - 1).
Local Abbreviation d := (ldev l).
Local Abbreviation Ls := (lh_list l).

(** The logged blocks are home blocks that no one else keeps busy. *)
Context (Hhome : forall b, b ∈ Ls -> ~ in_log l b /\ b ∉ X).

Lemma Ls_lookup k : (k < length Ls)%nat -> exists b, Ls !! k = Some b /\ ~ in_log l b /\ b ∉ X.
Proof.
  intros Hk. destruct (lookup_lt_is_Some_2 Ls k Hk) as [b Hb]. exists b.
  split; [done|]. apply Hhome. by eapply list_elem_of_lookup_2.
Qed.

Lemma write_log_ok s : tx s d X [] Ls -> (length X + length Ls < nbuf)%nat ->
  exists s', write_log (mk_lstate s l) = Ok tt (mk_lstate s' l) /\ tx s' d X [] Ls /\
    dsk s' = dapply (log_writes (start l) Ls (bview s d)) (dsk s) /\
    (forall x, ~ in_log l x -> bview s' d x = bview s d x).
Proof.
  intros Ht Hroom. set (ws := log_writes (start l) Ls (bview s d)).
  pose proof (length_lh_list l Hsh Hn) as Hlen.
  assert (Hret : returns write_log (mk_lstate s l) (fun _ t => exists s', t = mk_lstate s' l /\
    tx s' d X [] Ls /\ dsk s' = dapply (take (length (seqZ 0 (lh_n l))) ws) (dsk s) /\
    (forall x, ~ in_log l x -> bview s' d x = bview s d x))).
  { eapply (returns_eq _ _ (for_each (seqZ 0 (lh_n l)) _) (mk_lstate s l)); [unfold write_log; by rewrite bind_getlog|].
    apply (returns_for_each _ _ (fun dn t => exists s', t = mk_lstate s' l /\
      tx s' d X [] Ls /\ dsk s' = dapply (take (length dn) ws) (dsk s) /\
      (forall x, ~ in_log l x -> bview s' d x = bview s d x))).
    { exists s. by split_and!. }
    intros dn a rest t E (s1 & -> & Ht1 & Hd1 & Hv1). apply seqZ_split in E as [-> Ha].
    destruct (Ls_lookup (length dn) ltac:(lia)) as (b & Hb & Hbl & HbX).
    destruct (write_log_step l X Hsh HX s1 Ls (Z.of_nat (length dn)) b) as (s2 & Hs & Ht2 & Hd2 & Hv2); auto.
    - intros a Ha' Hin. by apply Hhome in Hin as [? _].
    - lia.
    - by rewrite Nat2Z.id.
    - by eapply list_elem_of_lookup_2.
    - eapply returns_ok; [exact Hs|]. exists s2. split_and!; [done|done| |].
      + rewrite length_app. cbn [length]. rewrite Nat.add_1_r.
        assert (Hw : ws !! length dn = Some (start l + Z.of_nat (length dn) + 1, bview s d b)).
        { unfold ws. by rewrite lookup_log_writes, Hb. }
        rewrite (take_S_r _ _ _ Hw), dapply_app, <- Hd1, Hd2, Hv1 by done. done.
      + intros x Hx. rewrite Hv2, decide_False; [auto|]. intros ->. apply Hx. unfold in_log. lia. }
  apply returns_inv in Hret as ([] & t & Hw & s' & -> & Ht' & Hd' & Hv'). exists s'.
  split_and!; [done|done| |done]. rewrite Hd', take_ge; [done|].
  unfold ws, log_writes. rewrite length_imap, length_seqZ. lia.
Qed.

Lemma install_ok (recovering : bool) s : NoDup Ls -> tx s d X [] (if recovering then [] else Ls) ->
  (length X + (if recovering then 1 else length Ls) < nbuf)%nat ->
  exists s', install_trans recovering (mk_lstate s l) = Ok tt (mk_lstate s' l) /\ tx s' d X [] [] /\
    dsk s' = dapply (home_writes (start l) Ls (bview s d)) (dsk s) /\
    (forall x, x ∉ Ls -> bview s' d x = bview s d x).
Proof.
  intros Hnd Ht Hroom. set (ws := home_writes (start l) Ls (bview s d)).
  pose proof (length_lh_list l Hsh Hn) as Hlen.
  set (Lk := fun k : nat => if recovering then [] else drop k Ls).
  assert (Hret : returns (install_trans recovering) (mk_lstate s l) (fun _ t => exists s', t = mk_lstate s' l /\
    tx s' d X [] (Lk (length (seqZ 0 (lh_n l)))) /\
    dsk s' = dapply (take (length (seqZ 0 (lh_n l))) ws) (dsk s) /\
    (forall x, x ∉ Ls -> bview s' d x = bview s d x))).
  { eapply (returns_eq _ _ (for_each (seqZ 0 (lh_n l)) _) (mk_lstate s l));
      [unfold install_trans; by rewrite bind_getlog|].
    apply (returns_for_each _ _ (fun dn t => exists s', t = mk_lstate s' l /\
      tx s' d X [] (Lk (length dn)) /\ dsk s' = dapply (take (length dn) ws) (dsk s) /\
      (forall x, x ∉ Ls -> bview s' d x = bview s d x))).
    { exists s. by split_and!. }
    intros dn a rest t E (s1 & -> & Ht1 & Hd1 & Hv1). apply seqZ_split in E as [-> Ha].
    destruct (Ls_lookup (length dn) ltac:(lia)) as (b & Hb & Hbl & HbX).
    assert (HLk : (length X + length (Lk (length dn)) < nbuf)%nat).
    { unfold Lk. destruct recovering; [simpl; lia|]. rewrite length_drop. lia. }
    assert (Hlogs : forall a, in_log l a -> a ∉ Ls) by (intros a Ha' Hin; by apply Hhome in Hin as [? _]).
    destruct (install_step l X Hsh HX s1 (Lk (length dn)) (Lk (S (length dn))) recovering
      (Z.of_nat (length dn)) b) as (s2 & Hs & Ht2 & Hd2 & Hv2); auto.
    - unfold Lk. destruct recovering; [simpl; lia|done].
    - intros a Ha' Hin. apply (Hlogs a Ha'). unfold Lk in Hin. destruct recovering; [by apply not_elem_of_nil in Hin|].
      rewrite <- (take_drop (length dn) Ls). apply elem_of_app. by right.
    - lia.
    - by rewrite Nat2Z.id.
    - unfold Lk. destruct recovering; [split; [apply not_elem_of_nil|done]|].
      by rewrite (drop_S _ _ _ Hb).
    - eapply returns_ok; [exact Hs|]. exists s2. rewrite length_app. cbn [length]. rewrite Nat.add_1_r.
      split_and!; [done|done| |].
      + assert (Hw : ws !! length dn = Some (b, bview s d (start l + Z.of_nat (length dn) + 1))).
        { unfold ws. by rewrite lookup_home_writes, Hb. }
        rewrite (take_S_r _ _ _ Hw), dapply_app, <- Hd1, Hd2, Hv1; [done|].
        apply Hlogs. unfold in_log. lia.
      + intros x Hx. rewrite Hv2, decide_False; [auto|]. intros ->. apply Hx. by eapply list_elem_of_lookup_2. }
  apply returns_inv in Hret as ([] & t & Hw & s' & -> & Ht' & Hd' & Hv'). exists s'.
  assert (HL0 : Lk (length (seqZ 0 (lh_n l))) = []).
  { unfold Lk. destruct recovering; [done|]. rewrite length_seqZ. apply drop_ge. lia. }
  rewrite HL0 in Ht'. split_and!; [done|done| |done]. rewrite Hd', take_ge; [done|].
  unfold ws, home_writes. rewrite length_imap, length_seqZ. lia.
Qed.
End Loops.

(** ** The header *)

Section Header.
Context (l : log) (X L : list Z).
Context (Hsh : log_shape l) (HX : start l ∉ X).
Context (Hroom : (length X + length L < nbuf)%nat).
Local Abbreviation d := (ldev l).

Lemma open_header s : tx s d X [] L ->
  exists i s', bread d (u32 (start l)) s = Ok i s' /\ tx s' d X [(i, start l)] L /\
    (forall b, bview s' d b = bview s d b) /\ dsk s' = dsk s.
Proof.
  intros Ht. destruct Hsh as [H1 H2 H3 H4 H5]. rewrite u32_small by lia.
  destruct (tx_open d X s [] L (start l) Ht HX) as (i & s' & Hb & Ht' & Hv & Hd & _);
    [apply not_elem_of_nil|right; simpl; lia|]. exists i, s'. by split_and!.
Qed.

Lemma header_loop s i n (blks := lh_block l) : tx s d X [(i, start l)] L -> 0 <= n <= LOGSIZE ->
  exists s', for_each (seqZ 0 n) (fun k => let! blk := get_lh_block k in
      B (setf i (fun b => set_data (put32 (4 + 4 * k) blk (data b)) b))) (mk_lstate s l) =
      Ok tt (mk_lstate s' l) /\ tx s' d X [(i, start l)] L /\ dsk s' = dsk s /\
    forall b, bview s' d b = if decide (b = start l) then hdr_fill blks (Z.to_nat n) (bview s d b) else bview s d b.
Proof.
  intros Ht Hn. unfold LOGSIZE, MAXOPBLOCKS in Hn.
  assert (Hi : (i, start l) ∈ [(i, start l)]) by apply list_elem_of_here.
  assert (Hret : returns (for_each (seqZ 0 n) (fun k => let! blk := get_lh_block k in
      B (setf i (fun b => set_data (put32 (4 + 4 * k) blk (data b)) b)))) (mk_lstate s l) (fun _ t =>
    exists s', t = mk_lstate s' l /\ tx s' d X [(i, start l)] L /\ dsk s' = dsk s /\
    forall b, bview s' d b = if decide (b = start l) then hdr_fill blks (length (seqZ 0 n)) (bview s d b) else bview s d b)).
  { apply (returns_for_each _ _ (fun dn t => exists s', t = mk_lstate s' l /\
      tx s' d X [(i, start l)] L /\ dsk s' = dsk s /\
      forall b, bview s' d b = if decide (b = start l) then hdr_fill blks (length dn) (bview s d b) else bview s d b)).
    { exists s. split_and!; try done. intros b. by case_decide. }
    intros dn a rest t E (s1 & -> & Ht1 & Hd1 & Hv1). apply seqZ_split in E as [-> Ha].
    pose proof (Hv1 (start l)) as Hvs. rewrite decide_True in Hvs by done.
    set (F := put32 (4 + 4 * Z.of_nat (length dn)) (nth (length dn) blks 0)).
    destruct (tx_modify d X s1 _ _ _ _ F Ht1 Hi) as (Ht2 & Hd2 & Hv2).
    { rewrite Hvs. apply put32_block; [apply hdr_fill_block|..]; [by eapply tx_block|lia|lia|lia]. }
    unfold returns, get_lh_block.
    rewrite (proj2 (Z.leb_le 0 _)), (proj2 (Z.ltb_lt _ LOGSIZE)) by (unfold LOGSIZE, MAXOPBLOCKS; lia).
    cbn [andb]. rewrite bind_getlog. cbn [lg]. rewrite Nat2Z.id.
    eexists. split; [reflexivity|]. rewrite length_app. cbn [length]. rewrite Nat.add_1_r.
    split_and!; [done|by rewrite <- Hd1|]. intros b. rewrite Hv2. case_decide; subst.
    - rewrite Hvs. done.
    - rewrite Hv1. by rewrite decide_False. }
  apply returns_inv in Hret as ([] & t & Hw & s' & -> & Ht' & Hd' & Hv'). exists s'.
  rewrite length_seqZ in Hv'. by split_and!.
Qed.

Lemma write_head_ok s : tx s d X [] L -> 0 <= lh_n l <= LOGSIZE ->
  let h := new_header (lh_n l) (lh_block l) (bview s d (start l)) in
  exists s', write_head (mk_lstate s l) = Ok tt (mk_lstate s' l) /\ tx s' d X [] L /\
    dsk s' = dwrite (start l) h (dsk s) /\
    forall b, bview s' d b = if decide (b = start l) then h else bview s d b.
Proof.
  intros Ht Hn h. destruct (open_header s Ht) as (i & s1 & Hb & Ht1 & Hv1 & Hd1).
  assert (Hi : (i, start l) ∈ [(i, start l)]) by apply list_elem_of_here.
  unfold write_head. lrun. lstep Hb. lrun.
  destruct (tx_modify d X s1 _ _ _ _ (put32 0 (lh_n l)) Ht1 Hi) as (Ht2 & Hd2 & Hv2).
  { apply put32_block; [by eapply tx_block|lia|lia]. }
  set (s2 := upd i _ s1) in *.
  destruct (header_loop s2 i (lh_n l) Ht2 Hn) as (s3 & Hl & Ht3 & Hd3 & Hv3). mstep Hl.
  destruct (tx_write d X s3 _ _ _ _ Ht3 Hi) as (s4 & Hw & Ht4 & Hd4 & Hv4). lstep Hw.
  assert (Hh : bview s3 d (start l) = h).
  { rewrite Hv3, decide_True, Hv2, decide_True, Hv1 by done. done. }
  destruct (tx_close d X s4 _ _ _ _ Ht4) as (s5 & Hr & Ht5 & Hd5 & Hv5).
  { left. rewrite Hv4, Hd4, dread_dwrite. by rewrite decide_True. }
  exists s5. lend Hr. split_and!; [done|done| |].
  - by rewrite Hd5, Hd4, Hh, Hd3, Hd2, Hd1.
  - intros b. rewrite Hv5, Hv4. case_decide as E; [by subst|].
    rewrite Hv3, decide_False, Hv2, decide_False by done. apply Hv1.
Qed.
End Header.

(** ** Crash states of a commit *)

Lemma prefix_app_cases {A} (p l1 l2 : list A) : p `prefix_of` l1 ++ l2 ->
  p `prefix_of` l1 \/ exists q, p = l1 ++ q /\ q `prefix_of` l2.
Proof.
  intros [t E]. destruct (decide (length p <= length l1)%nat) as [Hl|Hl].
  - left. exists (drop (length p) l1). apply (f_equal (take (length l1))) in E.
    rewrite take_app_length, take_app_ge in E by lia.
    rewrite E at 1. f_equal. apply (f_equal (drop (length p))) in E.
    by rewrite drop_app_length in E.
  - right. exists (drop (length l1) p). assert (Ht : take (length l1) p = l1).
    { apply (f_equal (take (length l1))) in E. rewrite take_app_length, take_app_le in E by lia. done. }
    split; [by rewrite <- Ht at 1; rewrite take_drop|]. exists t.
    apply (f_equal (drop (length l1))) in E. by rewrite drop_app_length, drop_app_le in E by lia.
Qed.

Lemma prefix_fst {A B} (p ws : list (A * B)) b : p `prefix_of` ws -> b ∈ p.*1 -> b ∈ ws.*1.
Proof. intros [t ->] Hb. rewrite fmap_app. apply elem_of_app. by left. Qed.

Lemma recovered_idle st dk b : hdr_n (dread dk st) = 0 -> recovered st dk b = dread dk b.
Proof. intros H0. unfold recovered, log_dest. by rewrite H0. Qed.

(** A header that lists [Ls]. *)
Definition hdr_lists (h : list Z) (Ls : list Z) : Prop :=
  hdr_n h = Z.of_nat (length Ls) /\
  forall k b, Ls !! k = Some b -> u32 (hdr_block h (Z.of_nat k)) = b.

Lemma log_dest_lists st dk Ls : hdr_lists (dread dk st) Ls -> log_dest st dk = Ls.
Proof.
  intros [Hn Hb]. unfold log_dest. rewrite Hn. apply list_eq. intros k.
  rewrite list_lookup_fmap. destruct (Ls !! k) as [b|] eqn:E.
  - rewrite lookup_seqZ_lt by (apply lookup_lt_Some in E; lia). simpl. f_equal. by rewrite <- (Hb k b E).
  - rewrite lookup_seqZ_ge; [done|]. apply lookup_ge_None in E. lia.
Qed.

Lemma recovered_committed st dk Ls V b : hdr_lists (dread dk st) Ls -> NoDup Ls ->
  (forall k x, Ls !! k = Some x -> dread dk (st + Z.of_nat k + 1) = V x) ->
  recovered st dk b = if decide (b ∈ Ls) then V b else dread dk b.
Proof.
  intros Hh Hnd HV. unfold recovered. rewrite (log_dest_lists _ _ _ Hh). case_decide as Hin.
  - apply list_elem_of_lookup in Hin as [k Hk]. by rewrite (last_index_nodup _ _ _ Hnd Hk), (HV k b Hk).
  - by rewrite (proj2 (last_index_None b Ls 0) Hin).
Qed.

(** A disk whose log header is one that a crash can leave. *)
Record log_disk (st sz : Z) (dk : disk) : Prop := {
  ld_n : 0 <= hdr_n (dread dk st) <= LOGSIZE;
  ld_size : hdr_n (dread dk st) <= sz - 1;
  ld_nodup : NoDup (log_dest st dk);
  ld_home : forall b, b ∈ log_dest st dk -> ~ (st <= b < st + sz);
}.

Lemma log_disk_idle st sz dk : 1 <= sz -> hdr_n (dread dk st) = 0 -> log_disk st sz dk.
Proof.
  intros Hsz H0. assert (Hnil : log_dest st dk = []) by (unfold log_dest; by rewrite H0).
  split; rewrite ?Hnil, ?H0; [unfold LOGSIZE, MAXOPBLOCKS; lia|lia|constructor|by intros b ?%not_elem_of_nil].
Qed.

Section CommitCrash.
Context (st sz : Z) (dk0 : disk) (Ls : list Z) (V V1 : Z -> list Z) (h1 h0 : list Z).
Context (Hnd : NoDup Ls) (Hlen : Z.of_nat (length Ls) < sz).
Context (Hhome : forall b, b ∈ Ls -> ~ (st <= b < st + sz)).
Context (Hidle : hdr_n (dread dk0 st) = 0) (Hh1 : hdr_lists h1 Ls) (Hh0 : hdr_n h0 = 0).
Context (HV1 : forall k b, Ls !! k = Some b -> V1 (st + Z.of_nat k + 1) = V b).

Definition commit_writes : list (Z * list Z) :=
  log_writes st Ls V ++ (st, h1) :: home_writes st Ls V1 ++ [(st, h0)].

(** The committed contents. *)
Definition new_home (b : Z) : list Z := if decide (b ∈ Ls) then V b else dread dk0 b.

Lemma log_writes_nodup : NoDup (log_writes st Ls V).*1.
Proof.
  apply NoDup_alt. intros i j x. rewrite !list_lookup_fmap, !lookup_log_writes.
  destruct (Ls !! i), (Ls !! j); simpl; intros; simplify_eq. lia.
Qed.

Lemma home_writes_fst : (home_writes st Ls V1).*1 = Ls.
Proof.
  apply list_eq. intros k. rewrite list_lookup_fmap, lookup_home_writes. by destruct (Ls !! k).
Qed.

(** After the log blocks and the header are on disk. *)
Let dk1 := dapply (log_writes st Ls V ++ [(st, h1)]) dk0.

Lemma dk1_log k b : Ls !! k = Some b -> dread dk1 (st + Z.of_nat k + 1) = V b.
Proof.
  intros Hk. unfold dk1. rewrite dapply_app. cbn [dapply foldl fst snd]. rewrite dread_dwrite, decide_False by lia.
  apply dread_dapply_in; [apply log_writes_nodup|]. apply list_elem_of_lookup. exists k.
  by rewrite lookup_log_writes, Hk.
Qed.

Lemma dk1_home b : ~ (st <= b < st + sz) -> dread dk1 b = dread dk0 b.
Proof.
  intros Hb. unfold dk1. rewrite dapply_app. cbn [dapply foldl fst snd]. rewrite dread_dwrite, decide_False by lia.
  apply dread_dapply_out. intros Hin%log_writes_fst. lia.
Qed.

Lemma dk1_head : dread dk1 st = h1.
Proof. unfold dk1. rewrite dapply_app. cbn [dapply foldl fst snd]. rewrite dread_dwrite. by rewrite decide_True. Qed.

(** Once the header is on disk, the new contents are what the disk stands
    for, whatever part of the installation has been done. *)
Lemma installing q b : q `prefix_of` home_writes st Ls V1 -> ~ (st <= b < st + sz) ->
  recovered st (dapply q dk1) b = new_home b.
Proof.
  intros Hq Hb.
  assert (Hout : forall x, st <= x < st + sz -> dread (dapply q dk1) x = dread dk1 x).
  { intros x Hx. apply dread_dapply_out. intros Hin. apply (prefix_fst _ _ _ Hq) in Hin.
    rewrite home_writes_fst in Hin. by apply (Hhome x). }
  rewrite (recovered_committed st _ Ls V).
  - unfold new_home. case_decide as Hin; [done|]. rewrite dread_dapply_out; [by apply dk1_home|].
    intros Hin'. apply (prefix_fst _ _ _ Hq) in Hin'. by rewrite home_writes_fst in Hin'.
  - rewrite Hout by lia. by rewrite dk1_head.
  - done.
  - intros k x Hk. pose proof (lookup_lt_Some _ _ _ Hk). rewrite Hout by lia. by apply dk1_log.
Qed.

Lemma installed b : ~ (st <= b < st + sz) ->
  dread (dapply (home_writes st Ls V1) dk1) b = new_home b.
Proof.
  intros Hb. unfold new_home. case_decide as Hin.
  - apply list_elem_of_lookup in Hin as [k Hk]. apply dread_dapply_in; [by rewrite home_writes_fst|].
    apply list_elem_of_lookup. exists k. rewrite lookup_home_writes, Hk. simpl. by rewrite (HV1 k b Hk).
  - rewrite dread_dapply_out; [by apply dk1_home|]. by rewrite home_writes_fst.
Qed.

(** Every crash state of a commit stands for the old contents or for the new
    ones, and the complete commit for the new ones with an empty log. *)
Lemma commit_crash p : p `prefix_of` commit_writes ->
  (forall b, ~ (st <= b < st + sz) -> recovered st (dapply p dk0) b = dread dk0 b) \/
  (forall b, ~ (st <= b < st + sz) -> recovered st (dapply p dk0) b = new_home b).
Proof.
  intros Hp. unfold commit_writes in Hp. apply prefix_app_cases in Hp as [Hp|(q & -> & Hq)].
  - left. intros b Hb.
    assert (Hout : forall x, ~ (st + 1 <= x < st + sz) -> dread (dapply p dk0) x = dread dk0 x).
    { intros x Hx. apply dread_dapply_out. intros Hin. apply (prefix_fst _ _ _ Hp), log_writes_fst in Hin. lia. }
    rewrite recovered_idle; [apply Hout; lia|]. rewrite Hout by lia. done.
  - destruct q as [|w q].
    { left. intros b Hb. rewrite app_nil_r.
      assert (Hout : forall x, ~ (st + 1 <= x < st + sz) -> dread (dapply (log_writes st Ls V) dk0) x = dread dk0 x).
      { intros x Hx. apply dread_dapply_out. intros Hin. apply log_writes_fst in Hin. lia. }
      rewrite recovered_idle; [apply Hout; lia|]. rewrite Hout by lia. done. }
    right. intros b Hb. apply prefix_cons_inv_1 in Hq as Hw. apply prefix_cons_inv_2 in Hq. subst w.
    replace (log_writes st Ls V ++ (st, h1) :: q) with ((log_writes st Ls V ++ [(st, h1)]) ++ q)
      by (by rewrite <- app_assoc).
    rewrite dapply_app. fold dk1. apply prefix_app_cases in Hq as [Hq|(r & -> & Hr)].
    + by apply installing.
    + destruct r as [|w r]; [rewrite app_nil_r; by apply installing|].
      apply prefix_cons_inv_1 in Hr as Hw. apply prefix_cons_inv_2 in Hr. subst w.
      apply prefix_nil_inv in Hr as ->.
      rewrite dapply_app. cbn [dapply foldl fst snd].
      rewrite recovered_idle by (rewrite dread_dwrite, decide_True by done; done).
      rewrite dread_dwrite, decide_False by lia. by apply installed.
Qed.

(** The header on disk is an empty one or the transaction's. *)
Lemma commit_header p : p `prefix_of` commit_writes ->
  hdr_n (dread (dapply p dk0) st) = 0 \/ dread (dapply p dk0) st = h1.
Proof.
  intros [t Ht]. destruct (dread_dapply_cases p dk0 st) as [->|(v & Hv & ->)]; [by left|].
  assert (Hin : (st, v) ∈ commit_writes) by (rewrite Ht; apply elem_of_app; by left).
  unfold commit_writes in Hin. apply elem_of_app in Hin as [Hin|Hin].
  { apply (list_elem_of_fmap_2 fst), log_writes_fst in Hin. simpl in Hin. lia. }
  apply elem_of_cons in Hin as [[= ->]|Hin]; [by right|].
  apply elem_of_app in Hin as [Hin|Hin].
  - apply (list_elem_of_fmap_2 fst) in Hin. rewrite home_writes_fst in Hin. simpl in Hin.
    apply Hhome in Hin. lia.
  - apply list_elem_of_singleton in Hin as [= ->]. by left.
Qed.

Lemma commit_crash_disk p : Z.of_nat (length Ls) <= LOGSIZE -> p `prefix_of` commit_writes ->
  log_disk st sz (dapply p dk0).
Proof.
  intros HL Hp. destruct (commit_header p Hp) as [H0|H1]; [apply log_disk_idle; [lia|done]|].
  assert (Hls : log_dest st (dapply p dk0) = Ls) by (apply log_dest_lists; by rewrite H1).
  destruct Hh1 as [Hn _]. split; rewrite ?Hls, ?H1, ?Hn; [lia|lia|done|done].
Qed.

Lemma commit_final b : dread (dapply commit_writes dk0) st = h0 /\
  (~ (st <= b < st + sz) -> dread (dapply commit_writes dk0) b = new_home b).
Proof.
  unfold commit_writes.
  replace (log_writes st Ls V ++ (st, h1) :: home_writes st Ls V1 ++ [(st, h0)])
    with (((log_writes st Ls V ++ [(st, h1)]) ++ home_writes st Ls V1) ++ [(st, h0)])
    by (by rewrite <- !app_assoc).
  rewrite dapply_app. cbn [dapply foldl fst snd]. rewrite !dread_dwrite. split.
  - by rewrite decide_True.
  - intros Hb. rewrite decide_False by lia. fold (dapply ((log_writes st Ls V ++ [(st, h1)]) ++ home_writes st Ls V1) dk0).
    rewrite dapply_app. by apply installed.
Qed.
End CommitCrash.

(** ** commit *)

(** A log with a transaction that is ready to be committed. *)
Record log_ready (s : bio) (l : log) (X : list Z) : Prop := {
  lr_shape : log_shape l;
  lr_n : 0 <= lh_n l <= LOGSIZE;
  lr_size : lh_n l <= size l - 1;
  lr_tx : tx s (ldev l) X [] (lh_list l);
  lr_home : forall b, b ∈ lh_list l -> ~ in_log l b /\ b ∉ X;
  lr_X : forall a, in_log l a -> a ∉ X;
  lr_room : (length X + length (lh_list l) < nbuf)%nat;
  lr_idle : hdr_n (dread (dsk s) (start l)) = 0;
}.

Lemma tx_nodup s d X H L : tx s d X H L -> NoDup L.
Proof. intros (_ & E & Ht & _). apply (tx_Lnd _ _ _ _ _ Ht). Qed.

Lemma log_shape_n l n : log_shape l -> log_shape (set_lh_n n l).
Proof. by intros [? ? ? ? ?]. Qed.

Lemma header_lists l h : log_shape l -> 0 <= lh_n l <= LOGSIZE -> is_block h ->
  hdr_lists (new_header (lh_n l) (lh_block l) h) (lh_list l).
Proof.
  intros Hsh Hn Hh. destruct (new_header_spec _ (lh_block l) _ Hh Hn) as (_ & H1 & H2).
  split; [rewrite H1, length_lh_list by done; lia|]. intros k b Hk.
  pose proof (lookup_lt_Some _ _ _ Hk) as Hlt. rewrite length_lh_list in Hlt by done.
  rewrite H2 by lia. unfold lh_list in Hk. rewrite list_lookup_fmap in Hk.
  apply fmap_Some in Hk as (v & Hv & ->). apply lookup_take_Some in Hv as [Hv _].
  by rewrite Nat2Z.id, (nth_lookup_Some _ _ _ _ Hv).
Qed.

Lemma commit_writes_block st Ls V V1 h1 h0 : (forall b, is_block (V b)) -> (forall b, is_block (V1 b)) ->
  is_block h1 -> is_block h0 -> Forall (fun w => is_block w.2) (commit_writes st Ls V V1 h1 h0).
Proof.
  intros HV HV1 H1 H0. unfold commit_writes.
  apply Forall_app. split; [|constructor; [done|apply Forall_app; split; [|by constructor]]];
    apply Forall_lookup; intros k w; rewrite ?lookup_log_writes, ?lookup_home_writes;
    (intros (b & _ & ->)%fmap_Some; simpl; auto).
Qed.

(** [commit] of a non-empty transaction returns, and its disk writes are
    those of [commit_writes]. *)
Lemma commit_run s l X : log_ready s l X -> 0 < lh_n l ->
  exists s' V1 h1 h0, commit (mk_lstate s l) = Ok tt (mk_lstate s' (set_lh_n 0 l)) /\
    tx s' (ldev l) X [] [] /\
    dsk s' = dapply (commit_writes (start l) (lh_list l) (bview s (ldev l)) V1 h1 h0) (dsk s) /\
    hdr_lists h1 (lh_list l) /\ hdr_n h0 = 0 /\
    (forall k b, lh_list l !! k = Some b -> V1 (start l + Z.of_nat k + 1) = bview s (ldev l) b) /\
    Forall (fun w => is_block w.2) (commit_writes (start l) (lh_list l) (bview s (ldev l)) V1 h1 h0).
Proof.
  intros [Hsh Hn Hsz Ht Hhome HX Hroom Hidle] Hpos. pose proof (tx_nodup _ _ _ _ _ Ht) as Hnd.
  pose proof (ls_size _ Hsh) as Hls.
  assert (Hst : in_log l (start l)) by (unfold in_log; lia).
  set (Ls := lh_list l) in *. set (V := bview s (ldev l)).
  unfold commit. lrun. rewrite (proj2 (Z.ltb_lt 0 (lh_n l)) Hpos).
  destruct (write_log_ok l X Hsh HX Hn Hsz Hhome s Ht Hroom) as (s1 & Hw1 & Ht1 & Hd1 & Hv1). mstep Hw1.
  destruct (write_head_ok l X Ls Hsh (HX _ Hst) Hroom s1 Ht1 Hn) as (s2 & Hw2 & Ht2 & Hd2 & Hv2). mstep Hw2.
  set (h1 := new_header (lh_n l) (lh_block l) (bview s1 (ldev l) (start l))) in *.
  destruct (install_ok l X Hsh HX Hn Hsz Hhome false s2 Hnd Ht2 Hroom) as (s3 & Hw3 & Ht3 & Hd3 & Hv3). mstep Hw3.
  set (l' := set_lh_n 0 l). lrun. fold l'.
  destruct (write_head_ok l' X [] (log_shape_n l 0 Hsh) (HX _ Hst)) with (s := s3)
    as (s4 & Hw4 & Ht4 & Hd4 & Hv4); [simpl; lia|done|simpl; unfold LOGSIZE, MAXOPBLOCKS; lia|].
  set (h0 := new_header (lh_n l') (lh_block l') (bview s3 (ldev l') (start l'))) in *.
  exists s4, (bview s2 (ldev l)), h1, h0. split_and!.
  - done.
  - done.
  - rewrite Hd4, Hd3, Hd2, Hd1. unfold commit_writes. rewrite dapply_app. cbn [dapply foldl fst snd].
    by rewrite foldl_app.
  - apply header_lists; [done|done|by eapply tx_block].
  - apply (new_header_spec 0 (lh_block l') (bview s3 (ldev l') (start l')));
      [by eapply tx_block|unfold LOGSIZE, MAXOPBLOCKS; lia].
  - intros k b Hk. pose proof (lookup_lt_Some _ _ _ Hk) as Hlt.
    assert (Hlen : length Ls = Z.to_nat (lh_n l)) by (by apply length_lh_list).
    assert (Ha : in_log l (start l + Z.of_nat k + 1)) by (unfold in_log; lia).
    rewrite Hv2, decide_False by lia.
    rewrite (tx_unlogged (ldev l) X s1 [] Ls); [|done| |apply not_elem_of_nil].
    2: { intros Hin. by apply Hhome in Hin as [? _]. }
    rewrite Hd1. apply dread_dapply_in; [apply log_writes_nodup|]. apply list_elem_of_lookup.
    exists k. rewrite lookup_log_writes. fold Ls. by rewrite Hk.
  - apply commit_writes_block; try (intros b; by eapply tx_block);
      (apply new_header_spec; [by eapply tx_block|simpl; unfold LOGSIZE, MAXOPBLOCKS in *; lia]).
Qed.

(** The home contents that a commit makes durable are the logical ones. *)
Lemma new_home_view s l X b : log_ready s l X -> ~ in_log l b ->
  new_home (dsk s) (lh_list l) (bview s (ldev l)) b = bview s (ldev l) b.
Proof.
  intros Hr Hb. unfold new_home. case_decide as Hin; [done|].
  symmetry. apply (tx_unlogged (ldev l) X s [] (lh_list l)); [apply Hr|done|apply not_elem_of_nil].
Qed.

(** ** Recovery *)

Lemma length_log_dest st dk : 0 <= hdr_n (dread dk st) ->
  Z.of_nat (length (log_dest st dk)) = hdr_n (dread dk st).
Proof. intros. unfold log_dest. rewrite length_fmap, length_seqZ. lia. Qed.

Lemma log_disk_lists st sz dk : log_disk st sz dk -> hdr_lists (dread dk st) (log_dest st dk).
Proof.
  intros [Hn _ _ _]. split; [by rewrite length_log_dest by lia|].
  intros k b Hk. unfold log_dest in Hk. rewrite list_lookup_fmap in Hk.
  apply fmap_Some in Hk as (i & Hi & ->). apply lookup_seqZ in Hi as [-> _]. done.
Qed.

Section RecoverCrash.
Context (st sz : Z) (dk : disk) (h0 : list Z) (Hld : log_disk st sz dk) (Hh0 : hdr_n h0 = 0).
Local Abbreviation Ls := (log_dest st dk).

Definition recover_writes : list (Z * list Z) := home_writes st Ls (dread dk) ++ [(st, h0)].

Lemma recovered_entry k b : Ls !! k = Some b -> recovered st dk b = dread dk (st + Z.of_nat k + 1).
Proof. intros Hk. unfold recovered. by rewrite (last_index_nodup _ _ _ (ld_nodup _ _ _ Hld) Hk). Qed.

Lemma recover_home_fst : (home_writes st Ls (dread dk)).*1 = Ls.
Proof.
  apply list_eq. intros k. rewrite list_lookup_fmap, lookup_home_writes. by destruct (Ls !! k).
Qed.

Lemma recover_partial q b : q `prefix_of` home_writes st Ls (dread dk) -> ~ (st <= b < st + sz) ->
  recovered st (dapply q dk) b = recovered st dk b.
Proof.
  intros Hq Hb. pose proof (length_log_dest st dk ltac:(apply Hld)) as Hlen.
  pose proof (ld_size _ _ _ Hld). pose proof (proj1 (ld_n _ _ _ Hld)).
  assert (Hout : forall x, st <= x < st + sz -> dread (dapply q dk) x = dread dk x).
  { intros x Hx. apply dread_dapply_out. intros Hin. apply (prefix_fst _ _ _ Hq) in Hin.
    rewrite recover_home_fst in Hin. by apply (ld_home _ _ _ Hld x). }
  rewrite (recovered_committed st _ Ls (recovered st dk)).
  - case_decide as Hin; [done|]. rewrite dread_dapply_out.
    + unfold recovered. by rewrite (proj2 (last_index_None b Ls 0) Hin).
    + intros Hin'. apply (prefix_fst _ _ _ Hq) in Hin'. by rewrite recover_home_fst in Hin'.
  - rewrite Hout by lia. by eapply log_disk_lists.
  - apply Hld.
  - intros k x Hk. pose proof (lookup_lt_Some _ _ _ Hk). rewrite Hout by lia. by rewrite (recovered_entry k x Hk).
Qed.

Lemma recover_full b : ~ (st <= b < st + sz) ->
  dread (dapply (home_writes st Ls (dread dk)) dk) b = recovered st dk b.
Proof.
  intros Hb. destruct (decide (b ∈ Ls)) as [Hin|Hin].
  - apply list_elem_of_lookup in Hin as [k Hk]. rewrite (recovered_entry k b Hk).
    apply dread_dapply_in; [rewrite recover_home_fst; apply Hld|].
    apply list_elem_of_lookup. exists k. by rewrite lookup_home_writes, Hk.
  - rewrite dread_dapply_out by (by rewrite recover_home_fst).
    unfold recovered. by rewrite (proj2 (last_index_None b Ls 0) Hin).
Qed.

(** A crash during recovery loses nothing. *)
Lemma recover_crash p b : p `prefix_of` recover_writes -> ~ (st <= b < st + sz) ->
  recovered st (dapply p dk) b = recovered st dk b.
Proof.
  intros Hp Hb. apply prefix_app_cases in Hp as [Hp|(q & -> & Hq)]; [by apply recover_partial|].
  destruct q as [|w q]; [rewrite app_nil_r; by apply recover_partial|].
  pose proof (ld_size _ _ _ Hld). pose proof (proj1 (ld_n _ _ _ Hld)).
  apply prefix_cons_inv_1 in Hq as Hw. apply prefix_cons_inv_2, prefix_nil_inv in Hq as ->. subst w.
  rewrite dapply_app. cbn [dapply foldl fst snd].
  rewrite recovered_idle by (rewrite dread_dwrite, decide_True by done; done).
  rewrite dread_dwrite, decide_False by lia. by apply recover_full.
Qed.

Lemma recover_header p : p `prefix_of` recover_writes ->
  dread (dapply p dk) st = dread dk st \/ dread (dapply p dk) st = h0.
Proof.
  intros [t Ht]. destruct (dread_dapply_cases p dk st) as [->|(v & Hv & ->)]; [by left|].
  assert (Hin : (st, v) ∈ recover_writes) by (rewrite Ht; apply elem_of_app; by left).
  unfold recover_writes in Hin. apply elem_of_app in Hin as [Hin|Hin].
  - apply (list_elem_of_fmap_2 fst) in Hin. rewrite recover_home_fst in Hin. simpl in Hin.
    apply (ld_home _ _ _ Hld) in Hin. pose proof (ld_size _ _ _ Hld). pose proof (ld_n _ _ _ Hld). lia.
  - apply list_elem_of_singleton in Hin as [= ->]. by right.
Qed.

Lemma recover_crash_disk p : p `prefix_of` recover_writes -> log_disk st sz (dapply p dk).
Proof.
  intros Hp. pose proof (ld_size _ _ _ Hld). pose proof (ld_n _ _ _ Hld).
  destruct (recover_header p Hp) as [H1|H1]; [|apply log_disk_idle; [lia|by rewrite H1]].
  assert (Hls : log_dest st (dapply p dk) = log_dest st dk) by (unfold log_dest; by rewrite H1).
  split; rewrite ?Hls, ?H1; apply Hld.
Qed.

Lemma recover_writes_block p b : (forall b, is_block (dread dk b)) -> is_block h0 ->
  p `prefix_of` recover_writes -> is_block (dread (dapply p dk) b).
Proof.
  intros Hdk H0 [t Hp]. apply dapply_block; [|done].
  refine (proj1 (proj1 (Forall_app _ p t) _)). rewrite <- Hp. unfold recover_writes.
  apply Forall_app. split; [|by constructor]. apply Forall_lookup. intros k w. rewrite lookup_home_writes.
  intros (x & _ & ->)%fmap_Some. apply Hdk.
Qed.

Lemma recover_final b : hdr_n (dread (dapply recover_writes dk) st) = 0 /\
  (~ (st <= b < st + sz) -> dread (dapply recover_writes dk) b = recovered st dk b).
Proof.
  unfold recover_writes. rewrite dapply_app. cbn [dapply foldl fst snd]. rewrite !dread_dwrite.
  pose proof (ld_size _ _ _ Hld). pose proof (proj1 (ld_n _ _ _ Hld)).
  split; [by rewrite decide_True|]. intros Hb. rewrite decide_False by lia. by apply recover_full.
Qed.
End RecoverCrash.

(** Two logs with the same static fields. *)
Definition same_log (l l' : log) : Prop :=
  start l' = start l /\ size l' = size l /\ ldev l' = ldev l /\
  outstanding l' = outstanding l /\ committing l' = committing l.

Lemma put_lh_ok i v s l : log_shape l -> 0 <= i < LOGSIZE ->
  put_lh_block i v (mk_lstate s l) = Ok tt (mk_lstate s (set_lh_block (<[Z.to_nat i := v]> (lh_block l)) l)).
Proof.
  intros Hsh Hi. unfold put_lh_block.
  by rewrite (proj2 (Z.leb_le 0 i)), (proj2 (Z.ltb_lt i LOGSIZE)) by lia.
Qed.

(** The copy loop of [read_head]. *)
Lemma read_head_loop s l h n : log_shape l -> 0 <= n <= LOGSIZE ->
  exists l', for_each (seqZ 0 n) (fun i => put_lh_block i (hdr_block h i)) (mk_lstate s l) =
      Ok tt (mk_lstate s l') /\ log_shape l' /\ same_log l l' /\ lh_n l' = lh_n l /\
    forall i, 0 <= i < n -> nth (Z.to_nat i) (lh_block l') 0 = hdr_block h i.
Proof.
  intros Hsh Hn.
  assert (Hret : returns (for_each (seqZ 0 n) (fun i => put_lh_block i (hdr_block h i))) (mk_lstate s l)
    (fun _ t => exists l', t = mk_lstate s l' /\ log_shape l' /\ same_log l l' /\ lh_n l' = lh_n l /\
      forall i, 0 <= i < Z.of_nat (length (seqZ 0 n)) -> nth (Z.to_nat i) (lh_block l') 0 = hdr_block h i)).
  { apply (returns_for_each _ _ (fun dn t => exists l', t = mk_lstate s l' /\ log_shape l' /\
      same_log l l' /\ lh_n l' = lh_n l /\
      forall i, 0 <= i < Z.of_nat (length dn) -> nth (Z.to_nat i) (lh_block l') 0 = hdr_block h i)).
    { exists l. split_and!; try done. intros i Hi. simpl in Hi. lia. }
    intros dn a rest t E (l1 & -> & Hsh1 & Hsame & Hn1 & Hnth). apply seqZ_split in E as [-> Ha].
    eapply returns_ok; [apply put_lh_ok; [done|lia]|]. eexists. split; [done|].
    assert (Hlen : length (lh_block l1) = Z.to_nat LOGSIZE) by apply Hsh1.
    split_and!; [|done|done|].
    - destruct Hsh1. split; try done. cbn [lh_block set_lh_block]. by rewrite length_insert.
    - intros i Hi. rewrite length_app in Hi. cbn [length] in Hi. cbn [lh_block set_lh_block].
      rewrite nth_lookup, Nat2Z.id. destruct (decide (i = Z.of_nat (length dn))) as [->|Hne].
      + rewrite Nat2Z.id, list_lookup_insert_eq by lia. done.
      + rewrite list_lookup_insert_ne by lia. rewrite <- nth_lookup. apply Hnth. lia. }
  apply returns_inv in Hret as ([] & t & Hw & l' & -> & H1 & H2 & H3 & H4). exists l'.
  split_and!; try done. intros i Hi. apply H4. rewrite length_seqZ. lia.
Qed.

Lemma read_head_ok s l X : log_shape l -> start l ∉ X -> tx s (ldev l) X [] [] ->
  (length X < nbuf)%nat -> let h := dread (dsk s) (start l) in 0 <= hdr_n h <= LOGSIZE ->
  exists s' l', read_head (mk_lstate s l) = Ok tt (mk_lstate s' l') /\ tx s' (ldev l) X [] [] /\
    dsk s' = dsk s /\ log_shape l' /\ same_log l l' /\ lh_n l' = hdr_n h /\
    lh_list l' = log_dest (start l) (dsk s).
Proof.
  intros Hsh HX Ht Hroom h Hn.
  destruct (open_header l X [] Hsh HX ltac:(simpl; lia) s Ht) as (i & s1 & Hb & Ht1 & Hv1 & Hd1).
  assert (Hi : (i, start l) ∈ [(i, start l)]) by apply list_elem_of_here.
  unfold read_head. lrun. lstep Hb. lrun.
  assert (Hdata : data (node s1 i) = h).
  { rewrite (tx_data_view (ldev l) X s1 _ _ _ _ Ht1 Hi), Hv1.
    apply (tx_unlogged (ldev l) X s [] []); [done|apply not_elem_of_nil|apply not_elem_of_nil]. }
  rewrite Hdata.
  destruct (read_head_loop s1 (set_lh_n (hdr_n h) l) h (hdr_n h) (log_shape_n l _ Hsh) Hn)
    as (l' & Hl & Hsh' & Hsame & Hn' & Hnth). mstep Hl.
  destruct (tx_close (ldev l) X s1 _ _ _ _ Ht1) as (s2 & Hr & Ht2 & Hd2 & Hv2).
  { left. rewrite Hv1, Hd1. apply (tx_unlogged (ldev l) X s [] []); [done|apply not_elem_of_nil|apply not_elem_of_nil]. }
  exists s2, l'. lend Hr. split_and!; try done; [by rewrite Hd2|].
  unfold lh_list, log_dest. fold h. rewrite Hn'. cbn [lh_n set_lh_n].
  apply list_eq. intros k. rewrite !list_lookup_fmap.
  assert (Hlen : length (lh_block l') = Z.to_nat LOGSIZE) by apply Hsh'.
  destruct (decide (k < Z.to_nat (hdr_n h))%nat) as [Hk|Hk].
  - rewrite lookup_take_lt by done. rewrite lookup_seqZ_lt by lia. simpl.
    specialize (Hnth (Z.of_nat k) ltac:(lia)). rewrite Nat2Z.id in Hnth.
    destruct (nth_lookup_or_length (lh_block l') k 0) as [->|Hge]; [|unfold LOGSIZE, MAXOPBLOCKS in *; lia].
    simpl. by rewrite Hnth.
  - rewrite lookup_take_ge by lia. by rewrite lookup_seqZ_ge by lia.
Qed.

(** [recover_from_log] with nothing pinned. *)
Lemma recover_run s l X : log_shape l -> (forall a, in_log l a -> a ∉ X) ->
  tx s (ldev l) X [] [] -> (length X + 1 < nbuf)%nat ->
  log_disk (start l) (size l) (dsk s) -> (forall b, b ∈ log_dest (start l) (dsk s) -> b ∉ X) ->
  exists s' l' h0, recover_from_log (mk_lstate s l) = Ok tt (mk_lstate s' l') /\
    tx s' (ldev l) X [] [] /\ log_shape l' /\ same_log l l' /\ lh_n l' = 0 /\
    (hdr_n h0 = 0 /\ is_block h0) /\ dsk s' = dapply (recover_writes (start l) (dsk s) h0) (dsk s).
Proof.
  intros Hsh HX Ht Hroom Hld HdX. pose proof (ls_size _ Hsh).
  assert (Hst : in_log l (start l)) by (unfold in_log; lia).
  destruct (read_head_ok s l X Hsh (HX _ Hst) Ht ltac:(lia) (ld_n _ _ _ Hld))
    as (s1 & l1 & Hr1 & Ht1 & Hd1 & Hsh1 & Hsame & Hn1 & Hls).
  pose proof Hsame as (E1 & E2 & E3 & E4 & E5). unfold recover_from_log. mstep Hr1.
  assert (Hhome : forall b, b ∈ lh_list l1 -> ~ in_log l1 b /\ b ∉ X).
  { intros b Hb. rewrite Hls in Hb. unfold in_log. rewrite E1, E2. split; [|by apply HdX].
    by apply (ld_home _ _ _ Hld). }
  assert (HX1 : forall a, in_log l1 a -> a ∉ X) by (unfold in_log; rewrite E1, E2; exact HX).
  pose proof (ld_n _ _ _ Hld) as Hldn. pose proof (ld_size _ _ _ Hld) as Hlds.
  rewrite <- E3 in Ht1.
  destruct (install_ok l1 X Hsh1 HX1 ltac:(by rewrite Hn1) ltac:(by rewrite Hn1, E2) Hhome true s1)
    as (s2 & Hi2 & Ht2 & Hd2 & Hv2); [rewrite Hls; apply Hld|done|done|].
  mstep Hi2. lrun. set (l' := set_lh_n 0 l1).
  destruct (write_head_ok l' X [] (log_shape_n l1 0 Hsh1)) with (s := s2)
    as (s3 & Hw3 & Ht3 & Hd3 & _); [apply HX1; unfold in_log in *; simpl; rewrite E1, E2; lia|simpl; lia|done|simpl; unfold LOGSIZE, MAXOPBLOCKS; lia|].
  set (h0 := new_header (lh_n l') (lh_block l') (bview s2 (ldev l') (start l'))) in *.
  assert (Hh0 : is_block h0 /\ hdr_n h0 = 0).
  { destruct (new_header_spec 0 (lh_block l') (bview s2 (ldev l') (start l'))) as (? & ? & _);
      [by eapply tx_block|unfold LOGSIZE, MAXOPBLOCKS; lia|done]. }
  exists s3, l', h0. rewrite <- E3. split_and!; try done; try apply Hh0.
  - by apply log_shape_n.
  - rewrite Hd3, Hd2, Hd1, Hls. unfold recover_writes. rewrite dapply_app. cbn [dapply foldl fst snd].
    change (start l') with (start l1). rewrite E1. do 2 f_equal.
    unfold home_writes. apply imap_ext. intros k b Hk. f_equal.
    rewrite (tx_unlogged (ldev l1) X s1 [] []), Hd1;
      [done|done|apply not_elem_of_nil|apply not_elem_of_nil].
Qed.
