(* ===== verification/Store.v ===== *)
(** * What the file system asks of the layers below

    [TxOps] are the calls kernel/fs.c makes on blocks: [bread], access to
    [bp->data], [log_write] and [brelse].  [TxLaws] is what it relies on
    inside a transaction: the blocks have logical contents [view], a held
    buffer shows them, an update is visible at once, and a buffer may be
    released once its block is logged or unchanged.  The write-ahead log is an
    instance; a plain map of blocks is another, on which the model runs fast. *)

From stdpp Require Import base list gmap strings.
From Stdlib Require Import ZArith Lia.
From S2P Require Import Prelude FsFormat Bio Tx.
Open Scope Z_scope.

Class TxOps (S : Type) := {
  sbread : Z -> Z -> M S nat;                     (* bread(dev, blockno) *)
  sdata : nat -> M S (list Z);                    (* bp->data *)
  supdate : nat -> (list Z -> list Z) -> M S unit;  (* bp->data = f(bp->data) *)
  slog_write : nat -> M S unit;
  sbrelse : nat -> M S unit;
}.

(** [V] with block [b] replaced. *)
Definition put (f : Z -> list Z) (b : Z) (v : list Z) (x : Z) : list Z :=
  if decide (x = b) then v else f x.

Lemma put_eq f b v : put f b v b = v.
Proof. unfold put. by rewrite decide_True. Qed.
Lemma put_ne f b v x : x <> b -> put f b v x = f x.
Proof. intros. unfold put. by rewrite decide_False. Qed.
Lemma put_ext f g b v x : (forall x, f x = g x) -> put f b v x = put g b v x.
Proof. intros H. unfold put. by rewrite H. Qed.

(** The abstract state: logical contents, contents on disk, logged blocks, the
    device, the blocks that may be logged, how many a transaction may log (none
    outside a transaction) and how many buffers there are; [sinv s H] says that
    [s] holds the buffers [H]. *)
Class TxGhost (S : Type) := {
  sinv : S -> list (nat * Z) -> Prop;
  view : S -> Z -> list Z;
  stable : S -> Z -> list Z;
  logged : S -> list Z;
  sdev : S -> Z;
  shome : S -> Z -> Prop;
  scap : S -> nat;
  sbufs : nat;
}.

Section Kept.
Context {S : Type} `{!TxGhost S}.

(** What no operation inside a transaction changes. *)
Record kept (s s' : S) : Prop := {
  kp_stable : forall x, stable s' x = stable s x;
  kp_dev : sdev s' = sdev s;
  kp_home : forall x, shome s' x <-> shome s x;
  kp_cap : scap s' = scap s;
}.

(** A block whose buffer may be released. *)
Definition settled (s : S) (b : Z) : Prop := b ∈ logged s \/ view s b = stable s b.

#[export] Instance kept_preorder : PreOrder kept.
Proof.
  split; [by intros s; split|]. intros s1 s2 s3 [] [].
  split; intros; try congruence. by transitivity (shome s2 x).
Qed.
End Kept.

Class TxLaws (S : Type) `{!TxOps S} `{!TxGhost S} : Prop := {
  law_block : forall s H b, sinv s H -> is_block (view s b);
  law_logged : forall s H, sinv s H -> NoDup (logged s);
  law_bread : forall s H b, sinv s H -> 0 <= b < 2 ^ 32 -> b ∉ H.*2 ->
    b ∈ logged s \/ (length H + length (logged s) < sbufs)%nat -> settled s b /\
    exists i s', sbread (sdev s) b s = Ok i s' /\ sinv s' ((i, b) :: H) /\ kept s s' /\
      (forall x, view s' x = view s x) /\ logged s' = logged s;
  law_data : forall s H i b, sinv s H -> (i, b) ∈ H -> sdata i s = Ok (view s b) s;
  law_update : forall s H i b f, sinv s H -> (i, b) ∈ H -> is_block (f (view s b)) ->
    exists s', supdate i f s = Ok tt s' /\ sinv s' H /\ kept s s' /\
      (forall x, view s' x = put (view s) b (f (view s b)) x) /\ logged s' = logged s;
  law_log_write : forall s H i b, sinv s H -> (i, b) ∈ H -> shome s b -> (length (logged s) < scap s)%nat ->
    exists s', slog_write i s = Ok tt s' /\ sinv s' H /\ kept s s' /\ (forall x, view s' x = view s x) /\
      logged s' = if decide (b ∈ logged s) then logged s else logged s ++ [b];
  law_brelse : forall s H i b, sinv s ((i, b) :: H) -> settled s b ->
    exists s', sbrelse i s = Ok tt s' /\ sinv s' H /\ kept s s' /\
      (forall x, view s' x = view s x) /\ logged s' = logged s;
}.

(** [begin_op] and [end_op], with which the callers of the file system make its
    updates a transaction. *)
Class OpOps (S : Type) := { sbegin_op : M S unit; send_op : M S unit }.
