(* ===== verification/LogSim.v ===== *)
(** * Transactions and sequences of log operations

    [log_write], [begin_op] and [end_op] in a transaction, a transaction of one
    operation, interleaved operations with the abstract log they simulate, and
    booting from a disk left by a crash: the lemmas behind the theorems of the
    logging layer. *)

From stdpp Require Import base list gmap strings.
From Stdlib Require Import ZArith Lia.
From S2P Require Import Prelude Layout Sleeplock FsFormat DList Bio BioSpec Tx Log LogSpec Store.
Open Scope Z_scope.

(** ** Transactions

    [log_inv] is the state between operations of a transaction: the header on
    disk is empty, the logged blocks are pinned in the cache, and the logical
    content of the blocks is [bview].  [log_write], [begin_op] and [end_op]
    are specified on it. *)


Record log_inv (s : bio) (l : log) (X : list Z) (H : list (nat * Z)) : Prop := {
  li_shape : log_shape l;
  li_n : 0 <= lh_n l <= LOGSIZE;
  li_size : lh_n l <= size l - 1;
  li_tx : tx s (ldev l) X H (lh_list l);
  li_home : forall b, b ∈ lh_list l -> ~ in_log l b /\ b ∉ X;
  li_X : forall a, in_log l a -> a ∉ X;
  li_idle : hdr_n (dread (dsk s) (start l)) = 0;
}.

Lemma log_inv_ready s l X : log_inv s l X [] -> (length X + length (lh_list l) < nbuf)%nat ->
  log_ready s l X.
Proof. intros [? ? ? ? ? ? ?] ?. by split. Qed.

(** ** log_write *)

Lemma find_logged_spec blks bn n : 0 <= n -> forall fuel i, 0 <= i <= n -> n - i < Z.of_nat fuel ->
  let r := find_logged blks bn i n fuel in
  i <= r <= n /\ (forall j, i <= j < r -> u32 (nth (Z.to_nat j) blks 0) <> bn) /\
  (r < n -> u32 (nth (Z.to_nat r) blks 0) = bn).
Proof.
  intros Hn. induction fuel as [|fuel IH]; intros i Hi Hf; [lia|]. cbn [find_logged].
  destruct (Z.ltb_spec i n).
  - destruct (Z.eqb_spec (u32 (nth (Z.to_nat i) blks 0)) bn) as [E|E].
    + split; [lia|]. split; [intros; lia|done].
    + destruct (IH (i + 1) ltac:(lia) ltac:(lia)) as (H1 & H2 & H3). split; [lia|]. split; [|done].
      intros j Hj. destruct (decide (j = i)) as [->|]; [done|]. apply H2. lia.
  - split; [lia|]. split; [intros; lia|lia].
Qed.

Lemma lh_list_elem l b : log_shape l -> 0 <= lh_n l <= LOGSIZE ->
  b ∈ lh_list l <-> exists j, 0 <= j < lh_n l /\ u32 (nth (Z.to_nat j) (lh_block l) 0) = b.
Proof.
  intros Hsh Hn. pose proof (ls_arr _ Hsh) as Ha. unfold lh_list. rewrite list_elem_of_fmap. split.
  - intros (v & -> & Hv). apply elem_of_take in Hv as (k & Hk & Hlt). exists (Z.of_nat k).
    rewrite Nat2Z.id, (nth_lookup_Some _ _ _ _ Hk). split; [lia|done].
  - intros (j & Hj & <-). exists (nth (Z.to_nat j) (lh_block l) 0). split; [done|].
    apply elem_of_take. exists (Z.to_nat j). split; [|lia].
    destruct (nth_lookup_or_length (lh_block l) (Z.to_nat j) 0); [done|lia].
Qed.

(** Overwriting an entry with an equal block number. *)
Lemma lh_list_absorb l i v : u32 v = u32 (nth (Z.to_nat i) (lh_block l) 0) ->
  lh_list (set_lh_block (<[Z.to_nat i := v]> (lh_block l)) l) = lh_list l.
Proof.
  intros Hv. unfold lh_list. cbn [lh_n lh_block set_lh_block]. apply list_eq. intros k.
  rewrite !list_lookup_fmap. destruct (decide (k < Z.to_nat (lh_n l))%nat) as [Hk|Hk].
  - rewrite !lookup_take_lt by done. destruct (decide (k = Z.to_nat i)) as [->|Hne].
    + destruct (lh_block l !! Z.to_nat i) as [w|] eqn:E.
      * rewrite list_lookup_insert_eq by (by eapply lookup_lt_Some). simpl.
        by rewrite Hv, (nth_lookup_Some _ _ _ _ E).
      * rewrite list_insert_ge by (by apply lookup_ge_None). by rewrite E.
    + by rewrite list_lookup_insert_ne.
  - by rewrite !lookup_take_ge by lia.
Qed.

Lemma lh_list_append l v : log_shape l -> 0 <= lh_n l < LOGSIZE ->
  lh_list (set_lh_n (lh_n l + 1) (set_lh_block (<[Z.to_nat (lh_n l) := v]> (lh_block l)) l)) =
  lh_list l ++ [u32 v].
Proof.
  intros Hsh Hn. pose proof (ls_arr _ Hsh) as Ha. unfold lh_list. cbn [lh_n lh_block set_lh_block set_lh_n].
  replace (Z.to_nat (lh_n l + 1)) with (S (Z.to_nat (lh_n l))) by lia.
  rewrite (take_S_r _ _ v) by (apply list_lookup_insert_eq; lia).
  rewrite fmap_app, take_insert_ge by lia. done.
Qed.

Lemma s32_inj_block b : 0 <= b < 2 ^ 31 -> u32 (s32 b) = b.
Proof. intros. rewrite s32_small by lia. apply u32_small. lia. Qed.

Lemma log_write_ok s l X H i b : log_inv s l X H -> (i, b) ∈ H -> home (start l) (size l) b -> b ∉ X ->
  1 <= outstanding l -> lh_n l < LOGSIZE -> lh_n l < size l - 1 ->
  exists s' l', log_write i (mk_lstate s l) = Ok tt (mk_lstate s' l') /\ log_inv s' l' X H /\
    same_log l l' /\ dsk s' = dsk s /\ (forall x, bview s' (ldev l) x = bview s (ldev l) x) /\
    lh_list l' = (if decide (b ∈ lh_list l) then lh_list l else lh_list l ++ [b]) /\
    lh_n l' = lh_n l + (if decide (b ∈ lh_list l) then 0 else 1).
Proof.
  intros [Hsh Hn Hsz Ht Hh HX Hid] Hi [Hb Hbl] HbX Hout Hn1 Hn2.
  destruct (tx_held (ldev l) X s H _ i b Ht Hi) as [_ Hbi]. pose proof (ls_arr _ Hsh) as Ha.
  unfold log_write. lrun. unfold id.
  rewrite (proj2 (Z.leb_gt LOGSIZE (lh_n l))), (proj2 (Z.leb_gt (size l - 1) (lh_n l))),
    (proj2 (Z.ltb_ge (outstanding l) 1)) by lia. cbn [orb]. lrun. rewrite Hbi.
  destruct (find_logged_spec (lh_block l) b (lh_n l) ltac:(lia) (Z.to_nat (lh_n l) + 1) 0 ltac:(lia) ltac:(lia))
    as (Hr & Hnone & Hfound).
  set (r := find_logged (lh_block l) b 0 (lh_n l) (Z.to_nat (lh_n l) + 1)) in *. clearbody r.
  mstep (put_lh_ok r (s32 b) s l Hsh ltac:(lia)).
  destruct (Z.eqb_spec r (lh_n l)) as [->|Hne].
  - assert (HbL : b ∉ lh_list l) by (rewrite lh_list_elem by done; intros (j & Hj & Hjb); by apply (Hnone j)).
    rewrite !decide_False by done.
    destruct (tx_pin (ldev l) X s H (lh_list l) i b Ht Hi HbL) as (s' & Hp & Ht' & Hd' & Hv').
    lstep Hp. unfold setlog, modifyM. cbn [lg lbio lh_n set_lh_block].
    pose proof (lh_list_append l (s32 b) Hsh ltac:(lia)) as Happ. rewrite s32_inj_block in Happ by done.
    set (l' := set_lh_n _ _) in *.
    eexists s', l'. split; [done|]. split_and!; [|done|done|done|done|done]. split.
    + destruct Hsh as [? ? ? ? ?]. split; try done. cbn. by rewrite length_insert.
    + cbn. lia.
    + cbn. lia.
    + by rewrite Happ.
    + intros x Hx. rewrite Happ in Hx. apply elem_of_app in Hx as [Hx|Hx]; [by apply Hh|].
      apply list_elem_of_singleton in Hx as ->. split; [|done]. change (~ in_log l b). unfold in_log. lia.
    + exact HX.
    + by rewrite Hd'.
  - assert (HbL : b ∈ lh_list l) by (rewrite lh_list_elem by done; exists r; split; [lia|apply Hfound; lia]).
    rewrite !decide_True by done.
    pose proof (lh_list_absorb l r (s32 b) ltac:(rewrite s32_inj_block by done; symmetry; apply Hfound; lia)) as Habs.
    eexists s, _. split; [reflexivity|]. split_and!; try done; [|cbn; lia]. split; try done.
    + destruct Hsh as [? ? ? ? ?]. split; try done. cbn. by rewrite length_insert.
    + by rewrite Habs.
    + intros x. rewrite Habs. apply Hh.
Qed.

Lemma log_write_panics i s l : LOGSIZE <= lh_n l \/ size l - 1 <= lh_n l ->
  log_write i (mk_lstate s l) = Panic "too big a transaction".
Proof.
  intros Hor. unfold log_write. lrun. unfold id.
  destruct (Z.leb_spec LOGSIZE (lh_n l)), (Z.leb_spec (size l - 1) (lh_n l)); try done. lia.
Qed.

(** ** Updating a block inside a transaction

    The typical use of the log: read the block, change the buffer, log it,
    release it. *)
Definition update_block (b : Z) (v : list Z) : M lstate unit :=
  let! dev := getlog ldev in
  let! i := B (bread dev b) in
  do! B (setf i (set_data v)) in
  do! log_write i in
  B (brelse i).

Lemma update_block_ok s l X b v : log_inv s l X [] -> home (start l) (size l) b -> b ∉ X ->
  is_block v -> 1 <= outstanding l -> lh_n l < LOGSIZE -> lh_n l < size l - 1 ->
  b ∈ lh_list l \/ (length X + length (lh_list l) < nbuf)%nat ->
  exists s' l', update_block b v (mk_lstate s l) = Ok tt (mk_lstate s' l') /\ log_inv s' l' X [] /\
    same_log l l' /\ dsk s' = dsk s /\
    (forall x, bview s' (ldev l) x = put (bview s (ldev l)) b v x) /\
    lh_list l' = (if decide (b ∈ lh_list l) then lh_list l else lh_list l ++ [b]) /\
    lh_n l' = lh_n l + (if decide (b ∈ lh_list l) then 0 else 1).
Proof.
  intros Hinv Hb HbX Hv Hout Hn1 Hn2 Hroom. pose proof (li_tx _ _ _ _ Hinv) as Ht.
  destruct (tx_open (ldev l) X s [] (lh_list l) b Ht HbX) as (i & s1 & Hbr & Ht1 & Hv1 & Hd1 & _);
    [apply not_elem_of_nil|destruct Hroom; [by left|right; simpl; lia]|].
  assert (Hi : (i, b) ∈ [(i, b)]) by apply list_elem_of_here.
  unfold update_block. lrun. lstep Hbr. lrun.
  destruct (tx_set (ldev l) X s1 _ _ i b v Ht1 Hi Hv) as [Ht2 Hv2]. set (s2 := upd i (set_data v) s1) in *.
  assert (Hinv2 : log_inv s2 l X [(i, b)]).
  { destruct Hinv as [? ? ? _ ? ? ?]. split; try done. unfold s2. by rewrite upd_dsk, Hd1. }
  destruct (log_write_ok s2 l X [(i, b)] i b Hinv2 Hi Hb HbX Hout Hn1 Hn2)
    as (s3 & l3 & Hw & Hinv3 & Hsame & Hd3 & Hv3 & Hls & Hln). mstep Hw.
  pose proof (li_tx _ _ _ _ Hinv3) as Ht3.
  destruct (tx_close (ldev l3) X s3 _ _ _ _ Ht3) as (s4 & Hr & Ht4 & Hd4 & Hv4).
  { right. rewrite Hls. case_decide; [done|]. apply elem_of_app. right. apply list_elem_of_here. }
  exists s4, l3. lend Hr. split_and!; try done.
  - destruct Hinv3 as [? ? ? _ ? ? ?]. split; try done. by rewrite Hd4.
  - rewrite Hd4, Hd3. unfold s2. by rewrite upd_dsk, Hd1.
  - pose proof Hsame as (_ & _ & E3 & _). rewrite E3 in Hv4. intros x. rewrite Hv4, Hv3, Hv2. unfold put.
    destruct (decide (x = b)); [done|]. apply Hv1.
Qed.

(** ** begin_op and end_op *)

Lemma begin_op_spec s l : begin_op (mk_lstate s l) =
  if decide (committing l = 0 /\ lh_n l + (outstanding l + 1) * MAXOPBLOCKS <= LOGSIZE)
  then Ok tt (mk_lstate s (set_outstanding (outstanding l + 1) l)) else Block (mk_lstate s l).
Proof.
  unfold begin_op. lrun. unfold id.
  destruct (Z.eqb_spec (committing l) 0), (Z.ltb_spec LOGSIZE (lh_n l + (outstanding l + 1) * MAXOPBLOCKS));
    case_decide; simpl; try done; exfalso; intuition lia.
Qed.

(** With no block logged the invariant needs little. *)
Lemma log_inv_empty s l l' X : log_inv s l X [] -> log_shape l' -> start l' = start l -> size l' = size l ->
  ldev l' = ldev l -> lh_n l' = 0 -> forall s', tx s' (ldev l) X [] [] ->
  hdr_n (dread (dsk s') (start l)) = 0 -> log_inv s' l' X [].
Proof.
  intros Hinv Hsh E1 E2 E3 E4 s' Ht Hid. pose proof (ls_size _ Hsh).
  assert (Hnil : lh_list l' = []) by (unfold lh_list; by rewrite E4). split.
  - done.
  - rewrite E4. unfold LOGSIZE, MAXOPBLOCKS. lia.
  - lia.
  - by rewrite Hnil, E3.
  - intros b Hb. rewrite Hnil in Hb. by apply not_elem_of_nil in Hb.
  - unfold in_log. rewrite E1, E2. apply Hinv.
  - by rewrite E1.
Qed.

(** The state after a commit. *)
Definition committed (l : log) : log := set_committing 0 (set_lh_n 0 (set_committing 1 (set_outstanding 0 l))).

Lemma end_op_more s l : committing l = 0 -> outstanding l <> 1 ->
  end_op (mk_lstate s l) = Ok tt (mk_lstate s (set_outstanding (outstanding l - 1) l)).
Proof.
  intros Hc Ho. unfold end_op. lrun. unfold id. cbn [committing outstanding set_outstanding].
  rewrite Hc. cbn [Z.eqb negb]. by rewrite (proj2 (Z.eqb_neq (outstanding l - 1) 0)) by lia.
Qed.

(** A disk the machine can be restarted from. *)
Definition bootable (st sz : Z) (dk : disk) : Prop :=
  log_disk st sz dk /\ forall b, is_block (dread dk b).

(** Crash states of a sequence of disk writes: each can be restarted from, and
    stands for the home contents [old] or for [new]. *)
Definition all_or_nothing (st sz : Z) (dk : disk) (ws : list (Z * list Z)) (old new : Z -> list Z) : Prop :=
  forall p, p `prefix_of` ws -> bootable st sz (dapply p dk) /\
    ((forall b, ~ (st <= b < st + sz) -> recovered st (dapply p dk) b = old b) \/
    (forall b, ~ (st <= b < st + sz) -> recovered st (dapply p dk) b = new b)).

Lemma log_inv_bootable s l X H : log_inv s l X H -> bootable (start l) (size l) (dsk s).
Proof.
  intros Hinv. split; [|eapply tx_disk_block, Hinv]. apply log_disk_idle; [|apply Hinv].
  pose proof (ls_size _ (li_shape _ _ _ _ Hinv)). lia.
Qed.

Lemma end_op_commit s l X : log_inv s l X [] -> (length X + length (lh_list l) < nbuf)%nat ->
  committing l = 0 -> outstanding l = 1 ->
  exists s' ws, end_op (mk_lstate s l) = Ok tt (mk_lstate s' (committed l)) /\
    log_inv s' (committed l) X [] /\ dsk s' = dapply ws (dsk s) /\
    (forall b, ~ in_log l b -> dread (dsk s') b = bview s (ldev l) b) /\
    all_or_nothing (start l) (size l) (dsk s) ws (dread (dsk s)) (bview s (ldev l)).
Proof.
  intros Hinv Hroom Hc Ho. unfold end_op. lrun. unfold id. cbn [committing outstanding set_outstanding].
  rewrite Hc, Ho. change (1 - 1) with 0. cbn [Z.eqb negb]. lrun.
  set (l1 := set_committing 1 (set_outstanding 0 l)).
  assert (Hr : log_ready s l1 X) by (apply log_inv_ready; [destruct Hinv as [[? ? ? ? ?] ? ? ? ? ? ?]; by split|done]).
  pose proof (lr_tx _ _ _ Hr) as Ht1.
  destruct (Z.ltb_spec 0 (lh_n l)) as [Hpos|Hz].
  - destruct (commit_run s l1 X Hr Hpos) as (s' & V1 & h1 & h0 & Hcm & Ht' & Hd' & Hh1 & Hh0 & HV1 & Hblk).
    mstep Hcm. eexists s', _. split; [reflexivity|].
    change (dsk s' = dapply (commit_writes (start l) (lh_list l) (bview s (ldev l)) V1 h1 h0) (dsk s)) in Hd'.
    assert (Hlen : Z.of_nat (length (lh_list l)) < size l).
    { pose proof (li_size _ _ _ _ Hinv). rewrite length_lh_list by apply Hinv. lia. }
    assert (Hhm : forall b, b ∈ lh_list l -> ~ (start l <= b < start l + size l)) by apply Hinv.
    assert (Hnd : NoDup (lh_list l)) by (eapply tx_nodup, Ht1).
    assert (Hnew : forall b, ~ in_log l b ->
      new_home (dsk s) (lh_list l) (bview s (ldev l)) b = bview s (ldev l) b).
    { intros b Hb. exact (new_home_view s l1 X b Hr Hb). }
    pose proof (commit_final (start l) (size l) (dsk s) (lh_list l) (bview s (ldev l)) V1 h1 h0 Hnd Hlen HV1) as Hfin.
    split_and!; [|exact Hd'| |].
    + apply (log_inv_empty s l); try done.
      * by destruct (li_shape _ _ _ _ Hinv).
      * rewrite Hd'. destruct (Hfin 0) as [E _]. by rewrite E.
    + intros b Hb. rewrite Hd'. destruct (Hfin b) as [_ E]. rewrite E by done. by apply Hnew.
    + intros p Hp. split.
      { split; [eapply commit_crash_disk; try done; [apply Hinv|rewrite length_lh_list; [|apply Hinv..]]|].
        - pose proof (li_n _ _ _ _ Hinv). lia.
        - destruct Hp as [t Hp]. apply dapply_block; [|eapply tx_disk_block, Hinv].
          refine (proj1 (proj1 (Forall_app _ p t) _)). by rewrite <- Hp. }
      destruct (commit_crash (start l) (size l) (dsk s) (lh_list l) (bview s (ldev l)) V1 h1 h0
        Hnd Hlen Hhm (li_idle _ _ _ _ Hinv) Hh1 Hh0 HV1 p Hp) as [E|E]; [by left|right].
      intros b Hb. rewrite E by done. by apply Hnew.
  - assert (Hlz : lh_n l = 0) by (pose proof (li_n _ _ _ _ Hinv); lia).
    assert (Hcm : commit (mk_lstate s l1) = Ok tt (mk_lstate s l1)).
    { unfold commit. lrun. change (lh_n l1) with (lh_n l). by rewrite Hlz. }
    mstep Hcm. exists s, []. split.
    { unfold setlog, modifyM, committed, l1, set_lh_n, set_committing, set_outstanding. cbn. by rewrite <- Hlz. }
    assert (Hlnil : lh_list l = []) by (unfold lh_list; by rewrite Hlz).
    assert (Hbv : forall b, bview s (ldev l) b = dread (dsk s) b).
    { intros b. apply (tx_unlogged (ldev l) X s [] (lh_list l)); [apply Hinv| |apply not_elem_of_nil].
      rewrite Hlnil. apply not_elem_of_nil. }
    split_and!; [|done|by intros; rewrite Hbv|].
    + apply (log_inv_empty s l); try done.
      * by destruct (li_shape _ _ _ _ Hinv).
      * rewrite <- Hlnil. apply Hinv.
      * apply Hinv.
    + intros p Hp. apply prefix_nil_inv in Hp as ->. cbn [dapply foldl].
      split; [by eapply log_inv_bootable|]. left. intros b _. apply recovered_idle, Hinv.
Qed.


(** ** A single transaction *)

Definition run_tx (ups : list (Z * list Z)) : M lstate unit :=
  do! begin_op in
  do! for_each ups (fun u => update_block u.1 u.2) in
  end_op.

(** The contents after the updates. *)
Definition updated (f : Z -> list Z) (ups : list (Z * list Z)) : Z -> list Z :=
  foldl (fun f u => put f u.1 u.2) f ups.

Definition good_update (l : log) (X : list Z) (u : Z * list Z) : Prop :=
  home (start l) (size l) u.1 /\ u.1 ∉ X /\ is_block u.2.

Lemma updated_ext ups : forall f g, (forall x, f x = g x) -> forall x, updated f ups x = updated g ups x.
Proof.
  induction ups as [|u us IH]; intros f g Hfg x; [apply Hfg|].
  apply (IH (put f u.1 u.2) (put g u.1 u.2)). intros z. by apply put_ext.
Qed.

Lemma same_log_trans l1 l2 l3 : same_log l1 l2 -> same_log l2 l3 -> same_log l1 l3.
Proof. unfold same_log. intuition congruence. Qed.

Lemma updates_ok l X ups : forall s l', log_inv s l' X [] -> same_log l l' -> 1 <= outstanding l ->
  Forall (good_update l X) ups -> lh_n l' + Z.of_nat (length ups) <= MAXOPBLOCKS ->
  MAXOPBLOCKS < size l -> (length X + Z.to_nat MAXOPBLOCKS < nbuf)%nat ->
  exists s2 l2, for_each ups (fun u => update_block u.1 u.2) (mk_lstate s l') = Ok tt (mk_lstate s2 l2) /\
    log_inv s2 l2 X [] /\ same_log l l2 /\ dsk s2 = dsk s /\ lh_n l2 <= MAXOPBLOCKS /\
    forall x, bview s2 (ldev l) x = updated (bview s (ldev l)) ups x.
Proof.
  induction ups as [|[b v] ups IH]; intros s l' Hinv Hsame Hout Hups Hlen Hsz Hroom.
  { exists s, l'. split_and!; try done. simpl in Hlen. lia. }
  inversion Hups as [|? ? (Hb & HbX & Hv) Hups']; subst. cbn [fst snd] in *.
  pose proof Hsame as (E1 & E2 & E3 & E4 & E5). cbn [length] in Hlen.
  assert (Hll : length (lh_list l') = Z.to_nat (lh_n l')) by (apply length_lh_list; apply Hinv).
  pose proof (li_n _ _ _ _ Hinv) as Hn.
  destruct (update_block_ok s l' X b v Hinv) as (s1 & l1 & Hu & Hinv1 & Hsame1 & Hd1 & Hv1 & _ & Hn1).
  - by rewrite E1, E2.
  - done.
  - done.
  - lia.
  - unfold LOGSIZE, MAXOPBLOCKS in *. lia.
  - lia.
  - right. lia.
  - cbn [for_each fst snd]. mstep Hu.
    assert (lh_n l1 <= lh_n l' + 1) by (rewrite Hn1; case_decide; lia).
    destruct (IH s1 l1 Hinv1 (same_log_trans _ _ _ Hsame Hsame1) Hout Hups' ltac:(lia) Hsz Hroom)
      as (s2 & l2 & Hr & Hinv2 & Hsame2 & Hd2 & Hn2 & Hv2).
    exists s2, l2. split_and!; try done; [by rewrite Hd2|]. intros x. rewrite Hv2.
    rewrite E3 in Hv1. by apply (updated_ext ups (bview s1 (ldev l)) (put (bview s (ldev l)) b v)).
Qed.

(** ** Concurrent transactions: refinement of an abstract log *)

(** Operations that reach the log, in the order in which they take effect. *)
Inductive lop := OBegin | OUpdate (b : Z) (v : list Z) | OEnd.

Definition run_op (o : lop) : M lstate unit :=
  match o with
  | OBegin => begin_op
  | OUpdate b v => update_block b v
  | OEnd => end_op
  end.
Definition run_ops (os : list lop) : M lstate unit := for_each os run_op.

(** The abstract log: what survives a crash, what readers see, and the number
    of operations in progress; the last [OEnd] makes everything durable. *)
Record alog := mk_alog { a_durable : Z -> list Z; a_view : Z -> list Z; a_out : Z }.

Definition astep (a : alog) (o : lop) : alog :=
  match o with
  | OBegin => mk_alog (a_durable a) (a_view a) (a_out a + 1)
  | OUpdate b v => mk_alog (a_durable a) (put (a_view a) b v) (a_out a)
  | OEnd => if decide (a_out a = 1) then mk_alog (a_view a) (a_view a) 0
            else mk_alog (a_durable a) (a_view a) (a_out a - 1)
  end.
Definition arun (os : list lop) (a : alog) : alog := foldl astep a os.

(** Calls the kernel makes: updates of home blocks, [end_op] only after
    [begin_op]. *)
Definition good_op (l : log) (a : alog) (o : lop) : Prop :=
  match o with
  | OBegin => True
  | OUpdate b v => home (start l) (size l) b /\ is_block v
  | OEnd => 1 <= a_out a
  end.
Fixpoint good_ops (l : log) (a : alog) (os : list lop) : Prop :=
  match os with
  | [] => True
  | o :: os => good_op l a o /\ good_ops l (astep a o) os
  end.

Record log_sim (s : lstate) (a : alog) : Prop := {
  sm_inv : log_inv (lbio s) (lg s) [] [];
  sm_idle : committing (lg s) = 0;
  sm_size : size (lg s) <= LOGSIZE;
  sm_out : outstanding (lg s) = a_out a /\ 0 <= a_out a;
  sm_view : forall b, ~ in_log (lg s) b -> bview (lbio s) (ldev (lg s)) b = a_view a b;
  sm_durable : forall b, ~ in_log (lg s) b -> dread (dsk (lbio s)) b = a_durable a b;
}.

Definition same_place (l l' : log) : Prop := start l' = start l /\ size l' = size l /\ ldev l' = ldev l.

(** What one operation does: the state it reaches is related to the abstract
    one, and a crash among its disk writes leaves the durable contents from
    before or from after it.  [begin_op] may wait for space, and an update that
    finds the log full (or no operation in progress) panics. *)
Definition op_result (s : lstate) (a : alog) (o : lop) (r : outcome lstate unit) : Prop :=
  match r with
  | Ok _ s' => exists ws, dsk (lbio s') = dapply ws (dsk (lbio s)) /\ log_sim s' (astep a o) /\
      same_place (lg s) (lg s') /\
      all_or_nothing (start (lg s)) (size (lg s)) (dsk (lbio s)) ws (a_durable a) (a_durable (astep a o))
  | Block s' => o = OBegin /\ s' = s /\
      LOGSIZE < lh_n (lg s) + (outstanding (lg s) + 1) * MAXOPBLOCKS
  | Panic _ => exists b v, o = OUpdate b v /\ (a_out a < 1 \/ size (lg s) - 1 <= lh_n (lg s))
  | NoFuel => False
  end.

Lemma log_inv_outstanding s l X H n : log_inv s l X H -> log_inv s (set_outstanding n l) X H.
Proof. intros [[? ? ? ? ?] ? ? ? ? ? ?]. by split. Qed.

Lemma sim_nothing s a : log_sim s a ->
  all_or_nothing (start (lg s)) (size (lg s)) (dsk (lbio s)) [] (a_durable a) (a_durable a).
Proof.
  intros Hs p Hp. apply prefix_nil_inv in Hp as ->. cbn [dapply foldl].
  split; [by eapply log_inv_bootable, Hs|]. left. intros b Hb.
  rewrite recovered_idle by apply Hs. by apply Hs.
Qed.

Lemma sim_room s a : log_sim s a -> (length (A:=Z) [] + length (lh_list (lg s)) < nbuf)%nat.
Proof.
  intros [Hinv _ Hsz _ _ _]. pose proof (li_n _ _ _ _ Hinv) as Hn. pose proof (li_size _ _ _ _ Hinv) as Hn'.
  rewrite (length_lh_list _ (li_shape _ _ _ _ Hinv) Hn). unfold nbuf, NBUF, LOGSIZE, MAXOPBLOCKS in *. simpl. lia.
Qed.

Lemma begin_sim s a : log_sim s a -> op_result s a OBegin (begin_op s).
Proof.
  intros Hs. pose proof (sim_nothing s a Hs) as Hno. destruct s as [s l].
  pose proof Hs as [Hinv Hc Hsz [Ho Ho0] Hv Hdu]. cbn [lbio lg] in *.
  rewrite begin_op_spec. case_decide as Hsp.
  - exists []. cbn [lbio lg]. split_and!; try done.
    split; try done; cbn [lbio lg]; [by apply log_inv_outstanding|cbn; lia].
  - split_and!; try done. cbn [lg]. destruct (decide (lh_n l + (outstanding l + 1) * MAXOPBLOCKS <= LOGSIZE)); [|lia].
    by exfalso; apply Hsp.
Qed.

(** An update panics when the log is full or no operation is open. *)
Lemma update_block_panics s l X b v : log_inv s l X [] -> b ∉ X ->
  b ∈ lh_list l \/ (length X + length (lh_list l) < nbuf)%nat ->
  LOGSIZE <= lh_n l \/ size l - 1 <= lh_n l \/ outstanding l < 1 ->
  update_block b v (mk_lstate s l) = Panic
    (if decide (LOGSIZE <= lh_n l \/ size l - 1 <= lh_n l) then "too big a transaction"
     else "log_write outside of trans").
Proof.
  intros Hinv HbX Hroom Hbad. pose proof (li_tx _ _ _ _ Hinv) as Ht.
  destruct (tx_open (ldev l) X s [] (lh_list l) b Ht) as (i & s1 & Hbr & _);
    [done|apply not_elem_of_nil|destruct Hroom; [by left|right; simpl; lia]|].
  unfold update_block. lrun. lstep Hbr. lrun. apply bindM_panic. case_decide as Hd; [by apply log_write_panics|].
  unfold log_write. lrun. unfold id.
  rewrite (proj2 (Z.leb_gt LOGSIZE (lh_n l))), (proj2 (Z.leb_gt (size l - 1) (lh_n l))) by lia.
  cbn [orb]. by rewrite (proj2 (Z.ltb_lt (outstanding l) 1)) by lia.
Qed.

Lemma update_sim s a b v : log_sim s a -> good_op (lg s) a (OUpdate b v) ->
  op_result s a (OUpdate b v) (update_block b v s).
Proof.
  intros Hs [Hb Hbv]. pose proof (sim_nothing s a Hs) as Hno. pose proof (sim_room s a Hs) as Hroom.
  destruct s as [s l]. pose proof Hs as [Hinv Hc Hsz [Ho Ho0] Hv Hdu]. cbn [lbio lg] in *.
  pose proof (li_n _ _ _ _ Hinv) as Hn. pose proof (li_size _ _ _ _ Hinv) as Hn'.
  destruct (decide (outstanding l < 1 \/ size l - 1 <= lh_n l)) as [Hbad|Hok].
  { rewrite (update_block_panics s l [] b v Hinv); [|apply not_elem_of_nil|by right|lia].
    exists b, v. split; [done|]. cbn [lg]. lia. }
  destruct (update_block_ok s l [] b v Hinv Hb) as (s1 & l1 & Hu & Hinv1 & Hsame & Hd1 & Hv1 & _);
    [apply not_elem_of_nil|done|lia|lia|lia|by right|].
  rewrite Hu. pose proof Hsame as (E1 & E2 & E3 & E4 & E5). exists []. cbn [lbio lg astep a_durable].
  assert (Hin : forall x, in_log l1 x <-> in_log l x) by (intros x; unfold in_log; by rewrite E1, E2).
  split_and!; try done. split; cbn [lbio lg astep a_view a_out a_durable].
  - done.
  - by rewrite E5.
  - by rewrite E2.
  - by rewrite E4.
  - intros x Hx. rewrite Hin in Hx. rewrite E3, Hv1. unfold put. case_decide; [done|]. by apply Hv.
  - intros x Hx. rewrite Hin in Hx. rewrite Hd1. by apply Hdu.
Qed.

Lemma end_sim s a : log_sim s a -> good_op (lg s) a OEnd -> op_result s a OEnd (end_op s).
Proof.
  intros Hs Hg. pose proof (sim_nothing s a Hs) as Hno. pose proof (sim_room s a Hs) as Hroom.
  destruct s as [s l]. pose proof Hs as [Hinv Hc Hsz [Ho Ho0] Hv Hdu]. cbn [lbio lg good_op] in *.
  unfold op_result. cbn [astep]. destruct (decide (a_out a = 1)) as [E|E].
  - destruct (end_op_commit s l [] Hinv Hroom Hc ltac:(lia)) as (s1 & ws & He & Hinv1 & Hd1 & Hdr & Hall).
    rewrite He. exists ws. cbn [lbio lg a_durable]. split_and!; [done| |done|].
    + split; cbn [lbio lg]; try done; intros x Hx; cbn [a_view a_durable].
      * rewrite <- (Hv x Hx), <- (Hdr x Hx).
        apply (tx_unlogged (ldev l) [] s1 [] []); [apply Hinv1|apply not_elem_of_nil|apply not_elem_of_nil].
      * rewrite Hdr by done. by apply Hv.
    + intros p Hp. destruct (Hall p Hp) as [Hbt Hp']. split; [done|]. destruct Hp' as [Hp'|Hp']; [left|right]; intros b Hb; rewrite Hp' by done;
        [by apply Hdu|by apply Hv].
  - rewrite end_op_more by (done || lia). exists []. cbn [lbio lg a_durable]. split_and!; try done.
    split; try done; cbn [lbio lg]; [by apply log_inv_outstanding|cbn; lia].
Qed.

Lemma op_sim s a o : log_sim s a -> good_op (lg s) a o -> op_result s a o (run_op o s).
Proof. intros Hs Hg. destruct o; [by apply begin_sim|by apply update_sim|by apply end_sim]. Qed.

Lemma good_ops_place l l' os : same_place l l' -> forall a, good_ops l a os -> good_ops l' a os.
Proof.
  intros (E1 & E2 & _). induction os as [|o os IH]; intros a; [done|]. intros [Ho Hos]. split; [|by apply IH].
  destruct o; cbn [good_op] in *; [done| |done]. by rewrite E1, E2.
Qed.

(** Updates of fresh blocks fill the log one by one. *)
Lemma updates_fill v bs : forall s l, log_inv s l [] [] -> 1 <= outstanding l -> size l <= LOGSIZE ->
  is_block v -> Forall (home (start l) (size l)) bs -> NoDup bs -> (forall b, b ∈ bs -> b ∉ lh_list l) ->
  lh_n l + Z.of_nat (length bs) <= size l - 1 ->
  exists s' l', run_ops ((fun b => OUpdate b v) <$> bs) (mk_lstate s l) = Ok tt (mk_lstate s' l') /\
    log_inv s' l' [] [] /\ size l' = size l /\ lh_n l' = lh_n l + Z.of_nat (length bs).
Proof.
  induction bs as [|b bs IH]; intros s l Hinv Hout Hsz Hv Hhome Hnd Hfree Hroom.
  { exists s, l. split_and!; try done. simpl. lia. }
  inversion Hhome as [|? ? Hb Hbs]; subst. apply NoDup_cons in Hnd as [Hnb Hnd]. cbn [length] in Hroom.
  assert (Hnew : b ∉ lh_list l) by (apply Hfree, list_elem_of_here).
  pose proof (li_n _ _ _ _ Hinv) as Hn. pose proof (length_lh_list l (li_shape _ _ _ _ Hinv) Hn) as Hll.
  destruct (update_block_ok s l [] b v Hinv Hb) as (s1 & l1 & Hu & Hinv1 & (E1 & E2 & E3 & E4 & E5) & _ & _ & Hl1 & Hn1);
    [apply not_elem_of_nil|done|lia|lia|lia|right; unfold nbuf, NBUF, LOGSIZE, MAXOPBLOCKS in *; simpl; lia|].
  rewrite decide_False in Hl1 by done. rewrite decide_False in Hn1 by done.
  destruct (IH s1 l1 Hinv1) as (s2 & l2 & Hr & Hinv2 & Hs2 & Hn2); rewrite ?E1, ?E2, ?E4; try done.
  - intros x Hx. rewrite Hl1, elem_of_app, list_elem_of_singleton. intros [Hin| ->]; [|done].
    eapply Hfree; [by right|done].
  - lia.
  - exists s2, l2. unfold run_ops in *. csimpl. cbn [for_each run_op]. mstep Hu.
    split_and!; [exact Hr|done|by rewrite Hs2|rewrite Hn2, Hn1; lia].
Qed.

(** ** Booting *)

(** Zeroed kernel memory, on the disk [dk]. *)
Definition bss (dk : disk) (pid : Z) : lstate :=
  mk_lstate (mk_bio (replicate (S nbuf) buf0) dk pid)
            (mk_log 0 0 0 0 0 0 (replicate (Z.to_nat LOGSIZE) 0)).

(** The part of booting that matters to the disk: [main] calls [binit], and
    the first process calls [initlog]. *)
Definition boot (d : Z) (sb : superblock) : M lstate unit :=
  do! B binit in
  initlog d sb.

(** A log area as mkfs lays it out. *)
Record log_layout (d : Z) (sb : superblock) : Prop := {
  ll_dev : d <> 0;
  ll_start : 0 <= sb_logstart sb;
  ll_size : 1 < sb_nlog sb <= LOGSIZE;
  ll_end : sb_logstart sb + sb_nlog sb < 2 ^ 31;
}.

(** The log in memory is the one the superblock describes. *)
Definition log_of (l : log) (d : Z) (sb : superblock) : Prop :=
  start l = sb_logstart sb /\ size l = sb_nlog sb /\ ldev l = d.

(** The abstract log after booting with contents [f]. *)
Definition fresh (f : Z -> list Z) : alog := mk_alog f f 0.

Lemma node_bss dk pid i : (i < nbuf)%nat -> node (lbio (bss dk pid)) i = buf0.
Proof. intros Hi. unfold node, bss. cbn [lbio nodes]. apply nth_lookup_Some, lookup_replicate. split; [done|lia]. Qed.

(** [initlog] on a cache without dirty buffers. *)
Lemma initlog_ok d sb s1 l0 : log_layout d sb -> bootable (sb_logstart sb) (sb_nlog sb) (dsk s1) -> tx s1 d [] [] [] ->
  outstanding l0 = 0 -> committing l0 = 0 -> length (lh_block l0) = Z.to_nat LOGSIZE ->
  exists s' h0, initlog d sb (mk_lstate s1 l0) = Ok tt s' /\ (hdr_n h0 = 0 /\ is_block h0) /\
    dsk (lbio s') = dapply (recover_writes (sb_logstart sb) (dsk s1) h0) (dsk s1) /\
    log_of (lg s') d sb /\ lh_n (lg s') = 0 /\
    log_sim s' (fresh (recovered (sb_logstart sb) (dsk s1))).
Proof.
  intros [Hd Hst Hsz Hend] [Hld Hblk] Ht Ho Hc Hlen. unfold LOGSIZE, MAXOPBLOCKS in Hsz.
  unfold initlog. change (BSIZE <=? 4 * (1 + LOGSIZE)) with false. cbn iota. lrun. cbn [lg lbio]. rewrite !s32_small by lia.
  set (l := mk_log _ _ _ _ _ _ _).
  assert (Hsh : log_shape l) by (split; cbn [l ldev start size lh_block]; [done|lia|lia|lia|done]).
  destruct (recover_run s1 l [] Hsh) as (s2 & l2 & h0 & Hr & Ht2 & Hsh2 & Hsame & Hn & Hh0 & Hd2);
    [intros; apply not_elem_of_nil|done|unfold nbuf, NBUF, MAXOPBLOCKS; simpl; lia|done|intros; apply not_elem_of_nil|].
  pose proof Hsame as (E1 & E2 & E3 & E4 & E5). cbn [l start size ldev outstanding committing] in *.
  exists (mk_lstate s2 l2), h0. split_and!; try done; try apply Hh0.
  pose proof (fun b => recover_final (sb_logstart sb) (sb_nlog sb) (dsk s1) h0 Hld (proj1 Hh0) b) as Hfin.
  rewrite <- Hd2 in Hfin.
  assert (Hlnil : lh_list l2 = []) by (unfold lh_list; by rewrite Hn).
  split; cbn [lbio lg fresh a_out a_view a_durable].
  - split; rewrite ?Hlnil, ?E1, ?E2, ?E3, ?Hn; try done; try (by intros; apply not_elem_of_nil).
    + lia.
    + by intros b ?%not_elem_of_nil.
    + apply (Hfin 0).
  - congruence.
  - rewrite E2. unfold LOGSIZE, MAXOPBLOCKS. lia.
  - by rewrite E4, Ho.
  - intros b Hb'. rewrite E3, (tx_unlogged d [] s2 [] []) by (done || apply not_elem_of_nil).
    unfold in_log in Hb'. rewrite E1, E2 in Hb'. by apply Hfin.
  - intros b Hb'. unfold in_log in Hb'. rewrite E1, E2 in Hb'. by apply Hfin.
Qed.

(** The cache after [binit]. *)
Lemma binit_tx d dk pid : d <> 0 -> (forall b, is_block (dread dk b)) ->
  exists s1, binit (lbio (bss dk pid)) = Ok tt s1 /\ tx s1 d [] [] [] /\ dsk s1 = dk.
Proof.
  intros Hd Hblk. destruct (returns_inv _ _ _ (binit_ok (lbio (bss dk pid)) (length_replicate _ _)
    ltac:(intros; by rewrite node_bss))) as ([] & s1 & Hb & Hinv & Hdk & Hc).
  exists s1. split_and!; [done| |done]. apply (tx_boot s1 _ d Hinv Hd Hc). by rewrite Hdk.
Qed.

Lemma boot_ok d sb dk pid : log_layout d sb -> bootable (sb_logstart sb) (sb_nlog sb) dk ->
  exists s' h0, boot d sb (bss dk pid) = Ok tt s' /\ (hdr_n h0 = 0 /\ is_block h0) /\
    dsk (lbio s') = dapply (recover_writes (sb_logstart sb) dk h0) dk /\
    log_of (lg s') d sb /\ lh_n (lg s') = 0 /\
    log_sim s' (fresh (recovered (sb_logstart sb) dk)).
Proof.
  intros Hll Hbt. destruct (binit_tx d dk pid (ll_dev _ _ Hll) (proj2 Hbt)) as (s1 & Hb & Ht & <-).
  unfold boot. lstep Hb. by apply initlog_ok.
Qed.

(** A crash while booting: the disk can be booted from again and stands for
    the same contents. *)
Lemma boot_crash st sz dk h0 p : bootable st sz dk -> hdr_n h0 = 0 -> is_block h0 ->
  p `prefix_of` recover_writes st dk h0 ->
  bootable st sz (dapply p dk) /\
  forall b, ~ (st <= b < st + sz) -> recovered st (dapply p dk) b = recovered st dk b.
Proof.
  intros [Hld Hblk] Hh0 Hb0 Hp. split; [split|].
  - by eapply recover_crash_disk.
  - intros b. by eapply recover_writes_block.
  - intros b Hb. by eapply recover_crash.
Qed.

(** ** Crashes *)

Lemma log_sim_ext s a a' : log_sim s a -> a_out a' = a_out a ->
  (forall b, ~ in_log (lg s) b -> a_view a' b = a_view a b) ->
  (forall b, ~ in_log (lg s) b -> a_durable a' b = a_durable a b) -> log_sim s a'.
Proof.
  intros [Hi Hc Hs Ho Hv Hd] Eo Ev Ed. split; try done; [by rewrite Eo|..]; intros b Hb.
  - by rewrite Ev, Hv.
  - by rewrite Ed, Hd.
Qed.

(** Crashing on the disk [dk] and booting brings back the contents [f]. *)
Definition reboots (d : Z) (sb : superblock) (dk : disk) (f : Z -> list Z) : Prop :=
  forall pid, returns (boot d sb) (bss dk pid) (fun _ s' => log_sim s' (fresh f)).

Lemma bootable_reboots d sb dk f : log_layout d sb -> bootable (sb_logstart sb) (sb_nlog sb) dk ->
  (forall b, ~ (sb_logstart sb <= b < sb_logstart sb + sb_nlog sb) -> recovered (sb_logstart sb) dk b = f b) ->
  reboots d sb dk f.
Proof.
  intros Hll Hbt Hf pid. destruct (boot_ok d sb dk pid Hll Hbt) as (s' & h0 & Hr & _ & _ & (E1 & E2 & _) & _ & Hs).
  apply (returns_ok _ _ _ _ _ Hr). apply (log_sim_ext _ _ _ Hs); [done|..];
    intros b Hb; unfold in_log in Hb; rewrite E1, E2 in Hb; cbn [fresh a_view a_durable]; by rewrite Hf.
Qed.

(** After any number of the writes [ws], booting brings back the durable
    contents after some prefix of the operations. *)
Definition crash_ok (d : Z) (sb : superblock) (dk : disk) (ws : list (Z * list Z)) (a : alog) (os : list lop) : Prop :=
  forall p, p `prefix_of` ws -> exists os1, os1 `prefix_of` os /\
    reboots d sb (dapply p dk) (a_durable (arun os1 a)).

Lemma crash_ok_cons d sb dk ws ws' a o os : log_layout d sb ->
  all_or_nothing (sb_logstart sb) (sb_nlog sb) dk ws (a_durable a) (a_durable (astep a o)) ->
  crash_ok d sb (dapply ws dk) ws' (astep a o) os -> crash_ok d sb dk (ws ++ ws') a (o :: os).
Proof.
  intros Hll Hall Hc p Hp. destruct (prefix_app_cases _ _ _ Hp) as [Hp1|(q & -> & Hq)].
  - destruct (Hall p Hp1) as [Hbt [H|H]]; [exists []|exists [o]]; (split; [|by apply bootable_reboots]).
    + apply prefix_nil.
    + apply prefix_cons, prefix_nil.
  - destruct (Hc q Hq) as (os1 & Hos1 & H). exists (o :: os1). split; [by apply prefix_cons|].
    by rewrite dapply_app.
Qed.

(** [boot] is used through its lemmas only. *)
#[global] Opaque boot.
