(* ===== verification/LogThms.v ===== *)
(** * The theorems of the logging layer

    What the file system relies on: transactions are atomic across crashes,
    any sequence of operations refines an abstract log with durable and
    volatile contents, recovery restores the durable contents and can itself
    be interrupted; and what the reservation of [begin_op] does not cover. *)

From stdpp Require Import base list gmap strings.
From Stdlib Require Import ZArith Lia.
From S2P Require Import Prelude Layout Sleeplock FsFormat DList Bio BioSpec Tx Log LogSpec Store LogSim.
Open Scope Z_scope.

(** ** A freshly booted machine

    The state after booting from an empty disk with the log where mkfs puts
    it: an instance of the hypotheses of the theorems of the logging layer. *)


(** The superblock of a 1000-block image: log at block 2, inodes at 32,
    bitmap at 45. *)
Definition ex_sb : superblock := mk_superblock FSMAGIC 1000 954 200 30 2 32 45.
Definition ex_disk : disk := mk_disk ∅ [].
Definition ex_boot : lstate :=
  match boot 1 ex_sb (bss ex_disk 1) with Ok _ s => s | _ => bss ex_disk 1 end.

Lemma zero_is_block : is_block zero_block.
Proof. split; [apply length_replicate|]. apply Forall_replicate. unfold is_byte. lia. Qed.

Lemma ex_layout : log_layout 1 ex_sb.
Proof. by split. Qed.

Lemma ex_dread b : dread ex_disk b = zero_block.
Proof. unfold dread. cbn [ex_disk blocks]. by rewrite lookup_empty. Qed.

Lemma ex_hdr b : hdr_n (dread ex_disk b) = 0.
Proof. rewrite ex_dread. reflexivity. Qed.

Lemma ex_bootable : bootable 2 30 ex_disk.
Proof.
  split; [apply log_disk_idle; [lia|apply ex_hdr]|]. intros b. rewrite ex_dread. apply zero_is_block.
Qed.

(** Recovery finds an empty log. *)
Definition ex_fresh : alog := fresh (recovered 2 ex_disk).

Lemma ex_boot_ok : ex_boot = mk_lstate (lbio ex_boot) (lg ex_boot) /\ log_of (lg ex_boot) 1 ex_sb /\
  lh_n (lg ex_boot) = 0 /\ log_sim ex_boot ex_fresh.
Proof.
  destruct (boot_ok 1 ex_sb ex_disk 1 ex_layout ex_bootable) as (s' & h0 & Hr & Hh0 & Hd & Hof & Hn & Hs).
  unfold ex_boot. rewrite Hr. split; [destruct s'; reflexivity|].
  split; [exact Hof|]. split; [exact Hn|exact Hs].
Qed.

(** A transaction that writes two blocks, one of them twice. *)
Definition ex_updates : list (Z * list Z) := [(100, zero_block); (101, zero_block); (100, zero_block)].

Lemma ex_updates_good l : log_of l 1 ex_sb -> Forall (good_update l []) ex_updates.
Proof.
  intros (E1 & E2 & _). unfold ex_updates.
  assert (Hu : forall b, 100 <= b < 1000 -> good_update l [] (b, zero_block)).
  { intros b Hb. split; [|split; [apply not_elem_of_nil|apply zero_is_block]].
    unfold home. rewrite E1, E2. cbn [ex_sb sb_logstart sb_nlog fst]. lia. }
  apply Forall_cons; split; [apply Hu; lia|]. apply Forall_cons; split; [apply Hu; lia|].
  apply Forall_cons; split; [apply Hu; lia|]. apply Forall_nil_2.
Qed.

(** Two operations in progress at the same time. *)
Definition ex_ops : list lop := [OBegin; OBegin; OUpdate 100 zero_block; OEnd; OEnd].

Lemma ex_ops_good l : log_of l 1 ex_sb -> good_ops l ex_fresh ex_ops.
Proof.
  intros (E1 & E2 & _). cbn [ex_ops good_ops good_op astep]. unfold ex_fresh, fresh. cbn [a_out].
  rewrite E1, E2. cbn [ex_sb sb_logstart sb_nlog]. unfold home.
  split; [done|]. split; [done|]. split; [split; [lia|apply zero_is_block]|].
  split; [lia|]. rewrite decide_False by lia. cbn [a_out]. split; [lia|done].
Qed.

Lemma ex_ops_run : exists s', run_ops ex_ops ex_boot = Ok tt s'.
Proof.
  destruct ex_boot_ok as (E & (E1 & E2 & E3) & Hn & [Hinv Hc Hsz [Ho _] _ _]).
  destruct ex_boot as [s l]. cbn [lbio lg] in *. cbn [ex_fresh fresh a_out] in Ho.
  unfold run_ops, ex_ops. cbn [for_each run_op].
  assert (Hbegin : forall k, 0 <= k < 2 -> begin_op (mk_lstate s (set_outstanding k l)) =
    Ok tt (mk_lstate s (set_outstanding (k + 1) l))).
  { intros k Hk. rewrite begin_op_spec, decide_True; [done|]. cbn. rewrite Hn.
    split; [done|]. unfold LOGSIZE, MAXOPBLOCKS. lia. }
  assert (E0 : set_outstanding 0 l = l) by (destruct l; unfold set_outstanding; cbn in Ho |- *; congruence).
  replace (mk_lstate s l) with (mk_lstate s (set_outstanding 0 l)) by (by rewrite E0). mstep (Hbegin 0 ltac:(lia)). mstep (Hbegin 1 ltac:(lia)).
  destruct (update_block_ok s (set_outstanding (1 + 1) l) [] 100 zero_block) as
    (s1 & l1 & Hu & Hinv1 & (F1 & F2 & F3 & F4 & F5) & _ & _ & _ & Hn1); cbn [lh_n size outstanding start set_outstanding].
  - by apply log_inv_outstanding.
  - rewrite E1, E2. unfold home. cbn. lia.
  - apply not_elem_of_nil.
  - apply zero_is_block.
  - lia.
  - rewrite Hn. done.
  - rewrite Hn, E2. done.
  - right. unfold lh_list. cbn [lh_n set_outstanding]. rewrite Hn. unfold nbuf, NBUF, MAXOPBLOCKS. simpl. lia.
  - mstep Hu. cbn [outstanding committing lh_n set_outstanding] in F4, F5, Hn1.
    mstep (end_op_more s1 l1 ltac:(by rewrite F5) ltac:(lia)).
    set (l2 := set_outstanding (outstanding l1 - 1) l1).
    destruct (end_op_commit s1 l2 []) as (s2 & ws & He & _).
    + by apply log_inv_outstanding.
    + pose proof (li_n _ _ _ _ Hinv1). assert (lh_n l1 <= 1) by (rewrite Hn1, Hn; case_decide; lia).
      rewrite length_lh_list by (apply (log_inv_outstanding _ _ _ _ _ Hinv1)).
      unfold l2. cbn [lh_n set_outstanding]. unfold nbuf, NBUF, MAXOPBLOCKS. simpl. lia.
    + by rewrite <- Hc, <- F5.
    + unfold l2. cbn [outstanding set_outstanding]. lia.
    + mstep He. eexists. reflexivity.
Qed.


(** C10: a transaction of at most [MAXOPBLOCKS] updates, run from an idle log,
    returns; afterwards the disk holds all its updates.  At whatever point of
    its disk writes the machine crashes, the disk stands for the contents
    before the transaction or for the contents after it. *)
Theorem transaction_atomic s l X ups : log_inv s l X [] ->
  lh_n l = 0 -> outstanding l = 0 -> committing l = 0 ->
  Forall (good_update l X) ups -> Z.of_nat (length ups) <= MAXOPBLOCKS ->
  MAXOPBLOCKS < size l -> (length X + Z.to_nat MAXOPBLOCKS < nbuf)%nat ->
  exists s' l' ws, run_tx ups (mk_lstate s l) = Ok tt (mk_lstate s' l') /\
    log_inv s' l' X [] /\ lh_n l' = 0 /\ outstanding l' = 0 /\ committing l' = 0 /\
    dsk s' = dapply ws (dsk s) /\
    (forall b, ~ in_log l b -> dread (dsk s') b = updated (dread (dsk s)) ups b) /\
    all_or_nothing (start l) (size l) (dsk s) ws (dread (dsk s)) (updated (dread (dsk s)) ups).
Proof.
  intros Hinv Hn Ho Hc Hups Hlen Hsz Hroom. unfold run_tx.
  assert (Hb : begin_op (mk_lstate s l) = Ok tt (mk_lstate s (set_outstanding 1 l))).
  { rewrite begin_op_spec, decide_True; [by rewrite Ho|]. rewrite Hn, Ho. done. }
  mstep Hb. set (l1 := set_outstanding 1 l).
  assert (Hinv1 : log_inv s l1 X []) by (destruct Hinv as [[? ? ? ? ?] ? ? ? ? ? ?]; by split).
  destruct (updates_ok l1 X ups s l1 Hinv1) as (s2 & l2 & Hu & Hinv2 & Hsame & Hd2 & Hn2 & Hv2);
    [by split_and!|done|done|simpl; lia|done|done|].
  mstep Hu. pose proof Hsame as (E1 & E2 & E3 & E4 & E5).
  assert (Hll : length (lh_list l2) = Z.to_nat (lh_n l2)) by (apply length_lh_list; apply Hinv2).
  pose proof (li_n _ _ _ _ Hinv2) as Hn2'.
  destruct (end_op_commit s2 l2 X Hinv2) as (s3 & ws & He & Hinv3 & Hd3 & Hdr & Hall);
    [lia|by rewrite E5|by rewrite E4|].
  assert (Hbv : forall b, bview s (ldev l) b = dread (dsk s) b).
  { intros b. apply (tx_unlogged (ldev l) X s [] (lh_list l)); [apply Hinv| |apply not_elem_of_nil].
    unfold lh_list. rewrite Hn. apply not_elem_of_nil. }
  assert (Hup : forall b, bview s2 (ldev l2) b = updated (dread (dsk s)) ups b).
  { intros b. rewrite E3, Hv2. by apply updated_ext. }
  assert (Hst : start l2 = start l /\ size l2 = size l) by (by split). destruct Hst as [Es Ez].
  exists s3, (committed l2), ws. rewrite Hd2 in *. split_and!; try done.
  - intros b Hb'. rewrite Hdr; [apply Hup|]. unfold in_log. by rewrite Es, Ez.
  - intros p Hp. rewrite <- Es, <- Ez. destruct (Hall p Hp) as [Hbt [E|E]]; (split; [done|]); [by left|right].
    intros b Hb'. rewrite E by done. apply Hup.
Qed.

Lemma transaction_atomic_witness : exists s' l' ws,
  run_tx ex_updates ex_boot = Ok tt (mk_lstate s' l') /\ dsk s' = dapply ws (dsk (lbio ex_boot)) /\
  all_or_nothing 2 30 (dsk (lbio ex_boot)) ws (dread (dsk (lbio ex_boot)))
    (updated (dread (dsk (lbio ex_boot))) ex_updates).
Proof.
  destruct ex_boot_ok as (E & (E1 & E2 & E3) & Hn & Hs).
  destruct (transaction_atomic (lbio ex_boot) (lg ex_boot) [] ex_updates) as (s' & l' & ws & Hr & _ & _ & _ & _ & Hd & _ & Hall).
  - apply Hs.
  - exact Hn.
  - apply Hs.
  - apply Hs.
  - apply ex_updates_good. by split_and!.
  - vm_compute. discriminate.
  - rewrite E2. vm_compute. reflexivity.
  - vm_compute. lia.
  - exists s', l', ws. rewrite E1, E2 in Hall. rewrite <- E in Hr. split; [exact Hr|]. by split.
Defined.

(** ** Concurrent operations and crashes *)

(** C1: the log refines the abstract log.  Any interleaving of [begin_op],
    block updates and [end_op] of concurrent operations either runs to the
    end, with the cache showing the abstract view and the disk the abstract
    durable contents, or waits in a [begin_op] for log space, or panics in an
    update of a full log or outside an operation.  A crash after any number of
    the disk writes, followed by a reboot, brings back the durable contents
    reached by a prefix of the operations. *)
Theorem log_refines d sb s a os : log_layout d sb -> log_of (lg s) d sb ->
  log_sim s a -> good_ops (lg s) a os ->
  match run_ops os s with
  | Ok _ s' => exists ws, dsk (lbio s') = dapply ws (dsk (lbio s)) /\ log_sim s' (arun os a) /\
      crash_ok d sb (dsk (lbio s)) ws a os
  | Block s' => exists os1 os2, os = os1 ++ OBegin :: os2 /\ log_sim s' (arun os1 a) /\
      LOGSIZE < lh_n (lg s') + (outstanding (lg s') + 1) * MAXOPBLOCKS
  | Panic _ => exists os1 b v os2 s1, os = os1 ++ OUpdate b v :: os2 /\ run_ops os1 s = Ok tt s1 /\
      (a_out (arun os1 a) < 1 \/ size (lg s1) - 1 <= lh_n (lg s1))
  | NoFuel => False
  end.
Proof.
  intros Hll. revert s a. induction os as [|o os IH]; intros s a (E1 & E2 & E3) Hs Hg.
  { exists []. split_and!; try done. intros p Hp. apply prefix_nil_inv in Hp as ->. exists [].
    split; [done|]. destruct (sim_nothing s a Hs [] (prefix_nil _)) as [Hbt H].
    rewrite E1, E2 in *. apply bootable_reboots; [done|done|]. by destruct H. }
  destruct Hg as [Ho Hos]. pose proof (op_sim s a o Hs Ho) as Hop. unfold run_ops in *. cbn [for_each].
  unfold bindM. destruct (run_op o s) as [[] s1|m|s1|] eqn:Er; cbn [op_result] in Hop.
  - destruct Hop as (ws1 & Hd1 & Hs1 & Hpl & Hall). pose proof Hpl as (F1 & F2 & F3).
    specialize (IH s1 (astep a o) ltac:(split_and!; congruence) Hs1 (good_ops_place _ _ os Hpl _ Hos)).
    destruct (for_each os run_op s1) as [? s2|m|s2|] eqn:Er2; [| | |done].
    + destruct IH as (ws2 & Hd2 & Hs2 & Hcr). exists (ws1 ++ ws2). split_and!.
      * by rewrite Hd2, Hd1, dapply_app.
      * exact Hs2.
      * rewrite Hd1 in Hcr. rewrite E1, E2 in Hall. by apply crash_ok_cons.
    + destruct IH as (os1 & b & v & os2 & s2 & -> & Hr & Hbad). exists (o :: os1), b, v, os2, s2.
      split_and!; try done. cbn [for_each]. by rewrite (bindM_ok _ _ _ _ _ Er).
    + destruct IH as (os1 & os2 & -> & Hs2 & Hw). by exists (o :: os1), os2.
  - destruct Hop as (b & v & -> & Hbad). by exists [], b, v, os, s.
  - destruct Hop as (-> & -> & Hw). by exists [], os.
  - done.
Qed.

Lemma log_refines_witness : exists s' ws,
  run_ops ex_ops ex_boot = Ok tt s' /\ dsk (lbio s') = dapply ws (dsk (lbio ex_boot)) /\
  crash_ok 1 ex_sb (dsk (lbio ex_boot)) ws ex_fresh ex_ops.
Proof.
  destruct ex_boot_ok as (_ & Hof & Hn & Hs).
  pose proof (log_refines 1 ex_sb ex_boot ex_fresh ex_ops ex_layout Hof Hs (ex_ops_good _ Hof)) as H.
  destruct ex_ops_run as [s' Hr]. rewrite Hr in H. destruct H as (ws & Hd & _ & Hc).
  exists s', ws. split; [exact Hr|]. by split.
Defined.

(** C20: booting from a disk left by a crash returns with the committed
    transaction installed and the log empty, and a further crash at any point
    of the recovery followed by another boot ends with the same contents. *)
Theorem initlog_recovers d sb dk pid : log_layout d sb -> bootable (sb_logstart sb) (sb_nlog sb) dk ->
  exists s' ws, boot d sb (bss dk pid) = Ok tt s' /\
    log_sim s' (fresh (recovered (sb_logstart sb) dk)) /\ dsk (lbio s') = dapply ws dk /\
    forall p, p `prefix_of` ws -> reboots d sb (dapply p dk) (recovered (sb_logstart sb) dk).
Proof.
  intros Hll Hbt. destruct (boot_ok d sb dk pid Hll Hbt) as (s' & h0 & Hr & [Hh0 Hb0] & Hd & _ & _ & Hs).
  exists s', (recover_writes (sb_logstart sb) dk h0). split; [exact Hr|]. split; [exact Hs|].
  split; [exact Hd|]. intros p Hp. destruct (boot_crash _ _ dk h0 p Hbt Hh0 Hb0 Hp) as [Hbt' Hc].
  by apply bootable_reboots.
Qed.

Lemma initlog_recovers_witness : exists s' ws, boot 1 ex_sb (bss ex_disk 1) = Ok tt s' /\
  forall p, p `prefix_of` ws -> reboots 1 ex_sb (dapply p ex_disk) (recovered 2 ex_disk).
Proof.
  destruct (initlog_recovers 1 ex_sb ex_disk 1 ex_layout ex_bootable) as (s' & ws & Hr & _ & _ & Hp).
  exists s', ws. split; [exact Hr|exact Hp].
Defined.

(** ** The reservation of [begin_op] *)

(** C36: [begin_op] admits three concurrent operations on an empty log of
    [LOGSIZE] blocks, as mkfs makes it, although the log then has room for
    [LOGSIZE - 1] blocks only: if together they update [3 * MAXOPBLOCKS]
    different blocks, each within its reservation, the last update panics. *)
Theorem begin_op_overcommits s a v bs : log_sim s a -> lh_n (lg s) = 0 -> a_out a = 0 ->
  size (lg s) = LOGSIZE -> is_block v -> Forall (home (start (lg s)) (size (lg s))) bs -> NoDup bs ->
  Z.of_nat (length bs) = 3 * MAXOPBLOCKS ->
  run_ops ([OBegin; OBegin; OBegin] ++ ((fun b => OUpdate b v) <$> bs)) s = Panic "too big a transaction".
Proof.
  intros [Hinv Hc Hsz [Ho _] _ _] Hn Ha Hs Hv Hhome Hnd Hlen. destruct s as [s l]. cbn [lbio lg] in *.
  destruct bs as [|b0 bs' _] using rev_ind; [done|].
  rewrite length_app in Hlen. cbn [length] in Hlen. apply Forall_app in Hhome as [Hh Hb0].
  apply NoDup_app in Hnd as (Hnd & Hnb & _). unfold run_ops. cbn [app for_each run_op].
  assert (Hbegin : forall k, 0 <= k < 3 -> begin_op (mk_lstate s (set_outstanding k l)) =
    Ok tt (mk_lstate s (set_outstanding (k + 1) l))).
  { intros k Hk. rewrite begin_op_spec, decide_True; [done|]. cbn. rewrite Hn.
    split; [done|]. unfold LOGSIZE, MAXOPBLOCKS. lia. }
  assert (E0 : set_outstanding 0 l = l) by (destruct l; unfold set_outstanding; cbn in Ho |- *; congruence).
  rewrite <- E0 at 1.
  mstep (Hbegin 0 ltac:(lia)). mstep (Hbegin 1 ltac:(lia)). mstep (Hbegin 2 ltac:(lia)).
  set (l3 := set_outstanding (2 + 1) l).
  destruct (updates_fill v bs' s l3) as (s' & l' & Hr & Hinv' & Hs' & Hn'); try done.
  { by apply log_inv_outstanding. }
  { intros b _. unfold lh_list, l3. cbn [lh_n set_outstanding]. rewrite Hn. apply not_elem_of_nil. }
  { unfold l3. cbn [lh_n size set_outstanding]. unfold LOGSIZE, MAXOPBLOCKS in *. lia. }
  rewrite fmap_app, for_each_app. unfold run_ops in Hr. mstep Hr. csimpl. cbn [for_each run_op].
  assert (Hfull : lh_n l' = 29 /\ size l' = 30).
  { rewrite Hs', Hn'. unfold l3. cbn [lh_n size set_outstanding]. unfold LOGSIZE, MAXOPBLOCKS in *. lia. }
  pose proof (length_lh_list l' (li_shape _ _ _ _ Hinv') (li_n _ _ _ _ Hinv')) as Hll.
  apply bindM_panic. rewrite (update_block_panics s' l' [] b0 v Hinv'), decide_True; [done|lia|apply not_elem_of_nil| |lia].
  right. rewrite Hll. unfold nbuf, NBUF, LOGSIZE, MAXOPBLOCKS. simpl. lia.
Qed.

Lemma begin_op_overcommits_witness :
  run_ops ([OBegin; OBegin; OBegin] ++ ((fun b => OUpdate b zero_block) <$> seqZ 100 30)) ex_boot =
  Panic "too big a transaction".
Proof.
  destruct ex_boot_ok as (_ & Hof & Hn & Hs).
  apply (begin_op_overcommits ex_boot ex_fresh zero_block (seqZ 100 30) Hs Hn eq_refl).
  - by rewrite (proj1 (proj2 Hof)).
  - apply zero_is_block.
  - destruct Hof as (-> & -> & _). apply Forall_forall. intros b Hb%elem_of_seqZ.
    unfold home. cbn [sb_logstart sb_nlog ex_sb]. lia.
  - apply NoDup_seqZ.
  - reflexivity.
Defined.
