(* ===== verification/Fs.v ===== *)
(** * The file system (kernel/fs.c)

    Block allocation, inodes, file contents, directories and paths, over any
    store that offers the calls of [TxOps].  A [struct inode *] is an index
    into the inode table.  Critical sections under [itable.lock] are atomic
    steps; [acquiresleep] on an inode someone else holds is a [Block].

    [readi] and [writei] copy to and from a kernel or a user address.  The
    address space of the other side is a parameter [D] with the copying
    routine; for the local variables [de] of the directory code it is the
    variable's bytes. *)

From stdpp Require Import base list gmap strings.
From Stdlib Require Import ZArith Lia.
From S2P Require Import Prelude Layout Sleeplock FsFormat Store.
Open Scope Z_scope.

(** [struct inode] *)
Record inode := mk_inode {
  i_dev : Z; i_inum : Z; i_ref : Z; i_lock : sleeplock; i_valid : Z;
  i_type : Z; i_major : Z; i_minor : Z; i_nlink : Z; i_size : Z;
  i_addrs : list Z;   (* NDIRECT + 1 *)
}.

Definition set_i_ref (v : Z) (ip : inode) := mk_inode (i_dev ip) (i_inum ip) v (i_lock ip) (i_valid ip) (i_type ip) (i_major ip) (i_minor ip) (i_nlink ip) (i_size ip) (i_addrs ip).
Definition set_i_lock (v : sleeplock) (ip : inode) := mk_inode (i_dev ip) (i_inum ip) (i_ref ip) v (i_valid ip) (i_type ip) (i_major ip) (i_minor ip) (i_nlink ip) (i_size ip) (i_addrs ip).
Definition set_i_valid (v : Z) (ip : inode) := mk_inode (i_dev ip) (i_inum ip) (i_ref ip) (i_lock ip) v (i_type ip) (i_major ip) (i_minor ip) (i_nlink ip) (i_size ip) (i_addrs ip).
Definition set_i_type (v : Z) (ip : inode) := mk_inode (i_dev ip) (i_inum ip) (i_ref ip) (i_lock ip) (i_valid ip) v (i_major ip) (i_minor ip) (i_nlink ip) (i_size ip) (i_addrs ip).
Definition set_i_major (v : Z) (ip : inode) := mk_inode (i_dev ip) (i_inum ip) (i_ref ip) (i_lock ip) (i_valid ip) (i_type ip) v (i_minor ip) (i_nlink ip) (i_size ip) (i_addrs ip).
Definition set_i_minor (v : Z) (ip : inode) := mk_inode (i_dev ip) (i_inum ip) (i_ref ip) (i_lock ip) (i_valid ip) (i_type ip) (i_major ip) v (i_nlink ip) (i_size ip) (i_addrs ip).
Definition set_i_nlink (v : Z) (ip : inode) := mk_inode (i_dev ip) (i_inum ip) (i_ref ip) (i_lock ip) (i_valid ip) (i_type ip) (i_major ip) (i_minor ip) v (i_size ip) (i_addrs ip).
Definition set_i_size (v : Z) (ip : inode) := mk_inode (i_dev ip) (i_inum ip) (i_ref ip) (i_lock ip) (i_valid ip) (i_type ip) (i_major ip) (i_minor ip) (i_nlink ip) v (i_addrs ip).
Definition set_i_addrs (v : list Z) (ip : inode) := mk_inode (i_dev ip) (i_inum ip) (i_ref ip) (i_lock ip) (i_valid ip) (i_type ip) (i_major ip) (i_minor ip) (i_nlink ip) (i_size ip) v.

(** A zeroed table entry. *)
Definition inode0 : inode := mk_inode 0 0 0 (mk_sleeplock 0 0) 0 0 0 0 0 0 (replicate (Z.to_nat (NDIRECT + 1)) 0).

(** The part of an inode that lives on disk. *)
Definition dinode_of (ip : inode) : dinode :=
  mk_dinode (i_type ip) (i_major ip) (i_minor ip) (i_nlink ip) (i_size ip) (i_addrs ip).
Definition load_dinode (d : dinode) (ip : inode) : inode :=
  mk_inode (i_dev ip) (i_inum ip) (i_ref ip) (i_lock ip) (i_valid ip)
    (di_type d) (di_major d) (di_minor d) (di_nlink d) (di_size d) (di_addrs d).

Section Fs.
Context {S : Type} `{!TxOps S}.

Record fstate := mk_fs {
  fstore : S;
  fsb : superblock;        (* sb *)
  itable : list inode;     (* itable.inode, NINODE of them *)
  fpid : Z;                (* the running process *)
}.

Definition St {A} (m : M S A) : M fstate A :=
  zoomM fstore (fun st f => mk_fs st (fsb f) (itable f) (fpid f)) m.
Definition inode_at (f : fstate) (ip : nat) : inode := nth ip (itable f) inode0.
Definition upd_i (ip : nat) (g : inode -> inode) (f : fstate) : fstate :=
  mk_fs (fstore f) (fsb f) (alter g ip (itable f)) (fpid f).
Definition geti {A} (ip : nat) (g : inode -> A) : M fstate A := getM (fun f => g (inode_at f ip)).
Definition seti (ip : nat) (g : inode -> inode) : M fstate unit := modifyM (upd_i ip g).
Definition on_ilock {A} (ip : nat) (m : Z -> M sleeplock A) : M fstate A := fun f =>
  zoomM (fun f => i_lock (inode_at f ip)) (fun lk => upd_i ip (set_i_lock lk)) (m (fpid f)) f.

(** ** Super block *)

Definition readsb (dev : Z) : M fstate unit :=
  let! bp := St (sbread dev 1) in
  let! d := St (sdata bp) in
  do! modifyM (fun f => mk_fs (fstore f) (sb_of_bytes d) (itable f) (fpid f)) in
  St (sbrelse bp).

(** ** Blocks *)

Definition bzero (dev bno : Z) : M fstate unit :=
  let! bp := St (sbread dev (u32 bno)) in
  do! St (supdate bp (fun _ => replicate (Z.to_nat BSIZE) 0)) in
  do! St (slog_write bp) in
  St (sbrelse bp).

(** Byte [bi/8] and mask [1 << (bi % 8)] of the bitmap. *)
Definition bit_clear (bi : Z) (d : list Z) : bool :=
  Z.land (nth (Z.to_nat (bi / 8)) d 0) (Z.shiftl 1 (bi mod 8)) =? 0.
Definition set_bit (bi : Z) (d : list Z) : list Z :=
  alter (fun x => u8 (Z.lor x (Z.shiftl 1 (bi mod 8)))) (Z.to_nat (bi / 8)) d.
Definition clear_bit (bi : Z) (d : list Z) : list Z :=
  alter (fun x => u8 (Z.land x (Z.lnot (Z.shiftl 1 (bi mod 8))))) (Z.to_nat (bi / 8)) d.

(** The inner loop of [balloc]: the first clear bit at or after [bi]. *)
Fixpoint find_clear (d : list Z) (b size bi : Z) (fuel : nat) : option Z :=
  match fuel with
  | O => None
  | Datatypes.S fuel =>
      if (bi <? BPB) && (u32 (b + bi) <? size) then
        if bit_clear bi d then Some bi else find_clear d b size (bi + 1) fuel
      else None
  end.

Fixpoint balloc_loop (dev b : Z) (fuel : nat) : M fstate Z :=
  match fuel with
  | O => fun _ => NoFuel
  | Datatypes.S fuel =>
      let! sb := getM fsb in
      if u32 b <? sb_size sb then
        let! bp := St (sbread dev (BBLOCK b sb)) in
        let! d := St (sdata bp) in
        match find_clear d b (sb_size sb) 0 (Z.to_nat BPB) with
        | Some bi =>
            do! St (supdate bp (set_bit bi)) in
            do! St (slog_write bp) in
            do! St (sbrelse bp) in
            do! bzero dev (b + bi) in
            retM (u32 (b + bi))
        | None =>
            do! St (sbrelse bp) in
            balloc_loop dev (b + BPB) fuel
        end
      else panicM "balloc: out of blocks"
  end.

(** One round per bitmap block and the final test. *)
Definition balloc (dev : Z) : M fstate Z :=
  let! sb := getM fsb in
  balloc_loop dev 0 (Z.to_nat (sb_size sb / BPB) + 2).

Definition bfree (dev b : Z) : M fstate unit :=
  let! sb := getM fsb in
  let! bp := St (sbread dev (BBLOCK b sb)) in
  let bi := b mod BPB in
  let! d := St (sdata bp) in
  if bit_clear bi d then panicM "freeing free block"
  else
    do! St (supdate bp (clear_bit bi)) in
    do! St (slog_write bp) in
    St (sbrelse bp).

(** ** Inodes *)

Definition iinit : M fstate unit :=
  for_each (seq 0 (Z.to_nat NINODE)) (fun i => seti i (set_i_lock initsleeplock)).

(** The scan of [iget]: an entry for the inode, or the first free one. *)
Fixpoint iget_scan (dev inum : Z) (tab : list inode) (k : nat) (empty : option nat) : (nat + option nat) :=
  match tab with
  | [] => inr empty
  | ip :: tab =>
      if (0 <? i_ref ip) && (i_dev ip =? dev) && (i_inum ip =? inum) then inl k
      else iget_scan dev inum tab (k + 1)
             (match empty with Some _ => empty | None => if i_ref ip =? 0 then Some k else None end)
  end.

Definition iget (dev inum : Z) : M fstate nat :=
  let! tab := getM itable in
  match iget_scan dev inum tab 0 None with
  | inl ip =>
      do! seti ip (fun i => set_i_ref (i_ref i + 1) i) in
      retM ip
  | inr None => panicM "iget: no inodes"
  | inr (Some ip) =>
      do! seti ip (fun i => mk_inode dev inum 1 (i_lock i) 0 (i_type i) (i_major i) (i_minor i) (i_nlink i) (i_size i) (i_addrs i)) in
      retM ip
  end.

Definition idup (ip : nat) : M fstate nat :=
  do! seti ip (fun i => set_i_ref (i_ref i + 1) i) in
  retM ip.

(** The byte offset of inode [inum] in its block. *)
Definition ioff (inum : Z) : Z := (inum mod IPB) * sizeof_dinode.

Fixpoint ialloc_loop (dev type inum : Z) (fuel : nat) : M fstate nat :=
  match fuel with
  | O => fun _ => NoFuel
  | Datatypes.S fuel =>
      let! sb := getM fsb in
      if u32 inum <? sb_ninodes sb then
        let! bp := St (sbread dev (IBLOCK inum sb)) in
        let! d := St (sdata bp) in
        if di_type (dinode_at (ioff inum) d) =? 0 then
          do! St (supdate bp (fun d => put16 (ioff inum) type
                     (splice (Z.to_nat (ioff inum)) (replicate (Z.to_nat sizeof_dinode) 0) d))) in
          do! St (slog_write bp) in
          do! St (sbrelse bp) in
          iget dev inum
        else
          do! St (sbrelse bp) in
          ialloc_loop dev type (inum + 1) fuel
      else panicM "ialloc: no inodes"
  end.

Definition ialloc (dev type : Z) : M fstate nat :=
  let! sb := getM fsb in
  ialloc_loop dev type 1 (Z.to_nat (sb_ninodes sb) + 1).

Definition iupdate (ip : nat) : M fstate unit :=
  let! i := geti ip id in
  let! sb := getM fsb in
  let! bp := St (sbread (i_dev i) (IBLOCK (i_inum i) sb)) in
  do! St (supdate bp (put_dinode (ioff (i_inum i)) (dinode_of i))) in
  do! St (slog_write bp) in
  St (sbrelse bp).

Definition ilock (ip : nat) : M fstate unit :=
  let! r := geti ip i_ref in
  if r <? 1 then panicM "ilock"
  else
    do! on_ilock ip acquiresleep in
    let! i := geti ip id in
    if i_valid i =? 0 then
      let! sb := getM fsb in
      let! bp := St (sbread (i_dev i) (IBLOCK (i_inum i) sb)) in
      let! d := St (sdata bp) in
      do! seti ip (load_dinode (dinode_at (ioff (i_inum i)) d)) in
      do! St (sbrelse bp) in
      do! seti ip (set_i_valid 1) in
      let! t := geti ip i_type in
      if t =? 0 then panicM "ilock: no type" else retM tt
    else retM tt.

Definition iunlock (ip : nat) : M fstate unit :=
  let! h := getM (fun f => holdingsleep (fpid f) (i_lock (inode_at f ip))) in
  let! r := geti ip i_ref in
  if negb h || (r <? 1) then panicM "iunlock"
  else on_ilock ip (fun _ => releasesleep).

(** ** Contents *)

(** [ip->addrs[k]] *)
Definition get_addr (ip : nat) (k : Z) : M fstate Z := geti ip (fun i => nth (Z.to_nat k) (i_addrs i) 0).
Definition set_addr (ip : nat) (k v : Z) : M fstate unit :=
  seti ip (fun i => set_i_addrs (<[Z.to_nat k := v]> (i_addrs i)) i).

Definition itrunc (ip : nat) : M fstate unit :=
  let! dev := geti ip i_dev in
  do! for_each (seqZ 0 NDIRECT) (fun i =>
    let! a := get_addr ip i in
    if a =? 0 then retM tt
    else
      do! bfree dev a in
      set_addr ip i 0) in
  let! ind := get_addr ip NDIRECT in
  do! (if ind =? 0 then retM tt
       else
         let! bp := St (sbread dev ind) in
         do! for_each (seqZ 0 NINDIRECT) (fun j =>
           let! d := St (sdata bp) in
           if get32 (4 * j) d =? 0 then retM tt else bfree dev (get32 (4 * j) d)) in
         do! St (sbrelse bp) in
         do! bfree dev ind in
         set_addr ip NDIRECT 0) in
  do! seti ip (set_i_size 0) in
  iupdate ip.

Definition iput (ip : nat) : M fstate unit :=
  let! i := geti ip id in
  do! (if (i_ref i =? 1) && negb (i_valid i =? 0) && (i_nlink i =? 0) then
         do! on_ilock ip acquiresleep in
         do! itrunc ip in
         do! seti ip (set_i_type 0) in
         do! iupdate ip in
         do! seti ip (set_i_valid 0) in
         on_ilock ip (fun _ => releasesleep)
       else retM tt) in
  seti ip (fun i => set_i_ref (i_ref i - 1) i).

Definition iunlockput (ip : nat) : M fstate unit :=
  do! iunlock ip in
  iput ip.

Definition bmap (ip : nat) (bn : Z) : M fstate Z :=
  let! dev := geti ip i_dev in
  if bn <? NDIRECT then
    let! addr := get_addr ip bn in
    if addr =? 0 then
      let! addr := balloc dev in
      do! set_addr ip bn addr in
      retM addr
    else retM addr
  else
    let bn := bn - NDIRECT in
    if bn <? NINDIRECT then
      let! addr := get_addr ip NDIRECT in
      let! ind := (if addr =? 0 then
                     let! addr := balloc dev in
                     do! set_addr ip NDIRECT addr in
                     retM addr
                   else retM addr) in
      let! bp := St (sbread dev ind) in
      let! d := St (sdata bp) in
      let! addr := (if get32 (4 * bn) d =? 0 then
                      let! addr := balloc dev in
                      do! St (supdate bp (put32 (4 * bn) addr)) in
                      do! St (slog_write bp) in
                      retM addr
                    else retM (get32 (4 * bn) d)) in
      do! St (sbrelse bp) in
      retM addr
    else panicM "bmap: out of range".

Record stat := mk_stat { st_dev : Z; st_ino : Z; st_type : Z; st_nlink : Z; st_size : Z }.
Definition stati (ip : nat) : M fstate stat :=
  geti ip (fun i => mk_stat (s32 (i_dev i)) (i_inum i) (i_type i) (i_nlink i) (i_size i)).

(** ** Reading and writing

    The state of the other side of the copy is [D]; [copyout dst bytes] stands
    for [either_copyout(user_dst, dst, src, len)], and [copyin src len] for
    [either_copyin(dst, user_src, src, len)], whose first result is the bytes
    it stored before it returned. *)
Section Copy.
Context {D : Type}.

Definition Fst {A} (m : M fstate A) : M (fstate * D) A := zoomM fst (fun f p => (f, snd p)) m.
Definition Snd {A} (m : M D A) : M (fstate * D) A := zoomM snd (fun d p => (fst p, d)) m.

Fixpoint readi_loop (copyout : Z -> list Z -> M D Z) (ip : nat) (dst off n tot : Z) (fuel : nat) : M (fstate * D) Z :=
  match fuel with
  | O => fun _ => NoFuel
  | Datatypes.S fuel =>
      if tot <? n then
        let! dev := Fst (geti ip i_dev) in
        let! a := Fst (bmap ip (off / BSIZE)) in
        let! bp := Fst (St (sbread dev a)) in
        let m := Z.min (n - tot) (BSIZE - off mod BSIZE) in
        let! d := Fst (St (sdata bp)) in
        let! r := Snd (copyout dst (slice (Z.to_nat (off mod BSIZE)) (Z.to_nat m) d)) in
        if r =? -1 then
          do! Fst (St (sbrelse bp)) in
          retM (-1)
        else
          do! Fst (St (sbrelse bp)) in
          readi_loop copyout ip (u64 (dst + m)) (u32 (off + m)) n (u32 (tot + m)) fuel
      else retM (s32 tot)
  end.

(** Each round copies at least one byte. *)
Definition readi (copyout : Z -> list Z -> M D Z) (ip : nat) (dst off n : Z) : M (fstate * D) Z :=
  let! size := Fst (geti ip i_size) in
  if (size <? off) || (u32 (off + n) <? off) then retM 0
  else
    let n := if size <? u32 (off + n) then u32 (size - off) else n in
    readi_loop copyout ip dst off n 0 (Z.to_nat n + 1).

Fixpoint writei_loop (copyin : Z -> Z -> M D (list Z * Z)) (ip : nat) (src off n tot : Z) (fuel : nat) : M (fstate * D) (Z * Z) :=
  match fuel with
  | O => fun _ => NoFuel
  | Datatypes.S fuel =>
      if tot <? n then
        let! dev := Fst (geti ip i_dev) in
        let! a := Fst (bmap ip (off / BSIZE)) in
        let! bp := Fst (St (sbread dev a)) in
        let m := Z.min (n - tot) (BSIZE - off mod BSIZE) in
        let! '(bytes, r) := Snd (copyin src m) in
        do! Fst (St (supdate bp (splice (Z.to_nat (off mod BSIZE)) bytes))) in
        if r =? -1 then
          do! Fst (St (sbrelse bp)) in
          retM (tot, off)
        else
          do! Fst (St (slog_write bp)) in
          do! Fst (St (sbrelse bp)) in
          writei_loop copyin ip (u64 (src + m)) (u32 (off + m)) n (u32 (tot + m)) fuel
      else retM (tot, off)
  end.

Definition writei (copyin : Z -> Z -> M D (list Z * Z)) (ip : nat) (src off n : Z) : M (fstate * D) Z :=
  let! size := Fst (geti ip i_size) in
  if (size <? off) || (u32 (off + n) <? off) then retM (-1)
  else if MAXFILE * BSIZE <? u32 (off + n) then retM (-1)
  else
    let! '(tot, off) := writei_loop copyin ip src off n 0 (Z.to_nat n + 1) in
    let! size := Fst (geti ip i_size) in
    do! (if size <? off then Fst (seti ip (set_i_size off)) else retM tt) in
    do! Fst (iupdate ip) in
    retM (s32 tot).
End Copy.

(** ** Directories *)

(** A kernel local variable as the other side of a copy; addresses are offsets
    into it. *)
Definition local_copyout (dst : Z) (bytes : list Z) : M (list Z) Z := fun v =>
  Ok 0 (splice (Z.to_nat dst) bytes v).
Definition local_copyin (src len : Z) : M (list Z) (list Z * Z) := fun v =>
  Ok (slice (Z.to_nat src) (Z.to_nat len) v, 0) v.
Definition with_local {A} (v : list Z) (m : M (fstate * list Z) A) : M fstate (A * list Z) := fun f =>
  match m (f, v) with
  | Ok a (f, v) => Ok (a, v) f
  | Panic msg => Panic msg
  | Block (f, _) => Block f
  | NoFuel => NoFuel
  end.

(** [struct dirent de;] its contents are overwritten before they are used. *)
Definition de0 : list Z := replicate (Z.to_nat sizeof_dirent) 0.

(** [strncmp(s, t, DIRSIZ)] on the bytes of the two names. *)
Fixpoint strncmp_bytes (p q : list Z) (n : nat) : Z :=
  match n with
  | O => 0
  | Datatypes.S n =>
      if negb (hd 0 p =? 0) && (hd 0 p =? hd 0 q) then strncmp_bytes (tl p) (tl q) n
      else hd 0 p - hd 0 q
  end.
Definition namecmp (s t : list Z) : Z := strncmp_bytes s t (Z.to_nat DIRSIZ).

(** [strncpy(de.name, name, DIRSIZ)]: the bytes it stores. *)
Fixpoint strncpy_bytes (t : list Z) (n : nat) : list Z :=
  match n with
  | O => []
  | Datatypes.S n' => if hd 0 t =? 0 then replicate n 0 else hd 0 t :: strncpy_bytes (tl t) n'
  end.

Fixpoint dirlookup_loop (dp : nat) (name : list Z) (off : Z) (fuel : nat) : M fstate (option (nat * Z)) :=
  match fuel with
  | O => fun _ => NoFuel
  | Datatypes.S fuel =>
      let! size := geti dp i_size in
      if off <? size then
        let! '(r, v) := with_local de0 (readi local_copyout dp 0 off sizeof_dirent) in
        if negb (r =? sizeof_dirent) then panicM "dirlookup read"
        else
          let de := dirent_of_bytes v in
          if de_inum de =? 0 then dirlookup_loop dp name (u32 (off + sizeof_dirent)) fuel
          else if namecmp name (de_name de) =? 0 then
            let! dev := geti dp i_dev in
            let! ip := iget dev (de_inum de) in
            retM (Some (ip, off))
          else dirlookup_loop dp name (u32 (off + sizeof_dirent)) fuel
      else retM None
  end.

(** The entry's inode and its offset ([*poff]), or nothing. *)
Definition dirlookup (dp : nat) (name : list Z) : M fstate (option (nat * Z)) :=
  let! t := geti dp i_type in
  let! size := geti dp i_size in
  if negb (t =? T_DIR) then panicM "dirlookup not DIR"
  else dirlookup_loop dp name 0 (Z.to_nat (size / sizeof_dirent) + 2).

(** The second loop of [dirlink]: the offset of an empty entry, or the size. *)
Fixpoint dirlink_loop (dp : nat) (off : Z) (fuel : nat) : M fstate Z :=
  match fuel with
  | O => fun _ => NoFuel
  | Datatypes.S fuel =>
      let! size := geti dp i_size in
      if off <? size then
        let! '(r, v) := with_local de0 (readi local_copyout dp 0 off sizeof_dirent) in
        if negb (r =? sizeof_dirent) then panicM "dirlink read"
        else if de_inum (dirent_of_bytes v) =? 0 then retM off
        else dirlink_loop dp (off + sizeof_dirent) fuel
      else retM off
  end.

Definition dirlink (dp : nat) (name : list Z) (inum : Z) : M fstate Z :=
  let! found := dirlookup dp name in
  match found with
  | Some (ip, _) =>
      do! iput ip in
      retM (-1)
  | None =>
      let! size := geti dp i_size in
      let! off := dirlink_loop dp 0 (Z.to_nat (size / sizeof_dirent) + 2) in
      let de := mk_dirent (u16 inum) (strncpy_bytes name (Z.to_nat DIRSIZ)) in
      let! '(r, _) := with_local (bytes_of_dirent de) (writei local_copyin dp 0 (u32 off) sizeof_dirent) in
      if negb (r =? sizeof_dirent) then panicM "dirlink" else retM 0
  end.

(** ** Paths *)

(** A path is the bytes up to its NUL, [name] an array of [DIRSIZ] bytes. *)
Definition SLASH : Z := 47.

Fixpoint skip_slashes (path : list Z) : list Z :=
  match path with
  | c :: rest => if c =? SLASH then skip_slashes rest else path
  | [] => []
  end.
(** The element at the head of the path and what follows it. *)
Fixpoint take_elem (path : list Z) : list Z * list Z :=
  match path with
  | c :: rest => if c =? SLASH then ([], path) else let '(e, r) := take_elem rest in (c :: e, r)
  | [] => ([], [])
  end.

Definition skipelem (path name : list Z) : option (list Z * list Z) :=
  let path := skip_slashes path in
  match path with
  | [] => None
  | _ =>
      let '(s, rest) := take_elem path in
      let name := if DIRSIZ <=? Z.of_nat (length s) then splice 0 (take (Z.to_nat DIRSIZ) s) name
                  else splice 0 (s ++ [0]) name in
      Some (skip_slashes rest, name)
  end.

(** The loop of [namex]; each round consumes at least one byte of the path. *)
Fixpoint namex_loop (path : list Z) (nameiparent : bool) (name : list Z) (ip : nat) (fuel : nat) : M fstate (option nat * list Z) :=
  match fuel with
  | O => fun _ => NoFuel
  | Datatypes.S fuel =>
      match skipelem path name with
      | Some (path, name) =>
          do! ilock ip in
          let! t := geti ip i_type in
          if negb (t =? T_DIR) then
            do! iunlockput ip in
            retM (None, name)
          else if nameiparent && bool_decide (path = []) then
            do! iunlock ip in
            retM (Some ip, name)
          else
            let! next := dirlookup ip name in
            match next with
            | None =>
                do! iunlockput ip in
                retM (None, name)
            | Some (next, _) =>
                do! iunlockput ip in
                namex_loop path nameiparent name next fuel
            end
      | None =>
          if nameiparent then
            do! iput ip in
            retM (None, name)
          else retM (Some ip, name)
      end
  end.

Definition namex (path : list Z) (nameiparent : bool) (name : list Z) (cwd : nat) : M fstate (option nat * list Z) :=
  let! ip := (if hd 0 path =? SLASH then iget ROOTDEV ROOTINO else idup cwd) in
  namex_loop path nameiparent name ip (length path + 1).

Definition namei (path : list Z) (cwd : nat) : M fstate (option nat) :=
  let! '(ip, _) := namex path false (replicate (Z.to_nat DIRSIZ) 0) cwd in
  retM ip.
Definition nameiparent (path name : list Z) (cwd : nat) : M fstate (option nat * list Z) :=
  namex path true name cwd.
End Fs.
