(* ===== verification/FsAlloc.v ===== *)
(** * The block bitmap: balloc and bfree

    Running the file system's code on blocks against the laws of its store
    ([TxLaws]), bits of a block, the bitmap as a set of used blocks; [balloc] returns
    the first free block, marks it and zeroes it, [bfree] unmarks one. *)

From stdpp Require Import base list gmap strings.
From Stdlib Require Import ZArith Lia Znumtheory.
From S2P Require Import Prelude Layout Sleeplock FsFormat Bio Tx Store Fs.
Open Scope Z_scope.

(** ** Running the file system's block operations

    The laws of the store lifted to the file-system state, with the bookkeeping
    of a transaction: [budget f U k] says that only blocks of [U] have been
    logged and that [k] more may be. *)


Section FsSpec.
Context {S : Type} `{!TxOps S} `{!TxGhost S} `{!TxLaws S}.
Local Abbreviation fstate := (@fstate S).
Local Abbreviation V f := (view (fstore f)).

Record ext (f f' : fstate) : Prop := {
  ext_kept : kept (fstore f) (fstore f');
  ext_sb : fsb f' = fsb f;
  ext_pid : fpid f' = fpid f;
  ext_log : logged (fstore f) ⊆ logged (fstore f');
}.

#[export] Instance ext_preorder : PreOrder ext.
Proof.
  split; [by intros f; split|]. intros f1 f2 f3 [] []. split; [by etransitivity|congruence|congruence|set_solver].
Qed.

(** Inside a transaction. *)
Definition in_tx (f : fstate) : Prop := scap (fstore f) <> 0%nat.

Record budget (f : fstate) (U : list Z) (k : nat) : Prop := {
  bu_log : logged (fstore f) ⊆ U;
  bu_cap : in_tx f -> (length U + k < scap (fstore f))%nat;
  bu_buf : (length U + k + 2 < sbufs)%nat;
}.

(** [f'] is reached from [f]: it holds [H'], its blocks are [W]. *)
Record stepped (f f' : fstate) (H' : list (nat * Z)) (W : Z -> list Z) (U : list Z) (k : nat) : Prop := {
  sp_inv : sinv (fstore f') H';
  sp_ext : ext f f';
  sp_tab : itable f' = itable f;
  sp_view : forall x, V f' x = W x;
  sp_bud : budget f' U k;
}.

Lemma in_tx_ext f f' : ext f f' -> in_tx f -> in_tx f'.
Proof. intros [Hk _ _ _]. unfold in_tx. by rewrite (kp_cap _ _ Hk). Qed.

Lemma settled_ext f f' b : ext f f' -> V f' b = V f b -> settled (fstore f) b -> settled (fstore f') b.
Proof.
  intros [Hk _ _ Hl] Hv [Hb|Hb]; [left; set_solver|right]. by rewrite Hv, (kp_stable _ _ Hk).
Qed.

Lemma logged_length f H U k : sinv (fstore f) H -> budget f U k -> (length (logged (fstore f)) <= length U)%nat.
Proof. intros Hi [Hl _ _]. apply submseteq_length, NoDup_submseteq; [by eapply law_logged|set_solver]. Qed.

Lemma St_ok {A} (m : M S A) f a s : m (fstore f) = Ok a s ->
  St m f = Ok a (mk_fs s (fsb f) (itable f) (fpid f)).
Proof. intros H. unfold St, zoomM. by rewrite H. Qed.

Lemma run_bread f H U k b : sinv (fstore f) H -> budget f U k -> 0 <= b < 2 ^ 32 -> b ∉ H.*2 ->
  (length H <= 2)%nat ->
  exists i f', St (sbread (sdev (fstore f)) b) f = Ok i f' /\ stepped f f' ((i, b) :: H) (V f) U k /\
    settled (fstore f') b.
Proof.
  intros Hi Hb Hr Hn Hh. pose proof (logged_length _ _ _ _ Hi Hb) as Hl. pose proof (bu_buf _ _ _ Hb).
  destruct (law_bread (fstore f) H b Hi Hr Hn) as (Hs & i & s' & Hbr & Hi' & Hk & Hv & Hlg); [right; lia|].
  exists i, (mk_fs s' (fsb f) (itable f) (fpid f)). split; [by apply St_ok|].
  assert (He : ext f (mk_fs s' (fsb f) (itable f) (fpid f))) by (split; cbn; [done|done|done|by rewrite Hlg]).
  split; [|by apply (settled_ext f)]. split; try done. destruct Hb as [? ? ?].
  split; unfold in_tx; cbn [fstore]; rewrite ?Hlg, ?(kp_cap _ _ Hk); done.
Qed.

Lemma run_data f H i b : sinv (fstore f) H -> (i, b) ∈ H -> St (sdata i) f = Ok (V f b) f.
Proof. intros Hi Hb. rewrite (St_ok _ _ _ _ (law_data _ _ _ _ Hi Hb)). by destruct f. Qed.

Lemma run_brelse f H U k i b : sinv (fstore f) ((i, b) :: H) -> budget f U k -> settled (fstore f) b ->
  exists f', St (sbrelse i) f = Ok tt f' /\ stepped f f' H (V f) U k.
Proof.
  intros Hi Hb Hs. destruct (law_brelse _ _ _ _ Hi Hs) as (s' & Hbr & Hi' & Hk & Hv & Hlg).
  eexists. split; [by apply St_ok|]. destruct Hb as [? ? ?].
  split; cbn; [done|split; cbn; [done|done|done|by rewrite Hlg]|done|done|].
  split; unfold in_tx; cbn [fstore]; rewrite ?Hlg, ?(kp_cap _ _ Hk); done.
Qed.

(** Changing a held buffer, logging it and releasing it. *)
Lemma run_write f H U k i b g : in_tx f -> sinv (fstore f) ((i, b) :: H) -> budget f U k -> b ∈ U ->
  shome (fstore f) b -> is_block (g (V f b)) ->
  exists f1 f2 f', St (supdate i g) f = Ok tt f1 /\ St (slog_write i) f1 = Ok tt f2 /\
    St (sbrelse i) f2 = Ok tt f' /\ stepped f f' H (put (V f) b (g (V f b))) U k.
Proof.
  intros Htx Hi Hb HU Hh Hg. pose proof (list_elem_of_here (i, b) H) as Hin.
  destruct (law_update _ _ _ _ g Hi Hin Hg) as (s1 & Hu & Hi1 & Hk1 & Hv1 & Hl1).
  pose proof (logged_length _ _ _ _ Hi Hb) as Hl. pose proof (bu_cap _ _ _ Hb Htx) as Hc. destruct Hb as [Hb1 Hb2 Hb3].
  destruct (law_log_write _ _ _ _ Hi1 Hin) as (s2 & Hw & Hi2 & Hk2 & Hv2 & Hl2);
    [by apply (kp_home _ _ Hk1)|rewrite Hl1, (kp_cap _ _ Hk1); lia|].
  assert (Hk : kept (fstore f) s2) by (by transitivity s1).
  assert (Hin2 : b ∈ logged s2).
  { rewrite Hl2. case_decide; [done|]. apply elem_of_app. right. apply list_elem_of_here. }
  destruct (law_brelse _ _ _ _ Hi2 (or_introl Hin2)) as (s3 & Hbr & Hi3 & Hk3 & Hv3 & Hl3).
  eexists _, _, _. split; [by apply St_ok|]. split; [by apply St_ok|]. split; [by apply St_ok|].
  assert (Hel : forall x, x ∈ logged s3 <-> x ∈ logged (fstore f) \/ x = b).
  { intros x. rewrite Hl1 in Hl2. rewrite Hl3, Hl2. clear -x. case_decide; [naive_solver|].
    by rewrite elem_of_app, list_elem_of_singleton. }
  assert (Hsub : logged (fstore f) ⊆ logged s3 /\ logged s3 ⊆ U).
  { split; intros x; rewrite Hel; [by left|]. intros [Hx| ->]; [by apply Hb1|done]. }
  assert (Hkk : kept (fstore f) s3) by (by transitivity s2).
  split; cbn; [done|split; cbn; [done|done|done|apply Hsub]|done|by intros x; rewrite Hv3, Hv2, Hv1|].
  split; unfold in_tx; cbn [fstore]; [apply Hsub|by rewrite (kp_cap _ _ Hkk)|done].
Qed.

(** Opening, changing, logging and releasing. *)
Lemma run_update f H U k b g : in_tx f -> sinv (fstore f) H -> budget f U k -> 0 <= b < 2 ^ 32 -> b ∉ H.*2 ->
  (length H <= 2)%nat -> b ∈ U -> shome (fstore f) b -> is_block (g (V f b)) ->
  exists i f0 f1 f2 f', St (sbread (sdev (fstore f)) b) f = Ok i f0 /\ St (supdate i g) f0 = Ok tt f1 /\
    St (slog_write i) f1 = Ok tt f2 /\ St (sbrelse i) f2 = Ok tt f' /\
    stepped f f' H (put (V f) b (g (V f b))) U k.
Proof.
  intros Htx Hi Hb Hr Hn Hh HU Hhm Hg.
  destruct (run_bread f H U k b Hi Hb Hr Hn Hh) as (i & f0 & Hbr & [Hi0 He0 Ht0 Hv0 Hb0] & _).
  destruct (run_write f0 H U k i b g (in_tx_ext _ _ He0 Htx) Hi0 Hb0 HU) as (f1 & f2 & f' & H1 & H2 & H3 & [Hi' He' Ht' Hv' Hb']);
    [by apply (kp_home _ _ (ext_kept _ _ He0))|by rewrite Hv0|].
  exists i, f0, f1, f2, f'. split_and!; try done. split; try done; [by transitivity f0|by rewrite Ht'|].
  intros x. rewrite Hv', Hv0. by apply put_ext.
Qed.
End FsSpec.


(** ** Bits *)

Definition busy (bi : Z) (d : list Z) : bool := Z.testbit (nth (Z.to_nat (bi / 8)) d 0) (bi mod 8).

Lemma testbit_one n i : 0 <= n -> Z.testbit (Z.shiftl 1 n) i = bool_decide (i = n).
Proof.
  intros Hn. rewrite Z.shiftl_1_l. case_bool_decide as E.
  - subst. by apply Z.pow2_bits_true.
  - destruct (Z.ltb_spec i 0); [by apply Z.testbit_neg_r|]. apply Z.pow2_bits_false. lia.
Qed.

Lemma land_bit_zero x n : 0 <= n -> (Z.land x (Z.shiftl 1 n) =? 0) = negb (Z.testbit x n).
Proof.
  intros Hn. destruct (Z.testbit x n) eqn:E; cbn [negb].
  - apply Z.eqb_neq. intros H0. assert (Hb : Z.testbit (Z.land x (Z.shiftl 1 n)) n = true).
    { rewrite Z.land_spec, E, testbit_one by done. by rewrite bool_decide_true. }
    by rewrite H0, Z.testbit_0_l in Hb.
  - apply Z.eqb_eq. apply Z.bits_inj. intros i. rewrite Z.land_spec, Z.testbit_0_l, testbit_one by done.
    case_bool_decide as Ei; [subst; by rewrite E|by rewrite andb_false_r].
Qed.

Lemma bit_clear_busy bi d : bit_clear bi d = negb (busy bi d).
Proof. apply land_bit_zero. apply Z.mod_pos_bound. lia. Qed.

Lemma testbit_u8 x i : 0 <= i < 8 -> Z.testbit (u8 x) i = Z.testbit x i.
Proof. intros Hi. unfold u8. rewrite Z.mod_pow2_bits_low by lia. done. Qed.

Lemma nth_alter (g : Z -> Z) k j (d : list Z) : (k < length d)%nat ->
  nth j (alter g k d) 0 = if decide (j = k) then g (nth k d 0) else nth j d 0.
Proof.
  intros Hk. rewrite !nth_lookup. case_decide as E.
  - subst j. rewrite list_lookup_alter_eq. destruct (lookup_lt_is_Some_2 d k Hk) as [x ->]. done.
  - by rewrite list_lookup_alter_ne by done.
Qed.

Lemma same_bit bi bi' : 0 <= bi -> 0 <= bi' -> bi' / 8 = bi / 8 -> bi' mod 8 = bi mod 8 -> bi' = bi.
Proof. intros. rewrite (Z.div_mod bi' 8), (Z.div_mod bi 8) by lia. congruence. Qed.

Section Bits.
Context (d : list Z) (Hd : is_block d).

Lemma bit_byte bi : 0 <= bi < BPB -> (Z.to_nat (bi / 8) < length d)%nat.
Proof.
  intros Hbi. destruct Hd as [-> _]. unfold BPB, BSIZE, bsize in *.
  pose proof (Z.div_lt_upper_bound bi 8 1024). pose proof (Z.div_pos bi 8). lia.
Qed.

Lemma busy_change g bi bi' : 0 <= bi < BPB -> 0 <= bi' ->
  busy bi' (alter g (Z.to_nat (bi / 8)) d) =
  if decide (bi' / 8 = bi / 8) then Z.testbit (g (nth (Z.to_nat (bi / 8)) d 0)) (bi' mod 8) else busy bi' d.
Proof.
  intros Hbi Hbi'. unfold busy. rewrite nth_alter by (by apply bit_byte).
  pose proof (Z.div_pos bi 8). pose proof (Z.div_pos bi' 8).
  destruct (decide (bi' / 8 = bi / 8)) as [E|E].
  - rewrite decide_True by (by rewrite E). done.
  - rewrite decide_False by lia. done.
Qed.

Lemma busy_set bi bi' : 0 <= bi < BPB -> 0 <= bi' ->
  busy bi' (set_bit bi d) = bool_decide (bi' = bi) || busy bi' d.
Proof.
  intros Hbi Hbi'. unfold set_bit. rewrite busy_change by done.
  pose proof (Z.mod_pos_bound bi' 8). pose proof (Z.mod_pos_bound bi 8).
  case_decide as E.
  - rewrite testbit_u8, Z.lor_spec, testbit_one by lia. rewrite orb_comm. f_equal.
    + apply bool_decide_ext. split; [|by intros ->]. intros Em. apply same_bit; lia.
    + unfold busy. by rewrite E.
  - rewrite bool_decide_false; [done|]. by intros ->.
Qed.

Lemma busy_clear bi bi' : 0 <= bi < BPB -> 0 <= bi' ->
  busy bi' (clear_bit bi d) = negb (bool_decide (bi' = bi)) && busy bi' d.
Proof.
  intros Hbi Hbi'. unfold clear_bit. rewrite busy_change by done.
  pose proof (Z.mod_pos_bound bi' 8). pose proof (Z.mod_pos_bound bi 8).
  case_decide as E.
  - rewrite testbit_u8, Z.land_spec, Z.lnot_spec, testbit_one by lia. rewrite andb_comm. f_equal.
    + f_equal. apply bool_decide_ext. split; [|by intros ->]. intros Em. apply same_bit; lia.
    + unfold busy. by rewrite E.
  - rewrite bool_decide_false; [done|]. by intros ->.
Qed.

Lemma alter_block g k : (forall x, is_byte (g x)) -> is_block (alter g k d).
Proof.
  intros Hg. destruct Hd as [Hl Hb]. split; [by rewrite length_alter|].
  apply Forall_alter; [done|]. intros; apply Hg.
Qed.
Lemma set_bit_block bi : is_block (set_bit bi d).
Proof. apply alter_block. intros. apply u8_range. Qed.
Lemma clear_bit_block bi : is_block (clear_bit bi d).
Proof. apply alter_block. intros. apply u8_range. Qed.
End Bits.

Lemma find_clear_spec d b size : 0 <= b -> b + BPB < 2 ^ 31 -> forall fuel bi, 0 <= bi ->
  BPB - bi <= Z.of_nat fuel ->
  match find_clear d b size bi fuel with
  | Some r => bi <= r < BPB /\ b + r < size /\ busy r d = false /\ (forall j, bi <= j < r -> busy j d = true)
  | None => forall j, bi <= j < BPB -> b + j < size -> busy j d = true
  end.
Proof.
  intros Hb Hmax. unfold BPB, BSIZE in *. induction fuel as [|fuel IH]; intros bi Hbi Hf.
  { cbn [find_clear]. intros j Hj. lia. }
  cbn [find_clear]. unfold BPB, BSIZE. destruct (Z.ltb_spec bi (1024 * 8)); cbn [andb]; [|intros; lia].
  rewrite u32_small by lia. destruct (Z.ltb_spec (b + bi) size); [|intros; lia].
  rewrite bit_clear_busy. destruct (busy bi d) eqn:E; cbn [negb].
  - specialize (IH (bi + 1) ltac:(lia) ltac:(lia)). destruct (find_clear d b size (bi + 1) fuel) as [r|].
    + destruct IH as (H1 & H2 & H3 & H4). split_and!; try lia; try done. intros j Hj.
      destruct (decide (j = bi)) as [->|]; [done|]. apply H4. lia.
    + intros j Hj Hs. destruct (decide (j = bi)) as [->|]; [done|]. apply IH; lia.
  - split_and!; try lia; done.
Qed.

(** ** The bitmap *)

Definition used (W : Z -> list Z) (sb : superblock) (b : Z) : bool := busy (b mod BPB) (W (BBLOCK b sb)).

(** The first data block. *)
Definition data_start (sb : superblock) : Z := sb_bmapstart sb + sb_size sb / BPB + 1.
Definition is_data (sb : superblock) (a : Z) : Prop := data_start sb <= a < sb_size sb.
Definition is_bmap (sb : superblock) (a : Z) : Prop := sb_bmapstart sb <= a < data_start sb.

(** The layout mkfs gives a file system: inodes, bitmap, data. *)
Record sb_layout (sb : superblock) : Prop := {
  fl_size : 0 < sb_size sb /\ sb_size sb + BPB < 2 ^ 31;
  fl_inodes : 0 <= sb_inodestart sb /\ 0 < sb_ninodes sb < 2 ^ 31;
  fl_bmap : sb_inodestart sb + sb_ninodes sb / IPB + 1 <= sb_bmapstart sb;
  fl_data : data_start sb <= sb_size sb;
}.

(** The file system's own blocks are marked. *)
Definition meta_used (W : Z -> list Z) (sb : superblock) : Prop :=
  forall b, 0 <= b < data_start sb -> used W sb b = true.

(** Free blocks. *)
Definition nfree (W : Z -> list Z) (sb : superblock) : nat :=
  length (filter (fun b => used W sb b = false) (seqZ 0 (sb_size sb))).

Definition mark (W : Z -> list Z) (sb : superblock) (a : Z) : Z -> list Z :=
  put W (BBLOCK a sb) (set_bit (a mod BPB) (W (BBLOCK a sb))).
Definition alloc (W : Z -> list Z) (sb : superblock) (a : Z) : Z -> list Z :=
  put (mark W sb a) a zero_block.
Definition unmark (W : Z -> list Z) (sb : superblock) (a : Z) : Z -> list Z :=
  put W (BBLOCK a sb) (clear_bit (a mod BPB) (W (BBLOCK a sb))).

Section Layout.
Context (sb : superblock) (HL : sb_layout sb).

Lemma BPB_eq : BPB = 8192.
Proof. done. Qed.

Lemma bblock_eq b : 0 <= b < sb_size sb -> BBLOCK b sb = b / BPB + sb_bmapstart sb.
Proof.
  intros Hb. destruct (fl_size _ HL), (fl_inodes _ HL), HL as [_ _ ? ?]. unfold BBLOCK, data_start in *.
  pose proof (Z.div_le_mono b (sb_size sb) BPB ltac:(rewrite BPB_eq; lia) ltac:(lia)).
  pose proof (Z.div_pos b BPB ltac:(lia) ltac:(rewrite BPB_eq; lia)).
  pose proof (Z.div_pos (sb_ninodes sb) IPB ltac:(lia) ltac:(done)).
  apply u32_small. rewrite BPB_eq in *. lia.
Qed.

Lemma bblock_bmap b : 0 <= b < sb_size sb -> is_bmap sb (BBLOCK b sb).
Proof.
  intros Hb. rewrite bblock_eq by done. unfold is_bmap, data_start.
  pose proof (Z.div_le_mono b (sb_size sb) BPB ltac:(rewrite BPB_eq; lia) ltac:(lia)).
  pose proof (Z.div_pos b BPB ltac:(lia) ltac:(rewrite BPB_eq; lia)). lia.
Qed.

Lemma bmap_not_data b : is_bmap sb b -> ~ is_data sb b.
Proof. unfold is_bmap, is_data. lia. Qed.

Lemma data_pos a : is_data sb a -> 0 < a < sb_size sb.
Proof.
  intros Ha. destruct (fl_size _ HL), (fl_inodes _ HL), HL as [_ _ ? ?]. unfold is_data, data_start in *.
  pose proof (Z.div_pos (sb_ninodes sb) IPB ltac:(lia) ltac:(done)).
  pose proof (Z.div_pos (sb_size sb) BPB ltac:(lia) ltac:(done)). lia.
Qed.

Lemma bit_range b : 0 <= b mod BPB < BPB.
Proof. apply Z.mod_pos_bound. done. Qed.

(** Two blocks with the same bit are the same. *)
Lemma same_block a b : 0 <= a < sb_size sb -> 0 <= b < sb_size sb ->
  BBLOCK a sb = BBLOCK b sb -> a mod BPB = b mod BPB -> a = b.
Proof.
  intros Ha Hb Hq Hr. rewrite !bblock_eq in Hq by done.
  rewrite (Z.div_mod a BPB), (Z.div_mod b BPB) by done. f_equal; [|done]. f_equal. lia.
Qed.

Lemma used_put W b a v : 0 <= b < sb_size sb ->
  ~ is_bmap sb a -> used (put W a v) sb b = used W sb b.
Proof.
  intros Hb Ha. unfold used. rewrite put_ne; [done|]. intros E. apply Ha. rewrite <- E. by apply bblock_bmap.
Qed.

Lemma used_mark W a b : is_block (W (BBLOCK a sb)) -> 0 <= a < sb_size sb -> 0 <= b < sb_size sb ->
  used (mark W sb a) sb b = bool_decide (b = a) || used W sb b.
Proof.
  intros HW Ha Hb. unfold used, mark, put. pose proof (bit_range a). pose proof (bit_range b). case_decide as E.
  - rewrite busy_set by (done || lia). rewrite <- E. f_equal. apply bool_decide_ext.
    split; [|by intros ->]. by apply same_block.
  - rewrite bool_decide_false; [done|]. by intros ->.
Qed.

Lemma used_unmark W a b : is_block (W (BBLOCK a sb)) -> 0 <= a < sb_size sb -> 0 <= b < sb_size sb ->
  used (unmark W sb a) sb b = negb (bool_decide (b = a)) && used W sb b.
Proof.
  intros HW Ha Hb. unfold used, unmark, put. pose proof (bit_range a). pose proof (bit_range b). case_decide as E.
  - rewrite busy_clear by (done || lia). rewrite <- E. do 2 f_equal. apply bool_decide_ext.
    split; [|by intros ->]. by apply same_block.
  - rewrite bool_decide_false; [done|]. by intros ->.
Qed.

Lemma used_alloc W a b : is_block (W (BBLOCK a sb)) -> is_data sb a -> 0 <= b < sb_size sb ->
  used (alloc W sb a) sb b = bool_decide (b = a) || used W sb b.
Proof.
  intros HW Ha Hb. pose proof (data_pos a Ha). unfold alloc. rewrite used_put; [|done|].
  - apply used_mark; [done|lia|done].
  - intros Hm. by apply (bmap_not_data a).
Qed.

Lemma nfree_drop W W' a : 0 <= a < sb_size sb -> used W sb a = false ->
  (forall b, 0 <= b < sb_size sb -> used W' sb b = bool_decide (b = a) || used W sb b) ->
  nfree W sb = Datatypes.S (nfree W' sb).
Proof.
  intros Ha Hf HW'. unfold nfree.
  assert (Hp : filter (fun b => used W sb b = false) (seqZ 0 (sb_size sb)) ≡ₚ
               a :: filter (fun b => used W' sb b = false) (seqZ 0 (sb_size sb))).
  { apply NoDup_Permutation; [apply NoDup_filter, NoDup_seqZ| |].
    - apply NoDup_cons. split; [|apply NoDup_filter, NoDup_seqZ]. rewrite list_elem_of_filter, HW' by done.
      rewrite bool_decide_true by done. naive_solver.
    - intros x. rewrite elem_of_cons, !list_elem_of_filter, elem_of_seqZ.
      destruct (decide (x = a)) as [->|Hne]; [naive_solver lia|]. split.
      + intros [Hu Hx]. right. split; [|done]. rewrite HW', bool_decide_false by (done || lia). done.
      + intros [->|[Hu Hx]]; [done|]. split; [|done]. rewrite HW', bool_decide_false in Hu by (done || lia). done. }
  by rewrite Hp.
Qed.

(** The free blocks of an interval. *)
Lemma nfree_pos W : (0 < nfree W sb)%nat <-> exists b, 0 <= b < sb_size sb /\ used W sb b = false.
Proof.
  unfold nfree. split.
  - intros Hl. destruct (filter _ _) as [|b l] eqn:E; [simpl in Hl; lia|]. exists b.
    assert (Hin : b ∈ filter (fun b => used W sb b = false) (seqZ 0 (sb_size sb))) by (rewrite E; apply list_elem_of_here).
    apply list_elem_of_filter in Hin as [? ?%elem_of_seqZ]. split; [lia|done].
  - intros (b & Hb & Hf). assert (Hin : b ∈ filter (fun b => used W sb b = false) (seqZ 0 (sb_size sb)))
      by (apply list_elem_of_filter; split; [done|apply elem_of_seqZ; lia]).
    destruct (filter _ _); [by apply not_elem_of_nil in Hin|simpl; lia].
Qed.

Lemma nfree_ext W W' : (forall b, 0 <= b < sb_size sb -> used W' sb b = used W sb b) -> nfree W' sb = nfree W sb.
Proof.
  intros HW. unfold nfree. apply Permutation_length, NoDup_Permutation; [apply NoDup_filter, NoDup_seqZ..|].
  intros x. rewrite !list_elem_of_filter, elem_of_seqZ. split; intros [Hu Hx]; (split; [|done]).
  - by rewrite <- HW by lia.
  - by rewrite HW by lia.
Qed.
End Layout.

(** ** balloc and bfree *)

Section Balloc.
Context {S : Type} `{!TxOps S} `{!TxGhost S} `{!TxLaws S}.
Local Abbreviation fstate := (@fstate S).
Local Abbreviation V f := (view (fstore f)).

(** The state of a file system inside a transaction that holds [H]. *)
Record fs_ok (f : fstate) (H : list (nat * Z)) : Prop := {
  fo_inv : sinv (fstore f) H;
  fo_layout : sb_layout (fsb f);
  fo_home : forall b, sb_inodestart (fsb f) <= b < sb_size (fsb f) -> shome (fstore f) b;
  fo_meta : meta_used (V f) (fsb f);
  fo_held : forall b, b ∈ H.*2 -> is_data (fsb f) b /\ used (V f) (fsb f) b = true;
}.

(** The bitmap may be logged. *)
Definition bmap_in (sb : superblock) (U : list Z) : Prop := forall b, is_bmap sb b -> b ∈ U.

Lemma fs_ok_block f H b : fs_ok f H -> is_block (V f b).
Proof. intros [Hi _ _ _ _]. by eapply law_block. Qed.

Lemma fs_ok_bmap f H b : fs_ok f H -> is_bmap (fsb f) b -> 0 <= b < 2 ^ 32 /\ b ∉ H.*2 /\ shome (fstore f) b.
Proof.
  intros [Hi HL Hh _ Hd] Hb. pose proof (fl_size _ HL). pose proof (fl_inodes _ HL). destruct HL as [_ _ ? ?].
  pose proof (Z.div_pos (sb_ninodes (fsb f)) IPB ltac:(lia) ltac:(done)).
  rewrite BPB_eq in *. unfold is_bmap in *. split; [lia|]. split; [|apply Hh; lia].
  intros Hin. apply Hd in Hin as [Hin _]. unfold is_data in Hin. lia.
Qed.

Lemma fs_ok_data f H b : fs_ok f H -> is_data (fsb f) b -> 0 <= b < 2 ^ 32 /\ shome (fstore f) b.
Proof.
  intros [Hi HL Hh _ Hd] Hb. pose proof (data_pos _ HL b Hb). pose proof (fl_size _ HL).
  pose proof (fl_inodes _ HL). destruct HL as [_ _ ? ?].
  pose proof (Z.div_pos (sb_ninodes (fsb f)) IPB ltac:(lia) ltac:(done)).
  pose proof (Z.div_pos (sb_size (fsb f)) BPB ltac:(lia) ltac:(done)).
  unfold is_data, data_start in *. rewrite BPB_eq in *. split; [lia|]. apply Hh. lia.
Qed.

(** A step that leaves every used block used keeps the state well formed. *)
Lemma fs_ok_step f f' H H' W U k : fs_ok f H -> stepped f f' H' W U k ->
  (forall b, 0 <= b < sb_size (fsb f) -> used (V f) (fsb f) b = true -> used W (fsb f) b = true) ->
  (forall b, b ∈ H'.*2 -> b ∈ H.*2 \/ (is_data (fsb f) b /\ used (V f) (fsb f) b = true)) -> fs_ok f' H'.
Proof.
  intros [Hi HL Hh Hm Hd] [Hi' He Ht Hv Hb] Hu Hheld. pose proof (ext_sb _ _ He) as Esb.
  assert (Hu' : forall b, 0 <= b < sb_size (fsb f) -> used (V f) (fsb f) b = true -> used (V f') (fsb f) b = true).
  { intros b Hb' Hub. unfold used. rewrite Hv. by apply Hu. }
  split; rewrite ?Esb; try done.
  - intros b Hb'. apply (kp_home _ _ (ext_kept _ _ He)). by apply Hh.
  - intros b Hb'. apply Hu'; [|by apply Hm]. pose proof (fl_data _ HL). lia.
  - intros b Hb'. assert (Hdb : is_data (fsb f) b /\ used (V f) (fsb f) b = true)
      by (apply Hheld in Hb' as [Hb'|Hb']; [by apply Hd|done]).
    destruct Hdb as [Hdb Hub]. split; [done|]. apply Hu'; [|done]. pose proof (data_pos _ HL b Hdb). lia.
Qed.

Lemma used_ext W W' sb b : (forall x, W' x = W x) -> used W' sb b = used W sb b.
Proof. intros H. unfold used. by rewrite H. Qed.

Lemma budget_weaken f U k a : budget f U (Datatypes.S k) -> budget f (a :: U) k.
Proof. intros [H1 H2 H3]. split; cbn [length]; [set_solver|intros Ht; specialize (H2 Ht); lia|lia]. Qed.

Lemma bzero_ok f H U k b : in_tx f -> fs_ok f H -> budget f U k -> is_data (fsb f) b -> b ∉ H.*2 ->
  (length H <= 2)%nat -> b ∈ U ->
  exists f', bzero (sdev (fstore f)) b f = Ok tt f' /\ stepped f f' H (put (V f) b zero_block) U k.
Proof.
  intros Htx Hok Hb Hd Hn Hh HU. destruct (fs_ok_data f H b Hok Hd) as [Hr Hm].
  destruct (run_update f H U k b (fun _ => replicate (Z.to_nat BSIZE) 0) Htx (fo_inv _ _ Hok) Hb Hr Hn Hh HU Hm)
    as (i & f0 & f1 & f2 & f' & H1 & H2 & H3 & H4 & Hs).
  { split; [apply length_replicate|]. apply Forall_replicate. unfold is_byte. lia. }
  exists f'. unfold bzero. rewrite u32_small by lia. mstep H1. mstep H2. mstep H3. done.
Qed.

Lemma stepped_trans f f1 f2 H1 H2 W1 W2 U1 U2 k1 k2 : stepped f f1 H1 W1 U1 k1 -> stepped f1 f2 H2 W2 U2 k2 ->
  stepped f f2 H2 W2 U2 k2.
Proof. intros [? ? Et1 ? ?] [? ? Et2 ? ?]. split; try done; [by transitivity f1|by rewrite Et2]. Qed.

Lemma stepped_view f f' H W W' U k : stepped f f' H W U k -> (forall x, W x = W' x) -> stepped f f' H W' U k.
Proof. intros [? ? ? Hv ?] HW. split; try done. intros x. by rewrite Hv. Qed.

(** What a successful [balloc] does: it takes the first free block. *)
Definition allocated (f f' : fstate) (H : list (nat * Z)) (U : list Z) (k : nat) (a : Z) : Prop :=
  is_data (fsb f) a /\ used (V f) (fsb f) a = false /\
  (forall x, 0 <= x < a -> used (V f) (fsb f) x = true) /\
  stepped f f' H (alloc (V f) (fsb f) a) (a :: U) k.

(** Marking and zeroing the block found in a bitmap block. *)
Lemma balloc_take f f1 H U k i b bi : in_tx f -> fs_ok f H -> (length H <= 2)%nat ->
  bmap_in (fsb f) U -> b mod BPB = 0 -> 0 <= b -> 0 <= bi < BPB -> b + bi < sb_size (fsb f) ->
  (forall x, 0 <= x < b + bi -> used (V f) (fsb f) x = true) -> used (V f) (fsb f) (b + bi) = false ->
  stepped f f1 ((i, BBLOCK b (fsb f)) :: H) (V f) U (Datatypes.S k) ->
  exists f2 f3 f4 f', St (supdate i (set_bit bi)) f1 = Ok tt f2 /\ St (slog_write i) f2 = Ok tt f3 /\
    St (sbrelse i) f3 = Ok tt f4 /\ bzero (sdev (fstore f)) (b + bi) f4 = Ok tt f' /\
    allocated f f' H U k (b + bi).
Proof.
  intros Htx Hok Hh HU Hmod Hb0 Hbi Hsz Hlow Hfree Hs1. pose proof (fo_layout _ _ Hok) as HL.
  assert (Hmodb : (b + bi) mod BPB = bi).
  { rewrite <- Z.add_mod_idemp_l, Hmod by done. apply Z.mod_small. lia. }
  assert (Hdiv : (b + bi) / BPB = b / BPB).
  { rewrite (Z.div_mod b BPB) at 1 by done. rewrite Hmod, Z.add_0_r, Z.mul_comm, Z.div_add_l by done.
    rewrite (Z.div_small bi) by done. lia. }
  assert (Ebb : BBLOCK (b + bi) (fsb f) = BBLOCK b (fsb f)).
  { rewrite !bblock_eq by (done || lia). by rewrite Hdiv. }
  assert (Hbm : is_bmap (fsb f) (BBLOCK b (fsb f))) by (apply bblock_bmap; [done|lia]).
  assert (Hdata : is_data (fsb f) (b + bi)).
  { split; [|lia]. destruct (Z.le_gt_cases (data_start (fsb f)) (b + bi)); [done|].
    rewrite (fo_meta _ _ Hok) in Hfree by lia. done. }
  destruct (fs_ok_bmap f H _ Hok Hbm) as (Hr & Hn & Hhome).
  pose proof Hs1 as [Hi1 He1 Ht1 Hv1 Hb1].
  destruct (run_write f1 H U (Datatypes.S k) i (BBLOCK b (fsb f)) (set_bit bi) (in_tx_ext _ _ He1 Htx) Hi1 Hb1 (HU _ Hbm))
    as (f2 & f3 & f4 & E2 & E3 & E4 & Hs4);
    [by apply (kp_home _ _ (ext_kept _ _ He1))|apply set_bit_block; eapply law_block, Hi1|].
  assert (Hs4' : stepped f f4 H (mark (V f) (fsb f) (b + bi)) U (Datatypes.S k)).
  { eapply stepped_view; [eapply stepped_trans; [exact Hs1|exact Hs4]|]. intros x. unfold mark. rewrite Hmodb, Ebb, Hv1.
    apply put_ext, Hv1. }
  assert (Hok4 : fs_ok f4 H).
  { apply (fs_ok_step f f4 H H _ _ _ Hok Hs4'); [|by left]. intros x Hx Hu.
    rewrite used_mark by (done || lia || by eapply fs_ok_block). by rewrite Hu, orb_true_r. }
  pose proof Hs4' as [Hi4 He4 Ht4 Hv4 Hb4].
  destruct (bzero_ok f4 H (b + bi :: U) k (b + bi) (in_tx_ext _ _ He4 Htx) Hok4 (budget_weaken _ _ _ _ Hb4)) as (f' & Ez & Hs');
    [by rewrite (ext_sb _ _ He4)| |done|apply list_elem_of_here|].
  { intros Hin. apply (fo_held _ _ Hok) in Hin as [_ Hin]. congruence. }
  exists f2, f3, f4, f'. rewrite <- (kp_dev _ _ (ext_kept _ _ He4)). unfold allocated. split_and!; try done; [apply Hdata..|].
  eapply stepped_view; [eapply stepped_trans; [exact Hs4'|exact Hs']|]. intros x. unfold alloc. by apply put_ext.
Qed.

Lemma balloc_loop_ok f H U k : in_tx f -> fs_ok f H -> (length H <= 2)%nat -> bmap_in (fsb f) U ->
  forall fuel j f1, stepped f f1 H (V f) U (Datatypes.S k) -> 0 <= j -> BPB * j <= sb_size (fsb f) + BPB ->
  (forall x, 0 <= x < BPB * j -> x < sb_size (fsb f) -> used (V f) (fsb f) x = true) ->
  sb_size (fsb f) / BPB + 1 - j < Z.of_nat fuel ->
  (exists a f', balloc_loop (sdev (fstore f)) (BPB * j) fuel f1 = Ok a f' /\ allocated f f' H U k a) \/
  (balloc_loop (sdev (fstore f)) (BPB * j) fuel f1 = Panic "balloc: out of blocks" /\
   forall x, 0 <= x < sb_size (fsb f) -> used (V f) (fsb f) x = true).
Proof.
  intros Htx Hok Hh HU. pose proof (fo_layout _ _ Hok) as HL. destruct (fl_size _ HL) as [Hs0 Hs1].
  induction fuel as [|fuel IH]; intros j f1 Hs Hj Hjs Hlow Hf.
  { assert (sb_size (fsb f) / BPB + 1 < j) by lia. rewrite BPB_eq in *.
    pose proof (Z.mul_div_le (sb_size (fsb f)) 8192). pose proof (Z.mod_pos_bound (sb_size (fsb f)) 8192).
    pose proof (Z.div_mod (sb_size (fsb f)) 8192). lia. }
  pose proof Hs as [Hi1 He1 Ht1 Hv1 Hb1]. pose proof (ext_sb _ _ He1) as Esb.
  cbn [balloc_loop]. mrun. rewrite Esb. rewrite u32_small by (rewrite BPB_eq in *; lia).
  destruct (Z.ltb_spec (BPB * j) (sb_size (fsb f))) as [Hlt|Hge].
  2: { right. split; [done|]. intros x Hx. apply Hlow; lia. }
  assert (Hr : 0 <= BPB * j < sb_size (fsb f)) by (rewrite BPB_eq in *; lia).
  assert (Hbm : is_bmap (fsb f) (BBLOCK (BPB * j) (fsb f))) by (by apply bblock_bmap).
  destruct (fs_ok_bmap f H _ Hok Hbm) as (Hbr & Hn & Hhome).
  destruct (run_bread f1 H U (Datatypes.S k) _ Hi1 Hb1 Hbr Hn Hh) as (i & f2 & E2 & Hs2 & Hset).
  rewrite (kp_dev _ _ (ext_kept _ _ He1)) in E2. mstep E2.
  mstep (run_data f2 _ i _ (sp_inv _ _ _ _ _ _ Hs2) (list_elem_of_here _ _)).
  assert (Hs2' : stepped f f2 ((i, BBLOCK (BPB * j) (fsb f)) :: H) (V f) U (Datatypes.S k)).
  { eapply stepped_view; [eapply stepped_trans; [exact Hs|exact Hs2]|exact Hv1]. }
  rewrite (sp_view _ _ _ _ _ _ Hs2').
  assert (Hmod : (BPB * j) mod BPB = 0) by (rewrite Z.mul_comm; apply Z.mod_mul; done).
  assert (Hused : forall bi, 0 <= bi < BPB -> BPB * j + bi < sb_size (fsb f) ->
    used (V f) (fsb f) (BPB * j + bi) = busy bi (V f (BBLOCK (BPB * j) (fsb f)))).
  { intros bi Hbi Hbs. unfold used. rewrite !bblock_eq by (done || lia).
    rewrite Z.mul_comm, Z.div_add_l, Z.div_mul, (Z.div_small bi), Z.add_0_r by done.
    by rewrite <- Z.add_mod_idemp_l, Z.mod_mul, Z.add_0_l, Z.mod_small by done. }
  pose proof (find_clear_spec (V f (BBLOCK (BPB * j) (fsb f))) (BPB * j) (sb_size (fsb f)) ltac:(lia) ltac:(lia)
    (Z.to_nat BPB) 0 ltac:(lia) ltac:(rewrite BPB_eq; lia)) as Hfc.
  destruct (find_clear _ _ _ _ _) as [bi|].
  - destruct Hfc as (Hbi & Hbs & Hfree & Hprev). left.
    destruct (balloc_take f f2 H U k i (BPB * j) bi Htx Hok Hh HU Hmod ltac:(lia) Hbi Hbs) as
      (f3 & f4 & f5 & f' & E3 & E4 & E5 & E6 & Ha); [..|exact Hs2'|].
    + intros x Hx. destruct (Z.ltb_spec x (BPB * j)); [apply Hlow; lia|].
      replace x with (BPB * j + (x - BPB * j)) by lia. rewrite Hused by lia. apply Hprev. lia.
    + by rewrite Hused by lia.
    + exists (BPB * j + bi), f'. mstep E3. mstep E4. mstep E5. mstep E6. split; [|done].
      unfold retM. by rewrite u32_small by lia.
  - destruct (run_brelse f2 H U (Datatypes.S k) i _ (sp_inv _ _ _ _ _ _ Hs2) (sp_bud _ _ _ _ _ _ Hs2) Hset)
      as (f3 & E3 & Hs3). mstep E3.
    replace (BPB * j + BPB) with (BPB * (j + 1)) by lia.
    assert (Hs3' : stepped f f3 H (V f) U (Datatypes.S k)).
    { eapply stepped_view; [eapply stepped_trans; [exact Hs2'|exact Hs3]|apply Hs2']. }
    apply (IH (j + 1) f3 Hs3'); [lia|lia| |lia].
    intros x Hx Hxs. destruct (Z.ltb_spec x (BPB * j)); [apply Hlow; lia|].
    replace x with (BPB * j + (x - BPB * j)) by lia. rewrite Hused by lia. apply Hfc; lia.
Qed.

(** [balloc] takes the first free block if there is one and panics
    otherwise. *)
Lemma balloc_ok f H U k : in_tx f -> fs_ok f H -> (length H <= 2)%nat -> bmap_in (fsb f) U -> budget f U (Datatypes.S k) ->
  if decide (nfree (V f) (fsb f) = 0%nat) then balloc (sdev (fstore f)) f = Panic "balloc: out of blocks"
  else exists a f', balloc (sdev (fstore f)) f = Ok a f' /\ allocated f f' H U k a.
Proof.
  intros Htx Hok Hh HU Hb. unfold balloc. mrun.
  destruct (balloc_loop_ok f H U k Htx Hok Hh HU (Z.to_nat (sb_size (fsb f) / BPB) + 2) 0 f) as [Hr|[Hr Hall]].
  - split; try done. apply Hok.
  - lia.
  - pose proof (fl_size _ (fo_layout _ _ Hok)). rewrite BPB_eq in *. lia.
  - intros. lia.
  - lia.
  - rewrite Z.mul_0_r in Hr. rewrite decide_False; [done|]. destruct Hr as (a & f' & _ & Hd & Hf & _).
    intros E. assert (Hpos : (0 < nfree (V f) (fsb f))%nat); [|lia]. apply nfree_pos. exists a. split; [|done].
    pose proof (data_pos _ (fo_layout _ _ Hok) a Hd). lia.
  - rewrite Z.mul_0_r in Hr. rewrite decide_True; [done|].
    destruct (nfree (V f) (fsb f)) eqn:E; [done|]. assert (Hpos : (0 < nfree (V f) (fsb f))%nat) by lia.
    apply nfree_pos in Hpos as (b & Hb' & Hf). rewrite Hall in Hf by done. done.
Qed.

Lemma bfree_ok f H U k b : in_tx f -> fs_ok f H -> (length H <= 2)%nat -> bmap_in (fsb f) U -> budget f U k ->
  0 <= b < sb_size (fsb f) ->
  if used (V f) (fsb f) b
  then exists f', bfree (sdev (fstore f)) b f = Ok tt f' /\ stepped f f' H (unmark (V f) (fsb f) b) U k
  else bfree (sdev (fstore f)) b f = Panic "freeing free block".
Proof.
  intros Htx Hok Hh HU Hb Hr. pose proof (fo_layout _ _ Hok) as HL.
  assert (Hbm : is_bmap (fsb f) (BBLOCK b (fsb f))) by (by apply bblock_bmap).
  destruct (fs_ok_bmap f H _ Hok Hbm) as (Hbr & Hn & Hhome).
  destruct (run_bread f H U k _ (fo_inv _ _ Hok) Hb Hbr Hn Hh) as (i & f1 & E1 & Hs1 & Hset).
  unfold bfree. mrun. mstep E1. mstep (run_data f1 _ i _ (sp_inv _ _ _ _ _ _ Hs1) (list_elem_of_here _ _)).
  rewrite (sp_view _ _ _ _ _ _ Hs1), bit_clear_busy. fold (used (V f) (fsb f) b).
  destruct (used (V f) (fsb f) b); cbn [negb]; [|done].
  pose proof Hs1 as [Hi1 He1 Ht1 Hv1 Hb1].
  destruct (run_write f1 H U k i _ (clear_bit (b mod BPB)) (in_tx_ext _ _ He1 Htx) Hi1 Hb1 (HU _ Hbm))
    as (f2 & f3 & f' & E2 & E3 & E4 & Hs4);
    [by apply (kp_home _ _ (ext_kept _ _ He1))|apply clear_bit_block; eapply law_block, Hi1|].
  exists f'. mstep E2. mstep E3. split; [done|].
  eapply stepped_view; [eapply stepped_trans; [exact Hs1|exact Hs4]|]. intros x. unfold unmark. rewrite Hv1.
  apply put_ext, Hv1.
Qed.
End Balloc.
