(* ===== verification/FsFile.v ===== *)
(** * Files as sequences of bytes

    The block map of an inode, the bytes it stands for, and how the map grows:
    adding a block, direct or indirect, changes no byte of the file and no
    block of anyone else. *)

From stdpp Require Import base list gmap strings.
From Stdlib Require Import ZArith Lia.
From S2P Require Import Prelude Layout Sleeplock FsFormat Bio Tx Store Fs FsAlloc.
Open Scope Z_scope.

(** The indirect block of an inode. *)
Definition indirect (addrs : list Z) : Z := nth (Z.to_nat NDIRECT) addrs 0.

(** The block that holds the [n]th block of the file, or 0. *)
Definition fblock (W : Z -> list Z) (addrs : list Z) (n : Z) : Z :=
  if n <? NDIRECT then nth (Z.to_nat n) addrs 0
  else if indirect addrs =? 0 then 0
  else get32 (4 * (n - NDIRECT)) (W (indirect addrs)).

(** Byte [o] of the file; a block that is not there reads as zeros. *)
Definition fbyte (W : Z -> list Z) (addrs : list Z) (o : Z) : Z :=
  let a := fblock W addrs (o / BSIZE) in
  if a =? 0 then 0 else nth (Z.to_nat (o mod BSIZE)) (W a) 0.

Definition in_file (n : Z) : Prop := 0 <= n < MAXFILE.

Definition owns (W : Z -> list Z) (addrs : list Z) (x : Z) : Prop :=
  x <> 0 /\ (x = indirect addrs \/ exists n, in_file n /\ fblock W addrs n = x).

Record file_ok (W : Z -> list Z) (sb : superblock) (addrs : list Z) : Prop := {
  fk_len : length addrs = Z.to_nat (NDIRECT + 1);
  fk_own : forall x, owns W addrs x -> is_data sb x /\ used W sb x = true;
  fk_inj : forall n m, in_file n -> in_file m -> fblock W addrs n <> 0 ->
    fblock W addrs n = fblock W addrs m -> n = m;
  fk_ind : forall n, in_file n -> fblock W addrs n <> 0 -> fblock W addrs n <> indirect addrs;
}.

(** The file gets more blocks, and nothing else happens. *)
Record grows (W W' : Z -> list Z) (sb : superblock) (addrs addrs' : list Z) : Prop := {
  gr_ok : file_ok W' sb addrs';
  gr_keep : forall m, in_file m -> fblock W addrs m <> 0 -> fblock W' addrs' m = fblock W addrs m;
  gr_zero : forall m, in_file m -> fblock W addrs m = 0 ->
    fblock W' addrs' m = 0 \/ W' (fblock W' addrs' m) = zero_block;
  gr_data : forall x, is_data sb x -> used W sb x = true -> x <> indirect addrs -> W' x = W x;
  gr_meta : forall x, ~ is_bmap sb x -> ~ is_data sb x -> W' x = W x;
  gr_used : forall x, 0 <= x < sb_size sb -> used W sb x = true -> used W' sb x = true;
  gr_own : forall x, owns W' addrs' x -> owns W addrs x \/ used W sb x = false;
  gr_ind : indirect addrs' = indirect addrs \/ (indirect addrs = 0 /\ used W sb (indirect addrs') = false);
}.

Lemma nth_zero_block k : nth k zero_block 0 = 0.
Proof.
  unfold zero_block. rewrite nth_lookup. destruct (replicate bsize 0 !! k) as [x|] eqn:E; [|done].
  by apply lookup_replicate in E as [-> _].
Qed.

Lemma get32_zero_block off : get32 off zero_block = 0.
Proof.
  unfold get_at, slice, zero_block. rewrite drop_replicate, take_replicate. apply le_val_zeros.
Qed.

Lemma put32_is_block off v h : is_block h -> 0 <= off -> off + 4 <= 1024 -> is_block (put32 off v h).
Proof.
  intros [Hl Hb] H1 H2. split; [|by apply put_at_byte]. rewrite length_put_at; [done|done|]. unfold bsize in Hl. lia.
Qed.

Section Grow.
Context (sb : superblock) (HL : sb_layout sb).

Lemma owned_block W addrs m : file_ok W sb addrs -> in_file m -> fblock W addrs m <> 0 ->
  is_data sb (fblock W addrs m) /\ used W sb (fblock W addrs m) = true.
Proof. intros Hok Hm Hz. apply (fk_own _ _ _ Hok). split; [done|]. right. by exists m. Qed.

Lemma owned_ind W addrs : file_ok W sb addrs -> indirect addrs <> 0 ->
  is_data sb (indirect addrs) /\ used W sb (indirect addrs) = true.
Proof. intros Hok Hz. apply (fk_own _ _ _ Hok). split; [done|by left]. Qed.

(** Contents are a function of the block map. *)
Lemma grows_bytes W W' addrs addrs' o : file_ok W sb addrs -> grows W W' sb addrs addrs' ->
  0 <= o < MAXFILE * BSIZE -> fbyte W' addrs' o = fbyte W addrs o.
Proof.
  intros Hok Hg Ho. unfold fbyte.
  assert (Hm : in_file (o / BSIZE)).
  { split; [by apply Z.div_pos; [lia|done]|]. apply Z.div_lt_upper_bound; [done|lia]. }
  destruct (Z.eqb_spec (fblock W addrs (o / BSIZE)) 0) as [E|E].
  - destruct (gr_zero _ _ _ _ _ Hg _ Hm E) as [->| ->]; [done|]. case_match; [done|].
    apply nth_zero_block.
  - rewrite (gr_keep _ _ _ _ _ Hg _ Hm E), (proj2 (Z.eqb_neq _ 0) E).
    destruct (owned_block _ _ _ Hok Hm E) as [Hd Hu].
    by rewrite (gr_data _ _ _ _ _ Hg _ Hd Hu (fk_ind _ _ _ Hok _ Hm E)).
Qed.

(** ** Allocation seen from the blocks *)

Lemma alloc_zero W a : alloc W sb a a = zero_block.
Proof. apply put_eq. Qed.

Lemma alloc_data W a x : is_data sb a -> is_data sb x -> x <> a -> alloc W sb a x = W x.
Proof.
  intros Ha Hx Hne. pose proof (data_pos _ HL a Ha). unfold alloc, mark. rewrite !put_ne; [done| |done].
  intros E. apply (bmap_not_data sb x); [|done]. rewrite E. apply bblock_bmap; [done|lia].
Qed.

Lemma alloc_meta W a x : is_data sb a -> ~ is_bmap sb x -> ~ is_data sb x -> alloc W sb a x = W x.
Proof.
  intros Ha Hb Hd. pose proof (data_pos _ HL a Ha). unfold alloc, mark. rewrite !put_ne; [done| |by intros ->].
  intros E. apply Hb. rewrite E. apply bblock_bmap; [done|lia].
Qed.

Lemma fblock_direct W addrs n : n < NDIRECT -> fblock W addrs n = nth (Z.to_nat n) addrs 0.
Proof. intros Hn. unfold fblock. by rewrite (proj2 (Z.ltb_lt _ _) Hn). Qed.

Lemma fblock_indirect W addrs n : NDIRECT <= n ->
  fblock W addrs n = if indirect addrs =? 0 then 0 else get32 (4 * (n - NDIRECT)) (W (indirect addrs)).
Proof. intros Hn. unfold fblock. by rewrite (proj2 (Z.ltb_ge _ _) Hn). Qed.

Lemma nth_insert (l : list Z) i j v : (i < length l)%nat ->
  nth j (<[i := v]> l) 0 = if decide (j = i) then v else nth j l 0.
Proof.
  intros Hi. rewrite !nth_lookup. case_decide as E.
  - subst. by rewrite list_lookup_insert_eq.
  - by rewrite list_lookup_insert_ne.
Qed.

(** The common part of the three ways a file grows by a free block [a]. *)
Section Attach.
Context (W W' : Z -> list Z) (addrs addrs' : list Z) (a : Z).
Context (Hok : file_ok W sb addrs) (Ha : is_data sb a) (Hfree : used W sb a = false).
Context (Hblk : forall b, is_block (W b)).
Context (Hdata : forall x, is_data sb x -> x <> a -> x <> indirect addrs -> W' x = W x).
Context (Hmeta : forall x, ~ is_bmap sb x -> ~ is_data sb x -> W' x = W x).
Context (Hused : forall x, 0 <= x < sb_size sb -> used W' sb x = bool_decide (x = a) || used W sb x).

Lemma attach_fresh : a <> 0 /\ ~ owns W addrs a.
Proof.
  pose proof (data_pos _ HL a Ha). split; [lia|]. intros Ho. apply (fk_own _ _ _ Hok) in Ho as [_ Ho]. congruence.
Qed.

Lemma attach_grows n : in_file n \/ (n = -1 /\ indirect addrs = 0 /\ indirect addrs' = a) ->
  length addrs' = length addrs ->
  (forall m, in_file m -> fblock W' addrs' m = if decide (m = n) then a else fblock W addrs m) ->
  (in_file n -> fblock W addrs n = 0 /\ W' a = zero_block /\ indirect addrs' = indirect addrs) ->
  grows W W' sb addrs addrs'.
Proof.
  intros Hn Hlen Hfb Hnew. destruct attach_fresh as [Ha0 Hno].
  assert (Hown : forall x, owns W' addrs' x -> owns W addrs x \/ x = a).
  { intros x [Hx [E|(m & Hm & E)]].
    - destruct Hn as [Hn|(_ & _ & Hi)]; [|right; congruence].
      destruct (Hnew Hn) as (_ & _ & Ei). left. split; [done|left; congruence].
    - rewrite Hfb in E by done. case_decide; [by right|]. left. split; [done|right; by exists m]. }
  assert (Hne : forall m, in_file m -> fblock W addrs m <> a).
  { intros m Hm E. apply Hno. split; [done|]. right. by exists m. }
  assert (Hni : indirect addrs <> a) by (intros E; apply Hno; split; [done|by left]).
  split.
  - split.
    + rewrite Hlen. apply Hok.
    + intros x Hx. destruct (Hown x Hx) as [Ho| ->].
      * destruct (fk_own _ _ _ Hok x Ho) as [Hd Hu]. split; [done|]. pose proof (data_pos _ HL x Hd).
        rewrite Hused, Hu by lia. apply orb_true_r.
      * split; [done|]. pose proof (data_pos _ HL a Ha). rewrite Hused by lia. by rewrite bool_decide_true.
    + intros m1 m2 H1 H2. rewrite !Hfb by done. repeat case_decide; try congruence.
      * intros _ E. by destruct (Hne m2 H2).
      * intros _ E. by destruct (Hne m1 H1).
      * intros. by apply (fk_inj _ _ _ Hok).
    + intros m Hm. rewrite Hfb by done. case_decide as E.
      * subst m. intros _. destruct (Hnew Hm) as (_ & _ & ->). congruence.
      * intros Hz. destruct Hn as [Hn|(_ & Hi0 & ->)]; [|by apply Hne].
        destruct (Hnew Hn) as (_ & _ & ->). by apply (fk_ind _ _ _ Hok).
  - intros m Hm Hz. rewrite Hfb by done. case_decide as E; [|done]. subst m. destruct (Hnew Hm) as [? _]. done.
  - intros m Hm Hz. rewrite Hfb by done. case_decide as E; [|by left]. subst m. right. apply (Hnew Hm).
  - intros x Hd Hu Hi. apply Hdata; [done| |done]. intros ->. congruence.
  - exact Hmeta.
  - intros x Hx Hu. rewrite Hused, Hu by done. apply orb_true_r.
  - intros x Hx. destruct (Hown x Hx) as [Ho| ->]; [by left|by right].
  - destruct Hn as [Hn|(_ & Hi0 & ->)]; [left; apply (Hnew Hn)|by right].
Qed.
End Attach.

(** The block map afterwards, for a new direct block, a new indirect block and a
    new entry of the indirect block. *)
Lemma fblock_attach_direct W addrs n a m : file_ok W sb addrs -> is_data sb a -> used W sb a = false -> 0 <= n < NDIRECT -> in_file m ->
  fblock (alloc W sb a) (<[Z.to_nat n := a]> addrs) m = if decide (m = n) then a else fblock W addrs m.
Proof.
  intros Hok Ha Hf Hn Hm. pose proof (fk_len _ _ _ Hok) as Hlen. unfold NDIRECT in *.
  assert (Hi : indirect (<[Z.to_nat n := a]> addrs) = indirect addrs).
  { unfold indirect, NDIRECT. rewrite nth_insert, decide_False by lia. done. }
  unfold fblock, NDIRECT. destruct (Z.ltb_spec m 12).
  - rewrite nth_insert by lia. destruct Hm. repeat case_decide; (lia || done).
  - rewrite decide_False, Hi by lia. destruct (Z.eqb_spec (indirect addrs) 0) as [|Hne]; [done|].
    destruct (owned_ind _ _ Hok Hne) as [Hd Hu]. rewrite alloc_data; [done|done|done|]. congruence.
Qed.
Lemma fblock_attach_indirect W addrs a m : file_ok W sb addrs -> is_data sb a -> indirect addrs = 0 -> in_file m ->
  fblock (alloc W sb a) (<[Z.to_nat NDIRECT := a]> addrs) m = fblock W addrs m.
Proof.
  intros Hok Ha Hz Hm. pose proof (fk_len _ _ _ Hok) as Hlen. pose proof (data_pos _ HL a Ha) as Hpos.
  assert (Hi : indirect (<[Z.to_nat NDIRECT := a]> addrs) = a).
  { unfold indirect. rewrite nth_insert, decide_True by (unfold NDIRECT in *; lia || done). done. }
  unfold fblock. rewrite Hi, Hz, alloc_zero. destruct (Z.ltb_spec m NDIRECT).
  - rewrite nth_insert, decide_False by (unfold NDIRECT in *; destruct Hm; lia). done.
  - rewrite (proj2 (Z.eqb_neq a 0)) by lia. apply get32_zero_block.
Qed.
Lemma fblock_attach_entry W addrs n a m : is_data sb a -> is_block (W (indirect addrs)) ->
  NDIRECT <= n < MAXFILE -> indirect addrs <> 0 -> in_file m ->
  fblock (put (alloc W sb a) (indirect addrs) (put32 (4 * (n - NDIRECT)) a (W (indirect addrs)))) addrs m =
    if decide (m = n) then a else fblock W addrs m.
Proof.
  intros Ha [Hlen _] Hn Hi Hm. pose proof (data_pos _ HL a Ha) as Hpos. pose proof (fl_size _ HL) as Hsz.
  unfold fblock. destruct (Z.ltb_spec m NDIRECT); [by rewrite decide_False by lia|].
  rewrite (proj2 (Z.eqb_neq _ 0) Hi). rewrite put_eq. change MAXFILE with 268 in *.
  unfold in_file, NDIRECT, bsize, BPB, BSIZE in *. destruct Hm as [Hm1 Hm2]. change MAXFILE with 268 in *. case_decide as E.
  - subst m. rewrite get_put_eq by lia. apply Z.mod_small. lia.
  - rewrite get_put_ne by lia. done.
Qed.

(** A direct block. *)
Lemma attach_direct W addrs n a : file_ok W sb addrs -> is_data sb a -> used W sb a = false ->
  (forall b, is_block (W b)) -> 0 <= n < NDIRECT -> fblock W addrs n = 0 ->
  grows W (alloc W sb a) sb addrs (<[Z.to_nat n := a]> addrs) /\
  fblock (alloc W sb a) (<[Z.to_nat n := a]> addrs) n = a.
Proof.
  intros Hok Ha Hf Hblk Hn Hz. pose proof (fk_len _ _ _ Hok) as Hlen. unfold NDIRECT in *.
  assert (Hi : indirect (<[Z.to_nat n := a]> addrs) = indirect addrs).
  { unfold indirect, NDIRECT. rewrite nth_insert, decide_False by lia. done. }
  assert (Hfb : forall m, in_file m -> fblock (alloc W sb a) (<[Z.to_nat n := a]> addrs) m =
    if decide (m = n) then a else fblock W addrs m).
  { intros m Hm. by apply fblock_attach_direct. }
  assert (Hin : in_file n) by (split; [lia|]; change MAXFILE with 268; lia).
  split; [|rewrite Hfb by done; by rewrite decide_True].
  apply (attach_grows W _ addrs _ a) with (n := n); try done.
  - intros x Hx Hne _. by apply alloc_data.
  - intros x. by apply alloc_meta.
  - intros x Hx. by apply used_alloc.
  - by left.
  - apply length_insert.
  - intros _. split_and!; [done|apply alloc_zero|done].
Qed.

(** The indirect block. *)
Lemma attach_indirect W addrs a : file_ok W sb addrs -> is_data sb a -> used W sb a = false ->
  (forall b, is_block (W b)) -> indirect addrs = 0 ->
  grows W (alloc W sb a) sb addrs (<[Z.to_nat NDIRECT := a]> addrs) /\
  indirect (<[Z.to_nat NDIRECT := a]> addrs) = a.
Proof.
  intros Hok Ha Hf Hblk Hz. pose proof (fk_len _ _ _ Hok) as Hlen. pose proof (data_pos _ HL a Ha) as Hpos.
  assert (Hi : indirect (<[Z.to_nat NDIRECT := a]> addrs) = a).
  { unfold indirect. rewrite nth_insert, decide_True by (unfold NDIRECT in *; lia || done). done. }
  split; [|done]. apply (attach_grows W _ addrs _ a) with (n := -1); try done.
  - intros x Hx Hne _. by apply alloc_data.
  - intros x. by apply alloc_meta.
  - intros x Hx. by apply used_alloc.
  - by right.
  - apply length_insert.
  - intros m Hm. rewrite decide_False by (destruct Hm; lia). by apply fblock_attach_indirect.
  - intros [? _]. lia.
Qed.

(** An entry of the indirect block. *)
Lemma attach_entry W addrs n a : file_ok W sb addrs -> is_data sb a -> used W sb a = false ->
  (forall b, is_block (W b)) -> NDIRECT <= n < MAXFILE -> indirect addrs <> 0 -> fblock W addrs n = 0 ->
  let W' := put (alloc W sb a) (indirect addrs) (put32 (4 * (n - NDIRECT)) a (W (indirect addrs))) in
  grows W W' sb addrs addrs /\ fblock W' addrs n = a.
Proof.
  intros Hok Ha Hf Hblk Hn Hi Hz W'. pose proof (data_pos _ HL a Ha) as Hpos. pose proof (fl_size _ HL) as Hsz.
  destruct (owned_ind _ _ Hok Hi) as [Hdi Hui]. assert (Hia : a <> indirect addrs) by congruence.
  destruct (Hblk (indirect addrs)) as [Hlen _].
  assert (Hfb : forall m, in_file m -> fblock W' addrs m = if decide (m = n) then a else fblock W addrs m).
  { intros m Hm. by apply fblock_attach_entry. }
  assert (Hin : in_file n) by (unfold in_file, NDIRECT in *; lia).
  split; [|rewrite Hfb by done; by rewrite decide_True].
  apply (attach_grows W W' addrs addrs a) with (n := n); try done.
  - intros x Hx Hne Hxi. unfold W'. rewrite put_ne by done. by apply alloc_data.
  - intros x Hb Hd. unfold W'. rewrite put_ne by (by intros ->). by apply alloc_meta.
  - intros x Hx. unfold W'. rewrite used_put; [by apply used_alloc|done|done|].
    intros Hm. by apply (bmap_not_data sb (indirect addrs)).
  - by left.
  - intros _. split_and!; [done| |done]. unfold W'. rewrite put_ne by done. apply alloc_zero.
Qed.

Lemma grows_refl W addrs : file_ok W sb addrs -> grows W W sb addrs addrs.
Proof. intros Hok. split; try done; intros; by left. Qed.

Lemma grows_trans W1 W2 W3 a1 a2 a3 : file_ok W1 sb a1 -> grows W1 W2 sb a1 a2 -> grows W2 W3 sb a2 a3 ->
  grows W1 W3 sb a1 a3.
Proof.
  intros Hok H12 H23. pose proof (gr_ok _ _ _ _ _ H12) as Hok2.
  assert (Hcase : forall x, is_data sb x -> used W1 sb x = true -> x <> indirect a1 ->
    used W2 sb x = true /\ x <> indirect a2).
  { intros x Hd Hu Hi. pose proof (data_pos _ HL x Hd). split; [apply (gr_used _ _ _ _ _ H12); [lia|done]|].
    destruct (gr_ind _ _ _ _ _ H12) as [->|[_ Hf]]; [done|congruence]. }
  split.
  - apply H23.
  - intros m Hm Hz. rewrite (gr_keep _ _ _ _ _ H23), (gr_keep _ _ _ _ _ H12); try done.
    by rewrite (gr_keep _ _ _ _ _ H12).
  - intros m Hm Hz. destruct (decide (fblock W2 a2 m = 0)) as [E|E]; [by apply (gr_zero _ _ _ _ _ H23)|].
    right. rewrite (gr_keep _ _ _ _ _ H23) by done. destruct (owned_block _ _ _ Hok2 Hm E) as [Hd Hu].
    rewrite (gr_data _ _ _ _ _ H23) by (done || by apply (fk_ind _ _ _ Hok2)).
    destruct (gr_zero _ _ _ _ _ H12 m Hm Hz); [done|done].
  - intros x Hd Hu Hi. destruct (Hcase x Hd Hu Hi) as [Hu2 Hi2].
    by rewrite (gr_data _ _ _ _ _ H23), (gr_data _ _ _ _ _ H12).
  - intros x Hb Hd. by rewrite (gr_meta _ _ _ _ _ H23), (gr_meta _ _ _ _ _ H12).
  - intros x Hx Hu. apply (gr_used _ _ _ _ _ H23); [done|]. by apply (gr_used _ _ _ _ _ H12).
  - intros x Hx. destruct (gr_own _ _ _ _ _ H23 x Hx) as [Ho|Hf]; [by apply (gr_own _ _ _ _ _ H12)|].
    right. destruct (used W1 sb x) eqn:E; [|done]. 
    pose proof (fk_own _ _ _ (gr_ok _ _ _ _ _ H23) x Hx) as [Hd _]. pose proof (data_pos _ HL x Hd).
    rewrite (gr_used _ _ _ _ _ H12) in Hf by (done || lia). done.
  - destruct (gr_ind _ _ _ _ _ H23) as [->|[E2 Hf]]; [apply H12|].
    assert (E1 : indirect a1 = 0) by (destruct (gr_ind _ _ _ _ _ H12) as [?|[? _]]; congruence).
    destruct (decide (indirect a3 = 0)) as [E3|E3]; [left; congruence|right]. split; [done|].
    destruct (used W1 sb (indirect a3)) eqn:Eu; [|done].
    destruct (owned_ind _ _ (gr_ok _ _ _ _ _ H23) E3) as [Hd _]. pose proof (data_pos _ HL _ Hd).
    rewrite (gr_used _ _ _ _ _ H12) in Hf by (done || lia). done.
Qed.
End Grow.
