(* ===== verification/FsIO.v ===== *)
(** * bmap, readi and writei

    [bmap] maps a block of the file, adding blocks if it has to; [readi] and
    [writei] are reads and writes of the bytes of the file. *)

From stdpp Require Import base list gmap strings.
From Stdlib Require Import ZArith Lia FunctionalExtensionality.
From S2P Require Import Prelude Layout Sleeplock FsFormat Bio Tx Store Fs FsAlloc FsFile.
Open Scope Z_scope.


Section FsIO.
Context {S : Type} `{!TxOps S} `{!TxGhost S} `{!TxLaws S}.
Local Abbreviation fstate := (@fstate S).
Local Abbreviation V f := (view (fstore f)).

Lemma stepped_fun (f f' : fstate) H W U k : stepped f f' H W U k -> V f' = W.
Proof. intros [_ _ _ Hv _]. by extensionality x. Qed.

Lemma inode_at_upd (f : fstate) ip g j : (ip < length (itable f))%nat ->
  inode_at (upd_i ip g f) j = if decide (j = ip) then g (inode_at f ip) else inode_at f j.
Proof.
  intros Hip. unfold inode_at, upd_i. cbn [itable]. rewrite !nth_lookup. case_decide as E.
  - subst j. rewrite list_lookup_alter_eq. destruct (lookup_lt_is_Some_2 (itable f) ip Hip) as [i ->]. done.
  - by rewrite list_lookup_alter_ne.
Qed.

Lemma inode_at_alter (f f' : fstate) ip g : (ip < length (itable f))%nat -> itable f' = alter g ip (itable f) ->
  inode_at f' ip = g (inode_at f ip).
Proof.
  intros Hip Ht. unfold inode_at. rewrite Ht, !nth_lookup, list_lookup_alter_eq.
  by destruct (lookup_lt_is_Some_2 _ _ Hip) as [i ->].
Qed.

Lemma fs_ok_upd (f : fstate) ip g H : fs_ok f H -> fs_ok (upd_i ip g f) H.
Proof. intros [? ? ? ? ?]. by split. Qed.
Lemma budget_upd (f : fstate) ip g U k : budget f U k -> budget (upd_i ip g f) U k.
Proof. intros [? ? ?]. by split. Qed.
Lemma budget_le (f : fstate) U k k' : budget f U k -> (k' <= k)%nat -> budget f U k'.
Proof. intros [? Hc ?] Hle. split; [done| |lia]. intros Ht. specialize (Hc Ht). lia. Qed.
Lemma ext_upd (f : fstate) ip g : ext f (upd_i ip g f).
Proof. split; done. Qed.

(** ** bmap *)

(** What remains to be logged for the indirect block. *)
Definition pay (U addrs : list Z) : nat :=
  if decide (indirect addrs <> 0 /\ indirect addrs ∈ U) then 0 else 1.

Lemma pay_mono U U' addrs : U ⊆ U' -> (pay U' addrs <= pay U addrs)%nat.
Proof. intros HU. unfold pay. repeat case_decide; try lia. naive_solver. Qed.

Lemma pay_done U addrs : indirect addrs <> 0 -> indirect addrs ∈ U -> pay U addrs = 0%nat.
Proof. intros. unfold pay. by rewrite decide_True. Qed.

(** The file [ip] with room to map [r] of its blocks in the transaction. *)
Record fcur (f : fstate) (ip : nat) (U : list Z) (r : nat) : Prop := {
  fc_tx : in_tx f;
  fc_ok : fs_ok f [];
  fc_ip : (ip < length (itable f))%nat;
  fc_dev : i_dev (inode_at f ip) = sdev (fstore f);
  fc_file : file_ok (V f) (fsb f) (i_addrs (inode_at f ip));
  fc_bmap : bmap_in (fsb f) U;
  fc_bud : budget f U (r + pay U (i_addrs (inode_at f ip)));
  fc_free : (r + pay U (i_addrs (inode_at f ip)) <= nfree (V f) (fsb f))%nat;
}.

(** A [balloc] that finds a block. *)
Lemma balloc_run (f : fstate) H U k m : in_tx f -> fs_ok f H -> (length H <= 2)%nat -> bmap_in (fsb f) U ->
  budget f U (Datatypes.S k) -> (Datatypes.S m <= nfree (V f) (fsb f))%nat ->
  exists a f', balloc (sdev (fstore f)) f = Ok a f' /\ is_data (fsb f) a /\ used (V f) (fsb f) a = false /\
    stepped f f' H (alloc (V f) (fsb f) a) (a :: U) k /\ fs_ok f' H /\ (m <= nfree (V f') (fsb f'))%nat.
Proof.
  intros Htx Hok Hh HU Hb Hm. pose proof (balloc_ok f H U k Htx Hok Hh HU Hb) as Hr.
  rewrite decide_False in Hr by lia. destruct Hr as (a & f' & E & Hd & Hf & _ & Hs). exists a, f'.
  pose proof (fo_layout _ _ Hok) as HL. pose proof (data_pos _ HL a Hd) as Ha.
  pose proof (fs_ok_block f H (BBLOCK a (fsb f)) Hok) as Hblk.
  split_and!; try done.
  - apply (fs_ok_step f f' H H _ _ _ Hok Hs); [|by left]. intros b Hb' Hu.
    rewrite used_alloc by done. by rewrite Hu, orb_true_r.
  - rewrite (stepped_fun _ _ _ _ _ _ Hs), (ext_sb _ _ (sp_ext _ _ _ _ _ _ Hs)).
    rewrite (nfree_drop (fsb f) (V f) (alloc (V f) (fsb f) a) a) in Hm; [lia|lia|done|].
    intros b Hb'. by apply used_alloc.
Qed.

Definition mapped (f f' : fstate) (ip : nat) (U' : list Z) (r : nat) (n a : Z) : Prop :=
  fcur f' ip U' r /\
  grows (V f) (V f') (fsb f) (i_addrs (inode_at f ip)) (i_addrs (inode_at f' ip)) /\
  fblock (V f') (i_addrs (inode_at f' ip)) n = a /\ a <> 0 /\ a ∈ U' /\ ext f f' /\
  itable f' = alter (set_i_addrs (i_addrs (inode_at f' ip))) ip (itable f).

Lemma alter_id_addrs (f : fstate) ip :
  alter (set_i_addrs (i_addrs (inode_at f ip))) ip (itable f) = itable f.
Proof.
  rewrite (list_alter_ext _ id (itable f) (itable f) ip); [by apply list_alter_id| |done].
  intros i Hi. unfold inode_at. rewrite (nth_lookup_Some _ _ _ _ Hi). by destruct i.
Qed.

(** [ip->addrs[k] = a] *)
Lemma set_addr_eq (f f1 : fstate) ip k a : itable f1 = itable f ->
  upd_i ip (fun i => set_i_addrs (<[k := a]> (i_addrs i)) i) f1 =
  upd_i ip (set_i_addrs (<[k := a]> (i_addrs (inode_at f ip)))) f1.
Proof.
  intros Et. unfold upd_i. f_equal. rewrite Et. apply list_alter_ext; [|done]. intros i Hi.
  unfold inode_at. by rewrite (nth_lookup_Some _ _ _ _ Hi).
Qed.

(** The file after it has grown. *)
Lemma fcur_grow (f f1 : fstate) ip U U' r r0 addrs' W1 k : fcur f ip U r0 ->
  stepped f f1 [] W1 U' k -> fs_ok f1 [] -> grows (V f) W1 (fsb f) (i_addrs (inode_at f ip)) addrs' ->
  (r + pay U' addrs' <= k)%nat -> (r + pay U' addrs' <= nfree W1 (fsb f))%nat -> U ⊆ U' ->
  let f' := upd_i ip (set_i_addrs addrs') f1 in
  fcur f' ip U' r /\ ext f f' /\ i_addrs (inode_at f' ip) = addrs' /\ V f' = W1 /\
  itable f' = alter (set_i_addrs addrs') ip (itable f).
Proof.
  intros [Htx Hok Hip Hdev Hfile HU Hb Hfr] Hs Hok1 Hg Hk Hn HUU f'.
  pose proof Hs as [Hi1 He1 Ht1 _ Hb1]. pose proof (stepped_fun _ _ _ _ _ _ Hs) as HV1.
  assert (Hip1 : (ip < length (itable f1))%nat) by (by rewrite Ht1).
  assert (Hat : inode_at f' ip = set_i_addrs addrs' (inode_at f ip)).
  { unfold f'. rewrite inode_at_upd, decide_True by done. unfold inode_at. by rewrite Ht1. }
  split; [|split; [|split; [by rewrite Hat|split; [done|unfold f'; cbn [upd_i itable]; by rewrite Ht1]]]].
  - split; rewrite ?Hat; cbn [f' fstore upd_i itable i_addrs i_dev set_i_addrs fsb];
      rewrite ?(ext_sb _ _ He1), ?HV1; try done.
    + by apply (in_tx_ext _ _ He1).
    + by apply fs_ok_upd.
    + by rewrite length_alter.
    + by rewrite (kp_dev _ _ (ext_kept _ _ He1)).
    + apply Hg.
    + intros x Hx. by apply HUU, HU.
    + apply budget_upd. by eapply budget_le.
  - transitivity f1; [done|apply ext_upd].
Qed.

Lemma mapped_same (f : fstate) ip U r n : fcur f ip U (Datatypes.S r) -> in_file n ->
  fblock (V f) (i_addrs (inode_at f ip)) n <> 0 ->
  let a := fblock (V f) (i_addrs (inode_at f ip)) n in mapped f f ip (a :: U) r n a.
Proof.
  intros [Htx Hok Hip Hdev Hfile HU Hb Hfr] Hn Hz a.
  pose proof (pay_mono U (a :: U) (i_addrs (inode_at f ip)) ltac:(set_solver)) as Hp.
  unfold mapped. split_and!; try done; [|by apply grows_refl|apply list_elem_of_here|symmetry; apply alter_id_addrs].
  split; try done; [|apply budget_weaken; eapply budget_le; [exact Hb|lia]|lia].
  intros x Hx. right. by apply HU.
Qed.

Lemma pay_same U a addrs addrs' : indirect addrs' = indirect addrs -> (pay (a :: U) addrs' <= pay U addrs)%nat.
Proof.
  intros E. etransitivity; [|apply (pay_mono U (a :: U) addrs); set_solver]. unfold pay. by rewrite E.
Qed.

Lemma bmap_direct (f : fstate) ip U r n : fcur f ip U (Datatypes.S r) -> 0 <= n < NDIRECT ->
  exists a f', bmap ip n f = Ok a f' /\ mapped f f' ip (a :: U) r n a.
Proof.
  intros Hc Hn. pose proof Hc as [Htx Hok Hip Hdev Hfile HU Hb Hfr]. set (addrs := i_addrs (inode_at f ip)) in *.
  unfold bmap, get_addr, geti, set_addr, seti. mrun. rewrite (proj2 (Z.ltb_lt n NDIRECT)) by lia. mrun.
  fold addrs. rewrite Hdev. rewrite <- (fblock_direct (V f) addrs n) by lia.
  assert (Hin : in_file n) by (split; [lia|]; change MAXFILE with 268; unfold NDIRECT in *; lia).
  destruct (Z.eqb_spec (fblock (V f) addrs n) 0) as [Ez|Enz].
  2: { exists (fblock (V f) addrs n), f. split; [done|]. by apply mapped_same. }
  destruct (balloc_run f [] U (r + pay U addrs) (r + pay U addrs) Htx Hok ltac:(simpl; lia) HU Hb Hfr)
    as (a & f1 & E1 & Hd & Hf & Hs & Hok1 & Hm).
  mstep E1. mrun. unfold retM. rewrite (set_addr_eq f f1) by apply Hs. fold addrs.
  destruct (attach_direct (fsb f) (fo_layout _ _ Hok) (V f) addrs n a Hfile Hd Hf ltac:(intros; by eapply fs_ok_block) Hn Ez)
    as [Hg Hfb].
  pose proof (fk_len _ _ _ Hfile) as Hlen.
  assert (Hpay : (pay (a :: U) (<[Z.to_nat n := a]> addrs) <= pay U addrs)%nat).
  { apply pay_same. unfold indirect. rewrite nth_insert, decide_False by (unfold NDIRECT in *; lia). done. }
  rewrite (stepped_fun _ _ _ _ _ _ Hs), (ext_sb _ _ (sp_ext _ _ _ _ _ _ Hs)) in Hm.
  destruct (fcur_grow f f1 ip U (a :: U) r _ _ _ _ Hc Hs Hok1 Hg ltac:(lia) ltac:(lia) ltac:(set_solver))
    as (Hc' & He & Ha & HV & Ht).
  eexists a, _. split; [reflexivity|]. unfold mapped. rewrite Ha, HV. pose proof (data_pos _ (fo_layout _ _ Hok) a Hd).
  split_and!; try done; [lia|apply list_elem_of_here].
Qed.

(** The first half of the indirect case. *)
Lemma bmap_load (f : fstate) ip U r : fcur f ip U (Datatypes.S r) ->
  exists i f' U', (let! addr := get_addr ip NDIRECT in
     if addr =? 0 then
       let! addr := balloc (sdev (fstore f)) in
       do! set_addr ip NDIRECT addr in
       retM addr
     else retM addr) f = Ok i f' /\
    fcur f' ip U' (Datatypes.S r) /\ U ⊆ U' /\ ext f f' /\
    grows (V f) (V f') (fsb f) (i_addrs (inode_at f ip)) (i_addrs (inode_at f' ip)) /\
    i = indirect (i_addrs (inode_at f' ip)) /\ i <> 0 /\ i ∈ U' /\
    itable f' = alter (set_i_addrs (i_addrs (inode_at f' ip))) ip (itable f).
Proof.
  intros Hc. pose proof Hc as [Htx Hok Hip Hdev Hfile HU Hb Hfr]. set (addrs := i_addrs (inode_at f ip)) in *.
  unfold get_addr, geti, set_addr, seti. mrun. fold addrs. change (nth (Z.to_nat NDIRECT) addrs 0) with (indirect addrs).
  destruct (Z.eqb_spec (indirect addrs) 0) as [Ez|Enz].
  - assert (Hp1 : pay U addrs = 1%nat) by (unfold pay; by rewrite decide_False by naive_solver).
    rewrite Hp1, Nat.add_1_r in Hb, Hfr.
    destruct (balloc_run f [] U (Datatypes.S r) (Datatypes.S r) Htx Hok ltac:(simpl; lia) HU Hb Hfr)
      as (a & f1 & E1 & Hd & Hf & Hs & Hok1 & Hm).
    mstep E1. mrun. unfold retM. rewrite (set_addr_eq f f1) by apply Hs. fold addrs.
    destruct (attach_indirect (fsb f) (fo_layout _ _ Hok) (V f) addrs a Hfile Hd Hf ltac:(intros; by eapply fs_ok_block) Ez)
      as [Hg Hi].
    pose proof (data_pos _ (fo_layout _ _ Hok) a Hd) as Hpos.
    assert (Hpay : pay (a :: U) (<[Z.to_nat NDIRECT := a]> addrs) = 0%nat)
      by (apply pay_done; rewrite Hi; [lia|apply list_elem_of_here]).
    rewrite (stepped_fun _ _ _ _ _ _ Hs), (ext_sb _ _ (sp_ext _ _ _ _ _ _ Hs)) in Hm.
    destruct (fcur_grow f f1 ip U (a :: U) (Datatypes.S r) _ _ _ _ Hc Hs Hok1 Hg ltac:(lia) ltac:(lia) ltac:(set_solver))
      as (Hc' & He & Ha & HV & Ht).
    eexists a, _, (a :: U). split; [reflexivity|]. rewrite Ha, HV, Hi.
    split_and!; try done; [set_solver|lia|apply list_elem_of_here].
  - destruct (decide (indirect addrs ∈ U)) as [Hin|Hnin].
    + exists (indirect addrs), f, U. split; [done|]. fold addrs. split_and!; try done.
      * by apply grows_refl.
      * symmetry. apply alter_id_addrs.
    + assert (Hp1 : pay U addrs = 1%nat) by (unfold pay; by rewrite decide_False by naive_solver).
      assert (Hp2 : pay (indirect addrs :: U) addrs = 0%nat) by (apply pay_done; [done|apply list_elem_of_here]).
      exists (indirect addrs), f, (indirect addrs :: U). split; [done|]. fold addrs.
      split_and!; try done; [|set_solver|by apply grows_refl|apply list_elem_of_here|symmetry; apply alter_id_addrs].
      split; try done; fold addrs.
      * intros x Hx. right. by apply HU.
      * apply budget_weaken. eapply budget_le; [exact Hb|]. lia.
      * lia.
Qed.

Lemma stepped_weaken (f f' : fstate) H W U k a : stepped f f' H W U (Datatypes.S k) -> stepped f f' H W (a :: U) k.
Proof. intros [? ? ? ? ?]. split; try done. by apply budget_weaken. Qed.

(** The addresses in memory stay as they are. *)
Lemma upd_same (f f1 : fstate) ip : itable f1 = itable f -> upd_i ip (set_i_addrs (i_addrs (inode_at f ip))) f1 = f1.
Proof. intros Et. unfold upd_i. rewrite Et, alter_id_addrs, <- Et. by destruct f1. Qed.

Lemma mapped_grow (f f1 : fstate) ip U r r0 n a W1 : fcur f ip U r0 ->
  stepped f f1 [] W1 (a :: U) (r + pay U (i_addrs (inode_at f ip))) ->
  grows (V f) W1 (fsb f) (i_addrs (inode_at f ip)) (i_addrs (inode_at f ip)) ->
  fblock W1 (i_addrs (inode_at f ip)) n = a -> a <> 0 ->
  (r + pay U (i_addrs (inode_at f ip)) <= nfree W1 (fsb f))%nat -> mapped f f1 ip (a :: U) r n a.
Proof.
  intros Hc Hs Hg Hfb Ha Hn. pose proof (pay_same U a (i_addrs (inode_at f ip)) _ eq_refl) as Hp.
  assert (Hok1 : fs_ok f1 []).
  { apply (fs_ok_step f f1 [] [] _ _ _ (fc_ok _ _ _ _ Hc) Hs); [apply Hg|by left]. }
  destruct (fcur_grow f f1 ip U (a :: U) r _ _ _ _ Hc Hs Hok1 Hg ltac:(lia) ltac:(lia) ltac:(set_solver))
    as (Hc' & He & Ea & HV & Ht).
  rewrite upd_same in Hc', He, Ea, HV, Ht by apply Hs. unfold mapped. rewrite Ea, HV.
  split_and!; try done. apply list_elem_of_here.
Qed.

(** The second half: the entry of the indirect block. *)
Lemma bmap_entry (f : fstate) ip U r n : fcur f ip U (Datatypes.S r) -> NDIRECT <= n < MAXFILE ->
  let i := indirect (i_addrs (inode_at f ip)) in i <> 0 -> i ∈ U ->
  exists a f', (let! bp := St (sbread (sdev (fstore f)) i) in
     let! d := St (sdata bp) in
     let! addr := (if get32 (4 * (n - NDIRECT)) d =? 0 then
                     let! addr := balloc (sdev (fstore f)) in
                     do! St (supdate bp (put32 (4 * (n - NDIRECT)) addr)) in
                     do! St (slog_write bp) in
                     retM addr
                   else retM (get32 (4 * (n - NDIRECT)) d)) in
     do! St (sbrelse bp) in
     retM addr) f = Ok a f' /\ mapped f f' ip (a :: U) r n a.
Proof.
  intros Hc Hn i Hi HiU. pose proof Hc as [Htx Hok Hip Hdev Hfile HU Hb Hfr]. set (addrs := i_addrs (inode_at f ip)) in *.
  destruct (owned_ind _ _ _ Hfile Hi) as [Hdi Hui]. destruct (fs_ok_data f [] i Hok Hdi) as [Hri Hhi].
  rewrite (pay_done U addrs Hi HiU), Nat.add_0_r in Hb, Hfr.
  destruct (run_bread f [] U _ i (fo_inv _ _ Hok) Hb Hri (not_elem_of_nil _) ltac:(simpl; lia)) as (bp & f1 & E1 & Hs1 & Hset).
  mstep E1. mstep (run_data f1 _ bp i (sp_inv _ _ _ _ _ _ Hs1) (list_elem_of_here _ _)).
  pose proof (stepped_fun _ _ _ _ _ _ Hs1) as HV1. rewrite HV1.
  assert (Efb : get32 (4 * (n - NDIRECT)) (V f i) = fblock (V f) addrs n).
  { rewrite fblock_indirect by lia. fold i. by rewrite (proj2 (Z.eqb_neq i 0) Hi). }
  assert (Hin : in_file n) by (unfold in_file, NDIRECT in *; lia). rewrite Efb.
  assert (Hp0 : pay U addrs = 0%nat) by (by apply pay_done).
  pose proof Hs1 as [Hi1 He1 Ht1 _ Hb1].
  destruct (Z.eqb_spec (fblock (V f) addrs n) 0) as [Ez|Enz].
  2: { mrun. destruct (run_brelse f1 [] U _ bp i Hi1 Hb1 Hset) as (f2 & E2 & Hs2). mstep E2.
       exists (fblock (V f) addrs n), f2. split; [done|]. apply (mapped_grow f f2 ip U r _ n _ (V f) Hc); fold addrs.
       - apply stepped_weaken. rewrite Hp0, Nat.add_0_r.
         eapply stepped_view; [eapply stepped_trans; [exact Hs1|exact Hs2]|]. intros x. by rewrite HV1.
       - by apply grows_refl.
       - done.
       - done.
       - lia. }
  assert (Hok1 : fs_ok f1 [(bp, i)]).
  { apply (fs_ok_step f f1 [] _ _ _ _ Hok Hs1); [done|]. intros b Hb'. right. csimpl in Hb'.
    by apply list_elem_of_singleton in Hb' as ->. }
  rewrite <- (kp_dev _ _ (ext_kept _ _ He1)).
  destruct (balloc_run f1 [(bp, i)] U r r (in_tx_ext _ _ He1 Htx) Hok1 ltac:(simpl; lia))
    as (a & f2 & E2 & Hd & Hf & Hs2 & Hok2 & Hm).
  { by rewrite (ext_sb _ _ He1). }
  { done. }
  { by rewrite HV1, (ext_sb _ _ He1). }
  rewrite (ext_sb _ _ He1) in Hd, Hf, Hs2. rewrite HV1 in Hf, Hs2.
  pose proof (stepped_fun _ _ _ _ _ _ Hs2) as HV2. pose proof Hs2 as [Hi2 He2 Ht2 _ Hb2].
  rewrite HV2, (ext_sb _ _ He2), (ext_sb _ _ He1) in Hm. mrun. mstep E2. mrun.
  pose proof (data_pos _ (fo_layout _ _ Hok) a Hd) as Hpos. pose proof (fo_layout _ _ Hok) as HL.
  assert (Hai : i <> a) by (intros E; fold i in Hui; rewrite E, Hf in Hui; done).
  assert (Hblk : forall b, is_block (V f b)) by (intros; by eapply fs_ok_block).
  destruct (attach_entry (fsb f) HL (V f) addrs n a Hfile Hd Hf Hblk Hn Hi Ez) as [Hg Hfb]. fold i in Hg, Hfb.
  destruct (run_write f2 [] (a :: U) r bp i (put32 (4 * (n - NDIRECT)) a)) as (f3 & f4 & f5 & E3 & E4 & E5 & Hs5); try done.
  { by apply (in_tx_ext _ _ He2), (in_tx_ext _ _ He1). }
  { by right. }
  { by apply (kp_home _ _ (ext_kept _ _ He2)), (kp_home _ _ (ext_kept _ _ He1)). }
  { rewrite HV2, alloc_data by done. apply put32_is_block; [done|unfold NDIRECT in *; change MAXFILE with 268 in *; lia..]. }
  mstep E3. mrun. mstep E4. mrun. mstep E5. exists a, f5. split; [done|].
  apply (mapped_grow f f5 ip U r _ n a (put (alloc (V f) (fsb f) a) i (put32 (4 * (n - NDIRECT)) a (V f i))) Hc); fold addrs.
  - rewrite Hp0, Nat.add_0_r. eapply stepped_view; [eapply stepped_trans; [exact Hs1|eapply stepped_trans; [exact Hs2|exact Hs5]]|].
    intros x. rewrite HV2, (alloc_data _ HL (V f)) by done. reflexivity.
  - exact Hg.
  - exact Hfb.
  - lia.
  - rewrite Hp0, Nat.add_0_r. rewrite (nfree_ext _ (alloc (V f) (fsb f) a)); [done|].
    intros b Hb'. apply used_put; [done|done|]. intros Hbm. by apply (bmap_not_data (fsb f) i).
Qed.

Lemma bmap_ok (f : fstate) ip U r n : fcur f ip U (Datatypes.S r) -> in_file n ->
  exists a f' U', bmap ip n f = Ok a f' /\ mapped f f' ip U' r n a /\ U ⊆ U'.
Proof.
  intros Hc Hn. destruct (Z.ltb_spec n NDIRECT) as [Hd|Hi].
  { destruct (bmap_direct f ip U r n Hc) as (a & f' & E & Hm); [destruct Hn; lia|].
    exists a, f', (a :: U). split_and!; [done|done|set_solver]. }
  destruct (bmap_load f ip U r Hc) as (i & f1 & U1 & E1 & Hc1 & HU1 & He1 & Hg1 & Ei & Hi0 & HiU & Ht1).
  pose proof Hn as [_ Hn2]. subst i.
  destruct (bmap_entry f1 ip U1 r n Hc1 (conj Hi Hn2) Hi0 HiU) as (a & f2 & E2 & Hm2).
  exists a, f2, (a :: U1). split.
  - unfold bmap. rewrite (proj2 (Z.ltb_ge n NDIRECT)) by lia.
    rewrite (proj2 (Z.ltb_lt (n - NDIRECT) NINDIRECT)) by (unfold NDIRECT in *; change MAXFILE with 268 in *; change NINDIRECT with 256; lia).
    unfold geti at 1. mrun. rewrite (fc_dev _ _ _ _ Hc). rewrite <- bind_assoc. mstep E1.
    rewrite (kp_dev _ _ (ext_kept _ _ He1)) in E2. exact E2.
  - destruct Hm2 as (Hc2 & Hg2 & Hfb & Ha & HaU & He2 & Ht2). split; [|set_solver]. unfold mapped.
    split; [done|]. rewrite (ext_sb _ _ He1) in Hg2.
    split; [eapply grows_trans; [apply Hc|apply Hc|exact Hg1|exact Hg2]|]. split_and!; try done.
    + by transitivity f1.
    + rewrite Ht2, Ht1, list_alter_alter_eq. by apply list_alter_ext.
Qed.
End FsIO.

(** ** Reading files

    [readi] copies out the bytes of the file, whatever the destination, and
    changes no block. *)


(** The bytes [off .. off + n) of a file. *)
Definition fbytes (W : Z -> list Z) (addrs : list Z) (off n : Z) : list Z :=
  (fun k => fbyte W addrs (off + k)) <$> seqZ 0 n.

Lemma length_fbytes W addrs off n : length (fbytes W addrs off n) = Z.to_nat n.
Proof. unfold fbytes. by rewrite length_fmap, length_seqZ. Qed.

Lemma lookup_fbytes W addrs off n k : (k < Z.to_nat n)%nat ->
  fbytes W addrs off n !! k = Some (fbyte W addrs (off + Z.of_nat k)).
Proof. intros Hk. unfold fbytes. rewrite list_lookup_fmap, lookup_seqZ_lt by lia. simpl. do 2 f_equal; lia. Qed.

Lemma fbytes_app W addrs off n m : 0 <= n -> 0 <= m ->
  fbytes W addrs off (n + m) = fbytes W addrs off n ++ fbytes W addrs (off + n) m.
Proof.
  intros Hn Hm. apply list_eq. intros k. destruct (decide (k < Z.to_nat n)%nat) as [Hk|Hk].
  - rewrite lookup_app_l by (by rewrite length_fbytes). by rewrite !lookup_fbytes by lia.
  - rewrite lookup_app_r by (rewrite length_fbytes; lia). rewrite length_fbytes.
    destruct (decide (k < Z.to_nat (n + m))%nat) as [Hk'|Hk'].
    + rewrite !lookup_fbytes by lia. do 2 f_equal. lia.
    + rewrite (proj2 (lookup_ge_None _ _)) by (rewrite length_fbytes; lia).
      by rewrite (proj2 (lookup_ge_None _ _)) by (rewrite length_fbytes; lia).
Qed.

(** The bytes of one chunk are a slice of the block that holds them. *)
Lemma fbytes_slice W addrs off m : 0 <= off -> 0 <= m -> off mod BSIZE + m <= BSIZE ->
  is_block (W (fblock W addrs (off / BSIZE))) -> fblock W addrs (off / BSIZE) <> 0 ->
  slice (Z.to_nat (off mod BSIZE)) (Z.to_nat m) (W (fblock W addrs (off / BSIZE))) = fbytes W addrs off m.
Proof.
  intros Ho Hm Hfit [Hlen _] Hz. pose proof (Z.mod_pos_bound off BSIZE ltac:(done)) as Hmod.
  apply list_eq. intros k. destruct (decide (k < Z.to_nat m)%nat) as [Hk|Hk].
  - rewrite lookup_slice by done. rewrite lookup_fbytes by done. unfold fbyte.
    assert (Hq : (off + Z.of_nat k) / BSIZE = off / BSIZE /\ (off + Z.of_nat k) mod BSIZE = off mod BSIZE + Z.of_nat k).
    { pose proof (Z.div_mod off BSIZE ltac:(done)) as Hdm.
      replace (off + Z.of_nat k) with ((off mod BSIZE + Z.of_nat k) + (off / BSIZE) * BSIZE) by lia.
      rewrite Z.div_add, Z.mod_add, Z.div_small, Z.mod_small by (done || lia). lia. }
    destruct Hq as [-> ->]. rewrite (proj2 (Z.eqb_neq _ 0) Hz).
    destruct (nth_lookup_or_length (W (fblock W addrs (off / BSIZE))) (Z.to_nat (off mod BSIZE) + k) 0) as [E|E].
    + rewrite E. do 2 f_equal. lia.
    + unfold bsize, BSIZE in *. lia.
  - rewrite !(proj2 (lookup_ge_None _ _)); [done|rewrite length_fbytes; lia|].
    rewrite length_slice; unfold bsize, BSIZE in *; lia.
Qed.

(** [local_copyout] fills a local buffer of [n] bytes from the left. *)
Definition filled (n : Z) (bs : list Z) : list Z := bs ++ drop (length bs) (replicate (Z.to_nat n) 0).

Lemma filled_full n bs : length bs = Z.to_nat n -> filled n bs = bs.
Proof. intros E. unfold filled. rewrite E, drop_ge by (by rewrite length_replicate). by rewrite app_nil_r. Qed.

Lemma local_copyout_filled n bs1 bs2 : 0 <= n < 2 ^ 64 -> Z.of_nat (length (bs1 ++ bs2)) <= n ->
  local_copyout (u64 (0 + Z.of_nat (length bs1))) bs2 (filled n bs1) = Ok 0 (filled n (bs1 ++ bs2)).
Proof.
  intros Hn Hl. rewrite length_app in Hl. unfold local_copyout. f_equal. rewrite Z.add_0_l, u64_small by lia.
  rewrite Nat2Z.id. unfold splice, filled. rewrite take_app_length, <- app_assoc. f_equal. f_equal.
  rewrite drop_app_ge, drop_drop by lia. f_equal. rewrite length_app. lia.
Qed.

Section FsRead.
Context {S : Type} `{!TxOps S} `{!TxGhost S} `{!TxLaws S}.
Local Abbreviation fstate := (@fstate S).
Local Abbreviation V f := (view (fstore f)).

(** A file that may be read: its blocks below [len] are there. *)
Record rcur (f : fstate) (ip : nat) (U : list Z) (k : nat) (len : Z) : Prop := {
  rc_ok : fs_ok f [];
  rc_dev : i_dev (inode_at f ip) = sdev (fstore f);
  rc_file : file_ok (V f) (fsb f) (i_addrs (inode_at f ip));
  rc_bud : budget f U k;
  rc_len : 0 <= len <= MAXFILE * BSIZE;
  rc_full : forall n, 0 <= n -> n * BSIZE < len -> fblock (V f) (i_addrs (inode_at f ip)) n <> 0;
}.

Lemma rcur_step (f f' : fstate) ip U k len : rcur f ip U k len -> stepped f f' [] (V f) U k -> rcur f' ip U k len.
Proof.
  intros [Hok Hd Hf Hb Hl Hfull] Hs. pose proof Hs as [Hi He Ht _ Hb']. pose proof (stepped_fun _ _ _ _ _ _ Hs) as HV.
  unfold inode_at in *. split; unfold inode_at; rewrite ?Ht, ?HV, ?(ext_sb _ _ He), ?(kp_dev _ _ (ext_kept _ _ He)); try done.
  apply (fs_ok_step f f' [] [] _ _ _ Hok Hs); [done|by left].
Qed.

Lemma bmap_read (f : fstate) ip U k len n : rcur f ip U k len -> 0 <= n -> n * BSIZE < len ->
  exists f', bmap ip n f = Ok (fblock (V f) (i_addrs (inode_at f ip)) n) f' /\ stepped f f' [] (V f) U k.
Proof.
  intros [Hok Hd Hf Hb Hl Hfull] Hn Hlt. pose proof (Hfull n Hn Hlt) as Hz. set (addrs := i_addrs (inode_at f ip)) in *.
  assert (Hin : n < MAXFILE) by (unfold BSIZE in *; lia).
  unfold bmap, get_addr, geti. mrun. fold addrs. rewrite Hd. destruct (Z.ltb_spec n NDIRECT).
  - mrun. fold addrs. rewrite <- (fblock_direct (V f) addrs n) by done. rewrite (proj2 (Z.eqb_neq _ 0) Hz).
    exists f. split; [done|]. split; try done. apply Hok.
  - rewrite (proj2 (Z.ltb_lt (n - NDIRECT) NINDIRECT)) by (change MAXFILE with (NDIRECT + NINDIRECT) in Hin; lia).
    mrun. fold addrs. change (nth (Z.to_nat NDIRECT) addrs 0) with (indirect addrs).
    pose proof Hz as Hz'. rewrite fblock_indirect in Hz' by done.
    destruct (Z.eqb_spec (indirect addrs) 0) as [|Hi]; [done|]. mrun.
    destruct (owned_ind _ _ _ Hf Hi) as [Hdi Hui]. destruct (fs_ok_data f [] _ Hok Hdi) as [Hri Hhi].
    destruct (run_bread f [] U k _ (fo_inv _ _ Hok) Hb Hri (not_elem_of_nil _) ltac:(simpl; lia)) as (bp & f1 & E1 & Hs1 & Hset).
    mstep E1. mstep (run_data f1 _ bp _ (sp_inv _ _ _ _ _ _ Hs1) (list_elem_of_here _ _)).
    rewrite (sp_view _ _ _ _ _ _ Hs1), (proj2 (Z.eqb_neq _ 0) Hz'). mrun.
    destruct (run_brelse f1 [] U k bp _ (sp_inv _ _ _ _ _ _ Hs1) (sp_bud _ _ _ _ _ _ Hs1) Hset) as (f2 & E2 & Hs2).
    mstep E2. exists f2. split.
    + unfold retM. f_equal. rewrite fblock_indirect by done. by rewrite (proj2 (Z.eqb_neq _ 0) Hi).
    + eapply stepped_view; [eapply stepped_trans; [exact Hs1|exact Hs2]|]. apply Hs1.
Qed.

(** ** readi *)

Context {D : Type} (copyout : Z -> list Z -> M D Z) (wr : list Z -> D) (dst n0 : Z).
(** The destination: [wr bs] is its state once [bs] has been stored. *)
Context (Hcopy : forall bs1 bs2, Z.of_nat (length (bs1 ++ bs2)) <= n0 ->
  copyout (u64 (dst + Z.of_nat (length bs1))) bs2 (wr bs1) = Ok 0 (wr (bs1 ++ bs2))).

Lemma Fst_ok {A} (m : M fstate A) f (d : D) a f' : m f = Ok a f' -> Fst m (f, d) = Ok a (f', d).
Proof. intros H. unfold Fst, zoomM. cbn [fst snd]. by rewrite H. Qed.
Lemma Snd_ok {A} (m : M D A) (f : fstate) d a d' : m d = Ok a d' -> Snd m (f, d) = Ok a (f, d').
Proof. intros H. unfold Snd, zoomM. cbn [fst snd]. by rewrite H. Qed.

Lemma readi_loop_ok (f : fstate) ip U k len off n :
  rcur f ip U k len -> 0 <= off -> 0 <= n -> off + n <= len -> n <= n0 ->
  forall fuel tot f1, 0 <= tot <= n -> n - tot < Z.of_nat fuel -> stepped f f1 [] (V f) U k ->
  exists f', readi_loop copyout ip (u64 (dst + tot)) (off + tot) n tot fuel
      (f1, wr (fbytes (V f) (i_addrs (inode_at f ip)) off tot)) =
    Ok n (f', wr (fbytes (V f) (i_addrs (inode_at f ip)) off n)) /\ stepped f f' [] (V f) U k.
Proof.
  intros Hrc Hoff Hn Hlen Hn0. set (addrs := i_addrs (inode_at f ip)).
  pose proof (rc_len _ _ _ _ _ Hrc) as Hmax. change (MAXFILE * BSIZE) with 274432 in Hmax.
  induction fuel as [|fuel IH]; intros tot f1 Htot Hf Hs1; [lia|]. cbn [readi_loop].
  destruct (Z.ltb_spec tot n) as [Hlt|Hge].
  2: { assert (tot = n) as -> by lia. exists f1. split; [|done]. unfold retM. by rewrite s32_small by lia. }
  pose proof (rcur_step f f1 ip U k len Hrc Hs1) as Hrc1. pose proof (stepped_fun _ _ _ _ _ _ Hs1) as HV1.
  pose proof Hs1 as [Hi1 He1 Ht1 _ Hb1].
  assert (Eat : inode_at f1 ip = inode_at f ip) by (unfold inode_at; by rewrite Ht1).
  set (q := (off + tot) / BSIZE). set (m := Z.min (n - tot) (BSIZE - (off + tot) mod BSIZE)).
  pose proof (Z.mod_pos_bound (off + tot) BSIZE ltac:(done)) as Hmod.
  pose proof (Z.div_mod (off + tot) BSIZE ltac:(done)) as Hdm. fold q in Hdm.
  assert (Hq : 0 <= q /\ q * BSIZE < len) by (split; [apply Z.div_pos; [lia|done]|lia]).
  assert (Hm : 0 < m /\ tot + m <= n /\ (off + tot) mod BSIZE + m <= BSIZE) by lia.
  destruct (bmap_read f1 ip U k len q Hrc1 (proj1 Hq) (proj2 Hq)) as (f2 & E2 & Hs2).
  rewrite Eat, HV1 in E2. fold addrs in E2. rewrite HV1 in Hs2.
  mstep (Fst_ok _ f1 (wr (fbytes (V f) addrs off tot)) _ _ (eq_refl : geti ip i_dev f1 = Ok _ f1)).
  mstep (Fst_ok _ f1 (wr (fbytes (V f) addrs off tot)) _ _ E2).
  rewrite (rc_dev _ _ _ _ _ Hrc1), (kp_dev _ _ (ext_kept _ _ He1)).
  assert (Hs2' : stepped f f2 [] (V f) U k) by (eapply stepped_trans; [exact Hs1|exact Hs2]).
  pose proof (rcur_step f f2 ip U k len Hrc Hs2') as Hrc2. pose proof Hs2' as [Hi2 He2 Ht2 Hv2 Hb2].
  pose proof (rc_full _ _ _ _ _ Hrc q (proj1 Hq) (proj2 Hq)) as Hz. fold addrs in Hz.
  assert (Hqin : in_file q) by (unfold in_file; change MAXFILE with 268; unfold BSIZE in *; lia).
  destruct (owned_block _ _ _ _ (rc_file _ _ _ _ _ Hrc) Hqin Hz) as [Hda Hua]. fold addrs in Hda, Hua.
  destruct (fs_ok_data f [] _ (rc_ok _ _ _ _ _ Hrc) Hda) as [Hra _].
  destruct (run_bread f2 [] U k _ Hi2 Hb2 Hra (not_elem_of_nil _) ltac:(simpl; lia)) as (bp & f3 & E3 & Hs3 & Hset).
  rewrite (kp_dev _ _ (ext_kept _ _ He2)) in E3. mstep (Fst_ok _ f2 (wr (fbytes (V f) addrs off tot)) _ _ E3).
  mstep (Fst_ok _ f3 (wr (fbytes (V f) addrs off tot)) _ _
    (run_data f3 _ bp _ (sp_inv _ _ _ _ _ _ Hs3) (list_elem_of_here _ _))).
  rewrite (sp_view _ _ _ _ _ _ Hs3), Hv2. fold m.
  rewrite (fbytes_slice (V f) addrs (off + tot) m) by (lia || done || (eapply fs_ok_block, Hrc)).
  pose proof (Hcopy (fbytes (V f) addrs off tot) (fbytes (V f) addrs (off + tot) m)) as Hcp.
  rewrite <- fbytes_app, !length_fbytes in Hcp by lia. rewrite !Z2Nat.id in Hcp by lia.
  mstep (Snd_ok _ f3 _ _ _ (Hcp ltac:(lia))). cbn [Z.eqb].
  destruct (run_brelse f3 [] U k bp _ (sp_inv _ _ _ _ _ _ Hs3) (sp_bud _ _ _ _ _ _ Hs3) Hset) as (f4 & E4 & Hs4).
  mstep (Fst_ok _ f3 (wr (fbytes (V f) addrs off (tot + m))) _ _ E4).
  assert (Hs4' : stepped f f4 [] (V f) U k).
  { eapply stepped_view; [eapply stepped_trans; [exact Hs2'|eapply stepped_trans; [exact Hs3|exact Hs4]]|].
    intros x. by rewrite (sp_view _ _ _ _ _ _ Hs3), Hv2. }
  rewrite !u32_small by lia. replace (u64 (u64 (dst + tot) + m)) with (u64 (dst + (tot + m)))
    by (unfold u64; rewrite Z.add_mod_idemp_l by lia; f_equal; lia).
  replace (off + tot + m) with (off + (tot + m)) by lia. apply IH; [lia|lia|done].
Qed.

(** What [readi] returns: at most [n] bytes, up to the end of the file. *)
Definition read_len (size off n : Z) : Z :=
  if decide (size < off) then 0 else Z.min n (size - off).

Lemma readi_ok (f : fstate) ip U k off n : rcur f ip U k (i_size (inode_at f ip)) ->
  0 <= dst < 2 ^ 64 -> 0 <= off < 2 ^ 32 -> 0 <= n -> off + n < 2 ^ 32 -> n <= n0 ->
  let size := i_size (inode_at f ip) in
  exists f', readi copyout ip dst off n (f, wr []) =
    Ok (read_len size off n) (f', wr (fbytes (V f) (i_addrs (inode_at f ip)) off (read_len size off n))) /\
    stepped f f' [] (V f) U k.
Proof.
  intros Hrc Hd Hoff Hn Hov Hn0 size. pose proof (rc_len _ _ _ _ _ Hrc) as Hl. fold size in Hl.
  change (MAXFILE * BSIZE) with 274432 in Hl.
  assert (Hs0 : stepped f f [] (V f) U k) by (split; try done; [apply Hrc|apply Hrc]).
  unfold readi. mstep (Fst_ok _ f (wr []) _ _ (eq_refl : geti ip i_size f = Ok size f)).
  unfold read_len. rewrite !u32_small by lia.
  destruct (Z.ltb_spec size off); cbn [orb].
  { rewrite decide_True by lia. exists f. by split. }
  rewrite decide_False by lia. rewrite (proj2 (Z.ltb_ge (off + n) off)) by lia.
  replace (if size <? off + n then u32 (size - off) else n) with (Z.min n (size - off))
    by (destruct (Z.ltb_spec size (off + n)); [rewrite u32_small by lia|]; lia).
  destruct (readi_loop_ok f ip U k size off (Z.min n (size - off)) Hrc ltac:(lia) ltac:(lia) ltac:(lia) ltac:(lia)
    (Z.to_nat (Z.min n (size - off)) + 1) 0 f ltac:(lia) ltac:(lia) Hs0) as (f' & E & Hs).
  rewrite !Z.add_0_r, (u64_small dst) in E by lia. exists f'. split; [exact E|done].
Qed.
End FsRead.
