(* ===== verification/FsInode.v ===== *)
(** * Inodes on disk

    Writing an inode into its block and reading it back, [iupdate] and
    [ilock]; the evolution of a file's blocks under writes. *)

From stdpp Require Import base list gmap strings.
From Stdlib Require Import ZArith Lia.
From S2P Require Import Prelude Layout Sleeplock FsFormat Bio Tx Store Fs FsAlloc FsFile FsIO.
Open Scope Z_scope.

(** ** struct dinode *)

Lemma put_addrs_step off addrs bs (n : nat) :
  foldl (fun bs k => put32 (off + 4 * Z.of_nat k) (nth k addrs 0) bs) bs (seq 0 (Datatypes.S n)) =
  put32 (off + 4 * Z.of_nat n) (nth n addrs 0)
    (foldl (fun bs k => put32 (off + 4 * Z.of_nat k) (nth k addrs 0) bs) bs (seq 0 n)).
Proof. rewrite seq_S, foldl_app. done. Qed.

Section PutAddrs.
Context (off : Z) (addrs bs : list Z).
Local Abbreviation upto n := (foldl (fun bs k => put32 (off + 4 * Z.of_nat k) (nth k addrs 0) bs) bs (seq 0 n)).

Lemma put_addrs_prefix (n : nat) : 0 <= off -> off + 4 * Z.of_nat n <= Z.of_nat (length bs) ->
  length (upto n) = length bs /\
  (forall k : nat, (k < n)%nat -> get32 (off + 4 * Z.of_nat k) (upto n) = u32 (nth k addrs 0)) /\
  (forall m o, 0 <= o -> o + Z.of_nat m <= off \/ off + 4 * Z.of_nat n <= o ->
     o + Z.of_nat m <= Z.of_nat (length bs) -> get_at m o (upto n) = get_at m o bs).
Proof.
  intros Ho. induction n as [|n IH]; intros Hl; [split_and!; [done|intros; lia|done]|].
  destruct (IH ltac:(lia)) as (H1 & H2 & H3). rewrite put_addrs_step. split_and!.
  - rewrite length_put_at; [done|lia|lia].
  - intros k Hk. destruct (decide (k = n)) as [->|Hne].
    + rewrite get_put_eq by lia. done.
    + rewrite get_put_ne by lia. apply H2. lia.
  - intros m o Ho' Hd Hm. rewrite get_put_ne by lia. apply H3; lia.
Qed.
End PutAddrs.

Record dinode_wf (d : dinode) : Prop := {
  dw_short : - 2 ^ 15 <= di_type d < 2 ^ 15 /\ - 2 ^ 15 <= di_major d < 2 ^ 15 /\
    - 2 ^ 15 <= di_minor d < 2 ^ 15 /\ - 2 ^ 15 <= di_nlink d < 2 ^ 15;
  dw_size : 0 <= di_size d < 2 ^ 32;
  dw_len : length (di_addrs d) = Z.to_nat (NDIRECT + 1);
  dw_addrs : forall k, 0 <= nth k (di_addrs d) 0 < 2 ^ 32;
}.

Lemma s16_mod x : - 2 ^ 15 <= x < 2 ^ 15 -> s16 (x mod 256 ^ 2) = x.
Proof. intros Hx. unfold s16. rewrite Z.add_mod_idemp_l by lia. rewrite Z.mod_small by lia. lia. Qed.

Section PutDinode.
Context (off : Z) (d : dinode) (bs : list Z).
Context (Hoff : 0 <= off) (Hfit : off + 64 <= Z.of_nat (length bs)).

(** The scalar fields, before the addresses are stored. *)
Definition put_scalars : list Z :=
  put32 (off + 8) (di_size d) (put16 (off + 6) (di_nlink d) (put16 (off + 4) (di_minor d)
    (put16 (off + 2) (di_major d) (put16 off (di_type d) bs)))).

Lemma length_put_scalars : length put_scalars = length bs.
Proof. unfold put_scalars. repeat (rewrite length_put_at; [|lia|]); (done || lia || (repeat (rewrite length_put_at; [|lia|]); lia)). Qed.

Lemma put_dinode_prefix : length (put_dinode off d bs) = length bs /\
  (forall k : nat, (k < 13)%nat -> get32 (off + 12 + 4 * Z.of_nat k) (put_dinode off d bs) = u32 (nth k (di_addrs d) 0)) /\
  (forall m o, 0 <= o -> o + Z.of_nat m <= off + 12 \/ off + 64 <= o ->
     o + Z.of_nat m <= Z.of_nat (length bs) -> get_at m o (put_dinode off d bs) = get_at m o put_scalars).
Proof.
  pose proof length_put_scalars as Hl.
  destruct (put_addrs_prefix (off + 12) (di_addrs d) put_scalars 13 ltac:(lia) ltac:(lia)) as (H1 & H2 & H3).
  split_and!; [by rewrite <- Hl|exact H2|]. intros m o Ho Hd Hm. apply H3; lia.
Qed.

Lemma length_put_dinode : length (put_dinode off d bs) = length bs.
Proof. apply put_dinode_prefix. Qed.

Ltac fields := repeat first [rewrite get_put_eq by (repeat (rewrite length_put_at; [|lia|]); lia)
  | rewrite get_put_ne by (repeat (rewrite length_put_at; [|lia|]); lia)].

Lemma dinode_at_put : dinode_wf d -> dinode_at off (put_dinode off d bs) = d.
Proof.
  intros [(Ht & Hmj & Hmn & Hnl) Hsz Hlen Hadr]. destruct put_dinode_prefix as (_ & Hent & Hout).
  unfold dinode_at. rewrite !Hout by lia. unfold put_scalars. fields.
  change (Z.of_nat 2) with 2. change (Z.of_nat 4) with 4. rewrite !s16_mod by lia. rewrite Z.mod_small by lia.
  destruct d as [ty mj mn nl sz ad]. cbn [di_type di_major di_minor di_nlink di_size di_addrs] in *. f_equal.
  apply list_eq. intros k. rewrite list_lookup_fmap. destruct (decide (k < 13)%nat) as [Hk|Hk].
  - rewrite lookup_seqZ_lt by (unfold NDIRECT; lia). cbn [fmap option_fmap option_map]. rewrite Z.add_0_l, Hent by done. rewrite u32_small by apply Hadr.
    destruct (nth_lookup_or_length ad k 0) as [->|]; [done|]. unfold NDIRECT in *. lia.
  - rewrite lookup_seqZ_ge by (unfold NDIRECT; lia). symmetry. apply lookup_ge_None. rewrite Hlen. unfold NDIRECT. lia.
Qed.

Lemma dinode_at_other off' : 0 <= off' -> off' + 64 <= Z.of_nat (length bs) ->
  off' + 64 <= off \/ off + 64 <= off' -> dinode_at off' (put_dinode off d bs) = dinode_at off' bs.
Proof.
  intros Ho' Hf' Hd. destruct put_dinode_prefix as (_ & _ & Hout).
  assert (Hg : forall m o, 0 <= o -> off' <= o -> o + Z.of_nat m <= off' + 64 -> get_at m o (put_dinode off d bs) = get_at m o bs).
  { intros m o H0 H1 H2. rewrite Hout by lia. unfold put_scalars. fields. done. }
  unfold dinode_at. rewrite !Hg by lia. f_equal. apply list_fmap_ext. intros i k Hk.
  apply lookup_seqZ in Hk as [-> Hi]. apply Hg; unfold NDIRECT in *; lia.
Qed.

Lemma put_dinode_byte : Forall is_byte bs -> Forall is_byte (put_dinode off d bs).
Proof.
  intros Hb. unfold put_dinode, put_addrs.
  assert (H0 : Forall is_byte put_scalars) by (unfold put_scalars; auto 10 with kernel).
  fold put_scalars. generalize (seq 0 (Z.to_nat (NDIRECT + 1))). intros l. revert H0. generalize put_scalars.
  induction l as [|k l IH]; intros b0 Hb0; [done|]. cbn [foldl]. apply IH. auto with kernel.
Qed.
End PutDinode.

Lemma put_dinode_block off d bs : is_block bs -> 0 <= off -> off + 64 <= 1024 -> is_block (put_dinode off d bs).
Proof.
  intros [Hl Hb] H1 H2. unfold bsize in Hl. split; [rewrite length_put_dinode; unfold bsize; lia|by apply put_dinode_byte].
Qed.

Lemma ioff_range inum : 0 <= ioff inum /\ ioff inum + 64 <= 1024.
Proof.
  unfold ioff. change IPB with 16. change sizeof_dinode with 64.
  pose proof (Z.mod_pos_bound inum 16 ltac:(lia)). lia.
Qed.

(** Inodes of the same block do not overlap. *)
Lemma ioff_disjoint i j sb : sb_layout sb -> 0 <= i < sb_ninodes sb -> 0 <= j < sb_ninodes sb -> i <> j ->
  IBLOCK i sb = IBLOCK j sb -> ioff i + 64 <= ioff j \/ ioff j + 64 <= ioff i.
Proof.
  intros HL Hi Hj Hne E. destruct (fl_inodes _ HL), (fl_size _ HL), HL as [_ _ HB HD].
  unfold IBLOCK, ioff in *. change IPB with 16 in *. change sizeof_dinode with 64.
  pose proof (Z.div_le_mono i (sb_ninodes sb) 16 ltac:(lia) ltac:(lia)).
  pose proof (Z.div_le_mono j (sb_ninodes sb) 16 ltac:(lia) ltac:(lia)).
  pose proof (Z.div_pos i 16). pose proof (Z.div_pos j 16). unfold data_start in HD.
  pose proof (Z.div_pos (sb_size sb) BPB ltac:(lia) ltac:(done)). rewrite BPB_eq in *.
  rewrite !u32_small in E by lia.
  pose proof (Z.div_mod i 16 ltac:(lia)). pose proof (Z.div_mod j 16 ltac:(lia)).
  pose proof (Z.mod_pos_bound i 16). pose proof (Z.mod_pos_bound j 16). lia.
Qed.

(** Inode blocks are between the log and the bitmap. *)
Lemma iblock_range i sb : sb_layout sb -> 0 <= i < sb_ninodes sb ->
  sb_inodestart sb <= IBLOCK i sb < sb_bmapstart sb.
Proof.
  intros HL Hi. destruct (fl_inodes _ HL), (fl_size _ HL), HL as [_ _ HB HD]. unfold IBLOCK. change IPB with 16 in *.
  pose proof (Z.div_le_mono i (sb_ninodes sb) 16 ltac:(lia) ltac:(lia)).
  pose proof (Z.div_pos i 16). unfold data_start in HD.
  pose proof (Z.div_pos (sb_size sb) BPB ltac:(lia) ltac:(done)). rewrite BPB_eq in *.
  rewrite u32_small by lia. lia.
Qed.

(** ** iupdate and ilock *)

Section Iupdate.
Context {S : Type} `{!TxOps S} `{!TxGhost S} `{!TxLaws S}.
Local Abbreviation fstate := (@fstate S).
Local Abbreviation V f := (view (fstore f)).

Definition inode_block (f : fstate) (ip : nat) : Z := IBLOCK (i_inum (inode_at f ip)) (fsb f).

(** The blocks after the inode has been written back. *)
Definition inode_put (f : fstate) (ip : nat) : Z -> list Z :=
  put (V f) (inode_block f ip)
    (put_dinode (ioff (i_inum (inode_at f ip))) (dinode_of (inode_at f ip)) (V f (inode_block f ip))).

(** A table entry that stands for an inode of the disk. *)
Record inode_ref (f : fstate) (ip : nat) : Prop := {
  ir_ip : (ip < length (itable f))%nat;
  ir_dev : i_dev (inode_at f ip) = sdev (fstore f);
  ir_inum : 0 <= i_inum (inode_at f ip) < sb_ninodes (fsb f);
}.

Lemma fs_ok_iblock (f : fstate) H i : fs_ok f H -> 0 <= i < sb_ninodes (fsb f) ->
  let b := IBLOCK i (fsb f) in 0 <= b < 2 ^ 32 /\ b ∉ H.*2 /\ shome (fstore f) b /\
  ~ is_bmap (fsb f) b /\ ~ is_data (fsb f) b.
Proof.
  intros Hok Hi b. pose proof (fo_layout _ _ Hok) as HL. pose proof (iblock_range i _ HL Hi) as Hb. fold b in Hb.
  pose proof (fl_inodes _ HL). pose proof (fl_size _ HL). pose proof (fl_bmap _ HL) as HB. pose proof (fl_data _ HL) as HD.
  assert (Hds : sb_bmapstart (fsb f) < data_start (fsb f)).
  { unfold data_start. pose proof (Z.div_pos (sb_size (fsb f)) BPB ltac:(lia) ltac:(done)). lia. }
  assert (Hnd : ~ is_data (fsb f) b) by (unfold is_data; lia). rewrite BPB_eq in *.
  split_and!; [lia|lia| | |unfold is_bmap; lia|done].
  - intros Hin. by apply (fo_held _ _ Hok) in Hin as [? _].
  - apply Hok. lia.
Qed.

Lemma iupdate_ok (f : fstate) ip U k : in_tx f -> fs_ok f [] -> budget f U k -> inode_ref f ip ->
  inode_block f ip ∈ U ->
  exists f', iupdate ip f = Ok tt f' /\ stepped f f' [] (inode_put f ip) U k.
Proof.
  intros Htx Hok Hb [Hip Hdev Hin] HU. destruct (fs_ok_iblock f [] _ Hok Hin) as (Hr & Hn & Hh & _ & _).
  destruct (ioff_range (i_inum (inode_at f ip))) as [Ho1 Ho2].
  destruct (run_update f [] U k (inode_block f ip)
    (put_dinode (ioff (i_inum (inode_at f ip))) (dinode_of (inode_at f ip))) Htx (fo_inv _ _ Hok) Hb Hr Hn ltac:(simpl; lia) HU Hh)
    as (i & f0 & f1 & f2 & f' & E1 & E2 & E3 & E4 & Hs).
  { apply put_dinode_block; [by eapply fs_ok_block|done|done]. }
  exists f'. split; [|exact Hs]. unfold iupdate, geti. mrun. unfold id. rewrite Hdev.
  fold (inode_block f ip). mstep E1. mstep E2. mstep E3. exact E4.
Qed.

Lemma fs_ok_same (f f' : fstate) : fs_ok f [] -> ext f f' -> (forall x, V f' x = V f x) ->
  sinv (fstore f') [] -> fs_ok f' [].
Proof.
  intros [? HL Hh Hm _] He Hv Hi. split; rewrite ?(ext_sb _ _ He); try done.
  - intros b Hb. apply (kp_home _ _ (ext_kept _ _ He)). by apply Hh.
  - intros b Hb. unfold used. rewrite Hv. by apply Hm.
  - by intros b ?%not_elem_of_nil.
Qed.

(** [ilock] of an unlocked inode that is referenced: it is read from disk the
    first time. *)
Lemma ilock_ok (f : fstate) ip U k : fs_ok f [] -> budget f U k -> inode_ref f ip ->
  1 <= i_ref (inode_at f ip) -> is_free (i_lock (inode_at f ip)) ->
  let di := dinode_at (ioff (i_inum (inode_at f ip))) (V f (inode_block f ip)) in
  let ip' := set_i_lock (mk_sleeplock 1 (fpid f))
    (if i_valid (inode_at f ip) =? 0 then set_i_valid 1 (load_dinode di (inode_at f ip)) else inode_at f ip) in
  if (i_valid (inode_at f ip) =? 0) && (di_type di =? 0) then ilock ip f = Panic "ilock: no type"
  else exists f', ilock ip f = Ok tt f' /\ fs_ok f' [] /\ budget f' U k /\ ext f f' /\ (forall x, V f' x = V f x) /\
    itable f' = <[ip := ip']> (itable f).
Proof.
  intros Hok Hb [Hip Hdev Hin] Href Hfree di ip'.
  unfold ilock, geti. mrun. rewrite (proj2 (Z.ltb_ge _ 1) Href).
  set (f1 := upd_i ip (set_i_lock (mk_sleeplock 1 (fpid f))) f).
  assert (Hacq : on_ilock ip acquiresleep f = Ok tt f1).
  { unfold on_ilock, zoomM. by rewrite acquiresleep_free. }
  mstep Hacq. mrun. unfold id.
  assert (Hat : inode_at f1 ip = set_i_lock (mk_sleeplock 1 (fpid f)) (inode_at f ip)).
  { unfold f1. by rewrite inode_at_upd, decide_True. }
  assert (Hins : forall g : inode -> inode, alter g ip (itable f) = <[ip := g (inode_at f ip)]> (itable f)).
  { intros g. apply list_eq. intros j. destruct (decide (j = ip)) as [->|Hj].
    - rewrite list_lookup_alter_eq, list_lookup_insert_eq by done. unfold inode_at.
      destruct (lookup_lt_is_Some_2 (itable f) ip Hip) as [i Hi]. by rewrite Hi, (nth_lookup_Some _ _ _ _ Hi).
    - by rewrite list_lookup_alter_ne, list_lookup_insert_ne by done. }
  rewrite Hat. cbn [i_valid set_i_lock i_dev i_inum].
  destruct (Z.eqb_spec (i_valid (inode_at f ip)) 0) as [Ev|Ev]; cbn [andb].
  2: { exists f1. split; [done|]. split; [by apply fs_ok_upd|]. split; [by apply budget_upd|]. split; [apply ext_upd|].
       split; [done|]. unfold f1. cbn [itable upd_i]. apply Hins. }
  mrun. rewrite Hdev. destruct (fs_ok_iblock f [] _ Hok Hin) as (Hr & Hn & Hh & _ & _).
  fold (inode_block f1 ip). replace (IBLOCK _ (fsb f1)) with (inode_block f ip) by done.
  destruct (run_bread f1 [] U k (inode_block f ip) (fo_inv _ _ Hok) (budget_upd _ _ _ _ _ Hb) Hr Hn ltac:(simpl; lia))
    as (bp & f2 & E2 & Hs2 & Hset).
  change (sdev (fstore f1)) with (sdev (fstore f)) in E2. mstep E2.
  mstep (run_data f2 _ bp _ (sp_inv _ _ _ _ _ _ Hs2) (list_elem_of_here _ _)).
  rewrite (sp_view _ _ _ _ _ _ Hs2). change (view (fstore f1)) with (V f). fold di. unfold seti. mrun.
  set (f3 := upd_i ip (load_dinode di) f2).
  destruct (run_brelse f3 [] U k bp (inode_block f ip)) as (f4 & E4 & Hs4);
    [apply Hs2|apply budget_upd, Hs2|exact Hset|]. mstep E4. mrun.
  set (f5 := upd_i ip (set_i_valid 1) f4).
  assert (Ht5 : itable f5 = <[ip := ip']> (itable f)).
  { unfold f5. cbn [itable upd_i]. rewrite (sp_tab _ _ _ _ _ _ Hs4). unfold f3. cbn [itable upd_i].
    rewrite (sp_tab _ _ _ _ _ _ Hs2). unfold f1. cbn [itable upd_i].
    rewrite !list_alter_alter_eq, Hins. reflexivity. }
  assert (Hat5 : inode_at f5 ip = ip').
  { unfold inode_at. rewrite Ht5, nth_lookup, list_lookup_insert_eq by done. done. }
  rewrite Hat5. change (i_type ip') with (di_type di). destruct (di_type di =? 0); [done|].
  assert (Hv4 : forall x, V f4 x = V f x).
  { intros x. rewrite (sp_view _ _ _ _ _ _ Hs4). apply (sp_view _ _ _ _ _ _ Hs2). }
  assert (He : ext f f4).
  { transitivity f1; [apply ext_upd|]. transitivity f2; [apply Hs2|]. transitivity f3; [apply ext_upd|apply Hs4]. }
  exists f5. split; [done|]. split.
  - apply fs_ok_upd. apply (fs_ok_same f f4); [done|done|done|apply Hs4].
  - split; [apply budget_upd, Hs4|]. split; [|by split]. transitivity f4; [done|apply ext_upd].
Qed.
End Iupdate.
