(* ===== verification/FsWrite.v ===== *)
(** * Writing files

    [writei] stores the source bytes into the file, grows it, writes the inode
    back, and leaves every other file alone. *)

From stdpp Require Import base list gmap strings.
From Stdlib Require Import ZArith Lia.
From S2P Require Import Prelude Layout Sleeplock FsFormat Bio Tx Store Fs FsAlloc FsFile FsIO FsInode.
Open Scope Z_scope.

(** ** Evolution of a file's blocks *)

(** The blocks of other files and the metadata are as before; the file takes
    only free blocks. *)
Record evolves (W W' : Z -> list Z) (sb : superblock) (addrs addrs' : list Z) : Prop := {
  ev_ok : file_ok W' sb addrs';
  ev_data : forall x, is_data sb x -> used W sb x = true -> ~ owns W addrs x -> W' x = W x;
  ev_meta : forall x, ~ is_bmap sb x -> ~ is_data sb x -> W' x = W x;
  ev_used : forall x, 0 <= x < sb_size sb -> used W sb x = true -> used W' sb x = true;
  ev_own : forall x, owns W' addrs' x -> owns W addrs x \/ used W sb x = false;
}.

Section Evolve.
Context (sb : superblock) (HL : sb_layout sb).

Lemma evolves_refl W addrs : file_ok W sb addrs -> evolves W W sb addrs addrs.
Proof. intros Hok. split; try done. intros. by left. Qed.

Lemma grows_evolves W W' addrs addrs' : grows W W' sb addrs addrs' -> file_ok W sb addrs ->
  evolves W W' sb addrs addrs'.
Proof.
  intros [H1 H2 H3 H4 H5 H6 H7 H8] Hok. split; try done. intros x Hd Hu Ho. apply H4; [done|done|].
  intros ->. apply Ho. pose proof (data_pos _ HL _ Hd). split; [lia|by left].
Qed.

Lemma evolves_trans W1 W2 W3 a1 a2 a3 : evolves W1 W2 sb a1 a2 -> evolves W2 W3 sb a2 a3 -> evolves W1 W3 sb a1 a3.
Proof.
  intros [A1 A2 A3 A4 A5] [B1 B2 B3 B4 B5].
  assert (Hr : forall x, is_data sb x -> 0 <= x < sb_size sb) by (intros x Hx; pose proof (data_pos _ HL x Hx); lia).
  split; [done|..].
  - intros x Hd Hu Ho. rewrite B2, A2; try done; [apply A4; auto|].
    intros Ho2. apply A5 in Ho2 as [?|Hf]; [done|congruence].
  - intros x Hb Hd. by rewrite B3, A3.
  - intros x Hx Hu. by apply B4, A4.
  - intros x Ho. destruct (fk_own _ _ _ B1 x Ho) as [Hd _]. apply B5 in Ho as [Ho|Hf]; [by apply A5|].
    right. destruct (used W1 sb x) eqn:E; [|done]. rewrite A4 in Hf by auto. done.
Qed.

(** Overwriting a data block of the file. *)
Lemma fblock_put W addrs n a v m : file_ok W sb addrs -> in_file n -> fblock W addrs n = a -> a <> 0 ->
  fblock (put W a v) addrs m = fblock W addrs m.
Proof.
  intros Hok Hn Ha Hz. unfold fblock. destruct (m <? NDIRECT); [done|]. destruct (indirect addrs =? 0); [done|].
  rewrite put_ne; [done|]. intros E. apply (fk_ind _ _ _ Hok n Hn); congruence.
Qed.

Lemma evolves_put W addrs n a v : file_ok W sb addrs -> in_file n -> fblock W addrs n = a -> a <> 0 ->
  evolves W (put W a v) sb addrs addrs.
Proof.
  intros Hok Hn Ha Hz. destruct (owned_block sb W addrs n Hok Hn ltac:(congruence)) as [Hd Hu]. rewrite Ha in Hd, Hu.
  assert (Hfb : forall m, fblock (put W a v) addrs m = fblock W addrs m) by (intros; by eapply fblock_put).
  assert (Hown : forall x, owns (put W a v) addrs x <-> owns W addrs x).
  { intros x. unfold owns. by setoid_rewrite Hfb. }
  assert (Hus : forall x, 0 <= x < sb_size sb -> used (put W a v) sb x = used W sb x).
  { intros x Hx. apply used_put; [done|done|]. intros Hb. by apply (bmap_not_data sb a). }
  split.
  - split; [apply Hok|..].
    + intros x Hx. rewrite Hown in Hx. destruct (fk_own _ _ _ Hok x Hx) as [? ?]. split; [done|].
      rewrite Hus; [done|]. pose proof (data_pos _ HL x). intuition lia.
    + intros m1 m2. rewrite !Hfb. apply Hok.
    + intros m. rewrite Hfb. apply Hok.
  - intros x Hdx Hux Ho. apply put_ne. intros ->. apply Ho. split; [done|right; by exists n].
  - intros x Hb Hdx. apply put_ne. by intros ->.
  - intros x Hx Hux. by rewrite Hus.
  - intros x Hx. left. by apply Hown.
Qed.

Lemma fbyte_put W addrs n a v o : file_ok W sb addrs -> in_file n -> fblock W addrs n = a -> a <> 0 ->
  0 <= o < MAXFILE * BSIZE ->
  fbyte (put W a v) addrs o = if decide (o / BSIZE = n) then nth (Z.to_nat (o mod BSIZE)) v 0 else fbyte W addrs o.
Proof.
  intros Hok Hn Ha Hz Ho. unfold fbyte. rewrite (fblock_put W addrs n a v) by done.
  assert (Hm : in_file (o / BSIZE)) by (split; [apply Z.div_pos; [lia|done]|apply Z.div_lt_upper_bound; [done|lia]]).
  case_decide as E.
  - rewrite E, Ha, (proj2 (Z.eqb_neq a 0) Hz), put_eq. done.
  - destruct (Z.eqb_spec (fblock W addrs (o / BSIZE)) 0) as [|Hnz]; [done|]. rewrite put_ne; [done|].
    intros E'. apply E. apply (fk_inj _ _ _ Hok); congruence.
Qed.
End Evolve.

(** Blocks that are neither bitmap nor data carry no file. *)
Lemma file_put_meta sb W addrs b v : sb_layout sb -> ~ is_bmap sb b -> ~ is_data sb b -> file_ok W sb addrs ->
  file_ok (put W b v) sb addrs /\ (forall o, 0 <= o < MAXFILE * BSIZE -> fbyte (put W b v) addrs o = fbyte W addrs o) /\
  (forall m, in_file m -> fblock (put W b v) addrs m = fblock W addrs m) /\
  (forall x, 0 <= x < sb_size sb -> used (put W b v) sb x = used W sb x).
Proof.
  intros HL Hb Hd Hok.
  assert (Hfb : forall m, fblock (put W b v) addrs m = fblock W addrs m).
  { intros m. unfold fblock. destruct (m <? NDIRECT); [done|].
    destruct (Z.eqb_spec (indirect addrs) 0) as [|Hi]; [done|]. rewrite put_ne; [done|].
    intros E. destruct (owned_ind _ _ _ Hok Hi) as [Hdi _]. congruence. }
  assert (Hus : forall x, 0 <= x < sb_size sb -> used (put W b v) sb x = used W sb x)
    by (intros x Hx; by apply used_put).
  split_and!; [|..|done|done].
  - split; [apply Hok|..].
    + intros x Hx. assert (Ho : owns W addrs x) by (unfold owns in *; by setoid_rewrite Hfb in Hx).
      destruct (fk_own _ _ _ Hok x Ho) as [? ?]. split; [done|]. rewrite Hus; [done|]. pose proof (data_pos _ HL x). intuition lia.
    + intros m1 m2. rewrite !Hfb. apply Hok.
    + intros m. rewrite Hfb. apply Hok.
  - intros o Ho. unfold fbyte. rewrite Hfb.
    destruct (Z.eqb_spec (fblock W addrs (o / BSIZE)) 0) as [|Hz]; [done|]. rewrite put_ne; [done|].
    intros E. assert (Hm : in_file (o / BSIZE)) by (split; [apply Z.div_pos; [lia|done]|apply Z.div_lt_upper_bound; [done|lia]]).
    destruct (owned_block _ _ _ _ Hok Hm Hz) as [Hda _]. congruence.
Qed.

(** ** writei *)

(** Blocks touched by the bytes [off .. off + n). *)
Definition nblk (off n : Z) : Z := if n <=? 0 then 0 else (off + n - 1) / BSIZE - off / BSIZE + 1.

(** One chunk covers exactly one of them. *)
Lemma nblk_step off n m : 0 <= off -> 0 < n -> m = Z.min n (BSIZE - off mod BSIZE) ->
  nblk off n = nblk (off + m) (n - m) + 1.
Proof.
  intros Ho Hn Hm. unfold nblk, BSIZE in *. rewrite (proj2 (Z.leb_gt n 0)) by lia.
  pose proof (Z.mod_pos_bound off 1024 ltac:(lia)). pose proof (Z.div_mod off 1024 ltac:(lia)).
  destruct (Z.leb_spec (n - m) 0).
  - assert (m = n) by lia. subst m. rewrite <- (Z.div_unique (off + n - 1) 1024 (off / 1024) (off mod 1024 + n - 1)); lia.
  - assert (Em : m = 1024 - off mod 1024) by lia.
    replace (off + m + (n - m) - 1) with (off + n - 1) by lia.
    rewrite <- (Z.div_unique (off + m) 1024 (off / 1024 + 1) 0); lia.
Qed.

(** The bytes of the file after the write. *)
Definition overwritten (old : Z -> Z) (off n : Z) (src : Z -> Z) (o : Z) : Z :=
  if decide (off <= o < off + n) then src (o - off) else old o.

Section FsWrite.
Context {S : Type} `{!TxOps S} `{!TxGhost S} `{!TxLaws S}.
Local Abbreviation fstate := (@fstate S).
Local Abbreviation V f := (view (fstore f)).
Context {D : Type} (copyin : Z -> Z -> M D (list Z * Z)) (d : D) (src n0 : Z) (sbyte : Z -> Z).
(** The source: the bytes [sbyte 0 .. sbyte (n0 - 1)] can be read from [src]. *)
Context (Hbyte : forall k, is_byte (sbyte k)).
Context (Hcopy : forall tot m, 0 <= tot -> 0 < m -> tot + m <= n0 ->
  copyin (u64 (src + tot)) m d = Ok (sbyte <$> seqZ tot m, 0) d).

Local Abbreviation addrs_of f ip := (i_addrs (inode_at f ip)).

(** What a complete [writei] has done. *)
Record written (f f' : fstate) (ip : nat) (off n : Z) : Prop := {
  wr_ok : fs_ok f' [];
  wr_ext : ext f f';
  wr_tab : itable f' = alter (fun i => set_i_size (Z.max (i_size i) (off + n)) (set_i_addrs (addrs_of f' ip) i)) ip (itable f);
  wr_file : file_ok (V f') (fsb f) (addrs_of f' ip);
  wr_bytes : forall o, 0 <= o < MAXFILE * BSIZE ->
    fbyte (V f') (addrs_of f' ip) o = overwritten (fbyte (V f) (addrs_of f ip)) off n sbyte o;
  wr_mapped : forall m, in_file m ->
    fblock (V f) (addrs_of f ip) m <> 0 \/ (0 < n /\ off < (m + 1) * BSIZE /\ m * BSIZE < off + n) ->
    fblock (V f') (addrs_of f' ip) m <> 0;
  wr_others : forall x, is_data (fsb f) x -> used (V f) (fsb f) x = true -> ~ owns (V f) (addrs_of f ip) x -> V f' x = V f x;
  wr_used : forall x, 0 <= x < sb_size (fsb f) -> used (V f) (fsb f) x = true -> used (V f') (fsb f) x = true;
  wr_meta : forall x, ~ is_bmap (fsb f) x -> ~ is_data (fsb f) x -> x <> inode_block f ip -> V f' x = V f x;
  wr_inode : V f' (inode_block f ip) =
    put_dinode (ioff (i_inum (inode_at f ip))) (dinode_of (inode_at f' ip)) (V f (inode_block f ip));
}.

(** The state during the loop: [tot] bytes have been stored. *)
Record writing (f f' : fstate) (ip : nat) (off tot : Z) : Prop := {
  wi_evolves : evolves (V f) (V f') (fsb f) (addrs_of f ip) (addrs_of f' ip);
  wi_bytes : forall o, 0 <= o < MAXFILE * BSIZE ->
    fbyte (V f') (addrs_of f' ip) o = overwritten (fbyte (V f) (addrs_of f ip)) off tot sbyte o;
  wi_mapped : forall m, in_file m ->
    fblock (V f) (addrs_of f ip) m <> 0 \/ (0 < tot /\ off < (m + 1) * BSIZE /\ m * BSIZE < off + tot) ->
    fblock (V f') (addrs_of f' ip) m <> 0;
  wi_ext : ext f f';
  wi_tab : itable f' = alter (set_i_addrs (addrs_of f' ip)) ip (itable f);
}.

(** Storing [bytes] at offset [o] of block [q] of the file. *)
Lemma write_chunk (f : fstate) ip U r q o bytes : fcur f ip U (Datatypes.S r) -> in_file q ->
  Forall is_byte bytes -> 0 <= o -> o + Z.of_nat (length bytes) <= BSIZE ->
  exists a f1 bp f2 f3 f4 f' U', bmap ip q f = Ok a f1 /\ St (sbread (sdev (fstore f)) a) f1 = Ok bp f2 /\
    St (supdate bp (splice (Z.to_nat o) bytes)) f2 = Ok tt f3 /\ St (slog_write bp) f3 = Ok tt f4 /\
    St (sbrelse bp) f4 = Ok tt f' /\ fcur f' ip U' r /\ U ⊆ U' /\ ext f f' /\
    itable f' = alter (set_i_addrs (addrs_of f' ip)) ip (itable f) /\
    evolves (V f) (V f') (fsb f) (addrs_of f ip) (addrs_of f' ip) /\
    (forall m, in_file m -> fblock (V f) (addrs_of f ip) m <> 0 \/ m = q -> fblock (V f') (addrs_of f' ip) m <> 0) /\
    forall x, 0 <= x < MAXFILE * BSIZE -> fbyte (V f') (addrs_of f' ip) x =
      if decide (q * BSIZE + o <= x < q * BSIZE + o + Z.of_nat (length bytes))
      then nth (Z.to_nat (x - (q * BSIZE + o))) bytes 0 else fbyte (V f) (addrs_of f ip) x.
Proof.
  intros Hc Hq Hbs Ho Hfit. destruct (bmap_ok f ip U r q Hc Hq) as (a & f1 & U1 & E1 & Hm & HU1).
  destruct Hm as (Hc1 & Hg1 & Hfb & Ha & HaU & He1 & Ht1). pose proof Hc1 as [Htx1 Hok1 Hip1 Hdev1 Hfile1 HU Hb1 Hfr1].
  pose proof (fo_layout _ _ (fc_ok _ _ _ _ Hc)) as HL. pose proof (ext_sb _ _ He1) as Esb.
  destruct (owned_block _ _ _ _ Hfile1 Hq ltac:(congruence)) as [Hda Hua]. rewrite Hfb in Hda, Hua.
  destruct (fs_ok_data f1 [] a Hok1 Hda) as [Hra Hha].
  assert (Hblk : is_block (splice (Z.to_nat o) bytes (V f1 a))).
  { pose proof (fs_ok_block f1 [] a Hok1) as [Hl Hb]. unfold BSIZE, bsize in *.
    split; [rewrite length_splice; unfold bsize; lia|by apply Forall_splice]. }
  destruct (run_update f1 [] U1 _ a (splice (Z.to_nat o) bytes) Htx1 (fo_inv _ _ Hok1) Hb1 Hra (not_elem_of_nil _)
    ltac:(simpl; lia) HaU Hha Hblk) as (bp & f2 & f3 & f4 & f' & E2 & E3 & E4 & E5 & Hs).
  rewrite (kp_dev _ _ (ext_kept _ _ He1)) in E2.
  pose proof (stepped_fun _ _ _ _ _ _ Hs) as HV'. pose proof Hs as [Hi' He' Ht' _ Hb'].
  assert (Eat : inode_at f' ip = inode_at f1 ip) by (unfold inode_at; by rewrite Ht').
  rewrite Esb in Hfile1, Hda.
  assert (Hev : evolves (V f1) (V f') (fsb f) (addrs_of f1 ip) (addrs_of f' ip)).
  { rewrite Eat, HV'. by apply (evolves_put _ HL) with (n := q). }
  exists a, f1, bp, f2, f3, f4, f', U1. split; [done|]. do 4 (split; [done|]). split; [|split; [done|]].
  - split; rewrite ?Eat.
    + by apply (in_tx_ext _ _ He').
    + apply (fs_ok_step f1 f' [] [] _ _ _ Hok1 Hs); [|by left]. rewrite Esb, <- HV'. apply Hev.
    + by rewrite Ht'.
    + by rewrite Hdev1, (kp_dev _ _ (ext_kept _ _ He')).
    + rewrite <- Eat, (ext_sb _ _ He'), Esb. apply Hev.
    + by rewrite (ext_sb _ _ He').
    + done.
    + rewrite HV', (ext_sb _ _ He'), (nfree_ext _ (V f1)); [done|]. intros x Hx. rewrite Esb in Hx |- *.
      apply used_put; [done|done|]. intros Hbm. by apply (bmap_not_data (fsb f) a).
  - split; [by transitivity f1|]. split; [by rewrite Ht', Ht1, Eat|]. split.
    + eapply evolves_trans; [done| |exact Hev]. apply grows_evolves; [done|done|apply Hc].
    + split.
      { intros m Hm Hor. rewrite Eat, HV', (fblock_put (fsb f) _ _ q) by done.
        destruct Hor as [Hnz| ->]; [|by rewrite Hfb]. by rewrite (gr_keep _ _ _ _ _ Hg1). }
      intros x Hx. rewrite Eat, HV'. rewrite (fbyte_put (fsb f) _ _ q a) by done.
      rewrite (grows_bytes (fsb f) (V f) (V f1) (addrs_of f ip)) by (done || apply Hc).
      pose proof (fs_ok_block f1 [] a Hok1) as [Hl _].
      pose proof (Z.div_mod x BSIZE ltac:(done)) as Hdm. pose proof (Z.mod_pos_bound x BSIZE ltac:(done)) as Hmb.
      destruct (decide (x / BSIZE = q)) as [Eq|Nq].
      * rewrite nth_lookup, lookup_splice by (unfold BSIZE, bsize in *; lia).
        destruct (decide (q * BSIZE + o <= x < q * BSIZE + o + Z.of_nat (length bytes))) as [Hin|Hout].
        -- rewrite decide_True by lia. rewrite <- nth_lookup. f_equal. lia.
        -- rewrite decide_False by lia. rewrite <- nth_lookup.
           rewrite <- (grows_bytes (fsb f) (V f) (V f1) (addrs_of f ip) (addrs_of f1 ip)) by (done || apply Hc).
           unfold fbyte. by rewrite Eq, Hfb, (proj2 (Z.eqb_neq a 0) Ha).
      * rewrite decide_False; [done|]. intros Hin. apply Nq. symmetry.
        apply (Z.div_unique x BSIZE q (x - q * BSIZE)); unfold BSIZE in *; lia.
Qed.

Lemma addrs_alter (f f' : fstate) ip a : (ip < length (itable f))%nat ->
  itable f' = alter (set_i_addrs a) ip (itable f) -> inode_at f' ip = set_i_addrs a (inode_at f ip).
Proof.
  intros Hip Ht. unfold inode_at. rewrite Ht, !nth_lookup, list_lookup_alter_eq.
  destruct (lookup_lt_is_Some_2 (itable f) ip Hip) as [i ->]. done.
Qed.

Lemma writing_start (f : fstate) ip U r off : fcur f ip U r -> writing f f ip off 0.
Proof.
  intros Hc. split; [apply evolves_refl, Hc|..|done|symmetry; apply alter_id_addrs].
  - intros o Ho. unfold overwritten. by rewrite decide_False by lia.
  - intros m Hm [Hnz|Hr]; [done|]. lia.
Qed.

Lemma nth_sbyte tot m k : (k < Z.to_nat m)%nat -> nth k (sbyte <$> seqZ tot m) 0 = sbyte (tot + Z.of_nat k).
Proof.
  intros Hk. rewrite nth_lookup, list_lookup_fmap, lookup_seqZ_lt by lia. done.
Qed.

Lemma writing_step (f f1 f' : fstate) ip U r off tot m q o : fcur f ip U r -> writing f f1 ip off tot ->
  0 <= off -> 0 <= tot -> 0 < m -> off + tot = q * BSIZE + o -> 0 <= o -> o + m <= BSIZE ->
  ext f1 f' -> itable f' = alter (set_i_addrs (addrs_of f' ip)) ip (itable f1) ->
  evolves (V f1) (V f') (fsb f1) (addrs_of f1 ip) (addrs_of f' ip) ->
  (forall n, in_file n -> fblock (V f1) (addrs_of f1 ip) n <> 0 \/ n = q -> fblock (V f') (addrs_of f' ip) n <> 0) ->
  (forall x, 0 <= x < MAXFILE * BSIZE -> fbyte (V f') (addrs_of f' ip) x =
      if decide (q * BSIZE + o <= x < q * BSIZE + o + Z.of_nat (length (sbyte <$> seqZ tot m)))
      then nth (Z.to_nat (x - (q * BSIZE + o))) (sbyte <$> seqZ tot m) 0 else fbyte (V f1) (addrs_of f1 ip) x) ->
  writing f f' ip off (tot + m).
Proof.
  intros Hc [Hev Hby Hmp He Ht] Hoff Htot Hm Eo Ho Hfit He1 Ht1 Hev1 Hmp1 Hby1.
  rewrite length_fmap, length_seqZ in Hby1. rewrite (ext_sb _ _ He) in Hev1. split.
  - eapply evolves_trans; [apply Hc|done|done].
  - intros x Hx. rewrite Hby1 by done. unfold overwritten. case_decide as Hin.
    + rewrite decide_True by lia. rewrite nth_sbyte by lia. f_equal. lia.
    + rewrite Hby by done. unfold overwritten. repeat case_decide; (done || lia).
  - intros n Hn Hor. apply Hmp1; [done|]. destruct (decide (n = q)) as [->|Hne]; [by right|left].
    apply Hmp; [done|]. destruct Hor as [?|(H0 & H1 & H2)]; [by left|right]. unfold BSIZE in *. lia.
  - by transitivity f1.
  - rewrite Ht1, Ht, list_alter_alter_eq. by apply list_alter_ext.
Qed.

Lemma writei_loop_ok (f : fstate) ip U0 r0 off n : fcur f ip U0 r0 -> 0 <= off -> 0 <= n <= n0 ->
  off + n <= MAXFILE * BSIZE ->
  forall fuel tot f1 U r, 0 <= tot <= n -> n - tot < Z.of_nat fuel -> writing f f1 ip off tot ->
  fcur f1 ip U r -> nblk (off + tot) (n - tot) <= Z.of_nat r ->
  exists f' U' r', writei_loop copyin ip (u64 (src + tot)) (off + tot) n tot fuel (f1, d) = Ok (n, off + n) (f', d) /\
    writing f f' ip off n /\ fcur f' ip U' r' /\ U ⊆ U'.
Proof.
  intros Hc Hoff Hn Hmax. change (MAXFILE * BSIZE) with 274432 in Hmax.
  induction fuel as [|fuel IH]; intros tot f1 U r Htot Hf Hw Hc1 Hr; [lia|]. cbn [writei_loop].
  destruct (Z.ltb_spec tot n) as [Hlt|Hge].
  2: { assert (tot = n) as -> by lia. exists f1, U, r. split_and!; [done|done|done|set_solver]. }
  set (q := (off + tot) / BSIZE). set (m := Z.min (n - tot) (BSIZE - (off + tot) mod BSIZE)).
  pose proof (Z.mod_pos_bound (off + tot) BSIZE ltac:(done)) as Hmod.
  pose proof (Z.div_mod (off + tot) BSIZE ltac:(done)) as Hdm. fold q in Hdm.
  assert (Hm : 0 < m /\ tot + m <= n /\ (off + tot) mod BSIZE + m <= BSIZE) by lia.
  pose proof (nblk_step (off + tot) (n - tot) m ltac:(lia) ltac:(lia) eq_refl) as Hnb.
  assert (Hq : in_file q).
  { unfold in_file. change MAXFILE with 268. split; [apply Z.div_pos; [lia|done]|]. unfold BSIZE in *. lia. }
  assert (Hpos : 0 <= nblk (off + tot + m) (n - tot - m)).
  { unfold nblk. destruct (Z.leb_spec (n - tot - m) 0); [lia|].
    pose proof (Z.div_le_mono (off + tot + m) (off + tot + m + (n - tot - m) - 1) BSIZE ltac:(done) ltac:(lia)). lia. }
  destruct r as [|r]; [lia|].
  assert (Hlenb : Z.of_nat (length (sbyte <$> seqZ tot m)) = m) by (rewrite length_fmap, length_seqZ; lia).
  destruct (write_chunk f1 ip U r q ((off + tot) mod BSIZE) (sbyte <$> seqZ tot m) Hc1 Hq) as
    (a & g1 & bp & g2 & g3 & g4 & g' & U' & E1 & E2 & E3 & E4 & E5 & Hc' & HU' & He' & Ht' & Hev' & Hmp' & Hby').
  { apply Forall_fmap, Forall_true. intros k. apply Hbyte. }
  { lia. }
  { rewrite Hlenb. lia. }
  mstep (Fst_ok _ f1 d _ _ (eq_refl : geti ip i_dev f1 = Ok _ f1)). rewrite (fc_dev _ _ _ _ Hc1).
  fold q m. mstep (Fst_ok _ f1 d _ _ E1). mstep (Fst_ok _ g1 d _ _ E2).
  mstep (Snd_ok _ g2 d _ _ (Hcopy tot m ltac:(lia) ltac:(lia) ltac:(lia))). cbn beta iota.
  mstep (Fst_ok _ g2 d _ _ E3). cbn [Z.eqb]. mstep (Fst_ok _ g3 d _ _ E4). mstep (Fst_ok _ g4 d _ _ E5).
  rewrite !u32_small by lia. replace (u64 (u64 (src + tot) + m)) with (u64 (src + (tot + m)))
    by (unfold u64; rewrite Z.add_mod_idemp_l by lia; f_equal; lia).
  replace (off + tot + m) with (off + (tot + m)) in * by lia.
  assert (Hw' : writing f g' ip off (tot + m)).
  { apply (writing_step f f1 g' ip U0 r0 off tot m q ((off + tot) mod BSIZE)); (done || lia). }
  destruct (IH (tot + m) g' U' r ltac:(lia) ltac:(lia) Hw' Hc') as (f' & U'' & r' & E & Hwf & Hcf & HUU).
  { replace (n - (tot + m)) with (n - tot - m) by lia. lia. }
  exists f', U'', r'. split_and!; [exact E|done|done|set_solver].
Qed.

(** The end of [writei]: the new size and [iupdate]. *)
Lemma writei_finish (f f1 : fstate) ip U r U1 r1 off n : fcur f ip U r -> inode_ref f ip -> inode_block f ip ∈ U1 ->
  writing f f1 ip off n -> fcur f1 ip U1 r1 -> 0 <= off + n <= MAXFILE * BSIZE ->
  exists f', (do! (if i_size (inode_at f1 ip) <? off + n then seti ip (set_i_size (off + n)) else retM tt) in
      iupdate ip) f1 = Ok tt f' /\ written f f' ip off n /\ budget f' U1 0.
Proof.
  intros Hc [Hip Hdev Hin] HU Hw Hc1 Hsz. pose proof Hw as [Hev Hby Hmp He Ht].
  pose proof (addrs_alter f f1 ip _ Hip Ht) as Hat1.
  set (f2 := upd_i ip (set_i_size (Z.max (i_size (inode_at f1 ip)) (off + n))) f1).
  assert (Hrun : (if i_size (inode_at f1 ip) <? off + n then seti ip (set_i_size (off + n)) else retM tt) f1 = Ok tt f2).
  { unfold f2. destruct (Z.ltb_spec (i_size (inode_at f1 ip)) (off + n)); [by rewrite Z.max_r by lia|].
    rewrite Z.max_l by lia. unfold retM. f_equal. unfold upd_i.
    rewrite (list_alter_ext _ id (itable f1) (itable f1) ip); [by rewrite list_alter_id; destruct f1| |done].
    intros i Hi. unfold inode_at. rewrite (nth_lookup_Some _ _ _ _ Hi). by destruct i. }
  mstep Hrun. pose proof Hc1 as [Htx1 Hok1 Hip1 Hdev1 Hfile1 HUb Hb1 Hfr1].
  assert (Hat2 : inode_at f2 ip = set_i_size (Z.max (i_size (inode_at f ip)) (off + n)) (set_i_addrs (addrs_of f1 ip) (inode_at f ip))).
  { unfold f2. rewrite inode_at_upd, decide_True by done. 
    assert (Es : i_size (inode_at f1 ip) = i_size (inode_at f ip)) by (by rewrite Hat1). rewrite Es. f_equal. exact Hat1. }
  assert (Eib : inode_block f2 ip = inode_block f ip).
  { unfold inode_block. rewrite Hat2. unfold f2. cbn [upd_i fsb]. by rewrite (ext_sb _ _ He). }
  destruct (iupdate_ok f2 ip U1 0) as (f' & E & Hs).
  { exact Htx1. }
  { by apply fs_ok_upd. }
  { apply budget_upd. eapply budget_le; [done|lia]. }
  { split; rewrite ?Hat2; cbn [i_dev i_inum set_i_size set_i_addrs f2 fstore fsb itable upd_i];
      [by rewrite length_alter|by rewrite Hdev, (kp_dev _ _ (ext_kept _ _ He))|by rewrite (ext_sb _ _ He)]. }
  { by rewrite Eib. }
   exists f'. split; [done|]. pose proof (stepped_fun _ _ _ _ _ _ Hs) as HV'. pose proof HV' as HVp. pose proof Hs as [Hi' He' Ht' _ Hb'].
  assert (Hat' : inode_at f' ip = inode_at f2 ip) by (unfold inode_at; by rewrite Ht').
  assert (Ead : addrs_of f' ip = addrs_of f1 ip) by (by rewrite Hat', Hat2).
  destruct (fs_ok_iblock f [] _ (fc_ok _ _ _ _ Hc) Hin) as (_ & _ & _ & Hnb & Hnd). fold (inode_block f ip) in Hnb, Hnd.
  pose proof (fo_layout _ _ (fc_ok _ _ _ _ Hc)) as HL.
  unfold inode_put in HV'. rewrite Eib in HV'.
  change (view (fstore f2)) with (V f1) in HV'.
  assert (Hib1 : V f1 (inode_block f ip) = V f (inode_block f ip)) by (by apply (ev_meta _ _ _ _ _ Hev)).
  destruct (file_put_meta (fsb f) (V f1) (addrs_of f1 ip) (inode_block f ip)
    (put_dinode (ioff (i_inum (inode_at f2 ip))) (dinode_of (inode_at f2 ip)) (V f1 (inode_block f ip))) HL Hnb Hnd (ev_ok _ _ _ _ _ Hev))
    as (Hf1 & Hf2 & Hf3 & Hf4). rewrite <- HV' in Hf1, Hf2, Hf3, Hf4.
  split; [|exact Hb']. split; rewrite ?Ead; try done.
  - apply (fs_ok_step f2 f' [] [] _ _ _ (fs_ok_upd _ _ _ _ Hok1) Hs); [|by left].
    rewrite <- HVp. change (fsb f2) with (fsb f1). rewrite (ext_sb _ _ He). intros x Hx Hu. by rewrite Hf4.
  - transitivity f1; [done|]. transitivity f2; [apply ext_upd|done].
  - rewrite Ht'. unfold f2. cbn [itable upd_i]. rewrite Ht, list_alter_alter_eq. apply list_alter_ext; [|done].
    intros i Hi. cbn [compose]. f_equal. rewrite Hat1. cbn [i_size set_i_addrs]. unfold inode_at.
    by rewrite (nth_lookup_Some _ _ _ _ Hi).
  - intros o Ho. rewrite Hf2 by done. by apply Hby.
  - intros m Hm Hor. rewrite Hf3 by done. by apply Hmp.
  - intros x Hd Hu Ho. rewrite HV', put_ne by (by intros ->). by apply (ev_data _ _ _ _ _ Hev).
  - intros x Hx Hu. rewrite Hf4 by done. by apply (ev_used _ _ _ _ _ Hev).
  - intros x Hb Hd Hne. rewrite HV', put_ne by done. by apply (ev_meta _ _ _ _ _ Hev).
  - rewrite HV', put_eq, Hib1, Hat'. f_equal. by rewrite Hat2.
Qed.

Lemma writei_ok (f : fstate) ip U r off n : fcur f ip U r -> inode_ref f ip -> inode_block f ip ∈ U ->
  nblk off n <= Z.of_nat r -> 0 <= src < 2 ^ 64 -> 0 <= n <= n0 ->
  0 <= off <= i_size (inode_at f ip) -> off + n <= MAXFILE * BSIZE ->
  exists f' U', writei copyin ip src off n (f, d) = Ok n (f', d) /\ written f f' ip off n /\ budget f' U' 0.
Proof.
  intros Hc Hir HU Hr Hsrc Hn Hoff Hmax. unfold writei.
  mstep (Fst_ok _ f d _ _ (eq_refl : geti ip i_size f = Ok _ f)).
  assert (Hmax' : off + n <= 274432) by done. rewrite u32_small by lia.
  rewrite (proj2 (Z.ltb_ge _ off)) by lia. rewrite (proj2 (Z.ltb_ge (off + n) off)) by lia. cbn [orb].
  rewrite (proj2 (Z.ltb_ge (MAXFILE * BSIZE) (off + n))) by done.
  destruct (writei_loop_ok f ip U r off n Hc ltac:(lia) Hn Hmax (Z.to_nat n + 1) 0 f U r) as (f1 & U1 & r1 & E1 & Hw & Hc1 & HU1);
    [lia|lia|by eapply writing_start|done|by rewrite Z.add_0_r, Z.sub_0_r|].
  rewrite !Z.add_0_r, u64_small in E1 by lia. mstep E1. cbn beta iota.
  mstep (Fst_ok _ f1 d _ _ (eq_refl : geti ip i_size f1 = Ok _ f1)).
  destruct (writei_finish f f1 ip U r U1 r1 off n Hc Hir ltac:(by apply HU1) Hw Hc1 ltac:(lia)) as (f' & E2 & Hwr & Hb).
  exists f', U1. split; [|done].
  apply bindM_ok_inv in E2 as ([] & f2 & Ea & Eb).
  assert (Ea' : (if i_size (inode_at f1 ip) <? off + n then Fst (seti ip (set_i_size (off + n))) else retM tt) (f1, d) = Ok tt (f2, d)).
  { destruct (i_size (inode_at f1 ip) <? off + n); [by apply Fst_ok|]. unfold retM in *. by simplify_eq. }
  mstep Ea'. mstep (Fst_ok _ f2 d _ _ Eb). unfold retM. by rewrite s32_small by lia.
Qed.

(** A file whose blocks below its size are all there can be read after a write. *)
Lemma written_readable (f f' : fstate) ip U r off n U' : fcur f ip U r -> written f f' ip off n -> budget f' U' 0 ->
  0 <= off <= i_size (inode_at f ip) -> 0 <= n -> off + n <= MAXFILE * BSIZE -> i_size (inode_at f ip) <= MAXFILE * BSIZE ->
  (forall m, 0 <= m -> m * BSIZE < i_size (inode_at f ip) -> fblock (V f) (addrs_of f ip) m <> 0) ->
  i_size (inode_at f' ip) = Z.max (i_size (inode_at f ip)) (off + n) /\
  rcur f' ip U' 0 (i_size (inode_at f' ip)).
Proof.
  intros Hc Hw Hb Hoff Hn Hmax Hsz Hfull. pose proof (fc_ip _ _ _ _ Hc) as Hip. destruct Hw as [Hok He Ht Hfile _ Hmp _ _ _ _].
  assert (Hat : inode_at f' ip = set_i_size (Z.max (i_size (inode_at f ip)) (off + n)) (set_i_addrs (addrs_of f' ip) (inode_at f ip))).
  { exact (inode_at_alter f f' ip _ Hip Ht). }
  assert (Esz : i_size (inode_at f' ip) = Z.max (i_size (inode_at f ip)) (off + n)) by (by rewrite Hat).
  split; [done|]. split; try done.
  - rewrite Hat. cbn [i_dev set_i_size set_i_addrs]. rewrite (kp_dev _ _ (ext_kept _ _ He)). apply Hc.
  - by rewrite (ext_sb _ _ He).
  - lia.
  - intros m Hm Hlt. rewrite Esz in Hlt. assert (Hin : in_file m) by (unfold in_file, BSIZE in *; lia).
    apply Hmp; [done|]. destruct (Z.lt_ge_cases (m * BSIZE) (i_size (inode_at f ip))); [left; by apply Hfull|].
    right. unfold BSIZE in *. lia.
Qed.
End FsWrite.
