(* ===== verification/FsTrunc.v ===== *)
(** * itrunc

    Freeing the blocks of a file: exactly the blocks it owns become free. *)

From stdpp Require Import base list gmap strings.
From Stdlib Require Import ZArith Lia.
From S2P Require Import Prelude Layout Sleeplock FsFormat Bio Tx Store Fs FsAlloc FsFile FsIO FsInode.
Open Scope Z_scope.

(** The blocks of the file below [n], in order. *)
Definition blks (W : Z -> list Z) (addrs : list Z) (n : Z) : list Z :=
  filter (fun x => x <> 0) (fblock W addrs <$> seqZ 0 n).

Lemma blks_step W addrs n : 0 <= n ->
  blks W addrs (n + 1) = blks W addrs n ++ (if fblock W addrs n =? 0 then [] else [fblock W addrs n]).
Proof.
  intros Hn. unfold blks. rewrite seqZ_app, fmap_app, filter_app by lia. f_equal. rewrite Z.add_0_l, (seqZ_cons n 1) by lia. cbn [fmap list_fmap Z.pred Z.add Z.pos_sub]. rewrite filter_cons.
  destruct (Z.eqb_spec (fblock W addrs n) 0) as [E|E]; case_decide; try done; lia.
Qed.

Lemma elem_of_blks W addrs n x : x ∈ blks W addrs n <-> x <> 0 /\ exists m, 0 <= m < n /\ fblock W addrs m = x.
Proof.
  unfold blks. rewrite list_elem_of_filter, list_elem_of_fmap. setoid_rewrite elem_of_seqZ. split.
  - intros (Hx & m & -> & Hm). split; [done|]. exists m. split; [lia|done].
  - intros (Hx & m & Hm & <-). split; [done|]. exists m. split; [done|lia].
Qed.

Lemma owns_blks W addrs x : owns W addrs x <-> x <> 0 /\ (x = indirect addrs \/ x ∈ blks W addrs MAXFILE).
Proof. unfold owns, in_file. rewrite elem_of_blks. naive_solver. Qed.

Section FsTrunc.
Context {S : Type} `{!TxOps S} `{!TxGhost S} `{!TxLaws S}.
Local Abbreviation fstate := (@fstate S).
Local Abbreviation V f := (view (fstore f)).
Local Abbreviation addrs_of f ip := (i_addrs (inode_at f ip)).

(** Freeing a data block that no held buffer shows. *)
Lemma bfree_used (f : fstate) H U k b : in_tx f -> fs_ok f H -> (length H <= 2)%nat -> bmap_in (fsb f) U -> budget f U k ->
  is_data (fsb f) b -> b ∉ H.*2 -> used (V f) (fsb f) b = true ->
  exists f', bfree (sdev (fstore f)) b f = Ok tt f' /\ fs_ok f' H /\ ext f f' /\ budget f' U k /\ itable f' = itable f /\
    (forall x, ~ is_bmap (fsb f) x -> V f' x = V f x) /\
    (forall x, 0 <= x < sb_size (fsb f) -> used (V f') (fsb f) x = negb (bool_decide (x = b)) && used (V f) (fsb f) x).
Proof.
  intros Htx Hok Hh HU Hb Hd Hn Hused. pose proof (fo_layout _ _ Hok) as HL. pose proof (data_pos _ HL b Hd) as Hr.
  pose proof (bfree_ok f H U k b Htx Hok Hh HU Hb ltac:(lia)) as Hbf. rewrite Hused in Hbf.
  destruct Hbf as (f' & E & Hs). pose proof Hs as [Hi He Ht Hv Hbd]. pose proof (ext_sb _ _ He) as Esb.
  assert (Hu : forall x, 0 <= x < sb_size (fsb f) -> used (V f') (fsb f) x = negb (bool_decide (x = b)) && used (V f) (fsb f) x).
  { intros x Hx. rewrite (used_ext _ _ _ _ Hv). apply used_unmark; try done; [|lia]. eapply fs_ok_block, Hok. }
  exists f'. split; [done|]. split; [|do 3 (split; [done|]); split; [|done]].
  - destruct Hok as [_ _ Hh' Hm Hd']. split; rewrite ?Esb; try done.
    + intros x Hx. apply (kp_home _ _ (ext_kept _ _ He)), Hh'. done.
    + intros x Hx. rewrite Hu by (destruct HL; lia). rewrite Hm, bool_decide_false; [done| |done]. unfold is_data in Hd. lia.
    + intros x Hx. destruct (Hd' x Hx) as [Hdx Hux]. pose proof (data_pos _ HL x Hdx). split; [done|].
      rewrite Hu, Hux, bool_decide_false by (lia || by intros ->). done.
  - intros x Hx. rewrite Hv. unfold unmark. rewrite put_ne; [done|]. intros ->. apply Hx, bblock_bmap; [done|lia].
Qed.

(** The blocks [F] have been freed since [f]. *)
Record freeing (f g : fstate) (H : list (nat * Z)) (U : list Z) (k : nat) (F : list Z) : Prop := {
  fg_ok : fs_ok g H;
  fg_ext : ext f g;
  fg_bud : budget g U k;
  fg_view : forall x, ~ is_bmap (fsb f) x -> V g x = V f x;
  fg_used : forall x, 0 <= x < sb_size (fsb f) -> used (V g) (fsb f) x = used (V f) (fsb f) x && negb (bool_decide (x ∈ F));
}.

Lemma freeing_upd f g H U k F ip h : freeing f g H U k F -> freeing f (upd_i ip h g) H U k F.
Proof.
  intros [Hok He Hb Hv Hu]. split; try done; [by apply fs_ok_upd| |by apply budget_upd].
  transitivity g; [done|apply ext_upd].
Qed.

Lemma free_one (f g : fstate) H U k F b : in_tx f -> bmap_in (fsb f) U -> (length H <= 2)%nat -> freeing f g H U k F ->
  is_data (fsb f) b -> used (V f) (fsb f) b = true -> b ∉ F -> b ∉ H.*2 ->
  exists g', bfree (sdev (fstore f)) b g = Ok tt g' /\ freeing f g' H U k (F ++ [b]) /\ itable g' = itable g /\ ext g g'.
Proof.
  intros Htx HU Hh [Hok He Hb Hv Hu] Hd Hub HF HH. pose proof (ext_sb _ _ He) as Esb.
  pose proof (data_pos _ (fo_layout _ _ Hok) b) as Hr. rewrite Esb in Hr. specialize (Hr Hd).
  destruct (bfree_used g H U k b (in_tx_ext _ _ He Htx) Hok Hh) as (g' & E & Hok' & He' & Hb' & Ht' & Hv' & Hu');
    [by rewrite Esb|done|by rewrite Esb|done|rewrite Esb, Hu, Hub by lia; by rewrite bool_decide_false|].
  rewrite Esb, (kp_dev _ _ (ext_kept _ _ He)) in *. exists g'. split; [done|]. split; [|by split]. split; try done.
  - by transitivity g.
  - intros x Hx. by rewrite Hv', Hv.
  - intros x Hx. rewrite Hu', Hu by done. destruct (decide (x = b)) as [->|Hne].
    + rewrite (bool_decide_true (b = b)), (bool_decide_true (b ∈ F ++ [b])) by (done || set_solver). by rewrite andb_false_r.
    + rewrite (bool_decide_false (x = b)) by done. cbn [negb andb]. do 2 f_equal. apply bool_decide_ext. set_solver.
Qed.

(** What [itrunc] needs: the bitmap and the inode block may be logged. *)
Record tcur (f : fstate) (ip : nat) (U : list Z) (k : nat) : Prop := {
  tc_tx : in_tx f;
  tc_ok : fs_ok f [];
  tc_ref : inode_ref f ip;
  tc_file : file_ok (V f) (fsb f) (addrs_of f ip);
  tc_bmap : bmap_in (fsb f) U;
  tc_in : inode_block f ip ∈ U;
  tc_bud : budget f U k;
}.

Definition cleared (n : Z) (addrs : list Z) : list Z := replicate (Z.to_nat n) 0 ++ drop (Z.to_nat n) addrs.

Lemma nth_cleared n addrs : 0 <= n -> nth (Z.to_nat n) (cleared n addrs) 0 = nth (Z.to_nat n) addrs 0.
Proof.
  intros Hn. unfold cleared. rewrite !nth_lookup, lookup_app_r by (by rewrite length_replicate).
  rewrite length_replicate, Nat.sub_diag, lookup_drop. do 2 f_equal. lia.
Qed.

Lemma cleared_step n addrs : 0 <= n -> (Z.to_nat n < length addrs)%nat ->
  <[Z.to_nat n := 0]> (cleared n addrs) = cleared (n + 1) addrs.
Proof.
  intros Hn Hl. unfold cleared. rewrite insert_app_r_alt by (by rewrite length_replicate). rewrite length_replicate, Nat.sub_diag.
  destruct (lookup_lt_is_Some_2 _ _ Hl) as [x Hx]. rewrite (drop_S _ _ _ Hx). cbn [insert list_insert].
  replace (Z.to_nat (n + 1)) with (Datatypes.S (Z.to_nat n)) by lia. rewrite replicate_S_end, <- app_assoc. done.
Qed.

Lemma cleared_zero n addrs : 0 <= n -> (Z.to_nat n < length addrs)%nat -> nth (Z.to_nat n) addrs 0 = 0 ->
  cleared (n + 1) addrs = cleared n addrs.
Proof.
  intros Hn Hl Hz. rewrite <- cleared_step by done. apply list_insert_id.
  rewrite <- nth_cleared in Hz by done. destruct (nth_lookup_or_length (cleared n addrs) (Z.to_nat n) 0) as [E|E]; [by rewrite E, Hz|].
  unfold cleared in E. rewrite length_app, length_replicate, length_drop in E. lia.
Qed.

Lemma cleared_0 addrs : cleared 0 addrs = addrs.
Proof. done. Qed.

Lemma trunc_direct (f : fstate) ip U k : tcur f ip U k ->
  forall (c : nat) i g, i + Z.of_nat c = NDIRECT -> 0 <= i ->
  freeing f g [] U k (blks (V f) (addrs_of f ip) i) -> itable g = alter (set_i_addrs (cleared i (addrs_of f ip))) ip (itable f) ->
  exists g', for_each (seqZ i (Z.of_nat c)) (fun i =>
      let! a := get_addr ip i in
      if a =? 0 then retM tt
      else
        do! bfree (sdev (fstore f)) a in
        set_addr ip i 0) g = Ok tt g' /\
    freeing f g' [] U k (blks (V f) (addrs_of f ip) NDIRECT) /\
    itable g' = alter (set_i_addrs (cleared NDIRECT (addrs_of f ip))) ip (itable f).
Proof.
  intros [Htx Hok Hrf Hfile HU _ _]. set (addrs := addrs_of f ip) in *. pose proof (fk_len _ _ _ Hfile) as Hlen.
  change (Z.to_nat (NDIRECT + 1)) with 13%nat in Hlen. change NDIRECT with 12 in *.
  induction c as [|c IH]; intros i g Hic Hi Hg Ht.
  { assert (i = 12) as -> by lia. by exists g. }
  rewrite seqZ_cons by lia. cbn [for_each]. replace (Z.pred (Z.of_nat (Datatypes.S c))) with (Z.of_nat c) by lia. change (Z.succ i) with (i + 1).
  unfold get_addr, geti. mrun. rewrite (inode_at_alter f g ip _ (ir_ip _ _ Hrf) Ht). cbn [i_addrs set_i_addrs].
  rewrite nth_cleared by done. rewrite <- (fblock_direct (V f) addrs i) by (change NDIRECT with 12; lia).
  pose proof (blks_step (V f) addrs i Hi) as Hbs. destruct (Z.eqb_spec (fblock (V f) addrs i) 0) as [Hz|Hz].
  - rewrite app_nil_r in Hbs. mrun. apply IH; [lia|lia|by rewrite Hbs|].
    rewrite cleared_zero; [done|lia|lia|]. by rewrite <- (fblock_direct (V f)) by (change NDIRECT with 12; lia).
  - assert (Hin : in_file i) by (unfold in_file; change MAXFILE with 268; lia).
    destruct (owned_block _ _ _ _ Hfile Hin Hz) as [Hd Hu].
    destruct (free_one f g [] U k _ (fblock (V f) addrs i) Htx HU ltac:(simpl; lia) Hg Hd Hu) as (g1 & E1 & Hg1 & Ht1 & He1).
    { rewrite elem_of_blks. intros (_ & m & Hm & Em). assert (m = i); [|lia].
      apply (fk_inj _ _ _ Hfile); [unfold in_file in *; lia|done|by rewrite Em|done]. }
    { apply not_elem_of_nil. }
    mrun. mstep E1. unfold set_addr, seti. mrun.
    apply IH; [lia|lia|rewrite Hbs; by apply freeing_upd|]. cbn [itable upd_i]. rewrite Ht1, Ht, list_alter_alter_eq.
    apply list_alter_ext; [|done]. intros x Hx. unfold compose, set_i_addrs. cbn [i_addrs i_dev i_inum i_ref i_lock i_valid i_type i_major i_minor i_nlink i_size].
    by rewrite cleared_step by lia.
Qed.

Lemma freeing_step (f g g' : fstate) H H' U k F : freeing f g H U k F -> stepped g g' H' (V g) U k ->
  (forall b, b ∈ H'.*2 -> b ∈ H.*2 \/ (is_data (fsb g) b /\ used (V g) (fsb g) b = true)) -> freeing f g' H' U k F.
Proof.
  intros [Hok He Hb Hv Hu] Hs Hheld. pose proof Hs as [Hi He' _ Hv' Hb']. split; try done.
  - by apply (fs_ok_step g g' H H' (V g) U k Hok Hs).
  - by transitivity g.
  - intros x Hx. by rewrite Hv', Hv.
  - intros x Hx. by rewrite (used_ext _ _ _ _ Hv'), Hu.
Qed.

Lemma trunc_indirect (f : fstate) ip U k bp : tcur f ip U k -> indirect (addrs_of f ip) <> 0 ->
  forall (c : nat) j g, j + Z.of_nat c = NINDIRECT -> 0 <= j ->
  freeing f g [(bp, indirect (addrs_of f ip))] U k (blks (V f) (addrs_of f ip) (NDIRECT + j)) ->
  exists g', for_each (seqZ j (Z.of_nat c)) (fun j =>
      let! d := St (sdata bp) in
      if get32 (4 * j) d =? 0 then retM tt else bfree (sdev (fstore f)) (get32 (4 * j) d)) g = Ok tt g' /\
    freeing f g' [(bp, indirect (addrs_of f ip))] U k (blks (V f) (addrs_of f ip) MAXFILE) /\ itable g' = itable g /\ ext g g'.
Proof.
  intros [Htx Hok Hrf Hfile HU _ _] Hind. set (addrs := addrs_of f ip) in *. change NINDIRECT with 256. change NDIRECT with 12.
  induction c as [|c IH]; intros j g Hjc Hj Hg.
  { assert (j = 256) as -> by lia. by exists g. }
  rewrite seqZ_cons by lia. cbn [for_each]. replace (Z.pred (Z.of_nat (Datatypes.S c))) with (Z.of_nat c) by lia. change (Z.succ j) with (j + 1).
  destruct (owned_ind _ _ _ Hfile Hind) as [Hdi Hui]. mrun.
  mstep (run_data g _ bp _ (fo_inv _ _ (fg_ok _ _ _ _ _ _ Hg)) (list_elem_of_here _ _)).
  rewrite (fg_view _ _ _ _ _ _ Hg) by (intros Hb; by apply (bmap_not_data (fsb f) (indirect addrs))).
  assert (Ef : get32 (4 * j) (V f (indirect addrs)) = fblock (V f) addrs (12 + j)).
  { rewrite fblock_indirect by (change NDIRECT with 12; lia). rewrite (proj2 (Z.eqb_neq _ 0) Hind). change NDIRECT with 12. by replace (12 + j - 12) with j by lia. }
  rewrite Ef. pose proof (blks_step (V f) addrs (12 + j) ltac:(lia)) as Hbs. replace (12 + j + 1) with (12 + (j + 1)) in Hbs by lia.
  destruct (Z.eqb_spec (fblock (V f) addrs (12 + j)) 0) as [Hz|Hz].
  - rewrite app_nil_r in Hbs. mrun. apply IH; [lia|lia|by rewrite Hbs].
  - assert (Hin : in_file (12 + j)) by (unfold in_file; change MAXFILE with 268; lia).
    destruct (owned_block _ _ _ _ Hfile Hin Hz) as [Hd Hu].
    destruct (free_one f g [(bp, indirect addrs)] U k _ (fblock (V f) addrs (12 + j)) Htx HU ltac:(simpl; lia) Hg Hd Hu) as (g1 & E1 & Hg1 & Ht1 & He1).
    { rewrite elem_of_blks. intros (_ & m & Hm & Em). assert (m = 12 + j); [|lia].
      apply (fk_inj _ _ _ Hfile); [unfold in_file in *; lia|done|by rewrite Em|done]. }
    { cbn. rewrite list_elem_of_singleton. by apply (fk_ind _ _ _ Hfile). }
    mstep E1. destruct (IH (j + 1) g1 ltac:(lia) ltac:(lia) ltac:(by rewrite Hbs)) as (g' & E' & Hg' & Ht' & He').
    exists g'. split; [done|]. split; [done|]. split; [congruence|]. by transitivity g1.
Qed.

(** The indirect block and its entries, with the block itself. *)
Lemma trunc_ind (f : fstate) ip U k g : tcur f ip U k -> freeing f g [] U k (blks (V f) (addrs_of f ip) NDIRECT) ->
  itable g = alter (set_i_addrs (cleared NDIRECT (addrs_of f ip))) ip (itable f) ->
  exists g' F, (let! ind := get_addr ip NDIRECT in
       if ind =? 0 then retM tt
       else
         let! bp := St (sbread (sdev (fstore f)) ind) in
         do! for_each (seqZ 0 NINDIRECT) (fun j =>
           let! d := St (sdata bp) in
           if get32 (4 * j) d =? 0 then retM tt else bfree (sdev (fstore f)) (get32 (4 * j) d)) in
         do! St (sbrelse bp) in
         do! bfree (sdev (fstore f)) ind in
         set_addr ip NDIRECT 0) g = Ok tt g' /\
    freeing f g' [] U k F /\ (forall x, x ∈ F <-> owns (V f) (addrs_of f ip) x) /\
    itable g' = alter (set_i_addrs (replicate 13 0)) ip (itable f).
Proof.
  intros Htc Hg Ht. pose proof Htc as [Htx Hok Hrf Hfile HU _ _]. set (addrs := addrs_of f ip) in *.
  pose proof (fk_len _ _ _ Hfile) as Hlen. change (Z.to_nat (NDIRECT + 1)) with 13%nat in Hlen.
  assert (Hall : cleared (NDIRECT + 1) addrs = replicate 13 0).
  { unfold cleared. change (Z.to_nat (NDIRECT + 1)) with 13%nat. rewrite drop_ge by lia. apply app_nil_r. }
  unfold get_addr, geti. mrun. rewrite (inode_at_alter f g ip _ (ir_ip _ _ Hrf) Ht). cbn [i_addrs set_i_addrs].
  rewrite nth_cleared by done. fold (indirect addrs). destruct (Z.eqb_spec (indirect addrs) 0) as [Hz|Hz].
  { exists g, (blks (V f) addrs NDIRECT). split; [done|]. split; [done|]. split.
    - intros x. rewrite elem_of_blks. unfold owns. rewrite Hz. split.
      + intros (Hx & m & Hm & Em). split; [done|]. right. exists m. split; [|done]. unfold in_file. change MAXFILE with 268. change NDIRECT with 12 in Hm. lia.
      + intros (Hx & [|(m & Hm & Em)]); [done|]. split; [done|]. exists m. split; [|done]. destruct (Z.lt_ge_cases m NDIRECT); [unfold in_file in Hm; lia|].
        rewrite fblock_indirect in Em by done. rewrite Hz in Em. cbn in Em. by rewrite <- Em in Hx.
    - rewrite Ht, <- Hall, cleared_zero; [done|done|change (Z.to_nat NDIRECT) with 12%nat; lia|done]. }
  destruct (owned_ind _ _ _ Hfile Hz) as [Hdi Hui]. destruct (fs_ok_data f [] _ Hok Hdi) as [Hri _].
  pose proof (fg_ext _ _ _ _ _ _ Hg) as He. pose proof (kp_dev _ _ (ext_kept _ _ He)) as Edev. pose proof (ext_sb _ _ He) as Esb.
  assert (Hnb : ~ is_bmap (fsb f) (indirect addrs)) by (intros Hb; by apply (bmap_not_data (fsb f) (indirect addrs))).
  assert (Hnot : forall n, n <= MAXFILE -> indirect addrs ∉ blks (V f) addrs n).
  { intros n Hn. rewrite elem_of_blks. intros (_ & m & Hm & Em). apply (fk_ind _ _ _ Hfile m); [unfold in_file; lia|by rewrite Em|done]. }
  destruct (run_bread g [] U k _ (fo_inv _ _ (fg_ok _ _ _ _ _ _ Hg)) (fg_bud _ _ _ _ _ _ Hg) Hri (not_elem_of_nil _) ltac:(simpl; lia)) as (bp & g1 & E1 & Hs1 & Hset1).
  rewrite Edev in E1. mstep E1.
  assert (Hg1 : freeing f g1 [(bp, indirect addrs)] U k (blks (V f) addrs (NDIRECT + 0))).
  { rewrite Z.add_0_r. eapply freeing_step; [exact Hg|exact Hs1|]. intros b Hb. right. cbn in Hb. apply list_elem_of_singleton in Hb as ->.
    rewrite Esb. split; [done|]. pose proof (data_pos _ (fo_layout _ _ Hok) _ Hdi).
    rewrite (fg_used _ _ _ _ _ _ Hg), Hui by lia. rewrite bool_decide_false; [done|]. by apply Hnot. }
  destruct (trunc_indirect f ip U k bp Htc Hz (Z.to_nat NINDIRECT) 0 g1 ltac:(done) ltac:(lia) Hg1) as (g2 & E2 & Hg2 & Ht2 & He2).
  change (Z.of_nat (Z.to_nat NINDIRECT)) with NINDIRECT in E2. mstep E2. fold addrs in Hg2.
  assert (Hset2 : settled (fstore g2) (indirect addrs)).
  { apply (settled_ext g1); [done| |done]. by rewrite (fg_view _ _ _ _ _ _ Hg2), (fg_view _ _ _ _ _ _ Hg1). }
  destruct (run_brelse g2 [] U k bp _ (fo_inv _ _ (fg_ok _ _ _ _ _ _ Hg2)) (fg_bud _ _ _ _ _ _ Hg2) Hset2) as (g3 & E3 & Hs3).
  mstep E3. assert (Hg3 : freeing f g3 [] U k (blks (V f) addrs MAXFILE)).
  { eapply freeing_step; [exact Hg2|exact Hs3|]. intros b Hb. by apply not_elem_of_nil in Hb. }
  destruct (free_one f g3 [] U k _ (indirect addrs) Htx HU ltac:(simpl; lia) Hg3 Hdi Hui (Hnot MAXFILE ltac:(lia)) (not_elem_of_nil _))
    as (g4 & E4 & Hg4 & Ht4 & _).
  mstep E4. unfold set_addr, seti. eexists _, _. split; [done|]. split; [by apply freeing_upd|]. split.
  - intros x. rewrite owns_blks, elem_of_app, list_elem_of_singleton. split.
    + intros [Hx| ->]; [|by auto]. split; [|by right]. by apply elem_of_blks in Hx as [? _].
    + intros [_ [->|Hx]]; [by right|by left].
  - cbn [itable upd_i]. rewrite Ht4, (sp_tab _ _ _ _ _ _ Hs3), Ht2, (sp_tab _ _ _ _ _ _ Hs1), Ht, list_alter_alter_eq, <- Hall.
    apply list_alter_ext; [|done]. intros x Hx. unfold compose, set_i_addrs. cbn [i_addrs i_dev i_inum i_ref i_lock i_valid i_type i_major i_minor i_nlink i_size].
    by rewrite cleared_step by (done || (change (Z.to_nat NDIRECT) with 12%nat; lia)).
Qed.

Lemma itrunc_ok (f : fstate) ip U k : tcur f ip U k ->
  exists f', itrunc ip f = Ok tt f' /\
    itable f' = alter (fun i => set_i_size 0 (set_i_addrs (replicate 13 0) i)) ip (itable f) /\
    fs_ok f' [] /\ ext f f' /\ budget f' U k /\
    (forall x, 0 <= x < sb_size (fsb f) ->
      used (V f') (fsb f) x = true <-> used (V f) (fsb f) x = true /\ ~ owns (V f) (addrs_of f ip) x) /\
    (forall x, ~ is_bmap (fsb f) x -> x <> inode_block f ip -> V f' x = V f x) /\
    V f' (inode_block f ip) = put_dinode (ioff (i_inum (inode_at f ip))) (dinode_of (inode_at f' ip)) (V f (inode_block f ip)).
Proof.
  intros Htc. pose proof Htc as [Htx Hok Hrf Hfile HU HinU Hb]. pose proof Hrf as [Hip Hdev Hinum].
  assert (Hg0 : freeing f f [] U k (blks (V f) (addrs_of f ip) 0)) by (split; [done|reflexivity|done|done|intros x Hx; by rewrite andb_true_r]).
  assert (Ht0 : itable f = alter (set_i_addrs (cleared 0 (addrs_of f ip))) ip (itable f)).
  { rewrite cleared_0. transitivity (alter id ip (itable f)); [by rewrite list_alter_id|]. apply list_alter_ext; [|done]. intros i Hi. unfold inode_at. rewrite (nth_lookup_Some _ _ _ _ Hi). by destruct i. }
  destruct (trunc_direct f ip U k Htc (Z.to_nat NDIRECT) 0 f ltac:(done) ltac:(lia) Hg0 Ht0) as (g1 & E1 & Hg1 & Ht1).
  destruct (trunc_ind f ip U k g1 Htc Hg1 Ht1) as (g2 & F & E2 & Hg2 & HF & Ht2).
  unfold itrunc, geti. mrun. rewrite Hdev. change (Z.of_nat (Z.to_nat NDIRECT)) with NDIRECT in E1. mstep E1.
  rewrite <- bind_assoc. mstep E2. unfold seti. mrun. set (g3 := upd_i ip (set_i_size 0) g2).
  assert (Ht3 : itable g3 = alter (fun i => set_i_size 0 (set_i_addrs (replicate 13 0) i)) ip (itable f)).
  { unfold g3. cbn [itable upd_i]. rewrite Ht2, list_alter_alter_eq. by apply list_alter_ext. }
  pose proof (freeing_upd f g2 [] U k F ip (set_i_size 0) Hg2) as Hg3. fold g3 in Hg3. destruct Hg3 as [Hok3 He3 Hb3 Hv3 Hu3].
  pose proof (ext_sb _ _ He3) as Esb. pose proof (inode_at_alter f g3 ip _ Hip Ht3) as Hat.
  assert (Hib : inode_block g3 ip = inode_block f ip) by (unfold inode_block; by rewrite Hat, Esb).
  assert (Hrf3 : inode_ref g3 ip).
  { split; rewrite ?Hat, ?Esb, ?Ht3, ?(kp_dev _ _ (ext_kept _ _ He3)), ?length_alter; done. }
  destruct (iupdate_ok g3 ip U k (in_tx_ext _ _ He3 Htx) Hok3 Hb3 Hrf3 ltac:(by rewrite Hib)) as (f' & E & Hs).
  destruct (fs_ok_iblock f [] _ Hok Hinum) as (_ & _ & _ & Hnb & _). fold (inode_block f ip) in Hnb.
  pose proof Hs as [Hi4 He4 Ht4 Hv4 Hb4]. unfold inode_put in Hv4. rewrite Hib in Hv4.
  assert (Hused : forall x, 0 <= x < sb_size (fsb f) -> used (V f') (fsb f) x = used (V g3) (fsb f) x).
  { intros x Hx. rewrite (used_ext _ _ _ _ Hv4). by apply used_put; [apply Hok| |]. }
  exists f'. split; [done|]. split; [by rewrite Ht4|]. split; [|split; [by transitivity g3|split; [done|split; [|split]]]].
  - apply (fs_ok_step g3 f' [] [] _ U k Hok3 Hs); [|by left]. unfold inode_put. rewrite Esb, Hib. intros x Hx Hx'.
    by rewrite used_put by (done || apply Hok).
  - intros x Hx. rewrite Hused, Hu3 by done. rewrite <- HF, andb_true_iff, negb_true_iff, bool_decide_eq_false. done.
  - intros x Hx Hne. rewrite Hv4, put_ne by done. by apply Hv3.
  - rewrite Hv4, put_eq, Hv3 by done. assert (Hat' : inode_at f' ip = inode_at g3 ip) by (unfold inode_at; by rewrite Ht4).
    by rewrite Hat', Hat.
Qed.

(** Changing the table entry keeps what is known of the disk. *)
Lemma tcur_upd (f : fstate) ip U k g : tcur f ip U k -> (forall i, i_dev (g i) = i_dev i /\ i_inum (g i) = i_inum i) ->
  file_ok (V f) (fsb f) (i_addrs (g (inode_at f ip))) -> tcur (upd_i ip g f) ip U k.
Proof.
  intros [Htx Hok [Hip Hdev Hin] Hfile HU HinU Hb] Hg Hf. destruct (Hg (inode_at f ip)) as [Hg1 Hg2].
  assert (Hat : inode_at (upd_i ip g f) ip = g (inode_at f ip)) by (by rewrite inode_at_upd, decide_True).
  split; try done; rewrite ?Hat; try done; [by apply fs_ok_upd| | |by apply budget_upd].
  - split; rewrite ?Hat, ?Hg1, ?Hg2; try done. cbn [itable upd_i]. by rewrite length_alter.
  - unfold inode_block. by rewrite Hat, Hg2.
Qed.

(** The body of [iput] for the last reference to an unlinked inode. *)
Definition iput_last (ip : nat) : M fstate unit :=
  do! on_ilock ip acquiresleep in
  do! itrunc ip in
  do! seti ip (set_i_type 0) in
  do! iupdate ip in
  do! seti ip (set_i_valid 0) in
  on_ilock ip (fun _ => releasesleep).

Lemma iput_last_ok (f : fstate) ip U k : tcur f ip U k -> is_free (i_lock (inode_at f ip)) ->
  let i' := set_i_lock (mk_sleeplock 0 0) (set_i_valid 0 (set_i_type 0 (set_i_size 0 (set_i_addrs (replicate 13 0) (inode_at f ip))))) in
  exists f' W, iput_last ip f = Ok tt f' /\ fs_ok f' [] /\ ext f f' /\ inode_at f' ip = i' /\ (ip < length (itable f'))%nat /\
    (forall x, 0 <= x < sb_size (fsb f) ->
      used (V f') (fsb f) x = true <-> used (V f) (fsb f) x = true /\ ~ owns (V f) (addrs_of f ip) x) /\
    (forall x, ~ is_bmap (fsb f) x -> x <> inode_block f ip -> V f' x = V f x) /\ is_block W /\
    (forall j, 0 <= j -> j + 64 <= 1024 -> j + 64 <= ioff (i_inum (inode_at f ip)) \/ ioff (i_inum (inode_at f ip)) + 64 <= j ->
      dinode_at j W = dinode_at j (V f (inode_block f ip))) /\
    V f' (inode_block f ip) = put_dinode (ioff (i_inum (inode_at f ip))) (dinode_of i') W.
Proof.
  intros Htc Hfree i'. pose proof Htc as [Htx Hok [Hip Hdev Hin] Hfile HU HinU Hb]. unfold iput_last.
  set (f1 := upd_i ip (set_i_lock (mk_sleeplock 1 (fpid f))) f).
  assert (Hacq : on_ilock ip acquiresleep f = Ok tt f1) by (unfold on_ilock, zoomM; by rewrite acquiresleep_free).
  mstep Hacq. assert (Hat1 : inode_at f1 ip = set_i_lock (mk_sleeplock 1 (fpid f)) (inode_at f ip)) by (unfold f1; by rewrite inode_at_upd, decide_True).
  assert (Hib1 : inode_block f1 ip = inode_block f ip) by (unfold inode_block; by rewrite Hat1).
  destruct (itrunc_ok f1 ip U k (tcur_upd _ _ _ _ (set_i_lock (mk_sleeplock 1 (fpid f))) Htc ltac:(done) Hfile)) as (f2 & E2 & Ht2 & Hok2 & He2 & Hb2 & Hu2 & Hv2 & Hi2).
  mstep E2. unfold seti. mrun. rewrite Hib1, Hat1 in *. change (V f1) with (V f) in *. change (fsb f1) with (fsb f) in *.
  assert (Hip1 : (ip < length (itable f1))%nat) by (unfold f1; cbn [itable upd_i]; by rewrite length_alter).
  pose proof (inode_at_alter f1 f2 ip _ Hip1 Ht2) as Hat2. rewrite Hat1 in Hat2.
  assert (Hip2 : (ip < length (itable f2))%nat) by (by rewrite Ht2, length_alter).
  set (f3 := upd_i ip (set_i_type 0) f2).
  assert (Hat3 : inode_at f3 ip = set_i_type 0 (inode_at f2 ip)) by (unfold f3; by rewrite inode_at_upd, decide_True).
  assert (He : ext f f2) by (transitivity f1; [apply ext_upd|done]). pose proof (ext_sb _ _ He) as Esb.
  assert (Hib3 : inode_block f3 ip = inode_block f ip) by (unfold inode_block; by rewrite Hat3, Hat2, <- Esb).
  assert (Hip3 : (ip < length (itable f3))%nat) by (unfold f3; cbn [itable upd_i]; by rewrite length_alter).
  destruct (iupdate_ok f3 ip U k (in_tx_ext _ _ He Htx) (fs_ok_upd _ _ _ _ Hok2) (budget_upd _ _ _ _ _ Hb2)) as (f4 & E4 & Hs4).
  { split; [done|rewrite Hat3, Hat2; cbn; rewrite Hdev; symmetry; apply (kp_dev _ _ (ext_kept _ _ He))|].
    rewrite Hat3, Hat2. change (fsb f3) with (fsb f2). by rewrite Esb. }
  { by rewrite Hib3. }
  mstep E4. mrun. unfold on_ilock, zoomM, releasesleep.
  pose proof Hs4 as [Hi4 He4 Ht4 Hv4 _]. unfold inode_put in Hv4. rewrite Hib3 in Hv4. change (V f3) with (V f2) in Hv4.
  assert (Hat4 : inode_at f4 ip = inode_at f3 ip) by (unfold inode_at; by rewrite Ht4).
  assert (Hip4 : (ip < length (itable f4))%nat) by (by rewrite Ht4).
  destruct (fs_ok_iblock f [] _ Hok Hin) as (_ & _ & _ & Hnb & _). fold (inode_block f ip) in Hnb.
  eexists _, (V f2 (inode_block f ip)). split; [done|]. split; [|split; [|split; [|split; [|split; [|split; [|split; [|split]]]]]]].
  - apply fs_ok_upd, fs_ok_upd. apply (fs_ok_step f3 f4 [] [] _ U k (fs_ok_upd _ _ _ _ Hok2) Hs4); [|by left].
    change (fsb f3) with (fsb f2). rewrite Esb. unfold inode_put. rewrite Hib3. intros x Hx Hx'. by rewrite used_put by (done || apply Hok).
  - transitivity f2; [done|]. transitivity f3; [apply ext_upd|]. transitivity f4; [done|]. eapply transitivity; apply ext_upd.
  - rewrite inode_at_upd, decide_True by (cbn [itable upd_i]; rewrite ?length_alter; done).
    rewrite inode_at_upd, decide_True by done. by rewrite Hat4, Hat3, Hat2.
  - cbn [itable upd_i]. by rewrite !length_alter.
  - intros x Hx. rewrite <- Hu2 by done. change (V (upd_i ip (set_i_lock (mk_sleeplock 0 0)) (upd_i ip (set_i_valid 0) f4))) with (V f4).
    rewrite (used_ext _ _ _ _ Hv4). by rewrite used_put by (done || apply Hok).
  - intros x Hx Hne. change (V f4 x = V f x). rewrite Hv4, put_ne by done. by apply Hv2.
  - by eapply fs_ok_block.
  - intros j Hj1 Hj2 Hj3. rewrite Hi2. destruct (ioff_range (i_inum (inode_at f ip))) as [Ho1 Ho2].
    assert (Hl : length (V f (inode_block f ip)) = 1024%nat) by (by apply (fs_ok_block f []); done).
    apply dinode_at_other; rewrite ?Hl; cbn [i_inum set_i_lock]; lia.
  - change (V f4 (inode_block f ip) = put_dinode (ioff (i_inum (inode_at f ip))) (dinode_of i') (V f2 (inode_block f ip))).
    rewrite Hv4, put_eq, Hat3, Hat2. done.
Qed.
End FsTrunc.
