(* ===== verification/FsDir.v ===== *)
(** * Directories

    A directory is a file of 16-byte entries.  [dirlookup] finds the first entry
    in use with the name; [dirlink] fills the first unused entry, or appends
    one. *)

From stdpp Require Import base list gmap strings.
From Stdlib Require Import ZArith Lia.
From S2P Require Import Prelude Layout Sleeplock FsFormat Bio Tx Store Fs FsAlloc FsFile FsIO FsInode FsWrite.
Open Scope Z_scope.


(** ** Names *)

(** The name in an array of [n] bytes: up to the first NUL. *)
Fixpoint cname (n : nat) (l : list Z) : list Z :=
  match n with
  | O => []
  | S n => if hd 0 l =? 0 then [] else hd 0 l :: cname n (tl l)
  end.

Lemma strncmp_bytes_eq n p q : strncmp_bytes p q n = 0 <-> cname n p = cname n q.
Proof.
  revert p q; induction n as [|n IH]; intros p q; [done|]. cbn [strncmp_bytes cname].
  destruct (Z.eqb_spec (hd 0 p) 0) as [Hp|Hp]; cbn [negb andb].
  - rewrite Hp. destruct (Z.eqb_spec (hd 0 q) 0); [split; [done|lia]|split; [lia|done]].
  - destruct (Z.eqb_spec (hd 0 p) (hd 0 q)) as [E|E].
    + rewrite IH, <- E. destruct (Z.eqb_spec (hd 0 p) 0); [done|]. split; [by intros ->|by intros [=]].
    + split; [lia|]. destruct (Z.eqb_spec (hd 0 q) 0); [done|by intros [=]].
Qed.

Lemma cname_strncpy n l : cname n (strncpy_bytes l n) = cname n l.
Proof.
  revert l; induction n as [|n IH]; intros l; [done|]. cbn [strncpy_bytes cname].
  destruct (Z.eqb_spec (hd 0 l) 0); [done|]. cbn [hd tl]. destruct (Z.eqb_spec (hd 0 l) 0); [done|]. by rewrite IH.
Qed.

Lemma length_strncpy n l : length (strncpy_bytes l n) = n.
Proof.
  revert l; induction n as [|n IH]; intros l; [done|]. cbn [strncpy_bytes].
  destruct (Z.eqb_spec (hd 0 l) 0); [by rewrite length_replicate|]. cbn [length]. by rewrite IH.
Qed.

Lemma strncpy_byte n l : Forall is_byte l -> Forall is_byte (strncpy_bytes l n).
Proof.
  revert l; induction n as [|n IH]; intros l Hl; [constructor|]. cbn [strncpy_bytes].
  destruct (Z.eqb_spec (hd 0 l) 0); [apply Forall_replicate; unfold is_byte; lia|].
  destruct l as [|x l]; [done|]. inversion Hl; subst. constructor; [done|by apply IH].
Qed.

Lemma nth_byte l k : Forall is_byte l -> is_byte (nth k l 0).
Proof.
  intros Hl. rewrite nth_lookup. destruct (l !! k) as [x|] eqn:E; [|unfold is_byte; simpl; lia].
  by apply (Forall_lookup_1 _ _ _ _ Hl E).
Qed.

(** ** Entries *)

Definition same_name (name : list Z) (de : dirent) : Prop := cname 14 (de_name de) = cname 14 name.
Definition has_name (name : list Z) (de : dirent) : Prop := de_inum de <> 0 /\ same_name name de.
#[export] Instance has_name_dec name de : Decision (has_name name de).
Proof. unfold has_name, same_name. apply _. Defined.

(** Entry [k] of the directory, and all of them. *)
Definition dent (W : Z -> list Z) (addrs : list Z) (k : Z) : dirent := dirent_of_bytes (fbytes W addrs (16 * k) 16).
Definition dents (W : Z -> list Z) (addrs : list Z) (n : Z) : list dirent := dent W addrs <$> seqZ 0 n.

Lemma lookup_dents W addrs n (k : nat) : Z.of_nat k < n -> dents W addrs n !! k = Some (dent W addrs (Z.of_nat k)).
Proof. intros Hk. unfold dents. rewrite list_lookup_fmap, lookup_seqZ_lt by done. done. Qed.
Lemma length_dents W addrs n : length (dents W addrs n) = Z.to_nat n.
Proof. unfold dents. by rewrite length_fmap, length_seqZ. Qed.

Lemma namecmp_has name de : namecmp name (de_name de) = 0 <-> same_name name de.
Proof. unfold namecmp, same_name. rewrite strncmp_bytes_eq. change (Z.to_nat DIRSIZ) with 14%nat. done. Qed.

(** The first index of [P] at or after [k]. *)
Lemma list_find_drop {A} (P : A -> Prop) `{forall x, Decision (P x)} (l : list A) (k : nat) :
  (forall j x, (j < k)%nat -> l !! j = Some x -> ~ P x) ->
  list_find P l = (fun p => (p.1 + k, p.2)%nat) <$> list_find P (drop k l).
Proof.
  intros Hn. rewrite <- (take_drop k l) at 1. rewrite list_find_app_r.
  - destruct (list_find P (drop k l)) as [[j x]|] eqn:E; [|done]. cbn. do 2 f_equal.
    apply list_find_Some in E as (E & _ & _). apply lookup_lt_Some in E. rewrite length_drop in E. rewrite length_take. lia.
  - apply list_find_None, Forall_lookup. intros j x Hj. pose proof (lookup_lt_Some _ _ _ Hj) as Hl. rewrite length_take in Hl.
    rewrite lookup_take_lt in Hj by lia. by apply (Hn j); [lia|].
Qed.

Section FsDir.
Context {S : Type} `{!TxOps S} `{!TxGhost S} `{!TxLaws S}.
Local Abbreviation fstate := (@fstate S).
Local Abbreviation V f := (view (fstore f)).
Local Abbreviation addrs_of f ip := (i_addrs (inode_at f ip)).

(** A directory of [n] entries that may be read. *)
Record dir_ok (f : fstate) (dp : nat) (U : list Z) (k : nat) (n : Z) : Prop := {
  dk_cur : rcur f dp U k (i_size (inode_at f dp));
  dk_type : i_type (inode_at f dp) = T_DIR;
  dk_size : i_size (inode_at f dp) = 16 * n;
}.

Lemma dir_ok_step (f f' : fstate) dp U k n : dir_ok f dp U k n -> stepped f f' [] (V f) U k -> dir_ok f' dp U k n.
Proof.
  intros [Hc Ht Hz] Hs. assert (E : inode_at f' dp = inode_at f dp) by (unfold inode_at; by rewrite (sp_tab _ _ _ _ _ _ Hs)).
  split; rewrite ?E; try done. by eapply rcur_step.
Qed.

Lemma dir_range (f : fstate) dp U k n : dir_ok f dp U k n -> 0 <= n <= 17152.
Proof. intros [Hc _ Hz]. pose proof (rc_len _ _ _ _ _ Hc) as H. rewrite Hz in H. change (MAXFILE * BSIZE) with 274432 in H. lia. Qed.

Lemma with_local_ok {A} v (m : M (fstate * list Z) A) f a f' v' : m (f, v) = Ok a (f', v') -> with_local v m f = Ok (a, v') f'.
Proof. intros H. unfold with_local. by rewrite H. Qed.

(** Reading entry [k]. *)
Lemma read_dent (f : fstate) dp U kb n k : dir_ok f dp U kb n -> 0 <= k < n ->
  exists f', with_local de0 (readi local_copyout dp 0 (16 * k) sizeof_dirent) f =
      Ok (sizeof_dirent, fbytes (V f) (addrs_of f dp) (16 * k) 16) f' /\
    stepped f f' [] (V f) U kb.
Proof.
  intros Hd Hk. pose proof (dir_range _ _ _ _ _ Hd) as Hr. destruct Hd as [Hc _ Hz]. change sizeof_dirent with 16.
  destruct (readi_ok local_copyout (filled 16) 0 16 (fun b1 b2 => local_copyout_filled 16 b1 b2 ltac:(lia)) f dp U kb (16 * k) 16 Hc)
    as (f' & E & Hs); [lia..|]. exists f'. split; [|done].
  rewrite Hz in E. unfold read_len in E. rewrite decide_False, Z.min_l in E by lia.
  rewrite (filled_full 16 (fbytes _ _ _ _)) in E by apply length_fbytes. apply with_local_ok. exact E.
Qed.

(** The entry [dirlookup] finds, at or after [k]. *)
Definition found (f : fstate) dp n name k : option (nat * dirent) :=
  list_find (has_name name) (drop (Z.to_nat k) (dents (V f) (addrs_of f dp) n)).

Lemma found_step (f : fstate) dp n name k : 0 <= k < n ->
  found f dp n name k = if decide (has_name name (dent (V f) (addrs_of f dp) k)) then Some (0%nat, dent (V f) (addrs_of f dp) k)
    else prod_map Datatypes.S id <$> found f dp n name (k + 1).
Proof.
  intros Hk. unfold found. pose proof (lookup_dents (V f) (addrs_of f dp) n (Z.to_nat k) ltac:(lia)) as Hl.
  rewrite Z2Nat.id in Hl by lia. rewrite (drop_S _ _ _ Hl). replace (Z.to_nat (k + 1)) with (Datatypes.S (Z.to_nat k)) by lia.
  cbn [list_find]. by case_decide.
Qed.

Lemma dirlookup_loop_ok (f : fstate) dp U kb n name : dir_ok f dp U kb n ->
  forall fuel k f1, 0 <= k <= n -> n - k < Z.of_nat fuel -> stepped f f1 [] (V f) U kb ->
  match found f dp n name k with
  | None => exists f', dirlookup_loop dp name (16 * k) fuel f1 = Ok None f' /\ stepped f f' [] (V f) U kb
  | Some (j, de) => exists f', stepped f f' [] (V f) U kb /\
      dirlookup_loop dp name (16 * k) fuel f1 =
        (let! ip := iget (i_dev (inode_at f dp)) (de_inum de) in retM (Some (ip, 16 * (k + Z.of_nat j)))) f'
  end.
Proof.
  intros Hd. pose proof (dir_range _ _ _ _ _ Hd) as Hr.
  induction fuel as [|fuel IH]; intros k f1 Hk Hf Hs1; [lia|]. cbn [dirlookup_loop].
  pose proof (dir_ok_step _ _ _ _ _ _ Hd Hs1) as Hd1. unfold geti. mrun. rewrite (dk_size _ _ _ _ _ Hd1).
  assert (Eat : forall g, stepped f g [] (V f) U kb -> inode_at g dp = inode_at f dp)
    by (intros g Hg; unfold inode_at; by rewrite (sp_tab _ _ _ _ _ _ Hg)).
  destruct (Z.ltb_spec (16 * k) (16 * n)) as [Hlt|Hge].
  2: { assert (k = n) as -> by lia. unfold found. rewrite drop_ge by (by rewrite length_dents). exists f1. by split. }
  destruct (read_dent f1 dp U kb n k Hd1 ltac:(lia)) as (f2 & E2 & Hs2). mstep E2. cbn beta iota. rewrite Z.eqb_refl. cbn [negb].
  rewrite (stepped_fun _ _ _ _ _ _ Hs1), (Eat _ Hs1) in *.
  assert (Hs2' : stepped f f2 [] (V f) U kb) by (eapply stepped_trans; [exact Hs1|exact Hs2]).
  change (dirent_of_bytes (fbytes (V f) (addrs_of f dp) (16 * k) 16)) with (dent (V f) (addrs_of f dp) k).
  rewrite found_step by lia. set (de := dent (V f) (addrs_of f dp) k).
  specialize (IH (k + 1) f2 ltac:(lia) ltac:(lia) Hs2').
  replace (u32 (16 * k + sizeof_dirent)) with (16 * (k + 1)) by (change sizeof_dirent with 16; rewrite u32_small; lia).
  assert (Hskip : ~ has_name name de -> match prod_map Datatypes.S (@id dirent) <$> found f dp n name (k + 1) with
    | None => exists f', dirlookup_loop dp name (16 * (k + 1)) fuel f2 = Ok None f' /\ stepped f f' [] (V f) U kb
    | Some (j, de) => exists f', stepped f f' [] (V f) U kb /\ dirlookup_loop dp name (16 * (k + 1)) fuel f2 =
        (let! ip := iget (i_dev (inode_at f dp)) (de_inum de) in retM (Some (ip, 16 * (k + Z.of_nat j)))) f'
    end).
  { intros _. destruct (found f dp n name (k + 1)) as [[j de']|]; [|done]. cbn. destruct IH as (f' & Hs' & E'). exists f'. split; [done|].
    rewrite E'. by replace (k + Z.of_nat (Datatypes.S j)) with (k + 1 + Z.of_nat j) by lia. }
  destruct (Z.eqb_spec (de_inum de) 0) as [H0|H0]; [|destruct (Z.eqb_spec (namecmp name (de_name de)) 0) as [Hc|Hc]].
  - rewrite decide_False by (by intros [? _]). apply Hskip. by intros [? _].
  - rewrite decide_True by (split; [done|by apply namecmp_has]). exists f2. split; [done|]. unfold geti. mrun.
    rewrite (Eat _ Hs2'). by rewrite Z.add_0_r.
  - assert (Hn : ~ has_name name de) by (intros [_ Hx]; by apply Hc, namecmp_has). rewrite decide_False by done. by apply Hskip.
Qed.

Lemma dirlookup_ok (f : fstate) dp U kb n name : dir_ok f dp U kb n ->
  match list_find (has_name name) (dents (V f) (addrs_of f dp) n) with
  | None => exists f', dirlookup dp name f = Ok None f' /\ stepped f f' [] (V f) U kb
  | Some (j, de) => exists f', stepped f f' [] (V f) U kb /\
      dirlookup dp name f = (let! ip := iget (i_dev (inode_at f dp)) (de_inum de) in retM (Some (ip, 16 * Z.of_nat j))) f'
  end.
Proof.
  intros Hd. pose proof (dir_range _ _ _ _ _ Hd) as Hr. pose proof Hd as [Hc Ht Hz].
  assert (Hs0 : stepped f f [] (V f) U kb) by (split; try done; [apply Hc|apply Hc]).
  pose proof (dirlookup_loop_ok f dp U kb n name Hd (Z.to_nat (i_size (inode_at f dp) / sizeof_dirent) + 2) 0 f ltac:(lia)) as H.
  unfold dirlookup, geti. mrun. rewrite Ht, Z.eqb_refl. cbn [negb].
  assert (E : i_size (inode_at f dp) / sizeof_dirent = n) by (rewrite Hz; change sizeof_dirent with 16; rewrite Z.mul_comm; by apply Z.div_mul).
  rewrite E in *. specialize (H ltac:(lia) Hs0). unfold found in H. rewrite drop_0 in H. exact H.
Qed.

(** ** dirlink *)

(** The first unused entry, or the end. *)
Definition slot (ents : list dirent) : nat :=
  match list_find (fun de => de_inum de = 0) ents with Some (k, _) => k | None => length ents end.

Lemma slot_le ents : (slot ents <= length ents)%nat.
Proof.
  unfold slot. destruct (list_find _ _) as [[k de]|] eqn:E; [|done].
  apply list_find_Some in E as (E & _). apply lookup_lt_Some in E. lia.
Qed.

Lemma slot_cons de ents : slot (de :: ents) = if decide (de_inum de = 0) then 0%nat else Datatypes.S (slot ents).
Proof. unfold slot. cbn [list_find]. case_decide; [done|]. by destruct (list_find _ ents) as [[k x]|]. Qed.

Lemma dirlink_loop_ok (f : fstate) dp U kb n : dir_ok f dp U kb n ->
  forall fuel k f1, 0 <= k <= n -> n - k < Z.of_nat fuel -> stepped f f1 [] (V f) U kb ->
  exists f', dirlink_loop dp (16 * k) fuel f1 =
      Ok (16 * (k + Z.of_nat (slot (drop (Z.to_nat k) (dents (V f) (addrs_of f dp) n))))) f' /\ stepped f f' [] (V f) U kb.
Proof.
  intros Hd. pose proof (dir_range _ _ _ _ _ Hd) as Hr.
  induction fuel as [|fuel IH]; intros k f1 Hk Hf Hs1; [lia|]. cbn [dirlink_loop].
  pose proof (dir_ok_step _ _ _ _ _ _ Hd Hs1) as Hd1. unfold geti. mrun. rewrite (dk_size _ _ _ _ _ Hd1).
  destruct (Z.ltb_spec (16 * k) (16 * n)) as [Hlt|Hge].
  2: { assert (k = n) as -> by lia. rewrite drop_ge by (by rewrite length_dents). exists f1. cbn. by rewrite Z.add_0_r. }
  destruct (read_dent f1 dp U kb n k Hd1 ltac:(lia)) as (f2 & E2 & Hs2). mstep E2. cbn beta iota. rewrite Z.eqb_refl. cbn [negb].
  assert (Eat : inode_at f1 dp = inode_at f dp) by (unfold inode_at; by rewrite (sp_tab _ _ _ _ _ _ Hs1)).
  rewrite (stepped_fun _ _ _ _ _ _ Hs1), Eat in *.
  assert (Hs2' : stepped f f2 [] (V f) U kb) by (eapply stepped_trans; [exact Hs1|exact Hs2]).
  change (dirent_of_bytes (fbytes (V f) (addrs_of f dp) (16 * k) 16)) with (dent (V f) (addrs_of f dp) k).
  pose proof (lookup_dents (V f) (addrs_of f dp) n (Z.to_nat k) ltac:(lia)) as Hl. rewrite Z2Nat.id in Hl by lia.
  rewrite (drop_S _ _ _ Hl), slot_cons. destruct (Z.eqb_spec (de_inum (dent (V f) (addrs_of f dp) k)) 0) as [H0|H0].
  - rewrite decide_True by done. exists f2. split; [|done]. by rewrite Z.add_0_r.
  - rewrite decide_False by done. destruct (IH (k + 1) f2 ltac:(lia) ltac:(lia) Hs2') as (f' & E' & Hs').
    exists f'. split; [|done]. change sizeof_dirent with 16. replace (16 * k + 16) with (16 * (k + 1)) by lia. rewrite E'.
    replace (Z.to_nat (k + 1)) with (Datatypes.S (Z.to_nat k)) by lia. f_equal. lia.
Qed.

(** A directory in which one entry may be written. *)
Record dcur (f : fstate) (dp : nat) (U : list Z) (n : Z) : Prop := {
  dc_cur : fcur f dp U 1;
  dc_dir : dir_ok f dp U (1 + pay U (addrs_of f dp)) n;
  dc_ref : inode_ref f dp;
  dc_in : inode_block f dp ∈ U;
}.

Lemma dcur_step (f f' : fstate) dp U n : dcur f dp U n -> stepped f f' [] (V f) U (1 + pay U (addrs_of f dp)) -> dcur f' dp U n.
Proof.
  intros [[Htx Hok Hip Hdev Hfile Hbm Hbud Hfree] Hd Hrf Hin] Hs. pose proof Hs as [Hi He Ht Hv Hb].
  pose proof (stepped_fun _ _ _ _ _ _ Hs) as HV. pose proof (ext_sb _ _ He) as Esb.
  assert (Eat : inode_at f' dp = inode_at f dp) by (unfold inode_at; by rewrite Ht).
  split; [split|..]; rewrite ?Eat, ?HV, ?Esb, ?Ht; try done.
  - by eapply in_tx_ext.
  - by apply (fs_ok_same f).
  - by rewrite (kp_dev _ _ (ext_kept _ _ He)).
  - by eapply dir_ok_step.
  - destruct Hrf. split; rewrite ?Eat, ?Esb, ?Ht, ?(kp_dev _ _ (ext_kept _ _ He)); done.
  - unfold inode_block in *. by rewrite Eat, Esb.
Qed.

(** The entry [dirlink] writes. *)
Definition new_dirent (name : list Z) (inum : Z) : dirent := mk_dirent (u16 inum) (strncpy_bytes name (Z.to_nat DIRSIZ)).

Definition ent_byte (de : dirent) (k : Z) : Z := nth (Z.to_nat k) (bytes_of_dirent de) 0.

Lemma length_new_dirent name inum : length (bytes_of_dirent (new_dirent name inum)) = 16%nat.
Proof. unfold bytes_of_dirent, new_dirent. cbn [de_inum de_name]. by rewrite length_app, length_le_bytes, length_strncpy. Qed.

Lemma ent_bytes name inum : ent_byte (new_dirent name inum) <$> seqZ 0 16 = bytes_of_dirent (new_dirent name inum).
Proof.
  apply list_eq. intros k. rewrite list_lookup_fmap. destruct (decide (k < 16)%nat) as [Hk|Hk].
  - rewrite lookup_seqZ_lt by lia. cbn [fmap option_fmap option_map]. unfold ent_byte. rewrite Z.add_0_l, Nat2Z.id.
    destruct (nth_lookup_or_length (bytes_of_dirent (new_dirent name inum)) k 0) as [E|E]; [done|]. rewrite length_new_dirent in E. lia.
  - rewrite lookup_seqZ_ge by lia. symmetry. apply lookup_ge_None_2. rewrite length_new_dirent. lia.
Qed.

Lemma new_dirent_bytes name inum : dirent_of_bytes (bytes_of_dirent (new_dirent name inum)) = new_dirent name inum.
Proof.
  unfold dirent_of_bytes, bytes_of_dirent, new_dirent. cbn [de_inum de_name]. f_equal.
  - unfold get_at, slice. rewrite drop_0. rewrite take_app_le by (by rewrite length_le_bytes). rewrite take_ge by (by rewrite length_le_bytes).
    rewrite le_val_bytes. unfold u16. change (256 ^ Z.of_nat 2) with (2 ^ 16). by rewrite Z.mod_mod.
  - rewrite drop_app_le, drop_ge by (by rewrite length_le_bytes). apply take_ge. cbn [app]. by rewrite length_strncpy.
Qed.

Lemma ent_copyin name inum tot m : 0 <= tot -> 0 < m -> tot + m <= 16 ->
  local_copyin (u64 (0 + tot)) m (bytes_of_dirent (new_dirent name inum)) =
    Ok (ent_byte (new_dirent name inum) <$> seqZ tot m, 0) (bytes_of_dirent (new_dirent name inum)).
Proof.
  intros Ht Hm Hl. unfold local_copyin. rewrite Z.add_0_l, u64_small by lia. do 2 f_equal. apply list_eq. intros k.
  destruct (decide (k < Z.to_nat m)%nat) as [Hk|Hk].
  - rewrite lookup_slice by done. rewrite list_lookup_fmap, lookup_seqZ_lt by lia. cbn. unfold ent_byte.
    replace (Z.to_nat (tot + Z.of_nat k)) with (Z.to_nat tot + k)%nat by lia.
    destruct (nth_lookup_or_length (bytes_of_dirent (new_dirent name inum)) (Z.to_nat tot + k) 0) as [E|E]; [done|].
    rewrite length_new_dirent in E. lia.
  - rewrite list_lookup_fmap, lookup_seqZ_ge by lia. apply lookup_ge_None_2. rewrite length_slice; [lia|rewrite length_new_dirent; lia].
Qed.

Lemma ent_byte_ok name inum k : Forall is_byte name -> is_byte (ent_byte (new_dirent name inum) k).
Proof.
  intros Hn. unfold ent_byte. apply nth_byte. unfold bytes_of_dirent. apply Forall_app. split.
  - apply le_bytes_byte.
  - by apply strncpy_byte.
Qed.

Lemma bindM_eq {X A B} (m m' : M X A) (k : A -> M X B) s s' : m s = m' s' -> bindM m k s = bindM m' k s'.
Proof. unfold bindM. by intros ->. Qed.

Lemma written_from sbyte (f f1 f' : fstate) ip U k off n : stepped f f1 [] (V f) U k ->
  written sbyte f1 f' ip off n -> written sbyte f f' ip off n.
Proof.
  intros Hs [? He Ht ? Hby Hmp Ho Hu Hm Hin]. pose proof Hs as [_ He1 Ht1 _ _].
  pose proof (stepped_fun _ _ _ _ _ _ Hs) as HV. pose proof (ext_sb _ _ He1) as Esb.
  assert (Eat : inode_at f1 ip = inode_at f ip) by (unfold inode_at; by rewrite Ht1).
  unfold inode_block in *. rewrite ?Eat, ?HV, ?Esb, ?Ht1 in *. split; try done. by transitivity f1.
Qed.

(** The entries after a write of entry [k]. *)
Lemma dent_written (f f' : fstate) dp name inum k j :
  written (ent_byte (new_dirent name inum)) f f' dp (16 * k) 16 -> 0 <= k < 17152 -> 0 <= j < 17152 ->
  dent (V f') (addrs_of f' dp) j = if decide (j = k) then new_dirent name inum else dent (V f) (addrs_of f dp) j.
Proof.
  intros Hw Hk Hj. unfold dent.
  assert (E : fbytes (V f') (addrs_of f' dp) (16 * j) 16 =
    if decide (j = k) then bytes_of_dirent (new_dirent name inum) else fbytes (V f) (addrs_of f dp) (16 * j) 16).
  { rewrite <- ent_bytes. unfold fbytes. apply list_eq. intros i. destruct (decide (j = k)) as [->|Hne]; rewrite !list_lookup_fmap;
      (destruct (decide (i < 16)%nat); [rewrite !lookup_seqZ_lt by lia; cbn [fmap option_fmap option_map]|by rewrite !lookup_seqZ_ge by lia]);
      rewrite (wr_bytes _ _ _ _ _ _ Hw) by (change (MAXFILE * BSIZE) with 274432; lia); unfold overwritten.
    - rewrite decide_True by lia. do 2 f_equal. lia.
    - by rewrite decide_False by lia. }
  rewrite E. case_decide; [apply new_dirent_bytes|done].
Qed.

Lemma dents_written (f f' : fstate) dp name inum n k :
  written (ent_byte (new_dirent name inum)) f f' dp (16 * k) 16 -> 0 <= k < 17152 -> 0 <= n <= 17152 -> k <= n ->
  dents (V f') (addrs_of f' dp) (Z.max n (k + 1)) =
    splice (Z.to_nat k) [new_dirent name inum] (dents (V f) (addrs_of f dp) n).
Proof.
  intros Hw Hk Hn Hkn. apply list_eq. intros i. unfold splice. cbn [length].
  destruct (decide (i < Z.to_nat (Z.max n (k + 1)))%nat) as [Hi|Hi].
  - rewrite lookup_dents by lia. rewrite (dent_written f f' dp name inum k) by (done || lia).
    destruct (decide (Z.of_nat i = k)) as [E|E]; [|destruct (decide (Z.of_nat i < k))].
    + rewrite lookup_app_r by (rewrite length_take, length_dents; lia).
      rewrite length_take, length_dents. by replace (i - Z.to_nat k `min` Z.to_nat n)%nat with 0%nat by lia.
    + rewrite lookup_app_l by (rewrite length_take, length_dents; lia). rewrite lookup_take_lt, lookup_dents by lia. done.
    + rewrite lookup_app_r by (rewrite length_take, length_dents; lia). rewrite length_take, length_dents.
      rewrite lookup_app_r by (cbn [length]; lia). rewrite lookup_drop. cbn [length].
      rewrite lookup_dents by lia. do 2 f_equal. lia.
  - rewrite !lookup_ge_None_2; [done| |rewrite length_dents; lia].
    rewrite !length_app, length_take, length_drop, length_dents. cbn [length]. lia.
Qed.

(** A [writei] of an entry at its slot. *)
Lemma write_dent (f : fstate) dp U n name inum k : dcur f dp U n -> Forall is_byte name -> 0 <= k <= n -> k < 17152 ->
  exists f' U', with_local (bytes_of_dirent (new_dirent name inum)) (writei local_copyin dp 0 (u32 (16 * k)) sizeof_dirent) f =
      Ok (16, bytes_of_dirent (new_dirent name inum)) f' /\
    written (ent_byte (new_dirent name inum)) f f' dp (16 * k) 16 /\ dir_ok f' dp U' 0 (Z.max n (k + 1)).
Proof.
  intros [Hc Hd Hrf Hin] Hn Hk Hmax. pose proof (dir_range _ _ _ _ _ Hd) as Hr. pose proof Hd as [Hrc Ht Hz].
  rewrite u32_small by lia. change sizeof_dirent with 16.
  assert (Hnb : nblk (16 * k) 16 <= Z.of_nat 1).
  { unfold nblk, BSIZE. cbn [Z.leb Z.compare]. pose proof (Z.div_mod (16 * k) 1024 ltac:(lia)).
    assert (Hm : (16 * k) mod 1024 = 16 * (k mod 64)) by (change 1024 with (16 * 64); apply Z.mul_mod_distr_l; lia).
    pose proof (Z.mod_pos_bound k 64 ltac:(lia)).
    rewrite <- (Z.div_unique (16 * k + 16 - 1) 1024 (16 * k / 1024) (16 * (k mod 64) + 15)); lia. }
  destruct (writei_ok local_copyin (bytes_of_dirent (new_dirent name inum)) 0 16 (ent_byte (new_dirent name inum))
    (fun k => ent_byte_ok name inum k Hn) (ent_copyin name inum) f dp U 1 (16 * k) 16 Hc Hrf Hin Hnb)
    as (f' & U' & E & Hw & Hb); [lia|lia|lia|change (MAXFILE * BSIZE) with 274432; lia|].
  exists f', U'. split; [by apply with_local_ok|]. split; [done|].
  destruct (written_readable (ent_byte (new_dirent name inum)) f f' dp U 1 (16 * k) 16 U' Hc Hw Hb) as [Hsz Hrc'];
    [lia|lia|change (MAXFILE * BSIZE) with 274432; lia|apply Hrc|apply Hrc|]. split; [done| |lia].
  pose proof (inode_at_alter f f' dp _ (fc_ip _ _ _ _ Hc) (wr_tab _ _ _ _ _ _ Hw)) as Hat. rewrite Hat. done.
Qed.

Lemma slot_dents (f : fstate) dp U k n : dir_ok f dp U k n ->
  0 <= Z.of_nat (slot (dents (V f) (addrs_of f dp) n)) <= n.
Proof.
  intros Hd. pose proof (dir_range _ _ _ _ _ Hd). pose proof (slot_le (dents (V f) (addrs_of f dp) n)) as Hl.
  rewrite length_dents in Hl. lia.
Qed.

Lemma dirlink_ok (f : fstate) dp U n name inum : dcur f dp U n -> Forall is_byte name ->
  let ents := dents (V f) (addrs_of f dp) n in
  let k := slot ents in
  match list_find (has_name name) ents with
  | Some (j, de) => exists f1, stepped f f1 [] (V f) U (1 + pay U (addrs_of f dp)) /\
      dirlink dp name inum f = (let! ip := iget (i_dev (inode_at f dp)) (de_inum de) in do! iput ip in retM (-1)) f1
  | None =>
      if decide (Z.of_nat k = 17152) then dirlink dp name inum f = Panic "dirlink"
      else exists f' U', dirlink dp name inum f = Ok 0 f' /\
        written (ent_byte (new_dirent name inum)) f f' dp (16 * Z.of_nat k) 16 /\
        dir_ok f' dp U' 0 (Z.max n (Z.of_nat k + 1)) /\
        dents (V f') (addrs_of f' dp) (Z.max n (Z.of_nat k + 1)) = splice k [new_dirent name inum] ents
  end.
Proof.
  intros Hdc Hn ents k. pose proof (dc_dir _ _ _ _ Hdc) as Hd. pose proof (dir_range _ _ _ _ _ Hd) as Hr.
  pose proof (slot_dents _ _ _ _ _ Hd) as Hk. fold ents in Hk. fold k in Hk.
  pose proof (dirlookup_ok f dp U _ n name Hd) as Hlk. fold ents in Hlk. unfold dirlink.
  destruct (list_find (has_name name) ents) as [[j de]|].
  { destruct Hlk as (f1 & Hs1 & E1). exists f1. split; [done|]. rewrite (bindM_eq _ _ _ _ _ E1). by rewrite bind_assoc. }
  destruct Hlk as (f1 & E1 & Hs1). mstep E1. pose proof (dir_ok_step _ _ _ _ _ _ Hd Hs1) as Hd1. unfold geti. mrun.
  rewrite (dk_size _ _ _ _ _ Hd1).
  destruct (dirlink_loop_ok f dp U _ n Hd (Z.to_nat (16 * n / sizeof_dirent) + 2) 0 f1 ltac:(lia)) as (f2 & E2 & Hs2);
    [change sizeof_dirent with 16; rewrite Z.mul_comm, Z.div_mul; lia|done|].
  rewrite drop_0 in E2. fold ents in E2. fold k in E2. rewrite Z.add_0_l in E2. mstep E2.
  pose proof (dcur_step _ _ _ _ _ Hdc Hs2) as Hdc2. fold (new_dirent name inum). case_decide as Hfull.
  - assert (Ef : with_local (bytes_of_dirent (new_dirent name inum)) (writei local_copyin dp 0 (u32 (16 * Z.of_nat k)) sizeof_dirent) f2 =
      Ok (-1, bytes_of_dirent (new_dirent name inum)) f2).
    { apply with_local_ok. unfold writei. mstep (Fst_ok _ f2 (bytes_of_dirent (new_dirent name inum)) _ _ (eq_refl : geti dp i_size f2 = Ok _ f2)).
      rewrite Hfull. pose proof (dk_size _ _ _ _ _ (dc_dir _ _ _ _ Hdc2)) as Hz2. rewrite Hz2.
      change (u32 (16 * 17152)) with 274432. by rewrite (proj2 (Z.ltb_ge (16 * n) 274432)) by lia. }
    by mstep Ef.
  - destruct (write_dent f2 dp U n name inum (Z.of_nat k) Hdc2 Hn Hk ltac:(lia)) as (f' & U' & E' & Hw & Hd').
    mstep E'. exists f', U'. split; [done|].
    assert (Hw' : written (ent_byte (new_dirent name inum)) f f' dp (16 * Z.of_nat k) 16) by (by eapply written_from).
    split; [done|]. split; [done|]. rewrite <- (Nat2Z.id k) at 2. apply dents_written; (done || lia).
Qed.
End FsDir.

(** ** Paths

    [namex] walks the elements of a path.  The reference splits the path at its
    slashes first and recurses over the list of non-empty elements. *)


(** The pieces between slashes, and those that are elements. *)
Fixpoint split_slash (path : list Z) : list (list Z) :=
  match path with
  | [] => [[]]
  | c :: rest =>
      if c =? SLASH then [] :: split_slash rest
      else match split_slash rest with
           | [] => [[c]]
           | h :: t => (c :: h) :: t
           end
  end.
Definition elements (path : list Z) : list (list Z) := filter (fun e => e <> []) (split_slash path).

(** The array [name] after an element has been copied into it. *)
Definition name_buf (name e : list Z) : list Z :=
  if DIRSIZ <=? Z.of_nat (length e) then splice 0 (take (Z.to_nat DIRSIZ) e) name else splice 0 (e ++ [0]) name.

Lemma split_slash_nonempty path : split_slash path <> [].
Proof. destruct path as [|c rest]; [done|]. cbn. destruct (c =? SLASH); [done|]. by destruct (split_slash rest). Qed.

Lemma elements_slash rest : elements (SLASH :: rest) = elements rest.
Proof. done. Qed.

Lemma elements_skip path : elements (skip_slashes path) = elements path.
Proof.
  induction path as [|c rest IH]; [done|]. cbn [skip_slashes]. destruct (Z.eqb_spec c SLASH) as [->|]; [|done].
  by rewrite elements_slash.
Qed.

Lemma split_take path s rest : take_elem path = (s, rest) ->
  split_slash path = s :: match rest with [] => [] | _ :: r => split_slash r end /\
  match rest with [] => True | c :: _ => c = SLASH end /\ (length rest + length s = length path)%nat.
Proof.
  revert s rest; induction path as [|c path IH]; intros s rest E; cbn in *; [by simplify_eq|].
  destruct (Z.eqb_spec c SLASH) as [->|Hc]; [by simplify_eq|].
  destruct (take_elem path) as [e r] eqn:Ee. simplify_eq. destruct (IH _ _ eq_refl) as (-> & Hr & Hl).
  split; [done|]. split; [done|]. cbn. lia.
Qed.

Lemma skip_head path : match skip_slashes path with [] => True | c :: _ => c <> SLASH end.
Proof. induction path as [|c rest IH]; [done|]. cbn. by destruct (Z.eqb_spec c SLASH). Qed.

Lemma length_skip path : (length (skip_slashes path) <= length path)%nat.
Proof. induction path as [|c rest IH]; [done|]. cbn. destruct (c =? SLASH); cbn in *; lia. Qed.

(** What [skipelem] does to the list of elements. *)
Lemma skipelem_elements path name :
  match skipelem path name with
  | None => elements path = []
  | Some (rest, name') => exists e, elements path = e :: elements rest /\ name' = name_buf name e /\
      (length rest < length path)%nat /\ (rest = [] <-> elements rest = [])
  end.
Proof.
  unfold skipelem. pose proof (skip_head path) as Hh. pose proof (length_skip path) as Hls. rewrite <- (elements_skip path).
  destruct (skip_slashes path) as [|c p] eqn:Ep; [done|]. destruct (take_elem (c :: p)) as [s rest] eqn:Et.
  destruct (split_take _ _ _ Et) as (Hs & Hr & Hl).
  assert (Hne : s <> []) by (cbn in Et; destruct (Z.eqb_spec c SLASH); [done|]; destruct (take_elem p); by simplify_eq).
  assert (He : elements (c :: p) = s :: elements rest).
  { unfold elements at 1. rewrite Hs. rewrite filter_cons_True by done. f_equal.
    destruct rest as [|x r]; [done|]. by rewrite Hr, elements_slash. }
  exists s. rewrite elements_skip. split; [done|]. split; [done|].
  pose proof (length_skip rest). destruct s; [done|]. cbn [length] in *. split; [lia|].
  split; [intros E; by rewrite <- elements_skip, E|]. intros E. rewrite <- elements_skip in E.
  pose proof (skip_head rest) as Hh'. destruct (skip_slashes rest) as [|x r] eqn:Er; [done|].
  destruct (take_elem (x :: r)) as [s' r'] eqn:Et'. destruct (split_take _ _ _ Et') as (Hs' & _ & _).
  unfold elements in E. rewrite Hs' in E. cbn in Et'. destruct (Z.eqb_spec x SLASH); [done|]. destruct (take_elem r). simplify_eq.
Qed.

Section FsPath.
Context {S : Type} `{!TxOps S}.

(** Resolving a list of elements from inode [ip]. *)
Fixpoint resolve (elems : list (list Z)) (parent : bool) (name : list Z) (ip : nat) : M fstate (option nat * list Z) :=
  match elems with
  | [] =>
      if parent then
        do! iput ip in
        retM (None, name)
      else retM (Some ip, name)
  | e :: elems =>
      let name := name_buf name e in
      do! ilock ip in
      let! t := geti ip i_type in
      if negb (t =? T_DIR) then
        do! iunlockput ip in
        retM (None, name)
      else if parent && bool_decide (elems = []) then
        do! iunlock ip in
        retM (Some ip, name)
      else
        let! next := dirlookup ip name in
        do! iunlockput ip in
        match next with
        | None => retM (None, name)
        | Some (next, _) => resolve elems parent name next
        end
  end.

Lemma bindM_ext {X A B} (m : M X A) (k k' : A -> M X B) s : (forall a s, k a s = k' a s) -> bindM m k s = bindM m k' s.
Proof. intros H. unfold bindM. by destruct (m s). Qed.

Lemma namex_loop_resolve parent fuel : forall path name ip (f : fstate), (length path < fuel)%nat ->
  namex_loop path parent name ip fuel f = resolve (elements path) parent name ip f.
Proof.
  induction fuel as [|fuel IH]; intros path name ip f Hl; [lia|]. cbn [namex_loop].
  pose proof (skipelem_elements path name) as Hse. destruct (skipelem path name) as [[rest name']|]; [|by rewrite Hse].
  destruct Hse as (e & He & Hn & Hlr & Hnil). rewrite He. cbn [resolve]. rewrite <- Hn.
  apply bindM_ext. intros _ f1. apply bindM_ext. intros t f2. destruct (negb (t =? T_DIR)); [done|].
  rewrite (bool_decide_ext (rest = []) (elements rest = [])) by done.
  destruct (parent && bool_decide (elements rest = [])); [done|].
  apply bindM_ext. intros [[next off]|] f3; [|done]. apply bindM_ext. intros _ f4. apply IH. lia.
Qed.
End FsPath.

Lemma length_name_buf name e : length name = Z.to_nat DIRSIZ -> length (name_buf name e) = Z.to_nat DIRSIZ.
Proof.
  intros Hn. unfold name_buf. destruct (Z.leb_spec DIRSIZ (Z.of_nat (length e))) as [Hl|Hl]; change DIRSIZ with 14 in *;
    rewrite length_splice; rewrite ?length_take, ?length_app; cbn [length]; lia.
Qed.
