(* ===== verification/LogStore.v ===== *)
(** * The log is a store for the file system

    The calls of kernel/fs.c on the buffer cache and the log satisfy the laws
    the file system relies on. *)

From stdpp Require Import base list gmap strings.
From Stdlib Require Import ZArith Lia.
From S2P Require Import Prelude Layout Sleeplock FsFormat Bio BioSpec Tx Store Fs Log LogSpec LogSim.
Open Scope Z_scope.

#[export] Instance log_ops : TxOps lstate := {
  sbread d b := B (bread d b);
  sdata i := B (getf i data);
  supdate i f := B (setf i (fun b => set_data (f (data b)) b));
  slog_write := log_write;
  sbrelse i := B (brelse i);
}.

(** Outside a transaction nothing may be logged. *)
#[export] Instance log_op_ops : OpOps lstate := { sbegin_op := Log.begin_op; send_op := Log.end_op }.

#[export] Instance log_ghost : TxGhost lstate := {
  sinv s H := log_inv (lbio s) (lg s) [] H;
  view s := bview (lbio s) (ldev (lg s));
  stable s := dread (dsk (lbio s));
  logged s := lh_list (lg s);
  sdev s := ldev (lg s);
  shome s := home (start (lg s)) (size (lg s));
  scap s := if 1 <=? outstanding (lg s) then Z.to_nat (Z.min LOGSIZE (size (lg s) - 1)) else 0%nat;
  sbufs := nbuf;
}.

Lemma kept_same s l s' : dsk s' = dsk s -> kept (mk_lstate s l) (mk_lstate s' l).
Proof. intros E. split; cbn; [by rewrite E|done|done|done]. Qed.

#[export] Instance log_laws : TxLaws lstate.
Proof.
  split; cbn [sinv view stable logged sdev shome scap sbufs sbread sdata supdate slog_write sbrelse log_ops log_ghost].
  - intros s H b [_ _ _ Ht _ _ _]. by eapply tx_block.
  - intros s H [_ _ _ Ht _ _ _]. by eapply tx_nodup.
  - intros [s l] H b Hinv Hb Hn Hroom. cbn [lbio lg] in *. pose proof (li_tx _ _ _ _ Hinv) as Ht. split.
    { unfold settled. cbn. destruct (decide (b ∈ lh_list l)); [by left|right]. by apply (tx_unlogged _ _ _ _ _ _ Ht). }
    destruct (tx_open (ldev l) [] s H (lh_list l) b Ht (not_elem_of_nil _) Hn) as (i & s1 & Hbr & Ht1 & Hv1 & Hd1 & _).
    { destruct Hroom; [by left|right; simpl; lia]. }
    exists i, (mk_lstate s1 l). split; [exact (B_ok _ (mk_lstate s l) _ _ Hbr)|]. split_and!; [|by apply kept_same|done|done].
    destruct Hinv as [? ? ? _ ? ? ?]. split; cbn [lbio lg]; try done. by rewrite Hd1.
  - intros [s l] H i b Hinv Hi. cbn [lbio lg] in *.
    rewrite <- (tx_data_view _ _ _ _ _ _ _ (li_tx _ _ _ _ Hinv) Hi). by apply (B_ok _ (mk_lstate s l)).
  - intros [s l] H i b f Hinv Hi Hf. cbn [lbio lg] in *.
    destruct (tx_modify (ldev l) [] s H (lh_list l) i b f (li_tx _ _ _ _ Hinv) Hi Hf) as (Ht & Hd & Hv).
    eexists (mk_lstate _ l). split; [by apply (B_ok _ (mk_lstate s l))|]. cbn [lbio lg].
    split_and!; [|by apply kept_same|exact Hv|done]. destruct Hinv as [? ? ? _ ? ? ?]. by split.
  - intros [s l] H i b Hinv Hi Hh Hc. cbn [lbio lg] in *. destruct (Z.leb_spec 1 (outstanding l)) as [Ho|]; [|lia].
    pose proof (length_lh_list l (li_shape _ _ _ _ Hinv) (li_n _ _ _ _ Hinv)) as Hll. pose proof (li_n _ _ _ _ Hinv).
    destruct (log_write_ok s l [] H i b Hinv Hi Hh (not_elem_of_nil _) Ho ltac:(lia) ltac:(lia))
      as (s' & l' & Hw & Hinv' & (E1 & E2 & E3 & E4 & _) & Hd & Hv & Hls & _).
    exists (mk_lstate s' l'). split; [done|]. cbn [lbio lg]. split_and!; [done| |by rewrite E3|done].
    split; cbn; rewrite ?E1, ?E2, ?E3, ?E4; try done. by rewrite Hd.
  - intros [s l] H i b Hinv Hs. cbn [lbio lg] in *.
    destruct (tx_close (ldev l) [] s H (lh_list l) i b (li_tx _ _ _ _ Hinv)) as (s' & Hr & Ht & Hd & Hv).
    { destruct Hs as [Hs|Hs]; [by right|by left]. }
    exists (mk_lstate s' l). split; [exact (B_ok _ (mk_lstate s l) _ _ Hr)|]. cbn [lbio lg].
    split_and!; [|by apply kept_same|done|done].
    destruct Hinv as [? ? ? _ ? ? ?]. split; cbn [lbio lg]; try done. by rewrite Hd.
Qed.

(** [fsinit]: read the super block, check it, recover the log. *)
Definition fsinit (dev : Z) : M (fstate (S := lstate)) unit :=
  do! readsb dev in
  let! sb := getM fsb in
  if negb (sb_magic sb =? FSMAGIC) then panicM "invalid file system"
  else St (initlog dev sb).
