(* ===== verification/FsExample.v ===== *)
(** * A plain store, and a small file system on it

    A store without cache or log, and a file system of twenty blocks on it: inodes in
    block 10, the bitmap in block 12, data from block 13, one empty file; an instance
    of the hypotheses of the file-system theorems. *)

From stdpp Require Import base list gmap strings.
From Stdlib Require Import ZArith Lia.
From S2P Require Import Prelude Layout Sleeplock FsFormat Bio Tx Store Fs FsAlloc FsFile FsIO FsInode.
Open Scope Z_scope.

(** ** A plain store of blocks

    A second instance of the store interface: a map of blocks without cache
    or log, on which the file system can be run directly.  A buffer is the
    number of its block. *)


Record mstore := mk_mstore {
  ms_blocks : gmap Z (list Z);
  ms_disk : gmap Z (list Z);   (* contents when the transaction began *)
  ms_logged : list Z;
}.

Definition mget (m : gmap Z (list Z)) (b : Z) : list Z := default zero_block (m !! b).

#[export] Instance map_ops : TxOps mstore := {
  sbread _ b := retM (Z.to_nat b);
  sdata i := getM (fun s => mget (ms_blocks s) (Z.of_nat i));
  supdate i f := modifyM (fun s =>
    mk_mstore (<[Z.of_nat i := f (mget (ms_blocks s) (Z.of_nat i))]> (ms_blocks s)) (ms_disk s) (ms_logged s));
  slog_write i := modifyM (fun s =>
    mk_mstore (ms_blocks s) (ms_disk s)
      (if decide (Z.of_nat i ∈ ms_logged s) then ms_logged s else ms_logged s ++ [Z.of_nat i]));
  sbrelse _ := retM tt;
}.

Definition blocks_ok (m : gmap Z (list Z)) : Prop := forall b, is_block (mget m b).

Record map_inv (s : mstore) (H : list (nat * Z)) : Prop := {
  mi_blocks : blocks_ok (ms_blocks s);
  mi_nodup : NoDup (ms_logged s);
  mi_held : forall i b, (i, b) ∈ H -> 0 <= b /\ i = Z.to_nat b;
  mi_clean : forall b, b ∉ H.*2 -> b ∈ ms_logged s \/ mget (ms_blocks s) b = mget (ms_disk s) b;
}.

(** One operation at a time: its end is the commit. *)
#[export] Instance map_op_ops : OpOps mstore := {
  sbegin_op := retM tt;
  send_op := modifyM (fun s => mk_mstore (ms_blocks s) (ms_blocks s) []);
}.

#[export] Instance map_ghost : TxGhost mstore := {
  sinv := map_inv;
  view s := mget (ms_blocks s);
  stable s := mget (ms_disk s);
  logged := ms_logged;
  sdev _ := 1;
  shome _ b := 0 <= b < 2 ^ 31;
  scap _ := 29%nat;
  sbufs := 30%nat;
}.

Lemma mget_insert m b v x : mget (<[b := v]> m) x = put (mget m) b v x.
Proof.
  unfold mget, put. destruct (decide (x = b)) as [->|Hne]; [by rewrite lookup_insert_eq|by rewrite lookup_insert_ne].
Qed.

#[export] Instance map_laws : TxLaws mstore.
Proof.
  assert (Hid : forall s : mstore, kept s s) by (intros s; reflexivity).
  split; cbn [sinv view stable logged sdev shome scap sbufs sbread sdata supdate slog_write sbrelse map_ops map_ghost].
  - intros s H b Hi. apply Hi.
  - intros s H Hi. apply Hi.
  - intros s H b Hi Hb Hn _. split; [by apply Hi|]. exists (Z.to_nat b), s. split; [done|].
    destruct Hi as [? ? Hh Hc]. split_and!; try done. split; try done.
    + intros i x [[= -> ->]|Hin]%elem_of_cons; [lia|by apply Hh].
    + intros x Hx. apply Hc. csimpl in Hx. set_solver.
  - intros s H i b Hi Hib. destruct (mi_held _ _ Hi i b Hib) as [Hb ->]. unfold getM. by rewrite Z2Nat.id.
  - intros s H i b f Hi Hib Hf. destruct (mi_held _ _ Hi i b Hib) as [Hb ->]. unfold modifyM. rewrite Z2Nat.id by done.
    eexists. split; [done|]. cbn [ms_blocks ms_disk ms_logged]. destruct Hi as [Hbl ? Hh Hc].
    split_and!; [|by split|intros x; apply mget_insert|done]. split; cbn [ms_blocks ms_disk ms_logged]; try done.
    + intros x. rewrite mget_insert. unfold put. by case_decide.
    + intros x Hx. rewrite mget_insert, put_ne; [by apply Hc|]. intros ->. apply Hx.
      apply list_elem_of_fmap. by exists (Z.to_nat b, b).
  - intros s H i b Hi Hib Hh Hc. destruct (mi_held _ _ Hi i b Hib) as [Hb ->]. unfold modifyM. rewrite Z2Nat.id by done.
    eexists. split; [done|]. cbn [ms_blocks ms_disk ms_logged]. split_and!; [|by split|done|done].
    destruct Hi as [? Hnd ? Hcl]. split; cbn [ms_blocks ms_disk ms_logged]; try done.
    + case_decide; [done|]. apply NoDup_app. split_and!; [done|set_solver|apply NoDup_singleton].
    + intros x Hx. destruct (Hcl x Hx) as [Hl|He]; [left|by right]. case_decide; [done|]. apply elem_of_app. by left.
  - intros s H i b Hi Hs. exists s. split; [done|]. split_and!; try done. destruct Hi as [? ? Hh Hc]. split; try done.
    + intros j x Hin. apply Hh. by right.
    + intros x Hx. destruct (decide (x = b)) as [->|]; [apply Hs|]. apply Hc. csimpl. set_solver.
Qed.


Definition fx_sb : superblock := mk_superblock FSMAGIC 20 7 16 2 2 10 12.

(** Bits 0 to 12 of the bitmap are set. *)
Definition fx_bitmap : list Z := 255 :: 31 :: replicate 1022 0.
Definition fx_store : mstore := mk_mstore {[12 := fx_bitmap]} {[12 := fx_bitmap]} [].

(** Inode 1 on device 1, locked by process 1. *)
Definition fx_inode (t : Z) : inode :=
  mk_inode 1 1 1 (mk_sleeplock 1 1) 1 t 0 0 1 0 (replicate 13 0).
Definition fx_of (t : Z) : fstate (S := mstore) := mk_fs fx_store fx_sb [fx_inode t] 1.
Abbreviation fx := (fx_of T_FILE).
Abbreviation fx_dir := (fx_of T_DIR).

(** The inode block and the bitmap may be logged. *)
Definition fx_U : list Z := [12; 10].

Lemma zero_block_ok : is_block zero_block.
Proof. split; [apply length_replicate|]. apply Forall_replicate. unfold is_byte. lia. Qed.

Lemma fx_bitmap_ok : is_block fx_bitmap.
Proof.
  split; [unfold fx_bitmap; cbn [length]; by rewrite length_replicate|].
  apply Forall_cons; split; [unfold is_byte; lia|]. apply Forall_cons; split; [unfold is_byte; lia|].
  apply Forall_replicate. unfold is_byte. lia.
Qed.

Lemma fx_view b : view fx_store b = if decide (b = 12) then fx_bitmap else zero_block.
Proof.
  unfold view, map_ghost, mget, fx_store. cbn [ms_blocks]. rewrite lookup_singleton. by repeat case_decide; subst.
Qed.

Lemma fx_layout : sb_layout fx_sb.
Proof. split; vm_compute; done. Qed.

Lemma fx_inv : sinv fx_store [].
Proof.
  split; cbn [fx_store ms_blocks ms_disk ms_logged].
  - intros b. pose proof (fx_view b) as E. unfold view, map_ghost in E. cbn [fx_store ms_blocks] in E. rewrite E.
    case_decide; [apply fx_bitmap_ok|apply zero_block_ok].
  - constructor.
  - by intros i b ?%not_elem_of_nil.
  - intros b _. by right.
Qed.

Lemma fx_used b : 0 <= b < 20 -> used (view fx_store) fx_sb b = bool_decide (b < 13).
Proof.
  intros Hb. unfold used. rewrite fx_view. rewrite bblock_eq by (apply fx_layout || done).
  rewrite (Z.div_small b) by (rewrite BPB_eq; lia). cbn [fx_sb sb_bmapstart]. rewrite decide_True by done.
  rewrite Z.mod_small by (rewrite BPB_eq; lia).
  assert (Hall : forallb (fun b => Bool.eqb (busy b fx_bitmap) (bool_decide (b < 13))) (seqZ 0 20) = true) by reflexivity.
  apply eqb_prop. rewrite forallb_forall in Hall. apply Hall, list_elem_of_In, elem_of_seqZ. lia.
Qed.

Lemma fx_ok t : fs_ok (fx_of t) [].
Proof.
  split; cbn [fx_of fstore fsb].
  - apply fx_inv.
  - apply fx_layout.
  - intros b Hb. cbn in *. lia.
  - intros b Hb. change (data_start fx_sb) with 13 in Hb. rewrite fx_used by lia. apply bool_decide_true. lia.
  - by intros b ?%not_elem_of_nil.
Qed.

Lemma fx_free : nfree (view fx_store) fx_sb = 7%nat.
Proof.
  unfold nfree. transitivity (length (filter (fun b => bool_decide (b < 13) = false) (seqZ 0 20))); [|reflexivity].
  apply Permutation_length, NoDup_Permutation; [apply NoDup_filter, NoDup_seqZ..|].
  intros x. rewrite !list_elem_of_filter. cbn [fx_sb sb_size]. split; intros [H Hx]; (split; [|done]);
    pose proof Hx as Hx'; apply elem_of_seqZ in Hx'; [rewrite fx_used in H by lia|rewrite fx_used by lia]; done.
Qed.

Lemma fx_budget t k : (k <= 20)%nat -> budget (fx_of t) fx_U k.
Proof. intros Hk. split; cbn; [set_solver|intros; lia|lia]. Qed.

Lemma fx_no_blocks t n : in_file n -> fblock (view fx_store) (i_addrs (fx_inode t)) n = 0.
Proof.
  intros [Hn _]. unfold fblock. destruct (n <? NDIRECT); [|done]. cbn [fx_inode i_addrs].
  rewrite nth_lookup. destruct (replicate 13 0 !! Z.to_nat n) as [x|] eqn:E; [|done].
  by apply lookup_replicate in E as [-> _].
Qed.

Lemma fx_file t : file_ok (view fx_store) fx_sb (i_addrs (fx_inode t)).
Proof.
  split.
  - done.
  - intros x [Hx [E|(n & Hn & E)]]; exfalso; apply Hx; [done|]. by rewrite fx_no_blocks in E.
  - intros n m Hn Hm Hz. by rewrite fx_no_blocks in Hz.
  - intros n Hn Hz. by rewrite fx_no_blocks in Hz.
Qed.

Lemma fx_fcur t r : (r <= 6)%nat -> fcur (fx_of t) 0 fx_U r.
Proof.
  intros Hr. split.
  - done.
  - apply fx_ok.
  - cbn. lia.
  - done.
  - apply fx_file.
  - intros b Hb. unfold is_bmap in Hb. change (data_start (fsb (fx_of t))) with 13 in Hb. cbn in Hb.
    assert (b = 12) as -> by lia. set_solver.
  - apply fx_budget. change (pay fx_U (i_addrs (inode_at (fx_of t) 0))) with 1%nat. lia.
  - change (nfree (view (fstore (fx_of t))) (fsb (fx_of t))) with (nfree (view fx_store) fx_sb). rewrite fx_free.
    change (pay fx_U (i_addrs (inode_at (fx_of t) 0))) with 1%nat. lia.
Qed.

Lemma fx_ref t : inode_ref (fx_of t) 0.
Proof. split; cbn; lia. Qed.
