(* ===== verification/FsThms.v ===== *)
(** * The file system: properties of blocks and file contents *)

From stdpp Require Import base list gmap strings.
From Stdlib Require Import ZArith Lia.
From S2P Require Import Prelude Layout Sleeplock FsFormat Bio Tx Store Fs FsAlloc FsFile FsIO FsInode FsWrite FsTrunc FsExample.
Open Scope Z_scope.

Section FsThms.
Context {S : Type} `{!TxOps S} `{!TxGhost S} `{!TxLaws S}.
Local Abbreviation fstate := (@fstate S).
Local Abbreviation V f := (view (fstore f)).
Local Abbreviation addrs_of f ip := (i_addrs (inode_at f ip)).

(** The data blocks in use are those of [f] and [a]. *)
Definition used_plus (f f' : fstate) (a : Z) : Prop :=
  forall x, 0 <= x < sb_size (fsb f) -> used (V f') (fsb f) x = bool_decide (x = a) || used (V f) (fsb f) x.

Lemma balloc_used (f : fstate) H U k a f' : fs_ok f H -> allocated f f' H U k a ->
  used_plus f f' a /\ fs_ok f' H /\ V f' a = zero_block /\
  (forall x, ~ is_bmap (fsb f) x -> x <> a -> V f' x = V f x).
Proof.
  intros Hok (Hd & Hfree & Hlow & Hs). pose proof (fo_layout _ _ Hok) as HL. pose proof (data_pos _ HL a Hd) as Ha.
  pose proof (fun x => used_ext _ _ (fsb f) x (sp_view _ _ _ _ _ _ Hs)) as Hu'.
  assert (Hu : used_plus f f' a).
  { intros x Hx. rewrite Hu'. apply used_alloc; try done. eapply fs_ok_block, Hok. }
  split; [done|]. split; [|split].
  - apply (fs_ok_step f f' H H _ _ _ Hok Hs); [|by left]. intros x Hx Hx'. by rewrite <- Hu', Hu, Hx', orb_true_r.
  - rewrite (sp_view _ _ _ _ _ _ Hs). unfold alloc. by rewrite put_eq.
  - intros x Hx Hne. rewrite (sp_view _ _ _ _ _ _ Hs). unfold alloc, mark. rewrite !put_ne; [done| |done].
    intros ->. apply Hx. apply bblock_bmap; [done|lia].
Qed.

(** [balloc] panics exactly when the bitmap is full; otherwise it returns the
    first free block, which is a zeroed data block now marked, and touches no
    other bit and no other data block; [bfree] of that block puts every bit of
    the bitmap back, and a second [bfree] of it panics. *)
Theorem balloc_bfree_correct (f : fstate) H U k : in_tx f -> fs_ok f H -> (length H <= 2)%nat ->
  bmap_in (fsb f) U -> budget f U (Datatypes.S k) ->
  if decide (nfree (V f) (fsb f) = 0%nat) then balloc (sdev (fstore f)) f = Panic "balloc: out of blocks"
  else exists a f', balloc (sdev (fstore f)) f = Ok a f' /\
    is_data (fsb f) a /\ used (V f) (fsb f) a = false /\ (forall x, 0 <= x < a -> used (V f) (fsb f) x = true) /\
    (used_plus f f' a /\ fs_ok f' H /\ V f' a = zero_block /\
     (forall x, ~ is_bmap (fsb f) x -> x <> a -> V f' x = V f x)) /\
    exists f'', bfree (sdev (fstore f)) a f' = Ok tt f'' /\
      (forall x, 0 <= x < sb_size (fsb f) -> used (V f'') (fsb f) x = used (V f) (fsb f) x) /\
      bfree (sdev (fstore f)) a f'' = Panic "freeing free block".
Proof.
  intros Htx Hok Hh HU Hb. pose proof (fo_layout _ _ Hok) as HL.
  pose proof (balloc_ok f H U k Htx Hok Hh HU Hb) as Hba. case_decide; [done|].
  destruct Hba as (a & f' & E & Hall). pose proof Hall as (Hd & Hfree & Hlow & Hs).
  pose proof (data_pos _ HL a Hd) as Ha. pose proof (balloc_used f H U k a f' Hok Hall) as Hres.
  exists a, f'. do 5 (split; [done|]). destruct Hres as (Hu & Hok' & _ & _).
  pose proof Hs as [_ He _ _ Hbd]. pose proof (ext_sb _ _ He) as Esb. pose proof (kp_dev _ _ (ext_kept _ _ He)) as Edev.
  assert (HU' : bmap_in (fsb f') (a :: U)) by (intros x Hx; rewrite Esb in Hx; right; by apply HU).
  destruct (bfree_used f' H (a :: U) k a (in_tx_ext _ _ He Htx) Hok' Hh HU' Hbd) as (f'' & E2 & Hok2 & He2 & Hbd2 & _ & _ & Hu2).
  { by rewrite Esb. }
  { intros Hin. destruct (fo_held _ _ Hok a Hin) as [_ Hx]. by rewrite Hfree in Hx. }
  { rewrite Esb, Hu, bool_decide_true by (done || lia). done. }
  rewrite Edev, Esb in *. exists f''. split; [done|].
  assert (Hback : forall x, 0 <= x < sb_size (fsb f) -> used (V f'') (fsb f) x = used (V f) (fsb f) x).
  { intros x Hx. rewrite Hu2, Hu by done. destruct (decide (x = a)) as [->|]; [by rewrite bool_decide_true|by rewrite bool_decide_false]. }
  split; [done|]. pose proof (ext_sb _ _ He2) as Esb2.
  pose proof (bfree_ok f'' H (a :: U) k a (in_tx_ext _ _ He2 (in_tx_ext _ _ He Htx)) Hok2 Hh) as Hlast.
  rewrite Esb2, Esb, (kp_dev _ _ (ext_kept _ _ He2)), Edev, Hback, Hfree in Hlast by lia. apply Hlast; [done|done|lia].
Qed.

(** C24: What [writei] stored is what [readi] returns: reading the same range back
    gives all [n] bytes, and reading the whole file gives the old contents with
    the range replaced. *)
Theorem writei_readi_roundtrip {D : Type} (copyin : Z -> Z -> M D (list Z * Z)) (d : D) (src : Z) (sbyte : Z -> Z)
    (f : fstate) ip U r off n :
  (forall k, is_byte (sbyte k)) ->
  (forall tot m, 0 <= tot -> 0 < m -> tot + m <= n -> copyin (u64 (src + tot)) m d = Ok (sbyte <$> seqZ tot m, 0) d) ->
  fcur f ip U r -> inode_ref f ip -> inode_block f ip ∈ U -> nblk off n <= Z.of_nat r -> 0 <= src < 2 ^ 64 ->
  0 <= n -> 0 <= off <= i_size (inode_at f ip) -> off + n <= MAXFILE * BSIZE -> i_size (inode_at f ip) <= MAXFILE * BSIZE ->
  (forall m, 0 <= m -> m * BSIZE < i_size (inode_at f ip) -> fblock (V f) (addrs_of f ip) m <> 0) ->
  exists f', writei copyin ip src off n (f, d) = Ok n (f', d) /\
    (exists g, readi local_copyout ip 0 off n (f', replicate (Z.to_nat n) 0) = Ok n (g, sbyte <$> seqZ 0 n)) /\
    let size := Z.max (i_size (inode_at f ip)) (off + n) in
    exists g, readi local_copyout ip 0 0 size (f', replicate (Z.to_nat size) 0) =
      Ok size (g, overwritten (fbyte (V f) (addrs_of f ip)) off n sbyte <$> seqZ 0 size).
Proof.
  intros Hbyte Hcopy Hc Hir HU Hr Hsrc Hn Hoff Hmax Hsz Hfull.
  destruct (writei_ok copyin d src n sbyte Hbyte Hcopy f ip U r off n Hc Hir HU Hr Hsrc ltac:(lia) Hoff Hmax) as (f' & U' & E & Hw & Hb).
  destruct (written_readable sbyte f f' ip U r off n U' Hc Hw Hb Hoff Hn Hmax Hsz Hfull) as [Esz Hrc].
  change (MAXFILE * BSIZE) with 274432 in *.
  assert (Hread : forall o m, 0 <= o -> 0 <= m -> o + m <= i_size (inode_at f' ip) ->
    exists g, readi local_copyout ip 0 o m (f', replicate (Z.to_nat m) 0) =
      Ok m (g, overwritten (fbyte (V f) (addrs_of f ip)) off n sbyte <$> seqZ o m)).
  { intros o m Ho Hm Hend. destruct (readi_ok local_copyout (filled m) 0 m (fun b1 b2 => local_copyout_filled m b1 b2 ltac:(lia)) f' ip U' 0 o m Hrc)
      as (g & Er & _); [lia..|]. exists g. unfold read_len in Er. rewrite decide_False, Z.min_l in Er by lia.
    unfold filled in Er at 1. cbn [length app] in Er. rewrite drop_0 in Er. rewrite Er. do 2 f_equal.
    rewrite filled_full by apply length_fbytes. unfold fbytes. apply list_eq. intros k. rewrite !list_lookup_fmap.
    destruct (decide (Z.of_nat k < m)).
    - rewrite !lookup_seqZ_lt by lia. cbn. rewrite (wr_bytes _ _ _ _ _ _ Hw) by (change (MAXFILE * BSIZE) with 274432; lia).
      do 2 f_equal.
    - by rewrite !lookup_seqZ_ge by lia. }
  exists f'. split; [done|]. split; [|rewrite <- Esz; apply Hread; lia].
  destruct (Hread off n) as [g Eg]; [lia..|]. exists g. rewrite Eg. do 2 f_equal. apply list_eq. intros k. rewrite !list_lookup_fmap.
  destruct (decide (Z.of_nat k < n)); [|by rewrite !lookup_seqZ_ge by lia].
  rewrite !lookup_seqZ_lt by lia. cbn. unfold overwritten. rewrite decide_True by lia. do 2 f_equal. lia.
Qed.
Lemma freed_dinode_wf (i : inode) lk v : dinode_wf (dinode_of i) ->
  dinode_wf (dinode_of (set_i_lock lk (set_i_valid v (set_i_type 0 (set_i_size 0 (set_i_addrs (replicate 13 0) i)))))).
Proof.
  intros [(_ & Hmj & Hmn & Hnl) _ _ _]. split; cbn [dinode_of di_type di_major di_minor di_nlink di_size di_addrs set_i_lock set_i_valid set_i_type set_i_size set_i_addrs
    i_type i_major i_minor i_nlink i_size i_addrs]; [|lia|done|].
  - split; [lia|]. done.
  - intros n. rewrite nth_lookup.
    destruct (replicate 13 0 !! n) as [x|] eqn:Ex; [|simpl; lia]. apply lookup_replicate in Ex as [-> _]. simpl. lia.
Qed.

(** C26: [iput].  Dropping the last reference to a valid inode without links frees
    exactly the blocks of its file, marks the inode free on disk and leaves the
    table entry unused; in every other case only the reference count changes. *)
Theorem iput_correct (f : fstate) ip U k : tcur f ip U k -> is_free (i_lock (inode_at f ip)) ->
  dinode_wf (dinode_of (inode_at f ip)) ->
  let i := inode_at f ip in
  if (i_ref i =? 1) && negb (i_valid i =? 0) && (i_nlink i =? 0) then
    exists f', iput ip f = Ok tt f' /\ fs_ok f' [] /\
      (forall x, 0 <= x < sb_size (fsb f) ->
        used (V f') (fsb f) x = true <-> used (V f) (fsb f) x = true /\ ~ owns (V f) (i_addrs i) x) /\
      (forall x, ~ is_bmap (fsb f) x -> x <> inode_block f ip -> V f' x = V f x) /\
      di_type (dinode_at (ioff (i_inum i)) (V f' (inode_block f ip))) = 0 /\
      (forall j, 0 <= j < sb_ninodes (fsb f) -> j <> i_inum i ->
        dinode_at (ioff j) (V f' (IBLOCK j (fsb f))) = dinode_at (ioff j) (V f (IBLOCK j (fsb f)))) /\
      i_ref (inode_at f' ip) = 0 /\ is_free (i_lock (inode_at f' ip)) /\ i_valid (inode_at f' ip) = 0
  else iput ip f = Ok tt (upd_i ip (fun i => set_i_ref (i_ref i - 1) i) f).
Proof.
  intros Htc Hfree Hwf i. unfold iput, geti. mrun. unfold id. fold i.
  destruct ((i_ref i =? 1) && negb (i_valid i =? 0) && (i_nlink i =? 0)) eqn:Ec; [|done].
  pose proof Htc as [Htx Hok [Hip Hdev Hin] Hfile HU HinU Hb]. fold (iput_last ip).
  destruct (iput_last_ok f ip U k Htc Hfree) as (f' & W & E & Hok' & He & Hat & Hip' & Hu & Hv & HW & Hoth & Hi).
  mstep E. unfold seti, modifyM. eexists. split; [done|]. fold i in Hat, Hoth, Hi.
  assert (Hat' : inode_at (upd_i ip (fun i => set_i_ref (i_ref i - 1) i) f') ip = set_i_ref (i_ref i - 1) (inode_at f' ip)).
  { by rewrite inode_at_upd, decide_True, Hat by done. }
  rewrite Hat', Hat. change (V (upd_i ip (fun i => set_i_ref (i_ref i - 1) i) f')) with (V f').
  destruct (ioff_range (i_inum i)) as [Ho1 Ho2]. destruct HW as [HWl HWb].
  assert (HWl' : Z.of_nat (length W) = 1024) by (by rewrite HWl).
  split; [by apply fs_ok_upd|]. split; [done|]. split; [done|]. split; [|split].
  - by rewrite Hi, dinode_at_put by (lia || by apply freed_dinode_wf).
  - intros j Hj Hne. destruct (fs_ok_iblock f [] j Hok Hj) as (_ & _ & _ & Hnb & _).
    destruct (decide (IBLOCK j (fsb f) = inode_block f ip)) as [Eb|Eb]; [|by rewrite Hv].
    destruct (ioff_disjoint j (i_inum i) (fsb f) (fo_layout _ _ Hok) Hj Hin Hne Eb) as [Hd|Hd]; destruct (ioff_range j);
      (rewrite Eb, Hi, dinode_at_other by lia; apply Hoth; lia).
  - destruct (Z.eqb_spec (i_ref i) 1) as [Er|]; [|done]. cbn. rewrite Er. done.
Qed.
End FsThms.

(** ** The hypotheses can be met *)

Lemma balloc_bfree_correct_witness : nfree (view (fstore fx)) (fsb fx) = 7%nat /\
  exists a f', balloc 1 fx = Ok a f' /\ a = 13 /\ used (view (fstore f')) fx_sb 13 = true.
Proof.
  split; [apply fx_free|].
  pose proof (balloc_bfree_correct fx [] fx_U 0 (fc_tx _ _ _ _ (fx_fcur T_FILE 0 ltac:(lia))) (fx_ok T_FILE) ltac:(simpl; lia) (fc_bmap _ _ _ _ (fx_fcur T_FILE 0 ltac:(lia)))
    (fx_budget T_FILE 1 ltac:(lia))) as H.
  change (view (fstore fx)) with (view fx_store) in H. change (fsb fx) with fx_sb in H. change (sdev (fstore fx)) with 1 in H.
  rewrite fx_free in H. cbn [decide decide_rel] in H. destruct H as (a & f' & E & Hd & Hf & Hlow & (Hu & _) & _).
  exists a, f'. split; [exact E|]. unfold is_data in Hd. change (data_start fx_sb) with 13 in Hd. change (sb_size fx_sb) with 20 in Hd.
  assert (a = 13) as ->.
  { destruct (Z.lt_ge_cases 13 a) as [Hlt|]; [|lia]. specialize (Hlow 13 ltac:(lia)). rewrite fx_used in Hlow by lia. discriminate Hlow. }
  split; [reflexivity|]. exact (Hu 13 ltac:(cbn; lia)).
Defined.

(** Ten bytes at the start of the empty file. *)
Definition fx_data : list Z := [1; 2; 3; 4; 5; 6; 7; 8; 9; 10].
Definition fx_byte (k : Z) : Z := nth (Z.to_nat k) fx_data 0.

Lemma fx_byte_ok k : is_byte (fx_byte k).
Proof.
  unfold fx_byte. rewrite nth_lookup. destruct (fx_data !! Z.to_nat k) as [x|] eqn:E; [|unfold is_byte; simpl; lia].
  assert (Hall : Forall is_byte fx_data) by (repeat constructor; unfold is_byte; lia). rewrite Forall_lookup in Hall. by apply Hall in E.
Qed.

Lemma fx_copyin tot m : 0 <= tot -> 0 < m -> tot + m <= 10 ->
  local_copyin (u64 (0 + tot)) m fx_data = Ok (fx_byte <$> seqZ tot m, 0) fx_data.
Proof.
  intros Ht Hm Hl. unfold local_copyin. rewrite Z.add_0_l, u64_small by lia. do 2 f_equal. apply list_eq. intros k.
  destruct (decide (k < Z.to_nat m)%nat).
  - rewrite lookup_slice by done. rewrite list_lookup_fmap, lookup_seqZ_lt by lia. cbn. unfold fx_byte.
    replace (Z.to_nat (tot + Z.of_nat k)) with (Z.to_nat tot + k)%nat by lia.
    destruct (nth_lookup_or_length fx_data (Z.to_nat tot + k) 0) as [E|E]; [done|]. simpl in E. lia.
  - rewrite list_lookup_fmap, lookup_seqZ_ge by lia. apply lookup_ge_None_2. rewrite length_slice; [lia|simpl; lia].
Qed.


Lemma writei_readi_roundtrip_witness :
  exists f', writei local_copyin 0 0 0 10 (fx, fx_data) = Ok 10 (f', fx_data) /\
    exists g, readi local_copyout 0 0 0 10 (f', replicate 10 0) = Ok 10 (g, fx_data).
Proof.
  assert (HU : inode_block fx 0 ∈ fx_U) by (right; left).
  destruct (writei_readi_roundtrip local_copyin fx_data 0 fx_byte fx 0 fx_U 6 0 10 fx_byte_ok fx_copyin (fx_fcur T_FILE 6 ltac:(lia)) (fx_ref T_FILE) HU
      ltac:(vm_compute; discriminate) ltac:(lia) ltac:(lia) ltac:(cbn; lia) ltac:(vm_compute; discriminate) ltac:(vm_compute; discriminate)
      ltac:(intros m Hm Hlt; cbn in Hlt; unfold BSIZE in Hlt; lia)) as (f' & E & (g & Eg) & _).
  exists f'. split; [exact E|]. exists g. exact Eg.
Defined.

(** An unlinked file with one reference. *)
Definition fx_unlinked : fstate (S := mstore) :=
  mk_fs fx_store fx_sb [mk_inode 1 1 1 (mk_sleeplock 0 0) 1 T_FILE 0 0 0 0 (replicate 13 0)] 1.

Lemma fx_unlinked_tcur : tcur fx_unlinked 0 fx_U 0.
Proof.
  destruct (fx_fcur T_FILE 0 ltac:(lia)) as [Htx _ _ _ _ Hbm _ _]. split.
  - exact Htx.
  - destruct (fx_ok T_FILE). by split.
  - split; cbn; lia.
  - apply (fx_file T_FILE).
  - exact Hbm.
  - right. left.
  - destruct (fx_budget T_FILE 0 ltac:(lia)). by split.
Qed.

Lemma iput_correct_witness : exists f', iput 0 fx_unlinked = Ok tt f' /\ i_ref (inode_at f' 0) = 0 /\
  di_type (dinode_at 64 (view (fstore f') 10)) = 0.
Proof.
  destruct (iput_correct fx_unlinked 0 fx_U 0 fx_unlinked_tcur ltac:(reflexivity)) as (f' & E & _ & _ & _ & Ht & _ & Hr & _).
  - split; [repeat split; vm_compute; (reflexivity || discriminate)|cbn; lia|reflexivity|]. intros k. do 14 (destruct k as [|k]; [cbn; lia|]). cbn. destruct k; lia.
  - exists f'. split; [exact E|]. split; [exact Hr|exact Ht].
Defined.
