(* ===== verification/FsDirThms.v ===== *)
(** * Directories and paths: properties *)

From stdpp Require Import base list gmap strings.
From Stdlib Require Import ZArith Lia.
From S2P Require Import Prelude Layout Sleeplock FsFormat Bio Tx Store Fs FsAlloc FsFile FsIO FsInode FsWrite FsDir FsExample.
Open Scope Z_scope.

(** ** Replacing an unused entry *)
Section Find.
Context {A : Type} (P : A -> Prop) `{!forall x, Decision (P x)}.

Lemma find_splice_new l (k : nat) x : (k <= length l)%nat -> list_find P l = None -> P x ->
  list_find P (splice k [x] l) = Some (k, x).
Proof.
  intros Hk Hn Hx. unfold splice. apply list_find_None in Hn.
  rewrite list_find_app_r by (by apply list_find_None, Forall_take). cbn [app list_find]. rewrite decide_True by done.
  cbn. do 2 f_equal. rewrite length_take. lia.
Qed.

Lemma find_splice_other l (k : nat) x : (k <= length l)%nat -> (forall y, l !! k = Some y -> ~ P y) -> ~ P x ->
  list_find P (splice k [x] l) = list_find P l.
Proof.
  intros Hk Hold Hx. unfold splice. cbn [length]. rewrite <- (take_drop k l) at 3.
  destruct (list_find P (take k l)) as [p|] eqn:E; [destruct p; by rewrite !(list_find_app_l _ _ _ _ _ E)|].
  rewrite (list_find_app_r P (take k l) (drop k l)), (list_find_app_r P (take k l) ([x] ++ _)) by done. cbn [app list_find]. rewrite decide_False by done.
  rewrite Nat.add_1_r. destruct (l !! k) as [y|] eqn:Ey.
  - rewrite (drop_S _ _ _ Ey). cbn [list_find]. by rewrite decide_False by (by apply Hold).
  - apply lookup_ge_None in Ey. by rewrite !drop_ge by lia.
Qed.
End Find.

Lemma slot_unused ents y : ents !! slot ents = Some y -> de_inum y = 0.
Proof.
  unfold slot. destruct (list_find _ ents) as [[k de]|] eqn:E.
  - apply list_find_Some in E as (E & Hz & _). intros Hy. by simplify_eq.
  - intros Hy. apply lookup_lt_Some in Hy. lia.
Qed.

Lemma new_has_name name inum name' : u16 inum <> 0 ->
  has_name name' (new_dirent name inum) <-> cname 14 name = cname 14 name'.
Proof.
  intros Hz. unfold has_name, same_name, new_dirent. cbn [de_inum de_name]. change (Z.to_nat DIRSIZ) with 14%nat.
  rewrite cname_strncpy. naive_solver.
Qed.

Section FsDirThms.
Context {S : Type} `{!TxOps S} `{!TxGhost S} `{!TxLaws S}.
Local Abbreviation fstate := (@fstate S).
Local Abbreviation V f := (view (fstore f)).
Local Abbreviation addrs_of f ip := (i_addrs (inode_at f ip)).

(** C25: [dirlink] on every branch.  When the name is present it drops the
    reference [dirlookup] took and returns -1; when the directory has its
    largest size and no unused entry it panics; otherwise it returns 0, after
    which [dirlookup] of the name goes to the new inode at the offset of the
    first unused entry, a lookup of any other name gives what it gave before,
    and no other file changed. *)
Theorem dirlink_dirlookup (f : fstate) dp U n name inum : dcur f dp U n -> Forall is_byte name -> u16 inum <> 0 ->
  let ents := dents (V f) (addrs_of f dp) n in
  let k := slot ents in
  match list_find (has_name name) ents with
  | Some (j, de) => exists f1, stepped f f1 [] (V f) U (1 + pay U (addrs_of f dp)) /\
      dirlink dp name inum f = (let! ip := iget (i_dev (inode_at f dp)) (de_inum de) in do! iput ip in retM (-1)) f1
  | None =>
      if decide (Z.of_nat k = 17152) then dirlink dp name inum f = Panic "dirlink"
      else exists f' n', dirlink dp name inum f = Ok 0 f' /\
        written (ent_byte (new_dirent name inum)) f f' dp (16 * Z.of_nat k) 16 /\ i_size (inode_at f' dp) = 16 * n' /\
        (exists g, itable g = itable f' /\ (forall x, V g x = V f' x) /\
          dirlookup dp name f' = (let! ip := iget (i_dev (inode_at f dp)) (u16 inum) in retM (Some (ip, 16 * Z.of_nat k))) g) /\
        (forall name', cname 14 name' <> cname 14 name ->
          list_find (has_name name') (dents (V f') (addrs_of f' dp) n') = list_find (has_name name') ents)
  end.
Proof.
  intros Hdc Hn Hin ents k. pose proof (dirlink_ok f dp U n name inum Hdc Hn) as H. cbn zeta in H. fold ents k in H.
  destruct (list_find (has_name name) ents) as [[j de]|] eqn:Enone; [done|]. case_decide; [done|].
  destruct H as (f' & U' & E & Hw & Hd' & Hents). exists f', (Z.max n (Z.of_nat k + 1)).
  split; [done|]. split; [done|]. split; [exact (dk_size _ _ _ _ _ Hd')|].
  assert (Hk : (k <= length ents)%nat) by apply slot_le.
  assert (Hold : forall name' y, ents !! k = Some y -> ~ has_name name' y) by (intros name' y Hy [Hx _]; by apply Hx, (slot_unused ents)).
  split.
  - pose proof (dirlookup_ok f' dp U' 0 _ name Hd') as Hlk. rewrite Hents in Hlk.
    rewrite (find_splice_new (has_name name)) in Hlk by (done || by apply new_has_name).
    destruct Hlk as (g & Hs & Elk). exists g. split; [apply Hs|]. split; [apply Hs|]. rewrite Elk. cbn [new_dirent de_inum].
    by rewrite (inode_at_alter f f' dp _ (fc_ip _ _ _ _ (dc_cur _ _ _ _ Hdc)) (wr_tab _ _ _ _ _ _ Hw)).
  - intros name' Hne. rewrite Hents. apply (find_splice_other (has_name name')); [done|by apply Hold|].
    intros Hx. apply new_has_name in Hx; [|done]. by apply Hne.
Qed.
End FsDirThms.

Lemma fx_dcur : dcur fx_dir 0 fx_U 0.
Proof.
  split.
  - apply fx_fcur. lia.
  - split; [|done|done]. split; cbn [fx_of fstore fsb].
    + apply fx_ok.
    + done.
    + apply fx_file.
    + apply fx_budget. change (pay fx_U (i_addrs (inode_at fx_dir 0))) with 1%nat. lia.
    + cbn. vm_compute. split; discriminate.
    + intros m Hm Hlt. cbn in Hlt. unfold BSIZE in Hlt. lia.
  - apply fx_ref.
  - right. left.
Qed.

(** Linking the name [a] into the empty directory. *)
Lemma dirlink_dirlookup_witness : exists f', dirlink 0 [97] 5 fx_dir = Ok 0 f' /\
  exists g, dirlookup 0 [97] f' = (let! ip := iget 1 5 in retM (Some (ip, 0))) g.
Proof.
  destruct (dirlink_dirlookup fx_dir 0 fx_U 0 [97] 5 fx_dcur ltac:(repeat constructor; unfold is_byte; lia) ltac:(discriminate))
    as (f' & n' & E & _ & _ & (g & _ & _ & Eg) & _).
  exists f'. split; [exact E|]. exists g. exact Eg.
Defined.

(** C35: [namex] walks exactly the non-empty elements between the slashes of the
    path: from the root when the path starts with a slash and from the current
    directory otherwise, it behaves on every state as the recursion over the
    list of elements, so repeated, leading and trailing slashes change nothing
    and the walk always ends. *)
Theorem namex_correct {S : Type} `{!TxOps S} (path : list Z) (parent : bool) (name : list Z) (cwd : nat) (f : fstate (S := S)) :
  namex path parent name cwd f =
    (let! ip := (if hd 0 path =? SLASH then iget ROOTDEV ROOTINO else idup cwd) in
     resolve (elements path) parent name ip) f.
Proof. unfold namex. apply bindM_ext. intros ip f'. apply namex_loop_resolve. lia. Qed.

(** ** The inode table *)

Definition cached (dev inum : Z) (i : inode) : Prop := 0 < i_ref i /\ i_dev i = dev /\ i_inum i = inum.

(** References are counted, and an inode in use has one entry. *)
Record table_ok (tab : list inode) : Prop := {
  tk_ref : Forall (fun i => 0 <= i_ref i) tab;
  tk_uniq : forall j k i i', tab !! j = Some i -> tab !! k = Some i' -> cached (i_dev i) (i_inum i) i ->
    cached (i_dev i) (i_inum i) i' -> j = k;
}.

Lemma iget_scan_spec dev inum tab : forall k empty,
  match iget_scan dev inum tab k empty with
  | inl j => exists n i, j = (k + n)%nat /\ tab !! n = Some i /\ cached dev inum i
  | inr e => Forall (fun i => ~ cached dev inum i) tab /\
      match empty with
      | Some _ => e = empty
      | None => match e with
                | Some j => exists n i, j = (k + n)%nat /\ tab !! n = Some i /\ i_ref i = 0
                | None => Forall (fun i => i_ref i <> 0) tab
                end
      end
  end.
Proof.
  induction tab as [|i tab IH]; intros k empty; cbn [iget_scan]; [split; [constructor|by destruct empty]|].
  destruct ((0 <? i_ref i) && (i_dev i =? dev) && (i_inum i =? inum)) eqn:Em.
  { apply andb_true_iff in Em as [[H1%Z.ltb_lt H2%Z.eqb_eq]%andb_true_iff H3%Z.eqb_eq]. exists 0%nat, i. split; [lia|]. by split. }
  assert (Hn : ~ cached dev inum i).
  { intros (H1%Z.ltb_lt & H2%Z.eqb_eq & H3%Z.eqb_eq). by rewrite H1, H2, H3 in Em. }
  specialize (IH (k + 1)%nat (match empty with Some _ => empty | None => if i_ref i =? 0 then Some k else None end)).
  destruct (iget_scan _ _ tab _ _) as [j|e].
  { destruct IH as (n & i' & -> & Hi & Hc). exists (Datatypes.S n), i'. split; [lia|]. by split. }
  destruct IH as [Hall He]. split; [by constructor|]. destruct empty as [x|]; [done|].
  destruct (Z.eqb_spec (i_ref i) 0) as [Hz|Hz]; [subst e; exists 0%nat, i; split; [lia|done]|].
  destruct e as [j|]; [|by constructor]. destruct He as (n & i' & -> & Hi & Hr). exists (Datatypes.S n), i'. split; [lia|done].
Qed.

(** Replacing entry [ip] by one that is in use. *)
Lemma table_ok_alter tab ip i g : table_ok tab -> tab !! ip = Some i -> 0 <= i_ref (g i) ->
  (forall j i', tab !! j = Some i' -> cached (i_dev (g i)) (i_inum (g i)) i' -> j = ip) -> table_ok (alter g ip tab).
Proof.
  intros [Hr Hu] Hi Hg Hfresh. split.
  - apply Forall_alter; [done|]. intros i' Hi'. by simplify_eq.
  - intros j k a b Ha Hb Hca Hcb.
    destruct (decide (j = ip)) as [->|Hj], (decide (k = ip)) as [->|Hk]; try done.
    + rewrite list_lookup_alter_eq, Hi in Ha. rewrite list_lookup_alter_ne in Hb by done. injection Ha as <-. symmetry. by eapply Hfresh.
    + rewrite list_lookup_alter_eq, Hi in Hb. rewrite list_lookup_alter_ne in Ha by done. injection Hb as <-.
      destruct Hcb as (_ & E1 & E2). eapply Hfresh; [done|]. by rewrite E1, E2.
    + rewrite list_lookup_alter_ne in Ha, Hb by done. by eapply Hu.
Qed.

(** [iget] never gives an inode two table entries: it finds the entry in use for
    the inode and counts the reference, or takes an entry without references,
    marked as not yet read, and panics exactly when there is neither; no other
    entry changes. *)
Theorem iget_correct {S : Type} `{!TxOps S} (f : fstate (S := S)) dev inum : table_ok (itable f) ->
  match iget dev inum f with
  | Ok ip f' => exists i i', itable f !! ip = Some i /\ itable f' = alter (fun _ => i') ip (itable f) /\
      fstore f' = fstore f /\ table_ok (itable f') /\ cached dev inum i' /\ i_lock i' = i_lock i /\
      ((cached dev inum i /\ i' = set_i_ref (i_ref i + 1) i) \/
       (i_ref i = 0 /\ i_ref i' = 1 /\ i_valid i' = 0 /\ Forall (fun i => ~ cached dev inum i) (itable f)))
  | Panic msg => msg = "iget: no inodes" /\ Forall (fun i => i_ref i <> 0 /\ ~ cached dev inum i) (itable f)
  | _ => False
  end.
Proof.
  intros Hok. unfold iget. mrun. pose proof (iget_scan_spec dev inum (itable f) 0 None) as Hs.
  destruct (iget_scan dev inum (itable f) 0 None) as [ip|[ip|]].
  - destruct Hs as (n & i & -> & Hi & Hc). cbn [Nat.add]. unfold seti. mrun. cbn [retM].
    exists i, (set_i_ref (i_ref i + 1) i). pose proof Hc as (Hr & Hd & Hn). cbn [itable upd_i fstore].
    split; [done|]. split; [apply list_alter_ext; [|done]; intros; by simplify_eq|]. split; [done|].
    split; [|split; [split; cbn; [lia|done]|split; [done|by left]]].
    apply (table_ok_alter _ _ i); [done|done|cbn; lia|]. intros j i' Hj (Hr' & Hd' & Hn'). cbn in Hd', Hn'.
    apply (tk_uniq _ Hok j n i' i Hj Hi); [done|]. by rewrite Hd', Hn'.
  - destruct Hs as [Hall (n & i & -> & Hi & Hr)]. cbn [Nat.add]. unfold seti. mrun. cbn [retM].
    eexists i, _. cbn [itable upd_i fstore]. split; [done|]. split; [apply list_alter_ext; [|done]; intros x Hx; simplify_eq; reflexivity|].
    split; [done|]. split; [|split; [done|split; [done|right; done]]].
    apply (table_ok_alter _ _ i); [done|done|cbn; lia|]. intros j i' Hj Hc. cbn in Hc.
    rewrite Forall_lookup in Hall. by apply Hall in Hj.
  - destruct Hs as [Hall Hz]. cbn. split; [done|]. by apply Forall_and.
Qed.

(** The table of the example. *)
Lemma iget_correct_witness : table_ok (itable fx) /\ exists ip f', iget 1 1 fx = Ok ip f' /\ table_ok (itable f').
Proof.
  assert (Hok : table_ok (itable fx)).
  { split; [repeat constructor; cbn; lia|]. intros [|j] [|k] i i' Hj Hk; cbn in *; try reflexivity; discriminate. }
  split; [exact Hok|]. pose proof (iget_correct fx 1 1 Hok) as H.
  destruct (iget 1 1 fx) as [ip f'| | |] eqn:E; [|discriminate E..].
  destruct H as (i & i' & _ & _ & _ & Hok' & _). exists ip, f'. split; [reflexivity|exact Hok'].
Defined.
