(* ===== verification/Spinlock.v ===== *)
(** * Spin locks (kernel/spinlock.c)

    [acquire] and [release] on several harts, at the granularity of their
    memory accesses: the test of [holding], the atomic swap, the store of the
    owner, and the final release are separate steps that interleave.  A hart's
    interrupt-enable bit and its [struct cpu] counters belong to it alone. *)

From stdpp Require Import base list gmap strings.
From Stdlib Require Import ZArith Lia.
From S2P Require Import Prelude.
Open Scope Z_scope.

Record spinlock := mk_spinlock { sl_locked : Z; sl_cpu : option nat }.

(** [struct cpu]: nesting depth, saved interrupt state; and [sstatus.SIE]. *)
Record cpu := mk_cpu { c_noff : Z; c_intena : bool; c_sie : bool }.

Record mach := mk_mach { m_cpus : list cpu; m_locks : gmap nat spinlock }.

Definition cpu0 : cpu := mk_cpu 0 false false.
Definition cpu_at (m : mach) (h : nat) : cpu := nth h (m_cpus m) cpu0.
Definition lock_at (m : mach) (lk : nat) : spinlock := default (mk_spinlock 0 None) (m_locks m !! lk).
Definition upd_cpu (h : nat) (f : cpu -> cpu) (m : mach) : mach := mk_mach (alter f h (m_cpus m)) (m_locks m).
Definition set_lock (lk : nat) (l : spinlock) (m : mach) : mach := mk_mach (m_cpus m) (<[lk := l]> (m_locks m)).

Definition initlock (lk : nat) : M mach unit := modifyM (set_lock lk (mk_spinlock 0 None)).

Definition intr_get (h : nat) : M mach bool := getM (fun m => c_sie (cpu_at m h)).
Definition set_sie (h : nat) (b : bool) : M mach unit :=
  modifyM (upd_cpu h (fun c => mk_cpu (c_noff c) (c_intena c) b)).
Definition intr_off (h : nat) : M mach unit := set_sie h false.
Definition intr_on (h : nat) : M mach unit := set_sie h true.

Definition push_off (h : nat) : M mach unit :=
  let! old := intr_get h in
  do! intr_off h in
  let! c := getM (fun m => cpu_at m h) in
  do! (if c_noff c =? 0 then modifyM (upd_cpu h (fun c => mk_cpu (c_noff c) old (c_sie c))) else retM tt) in
  modifyM (upd_cpu h (fun c => mk_cpu (c_noff c + 1) (c_intena c) (c_sie c))).

Definition pop_off (h : nat) : M mach unit :=
  let! i := intr_get h in
  if i then panicM "pop_off - interruptible"
  else
    let! c := getM (fun m => cpu_at m h) in
    if c_noff c <? 1 then panicM "pop_off"
    else
      do! modifyM (upd_cpu h (fun c => mk_cpu (c_noff c - 1) (c_intena c) (c_sie c))) in
      let! c := getM (fun m => cpu_at m h) in
      if (c_noff c =? 0) && c_intena c then intr_on h else retM tt.

Definition holding (h lk : nat) : M mach bool :=
  getM (fun m => negb (sl_locked (lock_at m lk) =? 0) && bool_decide (sl_cpu (lock_at m lk) = Some h)).

(** The steps of [acquire]. *)
Definition acquire_enter (h lk : nat) : M mach unit :=
  do! push_off h in
  let! b := holding h lk in
  if b then panicM "acquire" else retM tt.
(** [__sync_lock_test_and_set(&lk->locked, 1)] *)
Definition test_and_set (lk : nat) : M mach Z :=
  let! l := getM (fun m => lock_at m lk) in
  do! modifyM (set_lock lk (mk_spinlock 1 (sl_cpu l))) in
  retM (sl_locked l).
Definition record_cpu (h lk : nat) : M mach unit :=
  modifyM (fun m => set_lock lk (mk_spinlock (sl_locked (lock_at m lk)) (Some h)) m).

(** A hart that finds the lock taken spins: the caller is suspended. *)
Definition acquire (h lk : nat) : M mach unit :=
  do! acquire_enter h lk in
  let! old := test_and_set lk in
  if negb (old =? 0) then blockM else record_cpu h lk.

(** The steps of [release]. *)
Definition release_enter (h lk : nat) : M mach unit :=
  let! b := holding h lk in
  if negb b then panicM "release"
  else modifyM (fun m => set_lock lk (mk_spinlock (sl_locked (lock_at m lk)) None) m).
Definition release_exit (h lk : nat) : M mach unit :=
  do! modifyM (fun m => set_lock lk (mk_spinlock 0 (sl_cpu (lock_at m lk))) m) in
  pop_off h.
Definition release (h lk : nat) : M mach unit :=
  do! release_enter h lk in
  release_exit h lk.

(** [sched] (kernel/proc.c) up to the switch: [running] is
    [p->state == RUNNING], [lk] is [p->lock]; [intena] is saved across the
    switch and restored after it. *)
Definition sched_enter (h lk : nat) (running : bool) : M mach bool :=
  let! b := holding h lk in
  if negb b then panicM "sched p->lock"
  else
    let! c := getM (fun m => cpu_at m h) in
    if negb (c_noff c =? 1) then panicM "sched locks"
    else if running then panicM "sched running"
    else
      let! i := intr_get h in
      if i then panicM "sched interruptible"
      else retM (c_intena c).
Definition sched_exit (h : nat) (intena : bool) : M mach unit :=
  modifyM (upd_cpu h (fun c => mk_cpu (c_noff c) intena (c_sie c))).

(** ** Interleavings

    Where each hart is in [acquire] or [release], the locks it holds, its
    [push_off]s outside them, and whether interrupts are on when it holds
    nothing. *)
Inductive lpc := PRun | PSpin (lk : nat) | PGot (lk : nat) | PRel (lk : nat).
Record hart := mk_hart { h_pc : lpc; h_held : list nat; h_push : nat; h_sie : bool }.

Definition pc_depth (pc : lpc) : Z := match pc with PRun => 0 | _ => 1 end.
Definition depth (x : hart) : Z := Z.of_nat (h_push x) + Z.of_nat (length (h_held x)) + pc_depth (h_pc x).

Inductive hstep : mach * list hart -> mach * list hart -> Prop :=
  | hs_acquire m hs h x lk m' : hs !! h = Some x -> h_pc x = PRun -> acquire_enter h lk m = Ok tt m' ->
      hstep (m, hs) (m', <[h := mk_hart (PSpin lk) (h_held x) (h_push x) (h_sie x)]> hs)
  | hs_spin m hs h x lk old m' : hs !! h = Some x -> h_pc x = PSpin lk -> test_and_set lk m = Ok old m' -> old <> 0 ->
      hstep (m, hs) (m', hs)
  | hs_got m hs h x lk m' : hs !! h = Some x -> h_pc x = PSpin lk -> test_and_set lk m = Ok 0 m' ->
      hstep (m, hs) (m', <[h := mk_hart (PGot lk) (h_held x) (h_push x) (h_sie x)]> hs)
  | hs_record m hs h x lk m' : hs !! h = Some x -> h_pc x = PGot lk -> record_cpu h lk m = Ok tt m' ->
      hstep (m, hs) (m', <[h := mk_hart PRun (lk :: h_held x) (h_push x) (h_sie x)]> hs)
  | hs_release m hs h x lk m' : hs !! h = Some x -> h_pc x = PRun -> release_enter h lk m = Ok tt m' ->
      hstep (m, hs) (m', <[h := mk_hart (PRel lk) (filter (fun k => k <> lk) (h_held x)) (h_push x) (h_sie x)]> hs)
  | hs_exit m hs h x lk m' : hs !! h = Some x -> h_pc x = PRel lk -> release_exit h lk m = Ok tt m' ->
      hstep (m, hs) (m', <[h := mk_hart PRun (h_held x) (h_push x) (h_sie x)]> hs)
  | hs_push m hs h x m' : hs !! h = Some x -> h_pc x = PRun -> push_off h m = Ok tt m' ->
      hstep (m, hs) (m', <[h := mk_hart PRun (h_held x) (S (h_push x)) (h_sie x)]> hs)
  | hs_pop m hs h x k m' : hs !! h = Some x -> h_pc x = PRun -> h_push x = S k -> pop_off h m = Ok tt m' ->
      hstep (m, hs) (m', <[h := mk_hart PRun (h_held x) k (h_sie x)]> hs)
  | hs_intr m hs h x b m' : hs !! h = Some x -> depth x = 0 -> set_sie h b m = Ok tt m' ->
      hstep (m, hs) (m', <[h := mk_hart PRun [] 0 b]> hs).

(** All locks free, no hart in a critical section. *)
Definition hinit (n : nat) : mach * list hart :=
  (mk_mach (replicate n cpu0) ∅, replicate n (mk_hart PRun [] 0 false)).
