(* ===== verification/SpinlockThms.v ===== *)
(** * Spin locks: mutual exclusion

    An invariant over all interleavings of the steps of [acquire], [release],
    [push_off] and [pop_off]. *)

From stdpp Require Import base list gmap strings relations.
From Stdlib Require Import ZArith Lia.
From S2P Require Import Prelude Spinlock.
Open Scope Z_scope.

(** From the swap that succeeds to the store that frees the lock. *)
Definition owns (x : hart) (lk : nat) : Prop := lk ∈ h_held x \/ h_pc x = PGot lk \/ h_pc x = PRel lk.

Record hart_ok (m : mach) (h : nat) (x : hart) : Prop := {
  ho_cpu : (h < length (m_cpus m))%nat;
  ho_noff : c_noff (cpu_at m h) = depth x;
  ho_off : 0 < depth x -> c_sie (cpu_at m h) = false /\ c_intena (cpu_at m h) = h_sie x;
  ho_on : depth x = 0 -> c_sie (cpu_at m h) = h_sie x;
  ho_nodup : NoDup (h_held x);
  ho_pc : forall lk, lk ∈ h_held x -> h_pc x <> PSpin lk /\ h_pc x <> PGot lk /\ h_pc x <> PRel lk;
}.

Record locks_ok (m : mach) (hs : list hart) : Prop := {
  lo_hart : forall h x, hs !! h = Some x -> hart_ok m h x;
  lo_own : forall lk h x, hs !! h = Some x -> owns x lk -> sl_locked (lock_at m lk) <> 0;
  lo_uniq : forall lk h x h' x', hs !! h = Some x -> hs !! h' = Some x' -> owns x lk -> owns x' lk -> h = h';
  lo_held : forall lk, sl_locked (lock_at m lk) <> 0 -> exists h x, hs !! h = Some x /\ owns x lk;
  lo_cpu : forall lk h x, hs !! h = Some x -> sl_cpu (lock_at m lk) = Some h <-> lk ∈ h_held x;
  lo_range : forall lk h, sl_cpu (lock_at m lk) = Some h -> (h < length hs)%nat;
}.

(** ** The state *)

Lemma cpu_at_upd h g m h' : (h < length (m_cpus m))%nat ->
  cpu_at (upd_cpu h g m) h' = if decide (h' = h) then g (cpu_at m h) else cpu_at m h'.
Proof.
  intros Hh. unfold cpu_at, upd_cpu. cbn [m_cpus]. rewrite !nth_lookup. case_decide as E.
  - subst h'. rewrite list_lookup_alter_eq. by destruct (lookup_lt_is_Some_2 _ _ Hh) as [c ->].
  - by rewrite list_lookup_alter_ne.
Qed.
Lemma lock_at_upd h g m lk : lock_at (upd_cpu h g m) lk = lock_at m lk.
Proof. done. Qed.
Lemma lock_at_set lk l m lk' : lock_at (set_lock lk l m) lk' = if decide (lk' = lk) then l else lock_at m lk'.
Proof.
  unfold lock_at, set_lock. cbn [m_locks]. case_decide; subst; [by rewrite lookup_insert_eq|by rewrite lookup_insert_ne].
Qed.
Lemma cpu_at_set lk l m h : cpu_at (set_lock lk l m) h = cpu_at m h.
Proof. done. Qed.

(** What [push_off] and [pop_off] do to the counters. *)
Definition pushed (c : cpu) : cpu := mk_cpu (c_noff c + 1) (if c_noff c =? 0 then c_sie c else c_intena c) false.
Definition popped (c : cpu) : cpu :=
  mk_cpu (c_noff c - 1) (c_intena c) (if (c_noff c - 1 =? 0) && c_intena c then true else c_sie c).

Lemma upd_cpu_upd h f g m : upd_cpu h f (upd_cpu h g m) = upd_cpu h (f ∘ g) m.
Proof. unfold upd_cpu. cbn [m_cpus m_locks]. by rewrite list_alter_alter_eq. Qed.
Lemma upd_ext h f g m : (h < length (m_cpus m))%nat -> f (cpu_at m h) = g (cpu_at m h) -> upd_cpu h f m = upd_cpu h g m.
Proof.
  intros Hh E. unfold upd_cpu. f_equal. apply list_alter_ext; [|done]. intros c Hc. unfold cpu_at in E.
  by rewrite (nth_lookup_Some _ _ _ _ Hc) in E.
Qed.

Lemma push_off_ok h m : (h < length (m_cpus m))%nat -> push_off h m = Ok tt (upd_cpu h pushed m).
Proof.
  intros Hh. unfold push_off, intr_get, intr_off, set_sie. mrun. rewrite cpu_at_upd, decide_True by done. cbn [c_noff].
  destruct (c_noff (cpu_at m h) =? 0) eqn:E; mrun; unfold modifyM; rewrite ?upd_cpu_upd; f_equal; apply upd_ext; try done; cbn;
    unfold pushed; by rewrite E.
Qed.

Lemma pop_off_ok h m : (h < length (m_cpus m))%nat -> c_sie (cpu_at m h) = false -> 1 <= c_noff (cpu_at m h) ->
  pop_off h m = Ok tt (upd_cpu h popped m).
Proof.
  intros Hh Hs Hn. unfold pop_off, intr_get, intr_on, set_sie. mrun. rewrite Hs. mrun. rewrite (proj2 (Z.ltb_ge _ 1) Hn).
  mrun. rewrite cpu_at_upd, decide_True by done. cbn [c_noff c_intena].
  destruct ((c_noff (cpu_at m h) - 1 =? 0) && c_intena (cpu_at m h)) eqn:E; mrun; unfold modifyM, retM; rewrite ?upd_cpu_upd;
    f_equal; apply upd_ext; try done; cbn; unfold popped; rewrite E; done.
Qed.

Lemma depth_nonneg x : 0 <= depth x.
Proof. unfold depth, pc_depth. destruct (h_pc x); lia. Qed.

(** One more or one less level of nesting. *)
Lemma hart_push m h x x' : hart_ok m h x -> depth x' = depth x + 1 -> h_sie x' = h_sie x -> NoDup (h_held x') ->
  (forall lk, lk ∈ h_held x' -> h_pc x' <> PSpin lk /\ h_pc x' <> PGot lk /\ h_pc x' <> PRel lk) -> hart_ok (upd_cpu h pushed m) h x'.
Proof.
  intros [Hh Hn Hoff Hon _ _] Hd Hs Hnd Hpc. pose proof (depth_nonneg x). split; try done.
  - cbn [upd_cpu m_cpus]. by rewrite length_alter.
  - rewrite cpu_at_upd, decide_True by done. cbn. lia.
  - intros _. rewrite cpu_at_upd, decide_True by done. cbn. split; [done|]. rewrite Hs.
    destruct (Z.eqb_spec (c_noff (cpu_at m h)) 0); [apply Hon; lia|apply Hoff; lia].
  - lia.
Qed.

Lemma hart_pop m h x x' : hart_ok m h x -> depth x = depth x' + 1 -> h_sie x' = h_sie x -> NoDup (h_held x') ->
  (forall lk, lk ∈ h_held x' -> h_pc x' <> PSpin lk /\ h_pc x' <> PGot lk /\ h_pc x' <> PRel lk) -> hart_ok (upd_cpu h popped m) h x'.
Proof.
  intros [Hh Hn Hoff Hon _ _] Hd Hs Hnd Hpc. pose proof (depth_nonneg x'). destruct Hoff as [Hi Ha]; [lia|].
  split; try done.
  - cbn [upd_cpu m_cpus]. by rewrite length_alter.
  - rewrite cpu_at_upd, decide_True by done. cbn. lia.
  - intros Hpos. rewrite cpu_at_upd, decide_True by done. cbn. rewrite Hn, Hd, Hs.
    destruct (Z.eqb_spec (depth x' + 1 - 1) 0); [lia|]. done.
  - intros Hz. rewrite cpu_at_upd, decide_True by done. cbn. rewrite Hn, Hd, Hs, Hz. cbn. rewrite Ha. by destruct (h_sie x).
Qed.

(** Other harts do not notice. *)
Lemma hart_other m h g h' x : hart_ok m h' x -> h' <> h -> (h < length (m_cpus m))%nat -> hart_ok (upd_cpu h g m) h' x.
Proof.
  intros [Hh Hn Hoff Hon Hnd Hpc] Hne Hlt. split; rewrite ?cpu_at_upd, ?decide_False by done; try done.
  cbn [upd_cpu m_cpus]. by rewrite length_alter.
Qed.
Lemma hart_lock m lk l h x : hart_ok m h x -> hart_ok (set_lock lk l m) h x.
Proof. intros []. by split. Qed.

(** A step that changes only the hart's counters. *)
Lemma locks_cpu m hs h g x x' : locks_ok m hs -> hs !! h = Some x -> hart_ok (upd_cpu h g m) h x' ->
  (forall lk, owns x' lk <-> owns x lk) -> (forall lk, lk ∈ h_held x' <-> lk ∈ h_held x) -> locks_ok (upd_cpu h g m) (<[h := x']> hs).
Proof.
  intros [Hh Ho Hu Hl Hc Hr] Hx Hx' Hown Hheld. pose proof (ho_cpu _ _ _ (Hh _ _ Hx)) as Hlt. pose proof (lookup_lt_Some _ _ _ Hx) as Hhs.
  assert (Hold : forall k y, <[h := x']> hs !! k = Some y -> exists y0, hs !! k = Some y0 /\
    (forall lk, owns y lk <-> owns y0 lk) /\ (forall lk, lk ∈ h_held y <-> lk ∈ h_held y0)).
  { intros k y Hk. apply list_lookup_insert_Some in Hk as [(-> & -> & _)|[Hne Hk]]; [by exists x|by exists y]. }
  split.
  - intros k y Hk. apply list_lookup_insert_Some in Hk as [(-> & -> & _)|[Hne Hk]]; [done|]. apply hart_other; [by apply Hh|done|done].
  - intros lk k y Hk Hy. destruct (Hold _ _ Hk) as (y0 & Hk0 & He & _). rewrite lock_at_upd. apply (Ho lk k y0); [done|by apply He].
  - intros lk k y k' y' Hk Hk' Hy Hy'. destruct (Hold _ _ Hk) as (y0 & Hk0 & He & _), (Hold _ _ Hk') as (y1 & Hk1 & He' & _).
    apply (Hu lk k y0 k' y1); [done|done|by apply He|by apply He'].
  - intros lk Hlk. rewrite lock_at_upd in Hlk. destruct (Hl _ Hlk) as (k & y & Hk & Hy). destruct (decide (k = h)) as [->|Hne].
    + exists h, x'. rewrite list_lookup_insert_eq by done. split; [done|]. simplify_eq. by apply Hown.
    + exists k, y. by rewrite list_lookup_insert_ne.
  - intros lk k y Hk. destruct (Hold _ _ Hk) as (y0 & Hk0 & _ & He). rewrite lock_at_upd, He. by apply Hc.
  - intros lk k E. rewrite length_insert. by apply (Hr lk).
Qed.

(** A step that changes one lock, which no other hart owns. *)
Lemma locks_set m hs h x x' lk l : locks_ok m hs -> hs !! h = Some x -> hart_ok (set_lock lk l m) h x' ->
  (forall k, k <> lk -> owns x' k <-> owns x k) -> (forall k, k <> lk -> k ∈ h_held x' <-> k ∈ h_held x) ->
  (forall h' y, h' <> h -> hs !! h' = Some y -> ~ owns y lk) ->
  (sl_locked l <> 0 <-> owns x' lk) -> (sl_cpu l = Some h <-> lk ∈ h_held x') -> (forall h', sl_cpu l = Some h' -> h' = h) ->
  locks_ok (set_lock lk l m) (<[h := x']> hs).
Proof.
  intros [Hh Ho Hu Hl Hc Hr] Hx Hx' Hown Hheld Hothers Hlk1 Hlk2 Hlk3. pose proof (lookup_lt_Some _ _ _ Hx) as Hhs. split.
  - intros k y Hk. apply list_lookup_insert_Some in Hk as [(-> & -> & _)|[Hne Hk]]; [done|]. apply hart_lock. by apply Hh.
  - intros k h' y Hk Hy. rewrite lock_at_set. apply list_lookup_insert_Some in Hk as [(-> & -> & _)|[Hne Hk]]; case_decide as E; subst.
    + by apply Hlk1.
    + apply (Ho k h' x); [done|by apply Hown].
    + exfalso. by apply (Hothers h' y).
    + by apply (Ho k h' y).
  - intros k h1 y1 h2 y2 Hk1 Hk2 Hy1 Hy2.
    apply list_lookup_insert_Some in Hk1 as [(E1 & <- & _)|[Hne1 Hk1]], Hk2 as [(E2 & <- & _)|[Hne2 Hk2]]; subst; try done.
    + destruct (decide (k = lk)) as [->|Hne]; [exfalso; by apply (Hothers h2 y2)|]. apply (Hu k h1 x h2 y2); [done|done|by apply Hown|done].
    + destruct (decide (k = lk)) as [->|Hne]; [exfalso; by apply (Hothers h1 y1)|]. apply (Hu k h1 y1 h2 x); [done|done|done|by apply Hown].
    + by apply (Hu k h1 y1 h2 y2).
  - intros k Hk. rewrite lock_at_set in Hk. case_decide as E.
    + subst k. exists h, x'. rewrite list_lookup_insert_eq by done. split; [done|by apply Hlk1].
    + destruct (Hl _ Hk) as (h' & y & Hy & Hoy). destruct (decide (h' = h)) as [->|Hne].
      * exists h, x'. rewrite list_lookup_insert_eq by done. split; [done|]. simplify_eq. by apply Hown.
      * exists h', y. by rewrite list_lookup_insert_ne.
  - intros k h' y Hk. rewrite lock_at_set. apply list_lookup_insert_Some in Hk as [(-> & -> & _)|[Hne Hk]]; case_decide as E; subst.
    + done.
    + rewrite Hheld by done. by apply Hc.
    + split; [intros E'; by apply Hlk3 in E'|]. intros Hin. exfalso. apply (Hothers h' y); [by intros ->|done|by left].
    + by apply Hc.
  - intros k h' E. rewrite lock_at_set in E. rewrite length_insert. case_decide; [apply Hlk3 in E as ->; done|by apply (Hr k)].
Qed.

(** What [holding] sees of the running hart is exact. *)
Lemma holding_ok m hs h x lk : locks_ok m hs -> hs !! h = Some x ->
  holding h lk m = Ok (bool_decide (lk ∈ h_held x)) m.
Proof.
  intros [_ Ho _ _ Hc _] Hx. unfold holding, getM. f_equal. destruct (decide (lk ∈ h_held x)) as [Hin|Hn].
  - rewrite (bool_decide_true (lk ∈ _)) by done. rewrite (proj2 (Z.eqb_neq _ 0)) by (by apply (Ho lk h x); [|left]).
    rewrite bool_decide_true by (by apply (Hc lk h x)). done.
  - rewrite (bool_decide_false (lk ∈ _)), (bool_decide_false (sl_cpu _ = _)) by (done || by rewrite (Hc lk h x)). apply andb_false_r.
Qed.

Lemma holding_after_push m hs h x lk : locks_ok m hs -> hs !! h = Some x ->
  holding h lk (upd_cpu h pushed m) = Ok (bool_decide (lk ∈ h_held x)) (upd_cpu h pushed m).
Proof. intros Hok Hx. pose proof (holding_ok m hs h x lk Hok Hx) as H. unfold holding, getM in *. rewrite !lock_at_upd. by injection H as ->. Qed.

Lemma acquire_enter_ok m hs h x lk : locks_ok m hs -> hs !! h = Some x ->
  acquire_enter h lk m = if decide (lk ∈ h_held x) then Panic "acquire" else Ok tt (upd_cpu h pushed m).
Proof.
  intros Hok Hx. unfold acquire_enter. mstep (push_off_ok h m (ho_cpu _ _ _ (lo_hart _ _ Hok _ _ Hx))).
  mstep (holding_after_push m hs h x lk Hok Hx). case_decide; [by rewrite bool_decide_true|by rewrite bool_decide_false].
Qed.

Lemma release_enter_ok m hs h x lk : locks_ok m hs -> hs !! h = Some x ->
  release_enter h lk m = if decide (lk ∈ h_held x) then Ok tt (set_lock lk (mk_spinlock (sl_locked (lock_at m lk)) None) m)
    else Panic "release".
Proof.
  intros Hok Hx. unfold release_enter. mstep (holding_ok m hs h x lk Hok Hx).
  case_decide; [by rewrite bool_decide_true|by rewrite bool_decide_false].
Qed.

(** The owner recorded in a lock is the hart that owns it. *)
Lemma cpu_owner m hs h x lk : locks_ok m hs -> hs !! h = Some x -> owns x lk ->
  forall h', sl_cpu (lock_at m lk) = Some h' -> h' = h.
Proof.
  intros Hok Hx Ho h' E. destruct (lookup_lt_is_Some_2 _ _ (lo_range _ _ Hok _ _ E)) as [y Hy].
  apply (lo_uniq _ _ Hok lk h' y h x); try done. left. by apply (lo_cpu _ _ Hok lk h' y).
Qed.
Lemma others_free m hs h x lk : locks_ok m hs -> hs !! h = Some x -> owns x lk ->
  forall h' y, h' <> h -> hs !! h' = Some y -> ~ owns y lk.
Proof. intros Hok Hx Ho h' y Hne Hy Hoy. apply Hne. by apply (lo_uniq _ _ Hok lk h' y h x). Qed.

Lemma release_exit_ok m hs h x lk : locks_ok m hs -> hs !! h = Some x -> h_pc x = PRel lk ->
  let m1 := set_lock lk (mk_spinlock 0 (sl_cpu (lock_at m lk))) m in
  release_exit h lk m = Ok tt (upd_cpu h popped m1) /\
  locks_ok (upd_cpu h popped m1) (<[h := mk_hart PRun (h_held x) (h_push x) (h_sie x)]> hs).
Proof.
  intros Hok Hx Hpc m1. pose proof (lo_hart _ _ Hok _ _ Hx) as Hh. pose proof Hh as [Hlt Hn Hoff Hon Hnd Hp].
  assert (Hd : 0 < depth x) by (unfold depth; rewrite Hpc; cbn; lia). destruct (Hoff Hd) as [Hs _].
  split; [unfold release_exit; mrun; apply pop_off_ok; [done|done|]; change (1 <= c_noff (cpu_at m h)); lia|].
  set (x1 := mk_hart (PSpin lk) (h_held x) (h_push x) (h_sie x)).
  assert (Hnh : lk ∉ h_held x) by (intros Hin; by apply Hp in Hin as (_ & _ & ?)).
  assert (Hx1 : hart_ok m1 h x1).
  { apply hart_lock. unfold depth in *. rewrite Hpc in *. split; try done. intros k Hk. split; [|done]. intros [= ->]. done. }
  assert (Hox : owns x lk) by (by right; right).
  assert (Hcn : sl_cpu (lock_at m lk) <> Some h) by (by rewrite (lo_cpu _ _ Hok lk h x)).
  assert (Hl1 : locks_ok m1 (<[h := x1]> hs)).
  { apply (locks_set m hs h x); try done.
    - intros k Hk. unfold owns, x1. rewrite Hpc. cbn. naive_solver.
    - by apply (others_free m hs h x).
    - cbn. unfold owns, x1. cbn. naive_solver.
    - by apply (cpu_owner m hs h x). }
  rewrite <- (list_insert_insert_eq hs h (mk_hart PRun (h_held x) (h_push x) (h_sie x)) x1).
  apply (locks_cpu m1 _ h popped x1); try done.
  - apply list_lookup_insert_eq. by apply lookup_lt_Some in Hx.
  - apply (hart_pop m1 h x1); try done. unfold depth. cbn. lia.
  - intros k. unfold owns. cbn. naive_solver.
Qed.

Lemma length_filter_ne (l : list nat) a : NoDup l -> a ∈ l -> length l = S (length (filter (fun k => k <> a) l)).
Proof.
  induction 1 as [|x l Hx Hnd IH]; [by intros ?%not_elem_of_nil|]. intros [->|Hin]%elem_of_cons.
  - rewrite filter_cons_False by (by intros ?). cbn. f_equal. clear -Hx. induction l as [|y l IH]; [done|].
    rewrite filter_cons_True by (intros ->; apply Hx; left). cbn. f_equal. apply IH. intros Hin. apply Hx. by right.
  - rewrite filter_cons_True by (by intros ->). cbn. by rewrite IH.
Qed.

Section Steps.
Context (m : mach) (hs : list hart) (Hok : locks_ok m hs) (h : nat) (x : hart) (Hx : hs !! h = Some x) (lk : nat).

Lemma step_spin old m' : test_and_set lk m = Ok old m' -> old <> 0 -> locks_ok m' hs.
Proof.
  unfold test_and_set. mrun. intros [= <- <-] Hold. destruct (lo_held _ _ Hok _ Hold) as (h' & y & Hy & Hoy).
  rewrite <- (list_insert_id hs h' y Hy). apply (locks_set m hs h' y); try done; cbn [sl_locked sl_cpu].
  - by apply hart_lock, (lo_hart _ _ Hok).
  - by apply (others_free m hs h' y).
  - by apply (lo_cpu _ _ Hok).
  - by apply (cpu_owner m hs h' y).
Qed.

Lemma step_got m' : h_pc x = PSpin lk -> test_and_set lk m = Ok 0 m' ->
  locks_ok m' (<[h := mk_hart (PGot lk) (h_held x) (h_push x) (h_sie x)]> hs).
Proof.
  intros Hpc. unfold test_and_set. mrun. intros [= Hz <-].
  assert (Hfree : forall h' y, hs !! h' = Some y -> ~ owns y lk) by (intros h' y Hy Hoy; by apply (lo_own _ _ Hok lk h' y)).
  assert (Hnc : forall h', sl_cpu (lock_at m lk) <> Some h').
  { intros h' Ec. destruct (lookup_lt_is_Some_2 _ _ (lo_range _ _ Hok _ _ Ec)) as [y Hy]. apply (Hfree h' y Hy). left. by apply (lo_cpu _ _ Hok lk h' y). }
  assert (Hnh : lk ∉ h_held x) by (intros Hin; by apply (Hfree h x Hx); left).
  destruct (lo_hart _ _ Hok _ _ Hx) as [Hlt Hn Hoff Hon Hnd Hp].
  apply (locks_set m hs h x); try done; cbn [sl_locked sl_cpu].
  - apply hart_lock. unfold depth in *. rewrite Hpc in *. split; try done. cbn. intros k Hk. split; [done|]. split; [intros [= ->]; done|done].
  - intros k Hk. unfold owns. rewrite Hpc. cbn. naive_solver.
  - intros h' y _ Hy. by apply Hfree in Hy.
  - split; [intros _; right; left; done|done].
  - cbn. split; [intros Ec; by apply Hnc in Ec|done].
  - intros h' Ec. by apply Hnc in Ec.
Qed.

Lemma step_record m' : h_pc x = PGot lk -> record_cpu h lk m = Ok tt m' ->
  locks_ok m' (<[h := mk_hart PRun (lk :: h_held x) (h_push x) (h_sie x)]> hs).
Proof.
  intros Hpc. unfold record_cpu, modifyM. intros [= <-]. assert (Hox : owns x lk) by (by right; left).
  destruct (lo_hart _ _ Hok _ _ Hx) as [Hlt Hn Hoff Hon Hnd Hp].
  assert (Hnh : lk ∉ h_held x) by (intros Hin; by apply Hp in Hin as (_ & ? & _)).
  apply (locks_set m hs h x); try done; cbn [sl_locked sl_cpu].
  - apply hart_lock. unfold depth in *. rewrite Hpc in *. cbn in *.
    split; unfold depth; cbn; try done; try lia; [intros; apply Hoff; lia|by constructor].
  - intros k Hk. unfold owns. rewrite Hpc. cbn. set_solver.
  - intros k Hk. cbn. set_solver.
  - by apply (others_free m hs h x).
  - split; [intros _; left; left|intros _; by apply (lo_own _ _ Hok lk h x)].
  - split; [intros _; left|done].
  - by intros h' [= ->].
Qed.

Lemma step_release m' : h_pc x = PRun -> release_enter h lk m = Ok tt m' ->
  locks_ok m' (<[h := mk_hart (PRel lk) (filter (fun k => k <> lk) (h_held x)) (h_push x) (h_sie x)]> hs).
Proof.
  intros Hpc E. rewrite (release_enter_ok m hs h x lk Hok Hx) in E. case_decide as Hin; [|done]. injection E as <-.
  assert (Hox : owns x lk) by (by left). destruct (lo_hart _ _ Hok _ _ Hx) as [Hlt Hn Hoff Hon Hnd Hp].
  pose proof (length_filter_ne _ lk Hnd Hin) as Hlen.
  apply (locks_set m hs h x); try done; cbn [sl_locked sl_cpu].
  - apply hart_lock. unfold depth in *. rewrite Hpc in *. cbn in *. split; unfold depth; cbn; try done; try lia.
    + intros _. apply Hoff. lia.
    + by apply NoDup_filter.
    + intros k Hk. apply list_elem_of_filter in Hk as [Hk _]. split; [done|]. split; [done|]. by intros [= ->].
  - intros k Hk. unfold owns. rewrite Hpc. cbn. rewrite list_elem_of_filter. naive_solver.
  - intros k Hk. cbn. rewrite list_elem_of_filter. naive_solver.
  - by apply (others_free m hs h x).
  - split; [intros _; right; right; done|intros _; by apply (lo_own _ _ Hok lk h x)].
  - cbn. rewrite list_elem_of_filter. naive_solver.
Qed.

Lemma step_intr b m' : depth x = 0 -> set_sie h b m = Ok tt m' -> locks_ok m' (<[h := mk_hart PRun [] 0 b]> hs).
Proof.
  intros Hd. unfold set_sie, modifyM. intros [= <-]. destruct (lo_hart _ _ Hok _ _ Hx) as [Hlt Hn Hoff Hon Hnd Hp].
  assert (Hh : h_pc x = PRun /\ h_held x = []).
  { unfold depth, pc_depth in Hd. destruct (h_pc x), (h_held x); cbn in Hd; try lia. done. }
  destruct Hh as [Hpc Hh]. apply (locks_cpu m hs h _ x); try done.
  - split.
    + cbn. by rewrite length_alter.
    + rewrite cpu_at_upd, decide_True by done. change (c_noff (cpu_at m h) = 0). lia.
    + unfold depth. cbn. lia.
    + by rewrite cpu_at_upd, decide_True by done.
    + constructor.
    + by intros k ?%not_elem_of_nil.
  - intros k. unfold owns. rewrite Hpc, Hh. cbn. naive_solver.
  - intros k. by rewrite Hh.
Qed.
End Steps.

Lemma locks_step c c' : hstep c c' -> locks_ok c.1 c.2 -> locks_ok c'.1 c'.2.
Proof.
  intros Hst. destruct Hst as [m hs h x lk m' Hx Hpc E|m hs h x lk old m' Hx Hpc E Hold|m hs h x lk m' Hx Hpc E|m hs h x lk m' Hx Hpc E
    |m hs h x lk m' Hx Hpc E|m hs h x lk m' Hx Hpc E|m hs h x m' Hx Hpc E|m hs h x k m' Hx Hpc Hk E|m hs h x b m' Hx Hd E]; cbn [fst snd]; intros Hok.
  - rewrite (acquire_enter_ok m hs h x lk Hok Hx) in E. case_decide as Hin; [done|]. injection E as <-.
    pose proof (lo_hart _ _ Hok _ _ Hx) as Hh. apply (locks_cpu m hs h pushed x); try done.
    + apply (hart_push m h x); try done; [unfold depth; rewrite Hpc; cbn; lia|exact (ho_nodup _ _ _ Hh)|]. cbn. intros k Hk. split; [intros [= ->]; done|done].
    + intros k. unfold owns. rewrite Hpc. cbn. naive_solver.
  - by eapply step_spin.
  - by eapply step_got.
  - by eapply step_record.
  - by eapply step_release.
  - destruct (release_exit_ok m hs h x lk Hok Hx Hpc) as [E' Hok']. rewrite E' in E. injection E as <-. exact Hok'.
  - pose proof (lo_hart _ _ Hok _ _ Hx) as Hh. rewrite push_off_ok in E by apply Hh. injection E as <-. apply (locks_cpu m hs h pushed x); try done.
    + apply (hart_push m h x); try done; [unfold depth; rewrite Hpc; cbn; lia|exact (ho_nodup _ _ _ Hh)].
    + intros k. unfold owns. rewrite Hpc. cbn. naive_solver.
  - pose proof (lo_hart _ _ Hok _ _ Hx) as Hh.
    assert (Hdx : 0 < depth x) by (unfold depth; rewrite Hk, Hpc; cbn; lia). destruct (ho_off _ _ _ Hh Hdx) as [Hs _].
    rewrite (pop_off_ok h m (ho_cpu _ _ _ Hh) Hs ltac:(rewrite (ho_noff _ _ _ Hh); lia)) in E. injection E as <-. apply (locks_cpu m hs h popped x); try done.
    + apply (hart_pop m h x); try done; [unfold depth; rewrite Hpc, Hk; cbn; lia|exact (ho_nodup _ _ _ Hh)].
    + intros lk. unfold owns. rewrite Hpc. cbn. naive_solver.
  - by eapply step_intr.
Qed.

Lemma sched_enter_ok m hs h x lk running : locks_ok m hs -> hs !! h = Some x -> h_pc x = PRun ->
  (exists i, sched_enter h lk running m = Ok i m) <-> h_held x = [lk] /\ h_push x = 0%nat /\ running = false.
Proof.
  intros Hok Hx Hpc. destruct (lo_hart _ _ Hok _ _ Hx) as [_ Hn Hoff _ _ _]. unfold sched_enter, intr_get.
  mstep (holding_ok m hs h x lk Hok Hx). unfold depth in *. rewrite Hpc in *. cbn [pc_depth] in *.
  destruct (decide (lk ∈ h_held x)) as [Hin|Hnin].
  2: { rewrite bool_decide_false by done. split; [intros [i Hi]; done|]. intros (E & _). exfalso. apply Hnin. rewrite E. left. }
  rewrite bool_decide_true by done. cbn [negb]. mrun. rewrite Hn. destruct (Z.eqb_spec (Z.of_nat (h_push x) + Z.of_nat (length (h_held x)) + 0) 1) as [E|E]; cbn [negb].
  - destruct Hoff as [Hs _]; [lia|]. destruct running; [split; [by intros [i ?]|naive_solver]|]. mrun. rewrite Hs. split; [intros _|by eexists].
    destruct (h_held x) as [|a [|b l]]; cbn in *; [by apply not_elem_of_nil in Hin| |lia].
    apply list_elem_of_singleton in Hin as ->. split; [done|]. split; [lia|done].
  - split; [by intros [i ?]|]. intros (Eh & Ep & _). rewrite Eh, Ep in E. cbn in E. lia.
Qed.

Lemma hinit_ok n : locks_ok (hinit n).1 (hinit n).2.
Proof.
  unfold hinit. cbn [fst snd].
  assert (Hr : forall h x, replicate n (mk_hart PRun [] 0 false) !! h = Some x -> (h < n)%nat /\ x = mk_hart PRun [] 0 false).
  { intros h x Hx. apply lookup_replicate in Hx as [-> Hlt]. done. }
  split.
  - intros h x Hx. apply Hr in Hx as [Hlt ->]. assert (Hc : cpu_at (mk_mach (replicate n cpu0) ∅) h = cpu0).
    { unfold cpu_at. cbn [m_cpus]. rewrite nth_lookup. by rewrite lookup_replicate_2. }
    split; rewrite ?Hc; cbn [h_held h_pc]; [cbn; by rewrite length_replicate|done|done|done|apply NoDup_nil_2|by intros lk ?%not_elem_of_nil].
  - intros lk h x Hx Ho. apply Hr in Hx as [_ ->]. unfold owns in Ho. cbn in Ho. destruct Ho as [?%not_elem_of_nil|[?|?]]; done.
  - intros lk h x h' x' Hx _ Ho. apply Hr in Hx as [_ ->]. unfold owns in Ho. cbn in Ho. destruct Ho as [?%not_elem_of_nil|[?|?]]; done.
  - intros lk Hlk. unfold lock_at in Hlk. cbn in Hlk. by rewrite lookup_empty in Hlk.
  - intros lk h x Hx. apply Hr in Hx as [_ ->]. unfold lock_at. cbn. rewrite lookup_empty. cbn. set_solver.
  - intros lk h. unfold lock_at. cbn. by rewrite lookup_empty.
Qed.


