(* ===== verification/Kernel.v ===== *)
(** * The state of the kernel

    The process table, the file table, the pipes, the file system and physical
    memory together, for the code that runs on behalf of a process: [proc.c],
    [pipe.c], [file.c], [sysfile.c], [exec.c], [sysproc.c] and [syscall.c].
    [k_cur] is the process the code runs for ([myproc()]).  A [struct proc *]
    is an index into [proc[]], a [struct file *] an index into the file table, a
    [struct pipe *] the address of the page that holds it.  A process's
    trapframe is in its page of physical memory.

    The code between [acquire] and [release] is one atomic step, so the locks
    do not appear.  A routine that goes to sleep stops there. *)

From stdpp Require Import base list gmap strings.
From Stdlib Require Import ZArith Lia.
From S2P Require Import Prelude Mem Layout Kalloc Vm Sleeplock FsFormat Store Fs.
Open Scope Z_scope.

(** ** kernel/proc.h *)

Inductive procstate := UNUSED | USED | SLEEPING | RUNNABLE | RUNNING | ZOMBIE.
#[export] Instance procstate_eq_dec : EqDecision procstate.
Proof. solve_decision. Defined.

(** What processes sleep on: the address of a process, of [ticks], of the
    counters of a pipe, of the console's read index, of [uart_tx_r]. *)
Inductive chan := ChProc (i : nat) | ChTicks | ChPipeRead (pi : Z) | ChPipeWrite (pi : Z) | ChConsole | ChUart.
#[export] Instance chan_eq_dec : EqDecision chan.
Proof. solve_decision. Defined.

(** [struct context]: [ra], [sp], and the callee-saved [s0 .. s11]. *)
Record context := mk_context { ctx_ra : Z; ctx_sp : Z; ctx_s : list Z }.
Definition context0 : context := mk_context 0 0 (replicate 12 0).

Record proc := mk_proc {
  p_state : procstate;
  p_chan : option chan;
  p_killed : Z;
  p_xstate : Z;
  p_pid : Z;
  p_parent : option nat;
  p_kstack : Z;
  p_sz : Z;
  p_pagetable : Z;
  p_trapframe : Z;
  p_context : context;
  p_ofile : list (option nat);
  p_cwd : option nat;
  p_name : list Z;
  p_priority : Z;
}.

Definition set_p_state (v : procstate) (p : proc) : proc := mk_proc v (p_chan p) (p_killed p) (p_xstate p) (p_pid p) (p_parent p) (p_kstack p) (p_sz p) (p_pagetable p) (p_trapframe p) (p_context p) (p_ofile p) (p_cwd p) (p_name p) (p_priority p).
Definition set_p_chan (v : option chan) (p : proc) : proc := mk_proc (p_state p) v (p_killed p) (p_xstate p) (p_pid p) (p_parent p) (p_kstack p) (p_sz p) (p_pagetable p) (p_trapframe p) (p_context p) (p_ofile p) (p_cwd p) (p_name p) (p_priority p).
Definition set_p_killed (v : Z) (p : proc) : proc := mk_proc (p_state p) (p_chan p) v (p_xstate p) (p_pid p) (p_parent p) (p_kstack p) (p_sz p) (p_pagetable p) (p_trapframe p) (p_context p) (p_ofile p) (p_cwd p) (p_name p) (p_priority p).
Definition set_p_xstate (v : Z) (p : proc) : proc := mk_proc (p_state p) (p_chan p) (p_killed p) v (p_pid p) (p_parent p) (p_kstack p) (p_sz p) (p_pagetable p) (p_trapframe p) (p_context p) (p_ofile p) (p_cwd p) (p_name p) (p_priority p).
Definition set_p_pid (v : Z) (p : proc) : proc := mk_proc (p_state p) (p_chan p) (p_killed p) (p_xstate p) v (p_parent p) (p_kstack p) (p_sz p) (p_pagetable p) (p_trapframe p) (p_context p) (p_ofile p) (p_cwd p) (p_name p) (p_priority p).
Definition set_p_parent (v : option nat) (p : proc) : proc := mk_proc (p_state p) (p_chan p) (p_killed p) (p_xstate p) (p_pid p) v (p_kstack p) (p_sz p) (p_pagetable p) (p_trapframe p) (p_context p) (p_ofile p) (p_cwd p) (p_name p) (p_priority p).
Definition set_p_kstack (v : Z) (p : proc) : proc := mk_proc (p_state p) (p_chan p) (p_killed p) (p_xstate p) (p_pid p) (p_parent p) v (p_sz p) (p_pagetable p) (p_trapframe p) (p_context p) (p_ofile p) (p_cwd p) (p_name p) (p_priority p).
Definition set_p_sz (v : Z) (p : proc) : proc := mk_proc (p_state p) (p_chan p) (p_killed p) (p_xstate p) (p_pid p) (p_parent p) (p_kstack p) v (p_pagetable p) (p_trapframe p) (p_context p) (p_ofile p) (p_cwd p) (p_name p) (p_priority p).
Definition set_p_pagetable (v : Z) (p : proc) : proc := mk_proc (p_state p) (p_chan p) (p_killed p) (p_xstate p) (p_pid p) (p_parent p) (p_kstack p) (p_sz p) v (p_trapframe p) (p_context p) (p_ofile p) (p_cwd p) (p_name p) (p_priority p).
Definition set_p_trapframe (v : Z) (p : proc) : proc := mk_proc (p_state p) (p_chan p) (p_killed p) (p_xstate p) (p_pid p) (p_parent p) (p_kstack p) (p_sz p) (p_pagetable p) v (p_context p) (p_ofile p) (p_cwd p) (p_name p) (p_priority p).
Definition set_p_context (v : context) (p : proc) : proc := mk_proc (p_state p) (p_chan p) (p_killed p) (p_xstate p) (p_pid p) (p_parent p) (p_kstack p) (p_sz p) (p_pagetable p) (p_trapframe p) v (p_ofile p) (p_cwd p) (p_name p) (p_priority p).
Definition set_p_ofile (v : list (option nat)) (p : proc) : proc := mk_proc (p_state p) (p_chan p) (p_killed p) (p_xstate p) (p_pid p) (p_parent p) (p_kstack p) (p_sz p) (p_pagetable p) (p_trapframe p) (p_context p) v (p_cwd p) (p_name p) (p_priority p).
Definition set_p_cwd (v : option nat) (p : proc) : proc := mk_proc (p_state p) (p_chan p) (p_killed p) (p_xstate p) (p_pid p) (p_parent p) (p_kstack p) (p_sz p) (p_pagetable p) (p_trapframe p) (p_context p) (p_ofile p) v (p_name p) (p_priority p).
Definition set_p_name (v : list Z) (p : proc) : proc := mk_proc (p_state p) (p_chan p) (p_killed p) (p_xstate p) (p_pid p) (p_parent p) (p_kstack p) (p_sz p) (p_pagetable p) (p_trapframe p) (p_context p) (p_ofile p) (p_cwd p) v (p_priority p).
Definition set_p_priority (v : Z) (p : proc) : proc := mk_proc (p_state p) (p_chan p) (p_killed p) (p_xstate p) (p_pid p) (p_parent p) (p_kstack p) (p_sz p) (p_pagetable p) (p_trapframe p) (p_context p) (p_ofile p) (p_cwd p) (p_name p) v.

(** Offsets of the fields of [struct trapframe]. *)
Definition TF_kernel_satp : Z := 0.
Definition TF_kernel_sp : Z := 8.
Definition TF_kernel_trap : Z := 16.
Definition TF_epc : Z := 24.
Definition TF_kernel_hartid : Z := 32.
Definition TF_sp : Z := 48.
Definition TF_a0 : Z := 112.
Definition TF_a1 : Z := 120.
Definition TF_a2 : Z := 128.
Definition TF_a3 : Z := 136.
Definition TF_a4 : Z := 144.
Definition TF_a5 : Z := 152.
Definition TF_a7 : Z := 168.
Definition sizeof_trapframe : Z := 288.

(** ** kernel/file.h, kernel/pipe.c *)

Inductive ftype := FD_NONE | FD_PIPE | FD_INODE | FD_DEVICE.
#[export] Instance ftype_eq_dec : EqDecision ftype.
Proof. solve_decision. Defined.

Record file := mk_file {
  f_type : ftype;
  f_ref : Z;
  f_readable : Z;
  f_writable : Z;
  f_pipe : Z;
  f_ip : nat;
  f_off : Z;
  f_major : Z;
}.

Definition set_f_type (v : ftype) (f : file) : file := mk_file v (f_ref f) (f_readable f) (f_writable f) (f_pipe f) (f_ip f) (f_off f) (f_major f).
Definition set_f_ref (v : Z) (f : file) : file := mk_file (f_type f) v (f_readable f) (f_writable f) (f_pipe f) (f_ip f) (f_off f) (f_major f).
Definition set_f_readable (v : Z) (f : file) : file := mk_file (f_type f) (f_ref f) v (f_writable f) (f_pipe f) (f_ip f) (f_off f) (f_major f).
Definition set_f_writable (v : Z) (f : file) : file := mk_file (f_type f) (f_ref f) (f_readable f) v (f_pipe f) (f_ip f) (f_off f) (f_major f).
Definition set_f_pipe (v : Z) (f : file) : file := mk_file (f_type f) (f_ref f) (f_readable f) (f_writable f) v (f_ip f) (f_off f) (f_major f).
Definition set_f_ip (v : nat) (f : file) : file := mk_file (f_type f) (f_ref f) (f_readable f) (f_writable f) (f_pipe f) v (f_off f) (f_major f).
Definition set_f_off (v : Z) (f : file) : file := mk_file (f_type f) (f_ref f) (f_readable f) (f_writable f) (f_pipe f) (f_ip f) v (f_major f).
Definition set_f_major (v : Z) (f : file) : file := mk_file (f_type f) (f_ref f) (f_readable f) (f_writable f) (f_pipe f) (f_ip f) (f_off f) v.

Definition PIPESIZE : Z := 512.
Record pipe := mk_pipe { pp_data : list Z; pp_nread : Z; pp_nwrite : Z; pp_readopen : Z; pp_writeopen : Z }.

(** Entries of zeroed tables. *)
Definition proc0 : proc :=
  mk_proc UNUSED None 0 0 0 None 0 0 0 0 context0 (replicate (Z.to_nat NOFILE) None) None (replicate 16 0) 0.
Definition file0 : file := mk_file FD_NONE 0 0 0 0 0 0 0.
Definition pipe0 : pipe := mk_pipe (replicate (Z.to_nat PIPESIZE) 0) 0 0 0 0.

Section Kernel.
(** [S] is the store under the file system, [Dv] the state of the devices
    behind [devsw]. *)
Context {S Dv : Type}.

Record kstate := mk_k {
  k_mem : kmem;
  k_fs : fstate (S := S);
  k_ftable : list file;
  k_pipes : gmap Z pipe;
  k_procs : list proc;
  k_nextpid : Z;
  k_init : option nat;
  k_cur : nat;
  k_ticks : Z;
  k_dev : Dv;
}.

Definition set_k_mem (v : kmem) (k : kstate) : kstate := mk_k v (k_fs k) (k_ftable k) (k_pipes k) (k_procs k) (k_nextpid k) (k_init k) (k_cur k) (k_ticks k) (k_dev k).
Definition set_k_fs (v : fstate (S := S)) (k : kstate) : kstate := mk_k (k_mem k) v (k_ftable k) (k_pipes k) (k_procs k) (k_nextpid k) (k_init k) (k_cur k) (k_ticks k) (k_dev k).
Definition set_k_ftable (v : list file) (k : kstate) : kstate := mk_k (k_mem k) (k_fs k) v (k_pipes k) (k_procs k) (k_nextpid k) (k_init k) (k_cur k) (k_ticks k) (k_dev k).
Definition set_k_pipes (v : gmap Z pipe) (k : kstate) : kstate := mk_k (k_mem k) (k_fs k) (k_ftable k) v (k_procs k) (k_nextpid k) (k_init k) (k_cur k) (k_ticks k) (k_dev k).
Definition set_k_procs (v : list proc) (k : kstate) : kstate := mk_k (k_mem k) (k_fs k) (k_ftable k) (k_pipes k) v (k_nextpid k) (k_init k) (k_cur k) (k_ticks k) (k_dev k).
Definition set_k_nextpid (v : Z) (k : kstate) : kstate := mk_k (k_mem k) (k_fs k) (k_ftable k) (k_pipes k) (k_procs k) v (k_init k) (k_cur k) (k_ticks k) (k_dev k).
Definition set_k_init (v : option nat) (k : kstate) : kstate := mk_k (k_mem k) (k_fs k) (k_ftable k) (k_pipes k) (k_procs k) (k_nextpid k) v (k_cur k) (k_ticks k) (k_dev k).
Definition set_k_cur (v : nat) (k : kstate) : kstate := mk_k (k_mem k) (k_fs k) (k_ftable k) (k_pipes k) (k_procs k) (k_nextpid k) (k_init k) v (k_ticks k) (k_dev k).
Definition set_k_ticks (v : Z) (k : kstate) : kstate := mk_k (k_mem k) (k_fs k) (k_ftable k) (k_pipes k) (k_procs k) (k_nextpid k) (k_init k) (k_cur k) v (k_dev k).
Definition set_k_dev (v : Dv) (k : kstate) : kstate := mk_k (k_mem k) (k_fs k) (k_ftable k) (k_pipes k) (k_procs k) (k_nextpid k) (k_init k) (k_cur k) (k_ticks k) v.

(** Running the code of a component. *)
Definition Mem {A} (m : M kmem A) : M kstate A := zoomM k_mem set_k_mem m.
Definition proc_at (k : kstate) (i : nat) : proc := nth i (k_procs k) proc0.
Definition file_at (k : kstate) (f : nat) : file := nth f (k_ftable k) file0.
Definition pipe_at (k : kstate) (pi : Z) : pipe := default pipe0 (k_pipes k !! pi).

Definition getp {A} (i : nat) (g : proc -> A) : M kstate A := getM (fun k => g (proc_at k i)).
Definition setp (i : nat) (g : proc -> proc) : M kstate unit := modifyM (fun k => set_k_procs (alter g i (k_procs k)) k).
Definition getf {A} (f : nat) (g : file -> A) : M kstate A := getM (fun k => g (file_at k f)).
Definition setf (f : nat) (g : file -> file) : M kstate unit := modifyM (fun k => set_k_ftable (alter g f (k_ftable k)) k).
Definition getpipe {A} (pi : Z) (g : pipe -> A) : M kstate A := getM (fun k => g (pipe_at k pi)).
Definition setpipe (pi : Z) (g : pipe -> pipe) : M kstate unit :=
  modifyM (fun k => set_k_pipes (<[pi := g (pipe_at k pi)]> (k_pipes k)) k).

Definition myproc : M kstate nat := getM k_cur.
(** A field of the running process. *)
Definition my {A} (g : proc -> A) : M kstate A := getM (fun k => g (proc_at k (k_cur k))).

(** The file system, run by the current process. *)
Definition fs_of (k : kstate) : fstate (S := S) :=
  mk_fs (fstore (k_fs k)) (fsb (k_fs k)) (itable (k_fs k)) (p_pid (proc_at k (k_cur k))).
Definition FS {A} (m : M (fstate (S := S)) A) : M kstate A := zoomM fs_of set_k_fs m.
(** The file system and memory together, for [readi] and [writei]. *)
Definition FSMem {A} (m : M (fstate (S := S) * kmem) A) : M kstate A :=
  zoomM (fun k => (fs_of k, k_mem k)) (fun p k => set_k_mem (snd p) (set_k_fs (fst p) k)) m.

(** Fields of the trapframe at physical address [tf]. *)
Definition tf_get (tf off : Z) : M kstate Z := Mem (getM (fun m => load64 (ram m) (tf + off))).
Definition tf_set (tf off v : Z) : M kstate unit := Mem (set_ram (fun m => store64 m (tf + off) v)).

(** ** Copying to and from user or kernel memory *)

(** [either_copyout(user_dst, dst, src, len)] on memory; [pt] is the page table
    of the running process. *)
Definition mem_copyout (pt : Z) (user_dst : bool) (dst : Z) (src : list Z) : M kmem Z :=
  if user_dst then copyout pt dst src
  else do! set_ram (fun m => mwrite m dst src) in retM 0.
Definition either_copyout (user_dst : bool) (dst : Z) (src : list Z) : M kstate Z :=
  let! pt := my p_pagetable in
  Mem (mem_copyout pt user_dst dst src).

(** [either_copyin(dst, user_src, src, len)]: the bytes stored and the result. *)
Definition mem_copyin (pt : Z) (user_src : bool) (src len : Z) : M kmem (list Z * Z) :=
  if user_src then
    let! '(r, bs) := copyin pt src len in
    retM (bs, r)
  else
    let! bs := getM (fun k => mread (ram k) src (Z.to_nat len)) in
    retM (bs, 0).
Definition either_copyin (user_src : bool) (src len : Z) : M kstate (list Z * Z) :=
  let! pt := my p_pagetable in
  Mem (mem_copyin pt user_src src len).
End Kernel.
Arguments kstate : clear implicits.
