(* ===== verification/Sched.v ===== *)
(** * Processes: sleeping, waking, scheduling (kernel/proc.c) *)

From stdpp Require Import base list gmap strings.
From Stdlib Require Import ZArith Lia.
From S2P Require Import Prelude Mem Layout Kalloc Vm Sleeplock FsFormat Store Fs Kernel.
Open Scope Z_scope.


(** A routine that may go to sleep: it returned, or it is asleep with the
    values of its local variables, from which it continues once woken. *)
Inductive progress (L A : Type) := Asleep (l : L) | Done (a : A).
Arguments Asleep {L A} _.
Arguments Done {L A} _.

Section Sched.
Context {S Dv : Type}.
Local Abbreviation K := (kstate S Dv).

Definition nproc : nat := Z.to_nat NPROC.

Definition procinit : M K unit :=
  for_each (seq 0 nproc) (fun i => setp i (set_p_kstack (KSTACK (Z.of_nat i)))).

Definition allocpid : M K Z :=
  let! pid := getM k_nextpid in
  do! modifyM (fun k => set_k_nextpid (s32 (k_nextpid k + 1)) k) in
  retM pid.

(** [sleep(chan, lk)] up to the switch to the scheduler, and what it does when
    it runs again. *)
Definition sleep (c : chan) : M K unit :=
  let! p := myproc in
  do! setp p (set_p_chan (Some c)) in
  setp p (set_p_state SLEEPING).
Definition wake_exit : M K unit :=
  let! p := myproc in
  setp p (set_p_chan None).

Definition wakeup (c : chan) : M K unit :=
  for_each (seq 0 nproc) (fun i =>
    let! me := myproc in
    if decide (i = me) then retM tt
    else
      let! p := getp i id in
      if bool_decide (p_state p = SLEEPING) && bool_decide (p_chan p = Some c)
      then setp i (set_p_state RUNNABLE) else retM tt).

(** The loop of [kill]. *)
Fixpoint kill_loop (idx : list nat) (pid : Z) : M K Z :=
  match idx with
  | [] => retM (-1)
  | i :: idx =>
      let! p := getp i id in
      if p_pid p =? pid then
        do! setp i (set_p_killed 1) in
        do! (if bool_decide (p_state p = SLEEPING) then setp i (set_p_state RUNNABLE) else retM tt) in
        retM 0
      else kill_loop idx pid
  end.
Definition kill (pid : Z) : M K Z := kill_loop (seq 0 nproc) pid.

(** [yield] up to the switch. *)
Definition yield : M K unit :=
  let! p := myproc in
  setp p (set_p_state RUNNABLE).

(** The body of the scheduler's loop up to the switch: is process [i] run? *)
Definition dispatch (i : nat) : M K bool :=
  let! p := getp i id in
  if bool_decide (p_state p = RUNNABLE) then
    do! setp i (set_p_state RUNNING) in
    do! modifyM (set_k_cur i) in
    retM true
  else retM false.

(** One pass of the scheduler over the processes [idx]: which of them it ran.
    [run i] is what process [i] does until it switches back. *)
Fixpoint scheduler_loop (run : nat -> M K unit) (idx : list nat) : M K (list nat) :=
  match idx with
  | [] => retM []
  | i :: idx =>
      let! chosen := dispatch i in
      do! (if chosen : bool then run i else retM tt) in
      let! ran := scheduler_loop run idx in
      retM (if chosen : bool then i :: ran else ran)
  end.
Definition scheduler_pass (run : nat -> M K unit) : M K (list nat) := scheduler_loop run (seq 0 nproc).

Definition reparent (p : nat) : M K unit :=
  for_each (seq 0 nproc) (fun i =>
    let! parent := getp i p_parent in
    if bool_decide (parent = Some p) then
      let! init := getM k_init in
      do! setp i (set_p_parent init) in
      match init with
      | Some init => wakeup (ChProc init)
      | None => retM tt
      end
    else retM tt).
End Sched.

(** ** What sleeping and waking do to the process table *)


(** Process [i] after [wakeup(c)] by process [me]. *)
Definition wake1 (c : chan) (me i : nat) (p : proc) : proc :=
  if decide (i <> me /\ p_state p = SLEEPING /\ p_chan p = Some c) then set_p_state RUNNABLE p else p.
Definition woken_upto (n : nat) (c : chan) (me : nat) (ps : list proc) : list proc :=
  imap (fun i p => if decide (i < n)%nat then wake1 c me i p else p) ps.
Definition woken := woken_upto nproc.

Section SchedSpec.
Context {S Dv : Type}.
Local Abbreviation K := (kstate S Dv).
Implicit Types k : K.

Lemma Mem_ok {A} (m : M kmem A) k a km : m (k_mem k) = Ok a km -> Mem m k = Ok a (set_k_mem km k).
Proof. unfold Mem, zoomM. by intros ->. Qed.
Lemma set_k_mem_same k : set_k_mem (k_mem k) k = k.
Proof. by destruct k. Qed.

Lemma proc_at_lookup k i p : k_procs k !! i = Some p -> proc_at k i = p.
Proof. intros H. unfold proc_at. by apply nth_lookup_Some. Qed.

Lemma proc_at_set k ps i : proc_at (set_k_procs ps k) i = nth i ps proc0.
Proof. done. Qed.

Lemma proc_at_alter k g i j : (i < length (k_procs k))%nat ->
  proc_at (set_k_procs (alter g i (k_procs k)) k) j = if decide (j = i) then g (proc_at k i) else proc_at k j.
Proof.
  intros Hi. unfold proc_at. cbn [k_procs set_k_procs]. rewrite !nth_lookup. case_decide as E.
  - subst j. rewrite list_lookup_alter_eq. by destruct (lookup_lt_is_Some_2 _ _ Hi) as [p ->].
  - by rewrite list_lookup_alter_ne.
Qed.

Lemma woken_step n c me ps : woken_upto (Datatypes.S n) c me ps = alter (wake1 c me n) n (woken_upto n c me ps).
Proof.
  apply list_eq. intros i. unfold woken_upto. destruct (decide (i = n)) as [->|Hne].
  - rewrite list_lookup_alter_eq, !list_lookup_imap. destruct (ps !! n); [|done]. cbn.
    rewrite decide_True, decide_False by lia. done.
  - rewrite list_lookup_alter_ne, !list_lookup_imap by done. destruct (ps !! i); [|done]. cbn. f_equal.
    destruct (decide (i < n)%nat); [by rewrite !decide_True by lia|by rewrite !decide_False by lia].
Qed.

Lemma wakeup_upto c k n :
  for_each (seq 0 n) (fun i =>
    let! me := myproc in
    if decide (i = me) then retM tt
    else
      let! p := getp i id in
      if bool_decide (p_state p = SLEEPING) && bool_decide (p_chan p = Some c)
      then setp i (set_p_state RUNNABLE) else retM tt) k = Ok tt (set_k_procs (woken_upto n c (k_cur k) (k_procs k)) k).
Proof.
  induction n as [|n IH].
  - cbn. unfold retM. f_equal. replace (woken_upto 0 c (k_cur k) (k_procs k)) with (k_procs k); [by destruct k|].
    apply list_eq. intros i. unfold woken_upto. rewrite list_lookup_imap. by destruct (k_procs k !! i).
  - rewrite seq_S, for_each_app. mstep IH. cbn [for_each Nat.add]. unfold myproc, getp, setp. mrun. cbn [k_cur set_k_procs].
    set (ps := woken_upto n c (k_cur k) (k_procs k)). rewrite woken_step. fold ps.
    assert (Hp : forall p, ps !! n = Some p -> proc_at (set_k_procs ps k) n = p) by (intros p Hp; by apply proc_at_lookup).
    assert (Hsame : (forall p, ps !! n = Some p -> wake1 c (k_cur k) n p = p) -> alter (wake1 c (k_cur k) n) n ps = ps).
    { intros Hs. apply list_eq. intros i. destruct (decide (i = n)) as [->|]; [|by rewrite list_lookup_alter_ne].
      rewrite list_lookup_alter_eq. destruct (ps !! n) as [p|]; [|done]. cbn. by rewrite Hs. }
    destruct (decide (n = k_cur k)) as [E|Hme].
    { mrun. rewrite Hsame; [done|]. intros p _. unfold wake1. by rewrite decide_False by naive_solver. }
    mrun. unfold id.
    destruct (bool_decide (p_state (proc_at (set_k_procs ps k) n) = SLEEPING) && bool_decide (p_chan (proc_at (set_k_procs ps k) n) = Some c)) eqn:Eb.
    + apply andb_true_iff in Eb as [E1%bool_decide_eq_true E2%bool_decide_eq_true].
      unfold bindM, modifyM, retM, set_k_procs. cbn. do 2 f_equal.
      apply list_alter_ext; [|done]. intros p Hpn. rewrite (Hp p Hpn) in *. unfold wake1. by rewrite decide_True.
    + mrun. rewrite Hsame; [done|]. intros p Hpn. rewrite (Hp p Hpn) in Eb. unfold wake1. rewrite decide_False; [done|].
      intros (_ & H1 & H2). by rewrite H1, H2, !bool_decide_true in Eb.
Qed.

(** The states after [wakeup(c)] and after [sleep(c)]. *)
Definition roused (c : chan) (k : K) : K := set_k_procs (woken c (k_cur k) (k_procs k)) k.
Definition asleep (c : chan) (k : K) : K :=
  set_k_procs (alter (fun p => set_p_state SLEEPING (set_p_chan (Some c) p)) (k_cur k) (k_procs k)) k.

Lemma wakeup_ok c k : wakeup c k = Ok tt (roused c k).
Proof. apply wakeup_upto. Qed.

(** Waking changes states only. *)
Lemma proc_at_woken c k i {A} (g : proc -> A) : (forall p st, g (set_p_state st p) = g p) ->
  g (proc_at (roused c k) i) = g (proc_at k i).
Proof.
  intros Hg. unfold proc_at, roused. cbn [k_procs set_k_procs]. rewrite !nth_lookup. unfold woken, woken_upto. rewrite list_lookup_imap.
  destruct (k_procs k !! i) as [p|]; [|done]. cbn. unfold wake1. repeat case_decide; by rewrite ?Hg.
Qed.

(** The state of a process after a wakeup. *)
Lemma state_woken c k i : (i < length (k_procs k))%nat -> (length (k_procs k) <= nproc)%nat ->
  p_state (proc_at (roused c k) i) =
    if decide (i <> k_cur k /\ p_state (proc_at k i) = SLEEPING /\ p_chan (proc_at k i) = Some c) then RUNNABLE else p_state (proc_at k i).
Proof.
  intros Hi Hn. destruct (lookup_lt_is_Some_2 _ _ Hi) as [p Hp]. unfold roused. rewrite (proc_at_lookup _ _ _ Hp).
  rewrite (proc_at_lookup _ _ (wake1 c (k_cur k) i p)).
  - unfold wake1. by case_decide.
  - cbn [k_procs set_k_procs]. unfold woken, woken_upto. rewrite list_lookup_imap, Hp. cbn. by rewrite decide_True by lia.
Qed.

Lemma sleep_ok c k : sleep c k = Ok tt (asleep c k).
Proof. unfold sleep, myproc, setp, asleep. mrun. unfold modifyM, set_k_procs. cbn. by rewrite list_alter_alter_eq. Qed.

(** ** Who sleeps on what *)

Definition sleeps k (j : nat) (c : chan) : Prop := p_state (proc_at k j) = SLEEPING /\ p_chan (proc_at k j) = Some c.

(** The current process is a running process of the table. *)
Record running k : Prop := {
  run_cur : (k_cur k < length (k_procs k))%nat;
  run_len : (length (k_procs k) <= nproc)%nat;
  run_state : p_state (proc_at k (k_cur k)) = RUNNING;
}.

Lemma proc_at_ge k j : (length (k_procs k) <= j)%nat -> proc_at k j = proc0.
Proof. intros H. unfold proc_at. by rewrite nth_overflow. Qed.
Lemma sleeps_lt k j c : sleeps k j c -> (j < length (k_procs k))%nat.
Proof. intros [Hs _]. destruct (decide (j < length (k_procs k))%nat); [done|]. by rewrite proc_at_ge in Hs by lia. Qed.
Lemma running_awake k c : running k -> ~ sleeps k (k_cur k) c.
Proof. intros [_ _ H] [E _]. congruence. Qed.

Lemma length_roused c k : length (k_procs (roused c k)) = length (k_procs k).
Proof. unfold roused. cbn. unfold woken, woken_upto. apply length_imap. Qed.
Lemma running_roused c k : running k -> running (roused c k).
Proof.
  intros [H1 H2 H3]. split; [by rewrite length_roused|by rewrite length_roused|].
  change (k_cur (roused c k)) with (k_cur k). rewrite state_woken, decide_False by naive_solver. done.
Qed.

Lemma sleeps_roused k j c c' : running k -> sleeps (roused c k) j c' <-> sleeps k j c' /\ c' <> c.
Proof.
  intros Hr. pose proof Hr as [H1 H2 H3]. split.
  - intros H. pose proof (sleeps_lt _ _ _ H) as Hj. rewrite length_roused in Hj. destruct H as [Hs Hc].
    rewrite state_woken in Hs by done. rewrite (proc_at_woken c k j p_chan) in Hc by done. case_decide as E; [done|].
    split; [done|]. intros ->. destruct (decide (j = k_cur k)); [congruence|]. naive_solver.
  - intros [H Hne]. pose proof (sleeps_lt _ _ _ H) as Hj. destruct H as [Hs Hc]. split.
    + rewrite state_woken, decide_False by (done || naive_solver). done.
    + by rewrite (proc_at_woken c k j p_chan).
Qed.

Lemma sleeps_asleep k j c c' : running k -> sleeps (asleep c k) j c' <-> (j = k_cur k /\ c' = c) \/ sleeps k j c'.
Proof.
  intros Hr. unfold sleeps, asleep. rewrite !proc_at_alter by apply Hr. case_decide as E.
  - subst j. pose proof (running_awake k c' Hr) as Hn. unfold sleeps in Hn. cbn. split; [intros [_ [= ->]]; auto|]. intros [[_ ->]|?]; [done|tauto].
  - split; [auto|]. intros [[? _]|?]; done.
Qed.
End SchedSpec.
