(* ===== verification/File.v ===== *)
(** * Open files and pipes (kernel/file.c, kernel/pipe.c)

    The two files call each other: closing the last reference to a pipe's file
    closes that end of the pipe, and making a pipe allocates two files. *)

From stdpp Require Import base list gmap strings.
From Stdlib Require Import ZArith Lia.
From S2P Require Import Prelude Mem Layout Kalloc Vm Sleeplock FsFormat Store Fs Kernel Sched.
Open Scope Z_scope.

Section File.
Context {S Dv : Type} `{!TxOps S} `{!OpOps S}.
Local Abbreviation K := (kstate S Dv).
(** [end] of kernel.ld; the functions in [devsw], by major number; the padding
    bytes of the [struct stat] on the stack of [filestat]. *)
Context (kend : Z) (devread devwrite : Z -> option (Z -> Z -> M K Z)) (pad : list Z).

Definition begin_op : M K unit := FS (St sbegin_op).
Definition end_op : M K unit := FS (St send_op).

(** ** The file table *)

Definition nfile : nat := Z.to_nat NFILE.

Fixpoint filealloc_loop (fs : list nat) : M K (option nat) :=
  match fs with
  | [] => retM None
  | f :: fs =>
      let! ref := getf f f_ref in
      if ref =? 0 then
        do! setf f (set_f_ref 1) in
        retM (Some f)
      else filealloc_loop fs
  end.
Definition filealloc : M K (option nat) := filealloc_loop (seq 0 nfile).

Definition filedup (f : nat) : M K nat :=
  let! ref := getf f f_ref in
  if ref <? 1 then panicM "filedup"
  else
    do! setf f (fun x => set_f_ref (f_ref x + 1) x) in
    retM f.

(** ** Pipes *)

Definition pipeclose (pi : Z) (writable : bool) : M K unit :=
  do! (if writable then
         do! setpipe pi (fun p => mk_pipe (pp_data p) (pp_nread p) (pp_nwrite p) (pp_readopen p) 0) in
         wakeup (ChPipeRead pi)
       else
         do! setpipe pi (fun p => mk_pipe (pp_data p) (pp_nread p) (pp_nwrite p) 0 (pp_writeopen p)) in
         wakeup (ChPipeWrite pi)) in
  let! p := getpipe pi id in
  if (pp_readopen p =? 0) && (pp_writeopen p =? 0) then
    do! modifyM (fun k => set_k_pipes (delete pi (k_pipes k)) k) in
    Mem (kfree kend pi)
  else retM tt.

Definition fileclose (f : nat) : M K unit :=
  let! ff := getf f id in
  if f_ref ff <? 1 then panicM "fileclose"
  else if 0 <? f_ref ff - 1 then setf f (set_f_ref (f_ref ff - 1))
  else
    do! setf f (fun x => set_f_type FD_NONE (set_f_ref 0 x)) in
    match f_type ff with
    | FD_PIPE => pipeclose (f_pipe ff) (negb (f_writable ff =? 0))
    | FD_INODE | FD_DEVICE =>
        do! begin_op in
        do! FS (iput (f_ip ff)) in
        end_op
    | FD_NONE => retM tt
    end.

(** The [bad] exit of [pipealloc]. *)
Definition pipealloc_bad (f0 f1 : option nat) : M K (option (nat * nat)) :=
  do! (match f0 with Some f => fileclose f | None => retM tt end) in
  do! (match f1 with Some f => fileclose f | None => retM tt end) in
  retM None.

(** The [data] array starts after the 24 bytes of the spin lock. *)
Definition pipealloc : M K (option (nat * nat)) :=
  let! f0 := filealloc in
  match f0 with
  | None => pipealloc_bad None None
  | Some f0 =>
      let! f1 := filealloc in
      match f1 with
      | None => pipealloc_bad (Some f0) None
      | Some f1 =>
          let! pi := Mem kalloc in
          if pi =? 0 then pipealloc_bad (Some f0) (Some f1)
          else
            let! junk := Mem (getM (fun m => mread (ram m) (pi + 24) (Z.to_nat PIPESIZE))) in
            do! setpipe pi (fun _ => mk_pipe junk 0 0 1 1) in
            do! setf f0 (fun x => set_f_pipe pi (set_f_writable 0 (set_f_readable 1 (set_f_type FD_PIPE x)))) in
            do! setf f1 (fun x => set_f_pipe pi (set_f_writable 1 (set_f_readable 0 (set_f_type FD_PIPE x)))) in
            retM (Some (f0, f1))
      end
  end.

(** The loop of [pipewrite], from byte [i]; asleep, it continues from there.
    Each round writes a byte or ends. *)
Fixpoint pipewrite_loop (pi addr n i : Z) (fuel : nat) : M K (progress Z Z) :=
  match fuel with
  | O => fun _ => NoFuel
  | Datatypes.S fuel =>
      let finish i := do! wakeup (ChPipeRead pi) in retM (Done i) in
      if i <? n then
        let! p := getpipe pi id in
        let! killed := my p_killed in
        if (pp_readopen p =? 0) || negb (killed =? 0) then retM (Done (-1))
        else if pp_nwrite p =? u32 (pp_nread p + PIPESIZE) then
          do! wakeup (ChPipeRead pi) in
          do! sleep (ChPipeWrite pi) in
          retM (Asleep i)
        else
          let! pt := my p_pagetable in
          let! '(r, bs) := Mem (copyin pt (u64 (addr + i)) 1) in
          if r =? -1 then finish i
          else
            do! setpipe pi (fun p => mk_pipe (<[Z.to_nat (pp_nwrite p mod PIPESIZE) := hd 0 bs]> (pp_data p))
                                       (pp_nread p) (u32 (pp_nwrite p + 1)) (pp_readopen p) (pp_writeopen p)) in
            pipewrite_loop pi addr n (i + 1) fuel
      else finish i
  end.
Definition pipewrite (pi addr n i : Z) : M K (progress Z Z) := pipewrite_loop pi addr n i (Z.to_nat (n - i) + 1).

Fixpoint piperead_loop (pi addr n i : Z) (fuel : nat) : M K Z :=
  match fuel with
  | O => fun _ => NoFuel
  | Datatypes.S fuel =>
      if i <? n then
        let! p := getpipe pi id in
        if pp_nread p =? pp_nwrite p then retM i
        else
          let ch := nth (Z.to_nat (pp_nread p mod PIPESIZE)) (pp_data p) 0 in
          do! setpipe pi (fun p => mk_pipe (pp_data p) (u32 (pp_nread p + 1)) (pp_nwrite p) (pp_readopen p) (pp_writeopen p)) in
          let! pt := my p_pagetable in
          let! r := Mem (copyout pt (u64 (addr + i)) [ch]) in
          if r =? -1 then retM i else piperead_loop pi addr n (i + 1) fuel
      else retM i
  end.
Definition piperead (pi addr n : Z) : M K (progress unit Z) :=
  let! p := getpipe pi id in
  if (pp_nread p =? pp_nwrite p) && negb (pp_writeopen p =? 0) then
    let! killed := my p_killed in
    if negb (killed =? 0) then retM (Done (-1))
    else
      do! sleep (ChPipeRead pi) in
      retM (Asleep tt)
  else
    let! i := piperead_loop pi addr n 0 (Z.to_nat n + 1) in
    do! wakeup (ChPipeWrite pi) in
    retM (Done i).

(** A caller that does not continue after a sleep stops there. *)
Definition awake {L A} (m : M K (progress L A)) : M K A :=
  let! r := m in
  match r with Asleep _ => blockM | Done a => retM a end.

(** ** Operations on open files *)

(** [struct stat] as bytes: [dev], [ino], [type], [nlink], padding, [size]. *)
Definition stat_bytes (st : stat) : list Z :=
  le_bytes 4 (st_dev st) ++ le_bytes 4 (st_ino st) ++ le_bytes 2 (st_type st) ++ le_bytes 2 (st_nlink st) ++
  take 4 (pad ++ replicate 4 0) ++ le_bytes 8 (st_size st).

Definition filestat (f : nat) (addr : Z) : M K Z :=
  let! x := getf f id in
  match f_type x with
  | FD_INODE | FD_DEVICE =>
      do! FS (ilock (f_ip x)) in
      let! st := FS (stati (f_ip x)) in
      do! FS (iunlock (f_ip x)) in
      let! pt := my p_pagetable in
      let! r := Mem (copyout pt addr (stat_bytes st)) in
      retM (if r <? 0 then -1 else 0)
  | _ => retM (-1)
  end.

Definition fileread (f : nat) (addr n : Z) : M K Z :=
  let! x := getf f id in
  if f_readable x =? 0 then retM (-1)
  else match f_type x with
  | FD_PIPE => awake (piperead (f_pipe x) addr n)
  | FD_DEVICE =>
      if (f_major x <? 0) || (NDEV <=? f_major x) then retM (-1)
      else match devread (f_major x) with
           | None => retM (-1)
           | Some read => read addr n
           end
  | FD_INODE =>
      do! FS (ilock (f_ip x)) in
      let! pt := my p_pagetable in
      let! r := FSMem (readi (mem_copyout pt true) (f_ip x) addr (f_off x) (u32 n)) in
      do! (if 0 <? r then setf f (fun x => set_f_off (u32 (f_off x + r)) x) else retM tt) in
      do! FS (iunlock (f_ip x)) in
      retM r
  | FD_NONE => panicM "fileread"
  end.

(** [int max = ((MAXOPBLOCKS-1-1-2) / 2) * BSIZE;] *)
Definition filewrite_max : Z := ((MAXOPBLOCKS - 1 - 1 - 2) / 2) * BSIZE.

(** The loop of [filewrite] on an inode: the value of [i] at the end. *)
Fixpoint filewrite_loop (f : nat) (addr n i : Z) (fuel : nat) : M K Z :=
  match fuel with
  | O => fun _ => NoFuel
  | Datatypes.S fuel =>
      if i <? n then
        let n1 := if filewrite_max <? n - i then filewrite_max else n - i in
        do! begin_op in
        let! x := getf f id in
        do! FS (ilock (f_ip x)) in
        let! pt := my p_pagetable in
        let! r := FSMem (writei (mem_copyin pt true) (f_ip x) (u64 (addr + i)) (f_off x) n1) in
        do! (if 0 <? r then setf f (fun x => set_f_off (u32 (f_off x + r)) x) else retM tt) in
        do! FS (iunlock (f_ip x)) in
        do! end_op in
        if negb (r =? n1) then retM i
        else filewrite_loop f addr n (i + r) fuel
      else retM i
  end.

Definition filewrite (f : nat) (addr n : Z) : M K Z :=
  let! x := getf f id in
  if f_writable x =? 0 then retM (-1)
  else match f_type x with
  | FD_PIPE => awake (pipewrite (f_pipe x) addr n 0)
  | FD_DEVICE =>
      if (f_major x <? 0) || (NDEV <=? f_major x) then retM (-1)
      else match devwrite (f_major x) with
           | None => retM (-1)
           | Some write => write addr n
           end
  | FD_INODE =>
      let! i := filewrite_loop f addr n 0 (Z.to_nat (n / filewrite_max) + 2) in
      retM (if i =? n then n else -1)
  | FD_NONE => panicM "filewrite"
  end.
End File.
