(* ===== verification/Proc.v ===== *)
(** * Processes: creation, exit, wait (kernel/proc.c)

    The parts of [proc.c] that change the process table and what hangs off it.
    [exit] ends with the switch to the scheduler; [wait] may go to sleep. *)

From stdpp Require Import base list gmap strings.
From Stdlib Require Import ZArith Lia.
From S2P Require Import Prelude Mem Layout Kalloc Vm Sleeplock FsFormat Store Fs Kernel Sched File.
Open Scope Z_scope.

(** [safestrcpy(s, t, n)] on the bytes of the array [s]. *)
Fixpoint safestrcpy_bytes (s t : list Z) (n : nat) : list Z :=
  match n with
  | O => s
  | 1%nat => 0 :: tl s
  | Datatypes.S n =>
      if hd 0 t =? 0 then 0 :: 0 :: tl (tl s)
      else hd 0 t :: safestrcpy_bytes (tl s) (tl t) n
  end.

(** The first user program. *)
Definition initcode : list Z :=
  [0x17; 0x05; 0x00; 0x00; 0x13; 0x05; 0x45; 0x02;
   0x97; 0x05; 0x00; 0x00; 0x93; 0x85; 0x35; 0x02;
   0x93; 0x08; 0x70; 0x00; 0x73; 0x00; 0x00; 0x00;
   0x93; 0x08; 0x20; 0x00; 0x73; 0x00; 0x00; 0x00;
   0xef; 0xf0; 0x9f; 0xff; 0x2f; 0x69; 0x6e; 0x69;
   0x74; 0x00; 0x00; 0x24; 0x00; 0x00; 0x00; 0x00;
   0x00; 0x00; 0x00; 0x00].

Section Proc.
Context {S Dv : Type} `{!TxOps S} `{!OpOps S}.
Local Abbreviation K := (kstate S Dv).
(** [end] and [trampoline] of kernel.ld, the address of [forkret]. *)
Context (kend trampoline forkret : Z).

Definition freeproc (i : nat) : M K unit :=
  let! p := getp i id in
  do! (if negb (p_trapframe p =? 0) then Mem (kfree kend (p_trapframe p)) else retM tt) in
  do! setp i (set_p_trapframe 0) in
  do! (if negb (p_pagetable p =? 0) then Mem (proc_freepagetable kend (p_pagetable p) (p_sz p)) else retM tt) in
  do! setp i (set_p_pagetable 0) in
  do! setp i (set_p_sz 0) in
  do! setp i (set_p_pid 0) in
  do! setp i (set_p_parent None) in
  do! setp i (fun p => set_p_name (<[0%nat := 0]> (p_name p)) p) in
  do! setp i (set_p_chan None) in
  do! setp i (set_p_killed 0) in
  do! setp i (set_p_xstate 0) in
  do! setp i (set_p_priority 0) in
  setp i (set_p_state UNUSED).

(** The scan of [allocproc]. *)
Fixpoint find_unused (idx : list nat) : M K (option nat) :=
  match idx with
  | [] => retM None
  | i :: idx =>
      let! st := getp i p_state in
      if bool_decide (st = UNUSED) then retM (Some i) else find_unused idx
  end.

Definition allocproc : M K (option nat) :=
  let! found := find_unused (seq 0 nproc) in
  match found with
  | None => retM None
  | Some i =>
      let! pid := allocpid in
      do! setp i (set_p_pid pid) in
      do! setp i (set_p_state USED) in
      do! setp i (set_p_priority 5) in
      let! tf := Mem kalloc in
      do! setp i (set_p_trapframe tf) in
      if tf =? 0 then
        do! freeproc i in
        retM None
      else
        let! pt := Mem (proc_pagetable kend trampoline tf) in
        do! setp i (set_p_pagetable pt) in
        if pt =? 0 then
          do! freeproc i in
          retM None
        else
          do! setp i (fun p => set_p_context (mk_context forkret (p_kstack p + PGSIZE) (replicate 12 0)) p) in
          retM (Some i)
  end.

Definition userinit : M K unit :=
  let! p := allocproc in
  match p with
  | None => panicM "null pointer"
  | Some p =>
      do! modifyM (set_k_init (Some p)) in
      let! pt := getp p p_pagetable in
      do! Mem (uvminit pt initcode) in
      do! setp p (set_p_sz PGSIZE) in
      let! tf := getp p p_trapframe in
      do! tf_set tf TF_epc 0 in
      do! tf_set tf TF_sp PGSIZE in
      do! setp p (fun x => set_p_name (safestrcpy_bytes (p_name x) [105; 110; 105; 116; 99; 111; 100; 101] 16) x) in
      let! cwd := FS (namei [SLASH] 0) in
      do! setp p (set_p_cwd cwd) in
      setp p (set_p_state RUNNABLE)
  end.

(** [sz] is a [uint]: sizes are cut to 32 bits. *)
Definition growproc (n : Z) : M K Z :=
  let! p := myproc in
  let! pt := getp p p_pagetable in
  let! sz := getp p (fun x => u32 (p_sz x)) in
  if 0 <? n then
    let! r := Mem (uvmalloc kend pt sz (u32 (sz + n))) in
    if u32 r =? 0 then retM (-1)
    else
      do! setp p (set_p_sz (u32 r)) in
      retM 0
  else if n <? 0 then
    let! r := Mem (uvmdealloc kend pt sz (u32 (sz + n))) in
    do! setp p (set_p_sz (u32 r)) in
    retM 0
  else
    do! setp p (set_p_sz sz) in
    retM 0.

(** The loop of [fork] over the open files. *)
Definition fork_files (p np : nat) : M K unit :=
  for_each (seq 0 (Z.to_nat NOFILE)) (fun i =>
    let! f := getp p (fun x => nth i (p_ofile x) None) in
    match f with
    | None => retM tt
    | Some f =>
        let! f := filedup f in
        setp np (fun x => set_p_ofile (<[i := Some f]> (p_ofile x)) x)
    end).

Definition fork : M K Z :=
  let! p := myproc in
  let! np := allocproc in
  match np with
  | None => retM (-1)
  | Some np =>
      let! x := getp p id in
      let! npt := getp np p_pagetable in
      let! r := Mem (uvmcopy kend (p_pagetable x) npt (p_sz x)) in
      if r <? 0 then
        do! freeproc np in
        retM (-1)
      else
        do! setp np (set_p_sz (p_sz x)) in
        let! ntf := getp np p_trapframe in
        do! Mem (set_ram (fun m => mwrite m ntf (mread m (p_trapframe x) (Z.to_nat sizeof_trapframe)))) in
        do! tf_set ntf TF_a0 0 in
        do! fork_files p np in
        match p_cwd x with
        | None => panicM "null pointer"
        | Some cwd =>
            let! cwd := FS (idup cwd) in
            do! setp np (set_p_cwd (Some cwd)) in
            do! setp np (fun y => set_p_name (safestrcpy_bytes (p_name y) (p_name x) 16) y) in
            do! setp np (set_p_priority (p_priority x)) in
            let! pid := getp np p_pid in
            do! setp np (set_p_parent (Some p)) in
            do! setp np (set_p_state RUNNABLE) in
            retM pid
        end
  end.

(** The loop of [exit] over the open files. *)
Definition exit_files (p : nat) : M K unit :=
  for_each (seq 0 (Z.to_nat NOFILE)) (fun fd =>
    let! f := getp p (fun x => nth fd (p_ofile x) None) in
    match f with
    | None => retM tt
    | Some f =>
        do! fileclose kend f in
        setp p (fun x => set_p_ofile (<[fd := None]> (p_ofile x)) x)
    end).

Definition exit (status : Z) : M K unit :=
  let! p := myproc in
  let! init := getM k_init in
  if bool_decide (init = Some p) then panicM "init exiting"
  else
    do! exit_files p in
    do! begin_op in
    let! cwd := getp p p_cwd in
    do! (match cwd with Some cwd => FS (iput cwd) | None => panicM "null pointer" end) in
    do! end_op in
    do! setp p (set_p_cwd None) in
    do! reparent p in
    let! parent := getp p p_parent in
    do! (match parent with Some q => wakeup (ChProc q) | None => retM tt end) in
    do! setp p (set_p_xstate status) in
    setp p (set_p_state ZOMBIE).

(** One pass of [wait] over the table: the result, or whether there are
    children. *)
Fixpoint wait_scan (idx : list nat) (p : nat) (addr : Z) (havekids : bool) : M K (Z + bool) :=
  match idx with
  | [] => retM (inr havekids)
  | i :: idx =>
      let! np := getp i id in
      if bool_decide (p_parent np = Some p) then
        if bool_decide (p_state np = ZOMBIE) then
          let pid := p_pid np in
          let! r := (if negb (addr =? 0) then
                       let! pt := getp p p_pagetable in
                       Mem (copyout pt addr (le_bytes 4 (p_xstate np)))
                     else retM 0) in
          if r <? 0 then retM (inl (-1))
          else
            do! freeproc i in
            retM (inl pid)
        else wait_scan idx p addr true
      else wait_scan idx p addr havekids
  end.

Definition wait (addr : Z) : M K (progress unit Z) :=
  let! p := myproc in
  let! r := wait_scan (seq 0 nproc) p addr false in
  match r with
  | inl r => retM (Done r)
  | inr havekids =>
      let! killed := getp p p_killed in
      if negb havekids || negb (killed =? 0) then retM (Done (-1))
      else
        do! sleep (ChProc p) in
        retM (Asleep tt)
  end.
End Proc.
