(* ===== verification/ProcSpec.v ===== *)
(** * Allocating, freeing and duplicating processes

    What [allocproc], [freeproc] and the steps of [fork] do to the process table and to memory, in
    terms of the pages a process owns: its trapframe, its page-table pages and
    its user pages. *)

From stdpp Require Import base list gmap strings.
From Stdlib Require Import ZArith Lia.
From S2P Require Import Prelude Mem Layout Kalloc Vm VmSpec VmUser VmFree Sleeplock FsFormat Store Fs Kernel Sched File Proc.
Open Scope Z_scope.


Section ProcSpec.
Context {S Dv : Type} `{!TxOps S} `{!OpOps S}.
Local Abbreviation K := (kstate S Dv).
Context (kend : Z) (Hend : 0 < kend) (trampoline forkret : Z) (Htramp : phys_addr trampoline).
Implicit Types (k : K) (km : kmem).

(** ** Updates of one process *)

Definition upd (i : nat) (f : proc -> proc) k : K := set_k_procs (alter f i (k_procs k)) k.

Lemma bind_setp {A} i f (c : unit -> M K A) k : bindM (setp i f) c k = c tt (upd i f k).
Proof. done. Qed.
Lemma upd_upd_proc i f g k : upd i g (upd i f k) = upd i (fun p => g (f p)) k.
Proof. unfold upd, set_k_procs. cbn. by rewrite list_alter_alter_eq. Qed.
Lemma proc_at_upd i j f k : (i < length (k_procs k))%nat -> proc_at (upd i f k) j = if decide (j = i) then f (proc_at k i) else proc_at k j.
Proof. apply proc_at_alter. Qed.
Lemma upd_ext_proc i f g k : (forall p, k_procs k !! i = Some p -> f p = g p) -> upd i f k = upd i g k.
Proof. intros H. unfold upd. f_equal. by apply list_alter_ext. Qed.
Lemma proc_at_upd_eq i f k : (i < length (k_procs k))%nat -> proc_at (upd i f k) i = f (proc_at k i).
Proof. intros H. by rewrite proc_at_upd, decide_True. Qed.
Lemma set_mem_upd i f k km : set_k_mem km (upd i f k) = upd i f (set_k_mem km k).
Proof. done. Qed.
Lemma set_mem_mem k km km' : set_k_mem km' (set_k_mem km k) = set_k_mem km' k.
Proof. done. Qed.
Lemma length_upd_proc i f k : length (k_procs (upd i f k)) = length (k_procs k).
Proof. cbn. apply length_alter. Qed.

(** ** The first free slot *)

Definition first_unused k : option nat := snd <$> list_find (fun i => p_state (proc_at k i) = UNUSED) (seq 0 nproc).

Lemma find_unused_ok idx k : find_unused idx k = Ok (snd <$> list_find (fun i => p_state (proc_at k i) = UNUSED) idx) k.
Proof.
  induction idx as [|i idx IH]; [done|]. cbn [find_unused list_find]. unfold getp. mrun. case_decide as E.
  - by rewrite bool_decide_true.
  - rewrite bool_decide_false by done. rewrite IH. by destruct (list_find _ idx) as [[? ?]|].
Qed.

Lemma first_unused_Some k i : first_unused k = Some i -> (i < nproc)%nat /\ p_state (proc_at k i) = UNUSED /\
  forall j, (j < i)%nat -> p_state (proc_at k j) <> UNUSED.
Proof.
  intros H. unfold first_unused in H. apply fmap_Some in H as ([n i'] & H & ->). apply list_find_Some in H as (Hn & Hu & Hb).
  apply lookup_seq in Hn as [-> Hlt]. cbn. split_and!; [lia|done|]. intros j Hj. apply (Hb j j); [|lia]. apply lookup_seq. lia.
Qed.

Lemma find_first (P : nat -> Prop) `{!forall j, Decision (P j)} i : (i < nproc)%nat -> P i -> (forall j, (j < i)%nat -> ~ P j) ->
  list_find P (seq 0 nproc) = Some (i, i).
Proof.
  intros Hi HP Hb. apply list_find_Some. split_and!; [apply lookup_seq; lia|done|].
  intros j y Hj Hlt. apply lookup_seq in Hj as [-> _]. by apply Hb.
Qed.

(** ** Freeing *)

(** The process after [freeproc]. *)
Definition freed (p : proc) : proc :=
  mk_proc UNUSED None 0 0 0 None (p_kstack p) 0 0 0 (p_context p) (p_ofile p) (p_cwd p) (<[0%nat := 0]> (p_name p)) 0.

(** The memory of a process: page table [T], user pages [ds] with permissions
    [perm], trapframe [tf]. *)
Record proc_mem km (l : list Z) (root tf sz : Z) (T : gmap (list Z) Z) (ds : list Z) (perm : nat -> Z) : Prop := {
  pm_inv : vm_inv kend km root T l;
  pm_perm : forall i, good_perm (perm i);
  pm_sz : 0 <= sz <= TRAPFRAME;
  pm_len : PGROUNDUP sz = 4096 * Z.of_nat (length ds);
  pm_leaf : forall va, 0 <= va < MAXVA -> leaf (ram km) T va = proc_leaf trampoline tf (mapped_list (fun _ => 0) 0 ds perm) va;
  pm_nodup : NoDup (tf :: ds);
  pm_user : Forall (user_page kend T l) (tf :: ds);
}.

(** The pages of the process join the free list; other memory is kept. *)
Definition released km km' (l : list Z) (T : gmap (list Z) Z) (ds : list Z) : Prop :=
  exists l', kmem_inv kend km' l' /\ (forall p, p ∈ l' <-> pages_of T l p \/ p ∈ ds) /\
    forall x, (forall p, pages_of T l p \/ p ∈ ds -> off_page p x) -> mget (ram km') x = mget (ram km) x.

Lemma page_phys p : page_ok kend p -> phys_addr p.
Proof. intros Hp. pose proof (page_ok_pos kend Hend p Hp). split; [apply Hp|lia]. Qed.


Lemma freeproc_ok i k l T ds perm : let p := proc_at k i in (i < length (k_procs k))%nat ->
  p_trapframe p <> 0 -> p_pagetable p <> 0 -> proc_mem (k_mem k) l (p_pagetable p) (p_trapframe p) (p_sz p) T ds perm ->
  returns (freeproc kend i) k (fun _ k' => exists km, k' = upd i freed (set_k_mem km k) /\ released (k_mem k) km l T (p_trapframe p :: ds)).
Proof.
  intros p Hi Htf Hpt [Hv Hp Hsz Hlen Hleaf Hnd Hu]. unfold freeproc, getp, returns. mrun. unfold id. change (proc_at k i) with p.
  apply NoDup_cons in Hnd as [Hni Hnd]. apply Forall_cons in Hu as [Hutf Hu].
  destruct (Z.eqb_spec (p_trapframe p) 0); [done|]. destruct (Z.eqb_spec (p_pagetable p) 0); [done|]. cbn [negb].
  pose proof (vm_kfree kend Hend (k_mem k) _ T l (p_trapframe p) Hv (proj1 Hutf) (proj1 (proj2 Hutf)) (proj2 (proj2 Hutf))) as Hfree.
  apply returns_inv in Hfree as ([] & km1 & Hrun & Hv1 & Hl1 & Hf1). mstep (Mem_ok _ k _ _ Hrun). rewrite bind_setp.
  pose proof (proc_freepagetable_ok kend Hend km1 (p_pagetable p) T (p_trapframe p :: l) ds perm (p_sz p) trampoline (p_trapframe p)) as Hfp.
  apply returns_inv in Hfp as ([] & km2 & Hrun2 & l' & Hk2 & Hin & Hf2);
    [|done..|by apply page_phys, Hutf|intros va Hva; by rewrite Hl1, Hleaf|done|].
  2: { apply Forall_forall. intros d Hd. destruct (proj1 (Forall_forall _ _) Hu d Hd) as (H1 & H2 & H3).
       split_and!; [done| |done]. apply not_elem_of_cons. split; [|done]. by intros ->. }
  mstep (Mem_ok _ (upd i (set_p_trapframe 0) (set_k_mem km1 k)) _ _ Hrun2). rewrite !bind_setp. unfold setp, modifyM.
  change (set_k_procs (alter ?f i (k_procs ?k)) ?k) with (upd i f k). rewrite set_mem_upd, set_mem_mem, !upd_upd_proc. exists km2. split.
  - reflexivity.
  - exists l'. split_and!; [done| |].
    + intros q. rewrite Hin. unfold pages_of. rewrite !elem_of_cons. tauto.
    + intros x Hx. rewrite Hf2.
      * apply Hf1, Hx. right. left.
      * intros b q Hb. apply Hx. left. right. eauto.
      * apply Forall_forall. intros d Hd. apply Hx. right. by right.
Qed.

Lemma freeproc_bare i k : p_pagetable (proc_at k i) = 0 -> p_trapframe (proc_at k i) = 0 -> freeproc kend i k = Ok tt (upd i freed k).
Proof.
  intros Hpt Htf. unfold freeproc, getp. mrun. unfold id. rewrite Hpt, Htf. cbn [Z.eqb negb]. mrun. rewrite bind_setp, bind_ret, !bind_setp.
  unfold setp, modifyM. change (set_k_procs (alter ?f i (k_procs ?k)) ?k) with (upd i f k). rewrite !upd_upd_proc. reflexivity.
Qed.

Lemma freeproc_trapframe i k l : let tf := p_trapframe (proc_at k i) in
  p_pagetable (proc_at k i) = 0 -> tf <> 0 -> kmem_inv kend (k_mem k) l -> page_ok kend tf -> tf ∉ l ->
  returns (freeproc kend i) k (fun _ k' => exists km, k' = upd i freed (set_k_mem km k) /\ kmem_inv kend km (tf :: l) /\
    forall x, off_page tf x -> mget (ram km) x = mget (ram (k_mem k)) x).
Proof.
  intros tf Hpt Htf Hk Hpg Hni. unfold freeproc, getp, returns. mrun. unfold id. rewrite Hpt. fold tf.
  destruct (Z.eqb_spec tf 0); [done|]. cbn [Z.eqb negb].
  pose proof (kfree_ok kend Hend (k_mem k) l tf Hk Hpg Hni) as Hf. apply returns_inv in Hf as ([] & km & Hrun & Hk' & Hf).
  mstep (Mem_ok _ k _ _ Hrun). rewrite bind_setp, bind_ret, !bind_setp. unfold setp, modifyM.
  change (set_k_procs (alter ?f i (k_procs ?k)) ?k) with (upd i f k). rewrite !upd_upd_proc. exists km. split; [reflexivity|done].
Qed.

(** ** Allocating *)

(** The process [allocproc] returns, made from the free slot [p]. *)
Definition newborn (pid tf pt : Z) (p : proc) : proc :=
  mk_proc USED (p_chan p) (p_killed p) (p_xstate p) pid (p_parent p) (p_kstack p) (p_sz p) pt tf
    (mk_context forkret (p_kstack p + PGSIZE) (replicate 12 0)) (p_ofile p) (p_cwd p) (p_name p) 5.

(** A slot not in use owns no memory. *)
Definition bare (p : proc) : Prop := p_pagetable p = 0 /\ p_sz p = 0.

Definition bumped k : K := set_k_nextpid (s32 (k_nextpid k + 1)) k.

Lemma proc_mem_new km km1 km2 l l1 tf root T l2 : kmem_inv kend km (tf :: l1) -> l = tf :: l1 ->
  (forall x, off_page tf x -> mget (ram km1) x = mget (ram km) x) ->
  vm_inv kend km2 root T l2 -> (forall p, pages_of T l2 p <-> p ∈ l1) -> same_outside km1 km2 l1 ->
  (forall va, 0 <= va < MAXVA -> leaf (ram km2) T va = proc_leaf trampoline tf (fun _ => 0) va) ->
  proc_mem km2 l2 root tf 0 T [] (fun _ => PTE_R) /\ (forall p, pages_of T l2 p \/ p = tf <-> p ∈ l) /\ same_outside km km2 l.
Proof.
  intros [_ Hnd Hpg] -> Hf Hv Hp Hs Hl. apply NoDup_cons in Hnd as [Hni _]. apply Forall_cons in Hpg as [Htf _].
  destruct layout_facts as (EM & ET & EF). split_and!; [split| |].
  - done.
  - intros _. split; [change PTE_R with 2; lia|done].
  - rewrite EF. lia.
  - done.
  - intros va Hva. rewrite Hl by done. unfold proc_leaf. repeat case_decide; try done. by rewrite mapped_list_nil.
  - constructor; [by apply not_elem_of_nil|constructor].
  - constructor; [|constructor]. split_and!; [done|intros H; apply Hni, Hp; by left|intros b H; apply Hni, Hp; right; eauto].
  - intros p. rewrite elem_of_cons, <- Hp. tauto.
  - intros x Hx. rewrite Hs, Hf; [done|apply Hx; left|]. intros q Hq. apply Hx. by right.
Qed.

Lemma allocproc_ok k l : length (k_procs k) = nproc -> kmem_inv kend (k_mem k) l ->
  (forall i, first_unused k = Some i -> bare (proc_at k i)) ->
  returns (allocproc kend trampoline forkret) k (fun r k' =>
    match first_unused k, r with
    | None, None => k' = k
    | Some i, None => exists km, k' = upd i freed (set_k_mem km (bumped k)) /\ gave_up kend (k_mem k) km l /\ (length l <= 6)%nat
    | Some i, Some j => j = i /\ exists km tf root T l', k' = upd i (newborn (k_nextpid k) tf root) (set_k_mem km (bumped k)) /\
        tf <> 0 /\ root <> 0 /\ proc_mem km l' root tf 0 T [] (fun _ => PTE_R) /\
        (forall p, pages_of T l' p \/ p = tf <-> p ∈ l) /\ same_outside (k_mem k) km l
    | None, Some _ => False
    end).
Proof.
  intros Hn Hk Hbare. unfold allocproc, returns. mstep (find_unused_ok (seq 0 nproc) k). change (snd <$> list_find _ _) with (first_unused k).
  destruct (first_unused k) as [i|] eqn:Ei; [|done]. destruct (first_unused_Some k i Ei) as (Hi & _ & _). rewrite <- Hn in Hi.
  destruct (Hbare i eq_refl) as [Hpt Hsz]. unfold allocpid. mrun. rewrite !bind_setp, !upd_upd_proc.
  change (set_k_nextpid (s32 (k_nextpid k + 1)) k) with (bumped k). set (k1 := upd i _ (bumped k)).
  destruct l as [|tf l].
  - mstep (Mem_ok kalloc k1 _ _ (kalloc_none kend (k_mem k) Hk)). rewrite bind_setp. cbn [Z.eqb].
    set (kf := upd i (set_p_trapframe 0) (set_k_mem (k_mem k) k1)).
    assert (Hat : proc_at kf i = set_p_trapframe 0 (proc_at k1 i)) by (apply proc_at_upd_eq; cbn; by rewrite length_alter).
    assert (Hat1 : p_pagetable (proc_at k1 i) = 0) by (unfold k1; by rewrite proc_at_upd_eq).
    mstep (freeproc_bare i kf ltac:(by rewrite Hat) ltac:(by rewrite Hat)).
    cbn. exists (k_mem k). split; [by unfold kf, k1; rewrite set_mem_upd, !upd_upd_proc|]. split; [|cbn; lia]. exists []. split_and!; [done|done|by intros x _].
  - pose proof Hk as [_ Hnd Hpg]. apply NoDup_cons in Hnd as [Hni _]. apply Forall_cons in Hpg as [Htf _].
    pose proof (page_ok_pos kend Hend tf Htf) as Hpos.
    pose proof (kalloc_ok kend Hend (k_mem k) tf l Hk) as Ha. apply returns_inv in Ha as (r & km1 & Hrun & -> & Hk1 & _ & Hf1).
    mstep (Mem_ok kalloc k1 _ _ Hrun). rewrite bind_setp. destruct (Z.eqb_spec tf 0); [lia|].
    pose proof (proc_pagetable_ok kend Hend km1 l trampoline tf Hk1 Htramp (page_phys tf Htf)) as Hp.
    apply returns_inv in Hp as (root & km2 & Hrun2 & Hp). mstep (Mem_ok _ (upd i (set_p_trapframe tf) (set_k_mem km1 k1)) _ _ Hrun2).
    rewrite bind_setp. case_decide as D.
    + subst root. cbn [Z.eqb]. destruct Hp as [(l' & Hk2 & Hin & Hs) Hlen].
      set (kf := upd i (set_p_pagetable 0) _). assert (Hat : p_pagetable (proc_at kf i) = 0 /\ p_trapframe (proc_at kf i) = tf).
      { unfold kf. rewrite proc_at_upd_eq by (cbn; by rewrite !length_alter). split; [done|]. cbn [p_trapframe set_p_pagetable].
        change (proc_at (set_k_mem km2 ?k) i) with (proc_at k i). by rewrite proc_at_upd_eq by (cbn; by rewrite length_alter). }
      destruct Hat as [Hat1 Hat2].
      pose proof (freeproc_trapframe i kf l') as Hfr. cbn zeta in Hfr. rewrite Hat2 in Hfr. specialize (Hfr Hat1 n Hk2 Htf ltac:(by rewrite Hin)).
      apply returns_inv in Hfr as ([] & k3 & Hrun3 & km3 & -> & Hk3 & Hf3). mstep Hrun3. cbn. exists km3.
      split; [by unfold kf, k1; rewrite !set_mem_upd, !set_mem_mem, !upd_upd_proc|]. split; [|cbn; lia]. exists (tf :: l'). split_and!; [done| |].
      * intros q. rewrite !elem_of_cons, Hin. tauto.
      * intros x Hx. rewrite Hf3 by (apply Hx; left). change (k_mem kf) with km2. rewrite Hs by (intros q Hq; apply Hx; by right).
        apply Hf1, Hx. left.
    + destruct Hp as (T & l' & Hv & _ & Hpages & _ & Hs & Hl). rewrite (proj2 (Z.eqb_neq _ _) D), bind_setp. cbn. split; [done|].
      exists km2, tf, root, T, l'. split; [by unfold k1; rewrite !set_mem_upd, !set_mem_mem, !upd_upd_proc|]. split; [done|]. split; [done|].
      eapply proc_mem_new; eauto.
Qed.
End ProcSpec.

(** ** fork: the pieces (kernel/proc.c)

    Duplicating the open files, copying memory and the trapframe into the new
    process. *)


(** ** Open files *)

Definition incr (f : file) : file := set_f_ref (f_ref f + 1) f.
Definition dup_refs (ofs : list (option nat)) (ft : list file) : list file :=
  foldl (fun ft o => match o with Some f => alter incr f ft | None => ft end) ft ofs.
(** How many of [ofs] refer to [f]. *)
Definition refs_to (f : nat) (ofs : list (option nat)) : Z := Z.of_nat (length (filter (fun o => o = Some f) ofs)).

Lemma length_dup_refs ofs : forall ft, length (dup_refs ofs ft) = length ft.
Proof. induction ofs as [|[f|] ofs IH]; intros ft; cbn; [done| |apply IH]. unfold dup_refs in IH. by rewrite IH, length_alter. Qed.
Lemma dup_refs_app a b ft : dup_refs (a ++ b) ft = dup_refs b (dup_refs a ft).
Proof. apply foldl_app. Qed.

Lemma nth_alter_file ft f g (h : file -> file) : (f < length ft)%nat ->
  nth g (alter h f ft) file0 = if decide (g = f) then h (nth f ft file0) else nth g ft file0.
Proof.
  intros Hf. rewrite !nth_lookup. case_decide as E.
  - subst g. rewrite list_lookup_alter_eq. by destruct (lookup_lt_is_Some_2 _ _ Hf) as [p ->].
  - by rewrite list_lookup_alter_ne.
Qed.

Lemma dup_refs_at ofs : forall ft g, (forall f, Some f ∈ ofs -> (f < length ft)%nat) ->
  nth g (dup_refs ofs ft) file0 = set_f_ref (f_ref (nth g ft file0) + refs_to g ofs) (nth g ft file0).
Proof.
  induction ofs as [|o ofs IH]; intros ft g Hr.
  { cbn. unfold refs_to. cbn. rewrite Z.add_0_r. by destruct (nth g ft file0). }
  change (dup_refs (o :: ofs) ft) with (dup_refs ofs (match o with Some f => alter incr f ft | None => ft end)).
  unfold refs_to. rewrite filter_cons. rewrite IH.
  - destruct o as [f|]; [|by rewrite decide_False by done]. rewrite nth_alter_file by (apply Hr; left).
    destruct (decide (g = f)) as [->|Hne].
    + rewrite decide_True by done. unfold incr, refs_to, set_f_ref. cbn [f_type f_ref f_readable f_writable f_pipe f_ip f_off f_major length]. f_equal. lia.
    + rewrite decide_False by congruence. done.
  - intros f Hf. destruct o; rewrite ?length_alter; apply Hr; by right.
Qed.

Section Files.
Context {S Dv : Type}.
Local Abbreviation K := (kstate S Dv).
Implicit Types (k : K).
Local Abbreviation nofile := (Z.to_nat NOFILE).

Lemma upd_ftable i f k ft : set_k_ftable ft (upd i f k) = upd i f (set_k_ftable ft k).
Proof. done. Qed.

Lemma upd_fs i f k fs : set_k_fs fs (upd i f k) = upd i f (set_k_fs fs k).
Proof. done. Qed.

Lemma fork_files_upto p np k ofs n : p <> np -> (np < length (k_procs k))%nat -> p_ofile (proc_at k p) = ofs -> length ofs = nofile ->
  p_ofile (proc_at k np) = replicate nofile None ->
  (forall f, Some f ∈ ofs -> (f < length (k_ftable k))%nat /\ 1 <= f_ref (file_at k f)) -> (n <= nofile)%nat ->
  for_each (seq 0 n) (fun i =>
    let! f := getp p (fun x => nth i (p_ofile x) None) in
    match f with
    | None => retM tt
    | Some f =>
        let! f := filedup f in
        setp np (fun x => set_p_ofile (<[i := Some f]> (p_ofile x)) x)
    end) k =
  Ok tt (set_k_ftable (dup_refs (take n ofs) (k_ftable k)) (upd np (set_p_ofile (take n ofs ++ replicate (nofile - n) None)) k)).
Proof.
  intros Hne Hnp Hofs Hlen Hchild Href. induction n as [|n IH]; intros Hn.
  { cbn [seq for_each]. rewrite take_0. cbn [app]. unfold retM. f_equal. rewrite Nat.sub_0_r, <- Hchild.
    assert (E : upd np (set_p_ofile (p_ofile (proc_at k np))) k = k).
    { transitivity (upd np id k); [apply upd_ext_proc; intros q Hq; rewrite (proc_at_lookup _ _ _ Hq); by destruct q|].
      unfold upd. rewrite list_alter_id by done. by destruct k. }
    rewrite E. by destruct k. }
  rewrite seq_S, for_each_app. mstep (IH ltac:(lia)). cbn [for_each Nat.add]. set (k1 := set_k_ftable _ _).
  unfold getp. mrun. assert (Hat : proc_at k1 p = proc_at k p).
  { change (proc_at k1 p) with (proc_at (upd np (set_p_ofile (take n ofs ++ replicate (nofile - n) None)) k) p). by rewrite proc_at_upd, decide_False. }
  rewrite Hat, Hofs. destruct (lookup_lt_is_Some_2 ofs n ltac:(lia)) as [o Ho]. rewrite (nth_lookup_Some _ _ None _ Ho).
  pose proof (take_S_r _ _ _ Ho) as Htk. rewrite Htk, dup_refs_app, <- app_assoc.
  assert (Hrep : replicate (nofile - n) (None : option nat) = None :: replicate (nofile - Datatypes.S n) None)
    by (replace (nofile - n)%nat with (Datatypes.S (nofile - Datatypes.S n)) by lia; done).
  assert (Hin : o ∈ ofs) by (eapply list_elem_of_lookup_2; exact Ho).
  destruct o as [f|].
  2: { mrun. unfold k1. rewrite Hrep. done. }
  destruct (Href f Hin) as [Hf Hr]. unfold filedup, getf. mrun.
  assert (Hfa : 1 <= f_ref (file_at k1 f)).
  { unfold file_at, k1. cbn [k_ftable set_k_ftable]. rewrite dup_refs_at; [cbn; unfold file_at, refs_to in *; lia|].
    intros g Hg. apply Href. eapply subseteq_take; eauto. }
  rewrite (proj2 (Z.ltb_ge _ _) Hfa). unfold setf, setp. mrun. unfold modifyM, k1. cbn. f_equal.
  unfold upd, set_k_ftable, set_k_procs. cbn. f_equal. rewrite list_alter_alter_eq. apply list_alter_ext; [|done]. intros q _. cbn.
  unfold set_p_ofile. cbn. f_equal. rewrite Hrep, insert_app_r_alt by (rewrite length_take; lia).
  rewrite length_take, Nat.min_l, Nat.sub_diag by lia. done.
Qed.
End Files.

(** ** Memory *)

Section Memory.
Context (kend : Z) (Hend : 0 < kend) (trampoline : Z).
Implicit Types km : kmem.

Lemma page_apart p q x : page_ok kend p -> page_ok kend q -> p <> q -> p <= x < p + 4096 -> off_page q x.
Proof. intros [Hp _] [Hq _] Hne Hx. destruct (page_disjoint p q); auto; unfold off_page; lia. Qed.

(** What is outside the free pages does not change when free pages are used. *)
Lemma copy_source_outside km km' l old To n avail : Forall (page_ok kend) l ->
  copy_source kend km old To n (fun q => q ∈ l) -> same_outside km km' l -> (forall q, avail q -> q ∈ l) ->
  copy_source kend km' old To n avail /\ (forall va, leaf (ram km') To va = leaf (ram km) To va) /\
  forall i off, (i < n)%nat -> 0 <= off < 4096 -> src_byte km' To i off = src_byte km To i off.
Proof.
  intros Hpg [Hpt Hap Hlf Hps] Hs Hav.
  assert (Hkeep : forall p x, page_ok kend p -> p ∉ l -> p <= x < p + 4096 -> mget (ram km') x = mget (ram km) x).
  { intros p x Hp Hni Hx. apply Hs. intros q Hq. eapply page_apart; eauto.
    - by apply (proj1 (Forall_forall _ _) Hpg).
    - by intros ->. }
  destruct (pt_agree kend (ram km) (ram km') old To Hpt) as [Hpt' Hl'].
  { intros a p x Ha Hx. eapply Hkeep; eauto using pt_page. }
  split_and!; [split|done|].
  - done.
  - intros b p Hb Ha. eapply Hap; eauto.
  - intros va Hva. rewrite Hl'. auto.
  - intros va Hva. rewrite Hl'. destruct (Hps va Hva) as [H1 H2]. split; [done|]. intros Ha. by apply H2, Hav.
  - intros i off Hi Ho. unfold src_byte. rewrite Hl'. destruct (Hps (4096 * Z.of_nat i) ltac:(lia)) as [H1 H2].
    eapply Hkeep; [exact H1|done|lia].
Qed.

Lemma filled_ext (m : mem) c c' ds : (forall i off, (i < length ds)%nat -> 0 <= off < 4096 -> c i off = c' i off) -> filled m c ds -> filled m c' ds.
Proof. intros H Hf i d off Hi Ho. rewrite <- H by (eauto using lookup_lt_Some). by apply Hf. Qed.

(** A page table that has grown by the user pages [ds]. *)
Lemma proc_mem_grown km km' l l' root tf T T' ds perm sz c :
  proc_mem kend trampoline km l root tf 0 T [] (fun _ => PTE_R) -> (forall i, good_perm (perm i)) -> 0 <= sz <= TRAPFRAME ->
  PGROUNDUP sz = 4096 * Z.of_nat (length ds) ->
  grown kend km T l root (leaf (ram km) T) perm c 0 ds km' T' l' ->
  proc_mem kend trampoline km' l' root tf sz T' ds perm /\ filled (ram km') c ds.
Proof.
  intros [Hv _ _ _ Hleaf _ Hu] Hp Hsz Hlen [Gi Gl Gn Gu Gc Gp Gf]. split; [|done]. apply Forall_cons in Hu as [(Hu1 & Hu2 & Hu3) _].
  destruct layout_facts as (EM & ET & EF). pose proof (PGROUNDUP_bounds sz ltac:(lia)) as Hb.
  assert (Hup : 4096 * Z.of_nat (length ds) <= TRAPFRAME) by (rewrite EF in *; Z.div_mod_to_equations; lia).
  assert (Hntf : ~ (pages_of T' l' tf \/ tf ∈ ds)).
  { rewrite Gp. intros [?|[b Hb']]; [done|by eapply Hu3]. }
  split; try done.
  - intros va Hva. rewrite Gl by done. unfold mapped_list at 1. case_decide as D.
    + unfold proc_leaf, mapped_list. rewrite !decide_False, decide_True by lia. done.
    + rewrite Hleaf by done. unfold proc_leaf. repeat case_decide; try done. rewrite mapped_list_nil. unfold mapped_list. by rewrite decide_False.
  - constructor; [|done]. tauto.
  - constructor; [|done]. split_and!; [done|intros ?; apply Hntf; left; by left|intros b ?; apply Hntf; left; right; eauto].
Qed.

(** Writing the trapframe. *)
Lemma proc_mem_trapframe km m' l root tf sz T ds perm c : proc_mem kend trampoline km l root tf sz T ds perm -> filled (ram km) c ds ->
  (forall x, off_page tf x -> mget m' x = mget (ram km) x) ->
  let km' := mk_kmem m' (freelist km) in proc_mem kend trampoline km' l root tf sz T ds perm /\ filled (ram km') c ds.
Proof.
  intros [Hv Hp Hsz Hlen Hleaf Hnd Hu] Hc Hm km'. pose proof Hu as [Htf Hds]%Forall_cons. apply NoDup_cons in Hnd as [Hni Hnd].
  destruct (vm_set_page kend km root T l tf m' Hv Htf Hm) as [Hv' Hl']. split.
  - split; try done; [|by constructor]. intros va Hva. cbn. by rewrite Hl', Hleaf.
  - intros i d off Hi Ho. cbn. rewrite Hm; [by apply Hc|]. assert (Hd : d ∈ ds) by (eapply list_elem_of_lookup_2; eauto).
    eapply (page_apart d tf); [by apply (proj1 (Forall_forall _ _) Hds)|apply Htf|by intros ->|lia].
Qed.
End Memory.

(** ** The new process *)

(** The trapframe at [tf] is that at [ptf], with 0 in [a0]. *)
Definition tf_copied (m m' : mem) (ptf tf : Z) : Prop :=
  (forall off, 0 <= off < sizeof_trapframe -> ~ TF_a0 <= off < TF_a0 + 8 -> mget m' (tf + off) = mget m (ptf + off)) /\
  load64 m' (tf + TF_a0) = 0.

Lemma tf_copy_ok m ptf tf : let m' := store64 (mwrite m tf (mread m ptf (Z.to_nat sizeof_trapframe))) (tf + TF_a0) 0 in
  tf_copied m m' ptf tf /\ forall x, off_page tf x -> mget m' x = mget m x.
Proof.
  intros m'. assert (Hl : length (mread m ptf (Z.to_nat sizeof_trapframe)) = 288%nat) by (by rewrite length_mread).
  split; [split|].
  - intros off Ho Hn. unfold m'. rewrite mget_store64_out by (unfold TF_a0 in *; lia).
    rewrite mget_mwrite, Hl, decide_True by (change sizeof_trapframe with 288 in Ho; lia).
    rewrite (nth_lookup_Some _ _ 0 (mget m (ptf + off))); [done|].
    rewrite lookup_mread by (change sizeof_trapframe with 288 in *; lia). do 2 f_equal. lia.
  - unfold m'. by rewrite load64_store64_eq.
  - intros x Hx. unfold m'. unfold off_page in Hx. rewrite mget_store64_out by (unfold TF_a0; lia). apply mget_mwrite_out. rewrite Hl. lia.
Qed.

Section Fork.
Context {S Dv : Type} `{!TxOps S} `{!OpOps S}.
Local Abbreviation K := (kstate S Dv).
Context (kend : Z) (Hend : 0 < kend) (trampoline forkret : Z) (Htramp : phys_addr trampoline).
Implicit Types (k : K).
Local Abbreviation nofile := (Z.to_nat NOFILE).

(** The child that [fork] by process [p] makes of the slot [s]; [x] is the parent. *)
Definition child (pid tf root : Z) (p : nat) (x s : proc) : proc :=
  mk_proc RUNNABLE (p_chan s) (p_killed s) (p_xstate s) pid (Some p) (p_kstack s) (p_sz x) root tf
    (mk_context forkret (p_kstack s + PGSIZE) (replicate 12 0)) (p_ofile x) (p_cwd x) (safestrcpy_bytes (p_name s) (p_name x) 16) (p_priority x).

Definition more_ref (i : inode) : inode := set_i_ref (i_ref i + 1) i.

(** What [fork] needs of the parent [x] and of the free slot. *)
Record fork_pre k (l : list Z) (To : gmap (list Z) Z) (n : nat) (ip : nat) : Prop := {
  fp_procs : length (k_procs k) = nproc;
  fp_run : running k;
  fp_mem : kmem_inv kend (k_mem k) l;
  fp_src : copy_source kend (k_mem k) (p_pagetable (proc_at k (k_cur k))) To n (fun q => q ∈ l);
  fp_sz : 0 <= p_sz (proc_at k (k_cur k)) <= TRAPFRAME;
  fp_n : PGROUNDUP (p_sz (proc_at k (k_cur k))) = 4096 * Z.of_nat n;
  fp_tf : page_ok kend (p_trapframe (proc_at k (k_cur k))) /\ p_trapframe (proc_at k (k_cur k)) ∉ l;
  fp_slot : forall i, first_unused k = Some i -> bare (proc_at k i) /\ p_ofile (proc_at k i) = replicate nofile None;
  fp_ofile : length (p_ofile (proc_at k (k_cur k))) = nofile;
  fp_files : forall f, Some f ∈ p_ofile (proc_at k (k_cur k)) -> (f < length (k_ftable k))%nat /\ 1 <= f_ref (file_at k f);
  fp_cwd : p_cwd (proc_at k (k_cur k)) = Some ip;
}.

(** The part of [fork] after the memory has been copied, with [km] the memory,
    [np] the slot and [tf] its trapframe. *)
Definition fork_rest (p np : nat) (x : proc) : M K Z :=
  do! setp np (set_p_sz (p_sz x)) in
  let! ntf := getp np p_trapframe in
  do! Mem (set_ram (fun m => mwrite m ntf (mread m (p_trapframe x) (Z.to_nat sizeof_trapframe)))) in
  do! tf_set ntf TF_a0 0 in
  do! fork_files p np in
  match p_cwd x with
  | None => panicM "null pointer"
  | Some cwd =>
      let! cwd := FS (idup cwd) in
      do! setp np (set_p_cwd (Some cwd)) in
      do! setp np (fun y => set_p_name (safestrcpy_bytes (p_name y) (p_name x) 16) y) in
      do! setp np (set_p_priority (p_priority x)) in
      let! pid := getp np p_pid in
      do! setp np (set_p_parent (Some p)) in
      do! setp np (set_p_state RUNNABLE) in
      retM pid
  end.

Lemma fork_rest_ok k l To n ip np pid tf root km : fork_pre k l To n ip -> first_unused k = Some np -> let p := k_cur k in let x := proc_at k p in
  let m' := store64 (mwrite (ram km) tf (mread (ram km) (p_trapframe x) (Z.to_nat sizeof_trapframe))) (tf + TF_a0) 0 in
  fork_rest p np x (upd np (newborn forkret pid tf root) (set_k_mem km (bumped k))) =
    Ok pid (upd np (child pid tf root p x) (set_k_fs (upd_i ip more_ref (fs_of k))
      (set_k_ftable (dup_refs (p_ofile x) (k_ftable k)) (set_k_mem (mk_kmem m' (freelist km)) (bumped k))))).
Proof.
  intros [Hn Hr Hk Hsrc Hsz Hpg Htf Hslot Hofl Hfiles Hcwd] Hnp p x m'.
  destruct (first_unused_Some k np Hnp) as (Hlt & Hun & _). rewrite <- Hn in Hlt.
  assert (Hne : p <> np) by (intros E; pose proof (run_state k Hr) as E'; fold p in E'; rewrite E, Hun in E'; done).
  unfold fork_rest. rewrite bind_setp, upd_upd_proc. set (k1 := upd np _ _).
  assert (Hl1 : length (k_procs k1) = length (k_procs k)) by (cbn; apply length_alter).
  assert (Hat : proc_at k1 np = set_p_sz (p_sz x) (newborn forkret pid tf root (proc_at k np))) by (by unfold k1; rewrite proc_at_upd_eq).
  assert (Hatp : proc_at k1 p = x) by (unfold k1; by rewrite proc_at_upd, decide_False).
  unfold getp at 1. mrun. rewrite Hat. cbn [p_trapframe set_p_sz newborn].
  assert (Hm : forall f, Mem (set_ram f) k1 = Ok tt (set_k_mem (mk_kmem (f (ram km)) (freelist km)) k1)) by done.
  mstep (Hm (fun m => mwrite m tf (mread m (p_trapframe x) (Z.to_nat sizeof_trapframe)))).
  unfold tf_set. set (k2 := set_k_mem _ k1).
  assert (Hm2 : Mem (set_ram (fun m => store64 m (tf + TF_a0) 0)) k2 = Ok tt (set_k_mem (mk_kmem m' (freelist km)) k1)) by done. mstep Hm2.
  clear Hm Hm2 k2. set (k3 := set_k_mem _ k1).
  assert (Hl3 : (np < length (k_procs k3))%nat) by (change (k_procs k3) with (k_procs k1); rewrite Hl1; done).
  pose proof (fork_files_upto p np k3 (p_ofile x) nofile Hne Hl3) as Hff.
  rewrite (bindM_ok (fork_files p np) _ _ _ _ (Hff ltac:(change (proc_at k3 p) with (proc_at k1 p); by rewrite Hatp) Hofl
    ltac:(change (proc_at k3 np) with (proc_at k1 np); rewrite Hat; by apply Hslot) Hfiles ltac:(lia))). clear Hff.
  change (length (p_ofile x) = nofile) in Hofl. rewrite take_ge, Nat.sub_diag, app_nil_r by lia. change (p_cwd x = Some ip) in Hcwd. rewrite Hcwd. set (k4 := set_k_ftable _ _).
  assert (Hfs : FS (idup ip) k4 = Ok ip (set_k_fs (upd_i ip more_ref (fs_of k)) k4)).
  { assert (Ef : fs_of k4 = fs_of k); [|unfold FS, zoomM; by rewrite Ef]. unfold fs_of. f_equal.
    change (proc_at k4 (k_cur k4)) with (proc_at (upd np (set_p_ofile (p_ofile x)) k3) p).
    rewrite proc_at_upd, decide_False by done. change (proc_at k3 p) with (proc_at k1 p). by rewrite Hatp. }
  mstep Hfs. rewrite !bind_setp. unfold getp. mrun. rewrite !bind_setp. unfold retM.
  set (k5 := upd np (set_p_priority _) _).
  assert (Hpid : p_pid (proc_at k5 np) = pid).
  { unfold k5. rewrite !proc_at_upd_eq by (rewrite ?length_upd_proc; cbn; rewrite !length_alter; done). cbn [p_pid set_p_priority set_p_name set_p_cwd].
    change (proc_at (set_k_fs _ k4) np) with (proc_at (upd np (set_p_ofile (p_ofile x)) k3) np).
    rewrite proc_at_upd_eq by done. cbn [p_pid set_p_ofile]. change (proc_at k3 np) with (proc_at k1 np). by rewrite Hat. }
  rewrite Hpid. f_equal. unfold k5, k4, k3, k1. rewrite set_mem_upd, set_mem_mem, !upd_upd_proc, upd_ftable, upd_fs, !upd_upd_proc.
  apply upd_ext_proc. intros s _. unfold child. by rewrite Hcwd.
Qed.
End Fork.
