(* ===== verification/Exec.v ===== *)
(** * exec (kernel/exec.c, kernel/elf.h)

    Loading a program: the ELF header and segments are read from the file into a
    new page table, the arguments are pushed on a new stack, and only then is
    the old image replaced. *)

From stdpp Require Import base list gmap strings.
From Stdlib Require Import ZArith Lia.
From S2P Require Import Prelude Mem Layout Kalloc Vm Sleeplock FsFormat Store Fs Kernel Sched File Proc.
Open Scope Z_scope.

Definition ELF_MAGIC : Z := 0x464C457F.
Definition ELF_PROG_LOAD : Z := 1.

(** [struct elfhdr] and [struct proghdr], the fields [exec] uses. *)
Record elfhdr := mk_elfhdr { e_magic : Z; e_entry : Z; e_phoff : Z; e_phnum : Z }.
Definition sizeof_elfhdr : Z := 64.
Definition elfhdr_of (bs : list Z) : elfhdr :=
  mk_elfhdr (get32 0 bs) (get64 24 bs) (get64 32 bs) (get16 56 bs).
Record proghdr := mk_proghdr { ph_type : Z; ph_off : Z; ph_vaddr : Z; ph_filesz : Z; ph_memsz : Z }.
Definition sizeof_proghdr : Z := 56.
Definition proghdr_of (bs : list Z) : proghdr :=
  mk_proghdr (get32 0 bs) (get64 8 bs) (get64 16 bs) (get64 32 bs) (get64 40 bs).

(** The part of a path after its last slash. *)
Fixpoint last_elem (last path : list Z) : list Z :=
  match path with
  | [] => last
  | c :: rest => last_elem (if c =? SLASH then rest else last) rest
  end.

Section Exec.
Context {S Dv : Type} `{!TxOps S} `{!OpOps S}.
Local Abbreviation K := (kstate S Dv).
Context (kend trampoline : Z).

(** [readi(ip, 0, (uint64)&x, off, n)] into a local variable of [n] bytes. *)
Definition read_local (ip : nat) (off n : Z) : M K (Z * list Z) :=
  FS (with_local (replicate (Z.to_nat n) 0) (readi local_copyout ip 0 off n)).

Fixpoint loadseg_loop (pagetable va : Z) (ip : nat) (offset sz i : Z) (fuel : nat) : M K Z :=
  match fuel with
  | O => fun _ => NoFuel
  | Datatypes.S fuel =>
      if i <? sz then
        let! pa := Mem (walkaddr pagetable (u64 (va + i))) in
        if pa =? 0 then panicM "loadseg: address should exist"
        else
          let n := if sz - i <? PGSIZE then sz - i else PGSIZE in
          let! r := FSMem (readi (mem_copyout 0 false) ip pa (u32 (offset + i)) n) in
          if negb (u32 r =? n) then retM (-1)
          else loadseg_loop pagetable va ip offset sz (u32 (i + PGSIZE)) fuel
      else retM 0
  end.
Definition loadseg (pagetable va : Z) (ip : nat) (offset sz : Z) : M K Z :=
  loadseg_loop pagetable va ip offset sz 0 (Z.to_nat (sz / PGSIZE) + 2).

(** The loop over the program headers: whether all went well, and [sz]. *)
Fixpoint load_loop (pagetable : Z) (ip : nat) (phnum i off sz : Z) (fuel : nat) : M K (bool * Z) :=
  match fuel with
  | O => fun _ => NoFuel
  | Datatypes.S fuel =>
      if i <? phnum then
        let! '(r, bs) := read_local ip (u32 off) sizeof_proghdr in
        if negb (r =? sizeof_proghdr) then retM (false, sz)
        else
          let ph := proghdr_of bs in
          let next sz := load_loop pagetable ip phnum (i + 1) (s32 (off + sizeof_proghdr)) sz fuel in
          if negb (ph_type ph =? ELF_PROG_LOAD) then next sz
          else if ph_memsz ph <? ph_filesz ph then retM (false, sz)
          else if u64 (ph_vaddr ph + ph_memsz ph) <? ph_vaddr ph then retM (false, sz)
          else
            let! sz1 := Mem (uvmalloc kend pagetable sz (u64 (ph_vaddr ph + ph_memsz ph))) in
            if sz1 =? 0 then retM (false, sz)
            else if negb (ph_vaddr ph mod PGSIZE =? 0) then retM (false, sz1)
            else
              let! r := loadseg pagetable (ph_vaddr ph) ip (u32 (ph_off ph)) (u32 (ph_filesz ph)) in
              if r <? 0 then retM (false, sz1) else next sz1
      else retM (true, sz)
  end.

(** The string at a kernel address, without its NUL; it ends within a page. *)
Fixpoint kstring (m : mem) (a : Z) (fuel : nat) : list Z :=
  match fuel with
  | O => []
  | Datatypes.S fuel => if mget m a =? 0 then [] else mget m a :: kstring m (a + 1) fuel
  end.

(** Pushing the argument strings: [sp] and the addresses pushed, or failure. *)
Fixpoint push_args (pagetable stackbase : Z) (argv : list Z) (argc sp : Z) (ustack : list Z) (fuel : nat) : M K (option (Z * list Z)) :=
  match fuel with
  | O => fun _ => NoFuel
  | Datatypes.S fuel =>
      let arg := nth (Z.to_nat argc) argv 0 in
      if arg =? 0 then retM (Some (sp, ustack))
      else if MAXARG <=? argc then retM None
      else
        let! str := Mem (getM (fun m => kstring (ram m) arg (Z.to_nat PGSIZE))) in
        let sp := u64 (sp - (Z.of_nat (length str) + 1)) in
        let sp := u64 (sp - sp mod 16) in
        if sp <? stackbase then retM None
        else
          let! r := Mem (copyout pagetable sp (str ++ [0])) in
          if r <? 0 then retM None
          else push_args pagetable stackbase argv (argc + 1) sp (ustack ++ [sp]) fuel
  end.

(** [bad:] after the file has been closed, and before. *)
Definition exec_bad (pagetable sz : Z) (ip : option nat) : M K Z :=
  do! (if negb (pagetable =? 0) then Mem (proc_freepagetable kend pagetable sz) else retM tt) in
  do! (match ip with
       | Some ip =>
           do! FS (iunlockput ip) in
           end_op
       | None => retM tt
       end) in
  retM (-1).

(** The second half: stack, arguments, and the switch to the new image. *)
Definition exec_commit (path argv : list Z) (pagetable sz entry : Z) : M K Z :=
  let! p := myproc in
  let! oldsz := getp p p_sz in
  let sz := PGROUNDUP sz in
  let! sz1 := Mem (uvmalloc kend pagetable sz (u64 (sz + 2 * PGSIZE))) in
  if sz1 =? 0 then exec_bad pagetable sz None
  else
    let sz := sz1 in
    do! Mem (uvmclear pagetable (u64 (sz - 2 * PGSIZE))) in
    let sp := sz in
    let stackbase := u64 (sp - PGSIZE) in
    let! pushed := push_args pagetable stackbase argv 0 sp [] (Z.to_nat MAXARG + 2) in
    match pushed with
    | None => exec_bad pagetable sz None
    | Some (sp, ustack) =>
        let argc := Z.of_nat (length ustack) in
        if MAXARG <=? argc then panicM "ustack overflow"
        else
          let sp := u64 (sp - (argc + 1) * 8) in
          let sp := u64 (sp - sp mod 16) in
          if sp <? stackbase then exec_bad pagetable sz None
          else
            let! r := Mem (copyout pagetable sp (mjoin (le_bytes 8 <$> (ustack ++ [0])))) in
            if r <? 0 then exec_bad pagetable sz None
            else
              let! tf := getp p p_trapframe in
              do! tf_set tf TF_a1 sp in
              do! setp p (fun x => set_p_name (safestrcpy_bytes (p_name x) (last_elem path path) 16) x) in
              let! oldpagetable := getp p p_pagetable in
              do! setp p (set_p_pagetable pagetable) in
              do! setp p (set_p_sz sz) in
              do! tf_set tf TF_epc entry in
              do! tf_set tf TF_sp sp in
              do! Mem (proc_freepagetable kend oldpagetable oldsz) in
              retM argc
    end.

(** [path] is a string; [argv] the addresses of the argument strings, ended by
    a null pointer. *)
Definition exec (path argv : list Z) : M K Z :=
  let! p := myproc in
  do! begin_op in
  let! cwd := getp p (fun x => default 0%nat (p_cwd x)) in
  let! ip := FS (namei path cwd) in
  match ip with
  | None =>
      do! end_op in
      retM (-1)
  | Some ip =>
      do! FS (ilock ip) in
      let! '(r, bs) := read_local ip 0 sizeof_elfhdr in
      let elf := elfhdr_of bs in
      if negb (r =? sizeof_elfhdr) then exec_bad 0 0 (Some ip)
      else if negb (e_magic elf =? ELF_MAGIC) then exec_bad 0 0 (Some ip)
      else
        let! tf := getp p p_trapframe in
        let! pagetable := Mem (proc_pagetable kend trampoline tf) in
        if pagetable =? 0 then exec_bad 0 0 (Some ip)
        else
          let! '(ok, sz) := load_loop pagetable ip (e_phnum elf) 0 (s32 (e_phoff elf)) 0 (Z.to_nat (e_phnum elf) + 1) in
          if negb ok then exec_bad pagetable sz (Some ip)
          else
            do! FS (iunlockput ip) in
            do! end_op in
            exec_commit path argv pagetable sz (e_entry elf)
  end.
End Exec.
