(* ===== verification/Arg.v ===== *)
(** * System call arguments (kernel/syscall.c) *)

From stdpp Require Import base list gmap strings.
From Stdlib Require Import ZArith Lia.
From S2P Require Import Prelude Mem Layout Kalloc Vm Sleeplock FsFormat Store Fs Kernel Sched.
Open Scope Z_scope.

(** The string in a buffer: the bytes before the first NUL. *)
Fixpoint cstring (bs : list Z) : list Z :=
  match bs with
  | [] => []
  | b :: bs => if b =? 0 then [] else b :: cstring bs
  end.

Section Arg.
Context {S Dv : Type}.
Local Abbreviation K := (kstate S Dv).

(** The word at a user address, or failure. *)
Definition fetchaddr (addr : Z) : M K (option Z) :=
  let! sz := my p_sz in
  if (sz <=? addr) || (sz <? u64 (addr + 8)) then retM None
  else
    let! pt := my p_pagetable in
    let! '(r, bs) := Mem (copyin pt addr 8) in
    if negb (r =? 0) then retM None else retM (Some (le_val bs)).

(** The bytes stored in the buffer, and the result: -1 or the length. *)
Definition fetchstr (addr max : Z) : M K (Z * list Z) :=
  let! pt := my p_pagetable in
  let! '(err, bs) := Mem (copyinstr pt addr max) in
  if err <? 0 then retM (err, bs)
  else retM (Z.of_nat (length (cstring bs)), bs).

Definition argraw (n : Z) : M K Z :=
  let! tf := my p_trapframe in
  if n =? 0 then tf_get tf TF_a0
  else if n =? 1 then tf_get tf TF_a1
  else if n =? 2 then tf_get tf TF_a2
  else if n =? 3 then tf_get tf TF_a3
  else if n =? 4 then tf_get tf TF_a4
  else if n =? 5 then tf_get tf TF_a5
  else panicM "argraw".

(** [argint] and [argaddr] always return 0; their values. *)
Definition argint (n : Z) : M K Z :=
  let! v := argraw n in
  retM (s32 v).
Definition argaddr (n : Z) : M K Z := argraw n.

Definition argstr (n max : Z) : M K (Z * list Z) :=
  let! addr := argaddr n in
  fetchstr addr max.
End Arg.
