(* ===== verification/Sysfile.v ===== *)
(** * File-system system calls (kernel/sysfile.c) *)

From stdpp Require Import base list gmap strings.
From Stdlib Require Import ZArith Lia.
From S2P Require Import Prelude Mem Layout Kalloc Vm Sleeplock FsFormat Store Fs Kernel Sched File Proc Exec Arg.
Open Scope Z_scope.

Definition O_RDONLY : Z := 0.
Definition O_WRONLY : Z := 1.
Definition O_RDWR : Z := 2.
Definition O_CREATE : Z := 0x200.
Definition O_TRUNC : Z := 0x400.

(** [.] and [..] *)
Definition DOT : list Z := [46].
Definition DOTDOT : list Z := [46; 46].
Definition name0 : list Z := replicate (Z.to_nat DIRSIZ) 0.

Section Sysfile.
Context {S Dv : Type} `{!TxOps S} `{!OpOps S}.
Local Abbreviation K := (kstate S Dv).
Context (kend trampoline : Z) (devread devwrite : Z -> option (Z -> Z -> M K Z)) (pad : list Z).

(** Argument [n] as a descriptor of the running process, and its file. *)
Definition argfd (n : Z) : M K (option (Z * nat)) :=
  let! fd := argint n in
  if (fd <? 0) || (NOFILE <=? fd) then retM None
  else
    let! f := my (fun p => nth (Z.to_nat fd) (p_ofile p) None) in
    retM ((fun f => (fd, f)) <$> f).

Fixpoint fdalloc_loop (f : nat) (fds : list nat) : M K Z :=
  match fds with
  | [] => retM (-1)
  | fd :: fds =>
      let! p := myproc in
      let! x := getp p (fun x => nth fd (p_ofile x) None) in
      match x with
      | None =>
          do! setp p (fun x => set_p_ofile (<[fd := Some f]> (p_ofile x)) x) in
          retM (Z.of_nat fd)
      | Some _ => fdalloc_loop f fds
      end
  end.
Definition fdalloc (f : nat) : M K Z := fdalloc_loop f (seq 0 (Z.to_nat NOFILE)).

Definition sys_dup : M K Z :=
  let! a := argfd 0 in
  match a with
  | None => retM (-1)
  | Some (_, f) =>
      let! fd := fdalloc f in
      if fd <? 0 then retM (-1)
      else
        do! filedup f in
        retM fd
  end.

Definition sys_read : M K Z :=
  let! a := argfd 0 in
  match a with
  | None => retM (-1)
  | Some (_, f) =>
      let! n := argint 2 in
      let! p := argaddr 1 in
      fileread devread f p n
  end.

Definition sys_write : M K Z :=
  let! a := argfd 0 in
  match a with
  | None => retM (-1)
  | Some (_, f) =>
      let! n := argint 2 in
      let! p := argaddr 1 in
      filewrite devwrite f p n
  end.

Definition sys_close : M K Z :=
  let! a := argfd 0 in
  match a with
  | None => retM (-1)
  | Some (fd, f) =>
      let! p := myproc in
      do! setp p (fun x => set_p_ofile (<[Z.to_nat fd := None]> (p_ofile x)) x) in
      do! fileclose kend f in
      retM 0
  end.

Definition sys_fstat : M K Z :=
  let! a := argfd 0 in
  match a with
  | None => retM (-1)
  | Some (_, f) =>
      let! st := argaddr 1 in
      filestat pad f st
  end.

(** The current directory, for [namei]. *)
Definition cwd : M K nat := my (fun p => default 0%nat (p_cwd p)).

Definition sys_link : M K Z :=
  let! '(r, old) := argstr 0 MAXPATH in
  if r <? 0 then retM (-1)
  else
    let! '(r, new) := argstr 1 MAXPATH in
    if r <? 0 then retM (-1)
    else
      do! begin_op in
      let! d := cwd in
      let! ip := FS (namei (cstring old) d) in
      match ip with
      | None =>
          do! end_op in
          retM (-1)
      | Some ip =>
          let bad :=
            do! FS (ilock ip) in
            do! FS (seti ip (fun i => set_i_nlink (s16 (i_nlink i - 1)) i)) in
            do! FS (iupdate ip) in
            do! FS (iunlockput ip) in
            do! end_op in
            retM (-1) in
          do! FS (ilock ip) in
          let! t := FS (geti ip i_type) in
          if t =? T_DIR then
            do! FS (iunlockput ip) in
            do! end_op in
            retM (-1)
          else
            do! FS (seti ip (fun i => set_i_nlink (s16 (i_nlink i + 1)) i)) in
            do! FS (iupdate ip) in
            do! FS (iunlock ip) in
            let! '(dp, name) := FS (nameiparent (cstring new) name0 d) in
            match dp with
            | None => bad
            | Some dp =>
                do! FS (ilock dp) in
                let! ddev := FS (geti dp i_dev) in
                let! idev := FS (geti ip i_dev) in
                let! inum := FS (geti ip i_inum) in
                let! r := (if negb (ddev =? idev) then retM (-1) else FS (dirlink dp name inum)) in
                if r <? 0 then
                  do! FS (iunlockput dp) in
                  bad
                else
                  do! FS (iunlockput dp) in
                  do! FS (iput ip) in
                  do! end_op in
                  retM 0
            end
      end.

(** The loop of [isdirempty]. *)
Fixpoint isdirempty_loop (dp : nat) (off : Z) (fuel : nat) : M (fstate (S := S)) bool :=
  match fuel with
  | O => fun _ => NoFuel
  | Datatypes.S fuel =>
      let! size := geti dp i_size in
      if off <? size then
        let! '(r, de) := with_local de0 (readi local_copyout dp 0 off sizeof_dirent) in
        if negb (r =? sizeof_dirent) then panicM "isdirempty: readi"
        else if negb (de_inum (dirent_of_bytes de) =? 0) then retM false
        else isdirempty_loop dp (off + sizeof_dirent) fuel
      else retM true
  end.
Definition isdirempty (dp : nat) : M (fstate (S := S)) bool :=
  let! size := geti dp i_size in
  isdirempty_loop dp (2 * sizeof_dirent) (Z.to_nat (size / sizeof_dirent) + 2).

Definition sys_unlink : M K Z :=
  let! '(r, path) := argstr 0 MAXPATH in
  if r <? 0 then retM (-1)
  else
    do! begin_op in
    let! d := cwd in
    let! '(dp, name) := FS (nameiparent (cstring path) name0 d) in
    match dp with
    | None =>
        do! end_op in
        retM (-1)
    | Some dp =>
        let bad :=
          do! FS (iunlockput dp) in
          do! end_op in
          retM (-1) in
        do! FS (ilock dp) in
        if (namecmp name DOT =? 0) || (namecmp name DOTDOT =? 0) then bad
        else
          let! found := FS (dirlookup dp name) in
          match found with
          | None => bad
          | Some (ip, off) =>
              do! FS (ilock ip) in
              let! i := FS (geti ip id) in
              if i_nlink i <? 1 then panicM "unlink: nlink < 1"
              else
                let! empty := (if i_type i =? T_DIR then FS (isdirempty ip) else retM true) in
                if negb empty then
                  do! FS (iunlockput ip) in
                  bad
                else
                  let! '(r, _) := FS (with_local de0 (writei local_copyin dp 0 off sizeof_dirent)) in
                  if negb (r =? sizeof_dirent) then panicM "unlink: writei"
                  else
                    do! (if i_type i =? T_DIR then
                           do! FS (seti dp (fun x => set_i_nlink (s16 (i_nlink x - 1)) x)) in
                           FS (iupdate dp)
                         else retM tt) in
                    do! FS (iunlockput dp) in
                    do! FS (seti ip (fun x => set_i_nlink (s16 (i_nlink x - 1)) x)) in
                    do! FS (iupdate ip) in
                    do! FS (iunlockput ip) in
                    do! end_op in
                    retM 0
          end
    end.

(** [create]: the locked inode, or failure. *)
Definition create (path : list Z) (type major minor : Z) (d : nat) : M (fstate (S := S)) (option nat) :=
  let! '(dp, name) := nameiparent path name0 d in
  match dp with
  | None => retM None
  | Some dp =>
      do! ilock dp in
      let! found := dirlookup dp name in
      match found with
      | Some (ip, _) =>
          do! iunlockput dp in
          do! ilock ip in
          let! t := geti ip i_type in
          if (type =? T_FILE) && ((t =? T_FILE) || (t =? T_DEVICE)) then retM (Some ip)
          else
            do! iunlockput ip in
            retM None
      | None =>
          let! dev := geti dp i_dev in
          let! ip := ialloc dev type in
          do! ilock ip in
          do! seti ip (fun i => set_i_nlink 1 (set_i_minor minor (set_i_major major i))) in
          do! iupdate ip in
          let! inum := geti ip i_inum in
          do! (if type =? T_DIR then
                 do! seti dp (fun i => set_i_nlink (s16 (i_nlink i + 1)) i) in
                 do! iupdate dp in
                 let! dnum := geti dp i_inum in
                 let! r1 := dirlink ip DOT inum in
                 if r1 <? 0 then panicM "create dots"
                 else
                   let! r2 := dirlink ip DOTDOT dnum in
                   if r2 <? 0 then panicM "create dots" else retM tt
               else retM tt) in
          let! r := dirlink dp name inum in
          if r <? 0 then panicM "create: dirlink"
          else
            do! iunlockput dp in
            retM (Some ip)
      end
  end.

(** The first part of [sys_open]: the inode, locked. *)
Definition open_inode (path : list Z) (omode : Z) : M K (option nat) :=
  let! d := cwd in
  if negb (Z.land omode O_CREATE =? 0) then
    let! ip := FS (create path T_FILE 0 0 d) in
    match ip with
    | None =>
        do! end_op in
        retM None
    | Some ip => retM (Some ip)
    end
  else
    let! ip := FS (namei path d) in
    match ip with
    | None =>
        do! end_op in
        retM None
    | Some ip =>
        do! FS (ilock ip) in
        let! t := FS (geti ip i_type) in
        if (t =? T_DIR) && negb (omode =? O_RDONLY) then
          do! FS (iunlockput ip) in
          do! end_op in
          retM None
        else retM (Some ip)
    end.

Definition b2z (b : bool) : Z := if b then 1 else 0.

Definition sys_open : M K Z :=
  let! '(n, path) := argstr 0 MAXPATH in
  if n <? 0 then retM (-1)
  else
    let! omode := argint 1 in
    do! begin_op in
    let! ip := open_inode (cstring path) omode in
    match ip with
    | None => retM (-1)
    | Some ip =>
        let close :=
          do! FS (iunlockput ip) in
          do! end_op in
          retM (-1) in
        let! i := FS (geti ip id) in
        if (i_type i =? T_DEVICE) && ((i_major i <? 0) || (NDEV <=? i_major i)) then close
        else
          let! f := filealloc in
          match f with
          | None => close
          | Some f =>
              let! fd := fdalloc f in
              if fd <? 0 then
                do! fileclose kend f in
                close
              else
                do! (if i_type i =? T_DEVICE then setf f (fun x => set_f_major (i_major i) (set_f_type FD_DEVICE x))
                     else setf f (fun x => set_f_off 0 (set_f_type FD_INODE x))) in
                do! setf f (set_f_ip ip) in
                do! setf f (set_f_readable (b2z (Z.land omode O_WRONLY =? 0))) in
                do! setf f (set_f_writable (b2z (negb (Z.land omode O_WRONLY =? 0) || negb (Z.land omode O_RDWR =? 0)))) in
                do! (if negb (Z.land omode O_TRUNC =? 0) && (i_type i =? T_FILE) then FS (itrunc ip) else retM tt) in
                do! FS (iunlock ip) in
                do! end_op in
                retM fd
          end
    end.

(** The common end of [sys_mkdir] and [sys_mknod]. *)
Definition make_node (path : list Z) (type major minor : Z) : M K Z :=
  let! d := cwd in
  let! ip := FS (create path type major minor d) in
  match ip with
  | None =>
      do! end_op in
      retM (-1)
  | Some ip =>
      do! FS (iunlockput ip) in
      do! end_op in
      retM 0
  end.

Definition sys_mkdir : M K Z :=
  do! begin_op in
  let! '(r, path) := argstr 0 MAXPATH in
  if r <? 0 then
    do! end_op in
    retM (-1)
  else make_node (cstring path) T_DIR 0 0.

Definition sys_mknod : M K Z :=
  do! begin_op in
  let! '(r, path) := argstr 0 MAXPATH in
  if r <? 0 then
    do! end_op in
    retM (-1)
  else
    let! major := argint 1 in
    let! minor := argint 2 in
    make_node (cstring path) T_DEVICE (s16 major) (s16 minor).

Definition sys_chdir : M K Z :=
  let! p := myproc in
  do! begin_op in
  let! '(r, path) := argstr 0 MAXPATH in
  if r <? 0 then
    do! end_op in
    retM (-1)
  else
    let! d := cwd in
    let! ip := FS (namei (cstring path) d) in
    match ip with
    | None =>
        do! end_op in
        retM (-1)
    | Some ip =>
        do! FS (ilock ip) in
        let! t := FS (geti ip i_type) in
        if negb (t =? T_DIR) then
          do! FS (iunlockput ip) in
          do! end_op in
          retM (-1)
        else
          do! FS (iunlock ip) in
          do! FS (iput d) in
          do! end_op in
          do! setp p (set_p_cwd (Some ip)) in
          retM 0
    end.

(** The argument pages allocated so far are freed. *)
Definition free_argv (argv : list Z) : M K unit := for_each argv (fun a => Mem (kfree kend a)).

(** The loop of [sys_exec] over the argument vector: the pages, and whether all
    was well. *)
Fixpoint fetch_argv (uargv i : Z) (argv : list Z) (fuel : nat) : M K (bool * list Z) :=
  match fuel with
  | O => fun _ => NoFuel
  | Datatypes.S fuel =>
      if MAXARG <=? i then retM (false, argv)
      else
        let! uarg := fetchaddr (u64 (uargv + 8 * i)) in
        match uarg with
        | None => retM (false, argv)
        | Some uarg =>
            if uarg =? 0 then retM (true, argv)
            else
              let! a := Mem kalloc in
              if a =? 0 then retM (false, argv)
              else
                let! '(r, bs) := fetchstr uarg PGSIZE in
                do! Mem (set_ram (fun m => mwrite m a bs)) in
                if r <? 0 then retM (false, argv ++ [a])
                else fetch_argv uargv (i + 1) (argv ++ [a]) fuel
        end
  end.

Definition sys_exec : M K Z :=
  let! '(r, path) := argstr 0 MAXPATH in
  if r <? 0 then retM (-1)
  else
    let! uargv := argaddr 1 in
    let! '(ok, argv) := fetch_argv uargv 0 [] (Z.to_nat MAXARG + 1) in
    if negb ok then
      do! free_argv argv in
      retM (-1)
    else
      let! ret := exec kend trampoline (cstring path) (argv ++ [0]) in
      do! free_argv argv in
      retM ret.

(** Both ends of a pipe are closed again. *)
Definition pipe_undo (rf wf : nat) : M K Z :=
  do! fileclose kend rf in
  do! fileclose kend wf in
  retM (-1).

Definition sys_pipe : M K Z :=
  let! p := myproc in
  let! fdarray := argaddr 0 in
  let! pr := pipealloc kend in
  match pr with
  | None => retM (-1)
  | Some (rf, wf) =>
      let clear fd := setp p (fun x => set_p_ofile (<[Z.to_nat fd := None]> (p_ofile x)) x) in
      let! fd0 := fdalloc rf in
      if fd0 <? 0 then pipe_undo rf wf
      else
        let! fd1 := fdalloc wf in
        if fd1 <? 0 then
          do! clear fd0 in
          pipe_undo rf wf
        else
          let! pt := my p_pagetable in
          let! r := Mem (copyout pt fdarray (le_bytes 4 fd0)) in
          let! r := (if r <? 0 then retM r else Mem (copyout pt (u64 (fdarray + 4)) (le_bytes 4 fd1))) in
          if r <? 0 then
            do! clear fd0 in
            do! clear fd1 in
            pipe_undo rf wf
          else retM 0
  end.
End Sysfile.
