(* ===== verification/Sysproc.v ===== *)
(** * Process system calls (kernel/sysproc.c)

    A call that goes to sleep, and [sys_exit], stop there. *)

From stdpp Require Import base list gmap strings.
From Stdlib Require Import ZArith Lia.
From S2P Require Import Prelude Mem Layout Kalloc Vm Sleeplock FsFormat Store Fs Kernel Sched File Proc Arg.
Open Scope Z_scope.

Definition procstate_num (st : procstate) : Z :=
  match st with UNUSED => 0 | USED => 1 | SLEEPING => 2 | RUNNABLE => 3 | RUNNING => 4 | ZOMBIE => 5 end.

(** [struct procinfo] and [struct systime]. *)
Record procinfo := mk_procinfo { pi_pid : Z; pi_ppid : Z; pi_state : Z; pi_sz : Z; pi_name : list Z }.
Definition procinfo_bytes (x : procinfo) : list Z :=
  le_bytes 4 (pi_pid x) ++ le_bytes 4 (pi_ppid x) ++ le_bytes 4 (pi_state x) ++ le_bytes 4 (pi_sz x) ++ pi_name x.
Record systime := mk_systime { stm_ticks : Z; stm_uptime : Z }.
Definition systime_bytes (x : systime) : list Z := le_bytes 4 (stm_ticks x) ++ le_bytes 4 (stm_uptime x).

Section Sysproc.
Context {S Dv : Type} `{!TxOps S} `{!OpOps S}.
Local Abbreviation K := (kstate S Dv).
(** The linker's addresses; what is on the stack in [info.name]. *)
Context (kend trampoline forkret : Z) (stack_name : list Z).

Definition sys_exit : M K Z :=
  let! n := argint 0 in
  do! exit kend n in
  blockM.

Definition sys_getpid : M K Z := my p_pid.

Definition sys_fork : M K Z := fork kend trampoline forkret.

Definition sys_wait : M K Z :=
  let! p := argaddr 0 in
  awake (wait kend p).

Definition sys_sbrk : M K Z :=
  let! n := argint 0 in
  let! addr := my (fun p => s32 (p_sz p)) in
  let! r := growproc kend n in
  if r <? 0 then retM (-1) else retM addr.

(** The loop of [sys_sleep]; [n] is converted to [uint] in the comparison. *)
Definition sleep_until (ticks0 n : Z) : M K (progress Z Z) :=
  let! ticks := getM k_ticks in
  if u32 (ticks - ticks0) <? u32 n then
    let! killed := my p_killed in
    if negb (killed =? 0) then retM (Done (-1))
    else
      do! sleep ChTicks in
      retM (Asleep ticks0)
  else retM (Done 0).
Definition sys_sleep : M K Z :=
  let! n := argint 0 in
  let! ticks0 := getM k_ticks in
  awake (sleep_until ticks0 n).

Definition sys_kill : M K Z :=
  let! pid := argint 0 in
  kill pid.

Definition sys_uptime : M K Z := getM k_ticks.

Definition sys_getprocinfo : M K Z :=
  let! info_addr := argaddr 0 in
  let! p := my id in
  let! ppid := (match p_parent p with Some q => getp q p_pid | None => retM 0 end) in
  let info := mk_procinfo (p_pid p) ppid (procstate_num (p_state p)) (u32 (p_sz p))
                (safestrcpy_bytes stack_name (p_name p) 16) in
  let! r := Mem (copyout (p_pagetable p) info_addr (procinfo_bytes info)) in
  if r <? 0 then retM (-1) else retM 0.

Definition sys_getsystime : M K Z :=
  let! time_addr := argaddr 0 in
  let! ticks := getM k_ticks in
  let time := mk_systime ticks (ticks / 100) in
  let! pt := my p_pagetable in
  let! r := Mem (copyout pt time_addr (systime_bytes time)) in
  if r <? 0 then retM (-1) else retM 0.

(** The loop of [sys_setpriority]. *)
Fixpoint setpriority_loop (idx : list nat) (pid priority : Z) : M K Z :=
  match idx with
  | [] => retM (-1)
  | i :: idx =>
      let! x := getp i p_pid in
      if x =? pid then
        do! setp i (set_p_priority priority) in
        retM 0
      else setpriority_loop idx pid priority
  end.
Definition sys_setpriority : M K Z :=
  let! pid := argint 0 in
  let! priority := argint 1 in
  if (priority <? 0) || (10 <? priority) then retM (-1)
  else setpriority_loop (seq 0 nproc) pid priority.
End Sysproc.
