(* ===== verification/Syscall.v ===== *)
(** * System call dispatch (kernel/syscall.c, kernel/syscall.h) *)

From stdpp Require Import base list gmap strings.
From Stdlib Require Import ZArith Lia.
From S2P Require Import Prelude Mem Layout Kalloc Vm Sleeplock FsFormat Store Fs Kernel Sched File Proc Exec Arg Sysfile Sysproc.
Open Scope Z_scope.

Definition SYS_fork : Z := 1.
Definition SYS_exit : Z := 2.
Definition SYS_wait : Z := 3.
Definition SYS_pipe : Z := 4.
Definition SYS_read : Z := 5.
Definition SYS_kill : Z := 6.
Definition SYS_exec : Z := 7.
Definition SYS_fstat : Z := 8.
Definition SYS_chdir : Z := 9.
Definition SYS_dup : Z := 10.
Definition SYS_getpid : Z := 11.
Definition SYS_sbrk : Z := 12.
Definition SYS_sleep : Z := 13.
Definition SYS_uptime : Z := 14.
Definition SYS_open : Z := 15.
Definition SYS_write : Z := 16.
Definition SYS_mknod : Z := 17.
Definition SYS_unlink : Z := 18.
Definition SYS_link : Z := 19.
Definition SYS_mkdir : Z := 20.
Definition SYS_close : Z := 21.
Definition SYS_getprocinfo : Z := 22.
Definition SYS_getsystime : Z := 23.
Definition SYS_setpriority : Z := 24.

Section Syscall.
Context {S Dv : Type} `{!TxOps S} `{!OpOps S}.
Local Abbreviation K := (kstate S Dv).
Context (kend trampoline forkret : Z) (devread devwrite : Z -> option (Z -> Z -> M K Z)) (pad stack_name : list Z).

(** The table [syscalls], in the order of its designated initializers. *)
Definition syscalls : list (Z * M K Z) := [
  (SYS_fork, sys_fork kend trampoline forkret);
  (SYS_exit, sys_exit kend);
  (SYS_wait, sys_wait kend);
  (SYS_pipe, sys_pipe kend);
  (SYS_read, sys_read devread);
  (SYS_kill, sys_kill);
  (SYS_exec, sys_exec kend trampoline);
  (SYS_fstat, sys_fstat pad);
  (SYS_chdir, sys_chdir);
  (SYS_dup, sys_dup);
  (SYS_getpid, sys_getpid);
  (SYS_sbrk, sys_sbrk kend);
  (SYS_sleep, sys_sleep);
  (SYS_uptime, sys_uptime);
  (SYS_open, sys_open kend);
  (SYS_write, sys_write devwrite);
  (SYS_mknod, sys_mknod);
  (SYS_unlink, sys_unlink);
  (SYS_link, sys_link);
  (SYS_mkdir, sys_mkdir);
  (SYS_close, sys_close kend);
  (SYS_getprocinfo, sys_getprocinfo stack_name);
  (SYS_getsystime, sys_getsystime);
  (SYS_setpriority, sys_setpriority)
].

Definition syscall_at (num : Z) : option (M K Z) :=
  (fun p => snd (snd p)) <$> list_find (fun e => fst e = num) syscalls.

(** [NELEM(syscalls)] is one more than the largest index. *)
Definition NSYSCALLS : Z := 25.

(** The message for an unknown call is output only. *)
Definition syscall : M K unit :=
  let! tf := my p_trapframe in
  let! a7 := tf_get tf TF_a7 in
  let num := s32 a7 in
  let unknown := tf_set tf TF_a0 (u64 (-1)) in
  if (0 <? num) && (num <? NSYSCALLS) then
    match syscall_at num with
    | Some f =>
        let! r := f in
        tf_set tf TF_a0 (u64 r)
    | None => unknown
    end
  else unknown.
End Syscall.
