(* ===== verification/Trap.v ===== *)
(** * Traps (kernel/trap.c, kernel/plic.c)

    The supervisor registers of the hart next to the kernel state.  The PLIC's
    claim register, the device drivers' interrupt handlers and whatever runs
    between a [yield] and the process's next turn are parameters. *)

From stdpp Require Import base list gmap strings.
From Stdlib Require Import ZArith Lia.
From S2P Require Import Prelude Mem Layout Kalloc Vm Sleeplock FsFormat Store Fs Kernel Sched File Proc Exec Arg Sysfile Sysproc Syscall.
Open Scope Z_scope.

Definition SSTATUS_SPP : Z := Z.shiftl 1 8.
Definition SSTATUS_SPIE : Z := Z.shiftl 1 5.
Definition SSTATUS_SIE : Z := Z.shiftl 1 1.

Record csr := mk_csr {
  sstatus : Z; stvec : Z; sepc : Z; scause : Z; stval : Z; sip : Z; satp : Z; tp : Z;
}.
Definition set_sstatus v c := mk_csr v (stvec c) (sepc c) (scause c) (stval c) (sip c) (satp c) (tp c).
Definition set_stvec v c := mk_csr (sstatus c) v (sepc c) (scause c) (stval c) (sip c) (satp c) (tp c).
Definition set_sepc v c := mk_csr (sstatus c) (stvec c) v (scause c) (stval c) (sip c) (satp c) (tp c).
Definition set_sip v c := mk_csr (sstatus c) (stvec c) (sepc c) (scause c) (stval c) v (satp c) (tp c).

Section Trap.
Context {S Dv : Type} `{!TxOps S} `{!OpOps S}.
Local Abbreviation K := (kstate S Dv).
Context (kend trampoline forkret : Z) (devread devwrite : Z -> option (Z -> Z -> M K Z)) (pad stack_name : list Z).
(** Addresses of code: [kernelvec], [uservec], [userret] and [usertrap]. *)
Context (kernelvec uservec userret usertrap_addr : Z).

Record tstate := mk_t { t_k : K; t_csr : csr }.
Definition Kern {A} (m : M K A) : M tstate A := zoomM t_k (fun k t => mk_t k (t_csr t)) m.
Definition rcsr {A} (g : csr -> A) : M tstate A := getM (fun t => g (t_csr t)).
Definition wcsr (g : csr -> csr) : M tstate unit := modifyM (fun t => mk_t (t_k t) (g (t_csr t))).

(** The hardware and the rest of the system. *)
Context (plic_claim : M tstate Z) (plic_complete : Z -> M tstate unit) (uartintr virtio_disk_intr resched : M tstate unit).

Definition intr_on : M tstate unit := wcsr (fun c => set_sstatus (Z.lor (sstatus c) SSTATUS_SIE) c).
Definition intr_off : M tstate unit := wcsr (fun c => set_sstatus (Z.land (sstatus c) (u64 (Z.lnot SSTATUS_SIE))) c).

Definition trapinithart : M tstate unit := wcsr (set_stvec kernelvec).

Definition clockintr : M tstate unit :=
  Kern (do! modifyM (fun k => set_k_ticks (u32 (k_ticks k + 1)) k) in wakeup ChTicks).

(** 2 for a timer interrupt, 1 for another device, 0 if not recognized. *)
Definition devintr : M tstate Z :=
  let! cause := rcsr scause in
  if negb (Z.land cause 0x8000000000000000 =? 0) && (Z.land cause 0xff =? 9) then
    let! irq := plic_claim in
    do! (if irq =? UART0_IRQ then uartintr
         else if irq =? VIRTIO0_IRQ then virtio_disk_intr
         else retM tt) in
    do! (if negb (irq =? 0) then plic_complete irq else retM tt) in
    retM 1
  else if cause =? 0x8000000000000001 then
    let! hart := rcsr tp in
    do! (if s32 hart =? 0 then clockintr else retM tt) in
    do! wcsr (fun c => set_sip (Z.land (sip c) (u64 (Z.lnot 2))) c) in
    retM 2
  else retM 0.

(** Where control goes: the function called and its two arguments. *)
Record jump := mk_jump { j_fn : Z; j_a0 : Z; j_a1 : Z }.

Definition usertrapret : M tstate jump :=
  let! p := Kern (my id) in
  do! intr_off in
  do! wcsr (set_stvec (u64 (TRAMPOLINE + (uservec - trampoline)))) in
  let tf := p_trapframe p in
  let! satp := rcsr satp in
  do! Kern (tf_set tf TF_kernel_satp satp) in
  do! Kern (tf_set tf TF_kernel_sp (u64 (p_kstack p + PGSIZE))) in
  do! Kern (tf_set tf TF_kernel_trap usertrap_addr) in
  let! hart := rcsr tp in
  do! Kern (tf_set tf TF_kernel_hartid hart) in
  let! x := rcsr sstatus in
  let x := Z.land x (u64 (Z.lnot SSTATUS_SPP)) in
  let x := Z.lor x SSTATUS_SPIE in
  do! wcsr (set_sstatus x) in
  let! epc := Kern (tf_get tf TF_epc) in
  do! wcsr (set_sepc epc) in
  retM (mk_jump (u64 (TRAMPOLINE + (userret - trampoline))) TRAPFRAME (MAKE_SATP (p_pagetable p))).

(** A killed process exits and does not come back. *)
Definition exit_if_killed : M tstate unit :=
  let! killed := Kern (my p_killed) in
  if negb (killed =? 0) then
    do! Kern (exit kend (-1)) in
    blockM
  else retM tt.

Definition yield_cpu : M tstate unit :=
  do! Kern yield in
  resched.

Definition usertrap : M tstate jump :=
  let! st := rcsr sstatus in
  if negb (Z.land st SSTATUS_SPP =? 0) then panicM "usertrap: not from user mode"
  else
    do! wcsr (set_stvec kernelvec) in
    let! tf := Kern (my p_trapframe) in
    let! pc := rcsr sepc in
    do! Kern (tf_set tf TF_epc pc) in
    let! cause := rcsr scause in
    let! which_dev :=
      (if cause =? 8 then
         do! exit_if_killed in
         let! epc := Kern (tf_get tf TF_epc) in
         do! Kern (tf_set tf TF_epc (u64 (epc + 4))) in
         do! intr_on in
         do! Kern (syscall kend trampoline forkret devread devwrite pad stack_name) in
         retM 0
       else
         let! d := devintr in
         if negb (d =? 0) then retM d
         else
           do! Kern (let! p := myproc in setp p (set_p_killed 1)) in
           retM 0) in
    do! exit_if_killed in
    do! (if which_dev =? 2 then yield_cpu else retM tt) in
    usertrapret.

Definition kerneltrap : M tstate unit :=
  let! pc := rcsr sepc in
  let! st := rcsr sstatus in
  if Z.land st SSTATUS_SPP =? 0 then panicM "kerneltrap: not from supervisor mode"
  else if negb (Z.land st SSTATUS_SIE =? 0) then panicM "kerneltrap: interrupts enabled"
  else
    let! which_dev := devintr in
    if which_dev =? 0 then panicM "kerneltrap"
    else
      let! running := Kern (my (fun p => bool_decide (p_state p = RUNNING))) in
      do! (if (which_dev =? 2) && running then yield_cpu else retM tt) in
      do! wcsr (set_sepc pc) in
      wcsr (set_sstatus st).
End Trap.
