(* ===== verification/Console.v ===== *)
(** * The console and the UART (kernel/console.c, kernel/uart.c)

    The console's input ring with its read, write and edit indices, the UART's
    output ring, and the UART itself as a parameter: reading its line status,
    taking a received byte, giving it a byte to send.  A hart that waits for the
    UART in a loop is suspended. *)

From stdpp Require Import base list gmap strings.
From Stdlib Require Import ZArith Lia.
From S2P Require Import Prelude Mem Layout Kalloc Vm Sleeplock FsFormat Store Fs Kernel Sched File.
Open Scope Z_scope.

Definition LSR_RX_READY : Z := Z.shiftl 1 0.
Definition LSR_TX_IDLE : Z := Z.shiftl 1 5.
Definition UART_TX_BUF_SIZE : Z := 32.
Definition BACKSPACE : Z := 0x100.
Definition INPUT_BUF : Z := 128.
(** [C(x)] for a character code: Control-x. *)
Definition C (x : Z) : Z := x - 64.
Definition CTRL_P : Z := C 80.
Definition CTRL_U : Z := C 85.
Definition CTRL_H : Z := C 72.
Definition CTRL_D : Z := C 68.
Definition DEL : Z := 127.
Definition NL : Z := 10.
Definition CR : Z := 13.

(** The 16550 UART: [lsr] reads the line status register, [rhr] the receive
    register, [thr] writes the transmit register, [wreg r v] any other. *)
Class UartDev (H : Type) := {
  lsr : H -> Z;
  rhr : H -> Z * H;
  thr : Z -> H -> H;
  wreg : Z -> Z -> H -> H;
}.

Record cons := mk_cons { cbuf : list Z; c_r : Z; c_w : Z; c_e : Z }.

Section Console.
Context {H : Type} `{!UartDev H}.

Record condev := mk_condev { cd_cons : cons; tx_buf : list Z; tx_w : Z; tx_r : Z; panicked : Z; uart : H }.
Definition set_cons v d := mk_condev v (tx_buf d) (tx_w d) (tx_r d) (panicked d) (uart d).
Definition set_uart v d := mk_condev (cd_cons d) (tx_buf d) (tx_w d) (tx_r d) (panicked d) v.

Context {S : Type}.
Local Abbreviation K := (kstate S condev).

Definition getd {A} (g : condev -> A) : M K A := getM (fun k => g (k_dev k)).
Definition setd (g : condev -> condev) : M K unit := modifyM (fun k => set_k_dev (g (k_dev k)) k).
Definition getc {A} (g : cons -> A) : M K A := getd (fun d => g (cd_cons d)).
Definition setc (g : cons -> cons) : M K unit := setd (fun d => set_cons (g (cd_cons d)) d).
Definition WriteReg (r v : Z) : M K unit := setd (fun d => set_uart (wreg r v (uart d)) d).
Definition WriteTHR (c : Z) : M K unit := setd (fun d => set_uart (thr (u8 c) (uart d)) d).

Definition IER : Z := 1.
Definition FCR : Z := 2.
Definition LCR : Z := 3.

Definition uartinit : M K unit :=
  do! WriteReg IER 0 in
  do! WriteReg LCR (Z.shiftl 1 7) in
  do! WriteReg 0 3 in
  do! WriteReg 1 0 in
  do! WriteReg LCR (Z.shiftl 3 0) in
  do! WriteReg FCR (Z.lor (Z.shiftl 1 0) (Z.shiftl 3 1)) in
  WriteReg IER (Z.lor (Z.shiftl 1 1) (Z.shiftl 1 0)).

(** The loop of [uartstart]; each round takes a byte out of the ring. *)
Fixpoint uartstart_loop (fuel : nat) : M K unit :=
  match fuel with
  | O => fun _ => NoFuel
  | Datatypes.S fuel =>
      let! d := getd id in
      if tx_w d =? tx_r d then retM tt
      else if Z.land (lsr (uart d)) LSR_TX_IDLE =? 0 then retM tt
      else
        let c := nth (Z.to_nat (tx_r d mod UART_TX_BUF_SIZE)) (tx_buf d) 0 in
        do! setd (fun d => mk_condev (cd_cons d) (tx_buf d) (tx_w d) (u64 (tx_r d + 1)) (panicked d) (uart d)) in
        do! wakeup ChUart in
        do! WriteTHR c in
        uartstart_loop fuel
  end.
Definition uartstart : M K unit :=
  let! d := getd id in
  uartstart_loop (Z.to_nat (u64 (tx_w d - tx_r d)) + 1).

(** One attempt of [uartputc]: done, or asleep until there is room. *)
Definition uartputc (c : Z) : M K (progress unit unit) :=
  let! d := getd id in
  if negb (panicked d =? 0) then blockM
  else if tx_w d =? u64 (tx_r d + UART_TX_BUF_SIZE) then
    do! sleep ChUart in
    retM (Asleep tt)
  else
    do! setd (fun d => mk_condev (cd_cons d) (<[Z.to_nat (tx_w d mod UART_TX_BUF_SIZE) := u8 c]> (tx_buf d))
                         (u64 (tx_w d + 1)) (tx_r d) (panicked d) (uart d)) in
    do! uartstart in
    retM (Done tt).

Definition uartputc_sync (c : Z) : M K unit :=
  let! d := getd id in
  if negb (panicked d =? 0) then blockM
  else if Z.land (lsr (uart d)) LSR_TX_IDLE =? 0 then blockM
  else WriteTHR c.

Definition uartgetc : M K Z :=
  let! d := getd id in
  if negb (Z.land (lsr (uart d)) 1 =? 0) then
    let '(c, u) := rhr (uart d) in
    do! setd (set_uart u) in
    retM c
  else retM (-1).

Definition consputc (c : Z) : M K unit :=
  if c =? BACKSPACE then
    do! uartputc_sync 8 in
    do! uartputc_sync 32 in
    uartputc_sync 8
  else uartputc_sync c.

(** The loop of [consolewrite] from byte [i]. *)
Fixpoint consolewrite_loop (user_src : bool) (src n i : Z) (fuel : nat) : M K (progress Z Z) :=
  match fuel with
  | O => fun _ => NoFuel
  | Datatypes.S fuel =>
      if i <? n then
        let! '(bs, r) := either_copyin user_src (u64 (src + i)) 1 in
        if r =? -1 then retM (Done i)
        else
          let! pr := uartputc (hd 0 bs) in
          match pr with
          | Asleep _ => retM (Asleep i)
          | Done _ => consolewrite_loop user_src src n (i + 1) fuel
          end
      else retM (Done i)
  end.
Definition consolewrite (user_src : bool) (src n i : Z) : M K (progress Z Z) :=
  consolewrite_loop user_src src n i (Z.to_nat (n - i) + 1).

(** [consoleread] with [n] bytes still wanted of [target], at [dst]; asleep, it
    continues with the same values. *)
Fixpoint consoleread_loop (user_dst : bool) (dst n target : Z) (fuel : nat) : M K (progress (Z * Z) Z) :=
  match fuel with
  | O => fun _ => NoFuel
  | Datatypes.S fuel =>
      if 0 <? n then
        let! x := getc id in
        if c_r x =? c_w x then
          let! killed := my p_killed in
          if negb (killed =? 0) then retM (Done (-1))
          else
            do! sleep ChConsole in
            retM (Asleep (dst, n))
        else
          let c := nth (Z.to_nat (c_r x mod INPUT_BUF)) (cbuf x) 0 in
          do! setc (fun x => mk_cons (cbuf x) (u32 (c_r x + 1)) (c_w x) (c_e x)) in
          if c =? CTRL_D then
            do! (if n <? target then setc (fun x => mk_cons (cbuf x) (u32 (c_r x - 1)) (c_w x) (c_e x)) else retM tt) in
            retM (Done (s32 (target - n)))
          else
            let! r := either_copyout user_dst dst [c] in
            if r =? -1 then retM (Done (s32 (target - n)))
            else if c =? NL then retM (Done (s32 (target - (n - 1))))
            else consoleread_loop user_dst (u64 (dst + 1)) (n - 1) target fuel
      else retM (Done (s32 (target - n)))
  end.
Definition consoleread (user_dst : bool) (dst n target : Z) : M K (progress (Z * Z) Z) :=
  consoleread_loop user_dst dst n target (Z.to_nat n + 1).

(** The loop of control-U. *)
Fixpoint kill_line (fuel : nat) : M K unit :=
  match fuel with
  | O => fun _ => NoFuel
  | Datatypes.S fuel =>
      let! x := getc id in
      if negb (c_e x =? c_w x) && negb (nth (Z.to_nat (u32 (c_e x - 1) mod INPUT_BUF)) (cbuf x) 0 =? NL) then
        do! setc (fun x => mk_cons (cbuf x) (c_r x) (c_w x) (u32 (c_e x - 1))) in
        do! consputc BACKSPACE in
        kill_line fuel
      else retM tt
  end.

(** [procdump] only prints. *)
Definition consoleintr (c : Z) : M K unit :=
  if c =? CTRL_P then retM tt
  else if c =? CTRL_U then
    let! x := getc id in
    kill_line (Z.to_nat (u32 (c_e x - c_w x)) + 1)
  else if (c =? CTRL_H) || (c =? DEL) then
    let! x := getc id in
    if negb (c_e x =? c_w x) then
      do! setc (fun x => mk_cons (cbuf x) (c_r x) (c_w x) (u32 (c_e x - 1))) in
      consputc BACKSPACE
    else retM tt
  else
    let! x := getc id in
    if negb (c =? 0) && (u32 (c_e x - c_r x) <? INPUT_BUF) then
      let c := if c =? CR then NL else c in
      do! consputc c in
      do! setc (fun x => mk_cons (<[Z.to_nat (c_e x mod INPUT_BUF) := u8 c]> (cbuf x)) (c_r x) (c_w x) (u32 (c_e x + 1))) in
      let! x := getc id in
      if (c =? NL) || (c =? CTRL_D) || (c_e x =? u32 (c_r x + INPUT_BUF)) then
        do! setc (fun x => mk_cons (cbuf x) (c_r x) (c_e x) (c_e x)) in
        wakeup ChConsole
      else retM tt
    else retM tt.

(** The receive loop of [uartintr] is bounded by the bytes the UART has. *)
Fixpoint uartintr_loop (fuel : nat) : M K unit :=
  match fuel with
  | O => fun _ => NoFuel
  | Datatypes.S fuel =>
      let! c := uartgetc in
      if c =? -1 then retM tt
      else
        do! consoleintr c in
        uartintr_loop fuel
  end.
Definition uartintr (fuel : nat) : M K unit :=
  do! uartintr_loop fuel in
  uartstart.

Definition consoleinit : M K unit := uartinit.
(** What it puts into [devsw]; [fileread] and [filewrite] call them with user
    addresses. *)
Definition CONSOLE : Z := 1.
Definition devsw_read (major : Z) : option (Z -> Z -> M K Z) :=
  if major =? CONSOLE then Some (fun addr n => awake (consoleread true addr n n)) else None.
Definition devsw_write (major : Z) : option (Z -> Z -> M K Z) :=
  if major =? CONSOLE then Some (fun addr n => awake (consolewrite true addr n 0)) else None.
End Console.
