(* ===== verification/PipeSpec.v ===== *)
(** * Pipes are bounded queues

    The ring with its two 32-bit counters, which wrap around, implements a queue
    of at most 512 bytes; [pipewrite] appends to it and [piperead] takes from its
    front.  At the end, a concrete kernel state, at which theorems about the
    kernel are applied. *)

From stdpp Require Import base list gmap strings.
From Stdlib Require Import ZArith Lia.
From S2P Require Import Prelude Mem Layout Kalloc Vm VmSpec VmUser VmCopy VmExample Sleeplock FsFormat Store Fs FsExample Kernel Sched File.
Open Scope Z_scope.


(** ** The ring *)

Definition plen (p : pipe) : Z := u32 (pp_nwrite p - pp_nread p).
Definition ring_at (p : pipe) (j : Z) : Z := nth (Z.to_nat ((pp_nread p + j) mod PIPESIZE)) (pp_data p) 0.
Definition contents (p : pipe) : list Z := ring_at p <$> seqZ 0 (plen p).

Record pipe_ok (p : pipe) : Prop := {
  po_data : length (pp_data p) = Z.to_nat PIPESIZE;
  po_read : 0 <= pp_nread p < 2 ^ 32;
  po_write : 0 <= pp_nwrite p < 2 ^ 32;
  po_len : plen p <= PIPESIZE;
}.

Definition push (ch : Z) (p : pipe) : pipe :=
  mk_pipe (<[Z.to_nat (pp_nwrite p mod PIPESIZE) := ch]> (pp_data p)) (pp_nread p) (u32 (pp_nwrite p + 1)) (pp_readopen p) (pp_writeopen p).
Definition pop (p : pipe) : pipe :=
  mk_pipe (pp_data p) (u32 (pp_nread p + 1)) (pp_nwrite p) (pp_readopen p) (pp_writeopen p).

Lemma length_contents p : length (contents p) = Z.to_nat (plen p).
Proof. unfold contents. by rewrite length_fmap, length_seqZ. Qed.
Lemma plen_range p : 0 <= plen p.
Proof. apply u32_range. Qed.

Lemma full_iff p : pipe_ok p -> (pp_nwrite p =? u32 (pp_nread p + PIPESIZE)) = (plen p =? PIPESIZE).
Proof.
  intros [_ Hr Hw Hl]. unfold plen, PIPESIZE, u32 in *.
  destruct (Z.eqb_spec (pp_nwrite p) ((pp_nread p + 512) mod 2 ^ 32)), (Z.eqb_spec ((pp_nwrite p - pp_nread p) mod 2 ^ 32) 512); try done;
    exfalso; Z.div_mod_to_equations; lia.
Qed.
Lemma empty_iff p : pipe_ok p -> (pp_nread p =? pp_nwrite p) = (plen p =? 0).
Proof.
  intros [_ Hr Hw Hl]. unfold plen, u32 in *.
  destruct (Z.eqb_spec (pp_nread p) (pp_nwrite p)), (Z.eqb_spec ((pp_nwrite p - pp_nread p) mod 2 ^ 32) 0); try done;
    exfalso; Z.div_mod_to_equations; lia.
Qed.

(** The slot of the next byte is the one after the last. *)
Lemma write_slot p : pipe_ok p -> pp_nwrite p mod PIPESIZE = (pp_nread p + plen p) mod PIPESIZE.
Proof.
  intros [_ Hr Hw Hl]. unfold plen, u32, PIPESIZE in *.
  assert (E : pp_nread p + (pp_nwrite p - pp_nread p) mod 2 ^ 32 = pp_nwrite p + 2 ^ 32 * (- ((pp_nwrite p - pp_nread p) / 2 ^ 32)))
    by (Z.div_mod_to_equations; lia).
  rewrite E. change (2 ^ 32) with (512 * 2 ^ 23). rewrite <- Z.mul_assoc, (Z.mul_comm 512), Z.mod_add by lia. done.
Qed.

Lemma plen_push p ch : pipe_ok p -> plen p < PIPESIZE -> plen (push ch p) = plen p + 1.
Proof. intros [_ Hr Hw Hl] Hlt. unfold plen, push, u32, PIPESIZE in *. cbn [pp_nwrite pp_nread]. Z.div_mod_to_equations. lia. Qed.
Lemma plen_pop p : pipe_ok p -> 0 < plen p -> plen (pop p) = plen p - 1.
Proof. intros [_ Hr Hw Hl] Hlt. unfold plen, pop, u32, PIPESIZE in *. cbn [pp_nwrite pp_nread]. Z.div_mod_to_equations. lia. Qed.

Lemma push_ok p ch : pipe_ok p -> plen p < PIPESIZE -> pipe_ok (push ch p) /\ contents (push ch p) = contents p ++ [ch].
Proof.
  intros Hok Hlt. pose proof (plen_push p ch Hok Hlt) as Hpl. pose proof (plen_range p) as Hp0. pose proof (write_slot p Hok) as Hslot.
  pose proof Hok as [Hd Hr Hw Hl]. split.
  - split; [cbn; by rewrite length_insert|done|apply u32_range|lia].
  - unfold contents. rewrite Hpl, seqZ_app, fmap_app by lia. f_equal.
    + apply list_fmap_ext. intros i j Hj. apply lookup_seqZ in Hj as [-> Hi]. unfold ring_at, push. cbn [pp_nread pp_data].
      rewrite !nth_lookup, list_lookup_insert_ne; [done|]. rewrite Hslot. unfold PIPESIZE in *.
      intros E. apply Z2Nat.inj in E; [|apply Z.mod_pos_bound; lia..]. Z.div_mod_to_equations. lia.
    + assert (E : seqZ (0 + plen p) 1 = [plen p]) by (rewrite Z.add_0_l, seqZ_cons by lia; done).
      rewrite E. cbn [fmap list_fmap]. f_equal. unfold ring_at, push. cbn [pp_nread pp_data]. rewrite Hslot.
      rewrite nth_lookup, list_lookup_insert_eq; [done|]. rewrite Hd. unfold PIPESIZE in *.
      pose proof (Z.mod_pos_bound (pp_nread p + plen p) 512 ltac:(lia)). lia.
Qed.

Lemma pop_ok p : pipe_ok p -> 0 < plen p ->
  pipe_ok (pop p) /\ contents p = nth (Z.to_nat (pp_nread p mod PIPESIZE)) (pp_data p) 0 :: contents (pop p).
Proof.
  intros Hok Hlt. pose proof (plen_pop p Hok Hlt) as Hpl. pose proof Hok as [Hd Hr Hw Hl]. split.
  - split; [done|apply u32_range|done|lia].
  - unfold contents. rewrite Hpl, (seqZ_cons 0 (plen p)) by done. cbn [fmap list_fmap]. f_equal.
    + unfold ring_at. by rewrite Z.add_0_r.
    + apply list_eq. intros i. rewrite !list_lookup_fmap. change (Z.pred (plen p)) with (plen p - 1). destruct (decide (Z.of_nat i < plen p - 1)).
      * rewrite !lookup_seqZ_lt by lia. cbn. f_equal. unfold ring_at, pop. cbn [pp_nread pp_data]. do 2 f_equal.
        unfold u32, PIPESIZE in *. change (2 ^ 32) with (512 * 2 ^ 23). rewrite <- (Z.add_mod_idemp_l ((pp_nread p + 1) mod _)) by lia.
        rewrite Z.mod_mod_divide by (exists (2 ^ 23); lia). rewrite Z.add_mod_idemp_l by lia. f_equal. lia.
      * by rewrite !lookup_seqZ_ge by lia.
Qed.

(** ** The loops *)

Section Pipe.
Context {S Dv : Type}.
Local Abbreviation K := (kstate S Dv).
Context (kend : Z) (Hend : 0 < kend) (T : gmap (list Z) Z) (l : list Z) (pi addr : Z).
Implicit Types k : K.

(** The running process has the address space [T]. *)
Definition user_ok k : Prop := uspace kend (k_mem k) (p_pagetable (proc_at k (k_cur k))) T l.
Definition with_pipe k (p : pipe) : K := set_k_pipes (<[pi := p]> (k_pipes k)) k.

Lemma with_pipe_same k p : k_pipes k !! pi = Some p -> with_pipe k p = k.
Proof. intros Hp. unfold with_pipe. rewrite insert_id by done. by destruct k. Qed.
Lemma with_pipe_twice k p q : with_pipe (with_pipe k p) q = with_pipe k q.
Proof. unfold with_pipe. cbn. unfold set_k_pipes. cbn. by rewrite insert_insert_eq. Qed.
Lemma pipe_at_with k p : pipe_at (with_pipe k p) pi = p.
Proof. unfold pipe_at, with_pipe. cbn. by rewrite lookup_insert_eq. Qed.

(** [p'] is [p] with [bs] appended. *)
Record appended (p p' : pipe) (bs : list Z) : Prop := {
  ap_ok : pipe_ok p';
  ap_contents : contents p' = contents p ++ bs;
  ap_read : pp_readopen p' = pp_readopen p;
  ap_write : pp_writeopen p' = pp_writeopen p;
}.

Lemma plen_contents p : plen p = Z.of_nat (length (contents p)).
Proof. rewrite length_contents. pose proof (plen_range p). lia. Qed.

Lemma pipewrite_loop_ok n fuel : forall k i p, user_ok k -> k_pipes k !! pi = Some p -> pipe_ok p ->
  0 <= addr + i < 2 ^ 64 -> (Z.to_nat (n - i) < fuel)%nat -> pp_readopen p <> 0 -> p_killed (proc_at k (k_cur k)) = 0 ->
  let bs := take (Z.to_nat (PIPESIZE - plen p)) (ubytes (ram (k_mem k)) T (addr + i) (Z.to_nat (n - i))) in
  exists p', appended p p' bs /\
    pipewrite_loop pi addr n i fuel k =
      let i' := i + Z.of_nat (length bs) in
      if (i' <? n) && (plen p' =? PIPESIZE)
      then Ok (Asleep i') (asleep (ChPipeWrite pi) (roused (ChPipeRead pi) (with_pipe k p')))
      else Ok (Done i') (roused (ChPipeRead pi) (with_pipe k p')).
Proof.
  induction fuel as [|fuel IH]; intros k i p Hu Hp Hok Ha Hf Hro Hk bs; [lia|].
  assert (Hsame : appended p p []) by (split; [done|by rewrite app_nil_r|done|done]).
  assert (Hat : pipe_at k pi = p) by (unfold pipe_at; by rewrite Hp).
  cbn [pipewrite_loop]. destruct (Z.ltb_spec i n) as [Hi|Hi].
  2: { subst bs. replace (Z.to_nat (n - i)) with 0%nat by lia. cbn [ubytes]. rewrite take_nil. exists p. split; [done|].
       rewrite with_pipe_same by done. cbn [length]. rewrite Z.add_0_r. rewrite (proj2 (Z.ltb_ge i n)) by lia. cbn [andb].
       mstep (wakeup_ok (ChPipeRead pi) k). done. }
  unfold getpipe, my. mrun. unfold id. rewrite Hat, Hk. destruct (Z.eqb_spec (pp_readopen p) 0) as [?|_]; [done|]. cbn [orb negb Z.eqb].
  rewrite (full_iff p Hok). pose proof (plen_range p). pose proof (po_len p Hok). destruct (Z.eqb_spec (plen p) PIPESIZE) as [Hfull|Hfull].
  { subst bs. rewrite Hfull, Z.sub_diag. cbn [Z.to_nat take]. exists p. split; [done|]. rewrite with_pipe_same by done. cbn [length].
    rewrite Z.add_0_r, Hfull, Z.eqb_refl, (proj2 (Z.ltb_lt i n)) by lia. cbn [andb].
    mstep (wakeup_ok (ChPipeRead pi) k). mstep (sleep_ok (ChPipeWrite pi) (roused (ChPipeRead pi) k)). done. }
  mrun. rewrite u64_small by lia. mstep (Mem_ok _ _ _ _ (copyin_byte kend Hend _ _ _ _ (addr + i) Hu Ha)). rewrite set_k_mem_same.
  subst bs. replace (Z.to_nat (n - i)) with (Datatypes.S (Z.to_nat (n - (i + 1)))) in * by lia.
  replace (Z.to_nat (PIPESIZE - plen p)) with (Datatypes.S (Z.to_nat (PIPESIZE - (plen p + 1)))) by lia. cbn [ubytes].
  destruct (umem (ram (k_mem k)) T (addr + i)) as [b|] eqn:Eb; cbn [Z.eqb take].
  2: { exists p. split; [done|]. rewrite with_pipe_same by done. cbn [length]. rewrite Z.add_0_r.
       destruct (Z.eqb_spec (plen p) PIPESIZE); [done|]. rewrite andb_false_r. cbn. mstep (wakeup_ok (ChPipeRead pi) k). done. }
  unfold setpipe. cbn [hd]. mrun. rewrite Hat.
  destruct (push_ok p b Hok ltac:(lia)) as [Hok' Hc']. pose proof (umem_range _ _ _ _ Eb) as Hr. rewrite MAXVA_eq in Hr.
  destruct (IH (with_pipe k (push b p)) (i + 1) (push b p)) as (p' & [H1 H2 H3 H4] & Hrun);
    [done|by unfold with_pipe; cbn; rewrite lookup_insert_eq|done|lia|lia|done|done|].
  rewrite plen_push, Z.add_assoc in * by (done || lia). exists p'. split.
  { split; [done|by rewrite H2, Hc', <- app_assoc|done|done]. }
  change (set_k_pipes _ k) with (with_pipe k (push b p)). rewrite Hrun, with_pipe_twice. cbn [length with_pipe set_k_pipes k_mem].
  by replace (i + 1 + Z.of_nat (length (take (Z.to_nat (PIPESIZE - (plen p + 1))) (ubytes (ram (k_mem k)) T (addr + i + 1) (Z.to_nat (n - (i + 1)))))))
    with (i + Z.of_nat (Datatypes.S (length (take (Z.to_nat (PIPESIZE - (plen p + 1))) (ubytes (ram (k_mem k)) T (addr + i + 1) (Z.to_nat (n - (i + 1)))))))) by lia.
Qed.

(** [p'] is [p] without its first [c] bytes. *)
Record consumed (p p' : pipe) (c : nat) : Prop := {
  co_ok : pipe_ok p';
  co_contents : contents p' = drop c (contents p);
  co_read : pp_readopen p' = pp_readopen p;
  co_write : pp_writeopen p' = pp_writeopen p;
}.

(** How many of the [want] bytes at [va] the user has mapped, and how many bytes
    the reader takes from the pipe: one more when a copy fails. *)
Definition room_at (m : mem) (va : Z) (want : nat) : nat := length (ubytes m T va want).
Definition used_up (m : mem) (va : Z) (want : nat) : nat := Nat.min want (Datatypes.S (room_at m va want)).

Lemma piperead_loop_ok n fuel : forall k i p, user_ok k -> k_pipes k !! pi = Some p -> pipe_ok p ->
  0 <= addr + i < 2 ^ 64 -> (Z.to_nat (n - i) < fuel)%nat ->
  let want := Nat.min (Z.to_nat (n - i)) (length (contents p)) in
  let d := room_at (ram (k_mem k)) (addr + i) want in
  returns (piperead_loop pi addr n i fuel) k (fun r k' => r = i + Z.of_nat d /\
    exists p' km, k' = set_k_mem km (with_pipe k p') /\ user_ok k' /\
      consumed p p' (used_up (ram (k_mem k)) (addr + i) want) /\
      wrote (k_mem k) km T (addr + i) (take d (contents p))).
Proof.
  unfold used_up, room_at. induction fuel as [|fuel IH]; intros k i p Hu Hp Hok Ha Hf; [lia|].
  assert (Hat : pipe_at k pi = p) by (unfold pipe_at; by rewrite Hp).
  assert (Hstay : returns (retM i) k (fun r k' => r = i + Z.of_nat 0 /\ exists p' km, k' = set_k_mem km (with_pipe k p') /\ user_ok k' /\
      consumed p p' 0 /\ wrote (k_mem k) km T (addr + i) (take 0 (contents p)))).
  { apply returns_ret. split; [lia|]. exists p, (k_mem k). rewrite with_pipe_same, set_k_mem_same by done.
    split_and!; [done|done|split; [done|by rewrite drop_0|done|done]|apply wrote_nil]. }
  cbn [piperead_loop]. pose proof (plen_contents p) as Hl. destruct (Z.ltb_spec i n) as [Hi|Hi].
  2: { replace (Z.to_nat (n - i)) with 0%nat by lia. exact Hstay. }
  unfold getpipe, returns. mrun. unfold id. rewrite Hat, (empty_iff p Hok). destruct (Z.eqb_spec (plen p) 0) as [He|He].
  { replace (length (contents p)) with 0%nat by lia. rewrite Nat.min_0_r. exact Hstay. }
  clear Hstay. pose proof (plen_range p). destruct (pop_ok p Hok ltac:(lia)) as [Hok' Hc]. set (b := nth _ _ _) in *.
  unfold setpipe, my. mrun. rewrite Hat. change (set_k_pipes _ k) with (with_pipe k (pop p)). rewrite u64_small by lia.
  rewrite Hc. cbn [length]. replace (Z.to_nat (n - i)) with (Datatypes.S (Z.to_nat (n - (i + 1)))) in * by lia. cbn [Nat.min ubytes].
  pose proof (copyout_byte kend Hend (k_mem k) _ T l (addr + i) b Hu Ha) as Hcopy. apply returns_inv in Hcopy as (r & km & Hcp & Hs & Hm).
  change (k_mem k) with (k_mem (with_pipe k (pop p))) in Hcp. mstep (Mem_ok _ _ _ _ Hcp).
  destruct (umem (ram (k_mem k)) T (addr + i)) as [b'|] eqn:Eb; destruct Hm as [-> Hw]; cbn [Z.eqb Pos.eqb].
  2: { cbn. split; [lia|]. exists (pop p), km. split_and!; [done|exact Hs|split; [done| |done|done]|done]. cbn [length Nat.min]. by rewrite Hc, Nat.min_0_r. }
  pose proof (umem_range _ _ _ _ Eb) as Hr. rewrite MAXVA_eq in Hr.
  set (k1 := set_k_mem km (with_pipe k (pop p))).
  pose proof (IH k1 (i + 1) (pop p) ltac:(exact Hs) ltac:(unfold k1, with_pipe; cbn; by rewrite lookup_insert_eq) Hok' ltac:(lia) ltac:(lia)) as Hrun.
  eapply returns_mono; [exact Hrun|]. cbn beta. intros r' k' (-> & p' & km' & -> & Hu' & [H1 H2 H3 H4] & Hw').
  cbn [k1 set_k_mem k_mem] in *. rewrite Z.add_assoc in *. change (addr + i + 1) with (addr + i + Z.of_nat (length [b])) in *.
  rewrite (ubytes_wrote _ _ _ _ _ _ Hw) in * by lia. cbn [length] in *. split; [lia|].
  exists p', km'. split_and!; [|exact Hu'|split; [done|by rewrite H2, Hc|done|done]|].
  - unfold k1, set_k_mem, with_pipe. cbn. unfold set_k_pipes. cbn. by rewrite insert_insert_eq.
  - cbn [take]. change (b :: ?x) with ([b] ++ x). exact (wrote_app _ _ _ _ _ _ _ Hw Hw').
Qed.

(** ** The calls *)

Definition refused k (p : pipe) : Prop := pp_readopen p = 0 \/ p_killed (proc_at k (k_cur k)) <> 0.
#[global] Instance refused_dec k p : Decision (refused k p).
Proof. unfold refused. apply _. Defined.

Lemma pipewrite_ok k i n p : user_ok k -> k_pipes k !! pi = Some p -> pipe_ok p -> 0 <= addr + i < 2 ^ 64 ->
  if decide (i < n /\ refused k p) then pipewrite pi addr n i k = Ok (Done (-1)) k
  else
    let bs := take (Z.to_nat (PIPESIZE - plen p)) (ubytes (ram (k_mem k)) T (addr + i) (Z.to_nat (n - i))) in
    let i' := i + Z.of_nat (length bs) in
    exists p', appended p p' bs /\
      if decide (i' < n /\ plen p' = PIPESIZE)
      then pipewrite pi addr n i k = Ok (Asleep i') (asleep (ChPipeWrite pi) (roused (ChPipeRead pi) (with_pipe k p')))
      else pipewrite pi addr n i k = Ok (Done i') (roused (ChPipeRead pi) (with_pipe k p')).
Proof.
  intros Hu Hp Hok Ha. unfold pipewrite. case_decide as D.
  - destruct D as [Hi Hr]. rewrite Nat.add_1_r. cbn [pipewrite_loop]. rewrite (proj2 (Z.ltb_lt i n)) by done. unfold getpipe, my. mrun.
    assert (Hat : pipe_at k pi = p) by (unfold pipe_at; by rewrite Hp). unfold id. rewrite Hat.
    destruct (Z.eqb_spec (pp_readopen p) 0); [done|]. destruct Hr as [?|Hk]; [done|].
    by destruct (Z.eqb_spec (p_killed (proc_at k (k_cur k))) 0).
  - destruct (decide (i < n)) as [Hi|Hi].
    + destruct (decide (pp_readopen p = 0)); [unfold refused in D; tauto|].
      destruct (decide (p_killed (proc_at k (k_cur k)) = 0)); [|unfold refused in D; tauto].
      destruct (pipewrite_loop_ok n (Z.to_nat (n - i) + 1) k i p Hu Hp Hok Ha ltac:(lia)) as (p' & Hap & Hrun); [done|done|].
      exists p'. split; [done|]. rewrite Hrun. cbn zeta. case_decide as E.
      * destruct E as [E1 E2]. by rewrite (proj2 (Z.ltb_lt _ _) E1), E2, Z.eqb_refl.
      * destruct (Z.ltb_spec (i + Z.of_nat (length (take (Z.to_nat (PIPESIZE - plen p)) (ubytes (ram (k_mem k)) T (addr + i) (Z.to_nat (n - i)))))) n); [|done].
        destruct (Z.eqb_spec (plen p') PIPESIZE); [tauto|done].
    + replace (Z.to_nat (n - i)) with 0%nat by lia. cbn [ubytes Nat.add pipewrite_loop]. rewrite take_nil, (proj2 (Z.ltb_ge i n)) by lia.
      exists p. split; [split; [done|by rewrite app_nil_r|done|done]|]. rewrite decide_False by (cbn; lia). rewrite with_pipe_same by done.
      mstep (wakeup_ok (ChPipeRead pi) k). cbn. by rewrite Z.add_0_r.
Qed.

Lemma piperead_ok k n p : user_ok k -> k_pipes k !! pi = Some p -> pipe_ok p -> 0 <= addr < 2 ^ 64 ->
  if decide (contents p = [] /\ pp_writeopen p <> 0)
  then piperead pi addr n k =
    if decide (p_killed (proc_at k (k_cur k)) <> 0) then Ok (Done (-1)) k else Ok (Asleep tt) (asleep (ChPipeRead pi) k)
  else
    let want := Nat.min (Z.to_nat n) (length (contents p)) in
    let d := room_at (ram (k_mem k)) addr want in
    returns (piperead pi addr n) k (fun r k' => r = Done (Z.of_nat d) /\
      exists p' km, k' = roused (ChPipeWrite pi) (set_k_mem km (with_pipe k p')) /\ user_ok k' /\
        consumed p p' (used_up (ram (k_mem k)) addr want) /\
        wrote (k_mem k) km T addr (take d (contents p))).
Proof.
  intros Hu Hp Hok Ha. pose proof (plen_contents p) as Hl. unfold piperead, getpipe, my, returns. mrun.
  assert (Hat : pipe_at k pi = p) by (unfold pipe_at; by rewrite Hp). unfold id. rewrite Hat, (empty_iff p Hok).
  case_decide as D.
  - destruct D as [Hc Hw]. rewrite Hl, Hc. change (Z.of_nat (length []) =? 0) with true. cbn [andb]. destruct (Z.eqb_spec (pp_writeopen p) 0); [done|]. cbn [negb]. mrun.
    case_decide as E; [by rewrite (proj2 (Z.eqb_neq _ _) E)|]. rewrite E. cbn [Z.eqb negb].
    mstep (sleep_ok (ChPipeRead pi) k). done.
  - assert ((plen p =? 0) && negb (pp_writeopen p =? 0) = false) as ->.
    { destruct (Z.eqb_spec (plen p) 0) as [E|]; [|done]. destruct (Z.eqb_spec (pp_writeopen p) 0); [done|].
      exfalso. apply D. split; [|done]. apply nil_length_inv. lia. }
    pose proof (piperead_loop_ok n (Z.to_nat n + 1) k 0 p Hu Hp Hok ltac:(lia) ltac:(lia)) as H.
    cbn zeta in H. rewrite Z.sub_0_r, Z.add_0_r in H. apply returns_inv in H as (r & k' & Hrun & Hr & p' & km & -> & Hu' & Hc & Hw).
    mstep Hrun. mstep (wakeup_ok (ChPipeWrite pi) (set_k_mem km (with_pipe k p'))). cbn. rewrite Hr, Z.add_0_l. split; [done|].
    exists p', km. split_and!; [done| |done|done]. unfold user_ok.
    change (k_cur (roused (ChPipeWrite pi) (set_k_mem km (with_pipe k p')))) with (k_cur (set_k_mem km (with_pipe k p'))).
    rewrite (proc_at_woken (ChPipeWrite pi) _ _ p_pagetable) by done. exact Hu'.
Qed.
End Pipe.

(** ** A concrete kernel state

    Three processes: the first runs with the address space of [VmExample] and
    one open file, the second sleeps as a reader of an empty pipe, the third sleeps on the clock;
    the file system is that of [FsExample]. *)


Definition kx_pipe : Z := ex_new.
Definition kx_proc (st : procstate) (c : option chan) (pid pt : Z) : proc :=
  set_p_state st (set_p_chan c (set_p_pid pid (set_p_pagetable pt (set_p_sz 4096 proc0)))).
Definition kx_procs : list proc :=
  [set_p_cwd (Some 0%nat) (set_p_ofile (Some 0%nat :: replicate 15 None) (set_p_trapframe ex_tf (kx_proc RUNNING None 1 ex_root))); set_p_parent (Some 0%nat) (kx_proc SLEEPING (Some (ChPipeRead kx_pipe)) 2 0);
   set_p_parent (Some 0%nat) (kx_proc SLEEPING (Some ChTicks) 3 0)] ++ replicate 61 proc0.
Definition kx_file : file := mk_file FD_INODE 1 1 1 0 0 0 0.
Definition kx_ring : pipe := mk_pipe (replicate 512 0) 0 0 1 1.

Definition kx : kstate mstore unit :=
  mk_k ex_kmem fx (kx_file :: replicate 99 file0) {[ kx_pipe := kx_ring ]} kx_procs 4 (Some 0%nat) 0 7 tt.

Lemma kx_running : running kx.
Proof. split; [vm_compute; lia|vm_compute; lia|done]. Qed.
Lemma kx_user : user_ok ex_kend ex_T ex_free kx.
Proof. exact ex_uspace. Qed.
Lemma kx_ring_ok : pipe_ok kx_ring.
Proof. split; [done|cbn; lia|cbn; lia|done]. Qed.
Lemma kx_pipe_at : k_pipes kx !! kx_pipe = Some kx_ring.
Proof. apply lookup_singleton_eq. Qed.
Lemma kx_unused j : proc_at kx (3 + j) = proc0.
Proof.
  change (nth j (replicate 61 proc0) proc0 = proc0). rewrite nth_lookup.
  destruct (replicate 61 proc0 !! j) as [p|] eqn:E; [|done]. by apply lookup_replicate in E as [-> _].
Qed.
Lemma kx_page : page_ok ex_kend kx_pipe.
Proof. unfold page_ok, kx_pipe, ex_new, ex_kend, PHYSTOP, KERNBASE. split; [reflexivity|lia]. Qed.
