(* ===== verification/WaitSpec.v ===== *)
(** * exit and wait: the pieces (kernel/proc.c) *)

From stdpp Require Import base list gmap strings.
From Stdlib Require Import ZArith Lia.
From S2P Require Import Prelude Mem Layout Kalloc Vm VmSpec VmUser VmCopy VmFree Sleeplock FsFormat Store Fs Kernel Sched File PipeSpec Proc ProcSpec.
Open Scope Z_scope.

(** ** Memory of another process *)

Section Keep.
Context (kend : Z) (Hend : 0 < kend) (trampoline : Z).
Implicit Types km : kmem.

(** The pages of a process and the free pages. *)
Definition its_page (l : list Z) (T : gmap (list Z) Z) (tf : Z) (ds : list Z) (q : Z) : Prop := pages_of T l q \/ q ∈ tf :: ds.

Lemma proc_mem_keep km km' l root tf sz T ds perm : proc_mem kend trampoline km l root tf sz T ds perm -> freelist km' = freelist km ->
  (forall q x, its_page l T tf ds q -> q <= x < q + 4096 -> mget (ram km') x = mget (ram km) x) ->
  proc_mem kend trampoline km' l root tf sz T ds perm.
Proof.
  intros [[[Hc Hnd Hpg] Hpt Hd] Hp Hsz Hlen Hleaf Hn Hu] Hfl Hm.
  destruct (pt_agree kend (ram km) (ram km') root T Hpt) as [Hpt' Hl'].
  { intros a p x Ha Hx. apply (Hm p x); [left; right; eauto|done]. }
  split; try done; [|intros va Hva; by rewrite Hl', Hleaf].
  split; [split; [|done|done]|done|done]. rewrite Hfl. eapply chain_ext; [|exact Hc].
  apply Forall_forall. intros a Ha. apply load64_ext. intros x Hx. symmetry. apply (Hm a x); [left; by left|lia].
Qed.

(** [copyout] by a process whose user pages are not those of the other one. *)
Lemma proc_mem_wrote km km' root' T' va bs l root tf sz T ds perm : uspace kend km root' T' l -> wrote km km' T' va bs ->
  (forall vb pa, 0 <= vb -> uaddr (ram km) T' vb = Some pa -> ~ its_page l T tf ds (pa - vb mod 4096)) ->
  proc_mem kend trampoline km l root tf sz T ds perm -> proc_mem kend trampoline km' l root tf sz T ds perm.
Proof.
  intros Hus Hw Hap Hpm. pose proof Hpm as [[Hk Hpt Hd] _ _ _ _ _ Hu]. eapply proc_mem_keep; [exact Hpm|by apply (wr_free _ _ _ _ _ Hw)|].
  assert (Hok : forall q, its_page l T tf ds q -> page_ok kend q).
  { intros q [[Hq|[b Hb]]|Hq].
    - by apply (proj1 (Forall_forall _ _) (ki_pages _ _ _ Hk)).
    - eapply pt_page; eauto.
    - by apply (proj1 (Forall_forall _ _) Hu). }
  intros q x Hq Hx. apply (wr_frame _ _ _ _ _ Hw). intros vb Hvb Hua.
  pose proof (Hap vb x Hvb Hua) as Hn. destruct (us_user _ _ _ _ _ Hus vb x Hvb Hua) as [Hpg _]. pose proof (Z.mod_pos_bound vb 4096 ltac:(lia)).
  destruct (decide (q = x - vb mod 4096)) as [->|Hne]; [done|].
  pose proof (page_apart kend q (x - vb mod 4096) x (Hok q Hq) Hpg Hne Hx) as Ho. unfold off_page in Ho. lia.
Qed.
End Keep.

(** ** The scan *)

Section Wait.
Context {S Dv : Type} `{!TxOps S}.
Implicit Types k : kstate S Dv.

Definition child_of k (p i : nat) : Prop := p_parent (proc_at k i) = Some p.
#[global] Instance child_of_dec k p i : Decision (child_of k p i).
Proof. unfold child_of. apply _. Defined.
Definition zombie_of k (p i : nat) : Prop := child_of k p i /\ p_state (proc_at k i) = ZOMBIE.
#[global] Instance zombie_of_dec k p i : Decision (zombie_of k p i).
Proof. unfold zombie_of. apply _. Defined.

(** What [wait] does with the child [i] it has found. *)
Definition reap (kend : Z) (p : nat) (addr : Z) (i : nat) : M (kstate S Dv) (Z + bool) :=
  let! np := getp i id in
  let! r := (if negb (addr =? 0) then
               let! pt := getp p p_pagetable in
               Mem (copyout pt addr (le_bytes 4 (p_xstate np)))
             else retM 0) in
  if r <? 0 then retM (inl (-1))
  else
    do! freeproc kend i in
    retM (inl (p_pid np)).

Lemma wait_scan_ok kend p addr idx : forall k kids,
  wait_scan kend idx p addr kids k =
    match list_find (zombie_of k p) idx with
    | Some (_, i) => reap kend p addr i k
    | None => Ok (inr (kids || bool_decide (Exists (child_of k p) idx))) k
    end.
Proof.
  induction idx as [|i idx IH]; intros k kids.
  { cbn [wait_scan list_find]. unfold retM. by rewrite bool_decide_false, orb_false_r by (intros H; inversion H). }
  cbn [wait_scan list_find]. unfold getp at 1. mrun. unfold id. case_decide as D.
  - destruct D as [D1 D2]. rewrite !bool_decide_true by done. done.
  - destruct (decide (child_of k p i)) as [C|C].
    + rewrite bool_decide_true by done. rewrite bool_decide_false by (intros E; by apply D). rewrite IH.
      destruct (list_find _ idx) as [[? ?]|]; [done|]. cbn [fmap option_fmap option_map]. do 2 f_equal. rewrite (bool_decide_true (Exists _ (i :: idx))) by (by left). by rewrite orb_true_r.
    + rewrite bool_decide_false by done. rewrite IH. destruct (list_find _ idx) as [[? ?]|]; [done|]. cbn [fmap option_fmap option_map]. do 3 f_equal.
      apply bool_decide_ext. rewrite Exists_cons. tauto.
Qed.

Context (kend : Z) (Hend : 0 < kend) (trampoline : Z) (Htramp : phys_addr trampoline).

(** What [wait] needs of the child [c] in slot [i] it frees. *)
Record reap_pre k (p i : nat) (l : list Z) (Tp T : gmap (list Z) Z) (ds : list Z) (perm : nat -> Z) : Prop := {
  rp_slot : (i < length (k_procs k))%nat;
  rp_user : uspace kend (k_mem k) (p_pagetable (proc_at k p)) Tp l;
  rp_tf : p_trapframe (proc_at k i) <> 0;
  rp_pt : p_pagetable (proc_at k i) <> 0;
  rp_mem : proc_mem kend trampoline (k_mem k) l (p_pagetable (proc_at k i)) (p_trapframe (proc_at k i)) (p_sz (proc_at k i)) T ds perm;
  rp_apart : forall vb pa, 0 <= vb -> uaddr (ram (k_mem k)) Tp vb = Some pa ->
    ~ its_page l T (p_trapframe (proc_at k i)) ds (pa - vb mod 4096);
}.

(** The status copied to the parent, if it asked for it. *)
Definition reported k (km : kmem) (Tp : gmap (list Z) Z) (addr : Z) (i : nat) : Prop :=
  if decide (addr = 0) then km = k_mem k else wrote (k_mem k) km Tp addr (le_bytes 4 (p_xstate (proc_at k i))).

Lemma reap_ok k p i addr l Tp T ds perm : reap_pre k p i l Tp T ds perm -> 0 <= addr < 2 ^ 64 ->
  returns (reap kend p addr i) k (fun r k' => exists km,
    (r = inl (p_pid (proc_at k i)) /\ reported k km Tp addr i /\ exists km', k' = upd i freed (set_k_mem km' k) /\
       released kend km km' l T (p_trapframe (proc_at k i) :: ds)) \/
    (r = inl (-1) /\ addr <> 0 /\ k' = set_k_mem km k /\
       exists j, (j < 4)%nat /\ wrote (k_mem k) km Tp addr (take j (le_bytes 4 (p_xstate (proc_at k i)))) /\
         uaddr (ram (k_mem k)) Tp (addr + Z.of_nat j) = None)).
Proof.
  intros [Hi Hus Htf Hpt Hpm Hap] Ha. unfold reap, returns, getp. mrun. unfold id.
  set (c := proc_at k i) in *. set (bs := le_bytes 4 (p_xstate c)).
  assert (Hcopy : returns (if negb (addr =? 0) then
               let! pt := getM (fun k => p_pagetable (proc_at k p)) in
               Mem (copyout pt addr bs)
             else retM 0) k (fun r k' => exists km, k' = set_k_mem km k /\ proc_mem kend trampoline km l (p_pagetable c) (p_trapframe c) (p_sz c) T ds perm /\
               ((r = 0 /\ reported k km Tp addr i) \/ (r = -1 /\ addr <> 0 /\ exists j, (j < 4)%nat /\ wrote (k_mem k) km Tp addr (take j bs) /\
                  uaddr (ram (k_mem k)) Tp (addr + Z.of_nat j) = None)))).
  { unfold reported. destruct (Z.eqb_spec addr 0) as [E|E]; cbn [negb].
    - apply returns_ret. exists (k_mem k). rewrite set_k_mem_same, decide_True by done. split_and!; [done|done|by left].
    - unfold returns. mrun. pose proof (copyout_loop_ok kend Hend _ Tp l (length bs + 1) (k_mem k) addr bs Hus Ha ltac:(lia)) as Hc.
      apply returns_inv in Hc as (r & km & Hrun & Hus' & n & Hn & Hw & Hr). rewrite (Mem_ok (copyout (p_pagetable (proc_at k p)) addr bs) k _ _ Hrun).
      assert (Hlen : length bs = 4%nat) by apply length_le_bytes.
      exists km. split; [done|]. split; [exact (proc_mem_wrote kend trampoline (k_mem k) km _ Tp addr (take n bs) l _ _ _ T ds perm Hus Hw Hap Hpm)|].
      rewrite decide_False by done. destruct Hr as [[-> ->]|(-> & Hlt & Hnone)].
      + left. split; [done|]. by rewrite take_ge in Hw by lia.
      + right. split_and!; [done|done|]. exists n. split_and!; [lia|done|done]. }
  apply returns_inv in Hcopy as (r & k1 & Hrun & km & -> & Hpm1 & Hr). mstep Hrun. destruct Hr as [[-> Hrep]|(-> & Hne & Hj)]; cbn [Z.ltb Z.compare].
  2: { cbn. exists km. right. done. }
  pose proof (freeproc_ok kend Hend trampoline Htramp i (set_k_mem km k) l T ds perm Hi Htf Hpt Hpm1) as Hf.
  apply returns_inv in Hf as ([] & k2 & Hrun2 & km' & -> & Hrel). mstep Hrun2. cbn. exists km. left. split_and!; [done|done|]. exists km'. by rewrite set_mem_mem.
Qed.
End Wait.

(** ** exit: the process table *)

Section Exit.
Context {S Dv : Type}.
Implicit Types k : kstate S Dv.

(** [wakeup] of the process [q], if there is one, as seen by process [i]. *)
Definition wake_opt (q : option nat) (me i : nat) (x : proc) : proc :=
  match q with Some q => wake1 (ChProc q) me i x | None => x end.
(** Process [i] after [reparent(p)] has looked at the first [n] processes. *)
Definition adopt (n : nat) (p me : nat) (init : option nat) (kids : bool) (i : nat) (x : proc) : proc :=
  let x := if kids then wake_opt init me i x else x in
  if decide ((i < n)%nat /\ p_parent x = Some p) then set_p_parent init x else x.

Lemma wake1_twice c me i x : wake1 c me i (wake1 c me i x) = wake1 c me i x.
Proof. unfold wake1. destruct (decide (i <> me /\ p_state x = SLEEPING /\ p_chan x = Some c)) as [D|D]; [|by rewrite decide_False]. by rewrite decide_False by (intros (_ & H & _); done). Qed.
Lemma wake1_parent c me i x q : wake1 c me i (set_p_parent q x) = set_p_parent q (wake1 c me i x).
Proof. unfold wake1. cbn. by case_decide. Qed.
Lemma parent_wake1 c me i x : p_parent (wake1 c me i x) = p_parent x.
Proof. unfold wake1. by case_decide. Qed.
Lemma parent_wake_opt q me i x : p_parent (wake_opt q me i x) = p_parent x.
Proof. destruct q; [apply parent_wake1|done]. Qed.
Lemma wake_opt_twice q me i x : wake_opt q me i (wake_opt q me i x) = wake_opt q me i x.
Proof. destruct q; [apply wake1_twice|done]. Qed.
Lemma wake_opt_parent q me i x r : wake_opt q me i (set_p_parent r x) = set_p_parent r (wake_opt q me i x).
Proof. destruct q; [apply wake1_parent|done]. Qed.

Lemma roused_imap c k F : (length (k_procs k) <= nproc)%nat ->
  roused c (set_k_procs (imap F (k_procs k)) k) = set_k_procs (imap (fun i x => wake1 c (k_cur k) i (F i x)) (k_procs k)) k.
Proof.
  intros Hn. unfold roused, set_k_procs. cbn. f_equal. unfold woken, woken_upto. apply list_eq. intros i. rewrite !list_lookup_imap.
  destruct (k_procs k !! i) as [x|] eqn:E; [|done]. cbn. by rewrite decide_True by (apply lookup_lt_Some in E; lia).
Qed.

Lemma imap_ext_proc (F G : nat -> proc -> proc) (ps : list proc) : (forall i x, ps !! i = Some x -> F i x = G i x) -> imap F ps = imap G ps.
Proof. intros H. apply list_eq. intros i. rewrite !list_lookup_imap. destruct (ps !! i) eqn:E; [|done]. cbn. by rewrite H. Qed.

Lemma alter_imap_proc (F : nat -> proc -> proc) g n (ps : list proc) :
  alter g n (imap F ps) = imap (fun i x => if decide (i = n) then g (F i x) else F i x) ps.
Proof.
  apply list_eq. intros i. rewrite list_lookup_imap. destruct (decide (i = n)) as [->|Hne].
  - rewrite list_lookup_alter_eq, list_lookup_imap. by destruct (ps !! n).
  - rewrite list_lookup_alter_ne, list_lookup_imap by done. by destruct (ps !! i).
Qed.

Lemma adopt_wake n p me init kids i x : wake_opt init me i (adopt n p me init kids i x) = adopt n p me init true i x.
Proof.
  unfold adopt. rewrite parent_wake_opt. assert (Hp : p_parent (if kids then wake_opt init me i x else x) = p_parent x) by (destruct kids; [apply parent_wake_opt|done]).
  rewrite Hp. assert (Hw : wake_opt init me i (if kids then wake_opt init me i x else x) = wake_opt init me i x) by (destruct kids; [apply wake_opt_twice|done]).
  case_decide; [by rewrite wake_opt_parent, Hw|exact Hw].
Qed.
Lemma adopt_next n p me init kids i x : i <> n \/ p_parent x <> Some p -> adopt (Datatypes.S n) p me init kids i x = adopt n p me init kids i x.
Proof.
  intros H. unfold adopt. assert (Hp : p_parent (if kids then wake_opt init me i x else x) = p_parent x) by (destruct kids; [apply parent_wake_opt|done]).
  assert (Hi : (i < Datatypes.S n)%nat /\ p_parent x = Some p <-> (i < n)%nat /\ p_parent x = Some p).
  { split; intros [? ?]; (split; [|done]); destruct H; (done || lia). }
  rewrite Hp. repeat case_decide; tauto.
Qed.
Lemma adopt_here n p me init kids x : p_parent x = Some p ->
  wake_opt init me n (set_p_parent init (adopt n p me init kids n x)) = adopt (Datatypes.S n) p me init true n x.
Proof.
  intros Hx. rewrite wake_opt_parent, adopt_wake. unfold adopt. rewrite parent_wake_opt. rewrite decide_False by lia. by rewrite decide_True by (split; [lia|done]).
Qed.

Lemma reparent_upto p k n : (length (k_procs k) <= nproc)%nat -> (n <= length (k_procs k))%nat ->
  let init := k_init k in
  for_each (seq 0 n) (fun i =>
    let! parent := getp i p_parent in
    if bool_decide (parent = Some p) then
      let! init := getM k_init in
      do! setp i (set_p_parent init) in
      match init with
      | Some init => wakeup (ChProc init)
      | None => retM tt
      end
    else retM tt) k =
  Ok tt (set_k_procs (imap (adopt n p (k_cur k) init (bool_decide (Exists (child_of k p) (seq 0 n)))) (k_procs k)) k).
Proof.
  intros Hlen. induction n as [|n IH]; intros Hn init.
  { cbn [seq for_each]. unfold retM. f_equal. rewrite bool_decide_false by (intros H; inversion H).
    transitivity (set_k_procs (k_procs k) k); [by destruct k|]. f_equal. apply list_eq. intros i. rewrite list_lookup_imap.
    destruct (k_procs k !! i); [|done]. cbn. unfold adopt. by rewrite decide_False by lia. }
  rewrite seq_S, for_each_app. mstep (IH ltac:(lia)). cbn [for_each Nat.add]. clear IH. fold init.
  set (kids := bool_decide (Exists (child_of k p) (seq 0 n))). set (F := adopt n p (k_cur k) init kids). unfold getp. mrun.
  assert (Hat : p_parent (proc_at (set_k_procs (imap F (k_procs k)) k) n) = p_parent (proc_at k n)).
  { destruct (lookup_lt_is_Some_2 (k_procs k) n ltac:(lia)) as [x Hx]. rewrite (proc_at_lookup k n x Hx).
    rewrite (proc_at_lookup _ n (F n x)); [|cbn; by rewrite list_lookup_imap, Hx]. unfold F, adopt.
    rewrite decide_False by lia. destruct kids; [apply parent_wake_opt|done]. }
  rewrite Hat. assert (Hkids : bool_decide (Exists (child_of k p) (seq 0 n ++ [n])) = kids || bool_decide (child_of k p n)).
  { unfold kids. rewrite <- bool_decide_or. apply bool_decide_ext. rewrite Exists_app, Exists_cons, Exists_nil. tauto. }
  rewrite Hkids. clear Hkids Hat. case_bool_decide as C.
  - rewrite orb_comm, bool_decide_true by done. cbn [orb]. mrun. cbn [k_init set_k_procs]. fold init.
    unfold setp. mrun. change (set_k_procs (alter ?f n (k_procs (set_k_procs ?ps k))) (set_k_procs ?ps k)) with (set_k_procs (alter f n ps) k).
    rewrite alter_imap_proc. set (G := fun i x => _).
    assert (HG : forall i x, k_procs k !! i = Some x -> wake_opt init (k_cur k) i (G i x) = adopt (Datatypes.S n) p (k_cur k) init true i x).
    { intros i x Hx. unfold G. case_decide as E.
      - subst i. apply adopt_here. rewrite <- C. by rewrite (proc_at_lookup k n x Hx).
      - unfold F. rewrite adopt_wake. symmetry. apply adopt_next. by left. }
    destruct init as [q|] eqn:Ei.
    + mstep (wakeup_ok (ChProc q) (set_k_procs (imap G (k_procs k)) k)). rewrite roused_imap by done. unfold retM. do 2 f_equal. by apply imap_ext_proc.
    + rewrite bind_ret. unfold retM. do 2 f_equal. by apply imap_ext_proc.
  - rewrite (bool_decide_false (child_of k p n)) by done. rewrite orb_false_r, bind_ret. unfold retM. do 2 f_equal. apply imap_ext_proc. intros i x Hx.
    symmetry. apply adopt_next. destruct (decide (i = n)) as [->|]; [right|by left]. rewrite <- (proc_at_lookup k n x Hx). done.
Qed.

Context `{!TxOps S} `{!OpOps S}.

(** The end of [exit], once files and directory are released. *)
Definition exit_table (p : nat) (status : Z) : M (kstate S Dv) unit :=
  do! setp p (set_p_cwd None) in
  do! reparent p in
  let! parent := getp p p_parent in
  do! (match parent with Some q => wakeup (ChProc q) | None => retM tt end) in
  do! setp p (set_p_xstate status) in
  setp p (set_p_state ZOMBIE).

(** Process [i] afterwards. *)
Definition exited (p : nat) (init parent : option nat) (kids : bool) (status : Z) (i : nat) (x : proc) : proc :=
  if decide (i = p) then mk_proc ZOMBIE (p_chan x) (p_killed x) status (p_pid x) (p_parent x) (p_kstack x) (p_sz x) (p_pagetable x)
    (p_trapframe x) (p_context x) (p_ofile x) None (p_name x) (p_priority x)
  else wake_opt parent p i (adopt nproc p p init kids i x).

Lemma wake_self q i x : wake_opt q i i x = x.
Proof. destruct q; [|done]. cbn. unfold wake1. by rewrite decide_False by naive_solver. Qed.

Lemma parent_exited p init parent kids status i x : (i < nproc)%nat ->
  p_parent (exited p init parent kids status i x) = if decide (p_parent x = Some p /\ i <> p) then init else p_parent x.
Proof.
  intros Hi. unfold exited. destruct (decide (i = p)) as [->|Hne]; [by rewrite decide_False by tauto|]. rewrite parent_wake_opt. unfold adopt.
  set (y := if kids then _ else _). assert (Hy : p_parent y = p_parent x) by (unfold y; destruct kids; [apply parent_wake_opt|done]).
  rewrite Hy. repeat case_decide; try done; tauto.
Qed.

Lemma exit_table_ok k p status : length (k_procs k) = nproc -> (p < nproc)%nat -> k_cur k = p -> p_parent (proc_at k p) <> Some p ->
  exit_table p status k = Ok tt (set_k_procs (imap (exited p (k_init k) (p_parent (proc_at k p))
    (bool_decide (Exists (child_of k p) (seq 0 nproc))) status) (k_procs k)) k).
Proof.
  intros Hlen Hp Hcur Hself. unfold exit_table. rewrite bind_setp. set (k1 := upd p _ k).
  assert (Hl1 : length (k_procs k1) = nproc) by (unfold k1; by rewrite length_upd_proc).
  assert (Hpar1 : forall i, p_parent (proc_at k1 i) = p_parent (proc_at k i))
    by (intros i; unfold k1; rewrite proc_at_upd by lia; case_decide; [by subst|done]).
  pose proof (reparent_upto p k1 nproc ltac:(lia) ltac:(lia)) as Hr. cbn zeta in Hr. mstep Hr. clear Hr.
  change (k_cur k1) with (k_cur k). change (k_init k1) with (k_init k). rewrite Hcur.
  assert (Hkids : bool_decide (Exists (child_of k1 p) (seq 0 nproc)) = bool_decide (Exists (child_of k p) (seq 0 nproc))).
  { apply bool_decide_ext. rewrite !Exists_exists. unfold child_of. by setoid_rewrite Hpar1. }
  rewrite Hkids. set (kids := bool_decide _). set (k2 := set_k_procs _ k1).
  destruct (lookup_lt_is_Some_2 (k_procs k) p ltac:(lia)) as [x Hx]. pose proof (proc_at_lookup k p x Hx) as Hpx.
  assert (Hadopt : adopt nproc p p (k_init k) kids p (set_p_cwd None x) = set_p_cwd None x).
  { unfold adopt. replace (if kids then _ else _) with (set_p_cwd None x) by (destruct kids; [by rewrite wake_self|done]).
    rewrite decide_False; [done|]. intros [_ E]. apply Hself. by rewrite Hpx. }
  assert (Hx2 : p_parent (proc_at k2 p) = p_parent (proc_at k p)).
  { rewrite Hpx. rewrite (proc_at_lookup k2 p (set_p_cwd None x)); [done|]. unfold k2, k1, upd. cbn [k_procs set_k_procs].
    by rewrite list_lookup_imap, list_lookup_alter_eq, Hx; cbn; rewrite Hadopt. }
  unfold getp. mrun. rewrite Hx2. set (parent := p_parent (proc_at k p)).
  assert (Hw : (match parent with Some q => wakeup (ChProc q) | None => retM tt end) k2 =
    Ok tt (set_k_procs (imap (fun i x => wake_opt parent p i (adopt nproc p p (k_init k) kids i x)) (k_procs k1)) k1)).
  { destruct parent as [q|]; [|done]. rewrite wakeup_ok. unfold k2. rewrite roused_imap by lia. by change (k_cur k1) with (k_cur k); rewrite Hcur. }
  mstep Hw. rewrite bind_setp. unfold setp, modifyM. f_equal. unfold upd, set_k_procs, k1, upd. cbn [k_mem k_fs k_ftable k_pipes k_procs k_nextpid k_init k_cur k_ticks k_dev set_k_procs].
  f_equal. rewrite !alter_imap_proc. apply list_eq. intros i. rewrite !list_lookup_imap. destruct (decide (i = p)) as [->|Hne].
  - rewrite list_lookup_alter_eq, Hx. cbn [fmap option_fmap option_map]. unfold exited. rewrite decide_True by done. by rewrite Hadopt, wake_self.
  - rewrite list_lookup_alter_ne by done. destruct (k_procs k !! i); [|done]. cbn [fmap option_fmap option_map]. unfold exited. by rewrite decide_False.
Qed.
End Exit.
