(* ===== verification/PipeThms.v ===== *)
(** * Theorems about pipes *)

From stdpp Require Import base list gmap strings.
From Stdlib Require Import ZArith Lia.
From S2P Require Import Prelude Mem Layout Kalloc Vm VmSpec VmUser VmCopy VmExample Sleeplock FsFormat Store Fs FsExample Kernel Sched File PipeSpec.
Open Scope Z_scope.

(** C8: [pipewrite] continued at byte [i] appends to the queue the bytes the
    user has at [addr + i], as many as are mapped and as there is room for.  It
    wakes the readers; it returns the number of bytes written, or sleeps with
    this number when the queue is full before all are written.  A writer that is
    killed, or without a reader, gets -1 and changes nothing.  The 32-bit counters may
    wrap around. *)
Theorem pipewrite_correct {S Dv} kend (k : kstate S Dv) T l pi addr n i p : 0 < kend ->
  user_ok kend T l k -> k_pipes k !! pi = Some p -> pipe_ok p -> 0 <= addr + i < 2 ^ 64 ->
  if decide (i < n /\ refused k p) then pipewrite pi addr n i k = Ok (Done (-1)) k
  else
    let bs := take (Z.to_nat (PIPESIZE - plen p)) (ubytes (ram (k_mem k)) T (addr + i) (Z.to_nat (n - i))) in
    let i' := i + Z.of_nat (length bs) in
    exists p', appended p p' bs /\
      if decide (i' < n /\ plen p' = PIPESIZE)
      then pipewrite pi addr n i k = Ok (Asleep i') (asleep (ChPipeWrite pi) (roused (ChPipeRead pi) (with_pipe pi k p')))
      else pipewrite pi addr n i k = Ok (Done i') (roused (ChPipeRead pi) (with_pipe pi k p')).
Proof. intros Hend. exact (pipewrite_ok kend Hend T l pi addr k i n p). Qed.

Lemma pipewrite_correct_witness :
  exists p', appended kx_ring p' [0; 0; 0] /\
    pipewrite kx_pipe 4093 5 0 kx = Ok (Done 3) (roused (ChPipeRead kx_pipe) (with_pipe kx_pipe kx p')).
Proof.
  pose proof (pipewrite_correct ex_kend kx ex_T ex_free kx_pipe 4093 5 0 kx_ring ex_kend_pos kx_user kx_pipe_at kx_ring_ok ltac:(lia)) as H.
  rewrite decide_False in H by (intros [_ [?|?]]; [discriminate|by apply H0]).
  assert (Hb : ubytes (ram (k_mem kx)) ex_T (4093 + 0) (Z.to_nat (5 - 0)) = [0; 0; 0]) by (vm_compute; reflexivity).
  rewrite Hb in H. destruct H as (p' & Ha & H). exists p'. split; [exact Ha|].
  rewrite decide_False in H; [exact H|]. intros [_ E]. rewrite (plen_contents p'), (ap_contents _ _ _ Ha) in E. by vm_compute in E.
Defined.

(** C29: [piperead] takes bytes from the front of the queue, in order, and stores
    them at [addr]: as many as asked for, as there are, and as are mapped.  It
    wakes the writers and returns the number stored; a byte whose copy fails is
    taken from the queue all the same.  On an empty queue with a writer it
    sleeps, or returns -1 when killed; without a writer it returns 0. *)
Theorem piperead_correct {S Dv} kend (k : kstate S Dv) T l pi addr n p : 0 < kend ->
  user_ok kend T l k -> k_pipes k !! pi = Some p -> pipe_ok p -> 0 <= addr < 2 ^ 64 ->
  if decide (contents p = [] /\ pp_writeopen p <> 0)
  then piperead pi addr n k =
    if decide (p_killed (proc_at k (k_cur k)) <> 0) then Ok (Done (-1)) k else Ok (Asleep tt) (asleep (ChPipeRead pi) k)
  else
    let want := Nat.min (Z.to_nat n) (length (contents p)) in
    let d := room_at T (ram (k_mem k)) addr want in
    returns (piperead pi addr n) k (fun r k' => r = Done (Z.of_nat d) /\
      exists p' km, k' = roused (ChPipeWrite pi) (set_k_mem km (with_pipe pi k p')) /\ user_ok kend T l k' /\
        consumed p p' (used_up T (ram (k_mem k)) addr want) /\
        wrote (k_mem k) km T addr (take d (contents p))).
Proof. intros Hend. exact (piperead_ok kend Hend T l pi addr k n p). Qed.

(** ** Nobody sleeps who could go on *)

(** A reader sleeps only while the pipe is empty and has a writer, a writer only
    while it is full and has a reader; nobody sleeps on a pipe that is gone. *)
Definition waiting_ok {S Dv} (k : kstate S Dv) (pi : Z) : Prop := forall j,
  (sleeps k j (ChPipeRead pi) -> contents (pipe_at k pi) = [] /\ pp_writeopen (pipe_at k pi) <> 0) /\
  (sleeps k j (ChPipeWrite pi) -> plen (pipe_at k pi) = PIPESIZE /\ pp_readopen (pipe_at k pi) <> 0).

Section Waiting.
Context {S Dv : Type} (pi : Z).
Implicit Types k : kstate S Dv.

Lemma running_with_pipe k p : running k -> running (with_pipe pi k p).
Proof. intros [H1 H2 H3]. by split. Qed.

Lemma waiting_wrote k p p' bs : running k -> waiting_ok k pi -> k_pipes k !! pi = Some p ->
  appended p p' bs -> (plen p = PIPESIZE -> bs = []) -> waiting_ok (roused (ChPipeRead pi) (with_pipe pi k p')) pi.
Proof.
  intros Hr Hw Hp [Hok Hc Hro Hwo] Hfull j. change (pipe_at (roused _ _) pi) with (pipe_at (with_pipe pi k p') pi). rewrite pipe_at_with.
  assert (Hat : pipe_at k pi = p) by (unfold pipe_at; by rewrite Hp).
  split; intros [Hs Hne]%sleeps_roused; try (by apply running_with_pipe); [by destruct Hne|].
  destruct (Hw j) as [_ Hj]. rewrite Hat in Hj. destruct (Hj Hs) as [Hl Ho]. rewrite (Hfull Hl), app_nil_r in Hc.
  rewrite Hro. split; [|done]. rewrite plen_contents, Hc, <- plen_contents. done.
Qed.

Lemma waiting_read k km p p' c : running k -> waiting_ok k pi -> k_pipes k !! pi = Some p ->
  consumed p p' c -> waiting_ok (roused (ChPipeWrite pi) (set_k_mem km (with_pipe pi k p'))) pi.
Proof.
  intros Hr Hw Hp [Hok Hc Hro Hwo] j. change (pipe_at (roused _ _) pi) with (pipe_at (with_pipe pi k p') pi). rewrite pipe_at_with.
  assert (Hat : pipe_at k pi = p) by (unfold pipe_at; by rewrite Hp).
  assert (Hr' : running (set_k_mem km (with_pipe pi k p'))) by (destruct Hr as [H1 H2 H3]; by split).
  split; intros [Hs Hne]%sleeps_roused; try done.
  destruct (Hw j) as [Hj _]. rewrite Hat in Hj. destruct (Hj Hs) as [Hl Ho]. by rewrite Hc, Hl, drop_nil, Hwo.
Qed.

Lemma waiting_asleep k c : running k -> waiting_ok k pi ->
  (c = ChPipeRead pi -> contents (pipe_at k pi) = [] /\ pp_writeopen (pipe_at k pi) <> 0) ->
  (c = ChPipeWrite pi -> plen (pipe_at k pi) = PIPESIZE /\ pp_readopen (pipe_at k pi) <> 0) ->
  waiting_ok (asleep c k) pi.
Proof.
  intros Hr Hw H1 H2 j. change (pipe_at (asleep c k) pi) with (pipe_at k pi). destruct (Hw j) as [W1 W2].
  split; intros [[_ E]|Hs]%sleeps_asleep; auto.
Qed.

Lemma waiting_close kend k p w : running k -> waiting_ok k pi -> k_pipes k !! pi = Some p -> page_ok kend pi ->
  returns (pipeclose kend pi w) k (fun _ k' => waiting_ok k' pi).
Proof.
  intros Hr Hw Hp Hpg. assert (Hat : pipe_at k pi = p) by (unfold pipe_at; by rewrite Hp).
  set (p' := if w then mk_pipe (pp_data p) (pp_nread p) (pp_nwrite p) (pp_readopen p) 0
             else mk_pipe (pp_data p) (pp_nread p) (pp_nwrite p) 0 (pp_writeopen p)).
  set (c := if w then ChPipeRead pi else ChPipeWrite pi). set (k1 := roused c (with_pipe pi k p')).
  assert (H1 : (if w then
         do! setpipe pi (fun p => mk_pipe (pp_data p) (pp_nread p) (pp_nwrite p) (pp_readopen p) 0) in
         wakeup (ChPipeRead pi)
       else
         do! setpipe pi (fun p => mk_pipe (pp_data p) (pp_nread p) (pp_nwrite p) 0 (pp_writeopen p)) in
         wakeup (ChPipeWrite pi)) k = Ok tt k1).
  { unfold setpipe, k1, p', c. destruct w; mrun; rewrite Hat; apply wakeup_ok. }
  assert (Hs : forall j c', sleeps k1 j c' <-> sleeps k j c' /\ c' <> c)
    by (intros j c'; unfold k1; rewrite sleeps_roused by (by apply running_with_pipe); done).
  unfold pipeclose, returns. mstep H1. unfold getpipe. mrun. unfold id. change (pipe_at k1 pi) with (pipe_at (with_pipe pi k p') pi). rewrite pipe_at_with.
  destruct ((pp_readopen p' =? 0) && (pp_writeopen p' =? 0)) eqn:Eb.
  - apply andb_true_iff in Eb as [Er%Z.eqb_eq Ew%Z.eqb_eq]. mrun. unfold Mem, zoomM, kfree.
    destruct Hpg as [Ha Hrange]. unfold PGSIZE. rewrite Ha. cbn [Z.eqb negb orb].
    destruct (Z.ltb_spec pi kend), (Z.leb_spec PHYSTOP pi); try lia. cbn [orb modifyM].
    intros j. destruct (Hw j) as [W1 W2]. rewrite Hat in *.
    split; intros [Hj Hne]%Hs; exfalso; unfold c, p' in *; destruct w; cbn in *; try done; [by destruct (W1 Hj)|by destruct (W2 Hj)].
  - cbn. intros j. destruct (Hw j) as [W1 W2]. change (pipe_at k1 pi) with (pipe_at (with_pipe pi k p') pi). rewrite pipe_at_with, Hat in *.
    split; intros [Hj Hne]%Hs; unfold c, p' in *; destruct w; cbn; try done; [by apply W1|by apply W2].
Qed.
End Waiting.

(** C30: no lost wakeup in pipes.  If every process asleep on a pipe has a reason
    to be (an empty pipe with a writer, a full pipe with a reader), this is still so
    after any [pipewrite], [piperead] or [pipeclose]: whoever makes progress possible
    wakes those that wait for it.  Closing the last end of a pipe leaves nobody
    asleep on it. *)
Theorem pipe_no_lost_wakeup {S Dv} kend (k : kstate S Dv) T l pi addr n i p : 0 < kend -> running k ->
  user_ok kend T l k -> k_pipes k !! pi = Some p -> pipe_ok p -> page_ok kend pi -> 0 <= i -> 0 <= addr -> addr + i < 2 ^ 64 ->
  waiting_ok k pi ->
  returns (pipewrite pi addr n i) k (fun _ k' => waiting_ok k' pi) /\
  returns (piperead pi addr n) k (fun _ k' => waiting_ok k' pi) /\
  forall writable, returns (pipeclose kend pi writable) k (fun _ k' => waiting_ok k' pi).
Proof.
  intros Hend Hr Hu Hp Hok Hpg Hi Ha1 Ha2 Hw. assert (Hat : pipe_at k pi = p) by (unfold pipe_at; by rewrite Hp). split_and!.
  - pose proof (pipewrite_ok kend Hend T l pi addr k i n p Hu Hp Hok ltac:(lia)) as H. unfold returns. case_decide as D; [by rewrite H|].
    destruct H as (p' & Hap & H).
    assert (Hwr : waiting_ok (roused (ChPipeRead pi) (with_pipe pi k p')) pi).
    { eapply waiting_wrote; [done|done|done|exact Hap|]. intros ->. by rewrite Z.sub_diag. }
    case_decide as E; rewrite H; [|done]. apply waiting_asleep; [by apply running_roused, running_with_pipe|done|done|]. intros _.
    change (pipe_at (roused _ _) pi) with (pipe_at (with_pipe pi k p') pi). rewrite pipe_at_with, (ap_read _ _ _ Hap).
    split; [tauto|]. intros E0. apply D. split; [|by left]. destruct E as [E _]. lia.
  - pose proof (piperead_ok kend Hend T l pi addr k n p Hu Hp Hok ltac:(lia)) as H. unfold returns. case_decide as D.
    + rewrite H. case_decide; [done|]. apply waiting_asleep; [done|done|by rewrite Hat|done].
    + apply returns_inv in H as (r & k' & -> & _ & p' & km & -> & _ & Hc & _). by eapply waiting_read.
  - intros w. by eapply waiting_close.
Qed.

Lemma kx_waiting : waiting_ok kx kx_pipe.
Proof.
  intros j. change (pipe_at kx kx_pipe) with kx_ring. split; intros [Hs Hc]; [done|].
  do 3 (destruct j as [|j]; [by vm_compute in Hs, Hc|]). by rewrite (kx_unused j : proc_at kx (Datatypes.S (Datatypes.S (Datatypes.S j))) = _) in Hs.
Qed.

Lemma piperead_correct_witness :
  piperead kx_pipe 100 10 kx = Ok (Asleep tt) (asleep (ChPipeRead kx_pipe) kx).
Proof.
  pose proof (piperead_correct ex_kend kx ex_T ex_free kx_pipe 100 10 kx_ring ex_kend_pos kx_user kx_pipe_at kx_ring_ok ltac:(lia)) as H.
  rewrite decide_True in H by (split; [reflexivity|discriminate]). rewrite decide_False in H by (intros H0; by apply H0). exact H.
Defined.

Lemma pipe_no_lost_wakeup_witness : returns (pipewrite kx_pipe 100 5 0) kx (fun _ k' => waiting_ok k' kx_pipe).
Proof.
  exact (proj1 (pipe_no_lost_wakeup ex_kend kx ex_T ex_free kx_pipe 100 5 0 kx_ring ex_kend_pos kx_running kx_user kx_pipe_at kx_ring_ok
    kx_page ltac:(lia) ltac:(lia) ltac:(lia) kx_waiting)).
Defined.
