(* ===== verification/SleepWake.v ===== *)
(** * Sleep and wakeup do not miss each other (kernel/proc.c)

    [sleep] and [wakeup] step by step, with their locks: processes that wait for
    a condition protected by [lk],

      acquire(lk); while(!cond) sleep(chan, lk); release(lk);

    the scheduler, and one process that makes the condition true,

      acquire(lk); cond = 1; wakeup(chan); release(lk);

    A step is what happens between two lock operations; the scheduler's test of a
    process under its lock is one step.  [acquire] of a lock that is taken is a
    step that is not enabled. *)

From stdpp Require Import base list relations.
From Stdlib Require Import ZArith Lia.
From S2P Require Import Prelude Kernel.
Open Scope nat_scope.

(** Where a waiting process is: in its own loop, or in [sleep]. *)
Inductive spc :=
  | SAcq      (** acquire(lk), before the loop or at the end of [sleep] *)
  | SCheck    (** the loop's test, [lk] held *)
  | SPLock    (** [sleep]: acquire(&p->lock) *)
  | SUnlk     (** [sleep]: release(lk) *)
  | SMark     (** [sleep]: p->chan = chan; p->state = SLEEPING *)
  | SSched    (** [sleep]: sched() *)
  | SAsleep   (** switched away *)
  | SWoken    (** [sleep]: p->chan = 0 *)
  | SUnplock  (** [sleep]: release(&p->lock) *)
  | SExit     (** release(lk) after the loop *)
  | SDone.
#[global] Instance spc_eq : EqDecision spc.
Proof. solve_decision. Defined.

(** Where the waking process is; [WScan i] is about to look at process [i]. *)
Inductive wpc :=
  | WAcq | WSet
  | WScan (i : nat)   (** [wakeup]: acquire(&p->lock) *)
  | WMark (i : nat)   (** [wakeup]: the test and p->state = RUNNABLE *)
  | WUnl (i : nat)    (** [wakeup]: release(&p->lock) *)
  | WRel | WDone.

(** Who holds a lock. *)
Inductive who := Proc (i : nat) | Sched | Waker.
#[global] Instance who_eq : EqDecision who.
Proof. solve_decision. Defined.

Record slp := mk_slp { pc : spc; pst : procstate; chn : bool; plk : option who }.
Record sw := mk_sw { lk : option who; cond : bool; wk : wpc; slps : list slp }.

(** The next position of the waker's scan of a table of [n] processes. *)
Definition scan_next (n i : nat) : wpc := if decide (i < n) then WScan i else WRel.

(** The steps of process [i], alone: its new state and that of [lk]. *)
Inductive sstep (i : nat) (c : bool) : option who -> slp -> option who -> slp -> Prop :=
  | s_acq st ch pl : sstep i c None (mk_slp SAcq st ch pl) (Some (Proc i)) (mk_slp SCheck st ch pl)
  | s_exit l st ch pl : c = true -> sstep i c l (mk_slp SCheck st ch pl) l (mk_slp SExit st ch pl)
  | s_loop l st ch pl : c = false -> sstep i c l (mk_slp SCheck st ch pl) l (mk_slp SPLock st ch pl)
  | s_plock l st ch : sstep i c l (mk_slp SPLock st ch None) l (mk_slp SUnlk st ch (Some (Proc i)))
  | s_unlk l st ch pl : sstep i c l (mk_slp SUnlk st ch pl) None (mk_slp SMark st ch pl)
  | s_mark l st ch pl : sstep i c l (mk_slp SMark st ch pl) l (mk_slp SSched SLEEPING true pl)
  | s_sched l st ch pl : sstep i c l (mk_slp SSched st ch pl) l (mk_slp SAsleep st ch (Some Sched))
  | s_swtched l st ch : sstep i c l (mk_slp SAsleep st ch (Some Sched)) l (mk_slp SAsleep st ch None)
  | s_dispatch l ch : sstep i c l (mk_slp SAsleep RUNNABLE ch None) l (mk_slp SWoken RUNNING ch (Some (Proc i)))
  | s_woken l st ch pl : sstep i c l (mk_slp SWoken st ch pl) l (mk_slp SUnplock st false pl)
  | s_unplock l st ch pl : sstep i c l (mk_slp SUnplock st ch pl) l (mk_slp SAcq st ch None)
  | s_rel l st ch pl : sstep i c l (mk_slp SExit st ch pl) None (mk_slp SDone st ch pl).

Inductive sw_step : sw -> sw -> Prop :=
  | sw_sleeper s i x l' x' : slps s !! i = Some x -> sstep i (cond s) (lk s) x l' x' ->
      sw_step s (mk_sw l' (cond s) (wk s) (<[i := x']> (slps s)))
  | sw_acq s : wk s = WAcq -> lk s = None -> sw_step s (mk_sw (Some Waker) (cond s) WSet (slps s))
  | sw_set s : wk s = WSet -> sw_step s (mk_sw (lk s) true (scan_next (length (slps s)) 0) (slps s))
  | sw_scan s i x : wk s = WScan i -> slps s !! i = Some x -> plk x = None ->
      sw_step s (mk_sw (lk s) (cond s) (WMark i) (<[i := mk_slp (pc x) (pst x) (chn x) (Some Waker)]> (slps s)))
  | sw_mark s i x : wk s = WMark i -> slps s !! i = Some x ->
      sw_step s (mk_sw (lk s) (cond s) (WUnl i)
        (<[i := mk_slp (pc x) (if bool_decide (pst x = SLEEPING) && chn x then RUNNABLE else pst x) (chn x) (plk x)]> (slps s)))
  | sw_unl s i x : wk s = WUnl i -> slps s !! i = Some x ->
      sw_step s (mk_sw (lk s) (cond s) (scan_next (length (slps s)) (S i)) (<[i := mk_slp (pc x) (pst x) (chn x) None]> (slps s)))
  | sw_rel s : wk s = WRel -> sw_step s (mk_sw None (cond s) WDone (slps s)).

Definition sw_init (n : nat) : sw := mk_sw None false WAcq (replicate n (mk_slp SAcq RUNNING false None)).

Definition sw_final (s : sw) : Prop := wk s = WDone /\ Forall (fun x => pc x = SDone) (slps s).

(** ** The invariant *)

(** The waker holds the lock of process [i]; has dealt with it. *)
Definition wheld (w : wpc) (i : nat) : Prop := w = WMark i \/ w = WUnl i.
Definition passed (w : wpc) (i : nat) : Prop :=
  match w with WScan j | WMark j => i < j | WUnl j => i <= j | WRel | WDone => True | _ => False end.
Definition wlk (w : wpc) : bool := match w with WAcq | WDone => false | _ => true end.
Definition wset (w : wpc) : bool := match w with WAcq | WSet => false | _ => true end.

Definition own_plk (p : spc) : bool := match p with SUnlk | SMark | SSched | SWoken | SUnplock => true | _ => false end.
Definition own_lk (p : spc) : bool := match p with SCheck | SPLock | SUnlk | SExit => true | _ => false end.

(** What is known of process [i]: which locks it holds, its state by where it
    is, and that once the waker has passed it is not asleep, nor on its way. *)
Record good (w : wpc) (c : bool) (l : option who) (i : nat) (x : slp) : Prop := {
  g_lk : l = Some (Proc i) <-> own_lk (pc x) = true;
  g_own : plk x = Some (Proc i) <-> own_plk (pc x) = true;
  g_other : forall j, plk x = Some (Proc j) -> j = i;
  g_waker : plk x = Some Waker <-> wheld w i;
  g_sched : plk x = Some Sched -> pc x = SAsleep /\ pst x = SLEEPING;
  g_state : pst x = match pc x with SSched => SLEEPING | SAsleep => pst x | _ => RUNNING end;
  g_asleep : pc x = SAsleep -> pst x = SLEEPING \/ pst x = RUNNABLE;
  g_chan : pc x = SAsleep \/ pc x = SSched -> chn x = true;
  g_runnable : pst x = RUNNABLE \/ pc x = SWoken \/ pc x = SUnplock -> c = true;
  g_cond : c = true -> pc x <> SPLock /\ pc x <> SUnlk;
  g_passed : passed w i -> pc x <> SMark /\ pc x <> SSched /\ (pc x = SAsleep -> pst x = RUNNABLE);
}.

Record sw_ok (s : sw) : Prop := {
  ok_good : forall i x, slps s !! i = Some x -> good (wk s) (cond s) (lk s) i x;
  ok_wlk : lk s = Some Waker <-> wlk (wk s) = true;
  ok_lk : forall j, lk s = Some (Proc j) -> exists x, slps s !! j = Some x;
  ok_nosched : lk s <> Some Sched;
  ok_wset : cond s = wset (wk s);
  ok_scan : match wk s with WScan i | WMark i | WUnl i => i < length (slps s) | _ => True end;
}.

Lemma passed_set w i : passed w i -> wset w = true.
Proof. destruct w; cbn; tauto. Qed.

(** What a step of process [i] does to [lk], and that it keeps what is known. *)
Lemma sstep_lk w c l i x l' x' : good w c l i x -> sstep i c l x l' x' ->
  l' = l \/ (l = None /\ l' = Some (Proc i)) \/ (l = Some (Proc i) /\ l' = None).
Proof. intros G H. pose proof (g_lk _ _ _ _ _ G). destruct H; cbn in *; tauto. Qed.

Lemma good_lk w c l l' i j y : j <> i -> l' = l \/ (l = None /\ l' = Some (Proc i)) \/ (l = Some (Proc i) /\ l' = None) ->
  good w c l j y -> good w c l' j y.
Proof. intros Hne Hl [G1 G2 G3 G4 G5 G6 G7 G8 G9 G10 G11]. split; try done. rewrite <- G1. destruct Hl as [->|[[-> ->]|[-> ->]]]; naive_solver. Qed.

Lemma sstep_good w c l i x l' x' : c = wset w -> good w c l i x -> sstep i c l x l' x' -> good w c l' i x'.
Proof.
  intros Hc [G1 G2 G3 G4 G5 G6 G7 G8 G9 G10 G11] H. pose proof (passed_set w i) as Hp. rewrite <- Hc in Hp.
  destruct H; cbn in *; split; cbn; try tauto; try (intuition congruence).
Qed.

(** A step of the waker that does not touch process [j]. *)
Lemma good_wk w w' c l j y : (wheld w' j <-> wheld w j) -> (passed w' j -> passed w j) -> good w c l j y -> good w' c l j y.
Proof. intros Hh Hp [G1 G2 G3 G4 G5 G6 G7 G8 G9 G10 G11]. split; try done; [by rewrite Hh|auto]. Qed.

Lemma wheld_next n i j : ~ wheld (scan_next n i) j.
Proof. unfold wheld, scan_next. case_decide; naive_solver. Qed.
Lemma passed_next n i j : j < n -> passed (scan_next n i) j -> j < i.
Proof. unfold scan_next. case_decide; cbn; lia. Qed.
Lemma next_flags n i : wlk (scan_next n i) = true /\ wset (scan_next n i) = true.
Proof. unfold scan_next. by case_decide. Qed.

Lemma good_insert w c l (ps : list slp) i x' :
  (forall j y, j <> i -> ps !! j = Some y -> good w c l j y) -> (i < length ps -> good w c l i x') ->
  forall j y, <[i := x']> ps !! j = Some y -> good w c l j y.
Proof.
  intros Ho Hx j y [(-> & -> & Hl)|[Hne Hj]]%list_lookup_insert_Some; auto.
Qed.

Lemma sleeper_ok s i x l' x' : sw_ok s -> slps s !! i = Some x -> sstep i (cond s) (lk s) x l' x' ->
  sw_ok (mk_sw l' (cond s) (wk s) (<[i := x']> (slps s))).
Proof.
  intros [Hg Hw Hl Hn Hc Hs] Hx Hst. pose proof (sstep_lk _ _ _ _ _ _ _ (Hg _ _ Hx) Hst) as Hd.
  pose proof (lookup_lt_Some _ _ _ Hx) as Hi. split; cbn [lk cond wk slps].
  - apply good_insert; [|eauto using sstep_good]. intros j y Hne Hj. eapply good_lk; eauto.
  - rewrite <- Hw. destruct Hd as [->|[[-> ->]|[-> ->]]]; [done|split; congruence|split; congruence].
  - intros j Hj. destruct (decide (j = i)) as [->|Hne]; [rewrite list_lookup_insert_eq by done; eauto|].
    rewrite list_lookup_insert_ne by done. apply Hl. destruct Hd as [E|[[E1 E2]|[E1 E2]]]; congruence.
  - destruct Hd as [E|[[E1 E2]|[E1 E2]]]; congruence.
  - done.
  - by rewrite length_insert.
Qed.

(** A step of the waker on process [i]. *)
Lemma waker_ok s i x x' w' : sw_ok s -> slps s !! i = Some x -> cond s = true -> wset w' = true -> wlk (wk s) = true -> wlk w' = true ->
  (match w' with WScan i | WMark i | WUnl i => i < length (slps s) | _ => True end) ->
  (forall j, j < length (slps s) -> j <> i -> (wheld w' j <-> wheld (wk s) j) /\ (passed w' j -> passed (wk s) j)) ->
  good w' true (lk s) i x' -> sw_ok (mk_sw (lk s) (cond s) w' (<[i := x']> (slps s))).
Proof.
  intros [Hg Hw Hl Hn Hc Hs] Hx Hcond Hset H1 H2 Hb Ho Hi. split; cbn [lk cond wk slps].
  - rewrite Hcond in *. apply good_insert; [|done]. intros j y Hne Hj. destruct (Ho j (lookup_lt_Some _ _ _ Hj) Hne). eapply good_wk; eauto.
  - rewrite H2. rewrite H1 in Hw. done.
  - intros j Hj. destruct (Hl j Hj) as [y Hy]. destruct (decide (j = i)) as [->|Hne]; [rewrite list_lookup_insert_eq by eauto using lookup_lt_Some; eauto|].
    by rewrite list_lookup_insert_ne by done; eauto.
  - done.
  - congruence.
  - by rewrite length_insert.
Qed.

Lemma set_ok s : sw_ok s -> wk s = WSet -> sw_ok (mk_sw (lk s) true (scan_next (length (slps s)) 0) (slps s)).
Proof.
  intros [Hg Hw Hl Hn Hc Hs] Ew. destruct (next_flags (length (slps s)) 0) as [F1 F2]. rewrite Ew in *.
  assert (Elk : lk s = Some Waker) by (by apply Hw). split; cbn [lk cond wk slps]; [|by rewrite F1|done|done|done|].
  - intros j y Hj. pose proof (lookup_lt_Some _ _ _ Hj). destruct (Hg j y Hj) as [G1 G2 G3 G4 G5 G6 G7 G8 G9 G10 G11].
    assert (Eo : own_lk (pc y) <> true) by (intros E; apply G1 in E; congruence).
    split; try done; [| |intros Hp%passed_next; [lia|done]].
    + rewrite G4. split; [intros [?|?]; congruence|by intros ?%wheld_next].
    + intros _. split; intros E; by rewrite E in Eo.
  - unfold scan_next. by case_decide.
Qed.

Lemma scan_ok s i x : sw_ok s -> wk s = WScan i -> slps s !! i = Some x -> plk x = None ->
  sw_ok (mk_sw (lk s) (cond s) (WMark i) (<[i := mk_slp (pc x) (pst x) (chn x) (Some Waker)]> (slps s))).
Proof.
  intros Hok Ew Hx Hpl. pose proof Hok as [Hg Hw Hl Hn Hc Hs]. rewrite Ew in *. eapply waker_ok; rewrite ?Ew; try done.
  - intros j _ Hne. split; [unfold wheld; intuition congruence|done].
  - pose proof (Hg i x Hx) as [G1 G2 G3 G4 G5 G6 G7 G8 G9 G10 G11]. rewrite Hpl, Hc in *. split; cbn; try done.
    + split; [done|]. intros E. by apply G2 in E.
    + split; [by left|done].
Qed.

Lemma mark_ok s i x : sw_ok s -> wk s = WMark i -> slps s !! i = Some x ->
  sw_ok (mk_sw (lk s) (cond s) (WUnl i)
    (<[i := mk_slp (pc x) (if bool_decide (pst x = SLEEPING) && chn x then RUNNABLE else pst x) (chn x) (plk x)]> (slps s))).
Proof.
  intros Hok Ew Hx. pose proof Hok as [Hg Hw Hl Hn Hc Hs]. rewrite Ew in *. eapply waker_ok; rewrite ?Ew; try done.
  - intros j _ Hne. cbn. split; [unfold wheld; intuition congruence|lia].
  - pose proof (Hg i x Hx) as [G1 G2 G3 G4 G5 G6 G7 G8 G9 G10 G11]. assert (Epl : plk x = Some Waker) by (apply G4; by left).
    assert (Eo : own_plk (pc x) <> true) by (intros E; apply G2 in E; congruence). cbn in Hc. rewrite Hc in *.
    split; cbn; try done; try (rewrite Epl; done).
    + rewrite Epl. split; [by right|done].
    + destruct (pc x); try (by rewrite G6); done.
    + intros E. specialize (G7 E). rewrite G8 by auto. destruct G7 as [->| ->]; cbn; auto.
    + intros _. split_and!; [intros E; by rewrite E in Eo..|]. intros E. rewrite G8 by auto. destruct (G7 E) as [->| ->]; done.
Qed.

Lemma unl_ok s i x : sw_ok s -> wk s = WUnl i -> slps s !! i = Some x ->
  sw_ok (mk_sw (lk s) (cond s) (scan_next (length (slps s)) (S i)) (<[i := mk_slp (pc x) (pst x) (chn x) None]> (slps s))).
Proof.
  intros Hok Ew Hx. pose proof Hok as [Hg Hw Hl Hn Hc Hs]. destruct (next_flags (length (slps s)) (S i)) as [F1 F2]. rewrite Ew in *.
  eapply waker_ok; rewrite ?Ew; try done.
  - unfold scan_next. by case_decide.
  - intros j Hj Hne. split; [|intros Hp%passed_next; [cbn; lia|done]]. split; [by intros ?%wheld_next|intros [?|?]; congruence].
  - pose proof (Hg i x Hx) as [G1 G2 G3 G4 G5 G6 G7 G8 G9 G10 G11]. assert (Epl : plk x = Some Waker) by (apply G4; by right).
    cbn in Hc. rewrite Hc in *. split; cbn; try done.
    + split; [done|]. intros E. apply G2 in E. congruence.
    + split; [done|by intros ?%wheld_next].
    + intros _. apply G11. cbn. lia.
Qed.

Lemma sw_ok_step s s' : sw_ok s -> sw_step s s' -> sw_ok s'.
Proof.
  intros Hok Hst. destruct Hst as [s i x l' x' Hx Hst|s Ew El|s Ew|s i x Ew Hx Hpl|s i x Ew Hx|s i x Ew Hx|s Ew];
    eauto using sleeper_ok, set_ok, scan_ok, mark_ok, unl_ok.
  - destruct Hok as [Hg Hw Hl Hn Hc Hs]. rewrite Ew, El in *. split; cbn; try done. intros j y Hj.
    destruct (Hg j y Hj) as [G1 G2 G3 G4 G5 G6 G7 G8 G9 G10 G11]. split; try done; [rewrite <- G1; split; congruence|].
    rewrite G4. unfold wheld. intuition congruence.
  - destruct Hok as [Hg Hw Hl Hn Hc Hs]. rewrite Ew in *. assert (El : lk s = Some Waker) by (by apply Hw).
    split; cbn; try done. intros j y Hj. destruct (Hg j y Hj) as [G1 G2 G3 G4 G5 G6 G7 G8 G9 G10 G11].
    split; try done; [rewrite <- G1, El; split; congruence|]. rewrite G4. unfold wheld. intuition congruence.
Qed.

Lemma sw_ok_init n : sw_ok (sw_init n).
Proof.
  split; cbn; try done. intros i x [-> _]%lookup_replicate. split; cbn; try done; try (intuition congruence).
  unfold wheld. intuition congruence.
Qed.

Lemma sw_reachable n s : rtc sw_step (sw_init n) s -> sw_ok s.
Proof. intros H. remember (sw_init n) as s0 eqn:E. assert (Hok : sw_ok s0) by (subst; apply sw_ok_init). clear E. induction H; eauto using sw_ok_step. Qed.

(** ** Every execution ends, with everybody awake *)

Definition srank (c : bool) (x : slp) : nat :=
  match pc x with
  | SAcq => if c then 4 else 14 | SCheck => if c then 3 else 13
  | SPLock => 12 | SUnlk => 11 | SMark => 10 | SSched => 9
  | SAsleep => if bool_decide (plk x = Some Sched) then 8 else 7
  | SWoken => 6 | SUnplock => 5 | SExit => 2 | SDone => 0
  end.
Definition wrank (n : nat) (w : wpc) : nat :=
  match w with
  | WAcq => 3 * n + 4 | WSet => 3 * n + 3 | WScan i => 3 * (n - i) + 2 | WMark i => 3 * (n - i) + 1 | WUnl i => 3 * (n - i)
  | WRel => 1 | WDone => 0
  end.
(** A bound on the steps still to be taken. *)
Definition sw_rank (s : sw) : nat := wrank (length (slps s)) (wk s) + sum_list_with (srank (cond s)) (slps s).

Lemma sum_insert {A} (f : A -> nat) (l : list A) i x x' : l !! i = Some x -> sum_list_with f (<[i := x']> l) + f x = sum_list_with f l + f x'.
Proof.
  revert i. induction l as [|y l IH]; intros [|i] H; [done|done|injection H as ->; cbn; lia|].
  change (<[S i := x']> (y :: l)) with (y :: <[i := x']> l). cbn [sum_list_with]. specialize (IH i H). lia.
Qed.
Lemma sum_le {A} (f g : A -> nat) (l : list A) : (forall x, f x <= g x) -> sum_list_with f l <= sum_list_with g l.
Proof. intros H. induction l as [|y l IH]; cbn; [done|]. specialize (H y). lia. Qed.

Lemma sstep_rank w c l i x l' x' : good w c l i x -> sstep i c l x l' x' -> srank c x' < srank c x.
Proof.
  intros [G1 G2 G3 G4 G5 G6 G7 G8 G9 G10 G11] H. destruct H; cbn in *; subst; repeat case_bool_decide; try done;
    try (rewrite G9 by auto; lia); try (destruct c; lia); lia.
Qed.

Lemma wrank_next n i : i <= n -> wrank n (scan_next n i) <= 3 * (n - i) + 2.
Proof. unfold scan_next. case_decide; cbn; lia. Qed.

Lemma sw_rank_step s s' : sw_ok s -> sw_step s s' -> sw_rank s' < sw_rank s.
Proof.
  intros [Hg Hw Hl Hn Hc Hs] Hst. unfold sw_rank.
  destruct Hst as [s i x l' x' Hx Hst|s Ew El|s Ew|s i x Ew Hx Hpl|s i x Ew Hx|s i x Ew Hx|s Ew]; cbn [wk slps cond]; rewrite ?length_insert.
  - pose proof (sstep_rank _ _ _ _ _ _ _ (Hg _ _ Hx) Hst). pose proof (sum_insert (srank (cond s)) _ _ _ x' Hx). lia.
  - rewrite Ew. cbn. lia.
  - pose proof (wrank_next (length (slps s)) 0 ltac:(lia)). rewrite Ew. cbn [wrank].
    assert (Hle : sum_list_with (srank true) (slps s) <= sum_list_with (srank (cond s)) (slps s)); [|lia].
    apply sum_le. intros x. unfold srank. destruct (pc x), (cond s); lia.
  - pose proof (sum_insert (srank (cond s)) _ _ _ (mk_slp (pc x) (pst x) (chn x) (Some Waker)) Hx) as E.
    unfold srank in E at 2 4. cbn [pc plk] in E. rewrite Hpl in E. rewrite !bool_decide_false in E by done. rewrite Ew. cbn [wrank]. lia.
  - match goal with |- context [<[i := ?y]> _] => pose proof (sum_insert (srank (cond s)) _ _ _ y Hx) as E end.
    unfold srank in E at 2 4. cbn [pc plk] in E. rewrite Ew. cbn [wrank]. lia.
  - rewrite Ew in *. cbn in Hs. pose proof (wrank_next (length (slps s)) (S i) ltac:(lia)). cbn [wrank].
    pose proof (sum_insert (srank (cond s)) _ _ _ (mk_slp (pc x) (pst x) (chn x) None) Hx) as E. unfold srank in E at 2 4. cbn [pc plk] in E.
    assert (plk x = Some Waker) as Epl by (apply (g_waker _ _ _ _ _ (Hg i x Hx)); by right). rewrite Epl, !bool_decide_false in E by done. lia.
  - rewrite Ew. cbn. lia.
Qed.

Lemma sleeper_moves s i x : sw_ok s -> slps s !! i = Some x -> pc x <> SDone -> (pc x = SAcq -> lk s = None) -> (pc x = SPLock -> plk x = None) ->
  (pc x = SAsleep -> plk x = Some Sched \/ (plk x = None /\ pst x = RUNNABLE)) -> exists s', sw_step s s'.
Proof.
  intros Hok Hx Hd H1 H2 H3. assert (exists l' x', sstep i (cond s) (lk s) x l' x') as (l' & x' & Hst); [|eauto using sw_step].
  destruct x as [p st ch pl]; cbn in *. destruct p; try done; try (by eexists _, _; constructor).
  - rewrite H1 by done. eexists _, _. constructor.
  - destruct (cond s); eexists _, _; by constructor.
  - rewrite H2 by done. eexists _, _. constructor.
  - destruct (H3 eq_refl) as [->|[-> ->]]; eexists _, _; constructor.
Qed.

(** The lock of a process at [SPLock] is free. *)
Lemma plock_free s i x : sw_ok s -> slps s !! i = Some x -> pc x = SPLock -> plk x = None.
Proof.
  intros [Hg Hw Hl Hn Hc Hs] Hx Hp. pose proof (Hg i x Hx) as [G1 G2 G3 G4 G5 G6 G7 G8 G9 G10 G11]. rewrite Hp in *.
  destruct (plk x) as [[j| |]|]; [|by destruct (G5 eq_refl)| |done].
  - specialize (G3 j eq_refl) as ->. discriminate (proj1 G2 eq_refl).
  - assert (wlk (wk s) = true) as El%Hw by (destruct (proj1 G4 eq_refl) as [->| ->]; done). rewrite El in G1. discriminate (proj2 G1 eq_refl).
Qed.

(** A process that waits for a lock waits for somebody who can move. *)
Lemma lk_holder_moves s j : sw_ok s -> lk s = Some (Proc j) -> exists s', sw_step s s'.
Proof.
  intros Hok Hj. destruct (ok_lk s Hok j Hj) as [x Hx]. pose proof (g_lk _ _ _ _ _ (ok_good s Hok j x Hx)) as G1. apply G1 in Hj.
  eapply sleeper_moves; [done|exact Hx| | |by eapply plock_free|]; intros E; by rewrite E in Hj.
Qed.

Lemma plk_holder_moves s i x : sw_ok s -> slps s !! i = Some x -> plk x <> None -> ~ wheld (wk s) i -> exists s', sw_step s s'.
Proof.
  intros Hok Hx Hpl Hw. pose proof (ok_good s Hok i x Hx) as [G1 G2 G3 G4 G5 G6 G7 G8 G9 G10 G11].
  destruct (plk x) as [[j| |]|] eqn:Epl; [| |tauto|done].
  - specialize (G3 j eq_refl) as ->. assert (Ho : own_plk (pc x) = true) by (by apply G2).
    eapply sleeper_moves; [done|exact Hx|..]; intros E; by rewrite E in Ho.
  - destruct (G5 eq_refl) as [E _]. eapply sleeper_moves; [done|exact Hx|by rewrite E..|auto].
Qed.

Lemma sw_progress s : sw_ok s -> sw_final s \/ exists s', sw_step s s'.
Proof.
  intros Hok. destruct (lk s) as [[j| |]|] eqn:El; [right; by eapply lk_holder_moves|by destruct (ok_nosched s Hok)| |].
  - right. pose proof (ok_scan s Hok) as Hs. assert (Hw : wlk (wk s) = true) by (by apply (ok_wlk s Hok)).
    destruct (wk s) as [| |i|i|i| |] eqn:Ew; try done; try (by eexists; constructor);
      destruct (lookup_lt_is_Some_2 _ _ Hs) as [x Hx]; [|by eexists; econstructor..].
    destruct (plk x) eqn:Epl; [|by eexists; econstructor]. eapply plk_holder_moves; [done|exact Hx|congruence|].
    rewrite Ew. intros [?|?]; congruence.
  - destruct (wk s) as [| |i|i|i| |] eqn:Ew;
      try (assert (lk s = Some Waker) by (apply (ok_wlk s Hok); by rewrite Ew); congruence); [right; by eexists; constructor|].
    destruct (decide (Forall (fun x => pc x = SDone) (slps s))) as [Hd|Hd]; [by left|].
    right. apply not_Forall_Exists in Hd; [|intros x; apply _]. apply Exists_exists in Hd as (x & Hin & Hpc). apply list_elem_of_lookup in Hin as [i Hx].
    destruct (plk x) eqn:Epl; [eapply plk_holder_moves; [done|exact Hx|congruence|rewrite Ew; intros [?|?]; congruence]|].
    eapply sleeper_moves; [done|exact Hx|done|done|done|]. intros E. right. split; [done|].
    apply (g_passed _ _ _ _ _ (ok_good s Hok i x Hx)); [by rewrite Ew|done].
Qed.

(** C5: [sleep] and [wakeup] do not miss each other.  In any state that [n]
    processes waiting in [sleep] for a condition, the scheduler and the process
    that sets the condition and calls [wakeup] can reach, in any order of their
    steps: a step is possible unless all are done, with every waiting process out
    of its loop (no deadlock, and nobody stays asleep), and the number of steps
    still possible is bounded.  So every execution ends with every process awake. *)
Theorem sleep_wakeup_live n s : rtc sw_step (sw_init n) s ->
  (sw_final s \/ exists s', sw_step s s') /\ (forall s', sw_step s s' -> sw_rank s' < sw_rank s) /\
  forall i x, slps s !! i = Some x -> wk s = WDone -> ~ (pc x = SAsleep /\ pst x = SLEEPING).
Proof.
  intros Hr. pose proof (sw_reachable n s Hr) as Hok. split_and!; [by apply sw_progress|intros s'; by apply sw_rank_step|].
  intros i x Hx Ew [E1 E2]. pose proof (g_passed _ _ _ _ _ (ok_good s Hok i x Hx)) as Hp. rewrite Ew in Hp. destruct (Hp I) as (_ & _ & H).
  rewrite H in E2; done.
Qed.

Lemma sleep_wakeup_live_witness : exists s, sw_step (sw_init 2) s /\ (sw_final s \/ exists s', sw_step s s').
Proof.
  exists (mk_sw (Some Waker) false WSet (slps (sw_init 2))). assert (H : sw_step (sw_init 2) (mk_sw (Some Waker) false WSet (slps (sw_init 2)))) by (by constructor).
  split; [exact H|]. exact (proj1 (sleep_wakeup_live 2 _ (rtc_once _ _ H))).
Defined.
