(* ===== verification/SchedThms.v ===== *)
(** * Theorems about scheduling and killing *)

From stdpp Require Import base list gmap strings.
From Stdlib Require Import ZArith Lia.
From S2P Require Import Prelude Mem Layout Kalloc Vm VmSpec VmUser VmFree VmExample Sleeplock FsFormat Store Fs FsExample Kernel Sched File PipeSpec Proc ProcSpec.
Open Scope Z_scope.

Section Scheduler.
Context {S Dv : Type}.
Local Abbreviation K := (kstate S Dv).
Implicit Types k : K.

(** What the scheduler relies on: a process that runs switches back, and leaves
    runnable processes runnable. *)
Record switches_back (run : nat -> M K unit) : Prop := {
  sb_returns : forall i k, returns (run i) k (fun _ k' => length (k_procs k') = length (k_procs k) /\
    forall j, j <> i -> p_state (proc_at k j) = RUNNABLE -> p_state (proc_at k' j) = RUNNABLE);
}.

Lemma dispatch_ok i k : (i < length (k_procs k))%nat ->
  dispatch i k = if decide (p_state (proc_at k i) = RUNNABLE)
    then Ok true (set_k_cur i (set_k_procs (alter (set_p_state RUNNING) i (k_procs k)) k)) else Ok false k.
Proof.
  intros Hi. unfold dispatch, getp, setp. mrun. unfold id. case_decide as E.
  - rewrite bool_decide_true by done. by mrun.
  - by rewrite bool_decide_false.
Qed.

(** Each position of the pass: process [i] is run exactly if it is runnable when
    its turn comes. *)
Lemma scheduler_loop_ok run idx : switches_back run -> NoDup idx -> forall k, (forall i, i ∈ idx -> (i < length (k_procs k))%nat) ->
  returns (scheduler_loop run idx) k (fun ran k' => length (k_procs k') = length (k_procs k) /\ sublist ran idx /\
    (forall j, j ∈ idx -> p_state (proc_at k j) = RUNNABLE -> j ∈ ran) /\
    forall j, j ∉ idx -> p_state (proc_at k j) = RUNNABLE -> p_state (proc_at k' j) = RUNNABLE).
Proof.
  intros [Hrun]. induction idx as [|i idx IH]; intros Hnd k Hlen.
  { cbn. apply returns_ret. split_and!; [done|done|by intros j ?%elem_of_nil|done]. }
  apply NoDup_cons in Hnd as [Hni Hnd]. cbn [scheduler_loop]. unfold returns.
  pose proof (Hlen i ltac:(left)) as Hi. pose proof (dispatch_ok i k Hi) as Hd. case_decide as E; mstep Hd.
  - set (k1 := set_k_cur _ _) in *. eapply returns_seq; [apply (Hrun i k1)|]. intros [] k2 [Hl2 Hk2].
    assert (Hl1 : length (k_procs k1) = length (k_procs k)) by (cbn; apply length_alter).
    assert (Hk : forall j, j <> i -> p_state (proc_at k j) = RUNNABLE -> p_state (proc_at k2 j) = RUNNABLE).
    { intros j Hne Hj. apply Hk2; [done|]. change (proc_at k1 j) with (proc_at (set_k_procs (alter (set_p_state RUNNING) i (k_procs k)) k) j).
      by rewrite proc_at_alter, decide_False. }
    eapply returns_seq; [apply (IH Hnd k2)|]; [intros j Hj; rewrite Hl2, Hl1; apply Hlen; by right|].
    intros ran k3 (Hl3 & Hsub & Hin & Hout). apply returns_ret. split_and!; [lia|by apply sublist_skip| |].
    + intros j Hj Hst. apply elem_of_cons in Hj as [->|Hj]; [left|]. destruct (decide (j = i)) as [->|]; [left|right; auto].
    + intros j Hj Hst. rewrite elem_of_cons in Hj. apply Hout; [tauto|]. apply Hk; [tauto|done].
  - rewrite bind_ret. eapply returns_seq; [apply (IH Hnd k)|]; [intros j Hj; apply Hlen; by right|].
    intros ran k3 (Hl3 & Hsub & Hin & Hout). apply returns_ret. split_and!; [done|by apply sublist_cons| |].
    + intros j Hj Hst. apply elem_of_cons in Hj as [->|Hj]; [done|auto].
    + intros j Hj Hst. rewrite elem_of_cons in Hj. apply Hout; [tauto|done].
Qed.
End Scheduler.



(** ** kill *)

Section Kill.
Context {S Dv : Type}.
Implicit Types k : kstate S Dv.

Definition struck (p : proc) : proc :=
  if decide (p_state p = SLEEPING) then set_p_state RUNNABLE (set_p_killed 1 p) else set_p_killed 1 p.
Definition with_pid k (pid : Z) : option nat := snd <$> list_find (fun i => p_pid (proc_at k i) = pid) (seq 0 nproc).

Lemma kill_loop_ok idx k pid : kill_loop idx pid k =
  match list_find (fun i => p_pid (proc_at k i) = pid) idx with Some (_, i) => Ok 0 (upd i struck k) | None => Ok (-1) k end.
Proof.
  induction idx as [|i idx IH]; [done|]. cbn [kill_loop list_find]. unfold getp. mrun. unfold id. case_decide as E.
  - rewrite (proj2 (Z.eqb_eq _ _) E), bind_setp.
    destruct (decide (p_state (proc_at k i) = SLEEPING)) as [D|D]; [rewrite bool_decide_true by done|rewrite bool_decide_false by done].
    + rewrite bind_setp, upd_upd_proc. unfold retM. f_equal. apply upd_ext_proc. intros p Hp. rewrite (proc_at_lookup _ _ _ Hp) in D. unfold struck. by rewrite decide_True.
    + rewrite bind_ret. unfold retM. f_equal. apply upd_ext_proc. intros p Hp. rewrite (proc_at_lookup _ _ _ Hp) in D. unfold struck. by rewrite decide_False.
  - rewrite (proj2 (Z.eqb_neq _ _) E), IH. by destruct (list_find _ idx) as [[? ?]|].
Qed.
End Kill.

(** [kill(pid)] finds the first process with this pid, marks it killed and, if it
    sleeps, makes it runnable so that it can notice; no other process changes.  It
    returns -1, changing nothing, when there is none. *)
Theorem kill_correct {S Dv} (k : kstate S Dv) pid :
  match with_pid k pid with
  | Some i => kill pid k = Ok 0 (upd i struck k) /\ (i < nproc)%nat /\ p_pid (proc_at k i) = pid
  | None => kill pid k = Ok (-1) k /\ forall i, (i < nproc)%nat -> p_pid (proc_at k i) <> pid
  end.
Proof.
  unfold kill, with_pid. rewrite kill_loop_ok. destruct (list_find _ _) as [[n i]|] eqn:E; cbn.
  - apply list_find_Some in E as (Hn & Hp & _). apply lookup_seq in Hn as [-> Hlt]. split_and!; [done|lia|done].
  - split; [done|]. intros i Hi Hp. apply list_find_None in E. rewrite Forall_forall in E. apply (E i); [|done]. apply elem_of_seq. lia.
Qed.

(** C40: [kill(0)] succeeds and poisons a free slot.  Unused slots have pid 0, so
    [kill(0)] returns 0 after setting [killed] in the first of them; [allocproc]
    does not clear it, so the next process created is born killed. *)
Theorem kill_zero {S Dv} kend trampoline forkret (k : kstate S Dv) l i : 0 < kend -> phys_addr trampoline -> length (k_procs k) = nproc ->
  kmem_inv kend (k_mem k) l -> (6 < length l)%nat ->
  (forall j, (j < nproc)%nat -> p_pid (proc_at k j) = 0 <-> p_state (proc_at k j) = UNUSED) ->
  first_unused k = Some i -> bare (proc_at k i) ->
  exists k1, kill 0 k = Ok 0 k1 /\
    returns (allocproc kend trampoline forkret) k1 (fun r k' => r = Some i /\ p_killed (proc_at k' i) = 1).
Proof.
  intros Hend Ht Hn Hk Hl Hpid Hi Hb. destruct (first_unused_Some k i Hi) as (Hlt & Hu & Hbefore).
  exists (upd i struck k). split.
  { unfold kill. rewrite kill_loop_ok, (find_first _ i); [done|done|by apply Hpid|]. intros j Hj Hp. apply (Hbefore j Hj), Hpid; [lia|done]. }
  assert (Hsame : forall j, p_state (proc_at (upd i struck k) j) = p_state (proc_at k j)).
  { intros j. rewrite proc_at_upd by lia. case_decide; [subst|done]. unfold struck. by rewrite Hu, decide_False. }
  assert (Hat : proc_at (upd i struck k) i = set_p_killed 1 (proc_at k i)).
  { rewrite proc_at_upd_eq by lia. unfold struck. by rewrite Hu, decide_False. }
  assert (Hfirst : first_unused (upd i struck k) = Some i).
  { unfold first_unused. rewrite (find_first _ i); [done|done|by rewrite Hsame|]. intros j Hj. rewrite Hsame. by apply Hbefore. }
  eapply returns_mono; [apply (allocproc_ok kend Hend trampoline forkret Ht (upd i struck k) l)|].
  - by rewrite length_upd_proc.
  - done.
  - intros j Hj. rewrite Hfirst in Hj. injection Hj as <-. by rewrite Hat.
  - intros r k' H. rewrite Hfirst in H. destruct r as [j|]; [|destruct H as (? & _ & _ & Hle); lia].
    destruct H as [-> (km & tf & root & T & l' & -> & _)]. split; [done|]. rewrite proc_at_upd_eq by (cbn; rewrite length_alter; lia).
    cbn [p_killed newborn]. change (proc_at (set_k_mem km (bumped ?k)) i) with (proc_at k i). by rewrite Hat.
Qed.

Lemma kill_zero_witness : exists k1, kill 0 kx = Ok 0 k1 /\
  returns (allocproc ex_kend 0x80007000 0x80001000) k1 (fun r k' => r = Some 3%nat /\ p_killed (proc_at k' 3) = 1).
Proof.
  apply (kill_zero ex_kend 0x80007000 0x80001000 kx ex_free 3 ex_kend_pos); [split; [reflexivity|lia]|reflexivity|exact (vi_kmem _ _ _ _ _ ex_vm_inv)|cbn; lia| | |].
  - intros j Hj. do 3 (destruct j as [|j]; [by vm_compute|]). rewrite (kx_unused j : proc_at kx (Datatypes.S (Datatypes.S (Datatypes.S j))) = _). done.
  - reflexivity.
  - split; reflexivity.
Defined.
