(* ===== verification/ProcThms.v ===== *)
(** * Theorems about the life of processes *)

From stdpp Require Import base list gmap strings.
From Stdlib Require Import ZArith Lia.
From S2P Require Import Prelude Mem Layout Kalloc Vm VmSpec VmUser VmCopy VmFree VmExample Sleeplock FsFormat Store Fs FsExample Kernel Sched File Proc ProcSpec PipeSpec WaitSpec.
Open Scope Z_scope.

(** ** A concrete process that has exited

    A page table with the trampoline, a trapframe and no user pages, as
    [proc_pagetable] makes it; a parent without user memory; nothing free. *)


Definition zx_root : Z := 0x80110000.
Definition zx_p1 : Z := 0x80111000.
Definition zx_p2 : Z := 0x80112000.
Definition zx_tf : Z := 0x80113000.
Definition zx_tramp : Z := 0x80007000.

Definition zx_words : list (Z * Z) :=
  [(zx_root + 8 * 255, Z.lor (PA2PTE zx_p1) PTE_V); (zx_p1 + 8 * 511, Z.lor (PA2PTE zx_p2) PTE_V);
   (zx_p2 + 8 * 511, map_entry zx_tramp (Z.lor PTE_R PTE_X)); (zx_p2 + 8 * 510, map_entry zx_tf (Z.lor PTE_R PTE_W))].
Definition zx_kmem : kmem := mk_kmem (mem_of zx_words) 0.
Definition zx_T : gmap (list Z) Z := {[ [] := zx_root; [255] := zx_p1; [255; 511] := zx_p2 ]}.

Lemma zx_T_inv a p : zx_T !! a = Some p ->
  (a = [] /\ p = zx_root) \/ (a = [255] /\ p = zx_p1) \/ (a = [255; 511] /\ p = zx_p2).
Proof.
  unfold zx_T. rewrite !lookup_insert. repeat case_decide; subst; intros; simplify_eq; auto.
  match goal with H : {[_ := _]} !! _ = _ |- _ => apply lookup_singleton_Some in H as [<- <-] end. auto.
Qed.
Ltac zx_cases H := apply zx_T_inv in H as [[? ?]|[[? ?]|[? ?]]]; subst.

Lemma zx_load p i : p mod 4096 = 0 -> 0 <= i < 512 -> load64 (ram zx_kmem) (p + 8 * i) = word_of zx_words (p + 8 * i).
Proof. intros Hp Hi. apply load_mem_of; [repeat constructor; vm_compute; congruence|Z.div_mod_to_equations; lia]. Qed.

Lemma zx_page_ok p : p ∈ [zx_root; zx_p1; zx_p2; zx_tf; ex_new] -> page_ok ex_kend p.
Proof.
  intros H. assert (HF : Forall (page_ok ex_kend) [zx_root; zx_p1; zx_p2; zx_tf; ex_new]) by (repeat constructor; vm_compute; congruence).
  by apply (proj1 (Forall_forall _ _) HF).
Qed.

(** The entries of the three pages. *)
Lemma zx_word p i : p mod 4096 = 0 -> 0 <= i < 512 -> load64 (ram zx_kmem) (p + 8 * i) =
  if decide (p = zx_root /\ i = 255) then Z.lor (PA2PTE zx_p1) PTE_V
  else if decide (p = zx_p1 /\ i = 511) then Z.lor (PA2PTE zx_p2) PTE_V
  else if decide (p = zx_p2 /\ i = 511) then map_entry zx_tramp (Z.lor PTE_R PTE_X)
  else if decide (p = zx_p2 /\ i = 510) then map_entry zx_tf (Z.lor PTE_R PTE_W) else 0.
Proof.
  intros Hp Hi. rewrite zx_load by done. unfold zx_words, word_of. unfold zx_root, zx_p1, zx_p2.
  repeat (match goal with |- context [if ?a =? ?b then _ else _] => destruct (Z.eqb_spec a b) end);
    repeat case_decide; try done; exfalso; Z.div_mod_to_equations; lia.
Qed.

Lemma zx_pt_inv : pt_inv ex_kend (ram zx_kmem) zx_root zx_T.
Proof.
  split.
  - reflexivity.
  - intros a b p Ha Hb. zx_cases Ha; zx_cases Hb; done.
  - intros a p Ha. zx_cases Ha; apply zx_page_ok; by repeat (left || right).
  - intros a p Ha. zx_cases Ha; simpl; lia.
  - intros a p Ha. zx_cases Ha; repeat constructor; lia.
  - intros i b p Ha. zx_cases Ha; simplify_eq; lia.
  - intros a i p Ha. zx_cases Ha; [by destruct a| |].
    + destruct a as [|? [|]]; simplify_eq/=. eexists. reflexivity.
    + destruct a as [|? [|? [|]]]; simplify_eq/=. eexists. reflexivity.
  - intros a p i Ha Hl Hi. unfold pt_next. zx_cases Ha; simpl in Hl; try lia; rewrite zx_word by (done || lia).
    + destruct (decide (i = 255)) as [->|Hne]; [reflexivity|]. rewrite !decide_False by (intros [? ?]; done).
      destruct (zx_T !! _) as [q|] eqn:Eq; [zx_cases Eq; naive_solver|done].
    + destruct (decide (i = 511)) as [->|Hne]; [reflexivity|]. rewrite !decide_False by (intros [? ?]; done).
      destruct (zx_T !! _) as [q|] eqn:Eq; [zx_cases Eq; naive_solver|done].
Qed.

Lemma zx_vm_inv : vm_inv ex_kend zx_kmem zx_root zx_T [].
Proof.
  split; [split; [done|constructor|constructor]|exact zx_pt_inv|]. intros a p _. apply not_elem_of_nil.
Qed.

(** ** The mapped addresses *)

Lemma PX_tramp va : TRAMPOLINE <= va < TRAMPOLINE + 4096 -> PX 2 va = 255 /\ PX 1 va = 511 /\ PX 0 va = 511.
Proof. destruct layout_facts as (_ & -> & _). intros H. rewrite PX0_eq, PX1_eq, PX2_eq. Z.div_mod_to_equations. lia. Qed.
Lemma PX_tf va : TRAPFRAME <= va < TRAPFRAME + 4096 -> PX 2 va = 255 /\ PX 1 va = 511 /\ PX 0 va = 510.
Proof. destruct layout_facts as (_ & _ & ->). intros H. rewrite PX0_eq, PX1_eq, PX2_eq. Z.div_mod_to_equations. lia. Qed.

Lemma zx_leaf va : 0 <= va < MAXVA -> leaf (ram zx_kmem) zx_T va = proc_leaf zx_tramp zx_tf (mapped_list (fun _ => 0) 0 [] (fun _ => PTE_R)) va.
Proof.
  intros Hva. unfold proc_leaf. rewrite mapped_list_nil. destruct layout_facts as (EM & ET & EF). case_decide as D1; [|case_decide as D2].
  - unfold leaf. destruct (PX_tramp va D1) as (-> & -> & ->). change (zx_T !! [255; 511]) with (Some zx_p2). cbv beta iota. by rewrite zx_word by (done || lia).
  - unfold leaf. destruct (PX_tf va D2) as (-> & -> & ->). change (zx_T !! [255; 511]) with (Some zx_p2). cbv beta iota. by rewrite zx_word by (done || lia).
  - unfold leaf. destruct (zx_T !! _) as [q|] eqn:Eq; [|done]. zx_cases Eq; simplify_eq. rewrite zx_word by (done || apply PX_range).
    rewrite !(decide_False (P := _ = _ /\ _)); [done|..]; intros [E1 E2]; try done.
    + apply D2. rewrite PX0_eq, PX1_eq, PX2_eq in *. rewrite EF, EM in *. Z.div_mod_to_equations. lia.
    + apply D1. rewrite PX0_eq, PX1_eq, PX2_eq in *. rewrite ET, EM in *. Z.div_mod_to_equations. lia.
Qed.

(** ** The state *)

Definition zx_procs : list proc :=
  [kx_proc RUNNING None 1 ex_new;
   set_p_parent (Some 0%nat) (set_p_xstate 7 (set_p_trapframe zx_tf (set_p_sz 0 (kx_proc ZOMBIE None 2 zx_root))))] ++ replicate 62 proc0.
Definition zx : kstate mstore unit :=
  mk_k zx_kmem fx (replicate 100 file0) ∅ zx_procs 3 (Some 0%nat) 0 7 tt.

Lemma zx_parent_mem : uspace ex_kend zx_kmem ex_new {[ [] := ex_new ]} [].
Proof.
  assert (Hz : forall i, 0 <= i < 512 -> load64 (ram zx_kmem) (ex_new + 8 * i) = 0).
  { intros i Hi. rewrite zx_word by done. by rewrite !decide_False by (intros [? ?]; done). }
  destruct (zero_root ex_kend (ram zx_kmem) ex_new (zx_page_ok ex_new ltac:(by repeat (left || right))) Hz) as [Hpt Hl].
  assert (Hu : forall va, uaddr (ram zx_kmem) {[ [] := ex_new ]} va = None).
  { intros va. unfold uaddr. rewrite Hl. by rewrite orb_true_r. }
  split.
  - split; [split; [done|constructor|constructor]|exact Hpt|]. intros a p _. apply not_elem_of_nil.
  - intros va pa _. by rewrite Hu.
  - intros va vb pa _ _. by rewrite Hu.
Qed.

Lemma zx_child_mem : proc_mem ex_kend zx_tramp zx_kmem [] zx_root zx_tf 0 zx_T [] (fun _ => PTE_R).
Proof.
  split.
  - exact zx_vm_inv.
  - intros _. split; [change PTE_R with 2; lia|done].
  - destruct layout_facts as (_ & _ & ->). lia.
  - done.
  - exact zx_leaf.
  - constructor; [apply not_elem_of_nil|constructor].
  - constructor; [|constructor]. split_and!; [apply zx_page_ok; by repeat (left || right)|apply not_elem_of_nil|].
    intros b Hb. zx_cases Hb; discriminate.
Qed.

Lemma zx_reap : reap_pre ex_kend zx_tramp zx 0 1 [] {[ [] := ex_new ]} zx_T [] (fun _ => PTE_R).
Proof.
  split; [vm_compute; lia|exact zx_parent_mem|done|done|exact zx_child_mem|].
  intros vb pa _ Hu. exfalso. revert Hu. change (k_mem zx) with zx_kmem. unfold uaddr, leaf. rewrite lookup_singleton_ne by done. by rewrite orb_true_r.
Qed.


Section Fork.
Context {S Dv : Type} `{!TxOps S} `{!OpOps S}.
Context (kend : Z) (Hend : 0 < kend) (trampoline forkret : Z) (Htramp : phys_addr trampoline).
Implicit Types (k : kstate S Dv).

Lemma proc_mem_perm km l root tf sz T ds perm perm' : (forall i, perm i = perm' i) ->
  proc_mem kend trampoline km l root tf sz T ds perm -> proc_mem kend trampoline km l root tf sz T ds perm'.
Proof.
  intros He [Hv Hp Hsz Hlen Hleaf Hnd Hu]. split; try done; [intros i; by rewrite <- He|].
  intros va Hva. rewrite Hleaf by done. unfold proc_leaf, mapped_list. repeat case_decide; try done. by rewrite He.
Qed.

(** Growing the new process by [ds] keeps the accounts. *)
Lemma grown_accounts km km1 km2 l l1 l2 root tf T T2 ds lf perm c : (forall q, pages_of T l1 q \/ q = tf <-> q ∈ l) -> same_outside km km1 l ->
  grown kend km1 T l1 root lf perm c 0 ds km2 T2 l2 ->
  (forall q, pages_of T2 l2 q \/ q ∈ tf :: ds <-> q ∈ l) /\ same_outside km km2 l.
Proof.
  intros Hpages Hs1 Hg. split.
  - intros q. rewrite <- Hpages, <- (gr_pages _ _ _ _ _ _ _ _ _ _ _ _ _ Hg), elem_of_cons. tauto.
  - intros y Hy. rewrite (gr_frame _ _ _ _ _ _ _ _ _ _ _ _ _ Hg), Hs1; [done|done|]. intros q Hq. apply Hy, Hpages. by left.
Qed.

(** The new process is given up when its memory cannot be copied. *)
Lemma fork_undo k l np tf root T l1 km1 km2 T2 l2 perm c : (np < length (k_procs k))%nat -> bare (proc_at k np) -> tf <> 0 -> root <> 0 ->
  proc_mem kend trampoline km1 l1 root tf 0 T [] (fun _ => PTE_R) -> (forall q, pages_of T l1 q \/ q = tf <-> q ∈ l) ->
  same_outside (k_mem k) km1 l -> (forall i, good_perm (perm i)) -> grown kend km1 T l1 root (leaf (ram km1) T) perm c 0 [] km2 T2 l2 ->
  returns (do! freeproc kend np in retM (-1)) (set_k_mem km2 (upd np (newborn forkret (k_nextpid k) tf root) (set_k_mem km1 (bumped k))))
    (fun r k' => r = -1 /\ exists km c, k' = upd np (fun s => set_p_context (c s) (freed s)) (set_k_mem km (bumped k)) /\ gave_up kend (k_mem k) km l).
Proof.
  intros Hlt [_ Hsz] Htf0 Hroot Hpm Hpages Hs1 Hperm Hg. set (k2 := set_k_mem km2 _).
  assert (Hat : proc_at k2 np = newborn forkret (k_nextpid k) tf root (proc_at k np)).
  { change (proc_at k2 np) with (proc_at (upd np (newborn forkret (k_nextpid k) tf root) (set_k_mem km1 (bumped k))) np). by rewrite proc_at_upd_eq. }
  destruct (proc_mem_grown kend trampoline km1 km2 l1 l2 root tf T T2 [] perm 0 c Hpm Hperm) as [Hpm2 _]; [split; [done|by vm_compute]|done|done|].
  pose proof (freeproc_ok kend Hend trampoline Htramp np k2 l2 T2 [] perm) as Hf. cbn zeta in Hf. rewrite Hat in Hf. cbn [p_trapframe p_pagetable p_sz newborn] in Hf.
  rewrite Hsz in Hf. eapply returns_seq; [apply Hf; try done; cbn; by rewrite length_alter|].
  intros _ k' (km & -> & l3 & Hk3 & Hin & Hf3). apply returns_ret. split; [done|].
  exists km, (fun s => mk_context forkret (p_kstack s + PGSIZE) (replicate 12 0)). split.
  { unfold k2. by rewrite set_mem_mem, set_mem_upd, set_mem_mem, upd_upd_proc. }
  destruct (grown_accounts (k_mem k) km1 km2 l l1 l2 root tf T T2 [] _ _ _ Hpages Hs1 Hg) as [Hset Hs2].
  exists l3. split_and!; [done|intros q; by rewrite Hin|]. intros y Hy. rewrite Hf3 by (intros q Hq; by apply Hy, Hset). by apply Hs2.
Qed.

Lemma fork_ok k l To n ip : fork_pre kend k l To n ip ->
  returns (fork kend trampoline forkret) k (fun r k' =>
    let p := k_cur k in let x := proc_at k p in
    match first_unused k with
    | None => r = -1 /\ k' = k
    | Some np =>
        (r = -1 /\ exists km c, k' = upd np (fun s => set_p_context (c s) (freed s)) (set_k_mem km (bumped k)) /\ gave_up kend (k_mem k) km l) \/
        (r = k_nextpid k /\ exists tf root T l' ds km,
          k' = upd np (child forkret (k_nextpid k) tf root p x) (set_k_fs (upd_i ip more_ref (fs_of k))
                 (set_k_ftable (dup_refs (p_ofile x) (k_ftable k)) (set_k_mem km (bumped k)))) /\
          proc_mem kend trampoline km l' root tf (p_sz x) T ds (src_perm (k_mem k) To n) /\
          filled (ram km) (src_byte (k_mem k) To) ds /\ tf_copied (ram (k_mem k)) (ram km) (p_trapframe x) tf /\
          (forall q, pages_of T l' q \/ q ∈ tf :: ds <-> q ∈ l) /\ same_outside (k_mem k) km l)
    end).
Proof.
  intros Hpre. pose proof Hpre as [Hn Hr Hk Hsrc Hsz Hpg Htf Hslot Hofl Hfiles Hcwd].
  unfold fork, myproc, returns. mrun.
  pose proof (allocproc_ok kend Hend trampoline forkret Htramp k l Hn Hk (fun i Hi => proj1 (Hslot i Hi))) as Ha.
  apply returns_inv in Ha as (r & k1 & Hrun & Ha). mstep Hrun. set (x := proc_at k (k_cur k)) in *. cbn zeta.
  destruct (first_unused k) as [np|] eqn:Hnp; [|destruct r; [done|by subst k1]]. destruct r as [np'|].
  2: { destruct Ha as (km & -> & Hg & _). cbn. left. split; [done|]. exists km, p_context. split; [|done]. apply upd_ext_proc. by intros []. }
  destruct Ha as [-> (km1 & tf & root & T & l1 & -> & Htf0 & Hroot & Hpm & Hpages & Hs1)].
  destruct (first_unused_Some k np Hnp) as (Hlt & Hun & _). rewrite <- Hn in Hlt.
  assert (Hne : k_cur k <> np) by (intros E; pose proof (run_state k Hr) as E'; rewrite E, Hun in E'; done).
  set (k1 := upd np _ _) in *.
  assert (Hat : proc_at k1 np = newborn forkret (k_nextpid k) tf root (proc_at k np)) by (by unfold k1; rewrite proc_at_upd_eq).
  assert (Hatp : proc_at k1 (k_cur k) = x) by (unfold k1; by rewrite proc_at_upd, decide_False).
  unfold getp at 1 2. mrun. unfold id. rewrite Hatp, Hat. cbn [p_pagetable newborn].
  destruct layout_facts as (EM & ET & EF). pose proof (PGROUNDUP_bounds (p_sz x) ltac:(lia)) as Hb.
  assert (Hup : PGROUNDUP (p_sz x) <= TRAPFRAME) by (fold x in Hpg; rewrite Hpg, EF in *; Z.div_mod_to_equations; lia).
  destruct (copy_source_outside kend (k_mem k) km1 l _ To n (pages_of T l1) (ki_pages _ _ _ Hk) Hsrc Hs1) as (Hsrc1 & Hlf1 & Hby1).
  { intros q Hq. apply Hpages. by left. }
  pose proof (uvmcopy_ok kend Hend km1 (p_pagetable x) root To T l1 (p_sz x) n (pm_inv _ _ _ _ _ _ _ _ _ _ Hpm) Hsrc1 ltac:(lia) Hpg) as Hcopy.
  apply returns_inv in Hcopy as (r & km2 & Hrun2 & T2 & l2 & ds & Hg & _ & _ & Hr2).
  2: { intros va Hva. rewrite (pm_leaf _ _ _ _ _ _ _ _ _ _ Hpm) by lia. unfold proc_leaf. rewrite !decide_False by lia. apply mapped_list_nil. }
  mstep (Mem_ok _ k1 _ _ Hrun2). assert (Hperm : forall i, good_perm (src_perm km1 To n i)) by (eapply src_perm_good; exact Hsrc1).
  destruct Hr2 as [[-> Hlen]|[-> ->]]; cbn [Z.ltb Z.compare].
  2: { eapply returns_mono; [eapply (fork_undo k l np); eauto; by apply Hslot|]. intros r' k' H. by left. }
  pose proof (fork_rest_ok kend forkret k l To n ip np (k_nextpid k) tf root km2 Hpre Hnp) as E. cbn zeta in E. fold x in E.
  set (m' := store64 _ _ _) in E. set (km3 := mk_kmem m' (freelist km2)) in E.
  eapply returns_eq; [exact E|]. apply returns_ret. right. split; [done|].
  destruct (proc_mem_grown kend trampoline km1 km2 l1 l2 root tf T T2 ds (src_perm km1 To n) (p_sz x) (src_byte km1 To) Hpm Hperm) as [Hpm2 Hfill];
    [done|rewrite Hlen; done|done|].
  destruct (tf_copy_ok (ram km2) (p_trapframe x) tf) as [Htfc Htfo]. fold m' in Htfc, Htfo.
  destruct (proc_mem_trapframe kend trampoline km2 m' l2 root tf (p_sz x) T2 ds _ _ Hpm2 Hfill Htfo) as [Hpm3 Hfill3].
  destruct (grown_accounts (k_mem k) km1 km2 l l1 l2 root tf T T2 ds _ _ _ Hpages Hs1 Hg) as [Hset Hs2].
  exists tf, root, T2, l2, ds, km3. split_and!; [done| | | |done|].
  - eapply proc_mem_perm; [|exact Hpm3]. intros i. unfold src_perm. by rewrite Hlf1.
  - eapply filled_ext; [|exact Hfill3]. rewrite Hlen. exact Hby1.
  - split; [|apply Htfc]. intros off Ho Ha. cbn [ram km3]. rewrite (proj1 Htfc) by done. apply Hs2. intros q Hq.
    eapply (page_apart kend (p_trapframe x) q); [apply Htf|by apply (proj1 (Forall_forall _ _) (ki_pages _ _ _ Hk))|by intros <-; apply Htf|].
    change sizeof_trapframe with 288 in Ho. lia.
  - intros y Hy. cbn [ram km3]. rewrite Htfo; [by apply Hs2|]. apply Hy, Hset. right. left.
Qed.
End Fork.

(** C4: [fork] makes a copy of the calling process.  It returns the new pid with, in
    the first free slot, a runnable child of the caller that has its own copy of
    every page of the caller's memory under the same permissions, the caller's
    registers with 0 in [a0], its open files (each with one more reference per
    descriptor), working directory (one more reference), name and priority; nothing else changes
    but pages that were free.  Without a free slot it returns -1 and changes nothing; without
    memory it returns -1 with every page given back and the slot unused. *)
Theorem fork_correct {S Dv} `{!TxOps S} kend trampoline forkret (k : kstate S Dv) l To n ip :
  0 < kend -> phys_addr trampoline -> fork_pre kend k l To n ip ->
  returns (fork kend trampoline forkret) k (fun r k' =>
    let p := k_cur k in let x := proc_at k p in
    match first_unused k with
    | None => r = -1 /\ k' = k
    | Some np =>
        (r = -1 /\ exists km c, k' = upd np (fun s => set_p_context (c s) (freed s)) (set_k_mem km (bumped k)) /\ gave_up kend (k_mem k) km l) \/
        (r = k_nextpid k /\ exists tf root T l' ds km,
          k' = upd np (child forkret (k_nextpid k) tf root p x) (set_k_fs (upd_i ip more_ref (fs_of k))
                 (set_k_ftable (dup_refs (p_ofile x) (k_ftable k)) (set_k_mem km (bumped k)))) /\
          proc_mem kend trampoline km l' root tf (p_sz x) T ds (src_perm (k_mem k) To n) /\
          filled (ram km) (src_byte (k_mem k) To) ds /\ tf_copied (ram (k_mem k)) (ram km) (p_trapframe x) tf /\
          (forall q, pages_of T l' q \/ q ∈ tf :: ds <-> q ∈ l) /\ same_outside (k_mem k) km l)
    end).
Proof. intros Hend Ht. exact (fork_ok kend Hend trampoline forkret Ht k l To n ip). Qed.

Lemma kx_fork_pre : fork_pre ex_kend kx ex_free ex_T 1 0.
Proof.
  assert (Hfree : forall q, q ∈ ex_free -> pages_of ex_T2 ex_free q) by (intros q Hq; by left).
  split.
  - reflexivity.
  - exact kx_running.
  - exact (vi_kmem _ _ _ _ _ ex_vm_inv).
  - destruct ex_copy_source as [H1 H2 H3 H4]. split; [exact H1|intros b p Hb Hq; by apply (H2 b p Hb), Hfree|exact H3|].
    intros va Hva. destruct (H4 va Hva) as [H5 H6]. split; [done|]. intros Hq. by apply H6, Hfree.
  - change (p_sz (proc_at kx (k_cur kx))) with 4096. destruct layout_facts as (_ & _ & ->). lia.
  - reflexivity.
  - change (p_trapframe (proc_at kx (k_cur kx))) with ex_tf. split; [apply ex_page_ok; by repeat (left || right)|].
    unfold ex_free. rewrite !elem_of_cons, elem_of_nil. vm_compute. intuition congruence.
  - intros i Hi. change (first_unused kx) with (Some 3%nat) in Hi. injection Hi as <-. done.
  - reflexivity.
  - intros f Hf. change (p_ofile (proc_at kx (k_cur kx))) with (Some 0%nat :: replicate 15 None) in Hf.
    apply elem_of_cons in Hf as [[= ->]|Hf]; [split; [vm_compute; lia|done]|]. by apply elem_of_replicate in Hf as [? _].
  - reflexivity.
Qed.

Lemma fork_correct_witness : returns (fork ex_kend 0x80007000 0x80001000) kx (fun r k' => r = -1 \/ r = 4).
Proof.
  eapply returns_mono; [apply (fork_correct ex_kend 0x80007000 0x80001000 kx ex_free ex_T 1 0 ex_kend_pos); [split; [reflexivity|lia]|exact kx_fork_pre]|].
  intros r k' H. change (first_unused kx) with (Some 3%nat) in H. destruct H as [[-> _]|[-> _]]; [by left|by right].
Defined.

(** ** wait *)

Definition first_zombie {S Dv} (k : kstate S Dv) (p : nat) : option nat := snd <$> list_find (zombie_of k p) (seq 0 nproc).
Definition has_kids {S Dv} (k : kstate S Dv) (p : nat) : bool := bool_decide (Exists (child_of k p) (seq 0 nproc)).

(** C27: [wait] returns the pid of its first child that has exited, with the exit status
    stored where the caller asked, the child's slot unused again and all the
    child's pages free; if the status cannot be stored it returns -1 and the
    child stays.  Without such a child it returns -1 when there are no children or
    the caller is killed, and otherwise sleeps until a child exits. *)
Theorem wait_correct {S Dv} `{!TxOps S} kend trampoline (k : kstate S Dv) addr l Tp T ds perm : let p := k_cur k in
  0 < kend -> phys_addr trampoline -> 0 <= addr < 2 ^ 64 ->
  (forall i, first_zombie k p = Some i -> reap_pre kend trampoline k p i l Tp T ds perm) ->
  match first_zombie k p with
  | Some i => returns (wait kend addr) k (fun r k' => exists km,
      (r = Done (p_pid (proc_at k i)) /\ reported k km Tp addr i /\ exists km', k' = upd i freed (set_k_mem km' k) /\
         released kend km km' l T (p_trapframe (proc_at k i) :: ds)) \/
      (r = Done (-1) /\ addr <> 0 /\ k' = set_k_mem km k /\
         exists j, (j < 4)%nat /\ wrote (k_mem k) km Tp addr (take j (le_bytes 4 (p_xstate (proc_at k i)))) /\
           uaddr (ram (k_mem k)) Tp (addr + Z.of_nat j) = None))
  | None => wait kend addr k =
      if has_kids k p && (p_killed (proc_at k p) =? 0) then Ok (Asleep tt) (asleep (ChProc p) k) else Ok (Done (-1)) k
  end.
Proof.
  intros p Hend Ht Ha Hpre. unfold wait, myproc, returns. mrun. pose proof (wait_scan_ok kend p addr (seq 0 nproc) k false) as Hs.
  unfold first_zombie in *. destruct (list_find (zombie_of k p) (seq 0 nproc)) as [[j i]|]; cbn [fmap option_fmap option_map snd] in *.
  - pose proof (reap_ok kend Hend trampoline Ht k p i addr l Tp T ds perm (Hpre i eq_refl) Ha) as Hr.
    apply returns_inv in Hr as (r & k' & Hrun & km & Hr). rewrite Hrun in Hs. mstep Hs. destruct Hr as [(-> & H)|(-> & H)]; cbn; exists km; auto.
  - mstep Hs. unfold getp. cbn [orb]. mrun. fold p. unfold has_kids. destruct (bool_decide _); cbn [negb orb andb]; [|done].
    destruct (p_killed (proc_at k p) =? 0); cbn [negb]; [|done]. mstep (sleep_ok (ChProc (k_cur k)) k). done.
Qed.

Lemma wait_correct_witness : returns (wait ex_kend 0) zx (fun r k' => r = Done 2 /\ p_state (proc_at k' 1) = UNUSED).
Proof.
  pose proof (wait_correct ex_kend zx_tramp zx 0 [] {[ [] := ex_new ]} zx_T [] (fun _ => PTE_R) ex_kend_pos ltac:(split; [reflexivity|unfold zx_tramp; lia]) ltac:(lia)) as H.
  assert (E : first_zombie zx (k_cur zx) = Some 1%nat) by reflexivity. cbn zeta in H. rewrite E in H.
  eapply returns_mono; [apply H; intros i Hi; injection Hi as <-; exact zx_reap|].
  intros r k' (km & [(-> & _ & km' & -> & _)|(_ & Hne & _)]); [|by destruct Hne].
  split; [reflexivity|]. rewrite proc_at_upd_eq by (vm_compute; lia). reflexivity.
Defined.

(** ** exit *)

(** C28: [exit].  The first process cannot exit.  Any other, once its files and its
    directory are released (which leaves the state [k4]), becomes a zombie with the exit status; its
    children get the first process as parent, which is woken if there are any; its
    parent is woken, and finds it in [wait].  Nothing else changes. *)
Theorem exit_correct {S Dv} `{!TxOps S} `{!OpOps S} kend (k k1 k2 k3 k4 : kstate S Dv) status ip : let p := k_cur k in
  if decide (k_init k = Some p) then exit kend status k = Panic "init exiting"
  else
    exit_files kend p k = Ok tt k1 -> begin_op k1 = Ok tt k2 -> p_cwd (proc_at k2 p) = Some ip -> FS (iput ip) k2 = Ok tt k3 ->
    end_op k3 = Ok tt k4 -> length (k_procs k4) = nproc -> (p < nproc)%nat -> k_cur k4 = p -> k_init k4 = k_init k ->
    p_parent (proc_at k4 p) <> Some p ->
    exists k', exit kend status k = Ok tt k' /\ k' = set_k_procs (k_procs k') k4 /\
      (forall i, (i < nproc)%nat -> proc_at k' i = exited p (k_init k) (p_parent (proc_at k4 p)) (has_kids k4 p) status i (proc_at k4 i)) /\
      (forall i, ~ child_of k' p i) /\
      forall q, p_parent (proc_at k4 p) = Some q -> zombie_of k' q p /\ forall i, (i < nproc)%nat -> i <> p -> ~ sleeps k' i (ChProc q).
Proof.
  intros p. case_decide as D.
  { unfold exit, myproc. mrun. by rewrite bool_decide_true. }
  intros H1 H2 Hcwd H3 H4 Hlen Hp Hcur Hinit Hself.
  pose proof (exit_table_ok k4 p status Hlen Hp Hcur Hself) as Ht. rewrite Hinit in Ht.
  set (F := exited _ _ _ _ _) in Ht. set (k' := set_k_procs _ k4) in Ht. exists k'.
  assert (Hat : forall i, (i < nproc)%nat -> proc_at k' i = F i (proc_at k4 i)).
  { intros i Hi. destruct (lookup_lt_is_Some_2 (k_procs k4) i ltac:(lia)) as [x Hx]. rewrite (proc_at_lookup k4 i x Hx).
    apply proc_at_lookup. unfold k'. cbn [k_procs set_k_procs]. by rewrite list_lookup_imap, Hx. }
  assert (Hpar : forall i, (i < nproc)%nat -> p_parent (proc_at k' i) = if decide (p_parent (proc_at k4 i) = Some p /\ i <> p) then k_init k else p_parent (proc_at k4 i)).
  { intros i Hi. rewrite Hat by done. apply parent_exited. done. }
  split_and!; [|done|exact Hat| |].
  - unfold exit, myproc. mrun. rewrite bool_decide_false by done. mstep H1. mstep H2. unfold getp. mrun.
    change (p_cwd (proc_at k2 (k_cur k)) = Some ip) in Hcwd. rewrite Hcwd. mstep H3. mstep H4. exact Ht.
  - intros i Hi. unfold child_of in Hi. destruct (decide (i < nproc)%nat) as [Hl|Hl].
    + rewrite Hpar in Hi by done. case_decide as E; [done|]. apply E. split; [done|]. by intros ->.
    + rewrite proc_at_ge in Hi; [done|]. unfold k'. cbn [k_procs set_k_procs]. rewrite length_imap. lia.
  - intros q Hq. split; [split|].
    + unfold child_of. rewrite Hpar, decide_False by (done || tauto). done.
    + rewrite Hat by done. unfold F, exited. by rewrite decide_True.
    + intros i Hi Hne [Hs Hc]. rewrite Hat in Hs, Hc by done. unfold F, exited in Hs, Hc. rewrite decide_False, Hq in Hs, Hc by done.
      cbn [wake_opt] in Hs, Hc. unfold wake1 in Hs, Hc. case_decide; [done|tauto].
Qed.

(** Process 2 of the example exits. *)
Definition kx_leaving : kstate mstore unit := upd 2 (fun x => set_p_state RUNNING (set_p_cwd (Some 0%nat) x)) (set_k_cur 2 kx).
Definition after {A} (m : M (kstate mstore unit) A) (k : kstate mstore unit) : kstate mstore unit :=
  match m k with Ok _ k' => k' | _ => k end.

Lemma exit_correct_witness : exists k', exit ex_kend 7 kx_leaving = Ok tt k' /\ zombie_of k' 0 2.
Proof.
  set (k2 := after begin_op kx_leaving). set (k3 := after (FS (iput 0)) k2). set (k4 := after end_op k3).
  pose proof (exit_correct ex_kend kx_leaving kx_leaving k2 k3 k4 7 0) as H. cbn zeta in H. rewrite decide_False in H by discriminate.
  destruct H as (k' & H & _ & _ & _ & Hz); [reflexivity|reflexivity|reflexivity|reflexivity|reflexivity|reflexivity|vm_compute; lia|reflexivity|reflexivity|discriminate|].
  exists k'. split; [exact H|]. apply Hz. reflexivity.
Defined.
