(* ===== verification/KernelInv.v ===== *)
(** * Well-formed kernel tables

    [kernel_ok]: the tables have their sizes, the indices and pointers in them
    are in range, the fields are within the ranges the code gives them, and the
    pipes' counters are at most [PIPESIZE] apart.  [Frame] is the interface
    between an invariant that implies [kernel_ok] and the routines that keep
    it. *)

From stdpp Require Import base list gmap strings.
From Stdlib Require Import ZArith Lia.
From S2P Require Import Prelude Hoare Mem Layout Kalloc Vm Sleeplock FsFormat Store Fs Kernel Sched File Proc ProcSpec Exec Arg Sysfile Sysproc PipeSpec.
Open Scope Z_scope.


Definition is_int (x : Z) : Prop := - 2 ^ 31 <= x < 2 ^ 31.
Definition is_bool (x : Z) : Prop := x = 0 \/ x = 1.
(** A pointer into a table of [n] entries, or null. *)
Definition below (n : nat) (o : option nat) : Prop := match o with Some i => (i < n)%nat | None => True end.

Record fields_ok (p : proc) : Prop := {
  fo_killed : is_bool (p_killed p);
  fo_xstate : is_int (p_xstate p);
  fo_pid : is_int (p_pid p);
  fo_parent : below nproc (p_parent p);
  fo_name : length (p_name p) = 16%nat;
  fo_priority : 0 <= p_priority p <= 10;
}.
Record ofile_ok (l : list (option nat)) : Prop := {
  oo_length : length l = Z.to_nat NOFILE;
  oo_files : Forall (below nfile) l;
}.
Definition proc_ok (p : proc) : Prop := fields_ok p /\ ofile_ok (p_ofile p).
Record file_ok (f : file) : Prop := {
  fi_ref : 0 <= f_ref f;
  fi_readable : is_bool (f_readable f);
  fi_writable : is_bool (f_writable f);
  fi_off : 0 <= f_off f < 2 ^ 32;
}.

(** The entries of zeroed tables. *)
Lemma proc_ok_0 : proc_ok proc0.
Proof. split; split; try done; try (cbn; unfold is_bool, is_int; lia). apply Forall_replicate. done. Qed.
Lemma file_ok_0 : file_ok file0.
Proof. split; try done; try (cbn; unfold is_bool; lia). Qed.

Lemma alter_ge {A} (f : A -> A) (l : list A) i : (length l <= i)%nat -> alter f i l = l.
Proof.
  intros Hi. apply list_eq. intros j. rewrite list_lookup_alter. case_decide as E; [subst j|done].
  by rewrite lookup_ge_None_2.
Qed.

Section Inv.
Context {S Dv : Type}.
Local Abbreviation K := (kstate S Dv).
Implicit Types (k : K).

Record kernel_ok k : Prop := {
  ko_nproc : length (k_procs k) = nproc;
  ko_nfile : length (k_ftable k) = nfile;
  ko_procs : Forall proc_ok (k_procs k);
  ko_files : Forall file_ok (k_ftable k);
  ko_pipes : map_Forall (fun _ => pipe_ok) (k_pipes k);
  ko_cur : (k_cur k < nproc)%nat;
  ko_init : below nproc (k_init k);
  ko_nextpid : is_int (k_nextpid k);
  ko_ticks : 0 <= k_ticks k < 2 ^ 32;
}.

(** States in which a process holds no files. *)
Definition dead (st : procstate) : Prop := st = UNUSED \/ st = USED \/ st = ZOMBIE.
(** An update of a process that leaves its files and its state alone. *)
Definition calm (g : proc -> proc) : Prop :=
  forall x, p_ofile (g x) = p_ofile x /\ p_state (g x) = p_state x /\ (fields_ok x -> fields_ok (g x)).
(** An update of an open file that leaves its reference count alone. *)
Definition calm_file (g : file -> file) : Prop := forall x, f_ref (g x) = f_ref x /\ (file_ok x -> file_ok (g x)).

(** [set_ftable f g k]: file [f] changed. *)
Definition updf (f : nat) (g : file -> file) k : K := set_k_ftable (alter g f (k_ftable k)) k.
Definition updpipe (pi : Z) (p : pipe) k : K := set_k_pipes (<[pi := p]> (k_pipes k)) k.

(** Invariants of the tables that do not depend on memory, on the file system
    or on the devices, nor on what a calm update changes. *)
Class Frame (P : K -> Prop) : Prop := {
  frame_ok k : P k -> kernel_ok k;
  frame_mem v k : P k -> P (set_k_mem v k);
  frame_fs v k : P k -> P (set_k_fs v k);
  frame_dev v k : P k -> P (set_k_dev v k);
  frame_calm i g k : calm g -> P k -> P (upd i g k);
  frame_nextpid v k : is_int v -> P k -> P (set_k_nextpid v k);
}.
(** ... nor on the states of the processes, except that a process that leaves
    the dead states may have files, nor on the pipes and the other fields of
    the open files. *)
Class Tables (P : K -> Prop) : Prop := {
  tables_frame :: Frame P;
  tables_live i st k : ~ dead st -> P k -> P (upd i (set_p_state st) k);
  tables_dead i st k : dead st -> dead (p_state (proc_at k i)) -> P k -> P (upd i (set_p_state st) k);
  tables_file f g k : calm_file g -> P k -> P (updf f g k);
  tables_pipe pi p k : pipe_ok p -> P k -> P (updpipe pi p k);
  tables_nopipe pi k : P k -> P (set_k_pipes (delete pi (k_pipes k)) k);
}.

(** ** [kernel_ok] itself *)

Lemma proc_ok_at k i : kernel_ok k -> proc_ok (proc_at k i).
Proof.
  intros Hk. unfold proc_at. destruct (decide (i < length (k_procs k))%nat) as [Hi|Hi].
  - apply Forall_nth; [|done]. apply Hk.
  - rewrite nth_overflow by lia. apply proc_ok_0.
Qed.
Lemma file_ok_at k f : kernel_ok k -> file_ok (file_at k f).
Proof.
  intros Hk. unfold file_at. destruct (decide (f < length (k_ftable k))%nat) as [Hf|Hf].
  - apply Forall_nth; [|done]. apply Hk.
  - rewrite nth_overflow by lia. apply file_ok_0.
Qed.
Lemma pipe_ok_at k pi : kernel_ok k -> pipe_ok (pipe_at k pi).
Proof.
  intros Hk. unfold pipe_at. destruct (k_pipes k !! pi) as [p|] eqn:E; cbn.
  - by eapply (ko_pipes k Hk).
  - split; [apply length_replicate|cbn; lia..|by vm_compute].
Qed.
Lemma ofile_at k i fd : kernel_ok k -> below nfile (nth fd (p_ofile (proc_at k i)) None).
Proof.
  intros Hk. destruct (proc_ok_at k i Hk) as [_ [Hl Hf]].
  destruct (decide (fd < length (p_ofile (proc_at k i)))%nat); [by apply Forall_nth|by rewrite nth_overflow by lia].
Qed.

(** A changed process that is still well formed. *)
Lemma kernel_ok_upd i g k : (forall x, proc_ok x -> proc_ok (g x)) -> kernel_ok k -> kernel_ok (upd i g k).
Proof.
  intros Hg [Hn Hf Hp Hfi Hpi Hc Hi Hnp Ht]. split; try done; cbn.
  - by rewrite length_alter.
  - apply Forall_alter; [done|]. intros x Hx _. apply Hg. by eapply Forall_lookup_1.
Qed.
Lemma kernel_ok_updf f g k : (forall x, file_ok x -> file_ok (g x)) -> kernel_ok k -> kernel_ok (updf f g k).
Proof.
  intros Hg [Hn Hf Hp Hfi Hpi Hc Hi Hnp Ht]. split; try done; cbn.
  - by rewrite length_alter.
  - apply Forall_alter; [done|]. intros x Hx _. apply Hg. by eapply Forall_lookup_1.
Qed.
Lemma kernel_ok_state i st k : kernel_ok k -> kernel_ok (upd i (set_p_state st) k).
Proof. apply kernel_ok_upd. intros x [[] ?]. split; [by split|done]. Qed.
Lemma kernel_ok_calm i g k : calm g -> kernel_ok k -> kernel_ok (upd i g k).
Proof. intros Hg. apply kernel_ok_upd. intros x [Hx Ho]. destruct (Hg x) as (E & _ & H). split; [auto|by rewrite E]. Qed.

#[export] Instance kernel_ok_frame : Frame kernel_ok.
Proof. split; [done|by intros v k []..|apply kernel_ok_calm|by intros v k Hv []]. Qed.
#[export] Instance kernel_ok_tables : Tables kernel_ok.
Proof.
  split; [apply _|intros i st k _; apply kernel_ok_state|intros i st k _ _; apply kernel_ok_state|..].
  - intros f g k Hg. apply kernel_ok_updf. intros x. by apply Hg.
  - intros pi p k Hp []. split; try done. cbn. by apply map_Forall_insert_2.
  - intros pi k []. split; try done. cbn. by apply map_Forall_delete.
Qed.

(** An invariant restricted to states in which something holds that the frame
    leaves alone. *)
Lemma frame_and (P X : K -> Prop) : Frame P -> (forall v k, X k -> X (set_k_mem v k)) -> (forall v k, X k -> X (set_k_fs v k)) ->
  (forall v k, X k -> X (set_k_dev v k)) -> (forall i g k, calm g -> P k -> X k -> X (upd i g k)) -> (forall v k, X k -> X (set_k_nextpid v k)) ->
  Frame (fun k => P k /\ X k).
Proof.
  intros HP Hm Hf Hd Hc Hn. split; intros *.
  - intros [H _]. by apply frame_ok.
  - intros [H HX]. split; [by apply frame_mem|auto].
  - intros [H HX]. split; [by apply frame_fs|auto].
  - intros [H HX]. split; [by apply frame_dev|auto].
  - intros Hg [H HX]. split; [by apply frame_calm|by apply Hc].
  - intros Hg [H HX]. split; [by apply frame_nextpid|auto].
Qed.
End Inv.

(** ** The routines that keep an invariant of the tables

    For every invariant [P] with the interface [Tables]: the routines of
    [proc.c], [pipe.c], [file.c], [exec.c], [sysfile.c], [sysproc.c] and
    [console.c] that neither open nor close files keep [P], and whenever they
    go to sleep they leave a state of [P]. *)


Lemma s32_int x : is_int (s32 x).
Proof. unfold is_int, s32. pose proof (Z.mod_pos_bound (x + 2 ^ 31) (2 ^ 32)). lia. Qed.
#[export] Hint Resolve s32_int : keeps.

#[export] Hint Extern 0 (Frame _) => apply _ : keeps.
#[export] Hint Extern 0 (Tables _) => apply _ : keeps.

(** [calm_tac] checks that an update only sets fields within their ranges. *)
Lemma length_safestrcpy n : forall s t, (n <= length s)%nat -> length (safestrcpy_bytes s t n) = length s.
Proof.
  induction n as [|[|n] IH]; intros s t Hn; [done|destruct s; cbn in *; lia|].
  destruct s as [|a [|b s]]; cbn [length] in Hn; [lia|lia|].
  transitivity (length (if hd 0 t =? 0 then 0 :: 0 :: s else hd 0 t :: safestrcpy_bytes (b :: s) (tl t) (Datatypes.S n))); [reflexivity|].
  destruct (hd 0 t =? 0); [done|]. cbn [length]. f_equal. rewrite IH; cbn [length]; lia.
Qed.
Lemma b2z_bool b : is_bool (b2z b).
Proof. destruct b; [by right|by left]. Qed.
Ltac field_tac :=
  first [ assumption | unfold is_int, is_bool; lia
        | rewrite ?length_insert; assumption | rewrite length_safestrcpy; lia | apply b2z_bool ].
Ltac calm_tac := intros ?x; split; [reflexivity|split; [reflexivity|intros []; split; cbn -[safestrcpy_bytes]; field_tac]].
#[export] Hint Extern 2 (calm _) => solve [calm_tac] : keeps.
Ltac calm_file_tac := intros ?x; split; [reflexivity|intros []; split; cbn; first [field_tac|apply u32_range]].
#[export] Hint Extern 2 (calm_file _) => solve [calm_file_tac] : keeps.
#[export] Hint Extern 2 (~ dead _) => solve [intros [?|[?|?]]; discriminate] : keeps.
#[export] Hint Extern 2 (dead _) => solve [unfold dead; auto] : keeps.
#[export] Hint Extern 2 (is_int (-1)) => solve [unfold is_int; lia] : keeps.

Section Frame.
Context {S Dv : Type}.
Local Abbreviation K := (kstate S Dv).
Context (P B : K -> Prop) `{!Frame P, !Weaker P B}.

Lemma keeps_Mem {A} (m : M kmem A) : keeps P B (Mem m) (fun _ => True).
Proof. apply keeps_zoom; [done|]. intros v s. apply frame_mem. Qed.
Lemma keeps_FS {A} (m : M (fstate (S := S)) A) : keeps P B (FS m) (fun _ => True).
Proof. apply keeps_zoom; [done|]. intros v s. apply frame_fs. Qed.
Lemma keeps_FSMem {A} (m : M (fstate (S := S) * kmem) A) : keeps P B (FSMem m) (fun _ => True).
Proof. apply keeps_zoom; [done|]. intros v s Hs. by apply frame_mem, frame_fs. Qed.
Lemma keeps_tf_get tf off : keeps P B (tf_get tf off) (fun _ => True).
Proof. apply keeps_Mem. Qed.
Lemma keeps_tf_set tf off v : keeps P B (tf_set tf off v) (fun _ => True).
Proof. apply keeps_Mem. Qed.
Lemma keeps_calm i g : calm g -> keeps P B (setp i g) (fun _ => True).
Proof. intros Hg. apply keeps_modify. intros s. by apply frame_calm. Qed.
Lemma keeps_getp {A} i (g : proc -> A) : keeps P B (getp i g) (fun a => exists k, P k /\ a = g (proc_at k i)).
Proof. apply keeps_get. Qed.
Lemma keeps_my {A} (g : proc -> A) : keeps P B (my g) (fun a => exists k, P k /\ a = g (proc_at k (k_cur k))).
Proof. apply keeps_get. Qed.
Lemma keeps_getf {A} f (g : file -> A) : keeps P B (getf f g) (fun a => exists k, P k /\ a = g (file_at k f)).
Proof. apply keeps_get. Qed.
Lemma keeps_getpipe {A} pi (g : pipe -> A) : keeps P B (getpipe pi g) (fun a => exists k, P k /\ a = g (pipe_at k pi)).
Proof. apply keeps_get. Qed.
Lemma keeps_myproc : keeps P B myproc (fun i => (i < nproc)%nat).
Proof. intros k Hk. split; [done|]. cbn. by apply ko_cur, frame_ok. Qed.
Lemma keeps_init : keeps P B (getM k_init) (below nproc).
Proof. intros k Hk. split; [done|]. cbn. by apply ko_init, frame_ok. Qed.
Lemma keeps_allocpid : keeps P B allocpid is_int.
Proof.
  intros k Hk. cbn. split; [|by apply ko_nextpid, frame_ok]. apply frame_nextpid; [apply s32_int|done].
Qed.
End Frame.
#[export] Hint Resolve keeps_Mem keeps_FS keeps_FSMem keeps_tf_get keeps_tf_set keeps_calm keeps_getp keeps_my keeps_getf keeps_getpipe keeps_myproc keeps_init keeps_allocpid : keeps.

(** A dead process stays dead. *)
#[export] Instance frame_deadp {S Dv} (P : kstate S Dv -> Prop) i : Frame P -> Frame (fun k => P k /\ dead (p_state (proc_at k i))).
Proof.
  intros HP. apply frame_and; try done. intros j g k Hg Hk Hd.
  destruct (decide (j < length (k_procs k))%nat) as [Hj|Hj].
  - rewrite proc_at_upd by done. destruct (decide (i = j)) as [->|]; [|done]. destruct (Hg (proc_at k j)) as (_ & -> & _). done.
  - unfold upd, proc_at. cbn. by rewrite alter_ge by lia.
Qed.
(** A pipe that is not full stays so. *)
#[export] Instance frame_room {S Dv} (P : kstate S Dv -> Prop) pi : Frame P -> Frame (fun k => P k /\ plen (pipe_at k pi) < PIPESIZE).
Proof. intros HP. by apply frame_and. Qed.

(** ** kernel/proc.c *)

Section Procs.
Context {S Dv : Type} `{!TxOps S} `{!OpOps S}.
Local Abbreviation K := (kstate S Dv).
Context (P B : K -> Prop) `{!Tables P, !Weaker P B}.

Lemma keeps_live i st : ~ dead st -> keeps P B (setp i (set_p_state st)) (fun _ => True).
Proof. intros Hst. apply keeps_modify. intros k. by apply tables_live. Qed.
Lemma keeps_setf f g : calm_file g -> keeps P B (setf f g) (fun _ => True).
Proof. intros Hg. apply keeps_modify. intros k. by apply tables_file. Qed.
#[local] Hint Resolve keeps_live keeps_setf : keeps.
Lemma keeps_sleep c : keeps P B (sleep c) (fun _ => True).
Proof. unfold sleep. krun. Qed.
Lemma keeps_wakeup c : keeps P B (wakeup c) (fun _ => True).
Proof. apply keeps_for_each. intros i _. krun. Qed.
#[local] Hint Resolve keeps_sleep keeps_wakeup : keeps.
Lemma keeps_yield : keeps P B yield (fun _ => True).
Proof. unfold yield. krun. Qed.
Lemma keeps_kill pid : keeps P B (kill pid) (fun _ => True).
Proof. unfold kill. generalize (seq 0 nproc). intros idx. induction idx as [|i idx IH]; cbn [kill_loop]; krun. Qed.
Lemma keeps_reparent p : keeps P B (reparent p) (fun _ => True).
Proof. apply keeps_for_each. intros i _. krun. Qed.
Lemma keeps_awake {L A} (m : M K (progress L A)) : keeps P B m (fun _ => True) -> keeps P B (awake m) (fun _ => True).
Proof. intros Hm. unfold awake. eapply keeps_bind; [exact Hm|]. intros [l|a] _; krun. Qed.

(** A process that holds no files. *)
Definition idle (i : nat) (k : K) : Prop := P k /\ dead (p_state (proc_at k i)).
Lemma keeps_dead i st : dead st -> keeps (fun k => P k /\ dead (p_state (proc_at k i))) B (setp i (set_p_state st)) (fun _ => True).
Proof.
  intros Hst. apply keeps_modify. intros k [Hk Hd]. split; [by apply tables_dead|].
  fold (upd i (set_p_state st) k). destruct (decide (i < length (k_procs k))%nat).
  - by rewrite proc_at_upd_eq.
  - unfold upd, proc_at. cbn. by rewrite alter_ge by lia.
Qed.
#[local] Hint Resolve keeps_dead : keeps.
Lemma keeps_freeproc kend i : keeps (fun k => P k /\ dead (p_state (proc_at k i))) B (freeproc kend i) (fun _ => True).
Proof. unfold freeproc. krun. Qed.
#[local] Hint Resolve keeps_freeproc : keeps.

Definition fresh_proc (o : option nat) (k : K) : Prop :=
  match o with Some i => (i < nproc)%nat /\ dead (p_state (proc_at k i)) | None => True end.

(** The process [allocproc] returns holds no files. *)
Lemma triple_allocproc kend trampoline forkret : triple P (allocproc kend trampoline forkret) (fun o k => P k /\ fresh_proc o k) B.
Proof.
  unfold allocproc. eapply triple_bind with (Q := fun o k => P k /\ fresh_proc o k).
  { intros k Hk. rewrite find_unused_ok. split; [done|]. fold (first_unused k).
    destruct (first_unused k) as [i|] eqn:E; [|done]. apply first_unused_Some in E as (Hi & Hs & _). split; [done|by left]. }
  intros [i|]; [|by intros k Hk]. cbn [fresh_proc].
  eapply triple_conseq with (P := fun k => (P k /\ dead (p_state (proc_at k i))) /\ (i < nproc)%nat); [|tauto|by intros ? ? H; apply H].
  apply triple_pure. intros Hi. krun; intros k [Hk Hd]; by split.
Qed.

Lemma keeps_growproc kend n : keeps P B (growproc kend n) (fun _ => True).
Proof. unfold growproc. krun. Qed.

Lemma keeps_wait_scan kend idx p addr b : keeps P B (wait_scan kend idx p addr b) (fun _ => True).
Proof.
  revert b. induction idx as [|i idx IH]; intros b; cbn [wait_scan]; [krun|].
  apply triple_get. intros np. assert (Hsub : forall b', triple (fun k => P k /\ np = id (proc_at k i)) (wait_scan kend idx p addr b') (fun _ k => P k /\ True) B).
  { intros b'. eapply triple_conseq; [apply (IH b')|by intros k [Hk _]|done]. }
  destruct (bool_decide (p_parent np = Some p)); [|apply Hsub].
  destruct (bool_decide_reflect (p_state np = ZOMBIE)) as [Hz|]; [|apply Hsub].
  eapply triple_keeps with (P := fun k => P k /\ dead (p_state (proc_at k i))) (F := fun _ => True).
  - krun.
  - intros k [Hk ->]. split; [done|by right; right].
  - by intros a k [Hk _].
Qed.
Lemma keeps_wait kend addr : keeps P B (wait kend addr) (fun _ => True).
Proof. unfold wait. pose proof (fun p => keeps_wait_scan kend (seq 0 nproc) p addr false). krun. Qed.
End Procs.
#[export] Hint Resolve keeps_live keeps_setf keeps_sleep keeps_wakeup keeps_yield keeps_kill keeps_reparent keeps_awake keeps_dead keeps_freeproc keeps_growproc keeps_wait : keeps.

(** ** kernel/pipe.c and kernel/file.c *)

(** The functions behind [devsw] keep such invariants. *)
Definition devs_keep {S Dv} (dev : Z -> option (Z -> Z -> M (kstate S Dv) Z)) : Prop :=
  forall (P B : kstate S Dv -> Prop), Tables P -> Weaker P B ->
  forall major f addr n, dev major = Some f -> keeps P B (f addr n) (fun _ => True).

Section Files.
Context {S Dv : Type} `{!TxOps S} `{!OpOps S}.
Local Abbreviation K := (kstate S Dv).
Context (P B : K -> Prop) `{!Tables P, !Weaker P B}.
Context (kend : Z) (devread devwrite : Z -> option (Z -> Z -> M K Z)) (pad : list Z).

Lemma keeps_begin_op : keeps P B begin_op (fun _ => True).
Proof. unfold begin_op. krun. Qed.
Lemma keeps_end_op : keeps P B end_op (fun _ => True).
Proof. unfold end_op. krun. Qed.
#[local] Hint Resolve keeps_begin_op keeps_end_op : keeps.

(** A pipe's buffer may only be changed into a well-formed one. *)
Lemma table_pipe_ok k pi : P k -> pipe_ok (pipe_at k pi).
Proof. intros Hk. exact (pipe_ok_at k pi (frame_ok (P := P) k Hk)). Qed.
Lemma keeps_setpipe pi g : (forall p, pipe_ok p -> pipe_ok (g p)) -> keeps P B (setpipe pi g) (fun _ => True).
Proof. intros Hg. apply keeps_modify. intros k Hk. apply (tables_pipe pi); [|done]. apply Hg. by apply table_pipe_ok. Qed.
Lemma triple_push pi ch : triple (fun k => P k /\ plen (pipe_at k pi) < PIPESIZE) (setpipe pi (push ch)) (fun _ k => P k) B.
Proof. intros k [Hk Hr]. cbn. apply (tables_pipe pi); [|done]. apply push_ok; [|done]. by apply table_pipe_ok. Qed.
Lemma triple_pop pi : triple (fun k => P k /\ 0 < plen (pipe_at k pi)) (setpipe pi pop) (fun _ k => P k) B.
Proof. intros k [Hk Hr]. cbn. apply (tables_pipe pi); [|done]. apply pop_ok; [|done]. by apply table_pipe_ok. Qed.

Lemma keeps_pipewrite pi addr n i : keeps P B (pipewrite pi addr n i) (fun _ => True).
Proof.
  unfold pipewrite. generalize (Z.to_nat (n - i) + 1)%nat. intros fuel. revert i.
  induction fuel as [|fuel IH]; intros i; cbn [pipewrite_loop]; [krun|]. kstep; [|krun].
  apply triple_get. intros p. eapply triple_then; [apply keeps_my|]. intros killed _.
  kstep; [by intros k [Hk _]|]. kstep.
  - eapply triple_keeps with (P := P) (F := fun _ => True); [krun|by intros k [Hk _]|done].
  - eapply triple_conseq with (P := fun k => P k /\ plen (pipe_at k pi) < PIPESIZE); [|intros k [Hk Hp]|intros a k H; exact H].
    + eapply triple_then; [apply keeps_my|]. intros pt _. eapply triple_seq; [apply keeps_Mem; apply _|]. intros [r bs].
      kstep; [eapply triple_keeps with (P := P) (F := fun _ => True); [krun|by intros k [Hk _]|done]|].
      eapply triple_bind; [apply (triple_push pi (hd 0 bs))|]. intros []. apply (IH (i + 1)).
    + split; [done|]. pose proof (table_pipe_ok k pi Hk) as Hok. rewrite Hp in Heqb1. change (id ?x) with x in Heqb1.
      rewrite full_iff in Heqb1 by done. pose proof (po_len _ Hok). lia.
Qed.
Lemma keeps_piperead_loop pi addr n i fuel : keeps P B (piperead_loop pi addr n i fuel) (fun _ => True).
Proof.
  revert i. induction fuel as [|fuel IH]; intros i; cbn [piperead_loop]; [krun|]. kstep; [|krun].
  apply triple_get. intros p. kstep; [by intros k [Hk _]|].
  eapply triple_bind with (Q := fun _ => P); [|intros []; eapply triple_keeps with (P := P) (F := fun _ => True); [krun|done|done]].
  eapply triple_conseq; [apply (triple_pop pi)|intros k [Hk Hp]|done]. split; [done|].
  pose proof (table_pipe_ok k pi Hk) as Hok. rewrite Hp in Heqb0. change (id ?x) with x in Heqb0.
  rewrite empty_iff in Heqb0 by done. pose proof (plen_range (pipe_at k pi)). lia.
Qed.
Lemma keeps_piperead pi addr n : keeps P B (piperead pi addr n) (fun _ => True).
Proof. unfold piperead. pose proof keeps_piperead_loop. krun. Qed.
#[local] Hint Resolve keeps_pipewrite keeps_piperead : keeps.

Lemma keeps_pipeclose pi b : keeps P B (pipeclose kend pi b) (fun _ => True).
Proof.
  unfold pipeclose. krun; try (apply keeps_setpipe; intros q []; by split).
  apply keeps_modify. intros k. apply tables_nopipe.
Qed.
Lemma keeps_either_copyout u dst src : keeps P B (either_copyout u dst src) (fun _ => True).
Proof. unfold either_copyout. krun. Qed.
Lemma keeps_either_copyin u src len : keeps P B (either_copyin u src len) (fun _ => True).
Proof. unfold either_copyin. krun. Qed.
Lemma keeps_filestat f addr : keeps P B (filestat pad f addr) (fun _ => True).
Proof. unfold filestat. krun. Qed.
Lemma keeps_fileread f addr n : devs_keep devread -> keeps P B (fileread devread f addr n) (fun _ => True).
Proof. intros Hdev. unfold fileread. krun; try (by eapply Hdev); apply keeps_awake; auto with keeps. Qed.
Lemma keeps_filewrite_loop f addr n i fuel : keeps P B (filewrite_loop f addr n i fuel) (fun _ => True).
Proof. revert i. induction fuel as [|fuel IH]; intros i; cbn [filewrite_loop]; krun. Qed.
Lemma keeps_filewrite f addr n : devs_keep devwrite -> keeps P B (filewrite devwrite f addr n) (fun _ => True).
Proof.
  intros Hdev. unfold filewrite. pose proof (fun f addr n i fuel => keeps_filewrite_loop f addr n i fuel).
  krun; try (by eapply Hdev); apply keeps_awake; auto with keeps.
Qed.
End Files.
#[export] Hint Resolve keeps_begin_op keeps_end_op keeps_setpipe keeps_pipewrite keeps_piperead keeps_pipeclose keeps_either_copyout keeps_either_copyin keeps_filestat keeps_fileread keeps_filewrite : keeps.
