(* ===== verification/SyscallKeeps.v ===== *)
(** * The system calls that keep an invariant of the tables

    For every invariant [P] with the interface [Tables]: [exec], the argument
    routines, the console, and the system calls that neither open nor close
    files. *)

From stdpp Require Import base list gmap strings.
From Stdlib Require Import ZArith Lia.
From S2P Require Import Prelude Hoare Mem Layout Kalloc Vm Sleeplock FsFormat Store Fs Kernel Sched File Proc ProcSpec.
From S2P Require Import Exec Arg Sysfile Sysproc Console PipeSpec KernelInv.
Open Scope Z_scope.

Section Calls.
Context {S Dv : Type} `{!TxOps S} `{!OpOps S}.
Local Abbreviation K := (kstate S Dv).
Context (P B : K -> Prop) `{!Tables P, !Weaker P B}.
Context (kend trampoline : Z) (devread devwrite : Z -> option (Z -> Z -> M K Z)) (pad stack_name : list Z).

(** ** kernel/exec.c *)

Lemma keeps_read_local ip off n : keeps P B (read_local ip off n) (fun _ => True).
Proof. unfold read_local. krun. Qed.
Lemma keeps_loadseg pt va ip off sz : keeps P B (loadseg pt va ip off sz) (fun _ => True).
Proof.
  unfold loadseg. generalize 0 at 1, (Z.to_nat (sz / PGSIZE) + 2)%nat. intros i fuel. revert i.
  induction fuel as [|fuel IH]; intros i; cbn [loadseg_loop]; krun.
Qed.
#[local] Hint Resolve keeps_read_local keeps_loadseg : keeps.
Lemma keeps_load_loop pt ip phnum i off sz fuel : keeps P B (load_loop kend pt ip phnum i off sz fuel) (fun _ => True).
Proof. revert i off sz. induction fuel as [|fuel IH]; intros i off sz; cbn [load_loop]; krun. Qed.
Lemma keeps_push_args pt base argv argc sp ustack fuel : keeps P B (push_args pt base argv argc sp ustack fuel) (fun _ => True).
Proof. revert argc sp ustack. induction fuel as [|fuel IH]; intros argc sp ustack; cbn [push_args]; krun. Qed.
Lemma keeps_exec_bad pt sz ip : keeps P B (exec_bad kend pt sz ip) (fun _ => True).
Proof. unfold exec_bad. krun. Qed.
#[local] Hint Resolve keeps_load_loop keeps_push_args keeps_exec_bad : keeps.
Lemma keeps_exec_commit path argv pt sz entry : keeps P B (exec_commit kend path argv pt sz entry) (fun _ => True).
Proof. unfold exec_commit. krun. Qed.
#[local] Hint Resolve keeps_exec_commit : keeps.
Lemma keeps_exec path argv : keeps P B (exec kend trampoline path argv) (fun _ => True).
Proof. unfold exec. krun. Qed.
#[local] Hint Resolve keeps_exec : keeps.

(** ** kernel/syscall.c *)

Lemma keeps_fetchaddr addr : keeps P B (fetchaddr addr) (fun _ => True).
Proof. unfold fetchaddr. krun. Qed.
Lemma keeps_fetchstr addr max : keeps P B (fetchstr addr max) (fun _ => True).
Proof. unfold fetchstr. krun. Qed.
Lemma keeps_argraw n : keeps P B (argraw n) (fun _ => True).
Proof. unfold argraw. krun. Qed.
#[local] Hint Resolve keeps_fetchaddr keeps_fetchstr keeps_argraw : keeps.
Lemma keeps_argint n : keeps P B (argint n) is_int.
Proof. unfold argint. krun. apply s32_int. Qed.
Lemma keeps_argaddr n : keeps P B (argaddr n) (fun _ => True).
Proof. unfold argaddr. krun. Qed.
#[local] Hint Resolve keeps_argint keeps_argaddr : keeps.
Lemma keeps_argstr n max : keeps P B (argstr n max) (fun _ => True).
Proof. unfold argstr. krun. Qed.
#[local] Hint Resolve keeps_argstr : keeps.

(** ** kernel/sysfile.c *)

(** A descriptor is below [NOFILE] and its file is in the table. *)
Definition fd_ok (a : option (Z * nat)) : Prop :=
  match a with Some (fd, f) => 0 <= fd < NOFILE /\ (f < nfile)%nat | None => True end.
Lemma keeps_argfd n : keeps P B (argfd n) fd_ok.
Proof.
  unfold argfd. krun. destruct H0 as (k & Hk & Ha). destruct a0 as [f|]; [|done].
  split; [apply orb_false_iff in Heqb as [? ?]; lia|].
  pose proof (ofile_at k (k_cur k) (Z.to_nat a) (frame_ok (P := P) k Hk)) as Hb. by rewrite <- Ha in Hb.
Qed.
Lemma keeps_cwd : keeps P B cwd (fun _ => True).
Proof. unfold cwd. krun. Qed.
#[local] Hint Resolve keeps_argfd keeps_cwd : keeps.
Lemma keeps_sys_read : devs_keep devread -> keeps P B (sys_read devread) (fun _ => True).
Proof. intros Hdev. unfold sys_read. krun. Qed.
Lemma keeps_sys_write : devs_keep devwrite -> keeps P B (sys_write devwrite) (fun _ => True).
Proof. intros Hdev. unfold sys_write. krun. Qed.
Lemma keeps_sys_fstat : keeps P B (sys_fstat pad) (fun _ => True).
Proof. unfold sys_fstat. krun. Qed.
Lemma keeps_sys_link : keeps P B sys_link (fun _ => True).
Proof. unfold sys_link. krun. Qed.
Lemma keeps_sys_unlink : keeps P B sys_unlink (fun _ => True).
Proof. unfold sys_unlink. krun. Qed.
Lemma keeps_open_inode path omode : keeps P B (open_inode path omode) (fun _ => True).
Proof. unfold open_inode. krun. Qed.
Lemma keeps_make_node path type major minor : keeps P B (make_node path type major minor) (fun _ => True).
Proof. unfold make_node. krun. Qed.
#[local] Hint Resolve keeps_make_node : keeps.
Lemma keeps_sys_mkdir : keeps P B sys_mkdir (fun _ => True).
Proof. unfold sys_mkdir. krun. Qed.
Lemma keeps_sys_mknod : keeps P B sys_mknod (fun _ => True).
Proof. unfold sys_mknod. krun. Qed.
Lemma keeps_sys_chdir : keeps P B sys_chdir (fun _ => True).
Proof. unfold sys_chdir. krun. Qed.
Lemma keeps_free_argv argv : keeps P B (free_argv kend argv) (fun _ => True).
Proof. apply keeps_for_each. intros a _. krun. Qed.
Lemma keeps_fetch_argv uargv i argv fuel : keeps P B (fetch_argv uargv i argv fuel) (fun _ => True).
Proof. revert i argv. induction fuel as [|fuel IH]; intros i argv; cbn [fetch_argv]; krun. Qed.
#[local] Hint Resolve keeps_free_argv keeps_fetch_argv : keeps.
Lemma keeps_sys_exec : keeps P B (sys_exec kend trampoline) (fun _ => True).
Proof. unfold sys_exec. krun. Qed.

(** ** kernel/sysproc.c *)

Lemma keeps_sys_wait : keeps P B (sys_wait kend) (fun _ => True).
Proof. unfold sys_wait. krun. Qed.
Lemma keeps_sys_sbrk : keeps P B (sys_sbrk kend) (fun _ => True).
Proof. unfold sys_sbrk. krun. Qed.
Lemma keeps_sys_sleep : keeps P B sys_sleep (fun _ => True).
Proof. unfold sys_sleep. krun. apply keeps_awake; [done|]. unfold sleep_until. krun. Qed.
Lemma keeps_sys_kill : keeps P B sys_kill (fun _ => True).
Proof. unfold sys_kill. krun. Qed.
Lemma keeps_sys_getpid : keeps P B sys_getpid (fun _ => True).
Proof. unfold sys_getpid. krun. Qed.
Lemma keeps_sys_uptime : keeps P B sys_uptime (fun _ => True).
Proof. unfold sys_uptime. krun. Qed.
Lemma keeps_sys_getprocinfo : keeps P B (sys_getprocinfo stack_name) (fun _ => True).
Proof. unfold sys_getprocinfo. krun. Qed.
Lemma keeps_sys_getsystime : keeps P B sys_getsystime (fun _ => True).
Proof. unfold sys_getsystime. krun. Qed.
Lemma keeps_sys_setpriority : keeps P B sys_setpriority (fun _ => True).
Proof.
  unfold sys_setpriority. generalize (seq 0 nproc). intros idx. krun. apply orb_false_iff in Heqb as [? ?].
  assert (0 <= a0 <= 10) by lia. induction idx as [|i idx IH]; cbn [setpriority_loop]; krun.
Qed.
End Calls.
#[export] Hint Resolve keeps_exec keeps_argraw keeps_argint keeps_argaddr keeps_argstr keeps_argfd keeps_cwd keeps_open_inode : keeps.
#[export] Hint Resolve keeps_sys_read keeps_sys_write keeps_sys_fstat keeps_sys_link keeps_sys_unlink keeps_sys_mkdir keeps_sys_mknod : keeps.
#[export] Hint Resolve keeps_sys_chdir keeps_sys_exec keeps_sys_wait keeps_sys_sbrk keeps_sys_sleep keeps_sys_kill keeps_sys_getpid : keeps.
#[export] Hint Resolve keeps_sys_uptime keeps_sys_getprocinfo keeps_sys_getsystime keeps_sys_setpriority : keeps.

(** ** kernel/console.c and kernel/uart.c *)

Section Console.
Context {S H : Type} `{!TxOps S} `{!OpOps S} `{!UartDev H}.
Local Abbreviation K := (kstate S (condev (H := H))).
Context (P B : K -> Prop) `{!Tables P, !Weaker P B}.

Lemma keeps_setd g : keeps P B (setd g) (fun _ => True).
Proof. apply keeps_modify. intros k. apply frame_dev. Qed.
Lemma keeps_getd {A} (g : condev -> A) : keeps P B (getd g) (fun _ => True).
Proof. by intros k Hk. Qed.
Lemma keeps_getc {A} (g : cons -> A) : keeps P B (getc g) (fun _ => True).
Proof. by intros k Hk. Qed.
Lemma keeps_setc g : keeps P B (setc g) (fun _ => True).
Proof. apply keeps_setd. Qed.
Lemma keeps_WriteTHR c : keeps P B (WriteTHR c) (fun _ => True).
Proof. apply keeps_setd. Qed.
#[local] Hint Resolve keeps_setd keeps_getd keeps_getc keeps_setc keeps_WriteTHR : keeps.
Lemma keeps_uartstart : keeps P B uartstart (fun _ => True).
Proof.
  unfold uartstart. krun. generalize (Z.to_nat (u64 (tx_w a - tx_r a)) + 1)%nat. intros fuel.
  induction fuel as [|fuel IH]; cbn [uartstart_loop]; krun.
Qed.
#[local] Hint Resolve keeps_uartstart : keeps.
Lemma keeps_uartputc c : keeps P B (uartputc c) (fun _ => True).
Proof. unfold uartputc. krun. Qed.
Lemma keeps_uartputc_sync c : keeps P B (uartputc_sync c) (fun _ => True).
Proof. unfold uartputc_sync. krun. Qed.
#[local] Hint Resolve keeps_uartputc keeps_uartputc_sync : keeps.
Lemma keeps_consolewrite u src n i : keeps P B (consolewrite u src n i) (fun _ => True).
Proof.
  unfold consolewrite. generalize (Z.to_nat (n - i) + 1)%nat. intros fuel. revert i.
  induction fuel as [|fuel IH]; intros i; cbn [consolewrite_loop]; krun.
Qed.
Lemma keeps_consoleread u dst n target : keeps P B (consoleread u dst n target) (fun _ => True).
Proof.
  unfold consoleread. generalize (Z.to_nat n + 1)%nat. intros fuel. revert dst n.
  induction fuel as [|fuel IH]; intros dst n; cbn [consoleread_loop]; krun.
Qed.
Lemma keeps_consputc c : keeps P B (consputc c) (fun _ => True).
Proof. unfold consputc. krun. Qed.
#[local] Hint Resolve keeps_consputc : keeps.
Lemma keeps_consoleintr c : keeps P B (consoleintr c) (fun _ => True).
Proof.
  assert (Hkill : forall fuel, keeps P B (kill_line fuel) (fun _ => True)).
  { intros fuel. induction fuel as [|fuel IH]; cbn [kill_line]; krun. }
  unfold consoleintr. krun.
Qed.
End Console.

Lemma console_read_keeps {S H} `{!TxOps S} `{!OpOps S} `{!UartDev H} : devs_keep (S := S) (devsw_read (H := H)).
Proof.
  intros P B HP HB major f addr n. unfold devsw_read. destruct (major =? CONSOLE); [|done]. intros [= <-].
  apply keeps_awake; [apply _..|]. apply keeps_consoleread; apply _.
Qed.
Lemma console_write_keeps {S H} `{!TxOps S} `{!OpOps S} `{!UartDev H} : devs_keep (S := S) (devsw_write (H := H)).
Proof.
  intros P B HP HB major f addr n. unfold devsw_write. destruct (major =? CONSOLE); [|done]. intros [= <-].
  apply keeps_awake; [apply _..|]. apply keeps_consolewrite; apply _.
Qed.
