(* ===== verification/FileRefs.v ===== *)
(** * Reference counts of open files

    [counted ex d]: the reference count of every open file is the number of
    descriptors that name it plus [d], the references that routines in progress
    hold in their local variables; a process in a state without files has none,
    except [ex], which [fork] is filling. *)

From stdpp Require Import base list gmap strings.
From Stdlib Require Import ZArith Lia.
From S2P Require Import Prelude Hoare Mem Layout Kalloc Vm Sleeplock FsFormat Store Fs Kernel Sched File Proc ProcSpec Exec Arg Sysfile Sysproc PipeSpec KernelInv SyscallKeeps.
Open Scope Z_scope.


(** ** Counting *)

Fixpoint total {A} (g : A -> Z) (l : list A) : Z :=
  match l with [] => 0 | a :: l => g a + total g l end.

Lemma total_alter {A} (g : A -> Z) h i l a : l !! i = Some a -> total g (alter h i l) = total g l - g a + g (h a).
Proof.
  revert i. induction l as [|b l IH]; intros [|i] Hi; cbn in *; try done; [injection Hi as ->; lia|].
  change (list_alter h i l) with (alter h i l). rewrite (IH i) by done. lia.
Qed.
Lemma total_app {A} (g : A -> Z) l l' : total g (l ++ l') = total g l + total g l'.
Proof. induction l as [|a l IH]; cbn; lia. Qed.
Lemma total_bounds {A} (g : A -> Z) l m : (forall a, a ∈ l -> 0 <= g a <= m) -> 0 <= total g l <= Z.of_nat (length l) * m.
Proof.
  induction l as [|a l IH]; cbn [total length]; intros H; [lia|].
  assert (0 <= g a <= m) by (apply H; left). assert (0 <= total g l <= Z.of_nat (length l) * m) by (apply IH; intros; apply H; by right). lia.
Qed.
Lemma total_zero {A} (g : A -> Z) l : (forall a, a ∈ l -> g a = 0) -> total g l = 0.
Proof. induction l as [|a l IH]; cbn; intros H; [done|]. rewrite (H a), IH; [done|intros; apply H; by right|left]. Qed.

(** One if the descriptor names file [f]. *)
Definition names (f : nat) (o : option nat) : Z := if decide (o = Some f) then 1 else 0.
(** The descriptors of a table that name [f]. *)
Definition fds (f : nat) (l : list (option nat)) : Z := total (names f) l.
Definition no_files (p : proc) : Prop := forall fd, nth fd (p_ofile p) None = None.

Lemma names_self f : names f (Some f) = 1.
Proof. unfold names. by rewrite decide_True. Qed.
Lemma fds_insert f fd v l : (fd < length l)%nat -> fds f (<[fd := v]> l) = fds f l - names f (nth fd l None) + names f v.
Proof.
  intros Hfd. destruct (lookup_lt_is_Some_2 l fd Hfd) as [o Ho]. unfold fds.
  assert (E : <[fd := v]> l = alter (fun _ => v) fd l).
  { apply list_eq. intros j. rewrite list_lookup_insert, list_lookup_alter. case_decide as Hj.
    - destruct Hj as [-> _]. rewrite decide_True, Ho by done. done.
    - destruct (decide (fd = j)) as [->|]; [|done]. exfalso. by apply Hj. }
  rewrite E, (total_alter _ _ _ _ o), (nth_lookup_Some l fd None o) by done. done.
Qed.

Section Refs.
Context {S Dv : Type} `{!TxOps S} `{!OpOps S}.
Local Abbreviation K := (kstate S Dv).
Implicit Types (k : K) (d : nat -> Z) (ex : option nat).

Definition descs (f : nat) k : Z := total (fun p => fds f (p_ofile p)) (k_procs k).

Record counted ex d k : Prop := {
  ct_ok : kernel_ok k;
  ct_refs : forall f, (f < nfile)%nat -> f_ref (file_at k f) = descs f k + d f;
  ct_dead : forall i, ex <> Some i -> dead (p_state (proc_at k i)) -> no_files (proc_at k i);
}.

Lemma counted_ext ex d d' k : (forall f, d f = d' f) -> counted ex d k -> counted ex d' k.
Proof. intros E [Hok Hr Hd]. split; [done| |done]. intros f Hf. by rewrite <- E, Hr. Qed.

(** A changed process, by what happens to its descriptors. *)
Lemma descs_upd f i g k : (i < length (k_procs k))%nat ->
  descs f (upd i g k) = descs f k - fds f (p_ofile (proc_at k i)) + fds f (p_ofile (g (proc_at k i))).
Proof.
  intros Hi. destruct (lookup_lt_is_Some_2 _ _ Hi) as [x Hx]. unfold descs, upd. cbn.
  rewrite (total_alter _ _ _ _ x) by done. by rewrite (proc_at_lookup k i x Hx).
Qed.
Lemma upd_ge i g k : (length (k_procs k) <= i)%nat -> upd i g k = k.
Proof. intros Hi. unfold upd. rewrite alter_ge by done. by destruct k. Qed.

Lemma counted_same_files ex d i g k : counted ex d k -> kernel_ok (upd i g k) -> p_ofile (g (proc_at k i)) = p_ofile (proc_at k i) ->
  (ex <> Some i -> dead (p_state (g (proc_at k i))) -> no_files (proc_at k i)) -> counted ex d (upd i g k).
Proof.
  intros [Hok Hr Hd] Hok' Hof Hst. destruct (decide (i < length (k_procs k))%nat) as [Hi|Hi]; [|by rewrite upd_ge by lia].
  split; [done| |].
  - intros f Hf. rewrite descs_upd, Hof by done. change (file_at (upd i g k) f) with (file_at k f). rewrite Hr by done. lia.
  - intros j Hj. rewrite proc_at_upd by done. destruct (decide (j = i)) as [->|]; [|by apply Hd].
    intros Hdead fd. rewrite Hof. by apply Hst.
Qed.

#[export] Instance counted_frame ex d : Frame (counted ex d).
Proof.
  split; [by intros k []| | | | |].
  - intros v k [Hok Hr Hd]. split; [by apply frame_mem|done..].
  - intros v k [Hok Hr Hd]. split; [by apply frame_fs|done..].
  - intros v k [Hok Hr Hd]. split; [by apply frame_dev|done..].
  - intros i g k Hg H. destruct (Hg (proc_at k i)) as (Hof & Hst & _).
    apply counted_same_files; [done|apply frame_calm; [done|apply H]|done|rewrite Hst; apply H].
  - intros v k Hv [Hok Hr Hd]. split; [by apply frame_nextpid|done..].
Qed.

Lemma counted_updf ex d d' f g k : counted ex d k -> kernel_ok (updf f g k) ->
  (forall h, (h < nfile)%nat -> f_ref (if decide (h = f) then g (file_at k h) else file_at k h) = f_ref (file_at k h) - d h + d' h) ->
  counted ex d' (updf f g k).
Proof.
  intros [Hok Hr Hd] Hok' Hg. split; [done| |done]. intros h Hh.
  assert (E : file_at (updf f g k) h = if decide (h = f) then g (file_at k h) else file_at k h).
  { unfold file_at, updf. cbn. rewrite !nth_lookup, list_lookup_alter. rewrite (decide_ext (h = f) (f = h)) by done.
    destruct (decide (f = h)) as [->|]; [|done]. pose proof (ko_nfile k Hok) as Hn. rewrite <- Hn in Hh.
    destruct (lookup_lt_is_Some_2 _ _ Hh) as [y Hy]. by rewrite Hy. }
  rewrite E, Hg by done. change (descs h (updf f g k)) with (descs h k). rewrite Hr by done. lia.
Qed.
Lemma counted_calm_file ex d f g k : calm_file g -> counted ex d k -> counted ex d (updf f g k).
Proof.
  intros Hg H. eapply counted_updf; [done|apply tables_file; [done|apply H]|]. intros h Hh.
  destruct (decide (h = f)); [destruct (Hg (file_at k h)) as [-> _]|]; lia.
Qed.

#[export] Instance counted_tables ex d : Tables (counted ex d).
Proof.
  split; [apply _| | | | |].
  - intros i st k Hst H. apply counted_same_files; [done|apply kernel_ok_state, H|done|done].
  - intros i st k Hst Hd H. apply counted_same_files; [done|apply kernel_ok_state, H|done|intros Hex _; by apply H].
  - intros f g k. apply counted_calm_file.
  - intros pi p k Hp [Hok Hr Hd]. split; [by apply tables_pipe|done..].
  - intros pi k [Hok Hr Hd]. split; [by apply tables_nopipe|done..].
Qed.

(** ** Moving references *)

(** [n] more references to [f] in local variables. *)
Definition adj (f : nat) (n : Z) d : nat -> Z := fun h => d h + n * names h (Some f).

Lemma counted_ref ex d f g n k : counted ex d k -> 0 <= f_ref (file_at k f) + n -> f_ref (g (file_at k f)) = f_ref (file_at k f) + n ->
  (forall x, file_ok x -> 0 <= f_ref (g x) -> file_ok (g x)) -> counted ex (adj f n d) (updf f g k).
Proof.
  intros H Hn Hg Hfi. eapply counted_updf; [exact H| |].
  - destruct (ct_ok _ _ _ H) as [Hnp Hnf Hp Hf Hpi Hc Hi Hpid Ht]. split; try done; cbn; [by rewrite length_alter|].
    apply Forall_alter; [done|]. intros x Hx Hokx. apply Hfi; [done|].
    assert (E : file_at k f = x) by (unfold file_at; by apply nth_lookup_Some). rewrite E in *. lia.
  - intros h Hh. unfold adj, names. destruct (decide (h = f)) as [->|Hne].
    + rewrite Hg, decide_True by done. lia.
    + rewrite decide_False by congruence. lia.
Qed.

Lemma counted_setfd ex d i fd v k : counted ex d k -> (i < nproc)%nat -> (fd < Z.to_nat NOFILE)%nat -> below nfile v ->
  (v = None \/ ex = Some i \/ ~ dead (p_state (proc_at k i))) ->
  counted ex (fun h => d h + names h (nth fd (p_ofile (proc_at k i)) None) - names h v) (upd i (fun x => set_p_ofile (<[fd := v]> (p_ofile x)) x) k).
Proof.
  intros [Hok Hr Hd] Hi Hfd Hv Hlive. pose proof (ko_nproc k Hok) as Hn. destruct (proc_ok_at k i Hok) as [_ [Hl _]].
  split.
  - apply kernel_ok_upd; [|done]. intros x [[] [Hlx Hfx]]. split; [by split|]. cbn. split; [by rewrite length_insert|].
    by apply Forall_insert.
  - intros f Hf. rewrite descs_upd by lia. cbn [p_ofile set_p_ofile]. rewrite fds_insert by lia.
    change (file_at (upd _ _ k) f) with (file_at k f). rewrite Hr by done. lia.
  - intros j Hj. rewrite proc_at_upd by lia. destruct (decide (j = i)) as [->|]; [|by apply Hd]. cbn [p_state p_ofile set_p_ofile].
    intros Hdead. destruct Hlive as [->|[->|Hlive]]; [|done..].
    intros fd'. cbn [p_ofile set_p_ofile]. rewrite nth_lookup, list_lookup_insert. case_decide; [done|]. rewrite <- nth_lookup. by apply Hd.
Qed.
End Refs.

(** ** How the routines move references to open files

    [filealloc], [filedup], [fileclose], [fdalloc] and the clearing of a
    descriptor move references between the file table, the descriptors and the
    local variables; [sys_dup], [sys_close], [sys_open], [sys_pipe], [fork] and
    [exit] leave the balance as they found it. *)


Section Moves.
Context {S Dv : Type} `{!TxOps S} `{!OpOps S}.
Local Abbreviation K := (kstate S Dv).
Implicit Types (k : K) (d : nat -> Z) (ex : option nat) (p : nat) (L : list (option nat) -> Prop).

(** The current process, [p], may hold files, and [L] holds of its descriptors. *)
Definition alive k : Prop := ~ dead (p_state (proc_at k (k_cur k))).
Record held p L ex d k : Prop := {
  he_counted : counted ex d k;
  he_alive : alive k;
  he_cur : k_cur k = p;
  he_files : L (p_ofile (proc_at k p));
}.
(** What a routine that has gone to sleep leaves: its local variables hold up
    to two references to a file, or a descriptor it is closing is one too many. *)
Definition between d k : Prop := exists ex e, (forall h, -1 <= e h <= 2) /\ counted ex (fun h => d h + e h) k.

Lemma held_between p L ex d d' k : (forall h, -1 <= d' h - d h <= 2) -> held p L ex d' k -> between d k.
Proof.
  intros Hb [Hc _ _ _]. exists ex, (fun h => d' h - d h). split; [done|]. eapply counted_ext; [|exact Hc]. intros h. lia.
Qed.
Lemma held_ext p L ex d d' k : (forall f, d f = d' f) -> held p L ex d k -> held p L ex d' k.
Proof. intros E []. split; try done. by eapply counted_ext. Qed.

(** An update of one process that keeps its descriptors. *)
Lemma held_upd p L ex d i g k : held p L ex d k -> counted ex d (upd i g k) ->
  ((i < length (k_procs k))%nat -> p_ofile (g (proc_at k i)) = p_ofile (proc_at k i) /\ (dead (p_state (g (proc_at k i))) -> dead (p_state (proc_at k i)))) ->
  held p L ex d (upd i g k).
Proof.
  intros [Hc Ha Hp HL] Hc' Hg. destruct (decide (i < length (k_procs k))%nat) as [Hi|Hi]; [|by rewrite upd_ge by lia].
  destruct (Hg Hi) as [Hof Hst]. split; [done| |done|].
  - unfold alive. rewrite proc_at_upd by done. change (k_cur (upd i g k)) with (k_cur k).
    destruct (decide (k_cur k = i)) as [E|]; [|done]. intros Hd. apply Ha. rewrite E. auto.
  - rewrite proc_at_upd by done. destruct (decide (p = i)) as [->|]; [|done]. by rewrite Hof.
Qed.
#[export] Instance held_frame p L ex d : Frame (held p L ex d).
Proof.
  split; [by intros k [[] _ _ _]|..].
  - intros v k []. split; try done. by apply frame_mem.
  - intros v k []. split; try done. by apply frame_fs.
  - intros v k []. split; try done. by apply frame_dev.
  - intros i g k Hg H. apply held_upd; [done|apply frame_calm; [done|apply H]|]. intros _. by destruct (Hg (proc_at k i)) as (-> & -> & _).
  - intros v k Hv []. split; try done. by apply frame_nextpid.
Qed.
#[export] Instance held_tables p L ex d : Tables (held p L ex d).
Proof.
  split; [apply _|..].
  - intros i st k Hst H. apply held_upd; [done|apply tables_live; [done|apply H]|by intros _].
  - intros i st k Hst Hd H. apply held_upd; [done|apply tables_dead; [done|done|apply H]|by intros _].
  - intros f g k Hg []. split; try done. by apply tables_file.
  - intros pi q k Hq []. split; try done. by apply tables_pipe.
  - intros pi k []. split; try done. by apply tables_nopipe.
Qed.
Lemma held_ref p L ex d f g n k : held p L ex d k -> 0 <= f_ref (file_at k f) + n -> f_ref (g (file_at k f)) = f_ref (file_at k f) + n ->
  (forall x, file_ok x -> 0 <= f_ref (g x) -> file_ok (g x)) -> held p L ex (adj f n d) (updf f g k).
Proof. intros [] Hn Hg Hfi. split; try done. by apply counted_ref. Qed.

(** ** kernel/file.c *)

Lemma triple_filealloc p L ex d B : triple (held p L ex d) filealloc
  (fun o k => match o with Some f => (f < nfile)%nat /\ held p L ex (adj f 1 d) k | None => held p L ex d k end) B.
Proof.
  unfold filealloc. assert (Hall : forall f, f ∈ seq 0 nfile -> (f < nfile)%nat) by (intros f Hf; apply elem_of_seq in Hf; lia).
  induction (seq 0 nfile) as [|f l IH]; cbn [filealloc_loop]; [by intros k Hk|].
  apply triple_get. intros ref. destruct (Z.eqb_spec ref 0) as [Hz|_].
  - intros k [Hk Href]. cbn. split; [apply Hall; left|]. apply held_ref; [done|lia|cbn; lia|]. intros x [] _. split; cbn; try done; lia.
  - eapply triple_conseq; [apply IH; intros; apply Hall; by right|by intros k [Hk _]|done].
Qed.

Lemma triple_filedup p L ex d f B : triple (held p L ex d) (filedup f) (fun r k => r = f /\ held p L ex (adj f 1 d) k) B.
Proof.
  apply triple_get. intros ref. destruct (ref <? 1) eqn:E; [by intros k Hk|]. intros k [Hk Href]. cbn. split; [done|].
  apply held_ref; [done|lia|done|]. intros x [] ?. by split.
Qed.

Lemma triple_fileclose kend p L ex d f B `{!Weaker (held p L ex (adj f (-1) d)) B} :
  triple (held p L ex d) (fileclose kend f) (fun _ => held p L ex (adj f (-1) d)) B.
Proof.
  apply triple_get. intros ff. destruct (f_ref ff <? 1) eqn:E1; [by intros k Hk|]. destruct (0 <? f_ref ff - 1) eqn:E2.
  - intros k [Hk ->]. cbn in *. apply held_ref; [done|lia|cbn; lia|]. intros x [] ?. by split.
  - eapply triple_bind with (Q := fun _ => held p L ex (adj f (-1) d)).
    + intros k [Hk ->]. cbn in *. apply held_ref; [done|lia|cbn; lia|]. intros x [] ?. by split.
    + intros []. eapply triple_keeps with (P := held p L ex (adj f (-1) d)) (F := fun _ => True); [krun|done|done].
Qed.
End Moves.

(** The references a sleeping routine holds, by arithmetic. *)
Ltac refs_lia := intros; unfold adj, names in *; repeat case_decide; simplify_eq; lia.
#[export] Hint Extern 4 (Weaker _ (between _)) => intros ? ?; eapply held_between; [|eassumption]; refs_lia : typeclass_instances.

Section Descriptors.
Context {S Dv : Type} `{!TxOps S} `{!OpOps S}.
Local Abbreviation K := (kstate S Dv).
Implicit Types (k : K) (d : nat -> Z) (ex : option nat) (p : nat) (L : list (option nat) -> Prop).

(** A descriptor of process [i] set. *)
Definition with_fd (i fd : nat) (v : option nat) k : K := upd i (fun x => set_p_ofile (<[fd := v]> (p_ofile x)) x) k.

Lemma held_with_fd p L L' ex d i fd v k : held p L ex d k -> (i < nproc)%nat -> (fd < Z.to_nat NOFILE)%nat -> below nfile v ->
  (v = None \/ ex = Some i \/ i = p) ->
  (forall l, length l = Z.to_nat NOFILE -> L l -> if decide (i = p) then L' (<[fd := v]> l) else L' l) ->
  held p L' ex (fun h => d h + names h (nth fd (p_ofile (proc_at k i)) None) - names h v) (with_fd i fd v k).
Proof.
  intros [Hc Ha Hp HL] Hi Hfd Hv Hlive HL'. pose proof (ct_ok _ _ _ Hc) as Hok. pose proof (ko_nproc k Hok).
  destruct (proc_ok_at k p Hok) as [_ [Hlen _]]. specialize (HL' _ Hlen HL). unfold with_fd. split.
  - apply counted_setfd; try done. destruct Hlive as [?|[?| ->]]; auto. right; right. rewrite <- Hp. exact Ha.
  - unfold alive. rewrite proc_at_upd by lia. change (k_cur (upd _ _ k)) with (k_cur k). destruct (decide (k_cur k = i)) as [<-|]; exact Ha.
  - exact Hp.
  - rewrite proc_at_upd by lia. rewrite (decide_ext (p = i) (i = p)) by done. destruct (decide (i = p)) as [->|]; exact HL'.
Qed.

Lemma fdalloc_ok f k : fdalloc f k = Ok (-1) k \/
  exists fd, (fd < Z.to_nat NOFILE)%nat /\ nth fd (p_ofile (proc_at k (k_cur k))) None = None /\
    fdalloc f k = Ok (Z.of_nat fd) (with_fd (k_cur k) fd (Some f) k).
Proof.
  unfold fdalloc. assert (Hall : forall fd, fd ∈ seq 0 (Z.to_nat NOFILE) -> (fd < Z.to_nat NOFILE)%nat) by (intros fd Hfd; apply elem_of_seq in Hfd; lia).
  induction (seq 0 (Z.to_nat NOFILE)) as [|fd l IH]; [by left|].
  assert (E : fdalloc_loop f (fd :: l) k = match nth fd (p_ofile (proc_at k (k_cur k))) None with
    | None => Ok (Z.of_nat fd) (with_fd (k_cur k) fd (Some f) k) | Some _ => fdalloc_loop f l k end).
  { cbn [fdalloc_loop]. unfold bindM, myproc, getp, getM. by destruct (nth fd _ None). }
  rewrite E. destruct (nth fd (p_ofile (proc_at k (k_cur k))) None) as [g|] eqn:En.
  - apply IH. intros; apply Hall; by right.
  - right. exists fd. split_and!; [apply Hall; left|done|done].
Qed.

(** The reference of a local variable becomes a descriptor's, in a slot that was
    free. *)
Definition at_fd (fd : nat) (f : nat) (l : list (option nat)) : Prop := nth fd l None = Some f.
Lemma triple_fdalloc p L ex d f B : (f < nfile)%nat -> (forall l fd, nth fd l None = None -> L l -> L (<[fd := Some f]> l)) ->
  triple (held p L ex d) (fdalloc f)
  (fun r k => if r <? 0 then held p L ex d k else
     held p (fun l => L l /\ at_fd (Z.to_nat r) f l) ex (adj f (-1) d) k /\
     ((Z.to_nat r < Z.to_nat NOFILE)%nat /\ forall fd g, (forall l, L l -> at_fd fd g l) -> Z.to_nat r <> fd)) B.
Proof.
  intros Hf HL k Hk. destruct (fdalloc_ok f k) as [->|(fd & Hfd & Hn & ->)]; [done|].
  assert (E : (Z.of_nat fd <? 0) = false) by lia. rewrite E, Nat2Z.id. pose proof (frame_ok (P := held p L ex d) k Hk) as Hok.
  pose proof (ko_cur k Hok). pose proof (he_cur _ _ _ _ _ Hk) as Hp. rewrite Hp in *. clear E.
  split; [|split; [done|intros fd' g Hat ->; specialize (Hat _ (he_files _ _ _ _ _ Hk)); unfold at_fd in Hat; congruence]].
  eapply held_ext; [|eapply (held_with_fd p (fun l => L l /\ nth fd l None = None) _ ex d p fd (Some f) k)]; try done.
  - intros h. cbn beta. rewrite Hn. refs_lia.
  - destruct Hk. by split.
  - by right; right.
  - intros l Hl [Hll Hln]. rewrite decide_True by done. split; [by apply HL|]. unfold at_fd. rewrite nth_lookup, list_lookup_insert, decide_True by lia. done.
Qed.

(** The descriptor a system call names, with its file. *)
Lemma triple_argfd n p L ex d B `{!Weaker (held p L ex d) B} : triple (held p L ex d) (argfd n)
  (fun a k => match a with
    | Some (fd, f) => (Z.to_nat fd < Z.to_nat NOFILE)%nat /\ (f < nfile)%nat /\ held p (fun l => L l /\ at_fd (Z.to_nat fd) f l) ex d k
    | None => held p L ex d k end) B.
Proof.
  unfold argfd. eapply triple_then; [by apply keeps_argint; apply _|]. intros fd _. destruct (_ || _) eqn:E; [by intros k Hk|].
  apply triple_get. intros o k [Hk ->]. cbn. destruct (nth _ _ _) as [f|] eqn:En; cbn; [|done]. apply orb_false_iff in E as [? ?]. unfold NOFILE in *.
  pose proof (ofile_at k (k_cur k) (Z.to_nat fd) (frame_ok (P := held p L ex d) k Hk)) as Hb. rewrite En in Hb.
  split_and!; [lia|done|]. destruct Hk. split; try done. split; [done|]. by subst p.
Qed.
(** A descriptor cleared: its reference is the local variable's. *)
Lemma triple_clear p L L' ex d fd f (B : K -> Prop) : (fd < Z.to_nat NOFILE)%nat -> (forall l, L l -> at_fd fd f l) -> (forall l, L l -> L' (<[fd := None]> l)) ->
  triple (held p L ex d) (setp p (fun x => set_p_ofile (<[fd := None]> (p_ofile x)) x)) (fun _ => held p L' ex (adj f 1 d)) B.
Proof.
  intros Hfd Hat HL k Hk. cbn. fold (with_fd p fd None k). pose proof (Hat _ (he_files _ _ _ _ _ Hk)) as Hn.
  pose proof (ko_cur k (frame_ok (P := held p L ex d) k Hk)) as Hc. rewrite (he_cur _ _ _ _ _ Hk) in Hc.
  eapply held_ext; [|eapply (held_with_fd p L L' ex d p fd None k)]; try done.
  - intros h. cbn beta. rewrite Hn. refs_lia.
  - by left.
  - intros l _ Hl. rewrite decide_True by done. auto.
Qed.
End Descriptors.
