(* ===== verification/RefCalls.v ===== *)
(** * The system calls that open and close files keep the reference counts

    For any references [d] that others hold: [sys_dup], [sys_close], [sys_open],
    [sys_pipe], [fork] and [exit] return in a state with the same [d], and
    asleep they are [between]. *)

From stdpp Require Import base list gmap strings.
From Stdlib Require Import ZArith Lia.
From S2P Require Import Prelude Hoare Mem Layout Kalloc Vm Sleeplock FsFormat Store Fs Kernel Sched File Proc ProcSpec.
From S2P Require Import Exec Arg Sysfile Sysproc PipeSpec KernelInv SyscallKeeps FileRefs.
Open Scope Z_scope.

Section RefCalls.
Context {S Dv : Type} `{!TxOps S} `{!OpOps S}.
Local Abbreviation K := (kstate S Dv).
Implicit Types (k : K) (d : nat -> Z) (p : nat) (L : list (option nat) -> Prop).
Context (kend trampoline forkret : Z).

Definition any_files : list (option nat) -> Prop := fun _ => True.
Local Abbreviation bal p d := (held (S := S) (Dv := Dv) p any_files None d).

(** The references change only in how they are written. *)
Lemma triple_held_ext {A} p L ex d d' (m : M K A) Q B : (forall h, d h = d' h) -> triple (held p L ex d') m Q B -> triple (held p L ex d) m Q B.
Proof. intros E Hm. eapply triple_conseq; [exact Hm| |done]. intros k Hk. by eapply held_ext. Qed.
Lemma held_weaken p L L' ex d k : (forall l, L l -> L' l) -> held p L ex d k -> held p L' ex d k.
Proof. intros HL []. split; auto. Qed.

Lemma triple_sys_dup p d : triple (bal p d) sys_dup (fun _ => bal p d) (between d).
Proof.
  unfold sys_dup. eapply triple_bind; [by apply triple_argfd; apply _|]. intros [[fd f]|]; [|by intros k Hk].
  eapply triple_pre with (P := fun k => bal p d k /\ (f < nfile)%nat); [apply triple_pure; intros Hf| ].
  2: { intros k (_ & Hf & Hk). split; [by eapply held_weaken|done]. }
  eapply triple_bind; [by apply triple_fdalloc|]. intros r. cbn beta. destruct (r <? 0); [by intros k Hk|].
  eapply triple_bind; [eapply triple_conseq; [apply triple_filedup|by intros k (H & _); exact H|done]|].
  intros r' k [_ Hk]. cbn. eapply held_ext; [|by eapply held_weaken; [|exact Hk]]. refs_lia.
Qed.

Lemma triple_sys_close p d : triple (bal p d) (sys_close kend) (fun _ => bal p d) (between d).
Proof.
  unfold sys_close. eapply triple_bind; [by apply triple_argfd; apply _|]. intros [[fd f]|]; [|by intros k Hk].
  eapply triple_pre with (P := fun k => held p (fun l => any_files l /\ at_fd (Z.to_nat fd) f l) None d k /\ (Z.to_nat fd < Z.to_nat NOFILE)%nat);
    [apply triple_pure; intros Hfd|by intros k (? & ? & ?)].
  apply triple_get. intros p'. eapply triple_pre with (P := fun k => held p _ None d k /\ p' = p); [apply triple_pure; intros -> | ].
  2: { intros k [Hk ->]. split; [exact Hk|apply Hk]. }
  eapply triple_bind; [by apply (triple_clear p _ any_files None d (Z.to_nat fd) f); [|intros l []|]|]. intros [].
  eapply triple_bind; [apply triple_fileclose; apply _|]. intros [] k Hk. cbn. eapply held_ext; [|exact Hk]. refs_lia.
Qed.

Lemma triple_sys_open p d : triple (bal p d) (sys_open kend) (fun _ => bal p d) (between d).
Proof.
  unfold sys_open. kstep. destruct a as [n path]. kstep; [by intros k Hk|]. do 3 kstep. destruct a1 as [ip|]; [|by intros k Hk].
  kstep. cbn zeta. kstep; [apply triple_kept; krun|].
  eapply triple_bind; [apply triple_filealloc|]. intros [f|]; [|apply triple_kept; krun].
  eapply triple_pre with (P := fun k => bal p (adj f 1 d) k /\ (f < nfile)%nat); [apply triple_pure; intros Hf|tauto].
  eapply triple_bind; [by apply triple_fdalloc|]. intros r. cbn beta. destruct (r <? 0).
  - eapply triple_bind; [apply triple_fileclose; apply _|]. intros []. apply (triple_held_ext p any_files None _ d); [refs_lia|].
    apply triple_kept; krun.
  - eapply triple_pre with (P := bal p d); [|intros k [Hk _]].
    + apply triple_kept; krun.
    + eapply held_ext; [|by eapply held_weaken; [|exact Hk]]. refs_lia.
Qed.

(** *** Pipes *)

Lemma triple_pipealloc_bad p d f0 f1 : triple (bal p (adj f1 1 (adj f0 1 d))) (pipealloc_bad kend (Some f0) (Some f1)) (fun o k => o = None /\ bal p d k) (between d).
Proof.
  unfold pipealloc_bad. eapply triple_bind; [apply triple_fileclose; apply _|]. intros [].
  eapply triple_bind; [apply triple_fileclose; apply _|]. intros [] k Hk. split; [done|]. eapply held_ext; [|exact Hk]. refs_lia.
Qed.
(** Allocating a page does not go to sleep. *)
Lemma keeps_kalloc (P B : K -> Prop) `{!Frame P} : keeps P B (Mem kalloc) (fun _ => True).
Proof. intros k Hk. unfold Mem, zoomM, kalloc. split; [by apply frame_mem|done]. Qed.

Lemma triple_pipealloc p d : triple (bal p d) (pipealloc kend)
  (fun o k => match o with Some (rf, wf) => bal p (adj wf 1 (adj rf 1 d)) k /\ ((rf < nfile)%nat /\ (wf < nfile)%nat) | None => bal p d k end) (between d).
Proof.
  unfold pipealloc. eapply triple_bind; [apply triple_filealloc|]. intros [f0|]; [|by intros k Hk].
  eapply triple_pre with (P := fun k => bal p (adj f0 1 d) k /\ (f0 < nfile)%nat); [apply triple_pure; intros Hf0|tauto].
  eapply triple_bind; [apply triple_filealloc|]. intros [f1|].
  - eapply triple_pre with (P := fun k => bal p (adj f1 1 (adj f0 1 d)) k /\ (f1 < nfile)%nat); [apply triple_pure; intros Hf1|tauto].
    eapply triple_seq; [apply keeps_kalloc; apply _|]. intros pi. kstep.
    { eapply triple_conseq; [apply triple_pipealloc_bad|done|]. by intros o k [-> Hk]. }
    eapply triple_then with (F := fun l => length l = Z.to_nat PIPESIZE).
    { intros k Hk. unfold Mem, zoomM, getM. split; [by apply frame_mem|apply length_mread]. }
    intros junk Hj. eapply triple_seq.
    { apply keeps_setpipe. apply _. intros _ _. split; cbn; [done|lia..|by vm_compute]. }
    intros _. do 2 kstep. by intros k Hk.
  - eapply triple_bind; [apply triple_fileclose; apply _|]. intros [] k Hk. cbn. eapply held_ext; [|exact Hk]. refs_lia.
Qed.

Lemma triple_pipe_undo p L d rf wf : triple (held (S := S) (Dv := Dv) p L None (adj wf 1 (adj rf 1 d))) (pipe_undo kend rf wf) (fun _ => bal p d) (between d).
Proof.
  unfold pipe_undo. eapply triple_bind; [apply triple_fileclose; apply _|]. intros [].
  eapply triple_bind; [apply triple_fileclose; apply _|]. intros [] k Hk. cbn. eapply held_ext; [|by eapply held_weaken; [|exact Hk]]. refs_lia.
Qed.
Lemma at_fd_insert fd f fd' v l : nth fd' l None = None -> at_fd fd f l -> at_fd fd f (<[fd' := v]> l).
Proof.
  unfold at_fd. intros Hn Hf. assert (fd' <> fd) by congruence. by rewrite nth_lookup, list_lookup_insert_ne, <- nth_lookup by done.
Qed.

Lemma triple_sys_pipe p d : triple (bal p d) (sys_pipe kend) (fun _ => bal p d) (between d).
Proof.
  unfold sys_pipe. apply triple_get. intros p'. eapply triple_pre with (P := fun k => bal p d k /\ p' = p); [apply triple_pure; intros ->|].
  2: { intros k [Hk ->]. split; [done|apply Hk]. }
  kstep. eapply triple_bind; [apply triple_pipealloc|]. intros [[rf wf]|]; [|by intros k Hk]. apply triple_pure. intros [Hrf Hwf]. cbn zeta.
  eapply triple_bind; [by apply triple_fdalloc|]. intros fd0. cbn beta. destruct (fd0 <? 0) eqn:E0; [apply triple_pipe_undo|].
  apply triple_pure. intros [Hfd0 _].
  eapply triple_bind; [apply triple_fdalloc; [done|intros l fd Hl []; split; [done|by apply at_fd_insert]]|]. intros fd1. cbn beta. destruct (fd1 <? 0) eqn:E1.
  { eapply triple_bind; [apply (triple_clear p _ any_files None _ (Z.to_nat fd0) rf); [done|by intros l []|done]|]. intros [].
    apply (triple_held_ext p _ None _ (adj wf 1 (adj rf 1 d))); [refs_lia|]. apply triple_pipe_undo. }
  apply triple_pure. intros [Hfd1 Hne]. specialize (Hne (Z.to_nat fd0) rf (fun l H => proj2 H)).
  apply (triple_held_ext p _ None _ d); [refs_lia|].
  kstep. kstep. eapply triple_seq; [krun|]. intros r. kstep; [|intros k Hk; by eapply held_weaken; [|exact Hk]].
  eapply triple_bind; [apply (triple_clear p _ (at_fd (Z.to_nat fd1) wf) None _ (Z.to_nat fd0) rf); [done|by intros l [[_ ?] _]|]|].
  { intros l [_ Hl]. unfold at_fd. by rewrite nth_lookup, list_lookup_insert_ne, <- nth_lookup by done. }
  intros []. eapply triple_bind; [by apply (triple_clear p _ any_files None _ (Z.to_nat fd1) wf)|]. intros []. apply triple_pipe_undo.
Qed.

(** ** kernel/proc.c *)

Definition empty_upto (m : nat) (l : list (option nat)) : Prop := forall j, (j < m)%nat -> nth j l None = None.

Lemma triple_exit_files p d m n : (m + n <= Z.to_nat NOFILE)%nat ->
  triple (held (S := S) (Dv := Dv) p (empty_upto m) None d)
    (for_each (seq m n) (fun fd =>
       let! f := getp p (fun x => nth fd (p_ofile x) None) in
       match f with
       | None => retM tt
       | Some f =>
           do! fileclose kend f in
           setp p (fun x => set_p_ofile (<[fd := None]> (p_ofile x)) x)
       end))
    (fun _ => held p (empty_upto (m + n)) None d) (between d).
Proof.
  revert m. induction n as [|n IH]; intros m Hm; cbn [seq for_each]; [intros k Hk; by rewrite Nat.add_0_r|].
  eapply triple_bind with (Q := fun _ => held p (empty_upto (Datatypes.S m)) None d); [|intros []; replace (m + Datatypes.S n)%nat with (Datatypes.S m + n)%nat by lia; apply IH; lia].
  apply triple_get. intros [f|].
  - eapply triple_pre with (P := held p (fun l => empty_upto m l /\ at_fd m f l) None d).
    2: { intros k [[Hc Ha Hp HL] Hf]. split; try done. }
    eapply triple_bind; [apply triple_fileclose; apply _|]. intros [].
    eapply triple_conseq; [apply (triple_clear p (fun l => empty_upto m l /\ at_fd m f l) (empty_upto (Datatypes.S m)) None (adj f (-1) d) m f); [lia|by intros l []|]|done|].
    + intros l [Hl _] j Hj. rewrite nth_lookup, list_lookup_insert. case_decide; [done|]. rewrite <- nth_lookup.
      destruct (decide (j = m)) as [->|]; [|apply Hl; lia]. rewrite nth_overflow; [done|]. lia.
    + intros [] k Hk. eapply held_ext; [|exact Hk]. refs_lia.
  - intros k [[Hc Ha Hp HL] Hn]. split; try done. intros j Hj. destruct (decide (j = m)) as [->|]; [done|apply HL; lia].
Qed.

Lemma triple_exit p d status : is_int status -> triple (bal p d) (exit kend status) (fun _ => counted None d) (between d).
Proof.
  intros Hst. unfold exit. apply triple_get. intros p'. eapply triple_pre with (P := fun k => bal p d k /\ p' = p); [apply triple_pure; intros ->|].
  2: { intros k [Hk ->]. split; [done|apply Hk]. }
  kstep. kstep; [by intros k Hk|].
  eapply triple_bind; [eapply triple_pre; [apply (triple_exit_files p d 0 (Z.to_nat NOFILE)); lia|]|].
  { intros k Hk. apply (held_weaken p any_files); [|exact Hk]. intros l _ j Hj. lia. }
  intros []. krun. intros k [Hc Ha Hp HL]. apply counted_same_files; [done|apply kernel_ok_state, Hc|done|]. intros _ _ fd.
  destruct (proc_ok_at k p (ct_ok _ _ _ Hc)) as [_ [Hl _]].
  destruct (decide (fd < Z.to_nat NOFILE)%nat); [apply HL; lia|apply nth_overflow; lia].
Qed.
Lemma triple_sys_exit p d : triple (bal p d) (sys_exit kend) (fun _ => bal p d) (between d).
Proof.
  unfold sys_exit. eapply triple_then; [apply keeps_argint; apply _|]. intros n Hn. eapply triple_bind; [by apply triple_exit|].
  intros [] k Hk. exists None, (fun _ => 0). split; [lia|]. eapply counted_ext; [|exact Hk]. intros f. lia.
Qed.

(** The child's descriptors from [m] on are still free. *)
Definition empty_from (np m : nat) (k : K) : Prop := forall j, (m <= j)%nat -> nth j (p_ofile (proc_at k np)) None = None.
Lemma triple_fork_files p np d m n : (np < nproc)%nat -> (m + n <= Z.to_nat NOFILE)%nat ->
  triple (fun k => held p any_files (Some np) d k /\ empty_from np m k)
    (for_each (seq m n) (fun i =>
       let! f := getp p (fun x => nth i (p_ofile x) None) in
       match f with
       | None => retM tt
       | Some f =>
           let! f := filedup f in
           setp np (fun x => set_p_ofile (<[i := Some f]> (p_ofile x)) x)
       end))
    (fun _ => held p any_files (Some np) d) (between d).
Proof.
  intros Hnp. revert m. induction n as [|n IH]; intros m Hm; cbn [seq for_each]; [by intros k [Hk _]|].
  eapply triple_bind with (Q := fun _ k => held p any_files (Some np) d k /\ empty_from np (Datatypes.S m) k); [|intros []; apply IH; lia].
  apply triple_get. intros [f|].
  - intros k [[Hk He] Hf]. pose proof (ofile_at k p m (ct_ok _ _ _ (he_counted _ _ _ _ _ Hk))) as Hb. rewrite <- Hf in Hb.
    pose proof (triple_filedup p any_files (Some np) d f (fun _ => True) k Hk) as Hdup. revert Hdup. unfold filedup, bindM, getf, getM.
    destruct (f_ref (file_at k f) <? 1); [done|]. cbn [setf modifyM retM]. intros [_ Hk']. unfold setf, modifyM in *. fold (updf f (fun x => set_f_ref (f_ref x + 1) x) k) in *.
    set (k' := updf f _ k) in *. assert (Hm0 : nth m (p_ofile (proc_at k' np)) None = None) by (apply He; lia). cbn beta iota. split.
    + fold (with_fd np m (Some f) k'). eapply held_ext; [|eapply (held_with_fd p any_files any_files (Some np) _ np m (Some f) k' Hk')]; try done; [|lia|by right; left|].
      * intros h. cbn beta. rewrite Hm0. refs_lia.
      * intros l _ _. by case_decide.
    + intros j Hj. fold (upd np (fun x => set_p_ofile (<[m := Some f]> (p_ofile x)) x) k').
      rewrite proc_at_upd_eq by (rewrite (ko_nproc _ (ct_ok _ _ _ (he_counted _ _ _ _ _ Hk'))); lia). cbn [p_ofile set_p_ofile].
      rewrite nth_lookup, list_lookup_insert_ne, <- nth_lookup by lia. apply He. lia.
  - intros k [[Hk He] _]. split; [done|]. intros j Hj. apply He. lia.
Qed.

Lemma triple_fork p d : triple (bal p d) (fork kend trampoline forkret) (fun _ => bal p d) (between d).
Proof.
  unfold fork. apply triple_get. intros p'. eapply triple_pre with (P := fun k => bal p d k /\ (p' = p /\ (p < nproc)%nat)); [apply triple_pure; intros [-> Hp]|].
  2: { intros k [Hk ->]. pose proof (ko_cur k (frame_ok (P := bal p d) k Hk)) as Hc. rewrite (he_cur _ _ _ _ _ Hk) in *. done. }
  eapply triple_bind; [apply triple_allocproc; apply _|]. intros [np|]; [|by intros k [Hk _]]. cbn [fresh_proc].
  eapply triple_pre with (P := fun k => (bal p d k /\ dead (p_state (proc_at k np))) /\ (np < nproc)%nat); [apply triple_pure; intros Hnp|tauto].
  kstep. destruct H as (k0 & [Hk0 _] & Ha). assert (Hf : fields_ok a) by (rewrite Ha; apply proc_ok_at, (frame_ok (P := bal p d)), Hk0). clear k0 Hk0 Ha.
  kstep. kstep. kstep.
  { eapply triple_seq; [apply keeps_freeproc; apply _|]. by intros [] k [Hk _]. }
  kstep. kstep. kstep. kstep. eapply triple_bind with (Q := fun _ => held p any_files (Some np) d).
  { eapply triple_pre; [apply (triple_fork_files p np d 0 (Z.to_nat NOFILE)); [done|lia]|]. intros k [[Hc Ha Hcur HL] Hd].
    pose proof (ct_dead _ _ _ Hc np ltac:(done) Hd) as Hno. split; [|intros j _; apply Hno].
    split; try done. destruct Hc as [Hok Hr Hdd]. split; try done. intros i _. by apply Hdd. }
  intros []. destruct (p_cwd a) as [cwd|]; [|by intros k Hk]. destruct Hf. do 6 kstep.
  eapply triple_bind with (Q := fun _ => bal p d); [|by intros [] k Hk].
  intros k Hk. pose proof (tables_live (P := held p any_files (Some np) d) np RUNNABLE k ltac:(auto with keeps) Hk) as [Hc' Ha' Hp' HL'].
  split; try done. destruct Hc' as [Hok Hr Hdd]. split; try done. intros i _.
  destruct (decide (i = np)) as [->|]; [|apply Hdd; congruence]. pose proof (ct_ok _ _ _ (he_counted _ _ _ _ _ Hk)) as Hok0. pose proof (ko_nproc k Hok0).
  fold (upd np (set_p_state RUNNABLE) k). rewrite proc_at_upd_eq by lia. by intros [?|[?|?]].
Qed.
End RefCalls.
