(* ===== verification/SystemThms.v ===== *)
(** * System calls keep the kernel's tables well formed

    Every system call, dispatched by [syscall] with the console behind [devsw],
    keeps [kernel_ok] and the balance of the reference counts of open files. *)

From stdpp Require Import base list gmap strings.
From Stdlib Require Import ZArith Lia.
From S2P Require Import Prelude Hoare Mem Layout Kalloc Vm VmExample Sleeplock FsFormat Store Fs FsExample Kernel Sched File Proc ProcSpec Exec Arg Sysfile Sysproc Syscall Console PipeSpec KernelInv SyscallKeeps FileRefs RefCalls.
Open Scope Z_scope.

(** ** A concrete system

    A UART with the bytes received and sent, and the processes of
    [PipeSpec] with a trapframe that asks for [dup(0)]. *)


Record wire := mk_wire { w_in : list Z; w_out : list Z }.
#[export] Instance wire_dev : UartDev wire := {
  lsr w := if decide (w_in w = []) then LSR_TX_IDLE else Z.lor LSR_TX_IDLE LSR_RX_READY;
  rhr w := (hd 0 (w_in w), mk_wire (tl (w_in w)) (w_out w));
  thr c w := mk_wire (w_in w) (w_out w ++ [c]);
  wreg _ _ w := w;
}.
Definition sx_dev : condev (H := wire) := mk_condev (mk_cons (replicate 128 0) 0 0 0) (replicate 32 0) 0 0 0 (mk_wire [] []).
Definition sx_kmem : kmem := mk_kmem (mem_of [(ex_tf + TF_a7, 10)]) 0.
Definition sx : kstate mstore (condev (H := wire)) :=
  mk_k sx_kmem fx (kx_file :: replicate 99 file0) {[ kx_pipe := kx_ring ]} kx_procs 4 (Some 0%nat) 0 7 sx_dev.

Lemma sx_ok : kernel_ok sx.
Proof.
  split; try reflexivity; try (cbn; unfold is_int, nproc; lia).
  - unfold sx, kx_procs. cbn [k_procs]. apply Forall_app. split; [|apply Forall_replicate, proc_ok_0].
    repeat (apply Forall_cons_2; [|]); [..|apply Forall_nil_2]; (split; [split|split]; try reflexivity;
      try (cbn; unfold is_bool, is_int, nproc, NPROC; lia); repeat constructor; cbn; unfold nfile, NFILE; lia).
  - unfold sx. cbn [k_ftable]. apply Forall_cons_2; [|apply Forall_replicate, file_ok_0]. split; cbn; unfold is_bool; lia.
  - unfold sx. cbn [k_pipes]. apply map_Forall_singleton, kx_ring_ok.
  - cbn. unfold nproc, NPROC. lia.
  - cbn. unfold nproc, NPROC. lia.
Qed.
Lemma sx_alive : alive sx.
Proof. intros [H|[H|H]]; discriminate. Qed.
Lemma sx_counted : counted None (fun _ => 0) sx.
Proof.
  split; [apply sx_ok| |].
  - intros [|f] Hf; [reflexivity|]. assert (E : file_at sx (S f) = file0).
    { unfold file_at, sx. cbn [k_ftable nth]. rewrite nth_lookup. destruct (replicate 99 file0 !! f) eqn:E; [|done]. by apply lookup_replicate in E as [-> _]. }
    rewrite E. cbn [f_ref file0]. unfold descs, sx. cbn [k_procs]. rewrite Z.add_0_r. symmetry. apply total_zero. intros p Hp.
    apply elem_of_app in Hp as [Hp|Hp].
    + repeat (apply elem_of_cons in Hp as [->|Hp]; [reflexivity|]). by apply elem_of_nil in Hp.
    + apply elem_of_replicate in Hp as [-> _]. reflexivity.
  - intros [|[|[|i]]] _ Hd; [by destruct Hd as [Hd|[Hd|Hd]]..|]. intros fd.
    assert (E : proc_at sx (S (S (S i))) = proc0) by apply (kx_unused i). rewrite E.
    cbn [p_ofile proc0]. rewrite nth_lookup. destruct (replicate _ _ !! fd) eqn:En; [|done]. by apply lookup_replicate in En as [-> _].
Qed.


(** ** Well-formed tables *)

Section Typed.
Context {S Dv : Type} `{!TxOps S} `{!OpOps S}.
Local Abbreviation K := (kstate S Dv).
Local Abbreviation safe m F := (keeps (S := K) kernel_ok kernel_ok m F).
Context (kend trampoline forkret : Z).

Lemma safe_setf f g : (forall x, file_ok x -> file_ok (g x)) -> safe (setf f g) (fun _ => True).
Proof. intros Hg. apply keeps_modify. intros k. by apply kernel_ok_updf. Qed.
Lemma safe_setfd i fd v : below nfile v -> safe (setp i (fun x => set_p_ofile (<[fd := v]> (p_ofile x)) x)) (fun _ => True).
Proof.
  intros Hv. apply keeps_modify. intros k. apply kernel_ok_upd. intros x [[] [Hl Hf]]. split; [by split|]. cbn. split; [by rewrite length_insert|].
  by apply Forall_insert.
Qed.
Lemma safe_zombie i st : safe (setp i (set_p_state st)) (fun _ => True).
Proof. apply keeps_modify. intros k. apply kernel_ok_state. Qed.
#[local] Hint Resolve safe_setfd safe_zombie : keeps.
#[local] Hint Extern 2 (below nfile None) => exact I : keeps.

Lemma safe_filealloc : safe filealloc (below nfile).
Proof.
  unfold filealloc. assert (Hall : forall f, f ∈ seq 0 nfile -> (f < nfile)%nat) by (intros f Hf; apply elem_of_seq in Hf; lia).
  induction (seq 0 nfile) as [|f l IH]; cbn [filealloc_loop]; [by krun|]. kstep. kstep.
  - eapply keeps_seq; [apply safe_setf; intros x []; by split|]. intros _. apply keeps_ret. apply Hall. left.
  - apply IH. intros; apply Hall; by right.
Qed.
Lemma safe_filedup f : safe (filedup f) (fun r => r = f).
Proof. unfold filedup. krun. apply safe_setf. intros x []. split; cbn; try done; lia. Qed.
Lemma safe_fileclose f : safe (fileclose kend f) (fun _ => True).
Proof.
  unfold fileclose. krun; apply safe_setf; intros x []; split; cbn; try done; try lia.
Qed.
#[local] Hint Resolve safe_filealloc safe_filedup safe_fileclose : keeps.
Lemma safe_pipealloc_bad f0 f1 : safe (pipealloc_bad kend f0 f1) (fun o => o = None).
Proof. unfold pipealloc_bad. krun. Qed.
#[local] Hint Resolve safe_pipealloc_bad : keeps.
Lemma safe_junk a : safe (Mem (getM (fun m => mread (ram m) a (Z.to_nat PIPESIZE)))) (fun l => length l = Z.to_nat PIPESIZE).
Proof. intros k Hk. unfold Mem, zoomM, getM. split; [by apply frame_mem|apply length_mread]. Qed.
Lemma safe_pipealloc : safe (pipealloc kend) (fun o => match o with Some (rf, wf) => (rf < nfile)%nat /\ (wf < nfile)%nat | None => True end).
Proof.
  unfold pipealloc. kstep. destruct a as [f0|]; [|by eapply keeps_mono; [auto with keeps|intros o ->]].
  kstep. destruct a as [f1|]; [|by eapply keeps_mono; [auto with keeps|intros o ->]].
  kstep. kstep; [by eapply keeps_mono; [auto with keeps|intros o ->]|].
  eapply keeps_bind; [apply safe_junk|]. intros junk Hj. krun. apply keeps_setpipe; [apply _|]. intros _ _. split; cbn; [done|lia..|by vm_compute].
Qed.
Lemma safe_fdalloc f : (f < nfile)%nat -> safe (fdalloc f) (fun _ => True).
Proof. intros Hf. unfold fdalloc. induction (seq 0 (Z.to_nat NOFILE)) as [|fd l IH]; cbn [fdalloc_loop]; krun. Qed.
#[local] Hint Resolve safe_pipealloc safe_fdalloc : keeps.
Lemma safe_pipe_undo rf wf : safe (pipe_undo kend rf wf) (fun _ => True).
Proof. unfold pipe_undo. krun. Qed.
#[local] Hint Resolve safe_pipe_undo : keeps.

Lemma safe_sys_dup : safe sys_dup (fun _ => True).
Proof. unfold sys_dup. krun. destruct H. auto with keeps. Qed.
Lemma safe_sys_close : safe (sys_close kend) (fun _ => True).
Proof. unfold sys_close. krun. Qed.
Lemma safe_sys_open : safe (sys_open kend) (fun _ => True).
Proof. unfold sys_open. krun. Qed.
Lemma safe_sys_pipe : safe (sys_pipe kend) (fun _ => True).
Proof. unfold sys_pipe. krun; match goal with H : _ /\ _ |- _ => destruct H end; auto with keeps. Qed.

Lemma safe_fork_files p np : safe (fork_files p np) (fun _ => True).
Proof.
  apply keeps_for_each. intros i _. kstep. destruct H as (k & Hk & Ha). pose proof (ofile_at k p i Hk) as Hb. rewrite <- Ha in Hb. krun. subst. auto with keeps.
Qed.
Lemma safe_exit_files p : safe (exit_files kend p) (fun _ => True).
Proof. apply keeps_for_each. intros i _. krun. Qed.
Lemma safe_allocproc : safe (allocproc kend trampoline forkret) (below nproc).
Proof. eapply triple_conseq; [apply (triple_allocproc kernel_ok); apply _|done|]. intros [i|] k [Hk Hf]; [|done]. split; [done|apply Hf]. Qed.
Lemma safe_freeproc i : safe (freeproc kend i) (fun _ => True).
Proof. unfold freeproc. krun. Qed.
#[local] Hint Resolve safe_fork_files safe_exit_files safe_allocproc safe_freeproc : keeps.
Lemma safe_fork : safe (fork kend trampoline forkret) (fun _ => True).
Proof.
  unfold fork. do 3 kstep; [|by krun]. kstep. destruct H1 as (k & Hk & Ha). destruct (proc_ok_at k a Hk) as [Hf _]. change (proc_at k a) with (id (proc_at k a)) in Hf.
  rewrite <- Ha in Hf. destruct Hf. krun.
Qed.
Lemma safe_exit status : is_int status -> safe (exit kend status) (fun _ => True).
Proof. intros Hst. unfold exit. krun. Qed.
#[local] Hint Resolve safe_fork safe_exit : keeps.
Lemma safe_sys_exit : safe (sys_exit kend) (fun _ => True).
Proof. unfold sys_exit. krun. Qed.
Lemma safe_sys_fork : safe (sys_fork kend trampoline forkret) (fun _ => True).
Proof. unfold sys_fork. krun. Qed.
End Typed.
#[export] Hint Resolve safe_sys_dup safe_sys_close safe_sys_open safe_sys_pipe safe_sys_exit safe_sys_fork : keeps.

(** ** Dispatch *)

Section Dispatch.
Context {S Dv : Type} `{!TxOps S} `{!OpOps S}.
Local Abbreviation K := (kstate S Dv).
Context (kend trampoline forkret : Z) (devread devwrite : Z -> option (Z -> Z -> M K Z)) (pad stack_name : list Z).

(** What every entry of the table does, the dispatcher does. *)
Lemma triple_syscall (P : K -> Prop) (B : K -> Prop) `{!Frame P, !Weaker P B} :
  Forall (fun e => triple P (snd e) (fun _ => P) B) (syscalls kend trampoline forkret devread devwrite pad stack_name) ->
  triple P (syscall kend trampoline forkret devread devwrite pad stack_name) (fun _ => P) B.
Proof.
  intros Hall. unfold syscall. kstep. kstep. cbn zeta. kstep; [|apply triple_kept; krun].
  unfold syscall_at. destruct (list_find _ _) as [[i [num f]]|] eqn:E; cbn [fmap option_fmap option_map]; [|apply triple_kept; krun].
  apply list_find_Some in E as (E & _ & _). eapply Forall_lookup_1 in E; [|exact Hall].
  eapply triple_bind; [exact E|]. intros r. apply triple_kept. cbn beta. krun.
Qed.

Hypotheses (Hread : devs_keep devread) (Hwrite : devs_keep devwrite).

Lemma syscalls_safe : Forall (fun e => triple kernel_ok (snd e) (fun _ => kernel_ok) kernel_ok)
  (syscalls kend trampoline forkret devread devwrite pad stack_name).
Proof. unfold syscalls. repeat (apply Forall_cons_2; [apply triple_kept; cbn [snd]; auto with keeps|]). apply Forall_nil_2. Qed.

Lemma syscalls_balanced p d : Forall (fun e => triple (held p any_files None d) (snd e) (fun _ => held p any_files None d) (between d))
  (syscalls kend trampoline forkret devread devwrite pad stack_name).
Proof.
  unfold syscalls. repeat (apply Forall_cons_2; [cbn [snd]; first [solve [apply triple_kept; auto with keeps]|idtac]|]); [..|apply Forall_nil_2].
  - apply triple_fork.
  - apply triple_sys_exit.
  - apply triple_sys_pipe.
  - apply triple_sys_dup.
  - apply triple_sys_open.
  - apply triple_sys_close.
Qed.
End Dispatch.

Section System.
Context {S H : Type} `{!TxOps S} `{!OpOps S} `{!UartDev H}.
Local Abbreviation K := (kstate S (condev (H := H))).
Context (kend trampoline forkret : Z) (pad stack_name : list Z).
(** The dispatcher with the console behind [devsw]. *)
Definition system_call : M K unit := syscall kend trampoline forkret devsw_read devsw_write pad stack_name.


End System.

(** The call [dup(0)] of the example. *)
Definition sx_call : M (kstate mstore (condev (H := wire))) unit := system_call ex_kend 0 0 [] [].
Lemma sx_returns : match sx_call sx with Ok _ _ => True | _ => False end.
Proof. vm_compute. exact I. Qed.


