(* ===== verification/Grep.v ===== *)
(** * grep (user/grep.c)

    The regular-expression matcher and the line loop.  A C string is the list of
    its characters without the NUL; [s[i]] is [nth i s 0], so the terminator is
    read as 0.  [matchhere] and [matchstar] call each other: a call takes one
    unit of fuel.  The theorems: the matcher decides the language of the pattern and
    always returns; [grep] prints exactly the matching lines, however the input
    arrives. *)

From stdpp Require Import base list.
From Stdlib Require Import ZArith Lia.
From S2P Require Import Prelude.
Open Scope Z_scope.


Definition CARET : Z := 94.
Definition DOLLAR : Z := 36.
Definition PERIOD : Z := 46.
Definition STAR : Z := 42.
Definition NEWLINE : Z := 10.

(** [s[i]]. *)
Definition ch (s : list Z) (i : nat) : Z := nth i s 0.

(** Whether the regular expression matches at the beginning of the text;
    [None] when the fuel is used up. *)
Fixpoint matchhere (re text : list Z) (fuel : nat) : option bool :=
  match fuel with
  | O => None
  | S fuel =>
      if ch re 0 =? 0 then Some true
      else if ch re 1 =? STAR then matchstar (ch re 0) (drop 2 re) text fuel
      else if (ch re 0 =? DOLLAR) && (ch re 1 =? 0) then Some (ch text 0 =? 0)
      else if negb (ch text 0 =? 0) && ((ch re 0 =? PERIOD) || (ch re 0 =? ch text 0))
      then matchhere (drop 1 re) (drop 1 text) fuel
      else Some false
  end
with matchstar (c : Z) (re text : list Z) (fuel : nat) : option bool :=
  match fuel with
  | O => None
  | S fuel =>
      match matchhere re text fuel with
      | None => None
      | Some true => Some true
      | Some false =>
          if negb (ch text 0 =? 0) && ((ch text 0 =? c) || (c =? PERIOD))
          then matchstar c re (drop 1 text) fuel
          else Some false
      end
  end.

(** The loop of [match] over the positions of the text. *)
Fixpoint match_loop (re text : list Z) (fuel : nat) : option bool :=
  match fuel with
  | O => None
  | S fuel =>
      match matchhere re text fuel with
      | None => None
      | Some true => Some true
      | Some false => if ch text 0 =? 0 then Some false else match_loop re (drop 1 text) fuel
      end
  end.
Definition match_re (re text : list Z) (fuel : nat) : option bool :=
  if ch re 0 =? CARET then matchhere (drop 1 re) text fuel else match_loop re text fuel.
(** Enough for any pattern and text: see [match_correct]. *)
Definition match_fuel (re text : list Z) : nat := length re + length text + 2.
Definition match_ (re text : list Z) : bool := default false (match_re re text (match_fuel re text)).

(** [strchr(s, c)]: the offset of the first [c] before the NUL. *)
Fixpoint strchr (s : list Z) (c : Z) : option nat :=
  match s with
  | [] => None
  | x :: s => if x =? 0 then None else if x =? c then Some O else S <$> strchr s c
  end.

(** The inner loop of [grep]: the bytes written, and what is left from [p] on. *)
Fixpoint grep_lines (pattern b : list Z) (fuel : nat) : list Z * list Z :=
  match fuel with
  | O => ([], b)
  | S fuel =>
      match strchr b NEWLINE with
      | None => ([], b)
      | Some q =>
          let line := take q b in
          let out := if match_ pattern line then line ++ [NEWLINE] else [] in
          let '(out', rest) := grep_lines pattern (drop (q + 1) b) fuel in
          (out ++ out', rest)
      end
  end.

(** [read(fd, dst, n)] at the front of the input: some of the bytes, at least
    one unless [n] is 0 or the input is at its end; [want] decides how many. *)
Definition read_some (want n : nat) (input : list Z) : list Z := take (Nat.min n (Nat.max 1 want)) input.

Definition bufsize : nat := Z.to_nat 1024.

(** [grep]: [b] is [buf[0 .. m)]; [wants] decides how much each [read] returns.
    The bytes written to descriptor 1. *)
Fixpoint grep (pattern b input : list Z) (wants : list nat) (fuel : nat) : option (list Z) :=
  match fuel with
  | O => None
  | S fuel =>
      let got := read_some (hd bufsize wants) (bufsize - length b - 1) input in
      match got with
      | [] => Some []
      | _ =>
          let b := b ++ got in
          let '(out, rest) := grep_lines pattern b (length b + 1) in
          match grep pattern rest (drop (length got) input) (tl wants) fuel with
          | None => None
          | Some out' => Some (out ++ out')
          end
      end
  end.

(** ** Correctness of grep

    The matcher decides the language of the pattern and always returns; [grep]
    prints exactly the matching lines, however the input arrives. *)


(** ** What a pattern means *)

Inductive atom := Any | Lit (c : Z).
Inductive item := One (a : atom) | Many (a : atom) | Eol.

Definition atom_of (c : Z) : atom := if c =? PERIOD then Any else Lit c.
Definition fits (a : atom) (c : Z) : Prop := match a with Any => True | Lit x => c = x end.

(** The pattern after an optional [^]: a character followed by [*] is repeated,
    a [$] at the very end is the end of the text. *)
Fixpoint parse (re : list Z) : list item :=
  match re with
  | [] => []
  | c :: r =>
      match r with
      | [] => if c =? DOLLAR then [Eol] else [One (atom_of c)]
      | s :: r' => if s =? STAR then Many (atom_of c) :: parse r' else One (atom_of c) :: parse r
      end
  end.

(** The texts that begin with a match. *)
Inductive sem : list item -> list Z -> Prop :=
  | sem_nil t : sem [] t
  | sem_one a l c t : fits a c -> sem l t -> sem (One a :: l) (c :: t)
  | sem_many a l s t : Forall (fits a) s -> sem l t -> sem (Many a :: l) (s ++ t)
  | sem_eol : sem [Eol] [].
Create HintDb grep discriminated.
#[export] Hint Constructors sem : grep.

Definition matches (re text : list Z) : Prop :=
  match re with
  | [] => True
  | c :: r => if c =? CARET then sem (parse r) text else exists pre suf, text = pre ++ suf /\ sem (parse re) suf
  end.

(** C strings have no NUL. *)
Abbreviation cstr := (Forall (fun c : Z => c <> 0)).

Lemma sem_one_inv a l t : sem (One a :: l) t -> exists c t', t = c :: t' /\ fits a c /\ sem l t'.
Proof. inversion 1; subst; eauto. Qed.
Lemma sem_many_inv a l t : sem (Many a :: l) t <-> sem l t \/ exists c t', t = c :: t' /\ fits a c /\ sem (Many a :: l) t'.
Proof.
  split.
  - inversion 1 as [| |? ? s t' Hs Ht|]; subst. destruct Hs as [|c s Hc Hs]; [by left|]. right. exists c, (s ++ t'). split_and!; [done|done|]. by constructor.
  - intros [H|(c & t' & -> & Hc & H)]; [by apply (sem_many a l [] t)|]. inversion H as [| |? ? s t Hs Ht|]; subst.
    apply (sem_many a l (c :: s) t); [by constructor|done].
Qed.
Lemma fits_char c x : fits (atom_of c) x <-> (x =? c) || (c =? PERIOD) = true.
Proof.
  unfold atom_of. destruct (Z.eqb_spec c PERIOD); cbn; [by rewrite orb_true_r|]. rewrite orb_false_r. destruct (Z.eqb_spec x c); naive_solver.
Qed.

(** ** The matcher *)

(** The matcher returned [b], which says whether [P]. *)
Definition answers (o : option bool) (P : Prop) : Prop := exists b, o = Some b /\ (b = true <-> P).
Lemma answers_iff o (P Q : Prop) : answers o P -> (P <-> Q) -> answers o Q.
Proof. intros (b & -> & Hb) HPQ. exists b. split; [done|tauto]. Qed.

(** What the two functions answer on the texts and patterns that [fuel] is
    enough for. *)
Definition here_ok (fuel : nat) : Prop := forall re text, cstr re -> cstr text -> (length re + length text + 1 <= fuel)%nat ->
  answers (matchhere re text fuel) (sem (parse re) text).
Definition star_ok (fuel : nat) : Prop := forall c re text, c <> 0 -> cstr re -> cstr text -> (length re + length text + 2 <= fuel)%nat ->
  answers (matchstar c re text fuel) (sem (Many (atom_of c) :: parse re) text).

(** A single character. *)
Lemma one_step c r text fuel : here_ok fuel -> cstr r -> cstr text -> (length r + length text <= fuel)%nat ->
  answers (if negb (ch text 0 =? 0) && ((c =? PERIOD) || (c =? ch text 0)) then matchhere r (drop 1 text) fuel else Some false)
    (sem (One (atom_of c) :: parse r) text).
Proof.
  intros IH Hr Htext Hlen. unfold ch. destruct text as [|x t]; cbn [nth drop]; rewrite ?drop_0.
  - exists false. split; [done|]. split; [done|intros (? & ? & ? & _)%sem_one_inv; done].
  - apply Forall_cons in Htext as [Hx Ht]. destruct (Z.eqb_spec x 0); [done|]. cbn [negb andb]. rewrite orb_comm, (Z.eqb_sym c x).
    pose proof (fits_char c x) as Hf. destruct ((x =? c) || (c =? PERIOD)).
    + eapply answers_iff; [apply IH; [done|done|cbn in Hlen; lia]|]. split; [intros H; constructor; tauto|].
      by intros (? & ? & [= <- <-] & _ & H)%sem_one_inv.
    + exists false. split; [done|]. split; [done|]. intros (? & ? & [= <- <-] & H & _)%sem_one_inv. tauto.
Qed.

Lemma matchhere_step fuel : here_ok fuel -> star_ok fuel -> here_ok (S fuel).
Proof.
  intros IHh IHs re text Hre Htext Hlen. cbn [matchhere]. unfold ch at 1 2 3 4 5. destruct re as [|c [|s r]]; cbn [nth drop]; rewrite ?drop_0.
  - exists true. split; [done|]. split; [intros _; constructor|done].
  - apply Forall_cons in Hre as [Hc _]. destruct (Z.eqb_spec c 0); [done|]. cbn [parse]. change (0 =? STAR) with false. cbv iota.
    rewrite andb_true_r. destruct (c =? DOLLAR); [|apply (one_step c []); [done|done|done|cbn in *; lia]].
    unfold ch. destruct text as [|x t]; cbn [nth]; [exists true; split; [done|split; [constructor|done]]|]. apply Forall_cons in Htext as [Hx _].
    destruct (Z.eqb_spec x 0); [done|]. exists false. split; [done|]. split; [done|inversion 1].
  - apply Forall_cons in Hre as [Hc Hre]. destruct (Z.eqb_spec c 0); [done|]. pose proof Hre as [Hs Hr]%Forall_cons. cbn [parse]. cbn [length] in Hlen.
    destruct (s =? STAR); [apply IHs; [done|done|done|lia]|]. destruct (Z.eqb_spec s 0); [done|]. rewrite andb_false_r.
    apply one_step; [done|done|done|cbn [length]; lia].
Qed.

Lemma matchstar_step fuel : here_ok fuel -> star_ok fuel -> star_ok (S fuel).
Proof.
  intros IHh IHs c re text Hc Hre Htext Hlen. cbn [matchstar]. destruct (IHh re text Hre Htext ltac:(lia)) as (b & -> & Hb).
  destruct b; [exists true; split; [done|]; rewrite sem_many_inv; tauto|]. unfold ch. destruct text as [|x t]; cbn [nth drop]; rewrite ?drop_0.
  - exists false. split; [done|]. rewrite sem_many_inv. split; [done|]. intros [H|(? & ? & ? & _)]; [tauto|done].
  - apply Forall_cons in Htext as [Hx Ht]. destruct (Z.eqb_spec x 0); [done|]. cbn [negb andb]. pose proof (fits_char c x) as Hf.
    destruct ((x =? c) || (c =? PERIOD)).
    + eapply answers_iff; [apply IHs; [done|done|done|cbn in Hlen; lia]|]. rewrite (sem_many_inv _ _ (x :: t)). split; [intros H; right; exists x, t; tauto|].
      intros [H|(? & ? & [= <- <-] & _ & H)]; [apply Hb in H; done|done].
    + exists false. split; [done|]. rewrite sem_many_inv. split; [done|]. intros [H|(? & ? & [= <- <-] & H & _)]; tauto.
Qed.

Lemma matchers_ok fuel : here_ok fuel /\ star_ok fuel.
Proof.
  induction fuel as [|fuel [IHh IHs]]; [split; repeat intro; lia|]. split; [by apply matchhere_step|by apply matchstar_step].
Qed.

Lemma match_loop_ok re fuel : forall text, cstr re -> cstr text -> (length re + length text + 2 <= fuel)%nat ->
  answers (match_loop re text fuel) (exists pre suf, text = pre ++ suf /\ sem (parse re) suf).
Proof.
  induction fuel as [|fuel IH]; intros text Hre Htext Hlen; [lia|]. cbn [match_loop].
  destruct (proj1 (matchers_ok fuel) re text Hre Htext ltac:(lia)) as (b & -> & Hb).
  destruct b; [exists true; split; [done|]; split; [|done]; intros _; exists [], text; tauto|]. unfold ch. destruct text as [|x t]; cbn [nth drop]; rewrite ?drop_0.
  - exists false. split; [done|]. split; [done|]. intros (pre & suf & E & H). symmetry in E. apply app_nil in E as [-> ->]. tauto.
  - apply Forall_cons in Htext as [Hx Ht]. destruct (Z.eqb_spec x 0); [done|]. eapply answers_iff; [apply IH; [done|done|cbn in Hlen; lia]|].
    split; intros (pre & suf & E & H); [exists (x :: pre), suf; by rewrite E|].
    destruct pre as [|y pre]; [cbn in E; subst suf; by apply Hb in H|]. injection E as <- ->. by exists pre, suf.
Qed.

(** C37: the matcher returns for every pattern and every text, within a number of nested calls linear in their lengths,
    and answers whether the text contains a match: [^] and [$] anchor, [.] is any character, [c*] is any number of [c]. *)
Theorem match_correct re text : cstr re -> cstr text -> match_re re text (match_fuel re text) = Some (match_ re text) /\ (match_ re text = true <-> matches re text).
Proof.
  intros Hre Htext. assert (H : answers (match_re re text (match_fuel re text)) (matches re text)).
  { unfold match_re, matches, match_fuel, ch. destruct re as [|c r]; cbn [nth drop]; rewrite ?drop_0.
    - eapply answers_iff; [apply match_loop_ok; [done|done|cbn; lia]|]. split; [done|]. intros _. exists [], text. split; [done|constructor].
    - pose proof Hre as [_ Hr]%Forall_cons. destruct (c =? CARET); [|apply match_loop_ok; [done|done|cbn; lia]].
      apply (proj1 (matchers_ok _)); [done|done|cbn; lia]. }
  destruct H as (b & E & Hb). unfold match_. rewrite E. cbn. done.
Qed.

Lemma match_correct_witness : match_ [94; 97; 42; 98; 36] [97; 97; 98] = true /\ matches [94; 97; 42; 98; 36] [97; 97; 98].
Proof.
  assert (E : match_ [94; 97; 42; 98; 36] [97; 97; 98] = true) by reflexivity. split; [exact E|].
  apply (match_correct [94; 97; 42; 98; 36] [97; 97; 98]); [repeat constructor; discriminate|repeat constructor; discriminate|exact E].
Defined.

(** ** The line loop *)

(** The complete lines of an input of which [cur] has been read. *)
Fixpoint lines (cur input : list Z) : list (list Z) :=
  match input with
  | [] => []
  | c :: r => if c =? NEWLINE then cur :: lines [] r else lines (cur ++ [c]) r
  end.
Definition shown (pattern line : list Z) : list Z := if match_ pattern line then line ++ [NEWLINE] else [].
Definition printed (pattern : list Z) (ls : list (list Z)) : list Z := mjoin (shown pattern <$> ls).

Lemma printed_cons pattern l ls : printed pattern (l :: ls) = shown pattern l ++ printed pattern ls.
Proof. done. Qed.
Lemma printed_app pattern ls ls' : printed pattern (ls ++ ls') = printed pattern ls ++ printed pattern ls'.
Proof. unfold printed. by rewrite fmap_app, join_app. Qed.

Lemma lines_none cur a b : NEWLINE ∉ a -> lines cur (a ++ b) = lines (cur ++ a) b.
Proof.
  revert cur. induction a as [|c a IH]; intros cur Ha; cbn [app lines]; [by rewrite app_nil_r|]. apply not_elem_of_cons in Ha as [Hc Ha].
  destruct (Z.eqb_spec c NEWLINE); [congruence|]. rewrite IH by done. by rewrite <- app_assoc.
Qed.
Lemma lines_newline cur a b : NEWLINE ∉ a -> lines cur (a ++ NEWLINE :: b) = (cur ++ a) :: lines [] b.
Proof. intros Ha. rewrite lines_none by done. reflexivity. Qed.

Lemma strchr_ok s : cstr s -> match strchr s NEWLINE with
  | Some q => exists a b, s = a ++ NEWLINE :: b /\ length a = q /\ NEWLINE ∉ a
  | None => NEWLINE ∉ s end.
Proof.
  induction 1 as [|x s Hx Hs IH]; cbn [strchr]; [apply not_elem_of_nil|]. destruct (Z.eqb_spec x 0); [done|].
  destruct (Z.eqb_spec x NEWLINE) as [->|Hn]; [by exists [], s; split_and!; [done|done|apply not_elem_of_nil]|].
  destruct (strchr s NEWLINE) as [q|]; cbn; [|apply not_elem_of_cons; auto]. destruct IH as (a & b & -> & <- & Ha). exists (x :: a), b.
  split_and!; [done|done|]. apply not_elem_of_cons; auto.
Qed.

(** The inner loop prints the complete lines of the buffer and leaves the rest. *)
Lemma grep_lines_ok pattern fuel : forall b, cstr b -> (length b < fuel)%nat ->
  exists ls rest, grep_lines pattern b fuel = (printed pattern ls, rest) /\ NEWLINE ∉ rest /\ cstr rest /\
    forall x, lines [] (b ++ x) = ls ++ lines rest x.
Proof.
  induction fuel as [|fuel IH]; intros b Hb Hf; [lia|]. cbn [grep_lines]. pose proof (strchr_ok b Hb) as Hq.
  destruct (strchr b NEWLINE) as [q|].
  - destruct Hq as (a & r & -> & <- & Ha). rewrite take_app_length. replace (length a + 1)%nat with (length (a ++ [NEWLINE])) by (rewrite length_app; done).
    rewrite (cons_middle NEWLINE a r), app_assoc, drop_app_length in *. apply Forall_app in Hb as [_ Hr].
    destruct (IH r Hr) as (ls & rest & -> & Hn & Hrest & Hx); [rewrite !length_app in Hf; cbn in Hf; lia|].
    exists (a :: ls), rest. split_and!; [done|done|done|]. intros x. rewrite <- !app_assoc. cbn [app]. rewrite lines_newline, Hx by done. done.
  - exists [], b. split_and!; [done|done|done|]. intros x. by apply (lines_none []).
Qed.

Lemma lines_long b input : Forall (fun l => (length l < length b)%nat) (lines b input) -> lines b input = [].
Proof.
  assert (Hlen : forall cur, match lines cur input with [] => True | l :: _ => (length cur <= length l)%nat end).
  { induction input as [|c input IH]; intros cur; cbn [lines]; [done|]. destruct (c =? NEWLINE); [done|]. specialize (IH (cur ++ [c])).
    destruct (lines _ _); [done|]. rewrite length_app in IH. cbn in IH. lia. }
  specialize (Hlen b). destruct (lines b input); [done|]. intros [H _]%Forall_cons. lia.
Qed.

Lemma grep_ok pattern fuel : forall b input wants, cstr (b ++ input) -> NEWLINE ∉ b -> Forall (fun l => (length l < bufsize - 1)%nat) (lines b input) ->
  (length input < fuel)%nat -> grep pattern b input wants fuel = Some (printed pattern (lines b input)).
Proof.
  induction fuel as [|fuel IH]; intros b input wants Hc Hb Hs Hf; [lia|]. cbn [grep]. unfold read_some.
  set (n := Nat.min (bufsize - length b - 1) (Nat.max 1 (hd bufsize wants))). destruct (take n input) as [|c g] eqn:Hgot.
  - assert (E : lines b input = []); [|by rewrite E]. apply take_nil_inv in Hgot as [Hn| ->]; [|done]. apply lines_long.
    eapply Forall_impl; [exact Hs|]. cbn. lia.
  - rewrite <- Hgot. set (got := take n input) in *. assert (Hin : got ++ drop (length got) input = input).
    { unfold got. rewrite length_take. destruct (Nat.le_ge_cases n (length input)); [rewrite Nat.min_l by done; apply take_drop|].
      rewrite Nat.min_r by done. rewrite (take_ge input n), drop_all, app_nil_r by done. done. }
    rewrite <- Hin in Hc, Hs |- * at 1. rewrite app_assoc in Hc. pose proof Hc as [Hbg Hd]%Forall_app.
    destruct (grep_lines_ok pattern (length (b ++ got) + 1) (b ++ got) Hbg ltac:(lia)) as (ls & rest & -> & Hn & Hrest & Hx).
    specialize (Hx (drop (length got) input)). rewrite <- app_assoc, (lines_none [] b) in Hx by done. cbn [app] in Hx. rewrite Hx in Hs.
    apply Forall_app in Hs as [_ Hs]. rewrite IH; [|by apply Forall_app|done|done|].
    + rewrite ?Hin in Hx |- *. by rewrite Hx, printed_app.
    + rewrite <- Hin in Hf. rewrite length_app in Hf. assert (length got <> 0%nat) by (rewrite Hgot; done). lia.
Qed.

(** C38: [grep] writes exactly the lines of the input that match, in order and with their newlines, however the input is
    cut into reads, provided no line has [sizeof(buf) - 1] characters or more; a last line without newline is not
    considered. *)
Theorem grep_correct pattern input wants : cstr input -> Forall (fun l => (length l < bufsize - 1)%nat) (lines [] input) ->
  grep pattern [] input wants (length input + 1) = Some (printed pattern (lines [] input)).
Proof. intros Hc Hs. apply grep_ok; [done|apply not_elem_of_nil|done|lia]. Qed.

Lemma grep_correct_witness : grep [97] [] [97; 10; 98; 10; 97; 98; 10] [2; 1]%nat 8 = Some [97; 10; 97; 98; 10].
Proof.
  assert (H : cstr [97; 10; 98; 10; 97; 98; 10]) by (repeat constructor; discriminate).
  assert (Hs : Forall (fun l => (length l < bufsize - 1)%nat) (lines [] [97; 10; 98; 10; 97; 98; 10])) by (cbn; repeat constructor; cbn; unfold bufsize; lia).
  exact (grep_correct [97] [97; 10; 98; 10; 97; 98; 10] [2; 1]%nat H Hs).
Defined.

(** A line that fills the buffer stops [grep]: what follows is not read. *)
Lemma grep_long_line pattern b input wants : length b = (bufsize - 1)%nat -> grep pattern b input wants 1 = Some [].
Proof. intros Hb. cbn [grep]. unfold read_some. rewrite Hb. replace (bufsize - (bufsize - 1) - 1)%nat with O by lia. reflexivity. Qed.
