(* ===== verification/Virtio.v ===== *)
(** * The disk driver (kernel/virtio_disk.c, kernel/virtio.h)

    The descriptors, the rings and the driver's own book-keeping, the buffers
    that are read and written, and the requests: each is a call of
    [virtio_disk_rw] by some process.  The code between [acquire] (or a return
    from [sleep]) and [release] (or the next [sleep]) is one step.  A descriptor
    number is a [nat]; an address given to the device is the object it points
    to. *)

From stdpp Require Import base list gmap strings.
From Stdlib Require Import ZArith Lia.
From S2P Require Import Prelude Layout.
Open Scope Z_scope.

(** ** kernel/virtio.h *)

Definition NUM : nat := 8.
Definition VRING_DESC_F_NEXT : Z := 1.
Definition VRING_DESC_F_WRITE : Z := 2.
Definition VIRTIO_BLK_T_IN : Z := 0.
Definition VIRTIO_BLK_T_OUT : Z := 1.

Definition VIRTIO_MMIO_MAGIC_VALUE : Z := 0x000.
Definition VIRTIO_MMIO_VERSION : Z := 0x004.
Definition VIRTIO_MMIO_DEVICE_ID : Z := 0x008.
Definition VIRTIO_MMIO_VENDOR_ID : Z := 0x00c.
Definition VIRTIO_MMIO_DEVICE_FEATURES : Z := 0x010.
Definition VIRTIO_MMIO_DRIVER_FEATURES : Z := 0x020.
Definition VIRTIO_MMIO_GUEST_PAGE_SIZE : Z := 0x028.
Definition VIRTIO_MMIO_QUEUE_SEL : Z := 0x030.
Definition VIRTIO_MMIO_QUEUE_NUM_MAX : Z := 0x034.
Definition VIRTIO_MMIO_QUEUE_NUM : Z := 0x038.
Definition VIRTIO_MMIO_QUEUE_PFN : Z := 0x040.
Definition VIRTIO_MMIO_QUEUE_NOTIFY : Z := 0x050.
Definition VIRTIO_MMIO_INTERRUPT_ACK : Z := 0x064.
Definition VIRTIO_MMIO_STATUS : Z := 0x070.
Definition VIRTIO_CONFIG_S_ACKNOWLEDGE : Z := 1.
Definition VIRTIO_CONFIG_S_DRIVER : Z := 2.
Definition VIRTIO_CONFIG_S_DRIVER_OK : Z := 4.
Definition VIRTIO_CONFIG_S_FEATURES_OK : Z := 8.
Definition VIRTIO_BLK_F_RO : Z := 5.
Definition VIRTIO_BLK_F_SCSI : Z := 7.
Definition VIRTIO_BLK_F_CONFIG_WCE : Z := 11.
Definition VIRTIO_BLK_F_MQ : Z := 12.
Definition VIRTIO_F_ANY_LAYOUT : Z := 27.
Definition VIRTIO_RING_F_INDIRECT_DESC : Z := 28.
Definition VIRTIO_RING_F_EVENT_IDX : Z := 29.

(** What a descriptor's address points to: a command header, a buffer's data, a
    status byte. *)
Inductive dma := DNull | DOp (i : nat) | DData (b : nat) | DStatus (i : nat).
Record virtq_desc := mk_desc { d_addr : dma; d_len : Z; d_flags : Z; d_next : nat }.
Definition desc0 : virtq_desc := mk_desc DNull 0 0 0.
Record virtio_blk_req := mk_blk { r_type : Z; r_reserved : Z; r_sector : Z }.
Definition blk0 : virtio_blk_req := mk_blk 0 0 0.

(** ** The driver's state *)

(** [struct buf]: the fields the driver uses. *)
Record vbuf := mk_vbuf { vb_blockno : Z; vb_disk : Z; vb_data : list Z }.
Definition vbuf0 : vbuf := mk_vbuf 0 0 [].
(** [info[i]]. *)
Record vinfo := mk_info { in_b : option nat; in_status : Z }.
Definition info0 : vinfo := mk_info None 0.

(** What the callers of [virtio_disk_rw] sleep on: [&disk.free[0]], a buffer. *)
Inductive vchan := ChFree | ChBuf (b : nat).
#[export] Instance vchan_eq_dec : EqDecision vchan.
Proof. solve_decision. Defined.

(** Where a call is: before the descriptors are allocated, waiting for the
    request whose chain begins at descriptor [idx[0]], returned. *)
Inductive rpc := Begin | Waiting (idx0 : nat) | Finished.
Record req := mk_req { q_b : nat; q_write : bool; q_pc : rpc; q_sleep : option vchan }.
Definition set_pc (p : rpc) (r : req) : req := mk_req (q_b r) (q_write r) p (q_sleep r).
Definition set_sleep (c : option vchan) (r : req) : req := mk_req (q_b r) (q_write r) (q_pc r) c.
Definition req0 : req := mk_req 0 false Finished None.

Record vdisk := mk_vdisk {
  desc : list virtq_desc;
  avail_idx : Z;
  avail_ring : list nat;
  used_ring_idx : Z;          (* disk.used->idx, written by the device *)
  used_ring : list nat;
  free : list bool;
  used_idx : Z;
  info : list vinfo;
  ops : list virtio_blk_req;
  bufs : list vbuf;
  reqs : list req;
  mmio : list (Z * Z);        (* the register writes so far, the last one first *)
}.
Definition set_desc v s := mk_vdisk v (avail_idx s) (avail_ring s) (used_ring_idx s) (used_ring s) (free s) (used_idx s) (info s) (ops s) (bufs s) (reqs s) (mmio s).
Definition set_avail i r s := mk_vdisk (desc s) i r (used_ring_idx s) (used_ring s) (free s) (used_idx s) (info s) (ops s) (bufs s) (reqs s) (mmio s).
Definition set_used i r s := mk_vdisk (desc s) (avail_idx s) (avail_ring s) i r (free s) (used_idx s) (info s) (ops s) (bufs s) (reqs s) (mmio s).
Definition set_free v s := mk_vdisk (desc s) (avail_idx s) (avail_ring s) (used_ring_idx s) (used_ring s) v (used_idx s) (info s) (ops s) (bufs s) (reqs s) (mmio s).
Definition set_used_idx v s := mk_vdisk (desc s) (avail_idx s) (avail_ring s) (used_ring_idx s) (used_ring s) (free s) v (info s) (ops s) (bufs s) (reqs s) (mmio s).
Definition set_info v s := mk_vdisk (desc s) (avail_idx s) (avail_ring s) (used_ring_idx s) (used_ring s) (free s) (used_idx s) v (ops s) (bufs s) (reqs s) (mmio s).
Definition set_ops v s := mk_vdisk (desc s) (avail_idx s) (avail_ring s) (used_ring_idx s) (used_ring s) (free s) (used_idx s) (info s) v (bufs s) (reqs s) (mmio s).
Definition set_bufs v s := mk_vdisk (desc s) (avail_idx s) (avail_ring s) (used_ring_idx s) (used_ring s) (free s) (used_idx s) (info s) (ops s) v (reqs s) (mmio s).
Definition set_reqs v s := mk_vdisk (desc s) (avail_idx s) (avail_ring s) (used_ring_idx s) (used_ring s) (free s) (used_idx s) (info s) (ops s) (bufs s) v (mmio s).
Definition set_mmio v s := mk_vdisk (desc s) (avail_idx s) (avail_ring s) (used_ring_idx s) (used_ring s) (free s) (used_idx s) (info s) (ops s) (bufs s) (reqs s) v.

Local Abbreviation V := (M vdisk).
Definition desc_at (s : vdisk) (i : nat) : virtq_desc := nth i (desc s) desc0.
Definition info_at (s : vdisk) (i : nat) : vinfo := nth i (info s) info0.
Definition op_at (s : vdisk) (i : nat) : virtio_blk_req := nth i (ops s) blk0.
Definition buf_at (s : vdisk) (b : nat) : vbuf := nth b (bufs s) vbuf0.
Definition req_at (s : vdisk) (t : nat) : req := nth t (reqs s) req0.

(** [sleep(chan, &disk.vdisk_lock)] by the call [t]; [wakeup(chan)]. *)
Definition vsleep (t : nat) (c : vchan) : V unit := modifyM (fun s => set_reqs (alter (set_sleep (Some c)) t (reqs s)) s).
Definition vwake (c : vchan) (r : req) : req := if decide (q_sleep r = Some c) then set_sleep None r else r.
Definition vwakeup (c : vchan) : V unit := modifyM (fun s => set_reqs (vwake c <$> reqs s) s).

(** [*R(r) = v]. *)
Definition put_reg (r v : Z) : V unit := modifyM (fun s => set_mmio ((r, u32 v) :: mmio s) s).

(** ** Initialisation *)

Section Init.
(** What reading a register gives, after the writes so far. *)
Context (R : list (Z * Z) -> Z -> Z).
Definition get_reg (r : Z) : V Z := getM (fun s => R (mmio s) r).

Definition features_mask (f : Z) : Z :=
  fold_left (fun f bit => Z.land f (Z.lnot (Z.shiftl 1 bit)))
    [VIRTIO_BLK_F_RO; VIRTIO_BLK_F_SCSI; VIRTIO_BLK_F_CONFIG_WCE; VIRTIO_BLK_F_MQ; VIRTIO_F_ANY_LAYOUT;
     VIRTIO_RING_F_EVENT_IDX; VIRTIO_RING_F_INDIRECT_DESC] f.

(** [pages] is the address of [disk.pages]; [memset] clears the three regions. *)
Definition virtio_disk_init (pages : Z) : V unit :=
  let! magic := get_reg VIRTIO_MMIO_MAGIC_VALUE in
  let! version := get_reg VIRTIO_MMIO_VERSION in
  let! device := get_reg VIRTIO_MMIO_DEVICE_ID in
  let! vendor := get_reg VIRTIO_MMIO_VENDOR_ID in
  if negb (magic =? 0x74726976) || negb (version =? 1) || negb (device =? 2) || negb (vendor =? 0x554d4551)
  then panicM "could not find virtio disk"
  else
    let status := Z.lor 0 VIRTIO_CONFIG_S_ACKNOWLEDGE in
    do! put_reg VIRTIO_MMIO_STATUS status in
    let status := Z.lor status VIRTIO_CONFIG_S_DRIVER in
    do! put_reg VIRTIO_MMIO_STATUS status in
    let! features := get_reg VIRTIO_MMIO_DEVICE_FEATURES in
    do! put_reg VIRTIO_MMIO_DRIVER_FEATURES (features_mask features) in
    let status := Z.lor status VIRTIO_CONFIG_S_FEATURES_OK in
    do! put_reg VIRTIO_MMIO_STATUS status in
    let status := Z.lor status VIRTIO_CONFIG_S_DRIVER_OK in
    do! put_reg VIRTIO_MMIO_STATUS status in
    do! put_reg VIRTIO_MMIO_GUEST_PAGE_SIZE PGSIZE in
    do! put_reg VIRTIO_MMIO_QUEUE_SEL 0 in
    let! max := get_reg VIRTIO_MMIO_QUEUE_NUM_MAX in
    if max =? 0 then panicM "virtio disk has no queue 0"
    else if max <? Z.of_nat NUM then panicM "virtio disk max queue too short"
    else
      do! put_reg VIRTIO_MMIO_QUEUE_NUM (Z.of_nat NUM) in
      do! modifyM (fun s => set_used 0 (replicate NUM 0%nat) (set_avail 0 (replicate NUM 0%nat) (set_desc (replicate NUM desc0) s))) in
      do! put_reg VIRTIO_MMIO_QUEUE_PFN (Z.shiftr pages PGSHIFT) in
      for_each (seq 0 NUM) (fun i => modifyM (fun s => set_free (<[i := true]> (free s)) s)).
End Init.

(** Where [disk.desc], [disk.avail] and [disk.used] point. *)
Definition disk_desc (pages : Z) : Z := pages.
Definition disk_avail (pages : Z) : Z := pages + Z.of_nat NUM * 16.
Definition disk_used (pages : Z) : Z := pages + PGSIZE.

(** ** Descriptors *)

(** The scan of [alloc_desc] from descriptor [i]. *)
Fixpoint alloc_desc_loop (l : list bool) (i : nat) : option nat :=
  match l with
  | [] => None
  | b :: l => if b : bool then Some i else alloc_desc_loop l (S i)
  end.
Definition alloc_desc : V (option nat) :=
  let! fr := getM free in
  match alloc_desc_loop fr 0 with
  | Some i =>
      do! modifyM (fun s => set_free (<[i := false]> (free s)) s) in
      retM (Some i)
  | None => retM None
  end.

Definition free_desc (i : nat) : V unit :=
  if decide (NUM <= i)%nat then panicM "free_desc 1"
  else
    let! f := getM (fun s => nth i (free s) false) in
    if f : bool then panicM "free_desc 2"
    else
      do! modifyM (fun s => set_desc (<[i := desc0]> (desc s)) s) in
      do! modifyM (fun s => set_free (<[i := true]> (free s)) s) in
      vwakeup ChFree.

Fixpoint free_chain (i : nat) (fuel : nat) : V unit :=
  match fuel with
  | O => fun _ => NoFuel
  | S fuel =>
      let! d := getM (fun s => desc_at s i) in
      do! free_desc i in
      if negb (Z.land (d_flags d) VRING_DESC_F_NEXT =? 0) then free_chain (d_next d) fuel else retM tt
  end.

(** [alloc3_desc] with the descriptors found so far. *)
Fixpoint alloc3_loop (n : nat) (idx : list nat) : V (option (list nat)) :=
  match n with
  | O => retM (Some idx)
  | S n =>
      let! i := alloc_desc in
      match i with
      | Some i => alloc3_loop n (idx ++ [i])
      | None =>
          do! for_each idx free_desc in
          retM None
      end
  end.
Definition alloc3_desc : V (option (list nat)) := alloc3_loop 3 [].

(** ** Requests *)

Definition put_desc (i : nat) (d : virtq_desc) : V unit := modifyM (fun s => set_desc (<[i := d]> (desc s)) s).

(** The command, the three descriptors and the book-keeping of a request with
    descriptors [i0], [i1], [i2], and its place in the ring. *)
Definition submit (b : nat) (write : bool) (i0 i1 i2 : nat) : V unit :=
  let! bb := getM (fun s => buf_at s b) in
  let sector := u32 (vb_blockno bb * 2) in
  do! modifyM (fun s => set_ops (<[i0 := mk_blk (if write then VIRTIO_BLK_T_OUT else VIRTIO_BLK_T_IN) 0 sector]> (ops s)) s) in
  do! put_desc i0 (mk_desc (DOp i0) 16 VRING_DESC_F_NEXT i1) in
  do! put_desc i1 (mk_desc (DData b) 1024 (Z.lor (if write then 0 else VRING_DESC_F_WRITE) VRING_DESC_F_NEXT) i2) in
  do! modifyM (fun s => set_info (alter (fun x => mk_info (in_b x) 0xff) i0 (info s)) s) in
  do! put_desc i2 (mk_desc (DStatus i0) 1 VRING_DESC_F_WRITE 0) in
  do! modifyM (fun s => set_bufs (alter (fun x => mk_vbuf (vb_blockno x) 1 (vb_data x)) b (bufs s)) s) in
  do! modifyM (fun s => set_info (alter (fun x => mk_info (Some b) (in_status x)) i0 (info s)) s) in
  do! modifyM (fun s => set_avail (avail_idx s) (<[Z.to_nat (avail_idx s mod Z.of_nat NUM) := i0]> (avail_ring s)) s) in
  do! modifyM (fun s => set_avail (u16 (avail_idx s + 1)) (avail_ring s) s) in
  put_reg VIRTIO_MMIO_QUEUE_NOTIFY 0.

(** [while(b->disk == 1) sleep(b, ...)] and what follows it, by call [t]. *)
Definition rw_wait (t b i0 : nat) : V unit :=
  let! bb := getM (fun s => buf_at s b) in
  if vb_disk bb =? 1 then vsleep t (ChBuf b)
  else
    do! modifyM (fun s => set_info (alter (fun x => mk_info None (in_status x)) i0 (info s)) s) in
    do! free_chain i0 (NUM + 1) in
    modifyM (fun s => set_reqs (alter (set_pc Finished) t (reqs s)) s).

(** One step of call [t] of [virtio_disk_rw], from where it is to its next sleep
    or its end. *)
Definition virtio_disk_rw (t : nat) : V unit :=
  let! r := getM (fun s => req_at s t) in
  match q_pc r with
  | Begin =>
      let! idx := alloc3_desc in
      match idx with
      | Some [i0; i1; i2] =>
          do! submit (q_b r) (q_write r) i0 i1 i2 in
          do! modifyM (fun s => set_reqs (alter (set_pc (Waiting i0)) t (reqs s)) s) in
          rw_wait t (q_b r) i0
      | Some _ => panicM "unreachable"
      | None => vsleep t ChFree
      end
  | Waiting i0 => rw_wait t (q_b r) i0
  | Finished => retM tt
  end.

(** The loop of [virtio_disk_intr]. *)
Fixpoint intr_loop (fuel : nat) : V unit :=
  match fuel with
  | O => fun _ => NoFuel
  | S fuel =>
      let! s := getM id in
      if used_idx s =? used_ring_idx s then retM tt
      else
        let i := nth (Z.to_nat (used_idx s mod Z.of_nat NUM)) (used_ring s) 0%nat in
        if negb (in_status (info_at s i) =? 0) then panicM "virtio_disk_intr status"
        else match in_b (info_at s i) with
        | None => panicM "null pointer"
        | Some b =>
            do! modifyM (fun s => set_bufs (alter (fun x => mk_vbuf (vb_blockno x) 0 (vb_data x)) b (bufs s)) s) in
            do! vwakeup (ChBuf b) in
            do! modifyM (fun s => set_used_idx (u16 (used_idx s + 1)) s) in
            intr_loop fuel
        end
  end.
(** [irq] is what [VIRTIO_MMIO_INTERRUPT_STATUS] holds. *)
Definition virtio_disk_intr (irq : Z) : V unit :=
  do! put_reg VIRTIO_MMIO_INTERRUPT_ACK (Z.land irq 0x3) in
  let! s := getM id in
  intr_loop (Z.to_nat (u16 (used_ring_idx s - used_idx s)) + 1).
