(* ===== verification/VirtioSpec.v ===== *)
(** * The disk driver: rings, descriptors, the device

    What a ring between driver and device holds, what allocating and freeing
    descriptors does, the device as the virtio specification describes it, and
    the system of calls, interrupts, device and buffer owners. *)

From stdpp Require Import base list gmap strings.
From Stdlib Require Import ZArith Lia.
From S2P Require Import Prelude Virtio.
Open Scope Z_scope.


(** ** Rings *)

(** The entries [q] of a ring between the indices [lo] and [hi]. *)
Record ring_ok (ring : list nat) (lo hi : Z) (q : list nat) : Prop := {
  ro_len : length ring = NUM;
  ro_lo : 0 <= lo < 2 ^ 16;
  ro_hi : hi = u16 (lo + Z.of_nat (length q));
  ro_room : (length q <= NUM)%nat;
  ro_entry : forall j x, q !! j = Some x -> nth (Z.to_nat ((lo + Z.of_nat j) mod 8)) ring 0%nat = x;
}.

Lemma mod8_u16 a b : (u16 a + b) mod 8 = (a + b) mod 8.
Proof. unfold u16. rewrite <- Z.add_mod_idemp_l by lia. rewrite <- (Z.add_mod_idemp_l a) by lia. f_equal. f_equal. change (2 ^ 16) with (8 * 2 ^ 13). rewrite Z.rem_mul_r by lia. rewrite Z.mul_comm, Z_mod_plus_full, Z.mod_mod by lia. done. Qed.

Lemma ring_empty ring lo hi : ring_ok ring lo hi [] -> lo = hi.
Proof. intros [_ Hlo -> _ _]. cbn. unfold u16. rewrite Z.add_0_r, Z.mod_small; lia. Qed.
Lemma ring_nonempty ring lo hi x q : ring_ok ring lo hi (x :: q) -> lo <> hi.
Proof. intros [_ Hlo -> Hr _]. unfold u16, NUM in *. cbn [length] in *. Z.div_mod_to_equations. lia. Qed.
Lemma ring_count ring lo hi q : ring_ok ring lo hi q -> Z.to_nat (u16 (hi - lo)) = length q.
Proof. intros [_ Hlo -> Hr _]. unfold u16, NUM in *. apply Nat2Z.inj. rewrite Z2Nat.id; Z.div_mod_to_equations; lia. Qed.

Lemma ring_pop ring lo hi x q : ring_ok ring lo hi (x :: q) ->
  nth (Z.to_nat (lo mod Z.of_nat NUM)) ring 0%nat = x /\ ring_ok ring (u16 (lo + 1)) hi q.
Proof.
  intros [Hl Hlo Hhi Hr He]. split; [rewrite <- (He 0%nat x eq_refl); by rewrite Z.add_0_r|].
  split; [done|unfold u16; apply Z.mod_pos_bound; lia| |cbn [length] in Hr; lia|].
  - rewrite Hhi. cbn [length]. unfold u16. rewrite Zplus_mod_idemp_l. f_equal. lia.
  - intros j y Hj. rewrite mod8_u16. rewrite <- (He (S j) y Hj). do 3 f_equal. lia.
Qed.
Lemma ring_push ring lo hi q x : ring_ok ring lo hi q -> (length q < NUM)%nat ->
  ring_ok (<[Z.to_nat (hi mod Z.of_nat NUM) := x]> ring) lo (u16 (hi + 1)) (q ++ [x]).
Proof.
  intros [Hl Hlo Hhi Hr He] Hq. unfold NUM in *. change (Z.of_nat 8) with 8.
  assert (Hm : hi mod 8 = (lo + Z.of_nat (length q)) mod 8) by (rewrite Hhi; rewrite <- (Z.add_0_r (u16 _)), mod8_u16; f_equal; lia).
  split; [by rewrite length_insert|done| |rewrite length_app; cbn; unfold NUM; lia|].
  - rewrite Hhi, length_app. cbn [length]. unfold u16. rewrite Zplus_mod_idemp_l. f_equal. lia.
  - intros j y Hj. rewrite nth_lookup, list_lookup_insert, Hm, Hl. pose proof (Z.mod_pos_bound (lo + Z.of_nat j) 8).
    pose proof (Z.mod_pos_bound (lo + Z.of_nat (length q)) 8). apply lookup_app_Some in Hj as [Hj|[Hge Hj]].
    + rewrite decide_False; [by rewrite <- nth_lookup; apply He|]. intros [E _]. apply lookup_lt_Some in Hj. apply Z2Nat.inj in E; [|lia..].
      Z.div_mod_to_equations. lia.
    + destruct (j - length q)%nat as [|?] eqn:Ej; [|done]. injection Hj as ->. replace j with (length q) by lia. rewrite decide_True; [done|]. split; [done|lia].
Qed.

(** ** Allocating and freeing *)

Fixpoint cnt (l : list bool) : nat :=
  match l with
  | [] => 0%nat
  | b :: l => ((if b : bool then 1 else 0) + cnt l)%nat
  end.
Lemma cnt_pos l i : l !! i = Some true -> (1 <= cnt l)%nat.
Proof. revert i. induction l as [|c l IH]; intros [|i] Hi; cbn in *; try done; [injection Hi as ->; lia|]. specialize (IH i Hi). lia. Qed.
Lemma cnt_insert l i : l !! i = Some true -> (cnt (<[i := false]> l) + 1 = cnt l)%nat.
Proof.
  revert i. induction l as [|c l IH]; intros [|i] Hi; [done|done|injection Hi as ->; cbn; lia|].
  change (<[S i := false]> (c :: l)) with (c :: <[i := false]> l). cbn [cnt]. specialize (IH i Hi). lia.
Qed.

Lemma alloc_loop_ok l : forall k, match alloc_desc_loop l k with
  | Some i => exists j, i = (k + j)%nat /\ l !! j = Some true
  | None => cnt l = 0%nat end.
Proof.
  induction l as [|b l IH]; intros k; cbn; [done|]. destruct b; [exists 0%nat; split; [lia|done]|]. specialize (IH (S k)).
  destruct (alloc_desc_loop l (S k)); [|done]. destruct IH as (j & -> & Hj). exists (S j). split; [lia|done].
Qed.

Section Alloc.
Implicit Types (s : vdisk).

Lemma alloc_desc_ok s :
  (exists i, free s !! i = Some true /\ alloc_desc s = Ok (Some i) (set_free (<[i := false]> (free s)) s)) \/
  (cnt (free s) = 0%nat /\ alloc_desc s = Ok None s).
Proof.
  unfold alloc_desc, bindM, getM. pose proof (alloc_loop_ok (free s) 0) as H. destruct (alloc_desc_loop (free s) 0) as [i|].
  - left. destruct H as (j & -> & Hj). by exists j.
  - by right.
Qed.

Definition woken_by (c : vchan) (rs rs' : list req) : Prop := rs' = rs \/ rs' = vwake c <$> rs.
Lemma vwake_idem c (rs : list req) : vwake c <$> (vwake c <$> rs) = vwake c <$> rs.
Proof.
  rewrite <- list_fmap_compose. apply list_fmap_ext. intros i r _. unfold compose, vwake. destruct (decide (q_sleep r = Some c)) as [E|E].
  - cbn. by rewrite decide_False.
  - by rewrite decide_False.
Qed.

(** The driver's state with other descriptors, free flags and requests. *)
Definition dfr (ds : list virtq_desc) (fr : list bool) (rs : list req) s : vdisk := set_reqs rs (set_free fr (set_desc ds s)).
Lemma free_desc_ok s i : (i < NUM)%nat -> length (free s) = NUM -> free s !! i = Some false ->
  free_desc i s = Ok tt (dfr (<[i := desc0]> (desc s)) (<[i := true]> (free s)) (vwake ChFree <$> reqs s) s).
Proof.
  intros Hi Hl Hf. unfold free_desc. rewrite decide_False by lia. unfold bindM, getM. rewrite nth_lookup, Hf. done.
Qed.

(** Freeing descriptors one after the other. *)
Definition set_all {A} (a : A) (l : list A) (idx : list nat) : list A := foldl (fun l i => <[i := a]> l) l idx.
Lemma length_set_all {A} (a : A) idx : forall l, length (set_all a l idx) = length l.
Proof. induction idx as [|i idx IH]; intros l; cbn; [done|]. unfold set_all in IH. by rewrite IH, length_insert. Qed.
Lemma lookup_set_all {A} (a : A) idx : forall l j, set_all a l idx !! j = if decide (j ∈ idx) then (fun _ => a) <$> l !! j else l !! j.
Proof.
  unfold set_all. induction idx as [|i idx IH]; intros l j; cbn [foldl]; [by rewrite decide_False by apply not_elem_of_nil|]. rewrite IH.
  destruct (decide (i = j)) as [<-|Hne].
  - rewrite (decide_True (P := i ∈ i :: idx)) by left. destruct (l !! i) as [x|] eqn:Hx.
    + rewrite list_lookup_insert_eq by (by eapply lookup_lt_Some). by case_decide.
    + rewrite list_insert_ge by (by apply lookup_ge_None_1). rewrite Hx. by case_decide.
  - rewrite list_lookup_insert_ne by done. rewrite (decide_ext (j ∈ i :: idx) (j ∈ idx)); [done|]. rewrite elem_of_cons. naive_solver.
Qed.
Definition after_free (idx : list nat) (rs : list req) : list req := match idx with [] => rs | _ => vwake ChFree <$> rs end.
Lemma free_all_ok idx : forall s, NoDup idx -> length (free s) = NUM -> Forall (fun i => (i < NUM)%nat /\ free s !! i = Some false) idx ->
  for_each idx free_desc s = Ok tt (dfr (set_all desc0 (desc s) idx) (set_all true (free s) idx) (after_free idx (reqs s)) s).
Proof.
  induction idx as [|i idx IH]; intros s Hnd Hl Hf; cbn [for_each]; [by destruct s|]. apply NoDup_cons in Hnd as [Hi Hnd].
  apply Forall_cons in Hf as [[Hlt Hfi] Hf]. erewrite bindM_ok by (by apply free_desc_ok). rewrite IH; [|done|cbn; by rewrite length_insert|].
  - destruct idx; [done|]. unfold dfr. cbn [after_free reqs set_reqs]. by rewrite vwake_idem.
  - apply Forall_forall. intros j Hj. rewrite Forall_forall in Hf. destruct (Hf j Hj) as [Hjl Hjf]. split; [done|]. cbn. rewrite list_lookup_insert_ne; [done|]. by intros ->.
Qed.

(** [alloc3_desc]: three free descriptors are taken, or fewer were free and all
    is as before, except that the sleepers are woken and free descriptors are
    cleared. *)
Lemma alloc3_ok s : length (free s) = NUM -> length (desc s) = NUM ->
  (exists i0 i1 i2, i0 <> i1 /\ i0 <> i2 /\ i1 <> i2 /\ free s !! i0 = Some true /\ free s !! i1 = Some true /\ free s !! i2 = Some true /\
     alloc3_desc s = Ok (Some [i0; i1; i2]) (set_free (<[i2 := false]> (<[i1 := false]> (<[i0 := false]> (free s)))) s)) \/
  ((cnt (free s) < 3)%nat /\ exists ds rs, length ds = NUM /\ (forall i, free s !! i = Some false -> ds !! i = desc s !! i) /\
     woken_by ChFree (reqs s) rs /\ alloc3_desc s = Ok None (dfr ds (free s) rs s)).
Proof.
  intros Hl Hd. unfold alloc3_desc. cbn [alloc3_loop app].
  assert (Hfail : forall idx, NoDup idx -> Forall (fun i => free s !! i = Some true) idx ->
    exists ds rs, length ds = NUM /\ (forall i, free s !! i = Some false -> ds !! i = desc s !! i) /\ woken_by ChFree (reqs s) rs /\
      bindM (for_each idx free_desc) (fun _ => retM None) (set_free (set_all false (free s) idx) s) = Ok (@None (list nat)) (dfr ds (free s) rs s)).
  { intros idx Hnd Hidx. exists (set_all desc0 (desc s) idx), (after_free idx (reqs s)). split_and!.
    - by rewrite length_set_all.
    - intros i Hi. rewrite lookup_set_all, decide_False; [done|]. intros Hin. rewrite Forall_forall in Hidx. specialize (Hidx i Hin). congruence.
    - destruct idx; [by left|by right].
    - erewrite bindM_ok; [|apply free_all_ok; [done|cbn; by rewrite length_set_all|]].
      + assert (E : set_all true (set_all false (free s) idx) idx = free s); [|unfold retM, dfr; cbn [free set_free]; by rewrite E].
        apply list_eq. intros j. rewrite !lookup_set_all. case_decide as Hj; [|done]. rewrite Forall_forall in Hidx. by rewrite (Hidx j Hj).
      + rewrite Forall_forall in *. intros j Hj. cbn. rewrite lookup_set_all, decide_True, (Hidx j Hj) by done. split; [|done].
        rewrite <- Hl. eapply lookup_lt_Some. by apply Hidx. }
  destruct (alloc_desc_ok s) as [(i0 & H0 & E0)|[Hc E0]].
  2: { right. split; [lia|]. erewrite bindM_ok by exact E0. destruct (Hfail [] ltac:(constructor) ltac:(constructor)) as (ds & rs & ? & ? & ? & E).
       exists ds, rs. split_and!; try done. rewrite <- E. by destruct s. }
  pose proof (cnt_insert _ _ H0) as C0. erewrite bindM_ok by exact E0. cbv iota beta. cbn [app].
  destruct (alloc_desc_ok (set_free (<[i0 := false]> (free s)) s)) as [(i1 & H1 & E1)|[Hc E1]]; cbn [free set_free] in *.
  2: { right. split; [lia|]. erewrite bindM_ok by exact E1. destruct (Hfail [i0] ltac:(apply NoDup_singleton) ltac:(by repeat constructor)) as (ds & rs & ? & ? & ? & E).
       exists ds, rs. by split_and!. }
  assert (Hne : i0 <> i1) by (intros ->; rewrite list_lookup_insert_eq in H1; [done|by eapply lookup_lt_Some]).
  pose proof (cnt_insert _ _ H1) as C1. rewrite list_lookup_insert_ne in H1 by done.
  erewrite bindM_ok by exact E1. cbv iota beta. cbn [app]. change (set_free ?a (set_free ?b s)) with (set_free a s).
  destruct (alloc_desc_ok (set_free (<[i1 := false]> (<[i0 := false]> (free s))) s)) as [(i2 & H2 & E2)|[Hc E2]]; cbn [free set_free] in *.
  2: { right. split; [lia|]. erewrite bindM_ok by exact E2.
       destruct (Hfail [i0; i1] ltac:(repeat constructor; set_solver) ltac:(by repeat constructor)) as (ds & rs & ? & ? & ? & E).
       exists ds, rs. by split_and!. }
  assert (Hne1 : i1 <> i2) by (intros ->; rewrite list_lookup_insert_eq in H2; [done|rewrite length_insert; by eapply lookup_lt_Some]).
  rewrite list_lookup_insert_ne in H2 by done.
  assert (Hne0 : i0 <> i2) by (intros ->; rewrite list_lookup_insert_eq in H2; [done|by eapply lookup_lt_Some]).
  rewrite list_lookup_insert_ne in H2 by done. left. exists i0, i1, i2. split_and!; try done.
  erewrite bindM_ok by exact E2. done.
Qed.

Lemma desc_at_insert_ne s i j d : i <> j -> nth j (<[i := d]> (desc s)) desc0 = desc_at s j.
Proof. intros Hne. unfold desc_at. by rewrite !nth_lookup, list_lookup_insert_ne. Qed.

Lemma free_chain_step s i fuel : (i < NUM)%nat -> length (free s) = NUM -> free s !! i = Some false ->
  free_chain i (S fuel) s =
    (if negb (Z.land (d_flags (desc_at s i)) VRING_DESC_F_NEXT =? 0) then free_chain (d_next (desc_at s i)) fuel else retM tt)
      (dfr (<[i := desc0]> (desc s)) (<[i := true]> (free s)) (vwake ChFree <$> reqs s) s).
Proof.
  intros Hi Hl Hf. cbn [free_chain]. unfold bindM at 1, getM at 1. erewrite bindM_ok by (by apply free_desc_ok). done.
Qed.

(** A chain of three descriptors is freed. *)
Lemma free_chain_ok s i0 i1 i2 fl : length (free s) = NUM -> i0 <> i1 -> i0 <> i2 -> i1 <> i2 ->
  Forall (fun i => (i < NUM)%nat /\ free s !! i = Some false) [i0; i1; i2] ->
  d_flags (desc_at s i0) = VRING_DESC_F_NEXT -> d_next (desc_at s i0) = i1 ->
  d_flags (desc_at s i1) = Z.lor fl VRING_DESC_F_NEXT -> d_next (desc_at s i1) = i2 ->
  d_flags (desc_at s i2) = VRING_DESC_F_WRITE ->
  free_chain i0 (NUM + 1) s = Ok tt (dfr (set_all desc0 (desc s) [i0; i1; i2]) (set_all true (free s) [i0; i1; i2]) (vwake ChFree <$> reqs s) s).
Proof.
  intros Hl H01 H02 H12 [[Hi0 Hf0] [[Hi1 Hf1] [[Hi2 Hf2] _]%Forall_cons]%Forall_cons]%Forall_cons Hd0 Hn0 Hd1 Hn1 Hd2.
  change (NUM + 1)%nat with 9%nat. rewrite free_chain_step by done. rewrite Hd0, Hn0.
  change (negb (Z.land VRING_DESC_F_NEXT VRING_DESC_F_NEXT =? 0)) with true. cbv iota.
  assert (Hb : Z.land (Z.lor fl VRING_DESC_F_NEXT) VRING_DESC_F_NEXT =? 0 = false).
  { apply Z.eqb_neq. intros E. apply (f_equal (fun z => Z.testbit z 0)) in E. rewrite Z.land_spec, Z.lor_spec in E. cbn in E. by rewrite orb_true_r in E. }
  rewrite free_chain_step; [|done|cbn; by rewrite length_insert|cbn; by rewrite list_lookup_insert_ne].
  unfold desc_at at 1 2. cbn [desc dfr set_reqs set_free set_desc]. rewrite !(desc_at_insert_ne s i0 i1) by done. rewrite Hd1, Hn1, Hb. cbn [negb]. cbv iota.
  rewrite free_chain_step; [|done|cbn; by rewrite !length_insert|cbn; by rewrite !list_lookup_insert_ne by done].
  unfold desc_at at 1 2. cbn [desc dfr set_reqs set_free set_desc].
  assert (E2 : nth i2 (<[i1 := desc0]> (<[i0 := desc0]> (desc s))) desc0 = desc_at s i2) by (unfold desc_at; by rewrite !nth_lookup, !list_lookup_insert_ne).
  rewrite !E2, Hd2. change (negb (Z.land VRING_DESC_F_WRITE VRING_DESC_F_NEXT =? 0)) with false. cbv iota. unfold retM, dfr. cbn [reqs set_reqs set_free set_desc free desc].
  by rewrite !vwake_idem.
Qed.
End Alloc.

(** ** The device *)

(** The device: how far it has read the available ring, the chains it is working
    on, the sectors. *)
Record vdev := mk_vdev { v_last : Z; v_busy : list nat; v_sect : Z -> list Z }.
Definition SECT : nat := Z.to_nat 512.
Definition dread (f : Z -> list Z) (n : Z) : list Z := f n ++ f (n + 1).
Definition dwrite (f : Z -> list Z) (n : Z) (bs : list Z) : Z -> list Z :=
  fun x => if decide (x = n) then take SECT bs else if decide (x = n + 1) then drop SECT bs else f x.
Definition has (fl : Z) (d : virtq_desc) : bool := negb (Z.land (d_flags d) fl =? 0).

(** The chain is done: its status is 0 and it is in the used ring. *)
Definition complete (h i : nat) (s : vdisk) : vdisk :=
  let s := set_info (alter (fun x => mk_info (in_b x) 0) i (info s)) s in
  set_used (u16 (used_ring_idx s + 1)) (<[Z.to_nat (used_ring_idx s mod Z.of_nat NUM) := h]> (used_ring s)) s.

(** Carrying out the chain that begins at [h]: a header the device reads, a
    block of data, a status byte it writes.  [None] when the chain is not of this
    form. *)
Definition perform (h : nat) (s : vdisk) (d : vdev) : option (vdisk * vdev) :=
  let d0 := desc_at s h in
  let d1 := desc_at s (d_next d0) in
  let d2 := desc_at s (d_next d1) in
  let busy := filter (fun x => x <> h) (v_busy d) in
  match d_addr d0, d_addr d1, d_addr d2 with
  | DOp o, DData b, DStatus i =>
      if has VRING_DESC_F_NEXT d0 && has VRING_DESC_F_NEXT d1 && negb (has VRING_DESC_F_NEXT d2) && has VRING_DESC_F_WRITE d2
         && (d_len d0 =? 16) && (d_len d1 =? 1024) && (d_len d2 =? 1) then
        let r := op_at s o in
        if (r_type r =? VIRTIO_BLK_T_OUT) && negb (has VRING_DESC_F_WRITE d1) then
          Some (complete h i s, mk_vdev (v_last d) busy (dwrite (v_sect d) (r_sector r) (vb_data (buf_at s b))))
        else if (r_type r =? VIRTIO_BLK_T_IN) && has VRING_DESC_F_WRITE d1 then
          Some (complete h i (set_bufs (alter (fun x => mk_vbuf (vb_blockno x) (vb_disk x) (dread (v_sect d) (r_sector r))) b (bufs s)) s),
                mk_vdev (v_last d) busy (v_sect d))
        else None
      else None
  | _, _, _ => None
  end.

(** What the virtio specification lets the device do: take the next chain of the
    available ring, finish one of those taken, in any order; what it does with a
    chain it does not understand is not specified. *)
Inductive virtio_step : vdisk * vdev -> vdisk * vdev -> Prop :=
  | vs_take s d : v_last d <> avail_idx s ->
      virtio_step (s, d) (s, mk_vdev (u16 (v_last d + 1)) (v_busy d ++ [nth (Z.to_nat (v_last d mod Z.of_nat NUM)) (avail_ring s) 0%nat]) (v_sect d))
  | vs_finish s d h s' d' : h ∈ v_busy d -> perform h s d = Some (s', d') -> virtio_step (s, d) (s', d')
  | vs_unspecified s d h s' d' : h ∈ v_busy d -> perform h s d = None -> virtio_step (s, d) (s', d').

(** ** The system *)

(** [sg] remembers, for each call, the data of its buffer and the block on the
    disk when it was submitted. *)
Record vsys := mk_sys { sv : vdisk; sd : vdev; sg : list (list Z * list Z) }.
Definition block (d : vdev) (n : Z) : list Z := dread (v_sect d) (2 * n).
Definition active (r : req) : Prop := q_pc r <> Finished.
(** The buffer and its block are used by no call in progress (the buffer's sleep
    lock and the cache see to that). *)
Definition unused (s : vdisk) (b : nat) (n : Z) : Prop :=
  forall t r, reqs s !! t = Some r -> active r -> q_b r <> b /\ vb_blockno (buf_at s (q_b r)) <> n.
Definition vbuf_ok (x : vbuf) : Prop := 0 <= vb_blockno x < 2 ^ 31 /\ length (vb_data x) = Z.to_nat 1024.

Section System.
Context (device : vdisk * vdev -> vdisk * vdev -> Prop).

Inductive vstep : vsys -> vsys -> Prop :=
  | st_device s d g s' d' : device (s, d) (s', d') -> vstep (mk_sys s d g) (mk_sys s' d' g)
  | st_intr s d g irq s' : virtio_disk_intr irq s = Ok tt s' -> vstep (mk_sys s d g) (mk_sys s' d g)
  | st_run s d g t r s' : reqs s !! t = Some r -> q_sleep r = None -> virtio_disk_rw t s = Ok tt s' ->
      vstep (mk_sys s d g) (mk_sys s' d (match q_pc r with
        | Begin => <[t := (vb_data (buf_at s (q_b r)), block d (vb_blockno (buf_at s (q_b r))))]> g | _ => g end))
  | st_call s d g b w : (b < length (bufs s))%nat -> unused s b (vb_blockno (buf_at s b)) ->
      vstep (mk_sys s d g) (mk_sys (set_reqs (reqs s ++ [mk_req b w Begin None]) s) d (g ++ [([], [])]))
  | st_owner s d g b x : unused s b (vb_blockno x) -> vbuf_ok x ->
      vstep (mk_sys s d g) (mk_sys (set_bufs (<[b := x]> (bufs s)) s) d g).
End System.

(** The driver before [virtio_disk_init]: all zero, with buffers [bs]. *)
Definition vdisk_boot (bs : list vbuf) : vdisk :=
  mk_vdisk [] 0 [] 0 [] (replicate NUM false) 0 (replicate NUM info0) (replicate NUM blk0) bs [] [].
(** The system when the driver is in state [s] and the device has done nothing. *)
Definition sys_init (s : vdisk) (f : Z -> list Z) : vsys := mk_sys s (mk_vdev 0 [] f) [].
Definition sectors_ok (f : Z -> list Z) : Prop := forall n, length (f n) = SECT.

(** ** The disk driver: invariant

    [own] says which call each descriptor belongs to; [avq] are the chains in the
    available ring the device has not taken, [usq] those in the used ring the
    driver has not seen.  A waiting call has a chain of three descriptors of its
    own, and its request is pending (in [avq] or taken), done (in [usq]), or
    acknowledged. *)


Record chain_ok (s : vdisk) (own : list (option nat)) (t : nat) (r : req) (i0 i1 i2 : nat) : Prop := {
  ch_own : Forall (fun i => own !! i = Some (Some t)) [i0; i1; i2];
  ch_only : forall i, own !! i = Some (Some t) -> i ∈ [i0; i1; i2];
  ch_ne : i0 <> i1 /\ i0 <> i2 /\ i1 <> i2;
  ch_d0 : desc_at s i0 = mk_desc (DOp i0) 16 VRING_DESC_F_NEXT i1;
  ch_d1 : desc_at s i1 = mk_desc (DData (q_b r)) 1024 (Z.lor (if q_write r then 0 else VRING_DESC_F_WRITE) VRING_DESC_F_NEXT) i2;
  ch_d2 : desc_at s i2 = mk_desc (DStatus i0) 1 VRING_DESC_F_WRITE 0;
  ch_op : op_at s i0 = mk_blk (if q_write r then VIRTIO_BLK_T_OUT else VIRTIO_BLK_T_IN) 0 (2 * vb_blockno (buf_at s (q_b r)));
  ch_b : in_b (info_at s i0) = Some (q_b r);
}.

(** The transfer has taken place: [data] and [blk] were the buffer's data and the
    block on the disk at the submission. *)
Definition transferred (r : req) (data blk data' blk' : list Z) : Prop :=
  if q_write r then data' = data /\ blk' = data else data' = blk /\ blk' = blk.

Definition phase_ok (s : vdisk) (d : vdev) (gt : list Z * list Z) (q u : list nat) (r : req) (i0 : nat) : Prop :=
  let x := buf_at s (q_b r) in
  if decide (i0 ∈ q) then vb_disk x = 1 /\ vb_data x = gt.1 /\ block d (vb_blockno x) = gt.2
  else in_status (info_at s i0) = 0 /\ vb_disk x = (if decide (i0 ∈ u) then 1 else 0) /\
       transferred r gt.1 gt.2 (vb_data x) (block d (vb_blockno x)).

Definition req_ok (s : vdisk) (d : vdev) (g : list (list Z * list Z)) (own : list (option nat)) (q u : list nat) (t : nat) (r : req) : Prop :=
  match q_pc r with
  | Finished => q_sleep r = None
  | Begin => (q_b r < length (bufs s))%nat /\ (q_sleep r = None \/ q_sleep r = Some ChFree /\ (cnt (free s) < 3)%nat)
  | Waiting i0 => (q_b r < length (bufs s))%nat /\
      (q_sleep r = None \/ q_sleep r = Some (ChBuf (q_b r)) /\ vb_disk (buf_at s (q_b r)) = 1) /\
      (exists i1 i2, chain_ok s own t r i0 i1 i2) /\ exists gt, g !! t = Some gt /\ phase_ok s d gt q u r i0
  end.

Record vinv (x : vsys) (own : list (option nat)) (avq usq : list nat) : Prop := {
  iv_own : length own = NUM;
  iv_desc : length (desc (sv x)) = NUM;
  iv_info : length (info (sv x)) = NUM;
  iv_ops : length (ops (sv x)) = NUM;
  iv_free : free (sv x) = (fun o => bool_decide (o = None)) <$> own;
  iv_g : length (sg x) = length (reqs (sv x));
  iv_avail : ring_ok (avail_ring (sv x)) (v_last (sd x)) (avail_idx (sv x)) avq;
  iv_used : ring_ok (used_ring (sv x)) (used_idx (sv x)) (used_ring_idx (sv x)) usq;
  iv_nodup : NoDup ((avq ++ v_busy (sd x)) ++ usq);
  iv_heads : forall h, h ∈ (avq ++ v_busy (sd x)) ++ usq -> exists t r, reqs (sv x) !! t = Some r /\ q_pc r = Waiting h;
  iv_owner : forall i t, own !! i = Some (Some t) -> exists r i0, reqs (sv x) !! t = Some r /\ q_pc r = Waiting i0;
  iv_req : forall t r, reqs (sv x) !! t = Some r -> req_ok (sv x) (sd x) (sg x) own (avq ++ v_busy (sd x)) usq t r;
  iv_excl : forall t t' r r', t <> t' -> reqs (sv x) !! t = Some r -> reqs (sv x) !! t' = Some r' -> active r -> active r' ->
    q_b r <> q_b r' /\ vb_blockno (buf_at (sv x) (q_b r)) <> vb_blockno (buf_at (sv x) (q_b r'));
  iv_bufs : Forall vbuf_ok (bufs (sv x));
  iv_sect : sectors_ok (v_sect (sd x));
}.

(** ** What a call in progress depends on *)

(** The same call, perhaps woken up. *)
Definition same_call (r r' : req) : Prop :=
  q_b r' = q_b r /\ q_write r' = q_write r /\ q_pc r' = q_pc r /\ (q_sleep r' = q_sleep r \/ q_sleep r' = None).
Lemma same_call_refl r : same_call r r.
Proof. by repeat split; left. Qed.
Lemma same_call_wake c r : same_call r (vwake c r).
Proof. unfold vwake, same_call. case_decide; cbn; auto. Qed.

Record agree (s s' : vdisk) (d d' : vdev) (g g' : list (list Z * list Z)) (own own' : list (option nat)) (q u q' u' : list nat) (t : nat) (r r' : req) : Prop := {
  ag_own : forall i, own' !! i = Some (Some t) <-> own !! i = Some (Some t);
  ag_desc : forall i, own !! i = Some (Some t) -> desc_at s' i = desc_at s i;
  ag_op : forall i, own !! i = Some (Some t) -> op_at s' i = op_at s i;
  ag_info : forall i, own !! i = Some (Some t) -> info_at s' i = info_at s i;
  ag_q : forall i, own !! i = Some (Some t) -> i ∈ q' <-> i ∈ q;
  ag_u : forall i, own !! i = Some (Some t) -> i ∈ u' <-> i ∈ u;
  ag_len : length (bufs s') = length (bufs s);
  ag_buf : active r -> buf_at s' (q_b r) = buf_at s (q_b r);
  ag_block : active r -> block d' (vb_blockno (buf_at s (q_b r))) = block d (vb_blockno (buf_at s (q_b r)));
  ag_g : g !! t = g' !! t;
  ag_call : same_call r r';
  ag_free : (cnt (free s') <= cnt (free s))%nat \/ q_sleep r' <> Some ChFree;
}.

Lemma req_ok_agree s s' d d' g g' own own' q u q' u' t r r' :
  agree s s' d d' g g' own own' q u q' u' t r r' -> req_ok s d g own q u t r -> req_ok s' d' g' own' q' u' t r'.
Proof.
  intros [Ho Hd Hop Hi Hq Hu Hl Hb Hbl Hg (E1 & E2 & E3 & E4) Hf]. unfold req_ok. rewrite E3. destruct (q_pc r) as [|i0|] eqn:Hpc.
  - rewrite E1, Hl. intros [Hlt Hs]. split; [done|]. destruct E4 as [E4|E4]; rewrite E4 in *; [|by left].
    destruct Hs as [Hs|[Hs Hc]]; [by left|]. right. split; [done|]. destruct Hf as [Hf|Hf]; [lia|congruence].
  - assert (Ha : active r) by (unfold active; by rewrite Hpc). specialize (Hb Ha). specialize (Hbl Ha).
    rewrite E1, Hl, Hb. intros (Hlt & Hs & (i1 & i2 & Hc) & gt & Hgt & Hph). split_and!; [done| | |].
    + destruct E4 as [E4|E4]; rewrite E4; [done|by left].
    + exists i1, i2. destruct Hc as [C1 C2 C3 C4 C5 C6 C7 C8]. pose proof C1 as [O0 [O1 [O2 _]%Forall_cons]%Forall_cons]%Forall_cons.
      split; rewrite ?E1, ?E2, ?Hb, ?Hd, ?Hop, ?Hi by done; try done.
      * repeat (apply Forall_cons_2; [by apply Ho|]). apply Forall_nil_2.
      * intros i Hii. by apply C2, Ho.
    + exists gt. split; [by rewrite <- Hg|]. destruct Hc as [[O0 _]%Forall_cons _ _ _ _ _ _ _]. unfold phase_ok, transferred in *. rewrite E1, E2, Hb, Hbl, Hi by done.
      rewrite (decide_ext (i0 ∈ q') (i0 ∈ q)), (decide_ext (i0 ∈ u') (i0 ∈ u)) by auto. done.
  - intros Hs. destruct E4 as [E4|E4]; by rewrite E4.
Qed.
