(* ===== verification/VirtioSteps.v ===== *)
(** * The disk driver: every step keeps the invariant

    The steps of the owners of buffers, of the device, of the interrupt handler, and
    of a call of [virtio_disk_rw] from one point where the driver's lock is free to
    the next. *)

From stdpp Require Import base list gmap strings.
From Stdlib Require Import ZArith Lia.
From S2P Require Import Prelude Virtio VirtioSpec.
Open Scope Z_scope.


Lemma nth_insert_at {A} (l : list A) i x j d : nth j (<[i := x]> l) d = if decide (i = j /\ (j < length l)%nat) then x else nth j l d.
Proof.
  rewrite !nth_lookup. destruct (decide (i = j)) as [->|Hne]; [|rewrite list_lookup_insert_ne, decide_False by tauto; done].
  destruct (decide (j < length l)%nat) as [Hj|Hj]; [by rewrite list_lookup_insert_eq, decide_True|].
  rewrite list_insert_ge, decide_False by (try tauto; lia). done.
Qed.
Lemma nth_alter_at {A} (f : A -> A) (l : list A) i j d : nth j (alter f i l) d = if decide (i = j /\ (j < length l)%nat) then f (nth j l d) else nth j l d.
Proof.
  rewrite !nth_lookup, list_lookup_alter. destruct (decide (i = j)) as [->|Hne]; [|by rewrite decide_False by tauto].
  destruct (l !! j) as [x|] eqn:Hx; cbn.
  - rewrite decide_True; [done|]. split; [done|by eapply lookup_lt_Some].
  - rewrite decide_False; [done|]. intros [_ Hlt]. apply lookup_ge_None_1 in Hx. lia.
Qed.
Lemma nth_set_all {A} (a : A) l idx j d : j ∉ idx -> nth j (set_all a l idx) d = nth j l d.
Proof. intros Hj. by rewrite !nth_lookup, lookup_set_all, decide_False. Qed.
Lemma fmap_set_all {A B} (f : A -> B) a l idx : f <$> set_all a l idx = set_all (f a) (f <$> l) idx.
Proof. apply list_eq. intros j. rewrite list_lookup_fmap, !lookup_set_all, list_lookup_fmap. case_decide; [|done]. by destruct (l !! j). Qed.
Lemma cnt_insert_le l i : (cnt (<[i := false]> l) <= cnt l)%nat.
Proof.
  destruct (l !! i) as [[]|] eqn:E; [apply cnt_insert in E; lia|by rewrite list_insert_id|].
  rewrite list_insert_ge; [done|by apply lookup_ge_None_1].
Qed.

(** Blocks and sectors. *)
Lemma block_write f n m bs : length bs = Z.to_nat 1024 -> dread (dwrite f (2 * n) bs) (2 * m) = if decide (m = n) then bs else dread f (2 * m).
Proof.
  intros Hl. unfold dread, dwrite. destruct (decide (m = n)) as [->|Hne].
  - rewrite decide_True, decide_False, decide_True by lia. apply take_drop.
  - rewrite !decide_False by lia. done.
Qed.
Lemma sectors_write f n bs : sectors_ok f -> length bs = Z.to_nat 1024 -> sectors_ok (dwrite f n bs).
Proof.
  intros Hf Hl x. unfold dwrite. case_decide; [rewrite length_take, Hl; unfold SECT; lia|]. case_decide; [rewrite length_drop, Hl; unfold SECT; lia|apply Hf].
Qed.
Lemma length_dread f n : sectors_ok f -> length (dread f n) = Z.to_nat 1024.
Proof. intros Hf. unfold dread. rewrite length_app, !Hf. unfold SECT. lia. Qed.

Section Facts.
Context (x : vsys) (own : list (option nat)) (avq usq : list nat).
Hypothesis (I : vinv x own avq usq).
Local Abbreviation s := (sv x).
Local Abbreviation q := (avq ++ v_busy (sd x)).

Lemma free_true i : free s !! i = Some true <-> own !! i = Some None.
Proof.
  rewrite (iv_free _ _ _ _ I), list_lookup_fmap. destruct (own !! i) as [[t|]|]; cbn; split; congruence.
Qed.
Lemma free_false i t : own !! i = Some (Some t) -> free s !! i = Some false.
Proof. intros Hi. rewrite (iv_free _ _ _ _ I), list_lookup_fmap, Hi. done. Qed.
Lemma own_free i : free s !! i = Some false -> exists t, own !! i = Some (Some t).
Proof.
  rewrite (iv_free _ _ _ _ I), list_lookup_fmap. destruct (own !! i) as [[t|]|]; cbn; [by exists t|done|done].
Qed.
Lemma own_lt i o : own !! i = Some o -> (i < NUM)%nat.
Proof. intros Hi. rewrite <- (iv_own _ _ _ _ I). by eapply lookup_lt_Some. Qed.
Lemma free_length : length (free s) = NUM.
Proof. by rewrite (iv_free _ _ _ _ I), length_fmap, (iv_own _ _ _ _ I). Qed.

Lemma waiting_inv t r i0 : reqs s !! t = Some r -> q_pc r = Waiting i0 ->
  (q_b r < length (bufs s))%nat /\ (q_sleep r = None \/ q_sleep r = Some (ChBuf (q_b r)) /\ vb_disk (buf_at s (q_b r)) = 1) /\
  (exists i1 i2, chain_ok s own t r i0 i1 i2) /\ exists gt, sg x !! t = Some gt /\ phase_ok s (sd x) gt q usq r i0.
Proof. intros Hr Hpc. pose proof (iv_req _ _ _ _ I t r Hr) as H. unfold req_ok in H. by rewrite Hpc in H. Qed.
Lemma head_own t r h : reqs s !! t = Some r -> q_pc r = Waiting h -> own !! h = Some (Some t).
Proof. intros Hr Hpc. destruct (waiting_inv t r h Hr Hpc) as (_ & _ & (i1 & i2 & [[H _]%Forall_cons _ _ _ _ _ _ _]) & _). done. Qed.
Lemma head_unique t t' r r' h : reqs s !! t = Some r -> q_pc r = Waiting h -> reqs s !! t' = Some r' -> q_pc r' = Waiting h -> t = t'.
Proof. intros Hr Hpc Hr' Hpc'. pose proof (head_own _ _ _ Hr Hpc). pose proof (head_own _ _ _ Hr' Hpc'). congruence. Qed.
Lemma queued_own h : h ∈ q ++ usq -> exists t, own !! h = Some (Some t).
Proof. intros Hh. destruct (iv_heads _ _ _ _ I h Hh) as (t & r & Hr & Hpc). exists t. by eapply head_own. Qed.
Lemma queue_length : (length (q ++ usq) <= NUM)%nat.
Proof.
  rewrite <- (length_seq NUM 0). apply submseteq_length, NoDup_submseteq; [apply I|]. intros h Hh. destruct (queued_own h Hh) as [t Ht].
  apply elem_of_seq. apply own_lt in Ht. lia.
Qed.
Lemma buf_ok_at b : (b < length (bufs s))%nat -> vbuf_ok (buf_at s b).
Proof. intros Hb. unfold buf_at. apply Forall_nth; [apply I|done]. Qed.
Lemma sector_small b : (b < length (bufs s))%nat -> u32 (vb_blockno (buf_at s b) * 2) = 2 * vb_blockno (buf_at s b).
Proof. intros Hb. destruct (buf_ok_at b Hb) as [H _]. rewrite u32_small; lia. Qed.

(** Nothing the calls depend on changes. *)
Lemma agree_refl t r r' : same_call r r' -> agree s s (sd x) (sd x) (sg x) (sg x) own own q usq q usq t r r'.
Proof. intros Hc. split; try done. by left. Qed.
End Facts.

(** ** New calls, and what the owners of buffers do *)

Lemma inv_call s d g own avq usq b w : vinv (mk_sys s d g) own avq usq -> (b < length (bufs s))%nat -> unused s b (vb_blockno (buf_at s b)) ->
  vinv (mk_sys (set_reqs (reqs s ++ [mk_req b w Begin None]) s) d (g ++ [([], [])])) own avq usq.
Proof.
  intros I Hb Hu. pose proof (iv_g _ _ _ _ I) as Hg. cbn in Hg. split; try apply I; cbn [sv sd sg reqs set_reqs].
  - by rewrite !length_app, Hg.
  - intros h Hh. destruct (iv_heads _ _ _ _ I h Hh) as (t & r & Hr & Hpc). exists t, r. split; [by apply lookup_app_l_Some|done].
  - intros i t Hi. destruct (iv_owner _ _ _ _ I i t Hi) as (r & i0 & Hr & Hpc). exists r, i0. split; [by apply lookup_app_l_Some|done].
  - intros t r [Hr|[Hge Hr]]%lookup_app_Some.
    + eapply req_ok_agree; [|apply (iv_req _ _ _ _ I t r Hr)]. split; try done; [|apply same_call_refl|by left].
      cbn. rewrite lookup_app_l; [done|]. rewrite Hg. by eapply lookup_lt_Some.
    + apply list_lookup_singleton_Some in Hr as [_ <-]. cbn. split; [done|by left].
  - intros t t' r r' Hne [Hr|[Hge Hr]]%lookup_app_Some [Hr'|[Hge' Hr']]%lookup_app_Some Ha Ha'.
    + by apply (iv_excl _ _ _ _ I t t' r r').
    + apply list_lookup_singleton_Some in Hr' as [_ <-]. cbn. destruct (Hu t r Hr Ha). done.
    + apply list_lookup_singleton_Some in Hr as [_ <-]. cbn. destruct (Hu t' r' Hr' Ha') as [? ?]. split; apply not_eq_sym; assumption.
    + apply list_lookup_singleton_Some in Hr as [? <-]. apply list_lookup_singleton_Some in Hr' as [? <-]. lia.
Qed.

Lemma inv_owner s d g own avq usq b y : vinv (mk_sys s d g) own avq usq -> unused s b (vb_blockno y) -> vbuf_ok y ->
  vinv (mk_sys (set_bufs (<[b := y]> (bufs s)) s) d g) own avq usq.
Proof.
  intros I Hu Hy. assert (Hbuf : forall t r, reqs s !! t = Some r -> active r -> nth (q_b r) (<[b := y]> (bufs s)) vbuf0 = buf_at s (q_b r)).
  { intros t r Hr Ha. destruct (Hu t r Hr Ha) as [Hne _]. rewrite nth_insert_at, decide_False by (intros [? _]; congruence). done. }
  split; try apply I; cbn [sv sd sg bufs reqs set_bufs].
  - intros t r Hr. eapply req_ok_agree; [|apply (iv_req _ _ _ _ I t r Hr)]. split; try done; [cbn; by rewrite length_insert| |apply same_call_refl|by left].
    intros Ha. by eapply Hbuf.
  - intros t t' r r' Hne Hr Hr' Ha Ha'. unfold buf_at. cbn [bufs set_bufs]. rewrite (Hbuf t r), (Hbuf t' r') by done. by apply (iv_excl _ _ _ _ I t t' r r').
  - apply Forall_insert; [apply I|done].
Qed.

(** ** The device *)

Definition taken (s : vdisk) (d : vdev) : vdev :=
  mk_vdev (u16 (v_last d + 1)) (v_busy d ++ [nth (Z.to_nat (v_last d mod Z.of_nat NUM)) (avail_ring s) 0%nat]) (v_sect d).
Lemma inv_take s d g own h avq usq : vinv (mk_sys s d g) own (h :: avq) usq -> vinv (mk_sys s (taken s d) g) own avq usq.
Proof.
  intros I. pose proof (iv_avail _ _ _ _ I) as Ha. cbn in Ha.
  apply ring_pop in Ha as [Hh Ha]. unfold taken. rewrite Hh. assert (P : avq ++ v_busy d ++ [h] ≡ₚ (h :: avq) ++ v_busy d) by (rewrite app_assoc, <- Permutation_cons_append; done).
  split; try apply I; cbn [sv sd sg v_busy]; [done| | |].
  - rewrite P. apply I.
  - intros h' Hh'. apply (iv_heads _ _ _ _ I). by rewrite P in Hh'.
  - intros t r Hr. eapply req_ok_agree; [|apply (iv_req _ _ _ _ I t r Hr)]. split; try done; [|apply same_call_refl|by left].
    intros i _. cbn. by rewrite P.
Qed.

(** The state after the transfer of request [r] with head [h], and the disk. *)
Definition moved (r : req) (h : nat) (s : vdisk) (d : vdev) : vdisk :=
  let x := buf_at s (q_b r) in
  complete h h (if q_write r then s else set_bufs (alter (fun x => mk_vbuf (vb_blockno x) (vb_disk x) (block d (vb_blockno (buf_at s (q_b r))))) (q_b r) (bufs s)) s).
Definition moved_dev (r : req) (h : nat) (s : vdisk) (d : vdev) : vdev :=
  let x := buf_at s (q_b r) in
  mk_vdev (v_last d) (filter (fun y => y <> h) (v_busy d)) (if q_write r then dwrite (v_sect d) (2 * vb_blockno x) (vb_data x) else v_sect d).

Lemma perform_ok s d own t r h i1 i2 : chain_ok s own t r h i1 i2 -> perform h s d = Some (moved r h s d, moved_dev r h s d).
Proof.
  intros [_ _ _ H0 H1 H2 Ho _]. unfold perform. rewrite H0. cbn [d_addr d_next]. rewrite H1. cbn [d_addr d_next]. rewrite H2. cbn [d_addr d_next d_len].
  rewrite Ho. cbn [r_type r_sector]. unfold moved, moved_dev, block. destruct (q_write r); reflexivity.
Qed.

Lemma moved_buf r h s d b : buf_at (moved r h s d) b =
  if decide (q_b r = b /\ (b < length (bufs s))%nat) then
    (if q_write r then buf_at s b else mk_vbuf (vb_blockno (buf_at s b)) (vb_disk (buf_at s b)) (block d (vb_blockno (buf_at s (q_b r)))))
  else buf_at s b.
Proof.
  unfold moved, buf_at. destruct (q_write r); cbn [complete bufs set_used set_info set_bufs]; [by case_decide|]. rewrite nth_alter_at. done.
Qed.
Lemma moved_blockno r h s d b : vb_blockno (buf_at (moved r h s d) b) = vb_blockno (buf_at s b).
Proof. rewrite moved_buf. case_decide; [|done]. by destruct (q_write r). Qed.
Lemma moved_block r h s d m : length (vb_data (buf_at s (q_b r))) = Z.to_nat 1024 -> block (moved_dev r h s d) m =
  if decide (m = vb_blockno (buf_at s (q_b r)) /\ q_write r = true) then vb_data (buf_at s (q_b r)) else block d m.
Proof.
  intros Hl. unfold block, moved_dev. cbn [v_sect]. destruct (q_write r); [|by rewrite decide_False by (intros [_ ?]; done)].
  rewrite block_write by done. by repeat case_decide; naive_solver.
Qed.

Lemma moved_desc r h s d i : desc_at (moved r h s d) i = desc_at s i.
Proof. unfold moved. by destruct (q_write r). Qed.
Lemma moved_op r h s d i : op_at (moved r h s d) i = op_at s i.
Proof. unfold moved. by destruct (q_write r). Qed.
Lemma moved_reqs r h s d : reqs (moved r h s d) = reqs s.
Proof. unfold moved. by destruct (q_write r). Qed.
Lemma moved_length r h s d : length (bufs (moved r h s d)) = length (bufs s).
Proof. unfold moved. destruct (q_write r); cbn; rewrite ?length_alter; done. Qed.
Lemma moved_info r h s d i : (h < length (info s))%nat -> info_at (moved r h s d) i = if decide (i = h) then mk_info (in_b (info_at s h)) 0 else info_at s i.
Proof.
  intros Hh. unfold moved, info_at, complete. destruct (decide (i = h)) as [->|Hne]; destruct (q_write r); cbn [info set_info set_used set_bufs];
    rewrite nth_alter_at; first [rewrite decide_True by done | rewrite decide_False by (intros [? _]; congruence)]; done.
Qed.

Lemma busy_perm (l : list nat) h : NoDup l -> h ∈ l -> l ≡ₚ h :: filter (fun y => y <> h) l.
Proof.
  intros Hnd Hh. apply NoDup_Permutation; [done| |].
  - apply NoDup_cons. split; [rewrite list_elem_of_filter; tauto|by apply NoDup_filter].
  - intros y. rewrite elem_of_cons, list_elem_of_filter. destruct (decide (y = h)) as [->|]; tauto.
Qed.

(** The call whose request the device has finished. *)
Lemma moved_req_ok s d g own q u q' u' t r h : req_ok s d g own q u t r -> q_pc r = Waiting h -> length (vb_data (buf_at s (q_b r))) = Z.to_nat 1024 ->
  (h < length (info s))%nat -> h ∈ q -> h ∉ q' -> h ∈ u' -> req_ok (moved r h s d) (moved_dev r h s d) g own q' u' t r.
Proof.
  intros H Hpc Hdata Hinf Hq Hq' Hu'. unfold req_ok in *. rewrite Hpc in *. destruct H as (Hlt & Hsl & (i1 & i2 & Hch) & gt & Hgt & Hph).
  unfold phase_ok in Hph. rewrite decide_True in Hph by done. destruct Hph as (Hdk & Hd & Hbl).
  assert (Hb : buf_at (moved r h s d) (q_b r) = mk_vbuf (vb_blockno (buf_at s (q_b r))) 1 (if q_write r then gt.1 else gt.2)).
  { rewrite moved_buf, decide_True by done. destruct (q_write r); [|by rewrite Hdk, Hbl]. rewrite <- Hdk, <- Hd. by destruct (buf_at s (q_b r)). }
  rewrite moved_length, Hb. cbn [vb_disk]. split_and!; [done|tauto| |].
  - exists i1, i2. destruct Hch as [C1 C2 C3 C4 C5 C6 C7 C8].
    split; rewrite ?moved_desc, ?moved_op, ?Hb, ?moved_info, ?decide_True by done; done.
  - exists gt. split; [done|]. unfold phase_ok. rewrite decide_False, decide_True, moved_info, decide_True, Hb by done. cbn [in_status vb_disk vb_data vb_blockno].
    split_and!; [done|done|]. rewrite moved_block by done. unfold transferred. destruct (q_write r).
    + rewrite decide_True by done. done.
    + rewrite decide_False by (intros [_ ?]; done). done.
Qed.

Lemma inv_finish s d g own avq usq h : vinv (mk_sys s d g) own avq usq -> h ∈ v_busy d ->
  exists s' d', perform h s d = Some (s', d') /\ vinv (mk_sys s' d' g) own avq (usq ++ [h]).
Proof.
  intros I Hh. destruct (iv_heads _ _ _ _ I h) as (t & r & Hr & Hpc); [cbn; set_solver|]. cbn in Hr.
  destruct (waiting_inv _ _ _ _ I t r h Hr Hpc) as (Hlt & _ & (i1 & i2 & Hch) & _). cbn in Hlt, Hch.
  exists (moved r h s d), (moved_dev r h s d). split; [by eapply perform_ok|].
  destruct (buf_ok_at _ _ _ _ I (q_b r) Hlt) as [_ Hdata]. cbn in Hdata. pose proof (head_own _ _ _ _ I t r h Hr Hpc) as Hown.
  pose proof (iv_nodup _ _ _ _ I) as Hnd. cbn in Hnd. assert (Hbusy : NoDup (v_busy d)) by (apply NoDup_app in Hnd as [Hnd _]; apply NoDup_app in Hnd as (_ & _ & ?); done).
  pose proof (busy_perm (v_busy d) h Hbusy Hh) as P. assert (Hinf : (h < length (info s))%nat) by (pose proof (iv_info _ _ _ _ I) as E; cbn in E; rewrite E; by eapply own_lt).
  assert (PQ : (avq ++ filter (fun y => y <> h) (v_busy d)) ++ usq ++ [h] ≡ₚ (avq ++ v_busy d) ++ usq).
  { rewrite P at 2. rewrite <- !app_assoc. f_equiv. rewrite (app_assoc _ usq [h]), <- Permutation_cons_append. done. }
  assert (Hin : forall i, i <> h -> (i ∈ avq ++ filter (fun y => y <> h) (v_busy d) <-> i ∈ avq ++ v_busy d)).
  { intros i Hi. rewrite !elem_of_app, list_elem_of_filter. tauto. }
  assert (Hnq : h ∉ avq ++ filter (fun y => y <> h) (v_busy d)).
  { rewrite elem_of_app, list_elem_of_filter. intros [Hx|[Hx _]]; [|done]. apply NoDup_app in Hnd as [Hnd _]. apply NoDup_app in Hnd as (_ & Hnd & _). by apply (Hnd h). }
  assert (Huq : (length usq < NUM)%nat).
  { pose proof (queue_length _ _ _ _ I) as Hl. cbn in Hl. rewrite <- PQ, !length_app in Hl. cbn in Hl. lia. }
  split; cbn [sv sd sg]; rewrite ?moved_reqs; try apply I.
  - unfold moved. by destruct (q_write r); apply I.
  - unfold moved. destruct (q_write r); cbn; rewrite length_alter; apply I.
  - unfold moved. by destruct (q_write r); apply I.
  - unfold moved. by destruct (q_write r); apply I.
  - unfold moved. by destruct (q_write r); apply I.
  - unfold moved. destruct (q_write r); apply ring_push; (apply I || done).
  - cbn. rewrite PQ. exact Hnd.
  - intros h' Hh'. apply (iv_heads _ _ _ _ I). cbn in *. by rewrite PQ in Hh'.
  - intros t' r' Hr'. pose proof (iv_req _ _ _ _ I t' r' Hr') as Hq. cbn in Hq. destruct (decide (t' = t)) as [->|Hne].
    + replace r' with r in * by congruence. eapply moved_req_ok; try done; set_solver.
    + eapply req_ok_agree; [|exact Hq]. split; try done.
      * intros i _. apply moved_desc.
      * intros i _. apply moved_op.
      * intros i Hi. rewrite moved_info, decide_False; [done|congruence|done].
      * intros i Hi. apply Hin. congruence.
      * intros i Hi. rewrite elem_of_app, list_elem_of_singleton. split; [|by left]. intros [?| ->]; [done|congruence].
      * apply moved_length.
      * intros Ha. rewrite moved_buf, decide_False; [done|]. intros [E _].
        destruct (iv_excl _ _ _ _ I t t' r r' (not_eq_sym Hne) Hr Hr' ltac:(unfold active; by rewrite Hpc) Ha). done.
      * intros Ha. rewrite moved_block, decide_False; [done| |done]. intros [E _].
        destruct (iv_excl _ _ _ _ I t t' r r' (not_eq_sym Hne) Hr Hr' ltac:(unfold active; by rewrite Hpc) Ha) as [_ Hx]. by apply Hx.
      * apply same_call_refl.
      * left. unfold moved. by destruct (q_write r).
  - intros t1 t2 r1 r2. rewrite !moved_blockno. apply (iv_excl _ _ _ _ I t1 t2 r1 r2).
  - unfold moved. pose proof (iv_bufs _ _ _ _ I) as Hb. cbn in Hb. destruct (q_write r); [exact Hb|]. cbn. apply Forall_alter; [done|].
    intros y Hy [Hy1 Hy2]. split; [done|]. cbn. apply length_dread, (iv_sect _ _ _ _ I).
  - unfold moved_dev. cbn. destruct (q_write r); [apply sectors_write; [apply (iv_sect _ _ _ _ I)|done]|apply (iv_sect _ _ _ _ I)].
Qed.

(** ** Calls that are woken up *)

Lemma like_wake c rs : Forall2 same_call rs (vwake c <$> rs).
Proof. apply Forall2_fmap_r, Forall_Forall2_diag, Forall_true. intros r. apply same_call_wake. Qed.
Lemma like_refl rs : Forall2 same_call rs rs.
Proof. apply Forall_Forall2_diag, Forall_true. apply same_call_refl. Qed.
Lemma like_woken c rs rs' : woken_by c rs rs' -> Forall2 same_call rs rs'.
Proof. intros [->| ->]; [apply like_refl|apply like_wake]. Qed.
Lemma same_active r r' : same_call r r' -> active r' -> active r.
Proof. intros (_ & _ & E & _). unfold active. by rewrite E. Qed.

Section Like.
Context (rs rs' : list req).
Hypothesis (L : Forall2 same_call rs rs').
Lemma like_waiting t r h : rs !! t = Some r -> q_pc r = Waiting h -> exists r', rs' !! t = Some r' /\ q_pc r' = Waiting h.
Proof. intros Hr Hpc. destruct (Forall2_lookup_l _ _ _ _ _ L Hr) as (r' & Hr' & (_ & _ & E & _)). exists r'. split; [done|congruence]. Qed.
Lemma like_excl (s s' : vdisk) : (forall b, vb_blockno (buf_at s' b) = vb_blockno (buf_at s b)) ->
  (forall t t' r r', t <> t' -> rs !! t = Some r -> rs !! t' = Some r' -> active r -> active r' ->
    q_b r <> q_b r' /\ vb_blockno (buf_at s (q_b r)) <> vb_blockno (buf_at s (q_b r'))) ->
  forall t t' r r', t <> t' -> rs' !! t = Some r -> rs' !! t' = Some r' -> active r -> active r' ->
    q_b r <> q_b r' /\ vb_blockno (buf_at s' (q_b r)) <> vb_blockno (buf_at s' (q_b r')).
Proof.
  intros Hs H t t' r r' Hne Hr Hr' Ha Ha'. destruct (Forall2_lookup_r _ _ _ _ _ L Hr) as (r0 & Hr0 & Hc). destruct (Forall2_lookup_r _ _ _ _ _ L Hr') as (r0' & Hr0' & Hc').
  rewrite !Hs. destruct (H t t' r0 r0' Hne Hr0 Hr0' (same_active _ _ Hc Ha) (same_active _ _ Hc' Ha')). destruct Hc as (-> & _), Hc' as (-> & _). done.
Qed.
End Like.

(** ** The interrupt *)

Definition acked (b : nat) (s : vdisk) : vdisk :=
  set_used_idx (u16 (used_idx s + 1))
    (set_reqs (vwake (ChBuf b) <$> reqs s) (set_bufs (alter (fun x => mk_vbuf (vb_blockno x) 0 (vb_data x)) b (bufs s)) s)).

Lemma acked_buf b s b' : buf_at (acked b s) b' =
  if decide (b = b' /\ (b' < length (bufs s))%nat) then mk_vbuf (vb_blockno (buf_at s b')) 0 (vb_data (buf_at s b')) else buf_at s b'.
Proof. unfold acked, buf_at. cbn [bufs set_used_idx set_reqs set_bufs]. by rewrite nth_alter_at. Qed.

Lemma inv_ack s d g own avq h usq : vinv (mk_sys s d g) own avq (h :: usq) ->
  in_status (info_at s h) = 0 /\ exists b, in_b (info_at s h) = Some b /\ vinv (mk_sys (acked b s) d g) own avq usq.
Proof.
  intros I. destruct (iv_heads _ _ _ _ I h) as (t & r & Hr & Hpc); [cbn; set_solver|]. cbn in Hr.
  destruct (waiting_inv _ _ _ _ I t r h Hr Hpc) as (Hlt & Hsl & (i1 & i2 & Hch) & gt & Hgt & Hph). cbn in *.
  pose proof (iv_nodup _ _ _ _ I) as Hnd. cbn in Hnd. assert (Hnq : h ∉ avq ++ v_busy d) by (apply NoDup_app in Hnd as (_ & Hnd & _); set_solver).
  assert (Hnu : h ∉ usq) by (apply NoDup_app in Hnd as (_ & _ & Hnd); by apply NoDup_cons in Hnd as [? _]).
  pose proof Hph as Hph'. unfold phase_ok in Hph'. rewrite decide_False in Hph' by done. destruct Hph' as (Hst & Hdk & Htr). rewrite decide_True in Hdk by left.
  split; [done|]. exists (q_b r). split; [by destruct Hch|]. pose proof (like_wake (ChBuf (q_b r)) (reqs s)) as L.
  assert (Hbn : forall b, vb_blockno (buf_at (acked (q_b r) s) b) = vb_blockno (buf_at s b)) by (intros b; rewrite acked_buf; by case_decide).
  split; try apply I; cbn [sv sd sg].
  - cbn. rewrite length_fmap. apply (iv_g _ _ _ _ I).
  - by apply ring_pop with (x := h), (iv_used _ _ _ _ I).
  - apply NoDup_app in Hnd as (N1 & N2 & [_ N3]%NoDup_cons). apply NoDup_app. split_and!; [done|set_solver|done].
  - intros h' Hh'. destruct (iv_heads _ _ _ _ I h') as (t' & r' & Hr' & Hpc'); [cbn; set_solver|].
    destruct (like_waiting _ _ L t' r' h' Hr' Hpc') as (r'' & ? & ?). eauto.
  - intros i t' Hi. destruct (iv_owner _ _ _ _ I i t' Hi) as (r' & i0 & Hr' & Hpc'). destruct (like_waiting _ _ L t' r' i0 Hr' Hpc') as (r'' & ? & ?). eauto.
  - intros t' r' Hr'. cbn in Hr'. destruct (Forall2_lookup_r _ _ _ _ _ L Hr') as (r0 & Hr0 & Hc). destruct (decide (t' = t)) as [->|Hne].
    + replace r0 with r in * by congruence. rewrite list_lookup_fmap, Hr in Hr'. injection Hr' as <-.
      assert (Hsn : q_sleep (vwake (ChBuf (q_b r)) r) = None).
      { unfold vwake. destruct Hsl as [Hs|[Hs _]]; [rewrite decide_False by congruence; done|by rewrite decide_True]. }
      destruct Hc as (E1 & E2 & E3 & _). unfold req_ok. rewrite E3, Hpc, E1, Hsn. cbn [bufs acked set_used_idx set_reqs set_bufs]. rewrite length_alter.
      split_and!; [done|by left| |].
      * exists i1, i2. destruct Hch as [C1 C2 C3 C4 C5 C6 C7 C8]. split; rewrite ?E1, ?E2, ?Hbn; done.
      * exists gt. split; [done|]. unfold phase_ok, transferred in *. rewrite decide_False, decide_False, E1, E2, acked_buf, decide_True by done. done.
    + eapply req_ok_agree; [|apply (iv_req _ _ _ _ I t' r0 Hr0)]. split; try done.
      * intros i Hi. cbn. rewrite elem_of_cons. split; [by right|]. intros [->|?]; [|done]. pose proof (head_own _ _ _ _ I t r h Hr Hpc). cbn in *. congruence.
      * cbn. by rewrite length_alter.
      * intros Ha. rewrite acked_buf, decide_False; [done|]. intros [E _].
        destruct (iv_excl _ _ _ _ I t t' r r0 (not_eq_sym Hne) Hr Hr0 ltac:(unfold active; by rewrite Hpc) Ha). done.
      * by left.
  - eapply (like_excl _ _ L s); [exact Hbn|]. apply (iv_excl _ _ _ _ I).
  - cbn. apply Forall_alter; [apply I|]. by intros y Hy [? ?].
Qed.

Lemma intr_step s h b fuel : used_idx s <> used_ring_idx s -> nth (Z.to_nat (used_idx s mod Z.of_nat NUM)) (used_ring s) 0%nat = h ->
  in_status (info_at s h) = 0 -> in_b (info_at s h) = Some b -> intr_loop (S fuel) s = intr_loop fuel (acked b s).
Proof.
  intros Hne%Z.eqb_neq Hh Hst Hb. cbn [intr_loop]. unfold bindM at 1, getM at 1. unfold id. by rewrite Hne, Hh, Hst, Hb.
Qed.
Lemma intr_stop s fuel : used_idx s = used_ring_idx s -> intr_loop (S fuel) s = Ok tt s.
Proof. intros E. cbn [intr_loop]. unfold bindM, getM, id. by rewrite E, Z.eqb_refl. Qed.

Lemma inv_mmio m s d g own avq usq : vinv (mk_sys s d g) own avq usq -> vinv (mk_sys (set_mmio m s) d g) own avq usq.
Proof.
  intros I. split; try apply I. intros t r Hr. eapply req_ok_agree; [|apply (iv_req _ _ _ _ I t r Hr)]. split; try done; [apply same_call_refl|by left].
Qed.

Lemma inv_intr irq s d g own avq usq : vinv (mk_sys s d g) own avq usq -> exists s', virtio_disk_intr irq s = Ok tt s' /\ vinv (mk_sys s' d g) own avq [].
Proof.
  intros I%(inv_mmio ((VIRTIO_MMIO_INTERRUPT_ACK, u32 (Z.land irq 0x3)) :: mmio s)). unfold virtio_disk_intr, put_reg. unfold bindM at 1, modifyM at 1.
  unfold bindM at 1, getM at 1. revert I. generalize (set_mmio ((VIRTIO_MMIO_INTERRUPT_ACK, u32 (Z.land irq 0x3)) :: mmio s) s). clear s. intros s I.
  pose proof (ring_count _ _ _ _ (iv_used _ _ _ _ I)) as Hc. cbn [sv] in Hc. unfold id. rewrite Hc. clear Hc.
  revert s I. induction usq as [|h usq IH]; intros s I.
  - exists s. split; [|done]. apply intr_stop, (ring_empty _ _ _ (iv_used _ _ _ _ I)).
  - destruct (inv_ack _ _ _ _ _ _ _ I) as (Hst & b & Hb & I'). destruct (IH _ I') as (s' & E & I''). exists s'. split; [|done].
    destruct (ring_pop _ _ _ _ _ (iv_used _ _ _ _ I)) as [Hh _]. rewrite <- E.
    apply intr_step with (h := h); [apply (ring_nonempty _ _ _ _ _ (iv_used _ _ _ _ I))|done..].
Qed.

(** ** The disk driver: the steps of a call

    Every step of [virtio_disk_rw] by a call that is not asleep succeeds and keeps
    the invariant: it submits the request, or goes to sleep, or returns its
    descriptors. *)


Lemma req_at_lookup s t r : reqs s !! t = Some r -> req_at s t = r.
Proof. intros Hr. unfold req_at. by rewrite nth_lookup, Hr. Qed.
Lemma alter_lookup_Some {A} (f : A -> A) t (l : list A) t' r' : alter f t l !! t' = Some r' ->
  exists r, l !! t' = Some r /\ r' = if decide (t' = t) then f r else r.
Proof.
  rewrite list_lookup_alter. case_decide as E.
  - subst. destruct (l !! t') as [r|]; [|done]. intros [= <-]. exists r. split; [done|]. by rewrite decide_True.
  - intros ->. exists r'. split; [done|]. by rewrite decide_False by congruence.
Qed.

Lemma queue_room x own avq usq i : vinv x own avq usq -> own !! i = Some None -> (length (avq ++ v_busy (sd x) ++ usq) < NUM)%nat.
Proof.
  intros I Hi. assert (H : (length (i :: (avq ++ v_busy (sd x)) ++ usq) <= NUM)%nat).
  { rewrite <- (length_seq NUM 0). apply submseteq_length, NoDup_submseteq.
    - apply NoDup_cons. split; [|apply I]. intros Hin. destruct (queued_own _ _ _ _ I i Hin) as [t Ht]. congruence.
    - intros h [->|Hh]%elem_of_cons; apply elem_of_seq.
      + apply (own_lt _ _ _ _ I) in Hi. lia.
      + destruct (queued_own _ _ _ _ I h Hh) as [t Ht]. apply (own_lt _ _ _ _ I) in Ht. lia. }
  rewrite <- app_assoc in H. cbn in H. lia.
Qed.

Lemma req_ok_reqs rs s d g own q u t r : req_ok s d g own q u t r -> req_ok (set_reqs rs s) d g own q u t r.
Proof. apply req_ok_agree. split; try done; [apply same_call_refl|by left]. Qed.

(** ** Going to sleep *)

Lemma inv_resleep s d g own avq usq t r c : vinv (mk_sys s d g) own avq usq -> reqs s !! t = Some r ->
  req_ok s d g own (avq ++ v_busy d) usq t (set_sleep (Some c) r) ->
  vinv (mk_sys (set_reqs (alter (set_sleep (Some c)) t (reqs s)) s) d g) own avq usq.
Proof.
  intros I Hr Hok. set (rs' := alter (set_sleep (Some c)) t (reqs s)).
  assert (Hpc : forall t' r0 h, reqs s !! t' = Some r0 -> q_pc r0 = Waiting h -> exists r', rs' !! t' = Some r' /\ q_pc r' = Waiting h).
  { intros t' r0 h H0 Hh. unfold rs'. rewrite list_lookup_alter. case_decide; [subst; rewrite H0; cbn; eauto|eauto]. }
  split; try apply I; cbn [sv sd sg reqs set_reqs].
  - unfold rs'. rewrite length_alter. apply I.
  - intros h Hh. destruct (iv_heads _ _ _ _ I h Hh) as (t' & r' & Hr' & Hpc'). destruct (Hpc _ _ _ Hr' Hpc') as (r'' & ? & ?). eauto.
  - intros i t' Hi. destruct (iv_owner _ _ _ _ I i t' Hi) as (r' & i0 & Hr' & Hpc'). destruct (Hpc _ _ _ Hr' Hpc') as (r'' & ? & ?). eauto.
  - intros t' r' (r0 & Hr0 & ->)%alter_lookup_Some. apply req_ok_reqs.
    case_decide; [subst; by replace r0 with r by congruence|]. apply (iv_req _ _ _ _ I t' r0 Hr0).
  - intros t1 t2 r1 r2 Hne (r1' & H1 & ->)%alter_lookup_Some (r2' & H2 & ->)%alter_lookup_Some Ha1 Ha2.
    assert (A : forall r (P : Prop) (H : Decision P), active (if H then set_sleep (Some c) r else r) -> active r) by (by intros ? ? []).
    assert (B : forall r (P : Prop) (H : Decision P), q_b (if H then set_sleep (Some c) r else r) = q_b r) by (by intros ? ? []).
    rewrite !B. apply (iv_excl _ _ _ _ I t1 t2 r1' r2'); eauto.
Qed.

Lemma inv_snapshot s d g own avq usq t r gt : vinv (mk_sys s d g) own avq usq -> reqs s !! t = Some r -> q_pc r = Begin ->
  vinv (mk_sys s d (<[t := gt]> g)) own avq usq.
Proof.
  intros I Hr Hpc. split; try apply I; cbn [sv sd sg].
  - rewrite length_insert. apply I.
  - intros t' r' Hr'. destruct (decide (t' = t)) as [->|Hne].
    + replace r' with r by congruence. pose proof (iv_req _ _ _ _ I t r Hr) as H. unfold req_ok in *. by rewrite Hpc in *.
    + eapply req_ok_agree; [|apply (iv_req _ _ _ _ I t' r' Hr')]. split; try done; [by rewrite list_lookup_insert_ne|apply same_call_refl|by left].
Qed.

(** ** Too few free descriptors *)

Lemma inv_woken s d g own avq usq ds rs : vinv (mk_sys s d g) own avq usq -> length ds = NUM ->
  (forall i, free s !! i = Some false -> ds !! i = desc s !! i) -> woken_by ChFree (reqs s) rs ->
  vinv (mk_sys (dfr ds (free s) rs s) d g) own avq usq.
Proof.
  intros I Hds Hkeep L%like_woken. split; try apply I; cbn [sv sd sg].
  - done.
  - cbn. rewrite <- (Forall2_length _ _ _ L). apply (iv_g _ _ _ _ I).
  - intros h Hh. destruct (iv_heads _ _ _ _ I h Hh) as (t' & r' & Hr' & Hpc'). destruct (like_waiting _ _ L _ _ _ Hr' Hpc') as (r'' & ? & ?). eauto.
  - intros i t' Hi. destruct (iv_owner _ _ _ _ I i t' Hi) as (r' & i0 & Hr' & Hpc'). destruct (like_waiting _ _ L _ _ _ Hr' Hpc') as (r'' & ? & ?). eauto.
  - intros t r Hr. destruct (Forall2_lookup_r _ _ _ _ _ L Hr) as (r0 & Hr0 & Hc). eapply req_ok_agree; [|apply (iv_req _ _ _ _ I t r0 Hr0)].
    split; try done; [|by left]. intros i Hi. unfold desc_at. cbn. rewrite !nth_lookup, Hkeep; [done|]. apply (free_false _ _ _ _ I _ _ Hi).
  - eapply (like_excl _ _ L s); [done|]. apply (iv_excl _ _ _ _ I).
Qed.

(** ** Submitting a request *)

(** Whether an index is the one that is written. *)
Ltac slot := rewrite ?length_insert, ?length_alter; first [intros [? _]; congruence | split; [reflexivity|lia]].

Definition submitted (t : nat) (r : req) (i0 i1 i2 : nat) (s : vdisk) : vdisk :=
  let b := q_b r in let w := q_write r in
  mk_vdisk
    (<[i2 := mk_desc (DStatus i0) 1 VRING_DESC_F_WRITE 0]>
      (<[i1 := mk_desc (DData b) 1024 (Z.lor (if w then 0 else VRING_DESC_F_WRITE) VRING_DESC_F_NEXT) i2]>
        (<[i0 := mk_desc (DOp i0) 16 VRING_DESC_F_NEXT i1]> (desc s))))
    (u16 (avail_idx s + 1)) (<[Z.to_nat (avail_idx s mod Z.of_nat NUM) := i0]> (avail_ring s))
    (used_ring_idx s) (used_ring s) (set_all false (free s) [i0; i1; i2]) (used_idx s)
    (alter (fun x => mk_info (Some b) (in_status x)) i0 (alter (fun x => mk_info (in_b x) 0xff) i0 (info s)))
    (<[i0 := mk_blk (if w then VIRTIO_BLK_T_OUT else VIRTIO_BLK_T_IN) 0 (u32 (vb_blockno (buf_at s b) * 2))]> (ops s))
    (alter (fun x => mk_vbuf (vb_blockno x) 1 (vb_data x)) b (bufs s))
    (alter (set_pc (Waiting i0)) t (reqs s)) ((VIRTIO_MMIO_QUEUE_NOTIFY, u32 0) :: mmio s).

Lemma submitted_buf t r i0 i1 i2 s b : buf_at (submitted t r i0 i1 i2 s) b =
  if decide (q_b r = b /\ (b < length (bufs s))%nat) then mk_vbuf (vb_blockno (buf_at s b)) 1 (vb_data (buf_at s b)) else buf_at s b.
Proof. unfold submitted, buf_at. cbn [bufs]. by rewrite nth_alter_at. Qed.
Lemma submitted_blockno t r i0 i1 i2 s b : vb_blockno (buf_at (submitted t r i0 i1 i2 s) b) = vb_blockno (buf_at s b).
Proof. rewrite submitted_buf. by case_decide. Qed.

Section Submit.
Context (s : vdisk) (d : vdev) (g : list (list Z * list Z)) (own : list (option nat)) (avq usq : list nat) (t : nat) (r : req) (i0 i1 i2 : nat).
Hypothesis (I : vinv (mk_sys s d g) own avq usq) (Hr : reqs s !! t = Some r) (Hpc : q_pc r = Begin) (Hsl : q_sleep r = None).
Hypothesis (N01 : i0 <> i1) (N02 : i0 <> i2) (N12 : i1 <> i2).
Hypothesis (F0 : free s !! i0 = Some true) (F1 : free s !! i1 = Some true) (F2 : free s !! i2 = Some true).
Local Abbreviation s' := (submitted t r i0 i1 i2 s).
Local Abbreviation own' := (set_all (Some t) own [i0; i1; i2]).
Local Abbreviation gt := (vb_data (buf_at s (q_b r)), block d (vb_blockno (buf_at s (q_b r)))).

Lemma sub_free i : i ∈ [i0; i1; i2] -> own !! i = Some None.
Proof. intros Hi. apply (free_true _ _ _ _ I). set_unfold. destruct Hi as [->|[->|[->|[]]]]; done. Qed.
Lemma sub_lt i : i ∈ [i0; i1; i2] -> (i < NUM)%nat.
Proof. intros Hi%sub_free. by apply (own_lt _ _ _ _ I) in Hi. Qed.
Lemma sub_own i t' : own' !! i = Some (Some t') <-> (i ∈ [i0; i1; i2] /\ t' = t) \/ own !! i = Some (Some t').
Proof.
  rewrite lookup_set_all. case_decide as Hi.
  - pose proof (sub_free i Hi) as E. rewrite E. cbn. split; [intros [= ->]; by left|]. intros [[_ ->]|?]; [done|congruence].
  - naive_solver.
Qed.
Lemma sub_none i : own !! i <> Some (Some t).
Proof. intros Hi. destruct (iv_owner _ _ _ _ I i t Hi) as (r' & h & Hr' & Hw). cbn in Hr'. congruence. Qed.
Lemma sub_b : (q_b r < length (bufs s))%nat.
Proof. pose proof (iv_req _ _ _ _ I t r Hr) as H. unfold req_ok in H. rewrite Hpc in H. by destruct H. Qed.

Lemma sub_chain : chain_ok s' own' t (set_pc (Waiting i0) r) i0 i1 i2.
Proof.
  pose proof (iv_desc _ _ _ _ I) as Ld. pose proof (iv_info _ _ _ _ I) as Li. pose proof (iv_ops _ _ _ _ I) as Lo. cbn in Ld, Li, Lo.
  pose proof (sub_lt i0 ltac:(set_solver)). pose proof (sub_lt i1 ltac:(set_solver)). pose proof (sub_lt i2 ltac:(set_solver)).
  split; cbn [q_b q_write set_pc]; rewrite ?submitted_blockno.
  - repeat (apply Forall_cons; split; [apply sub_own; left; set_solver|]). done.
  - intros i [[? _]|Hi%sub_none]%sub_own; done.
  - done.
  - unfold desc_at. cbn [desc submitted]. rewrite nth_insert_at, decide_False, nth_insert_at, decide_False, nth_insert_at, decide_True by slot. done.
  - unfold desc_at. cbn [desc submitted]. rewrite nth_insert_at, decide_False, nth_insert_at, decide_True by slot. done.
  - unfold desc_at. cbn [desc submitted]. rewrite nth_insert_at, decide_True by slot. done.
  - unfold op_at. cbn [ops submitted]. rewrite nth_insert_at, decide_True by slot. f_equal. apply (sector_small _ _ _ _ I _ sub_b).
  - unfold info_at. cbn [info submitted]. rewrite nth_alter_at, decide_True by slot. done.
Qed.

Lemma sub_new : req_ok s' d (<[t := gt]> g) own' ((avq ++ [i0]) ++ v_busy d) usq t (set_pc (Waiting i0) r).
Proof.
  pose proof sub_b as Hb. pose proof (iv_g _ _ _ _ I) as Hg. cbn in Hg.
  unfold req_ok. cbn [q_pc set_pc q_b q_sleep]. split_and!.
  - cbn. by rewrite length_alter.
  - by left.
  - exists i1, i2. apply sub_chain.
  - exists gt. split; [apply list_lookup_insert_eq; rewrite Hg; by eapply lookup_lt_Some|].
    unfold phase_ok. rewrite decide_True by set_solver. cbn [q_b set_pc]. by rewrite submitted_buf, decide_True.
Qed.

Lemma sub_other t' r' : t' <> t -> reqs s !! t' = Some r' -> req_ok s' d (<[t := gt]> g) own' ((avq ++ [i0]) ++ v_busy d) usq t' r'.
Proof.
  intros Hne Hr'. eapply req_ok_agree; [|apply (iv_req _ _ _ _ I t' r' Hr')].
  assert (Hni : forall i, own !! i = Some (Some t') -> i ∉ [i0; i1; i2]) by (intros i Hi Hin%sub_free; congruence).
  assert (Hn0 : forall i, own !! i = Some (Some t') -> i <> i0 /\ i <> i1 /\ i <> i2) by (intros i Hi%Hni; set_solver).
  split; try done.
  - intros i. rewrite sub_own. naive_solver.
  - intros i (? & ? & ?)%Hn0. unfold desc_at. cbn [desc submitted]. rewrite !nth_insert_at, !decide_False by slot. done.
  - intros i (? & ? & ?)%Hn0. unfold op_at. cbn [ops submitted]. rewrite nth_insert_at, decide_False by slot. done.
  - intros i (? & ? & ?)%Hn0. unfold info_at. cbn [info submitted]. rewrite !nth_alter_at, !decide_False by slot. done.
  - intros i (? & ? & ?)%Hn0. cbn. set_solver.
  - cbn. by rewrite length_alter.
  - intros Ha. rewrite submitted_buf, decide_False; [done|]. intros [E _].
    destruct (iv_excl _ _ _ _ I t t' r r' (not_eq_sym Hne) Hr Hr' ltac:(unfold active; by rewrite Hpc) Ha). done.
  - by rewrite list_lookup_insert_ne.
  - apply same_call_refl.
  - left. cbn. unfold set_all. cbn [foldl]. pose proof (cnt_insert_le (free s) i0). pose proof (cnt_insert_le (<[i0 := false]> (free s)) i1).
    pose proof (cnt_insert_le (<[i1 := false]> (<[i0 := false]> (free s))) i2). lia.
Qed.

Lemma inv_submit : vinv (mk_sys s' d (<[t := gt]> g)) own' (avq ++ [i0]) usq.
Proof.
  assert (Hq : i0 ∉ (avq ++ v_busy d) ++ usq) by (intros [t' Ht']%(queued_own _ _ _ _ I); pose proof (sub_free i0 ltac:(set_solver)); congruence).
  assert (Hw : forall t' r0 h, reqs s !! t' = Some r0 -> q_pc r0 = Waiting h -> exists r', reqs s' !! t' = Some r' /\ q_pc r' = Waiting h).
  { intros t' r0 h H0 Hh. exists r0. split; [|done]. cbn. rewrite list_lookup_alter, decide_False; [done|congruence]. }
  assert (Ht : reqs s' !! t = Some (set_pc (Waiting i0) r)) by (cbn; by rewrite list_lookup_alter, decide_True, Hr).
  split; cbn [sv sd sg].
  - rewrite length_set_all. apply I.
  - cbn. rewrite !length_insert. apply (iv_desc _ _ _ _ I).
  - cbn. rewrite !length_alter. apply (iv_info _ _ _ _ I).
  - cbn. rewrite length_insert. apply (iv_ops _ _ _ _ I).
  - cbn [free submitted]. pose proof (iv_free _ _ _ _ I) as E. cbn in E. by rewrite fmap_set_all, E.
  - cbn. rewrite length_insert, length_alter. apply (iv_g _ _ _ _ I).
  - cbn. apply ring_push; [apply (iv_avail _ _ _ _ I)|]. pose proof (queue_room _ _ _ _ i0 I (sub_free i0 ltac:(set_solver))) as H. rewrite length_app in H. lia.
  - apply (iv_used _ _ _ _ I).
  - pose proof (iv_nodup _ _ _ _ I) as H. cbn in H. assert (((avq ++ [i0]) ++ v_busy d) ++ usq ≡ₚ i0 :: (avq ++ v_busy d) ++ usq) as -> by solve_Permutation. by apply NoDup_cons.
  - intros h Hh. assert (Hh' : h = i0 \/ h ∈ (avq ++ v_busy d) ++ usq) by set_solver. destruct Hh' as [->|Hh']; [eauto|].
    destruct (iv_heads _ _ _ _ I h Hh') as (t' & r' & Hr' & Hpc'). destruct (Hw _ _ _ Hr' Hpc') as (r'' & ? & ?). eauto.
  - intros i t' [[_ ->]|Hi]%sub_own; [eauto|]. destruct (iv_owner _ _ _ _ I i t' Hi) as (r' & h & Hr' & Hpc'). destruct (Hw _ _ _ Hr' Hpc') as (r'' & ? & ?). eauto.
  - intros t' r' (r0 & Hr0 & ->)%alter_lookup_Some. case_decide as E; [|by apply sub_other]. subst t'. replace r0 with r by congruence. apply sub_new.
  - intros t1 t2 r1 r2 Hne (r1' & H1 & ->)%alter_lookup_Some (r2' & H2 & ->)%alter_lookup_Some Ha1 Ha2. rewrite !submitted_blockno.
    assert (B : forall ra (P : Prop) (H : Decision P), q_b (if H then set_pc (Waiting i0) ra else ra) = q_b ra) by (by intros ? ? []). rewrite !B.
    assert (A : forall ta ra, reqs s !! ta = Some ra -> active (if decide (ta = t) then set_pc (Waiting i0) ra else ra) -> active ra).
    { intros ta ra Hta. destruct (decide (ta = t)); [|done]. subst. replace ra with r by congruence. unfold active. by rewrite Hpc. }
    apply (iv_excl _ _ _ _ I t1 t2 r1' r2'); eauto.
  - cbn. apply Forall_alter; [apply (iv_bufs _ _ _ _ I)|]. by intros y Hy [? ?].
  - apply (iv_sect _ _ _ _ I).
Qed.
End Submit.

(** ** Returning the descriptors *)

Definition finished (t i0 i1 i2 : nat) (s : vdisk) : vdisk :=
  set_reqs (alter (set_pc Finished) t (vwake ChFree <$> reqs s))
    (set_free (set_all true (free s) [i0; i1; i2]) (set_desc (set_all desc0 (desc s) [i0; i1; i2])
      (set_info (alter (fun x => mk_info None (in_status x)) i0 (info s)) s))).

Section Finish.
Context (s : vdisk) (d : vdev) (g : list (list Z * list Z)) (own : list (option nat)) (avq usq : list nat) (t : nat) (r : req) (i0 i1 i2 : nat).
Hypothesis (I : vinv (mk_sys s d g) own avq usq) (Hr : reqs s !! t = Some r) (Hpc : q_pc r = Waiting i0) (Hsl : q_sleep r = None).
Hypothesis (Hch : chain_ok s own t r i0 i1 i2) (Hq : i0 ∉ (avq ++ v_busy d) ++ usq).
Local Abbreviation s' := (finished t i0 i1 i2 s).
Local Abbreviation own' := (set_all None own [i0; i1; i2]).

Lemma fin_own i : own !! i = Some (Some t) <-> i ∈ [i0; i1; i2].
Proof. split; [apply Hch|]. pose proof (ch_own _ _ _ _ _ _ _ Hch) as H. rewrite Forall_forall in H. apply H. Qed.
Lemma fin_own' i t' : own' !! i = Some (Some t') <-> t' <> t /\ own !! i = Some (Some t').
Proof.
  rewrite lookup_set_all. case_decide as Hi.
  - apply fin_own in Hi. rewrite Hi. cbn. split; [done|]. intros [? ?]. congruence.
  - rewrite <- fin_own in Hi. split; [|by intros []]. intros E. split; [congruence|done].
Qed.

Lemma fin_woken t' r' : reqs s' !! t' = Some r' -> t' <> t -> exists r0, reqs s !! t' = Some r0 /\ r' = vwake ChFree r0.
Proof.
  intros (r0 & Hr0 & ->)%alter_lookup_Some Hne. rewrite decide_False by done. rewrite list_lookup_fmap in Hr0.
  destruct (reqs s !! t') as [r1|] eqn:E; [|done]. injection Hr0 as <-. eauto.
Qed.

Lemma fin_other t' r0 : t' <> t -> reqs s !! t' = Some r0 -> req_ok s' d g own' (avq ++ v_busy d) usq t' (vwake ChFree r0).
Proof.
  intros Hne Hr0. eapply req_ok_agree; [|apply (iv_req _ _ _ _ I t' r0 Hr0)].
  assert (Hni : forall i, own !! i = Some (Some t') -> i ∉ [i0; i1; i2]) by (intros i Hi Hin%fin_own; congruence).
  split; try done.
  - intros i. rewrite fin_own'. naive_solver.
  - intros i Hi%Hni. unfold desc_at. cbn [desc finished set_reqs set_free set_desc]. by rewrite nth_set_all.
  - intros i Hi%Hni. unfold info_at. cbn [info finished set_reqs set_free set_desc set_info]. rewrite nth_alter_at, decide_False; [done|set_solver].
  - apply same_call_wake.
  - right. unfold vwake. case_decide; [done|done].
Qed.

Lemma inv_finished : vinv (mk_sys s' d g) own' avq usq.
Proof.
  pose proof (like_wake ChFree (reqs s)) as L.
  assert (Hw : forall t' r0 h, t' <> t -> reqs s !! t' = Some r0 -> q_pc r0 = Waiting h -> exists r', reqs s' !! t' = Some r' /\ q_pc r' = Waiting h).
  { intros t' r0 h Hne H0 Hh. destruct (like_waiting _ _ L t' r0 h H0 Hh) as (r' & Hr' & ?). exists r'. split; [|done].
    cbn [reqs finished set_reqs]. rewrite list_lookup_alter, decide_False; [done|congruence]. }
  split; try apply I; cbn [sv sd sg].
  - rewrite length_set_all. apply I.
  - cbn [desc finished set_reqs set_free set_desc]. rewrite length_set_all. apply (iv_desc _ _ _ _ I).
  - cbn [info finished set_reqs set_free set_desc set_info]. rewrite length_alter. apply (iv_info _ _ _ _ I).
  - cbn [free finished set_reqs set_free]. pose proof (iv_free _ _ _ _ I) as E. cbn in E. by rewrite fmap_set_all, E.
  - cbn [reqs finished set_reqs]. rewrite length_alter, length_fmap. apply (iv_g _ _ _ _ I).
  - intros h Hh. destruct (iv_heads _ _ _ _ I h Hh) as (t' & r' & Hr' & Hpc'). cbn in Hr'.
    destruct (Hw t' r' h) as (r'' & ? & ?); [|done|done|eauto]. intros ->. replace r' with r in Hpc' by congruence. cbn in Hh. congruence.
  - intros i t' [Hne Hi]%fin_own'. destruct (iv_owner _ _ _ _ I i t' Hi) as (r' & h & Hr' & Hpc'). destruct (Hw _ _ _ Hne Hr' Hpc') as (r'' & ? & ?). eauto.
  - intros t' r' Hr'. destruct (decide (t' = t)) as [->|Hne].
    + apply alter_lookup_Some in Hr' as (r0 & Hr0 & ->). rewrite decide_True by done. rewrite list_lookup_fmap, Hr in Hr0. injection Hr0 as <-.
      unfold req_ok. cbn. unfold vwake. by rewrite Hsl.
    + destruct (fin_woken t' r' Hr' Hne) as (r0 & Hr0 & ->). by apply fin_other.
  - intros t1 t2 r1 r2 Hne H1 H2 Ha1 Ha2.
    assert (A : forall ta ra, reqs s' !! ta = Some ra -> active ra -> exists rb, reqs s !! ta = Some rb /\ ra = vwake ChFree rb).
    { intros ta ra Hta Ha. apply fin_woken; [done|]. intros ->. apply alter_lookup_Some in Hta as (r0 & _ & ->). by rewrite decide_True in Ha by done. }
    destruct (A _ _ H1 Ha1) as (rb1 & Hb1 & ->), (A _ _ H2 Ha2) as (rb2 & Hb2 & ->).
    pose proof (same_call_wake ChFree rb1) as C1. pose proof (same_call_wake ChFree rb2) as C2.
    pose proof (iv_excl _ _ _ _ I t1 t2 rb1 rb2 Hne Hb1 Hb2 (same_active _ _ C1 Ha1) (same_active _ _ C2 Ha2)) as H. destruct C1 as (-> & _), C2 as (-> & _). exact H.
Qed.
End Finish.

(** ** A step of a call *)

Lemma run_returns s t r i0 i1 i2 fl : req_at s t = r -> q_pc r = Waiting i0 -> vb_disk (buf_at s (q_b r)) <> 1 ->
  length (free s) = NUM -> i0 <> i1 -> i0 <> i2 -> i1 <> i2 -> Forall (fun i => (i < NUM)%nat /\ free s !! i = Some false) [i0; i1; i2] ->
  d_flags (desc_at s i0) = VRING_DESC_F_NEXT -> d_next (desc_at s i0) = i1 ->
  d_flags (desc_at s i1) = Z.lor fl VRING_DESC_F_NEXT -> d_next (desc_at s i1) = i2 ->
  d_flags (desc_at s i2) = VRING_DESC_F_WRITE -> virtio_disk_rw t s = Ok tt (finished t i0 i1 i2 s).
Proof.
  intros Hr Hpc Hdk%Z.eqb_neq Hl N1 N2 N3 Hf D0 X0 D1 X1 D2. unfold virtio_disk_rw. unfold bindM at 1, getM at 1. rewrite Hr, Hpc. unfold rw_wait.
  unfold bindM at 1, getM at 1. rewrite Hdk. unfold bindM at 1, modifyM at 1. set (s1 := set_info _ s).
  erewrite bindM_ok; [|by apply (free_chain_ok s1 i0 i1 i2 fl)]. done.
Qed.

Definition snapshot (s : vdisk) (d : vdev) (t : nat) (r : req) (g : list (list Z * list Z)) : list (list Z * list Z) :=
  match q_pc r with
  | Begin => <[t := (vb_data (buf_at s (q_b r)), block d (vb_blockno (buf_at s (q_b r))))]> g
  | _ => g
  end.

Section Run.
Context (s : vdisk) (d : vdev) (g : list (list Z * list Z)) (own : list (option nat)) (avq usq : list nat) (t : nat) (r : req).
Hypothesis (I : vinv (mk_sys s d g) own avq usq) (Hr : reqs s !! t = Some r) (Hsl : q_sleep r = None).

Lemma run_finished : q_pc r = Finished -> virtio_disk_rw t s = Ok tt s.
Proof. intros Hpc. unfold virtio_disk_rw, bindM, getM. by rewrite (req_at_lookup _ _ _ Hr), Hpc. Qed.

(** The request is not done: the call sleeps until the interrupt. *)
Lemma run_pending i0 : q_pc r = Waiting i0 -> vb_disk (buf_at s (q_b r)) = 1 ->
  exists s', virtio_disk_rw t s = Ok tt s' /\ vinv (mk_sys s' d g) own avq usq /\ reqs s' = alter (set_sleep (Some (ChBuf (q_b r)))) t (reqs s).
Proof.
  intros Hpc Hdk. exists (set_reqs (alter (set_sleep (Some (ChBuf (q_b r)))) t (reqs s)) s). split_and!; [| |done].
  - unfold virtio_disk_rw, rw_wait, bindM, getM. by rewrite (req_at_lookup _ _ _ Hr), Hpc, Hdk.
  - eapply inv_resleep; [done..|]. destruct (waiting_inv _ _ _ _ I t r i0 Hr Hpc) as (? & _ & (i1 & i2 & Hc) & gt & Hgt & Hph).
    unfold req_ok. cbn [q_pc set_sleep]. rewrite Hpc. split_and!; [done|by right| |by exists gt].
    exists i1, i2. by destruct Hc; split.
Qed.

(** The request is done: the descriptors are returned. *)
Lemma run_done i0 : q_pc r = Waiting i0 -> vb_disk (buf_at s (q_b r)) <> 1 ->
  exists i1 i2, virtio_disk_rw t s = Ok tt (finished t i0 i1 i2 s) /\ vinv (mk_sys (finished t i0 i1 i2 s) d g) (set_all None own [i0; i1; i2]) avq usq /\
    exists gt, g !! t = Some gt /\ transferred r gt.1 gt.2 (vb_data (buf_at s (q_b r))) (block d (vb_blockno (buf_at s (q_b r)))).
Proof.
  intros Hpc Hdk. destruct (waiting_inv _ _ _ _ I t r i0 Hr Hpc) as (_ & _ & (i1 & i2 & Hc) & gt & Hgt & Hph). exists i1, i2. cbn in Hc, Hgt, Hph.
  unfold phase_ok in Hph. destruct (decide (i0 ∈ avq ++ v_busy d)) as [|Hq]; [by destruct Hph as (? & _)|]. destruct Hph as (_ & Hd & Htr).
  destruct (decide (i0 ∈ usq)) as [|Hu]; [done|].
  split_and!; [|eapply inv_finished; try done; set_solver|by exists gt].
  pose proof Hc as [C1 _ (N1 & N2 & N3) D0 D1 D2 _ _].
  apply (run_returns s t r i0 i1 i2 (if q_write r then 0 else VRING_DESC_F_WRITE)); rewrite ?D0, ?D1, ?D2; try done.
  - by apply req_at_lookup.
  - apply (free_length _ _ _ _ I).
  - apply (Forall_impl _ _ _ C1). intros i Hi. split; [by apply (own_lt _ _ _ _ I) in Hi|by apply (free_false _ _ _ _ I) in Hi].
Qed.

(** The request is submitted, or there are too few descriptors. *)
Lemma run_begin : q_pc r = Begin ->
  (exists i0 i1 i2 s', (forall i, i ∈ [i0; i1; i2] -> own !! i = Some None) /\
     virtio_disk_rw t s = Ok tt s' /\ vinv (mk_sys s' d (snapshot s d t r g)) (set_all (Some t) own [i0; i1; i2]) (avq ++ [i0]) usq /\
     exists r', reqs s' = <[t := r']> (reqs s) /\ q_pc r' = Waiting i0) \/
  (exists s', (cnt (free s) < 3)%nat /\ virtio_disk_rw t s = Ok tt s' /\ vinv (mk_sys s' d (snapshot s d t r g)) own avq usq /\
     forall r', reqs s' !! t = Some r' -> q_pc r' = Begin).
Proof.
  intros Hpc. unfold snapshot. rewrite Hpc.
  destruct (alloc3_ok s (free_length _ _ _ _ I) (iv_desc _ _ _ _ I)) as [(i0 & i1 & i2 & N1 & N2 & N3 & F0 & F1 & F2 & E)|(Hc & ds & rs & Hds & Hkeep & Hwk & E)].
  - left. exists i0, i1, i2. pose proof (inv_submit _ _ _ _ _ _ _ _ _ _ _ I Hr Hpc Hsl N1 N2 N3 F0 F1 F2) as I'.
    pose proof (sub_b _ _ _ _ _ _ _ _ I Hr Hpc) as Hb.
    assert (Hr' : reqs (submitted t r i0 i1 i2 s) !! t = Some (set_pc (Waiting i0) r)) by (cbn [reqs submitted]; by rewrite list_lookup_alter, decide_True, Hr).
    eexists. split_and!; [by eapply sub_free| | |].
    + unfold virtio_disk_rw. unfold bindM at 1, getM at 1. rewrite (req_at_lookup _ _ _ Hr), Hpc. erewrite bindM_ok by exact E. cbv iota beta.
      transitivity (rw_wait t (q_b r) i0 (submitted t r i0 i1 i2 s)); [reflexivity|]. unfold rw_wait, bindM at 1, getM at 1. rewrite submitted_buf, decide_True by done. cbn [vb_disk]. reflexivity.
    + eapply inv_resleep; [exact I'|exact Hr'|]. pose proof (iv_req _ _ _ _ I' t _ Hr') as H. unfold req_ok in *. cbn [q_pc set_pc set_sleep q_b q_sleep sv sd sg] in *.
      destruct H as (? & _ & (j1 & j2 & Hc) & gt & Hgt & Hph). split_and!; [done|right; split; [done|]| |by exists gt].
      * by rewrite submitted_buf, decide_True.
      * exists j1, j2. by destruct Hc; split.
    + exists (set_sleep (Some (ChBuf (q_b r))) (set_pc (Waiting i0) r)). split; [|done]. cbn [reqs set_reqs submitted].
      apply list_eq. intros j. rewrite !list_lookup_alter, list_lookup_insert. destruct (decide (j = t)) as [->|Hne].
      * rewrite !decide_True by first [done|split; [done|by eapply lookup_lt_Some]]. by rewrite Hr.
      * by rewrite !decide_False by naive_solver.
  - right. eexists. split; [done|]. split; [unfold virtio_disk_rw; unfold bindM at 1, getM at 1; rewrite (req_at_lookup _ _ _ Hr), Hpc; erewrite bindM_ok by exact E; reflexivity|].
    pose proof (inv_woken _ _ _ _ _ _ _ _ I Hds Hkeep Hwk) as I1. destruct (Forall2_lookup_l _ _ _ _ _ (like_woken _ _ _ Hwk) Hr) as (r' & Hr' & (Eb & _ & Epc & _)).
    assert (Hpc' : q_pc r' = Begin) by congruence.
    split; [|intros r'' (r0 & Hr0 & ->)%alter_lookup_Some; rewrite decide_True by done; cbn in *; congruence].
    eapply inv_resleep; [eapply inv_snapshot; [exact I1|exact Hr'|done]|exact Hr'|]. unfold req_ok. cbn [q_pc set_sleep q_b q_sleep]. rewrite Hpc', Eb.
    split; [exact (sub_b _ _ _ _ _ _ _ _ I Hr Hpc)|]. right. by split.
Qed.
End Run.
