(* ===== verification/VirtioThms.v ===== *)
(** * The disk driver: theorems

    For a device that does what the virtio specification says: the driver never
    panics, no interrupt or step of a call gets stuck, every call that returns has
    moved its block, and no call is ever left asleep for good. *)

From stdpp Require Import base list gmap strings relations.
From Stdlib Require Import ZArith Lia.
From S2P Require Import Prelude Layout Virtio VirtioSpec VirtioSteps.
Open Scope Z_scope.

Definition good (x : vsys) : Prop := exists own avq usq, vinv x own avq usq.

(** ** Initialisation *)

(** The device the driver looks for, with a queue that is long enough. *)
Definition identified (R : list (Z * Z) -> Z -> Z) : Prop := forall w,
  R w VIRTIO_MMIO_MAGIC_VALUE = 0x74726976 /\ R w VIRTIO_MMIO_VERSION = 1 /\ R w VIRTIO_MMIO_DEVICE_ID = 2 /\
  R w VIRTIO_MMIO_VENDOR_ID = 0x554d4551 /\ Z.of_nat NUM <= R w VIRTIO_MMIO_QUEUE_NUM_MAX.

Definition vdisk_ready (bs : list vbuf) (m : list (Z * Z)) : vdisk :=
  mk_vdisk (replicate NUM desc0) 0 (replicate NUM 0%nat) 0 (replicate NUM 0%nat) (replicate NUM true) 0 (replicate NUM info0) (replicate NUM blk0) bs [] m.

Lemma put_step {A} r v m s (k : unit -> M vdisk A) : bindM (put_reg r v) k (set_mmio m s) = k tt (set_mmio ((r, u32 v) :: m) s).
Proof. done. Qed.
Lemma get_step {A} R r m s (k : Z -> M vdisk A) : bindM (get_reg R r) k (set_mmio m s) = k (R m r) (set_mmio m s).
Proof. done. Qed.
Lemma clear_step {A} m s (k : unit -> M vdisk A) :
  bindM (modifyM (fun s => set_used 0 (replicate NUM 0%nat) (set_avail 0 (replicate NUM 0%nat) (set_desc (replicate NUM desc0) s)))) k (set_mmio m s) =
  k tt (set_mmio m (set_used 0 (replicate NUM 0%nat) (set_avail 0 (replicate NUM 0%nat) (set_desc (replicate NUM desc0) s)))).
Proof. done. Qed.
Lemma free_step idx : forall s, for_each idx (fun i => modifyM (fun s => set_free (<[i := true]> (free s)) s)) s = Ok tt (set_free (set_all true (free s) idx) s).
Proof. induction idx as [|i idx IH]; intros s; [by destruct s|]. cbn [for_each]. unfold bindM at 1, modifyM at 1. by rewrite IH. Qed.
Ltac init_steps := repeat first [rewrite put_step | rewrite get_step | rewrite clear_step]; cbv zeta.

(** Initialisation finds the device and leaves every descriptor free, or panics. *)
Lemma init_ready R pages bs s : virtio_disk_init R pages (vdisk_boot bs) = Ok tt s -> exists m, s = vdisk_ready bs m.
Proof.
  change (vdisk_boot bs) with (set_mmio [] (vdisk_boot bs)). unfold virtio_disk_init. init_steps. destruct (_ || _); [discriminate|].
  init_steps. destruct (_ =? 0); [discriminate|]. destruct (_ <? _); [discriminate|]. init_steps. rewrite free_step. intros E. injection E as <-. eexists. reflexivity.
Qed.
Lemma init_identified R pages bs : identified R -> exists s, virtio_disk_init R pages (vdisk_boot bs) = Ok tt s.
Proof.
  intros H. change (vdisk_boot bs) with (set_mmio [] (vdisk_boot bs)). unfold virtio_disk_init. init_steps.
  destruct (H []) as (-> & -> & -> & -> & _). cbn [Z.eqb Pos.eqb negb orb]. init_steps.
  match goal with |- context [R ?w VIRTIO_MMIO_QUEUE_NUM_MAX] => destruct (H w) as (_ & _ & _ & _ & Hm); generalize dependent (R w VIRTIO_MMIO_QUEUE_NUM_MAX) end.
  intros max Hm. unfold NUM in Hm. destruct (Z.eqb_spec max 0); [lia|]. destruct (Z.ltb_spec max (Z.of_nat NUM)); [unfold NUM in *; lia|].
  init_steps. rewrite free_step. by eexists.
Qed.
(** The three regions of [disk.pages] are apart. *)
Lemma regions_apart pages : disk_desc pages + Z.of_nat NUM * 16 <= disk_avail pages /\
  disk_avail pages + 2 * (3 + Z.of_nat NUM) <= disk_used pages /\ disk_used pages + 4 + 8 * Z.of_nat NUM <= pages + 2 * PGSIZE.
Proof. unfold disk_desc, disk_avail, disk_used, NUM, PGSIZE. lia. Qed.

Lemma ready_good bs m f : Forall vbuf_ok bs -> sectors_ok f -> good (sys_init (vdisk_ready bs m) f).
Proof.
  intros Hb Hf. exists (replicate NUM None), [], []. assert (R : ring_ok (replicate NUM 0%nat) 0 0 []).
  { split; [done|lia|done|unfold NUM; cbn; lia|done]. }
  split; try done; cbn.
  - apply NoDup_nil_2.
  - intros h Hh. by apply not_elem_of_nil in Hh.
  - intros i t Hi. exfalso. change (replicate NUM (@None nat) !! i = Some (Some t)) in Hi. by apply lookup_replicate in Hi as [? _].
Qed.

Lemma init_good R pages bs s f : virtio_disk_init R pages (vdisk_boot bs) = Ok tt s -> Forall vbuf_ok bs -> sectors_ok f -> good (sys_init s f).
Proof. intros [m ->]%init_ready Hb Hf. by apply ready_good. Qed.

Section Steps.
Context (device : vdisk * vdev -> vdisk * vdev -> Prop).
Hypothesis (Hdev : forall a b, device a b -> virtio_step a b).

Lemma step_good x y : vstep device x y -> good x -> good y.
Proof.
  intros H (own & avq & usq & I). destruct H as [s d g s' d' H|s d g irq s' H|s d g t r s' Hr Hsl H|s d g b w Hb Hu|s d g b v Hu Hv].
  - apply Hdev in H. inversion H as [s0 d0 Hne|s0 d0 h s1 d1 Hh Hp|s0 d0 h s1 d1 Hh Hp]; subst.
    + destruct avq as [|h avq]; [by pose proof (ring_empty _ _ _ (iv_avail _ _ _ _ I))|]. apply inv_take in I. by exists own, avq, usq.
    + destruct (inv_finish _ _ _ _ _ _ h I Hh) as (s2 & d2 & E & I'). simplify_eq. by exists own, avq, (usq ++ [h]).
    + destruct (inv_finish _ _ _ _ _ _ h I Hh) as (s2 & d2 & E & I'). congruence.
  - destruct (inv_intr irq _ _ _ _ _ _ I) as (s2 & E & I'). rewrite E in H. injection H as <-. by exists own, avq, [].
  - fold (snapshot s d t r g). destruct (q_pc r) as [|i0|] eqn:Hpc.
    + destruct (run_begin _ _ _ _ _ _ _ _ I Hr Hsl Hpc) as [(i0 & i1 & i2 & s2 & _ & E & I' & _)|(s2 & _ & E & I' & _)]; rewrite E in H; injection H as <-; by eexists _, _, _.
    + unfold snapshot. rewrite Hpc. destruct (decide (vb_disk (buf_at s (q_b r)) = 1)) as [Hd|Hd].
      * destruct (run_pending _ _ _ _ _ _ _ _ I Hr i0 Hpc Hd) as (s2 & E & I' & _). rewrite E in H. injection H as <-. by eexists _, _, _.
      * destruct (run_done _ _ _ _ _ _ _ _ I Hr Hsl i0 Hpc Hd) as (i1 & i2 & E & I' & _). rewrite E in H. injection H as <-. by eexists _, _, _.
    + unfold snapshot. rewrite Hpc. rewrite (run_finished _ _ _ Hr Hpc) in H. injection H as <-. by eexists _, _, _.
  - exists own, avq, usq. by apply inv_call.
  - exists own, avq, usq. by apply inv_owner.
Qed.
Lemma steps_good x y : rtc (vstep device) x y -> good x -> good y.
Proof. induction 1; [done|]. intros Hg. by eapply IHrtc, step_good. Qed.
End Steps.

(** C14: after [virtio_disk_init], for every device that keeps to the virtio
    specification and whatever it and the callers do, in whatever order, the
    interrupt handler and every step of every call of [virtio_disk_rw] succeed: no panic,
    no request with a non-zero status, no descriptor freed twice.  When a call
    returns, a read has put the block as it was on the disk into the buffer, and a
    write has put the buffer's data, as it was when the request was submitted, on
    the disk. *)
Theorem virtio_disk_correct (device : vdisk * vdev -> vdisk * vdev -> Prop) R pages bs s f x :
  (forall a b, device a b -> virtio_step a b) -> Forall vbuf_ok bs -> sectors_ok f ->
  virtio_disk_init R pages (vdisk_boot bs) = Ok tt s -> rtc (vstep device) (sys_init s f) x ->
  (forall irq, exists s', virtio_disk_intr irq (sv x) = Ok tt s') /\
  forall t r, reqs (sv x) !! t = Some r -> q_sleep r = None ->
    exists s', virtio_disk_rw t (sv x) = Ok tt s' /\
      forall r', q_pc r <> Finished -> reqs s' !! t = Some r' -> q_pc r' = Finished ->
        exists data blk, sg x !! t = Some (data, blk) /\
          let b := buf_at s' (q_b r) in
          if q_write r then vb_data b = data /\ block (sd x) (vb_blockno b) = data
          else vb_data b = blk /\ block (sd x) (vb_blockno b) = blk.
Proof.
  intros Hdev Hb Hf Hi Hx. apply (steps_good device Hdev) in Hx as (own & avq & usq & I); [|by eapply init_good]. clear s Hi. destruct x as [s d g]. cbn [sv sd sg].
  split; [intros irq; destruct (inv_intr irq _ _ _ _ _ _ I) as (s' & ? & _); by exists s'|]. intros t r Hr Hsl. destruct (q_pc r) as [|i0|] eqn:Hpc.
  - destruct (run_begin _ _ _ _ _ _ _ _ I Hr Hsl Hpc) as [(i0 & i1 & i2 & s2 & _ & E & I' & r1 & E1 & E2)|(s2 & _ & E & I' & Hbg)].
    + exists s2. split; [done|]. intros r' _. rewrite E1, list_lookup_insert, decide_True; [|split; [done|by eapply lookup_lt_Some]]. intros [= <-] ?. congruence.
    + exists s2. split; [done|]. intros r' _ Hr' Hf'. specialize (Hbg r' Hr'). congruence.
  - destruct (decide (vb_disk (buf_at s (q_b r)) = 1)) as [Hd|Hd].
    + destruct (run_pending _ _ _ _ _ _ _ _ I Hr i0 Hpc Hd) as (s2 & E & I' & Ers). exists s2. split; [done|]. intros r' _ Hr' Hf'. exfalso.
      rewrite Ers in Hr'. apply alter_lookup_Some in Hr' as (r0 & Hr0 & ->). rewrite decide_True in Hf' by done. cbn in Hf'. congruence.
    + destruct (run_done _ _ _ _ _ _ _ _ I Hr Hsl i0 Hpc Hd) as (i1 & i2 & E & I' & [data blk] & Hgt & Htr). eexists. split; [exact E|]. intros r' _ _ _.
      exists data, blk. split; [done|exact Htr].
  - exists s. split; [by eapply run_finished|]. done.
Qed.

(** ** Every call can finish *)

Local Abbreviation vsteps := (rtc (vstep virtio_step)).
Local Abbreviation pcs x := (q_pc <$> reqs (sv x)).

Lemma intr_pcs fuel : forall s s', intr_loop fuel s = Ok tt s' -> q_pc <$> reqs s' = q_pc <$> reqs s.
Proof.
  induction fuel as [|fuel IH]; intros s s' E; [done|]. cbn [intr_loop] in E. unfold bindM at 1, getM at 1 in E. unfold id in E.
  destruct (used_idx s =? used_ring_idx s); [by injection E as <-|]. destruct (negb _); [done|]. destruct (in_b _) as [b|]; [|done].
  apply IH in E. rewrite E. cbn. rewrite <- list_fmap_compose. apply list_fmap_ext. intros i r _. unfold compose, vwake. by case_decide.
Qed.
Lemma perform_reqs h s d s' d' : perform h s d = Some (s', d') -> reqs s' = reqs s /\ v_busy d' = filter (fun x => x <> h) (v_busy d).
Proof.
  unfold perform. destruct (d_addr _); try done. destruct (d_addr _); try done. destruct (d_addr _); try done.
  repeat case_match; intros [= <- <-]; done.
Qed.

(** The device does what it has been asked to do, and the interrupt is handled. *)
Lemma drain_taken s d g own : forall n usq, (length (v_busy d) = n)%nat -> vinv (mk_sys s d g) own [] usq ->
  exists y, vsteps (mk_sys s d g) y /\ vinv y own [] [] /\ v_busy (sd y) = [] /\ pcs y = q_pc <$> reqs s.
Proof.
  intros n. revert s d. induction n as [n IH] using lt_wf_ind. intros s d usq Hn I. destruct (v_busy d) as [|h l] eqn:Hl.
  - destruct (inv_intr 1 _ _ _ _ _ _ I) as (s' & E & I'). exists (mk_sys s' d g). split_and!; [|done|done|].
    + apply rtc_once. by apply st_intr with (irq := 1).
    + unfold virtio_disk_intr, bindM, put_reg, modifyM, getM in E. by apply intr_pcs in E.
  - destruct (inv_finish _ _ _ _ _ _ h I) as (s' & d' & E & I'); [rewrite Hl; by left|]. destruct (perform_reqs _ _ _ _ _ E) as [Er Eb].
    destruct (IH (length (v_busy d'))) with (s := s') (d := d') (usq := usq ++ [h]) as (y & Hy & Iy & Hby & Hpy); [|done|done|].
    + rewrite Eb, Hl, filter_cons_False by (intros H; by apply H). pose proof (length_filter (fun x => x <> h) l). cbn in Hn. lia.
    + exists y. split_and!; [|done|done|by rewrite Hpy, Er]. eapply rtc_l; [|exact Hy]. apply st_device. eapply vs_finish; [rewrite Hl; by left|done].
Qed.
Lemma drain s d g own avq usq : vinv (mk_sys s d g) own avq usq ->
  exists y, vsteps (mk_sys s d g) y /\ vinv y own [] [] /\ v_busy (sd y) = [] /\ pcs y = q_pc <$> reqs s.
Proof.
  revert d. induction avq as [|h avq IH]; intros d I; [by eapply drain_taken|].
  destruct (IH (taken s d)) as (y & Hy & Iy & Hby & Hpy); [by apply inv_take in I|]. exists y. split_and!; try done.
  eapply rtc_l; [|exact Hy]. apply st_device, vs_take. apply (ring_nonempty _ _ _ _ _ (iv_avail _ _ _ _ I)).
Qed.

(** The calls that wait for their requests return. *)
Definition is_waiting (p : rpc) : bool := match p with Waiting _ => true | _ => false end.
Definition cleared (p : rpc) : rpc := match p with Waiting _ => Finished | _ => p end.

Lemma finished_pcs t i0 i1 i2 s : q_pc <$> reqs (finished t i0 i1 i2 s) = alter (fun _ => Finished) t (q_pc <$> reqs s).
Proof.
  cbn [reqs finished set_reqs]. apply list_eq. intros j. rewrite list_lookup_fmap, !list_lookup_alter, list_lookup_fmap.
  assert (E : forall o : option req, q_pc <$> (vwake ChFree <$> o) = q_pc <$> o) by (intros [r|]; [|done]; cbn; unfold vwake; by case_decide).
  case_decide; rewrite !list_lookup_fmap; [by destruct (reqs s !! t)|apply E].
Qed.
Lemma cleared_alter t (l : list rpc) h : l !! t = Some (Waiting h) -> cleared <$> alter (fun _ => Finished) t l = cleared <$> l.
Proof.
  intros Ht. apply list_eq. intros j. rewrite !list_lookup_fmap, list_lookup_alter. case_decide; [|done]. subst. by rewrite Ht.
Qed.
Lemma waiting_alter t (l : list rpc) h : l !! t = Some (Waiting h) ->
  length (filter (fun p => is_waiting p) l) = S (length (filter (fun p => is_waiting p) (alter (fun _ => Finished) t l))).
Proof.
  revert t. induction l as [|p l IH]; intros [|t] Ht; [done|done| |].
  - injection Ht as ->. reflexivity.
  - change (alter ?f (S t) (p :: l)) with (p :: alter f t l). specialize (IH t Ht). rewrite !filter_cons. case_decide; cbn; lia.
Qed.
Lemma no_waiting (l : list rpc) : filter (fun p => is_waiting p) l = [] -> cleared <$> l = l.
Proof.
  intros H. rewrite <- (list_fmap_id l) at 2. apply list_fmap_ext. intros i p Hi. apply list_elem_of_lookup_2 in Hi.
  assert (Hp : ~ is_waiting p) by (intros Hp; apply (not_elem_of_nil p); rewrite <- H; by apply list_elem_of_filter). by destruct p; [|destruct Hp|].
Qed.

(** A call whose request is done returns when it runs. *)
Lemma finish_one y own t h : vinv y own [] [] -> v_busy (sd y) = [] -> pcs y !! t = Some (Waiting h) ->
  exists z own', vstep virtio_step y z /\ vinv z own' [] [] /\ pcs z = alter (fun _ => Finished) t (pcs y).
Proof.
  intros I Hb Hp. rewrite list_lookup_fmap in Hp. destruct (reqs (sv y) !! t) as [r|] eqn:Hr; [|done]. injection Hp as Hp. destruct y as [s d g]. cbn [sv sd] in *.
  destruct (waiting_inv _ _ _ _ I t r h Hr Hp) as (_ & Hs & _ & gt & _ & Hph). cbn [sv sd] in *. unfold phase_ok in Hph. rewrite Hb in Hph.
  rewrite !decide_False in Hph by (cbn; apply not_elem_of_nil). destruct Hph as (_ & Hd & _). destruct Hs as [Hs|[_ Hs]]; [|congruence].
  destruct (run_done _ _ _ _ _ _ _ _ I Hr Hs h Hp) as (i1 & i2 & E & I' & _); [congruence|].
  eexists _, _. split_and!; [|exact I'|apply finished_pcs]. pose proof (st_run virtio_step s d g t r _ Hr Hs E) as H. by rewrite Hp in H.
Qed.
Lemma finish_all n : forall s d g own avq usq, vinv (mk_sys s d g) own avq usq -> length (filter (fun p => is_waiting p) (q_pc <$> reqs s)) = n ->
  exists y own', vsteps (mk_sys s d g) y /\ vinv y own' [] [] /\ pcs y = cleared <$> (q_pc <$> reqs s).
Proof.
  induction n as [|n IH]; intros s d g own avq usq I Hn; destruct (drain _ _ _ _ _ _ I) as (y & Hy & Iy & Hby & Hpy).
  - exists y, own. split_and!; [done..|]. apply nil_length_inv in Hn. by rewrite (no_waiting _ Hn).
  - destruct (filter _ _) as [|p l] eqn:Hf in Hn; [done|].
    assert (Hp : p ∈ filter (fun p => is_waiting p) (q_pc <$> reqs s)) by (rewrite Hf; by left).
    apply list_elem_of_filter in Hp as [Hw Hp]. destruct p as [|h|]; try done. apply list_elem_of_lookup_1 in Hp as [t Ht].
    rewrite <- Hpy in Ht. destruct (finish_one _ _ _ _ Iy Hby Ht) as (z & own' & Hz & Iz & Hpz). rewrite Hpy in Ht.
    destruct z as [s1 d1 g1]. destruct (IH s1 d1 g1 own' [] [] Iz) as (w & own'' & Hw' & Iw & Hpw).
    { cbn [sv] in Hpz. rewrite Hpz, Hpy. pose proof (waiting_alter _ _ _ Ht) as E. rewrite Hf in E. cbn in *. lia. }
    exists w, own''. split_and!; [|done|].
    + etransitivity; [exact Hy|]. by eapply rtc_l.
    + rewrite Hpw. cbn [sv] in Hpz. rewrite Hpz, Hpy. by eapply cleared_alter.
Qed.

(** When no call waits for a request, all descriptors are free, and no call is
    asleep. *)
Lemma all_free y own : vinv y own [] [] -> (forall h, Waiting h ∉ pcs y) -> cnt (free (sv y)) = NUM.
Proof.
  intros I Hw. rewrite (iv_free _ _ _ _ I). assert (E : own = replicate NUM None); [|by rewrite E].
  rewrite <- (iv_own _ _ _ _ I). symmetry. apply replicate_as_elem_of. split; [done|]. intros [t|] Ho; [|done].
  apply list_elem_of_lookup_1 in Ho as [i Hi]. destruct (iv_owner _ _ _ _ I i t Hi) as (r & h & Hr & Hpc). destruct (Hw h).
  apply list_elem_of_fmap. exists r. split; [done|]. by eapply list_elem_of_lookup_2.
Qed.
Lemma cleared_not_waiting (l : list rpc) h : Waiting h ∉ cleared <$> l.
Proof. intros Hin. apply list_elem_of_fmap in Hin as (p & E & _). by destruct p. Qed.

(** C15: no wakeup is lost and there is no deadlock: from every state the driver
    can be in, every call of [virtio_disk_rw], asleep or not, can come to its
    end, by steps of the device, interrupts and the calls themselves. *)
Theorem virtio_disk_live R pages bs s f x t : Forall vbuf_ok bs -> sectors_ok f ->
  virtio_disk_init R pages (vdisk_boot bs) = Ok tt s -> rtc (vstep virtio_step) (sys_init s f) x ->
  (t < length (reqs (sv x)))%nat -> exists y, rtc (vstep virtio_step) x y /\ q_pc <$> reqs (sv y) !! t = Some Finished.
Proof.
  intros Hb Hf Hi Hx Ht. apply (steps_good virtio_step) in Hx as (own & avq & usq & I); [|done|by eapply init_good]. clear s Hi. destruct x as [s d g]. cbn [sv] in *.
  destruct (finish_all _ _ _ _ _ _ _ I eq_refl) as (y & own' & Hy & Iy & Hpy). destruct (lookup_lt_is_Some_2 _ _ Ht) as [r Hr].
  assert (Hty : pcs y !! t = Some (cleared (q_pc r))) by (by rewrite Hpy, !list_lookup_fmap, Hr).
  rewrite list_lookup_fmap in Hty. destruct (q_pc r) eqn:Hpc; cbn [cleared] in Hty; [|by exists y..].
  destruct (reqs (sv y) !! t) as [r'|] eqn:Hr'; [|done]. injection Hty as Hpc'. destruct y as [s1 d1 g1]. cbn [sv] in *.
  assert (Hfree : cnt (free s1) = NUM) by (apply (all_free _ _ Iy); cbn [sv]; rewrite Hpy; apply cleared_not_waiting).
  assert (Hsl : q_sleep r' = None).
  { pose proof (iv_req _ _ _ _ Iy t r' Hr') as H. unfold req_ok in H. rewrite Hpc' in H. destruct H as [_ [?|[_ H]]]; [done|]. cbn [sv] in H. rewrite Hfree in H. unfold NUM in H. lia. }
  destruct (run_begin _ _ _ _ _ _ _ _ Iy Hr' Hsl Hpc') as [(i0 & i1 & i2 & s2 & _ & E & I2 & r2 & E2 & Hpc2)|(s2 & Hc & _)]; [|rewrite Hfree in Hc; unfold NUM in Hc; lia].
  destruct (finish_all _ _ _ _ _ _ _ I2 eq_refl) as (z & own2 & Hz & _ & Hpz). exists z. split.
  - etransitivity; [exact Hy|]. eapply rtc_l; [|exact Hz]. by apply st_run with (r := r').
  - rewrite <- list_lookup_fmap, Hpz, E2, !list_lookup_fmap, list_lookup_insert_eq by (by eapply lookup_lt_Some). cbn. by rewrite Hpc2.
Qed.

(** ** An example: one call writes a buffer to block 3 *)

Definition ex_regs (w : list (Z * Z)) (r : Z) : Z :=
  if r =? VIRTIO_MMIO_MAGIC_VALUE then 0x74726976 else if r =? VIRTIO_MMIO_VERSION then 1 else if r =? VIRTIO_MMIO_DEVICE_ID then 2
  else if r =? VIRTIO_MMIO_VENDOR_ID then 0x554d4551 else if r =? VIRTIO_MMIO_QUEUE_NUM_MAX then 1024 else 0.
Definition ex_data : list Z := replicate (Z.to_nat 1024) 7.
Definition ex_bufs : list vbuf := [mk_vbuf 3 0 ex_data].
Definition ex_sect (n : Z) : list Z := replicate SECT 0.
Definition ex_req : req := mk_req 0 true Begin None.
Definition ex_called (m : list (Z * Z)) : vdisk := set_reqs [ex_req] (vdisk_ready ex_bufs m).
Definition ex_submitted (m : list (Z * Z)) : vdisk :=
  let s := submitted 0 ex_req 0 1 2 (ex_called m) in set_reqs (alter (set_sleep (Some (ChBuf 0))) 0%nat (reqs s)) s.
Definition ex_dev (m : list (Z * Z)) : vdev := taken (ex_submitted m) (mk_vdev 0 [] ex_sect).
Definition ex_moved (m : list (Z * Z)) : vdisk := moved ex_req 0 (ex_submitted m) (ex_dev m).
Definition ex_done (m : list (Z * Z)) : vdisk :=
  let s := ex_moved m in acked 0 (set_mmio ((VIRTIO_MMIO_INTERRUPT_ACK, u32 (Z.land 1 0x3)) :: mmio s) s).
Definition ex_snap : list (list Z * list Z) := [(ex_data, dread ex_sect 6)].

Lemma ex_identified : identified ex_regs.
Proof. intros w. by repeat split. Qed.
Lemma ex_bufs_ok : Forall vbuf_ok ex_bufs.
Proof. apply Forall_singleton. split; [cbn [vb_blockno]; lia|apply length_replicate]. Qed.
Lemma ex_sect_ok : sectors_ok ex_sect.
Proof. intros n. apply length_replicate. Qed.
Lemma ex_intr m fuel : intr_loop (S (S fuel)) (set_mmio ((VIRTIO_MMIO_INTERRUPT_ACK, u32 (Z.land 1 0x3)) :: mmio (ex_moved m)) (ex_moved m)) = Ok tt (ex_done m).
Proof. rewrite intr_step with (h := 0%nat) (b := 0%nat); [|done|reflexivity..]. by apply intr_stop. Qed.
Lemma ex_run m : rtc (vstep virtio_step) (sys_init (vdisk_ready ex_bufs m) ex_sect) (mk_sys (ex_done m) (moved_dev ex_req 0 (ex_submitted m) (ex_dev m)) ex_snap).
Proof.
  eapply rtc_l. { apply st_call with (b := 0%nat) (w := true); [cbn; lia|]. intros t r Hr. done. }
  eapply rtc_l. { apply st_run with (t := 0%nat) (r := ex_req) (s' := ex_submitted m); reflexivity. }
  eapply rtc_l. { apply st_device with (d' := ex_dev m), vs_take. done. }
  eapply rtc_l. { apply st_device with (s' := ex_moved m) (d' := moved_dev ex_req 0 (ex_submitted m) (ex_dev m)). eapply (vs_finish _ _ 0%nat); [by left|reflexivity]. }
  apply rtc_once. apply st_intr with (irq := 1). apply (ex_intr m 0).
Qed.

Lemma ex_returns m : virtio_disk_rw 0 (ex_done m) = Ok tt (finished 0 0 1 2 (ex_done m)).
Proof. apply run_returns with (r := mk_req 0 true (Waiting 0) None) (fl := 0); first [reflexivity|discriminate|repeat constructor]. Qed.
Definition ex_end (m : list (Z * Z)) : vsys := mk_sys (ex_done m) (moved_dev ex_req 0 (ex_submitted m) (ex_dev m)) ex_snap.
Lemma ex_facts m : reqs (ex_done m) !! 0%nat = Some (mk_req 0 true (Waiting 0) None) /\
  reqs (finished 0 0 1 2 (ex_done m)) !! 0%nat = Some (mk_req 0 true Finished None) /\ vb_blockno (buf_at (finished 0 0 1 2 (ex_done m)) 0) = 3.
Proof. by repeat split. Qed.

Lemma virtio_disk_correct_witness : exists s x s',
  virtio_disk_init ex_regs 0x80010000 (vdisk_boot ex_bufs) = Ok tt s /\ rtc (vstep virtio_step) (sys_init s ex_sect) x /\
  virtio_disk_rw 0 (sv x) = Ok tt s' /\ vb_data (buf_at s' 0) = ex_data /\ block (sd x) 3 = ex_data.
Proof.
  destruct (init_identified ex_regs 0x80010000 ex_bufs ex_identified) as [s Hs]. destruct (init_ready _ _ _ _ Hs) as [m ->].
  destruct (virtio_disk_correct virtio_step ex_regs 0x80010000 ex_bufs _ ex_sect (ex_end m) (fun _ _ H => H) ex_bufs_ok ex_sect_ok Hs (ex_run m)) as [_ H].
  destruct (ex_facts m) as (F1 & F2 & F3). destruct (H 0%nat _ F1 eq_refl) as (s' & E & Hd). cbn [sv sg ex_end] in E, Hd. rewrite ex_returns in E. injection E as <-.
  destruct (Hd _ ltac:(discriminate) F2 eq_refl) as (data & blk & Hg & Hdata & Hblk). cbn [q_b] in Hdata, Hblk. rewrite F3 in Hblk. injection Hg as <- <-.
  exists (vdisk_ready ex_bufs m), (ex_end m), (finished 0 0 1 2 (ex_done m)). split; [exact Hs|]. split; [exact (ex_run m)|]. split; [exact (ex_returns m)|]. by split.
Defined.

(** A call that has just been made, with a device that has done nothing yet. *)
Lemma virtio_disk_live_witness : exists s y,
  virtio_disk_init ex_regs 0x80010000 (vdisk_boot ex_bufs) = Ok tt s /\
  rtc (vstep virtio_step) (mk_sys (set_reqs (reqs s ++ [ex_req]) s) (mk_vdev 0 [] ex_sect) [([], [])]) y /\ q_pc <$> reqs (sv y) !! 0%nat = Some Finished.
Proof.
  destruct (init_identified ex_regs 0x80010000 ex_bufs ex_identified) as [s Hs]. destruct (init_ready _ _ _ _ Hs) as [m ->].
  exists (vdisk_ready ex_bufs m). destruct (virtio_disk_live ex_regs 0x80010000 ex_bufs _ ex_sect
    (mk_sys (ex_called m) (mk_vdev 0 [] ex_sect) [([], [])]) 0%nat ex_bufs_ok ex_sect_ok Hs) as (y & Hy & E).
  - apply rtc_once. apply (st_call virtio_step (vdisk_ready ex_bufs m) _ [] 0%nat true); [cbn; lia|]. intros t r Hr. done.
  - cbn. lia.
  - exists y. by split_and!.
Defined.
