(* ===== verification/Umalloc.v ===== *)
(** * The user-level allocator (user/umalloc.c)

    A free list in address order, circular through [base], in a process's
    memory.  A [Header] is 16 bytes: the next block's address at offset 0 and the
    size in headers, its own included, at offset 8.  Pointers are byte
    addresses.  The loops over the free list take fuel. *)

From stdpp Require Import base list gmap strings.
From Stdlib Require Import ZArith Lia.
From S2P Require Import Prelude Mem.
Open Scope Z_scope.

Definition HDR : Z := 16.
Definition load32 (m : mem) (a : Z) : Z := le_val (mread m a 4).
Definition store32 (m : mem) (a v : Z) : mem := mwrite m a (le_bytes 4 v).

(** [p->s.ptr] and [p->s.size]. *)
Definition hptr (m : mem) (a : Z) : Z := load64 m a.
Definition hsize (m : mem) (a : Z) : Z := load32 m (a + 8).
Definition put_ptr (a v : Z) (m : mem) : mem := store64 m a v.
Definition put_size (a v : Z) (m : mem) : mem := store32 m (a + 8) v.

#[global] Arguments hptr : simpl never.
#[global] Arguments hsize : simpl never.
#[global] Arguments put_ptr : simpl never.
#[global] Arguments put_size : simpl never.

(** The process's memory, [freep], and the end of the memory [sbrk] has given
    out. *)
Record heap := mk_heap { um : mem; freep : Z; brk : Z }.
Definition set_um (m : mem) (h : heap) : heap := mk_heap m (freep h) (brk h).
Definition set_freep (p : Z) (h : heap) : heap := mk_heap (um h) p (brk h).
Local Abbreviation H := (M heap).
Definition mem_do (f : mem -> mem) : H unit := modifyM (fun h => set_um (f (um h)) h).
Definition get_ptr (a : Z) : H Z := getM (fun h => hptr (um h) a).
Definition get_size (a : Z) : H Z := getM (fun h => hsize (um h) a).

(** ** free *)

(** The loop of [free]: the block after which [bp] belongs. *)
Fixpoint free_loop (m : mem) (bp p : Z) (fuel : nat) : option Z :=
  match fuel with
  | O => None
  | S fuel =>
      let q := hptr m p in
      if (p <? bp) && (bp <? q) then Some p
      else if (q <=? p) && ((p <? bp) || (bp <? q)) then Some p
      else free_loop m bp q fuel
  end.

(** [bp] is linked to the block after [p], or joined with it. *)
Definition link_right (bp p : Z) (m : mem) : mem :=
  if bp + HDR * hsize m bp =? hptr m p then
    let m := put_size bp (u32 (hsize m bp + hsize m (hptr m p))) m in
    put_ptr bp (hptr m (hptr m p)) m
  else put_ptr bp (hptr m p) m.
(** [p] is linked to [bp], or joined with it. *)
Definition link_left (bp p : Z) (m : mem) : mem :=
  if p + HDR * hsize m p =? bp then
    let m := put_size p (u32 (hsize m p + hsize m bp)) m in
    put_ptr p (hptr m bp) m
  else put_ptr p bp m.

Definition free (ap : Z) (fuel : nat) : H unit := fun h =>
  let bp := ap - HDR in
  match free_loop (um h) bp (freep h) fuel with
  | None => NoFuel
  | Some p => Ok tt (set_freep p (set_um (link_left bp p (link_right bp p (um h))) h))
  end.

(** ** malloc *)

Section Malloc.
(** The address of [base]; the system call. *)
Context (base : Z) (sbrk : Z -> H Z).

Definition morecore (nu : Z) (fuel : nat) : H Z :=
  let nu := if nu <? 4096 then 4096 else nu in
  let! p := sbrk (s32 (nu * HDR)) in
  if p =? -1 then retM 0
  else
    do! mem_do (put_size p nu) in
    do! free (p + HDR) fuel in
    getM freep.

Definition nunits (nbytes : Z) : Z := u32 ((nbytes + HDR - 1) / HDR + 1).

(** The block [p] after [prevp] is large enough: it is unlinked, or its end is
    cut off. *)
Definition carve (nu prevp p : Z) : H Z :=
  let! size := get_size p in
  let! p :=
    (if size =? nu then
       let! q := get_ptr p in
       do! mem_do (put_ptr prevp q) in
       retM p
     else
       do! mem_do (put_size p (size - nu)) in
       let! size := get_size p in
       let p := p + HDR * size in
       do! mem_do (put_size p nu) in
       retM p) in
  do! modifyM (set_freep prevp) in
  retM (p + HDR).

Fixpoint malloc_loop (nu prevp p : Z) (fuel : nat) : H Z :=
  match fuel with
  | O => fun _ => NoFuel
  | S fuel =>
      let! size := get_size p in
      if nu <=? size then carve nu prevp p
      else
        let! fp := getM freep in
        if p =? fp then
          let! p := morecore nu fuel in
          if p =? 0 then retM 0
          else
            let! q := get_ptr p in
            malloc_loop nu p q fuel
        else
          let! q := get_ptr p in
          malloc_loop nu p q fuel
  end.

Definition malloc (nbytes : Z) (fuel : nat) : H Z :=
  let nu := nunits nbytes in
  let! prevp := getM freep in
  let! prevp :=
    (if prevp =? 0 then
       do! mem_do (put_ptr base base) in
       do! modifyM (set_freep base) in
       do! mem_do (put_size base 0) in
       retM base
     else retM prevp) in
  let! p := get_ptr prevp in
  malloc_loop nu prevp p fuel.
End Malloc.
