(* ===== verification/UmallocThms.v ===== *)
(** * The user-level allocator: theorems *)

From stdpp Require Import base list gmap strings relations.
From Stdlib Require Import ZArith Lia.
From S2P Require Import Prelude Mem Umalloc.
Open Scope Z_scope.

(** ** Headers in memory *)

Definition apart (a b : Z) : Prop := a + 16 <= b \/ b + 16 <= a.

Section Headers.
Implicit Types (m : mem).
Lemma load32_ext m m' a : (forall x, a <= x < a + 4 -> mget m x = mget m' x) -> load32 m a = load32 m' a.
Proof. intros E. unfold load32. f_equal. by apply mread_ext. Qed.
Lemma mget_put_ptr m a v x : x < a \/ a + 16 <= x -> mget (put_ptr a v m) x = mget m x.
Proof. intros Hx. apply mget_store64_out. lia. Qed.
Lemma mget_put_size m a v x : x < a \/ a + 16 <= x -> mget (put_size a v m) x = mget m x.
Proof. intros Hx. apply mget_mwrite_out. rewrite length_le_bytes. lia. Qed.
Lemma hptr_ext m m' a : (forall x, a <= x < a + 16 -> mget m x = mget m' x) -> hptr m a = hptr m' a.
Proof. intros E. apply load64_ext. intros x Hx. apply E. lia. Qed.
Lemma hsize_ext m m' a : (forall x, a <= x < a + 16 -> mget m x = mget m' x) -> hsize m a = hsize m' a.
Proof. intros E. apply load32_ext. intros x Hx. apply E. lia. Qed.

Lemma hptr_put_ptr m a v : 0 <= v < 2 ^ 64 -> hptr (put_ptr a v m) a = v.
Proof. intros Hv. unfold hptr, put_ptr. rewrite load64_store64_eq. by apply u64_small. Qed.
Lemma hptr_put_ptr_ne m a b v : apart a b -> hptr (put_ptr a v m) b = hptr m b.
Proof. intros H. apply hptr_ext. intros x Hx. apply mget_put_ptr. unfold apart in H. lia. Qed.
Lemma hsize_put_ptr m a b v : a = b \/ apart a b -> hsize (put_ptr a v m) b = hsize m b.
Proof. intros H. apply load32_ext. intros x Hx. apply mget_store64_out. unfold apart in H. lia. Qed.
Lemma hsize_put_size m a v : 0 <= v < 2 ^ 32 -> hsize (put_size a v m) a = v.
Proof.
  intros Hv. unfold hsize, put_size, load32, store32. change 4%nat with (length (le_bytes 4 v)) at 1. rewrite mread_mwrite_eq, le_val_bytes.
  apply Z.mod_small. done.
Qed.
Lemma hsize_put_size_ne m a b v : apart a b -> hsize (put_size a v m) b = hsize m b.
Proof. intros H. apply hsize_ext. intros x Hx. apply mget_put_size. unfold apart in H. lia. Qed.
Lemma hptr_put_size m a b v : a = b \/ apart a b -> hptr (put_size a v m) b = hptr m b.
Proof.
  intros H. apply load64_ext. intros x Hx. apply mget_mwrite_out. rewrite length_le_bytes. unfold apart in H. lia.
Qed.
End Headers.

(** ** Lists of blocks *)

(** A block: its address and its size in headers. *)
Abbreviation blk := (Z * Z)%type.
Definition inb (z : Z) (b : blk) : Prop := b.1 <= z < b.1 + 16 * b.2.
Definition free_at (L : list blk) (z : Z) : Prop := Exists (inb z) L.

(** In address order, no block touching the one before, all after [lo]. *)
Fixpoint ascending (lo : Z) (L : list blk) : Prop :=
  match L with
  | [] => True
  | b :: L => lo < b.1 /\ 0 <= b.2 /\ ascending (b.1 + 16 * b.2) L
  end.
Fixpoint ends (lo : Z) (L : list blk) : Z :=
  match L with
  | [] => lo
  | b :: L => ends (b.1 + 16 * b.2) L
  end.
(** Linked in memory; the last one points to [nxt]. *)
Fixpoint seg (m : mem) (L : list blk) (nxt : Z) : Prop :=
  match L with
  | [] => True
  | b :: L => hsize m b.1 = b.2 /\ hptr m b.1 = hd nxt (fst <$> L) /\ seg m L nxt
  end.

Lemma ascending_app lo K L : ascending lo (K ++ L) <-> ascending lo K /\ ascending (ends lo K) L.
Proof. revert lo. induction K as [|b K IH]; intros lo; cbn; [tauto|]. rewrite IH. tauto. Qed.
Lemma ascending_weaken lo lo' L : ascending lo L -> lo' <= lo -> ascending lo' L.
Proof. destruct L as [|b L]; cbn; [done|]. intros (? & ? & ?) ?. split_and!; [lia|done|done]. Qed.
Lemma ends_ge lo K : ascending lo K -> lo <= ends lo K.
Proof. revert lo. induction K as [|b K IH]; intros lo; cbn; [lia|]. intros (? & ? & H). apply IH in H. lia. Qed.
Lemma ascending_ge lo L b : ascending lo L -> b ∈ L -> lo < b.1.
Proof.
  revert lo. induction L as [|c L IH]; intros lo Ha Hb; [by apply not_elem_of_nil in Hb|]. cbn in Ha. destruct Ha as (? & ? & Ha).
  apply elem_of_cons in Hb as [->|Hb]; [done|]. specialize (IH _ Ha Hb). lia.
Qed.
Lemma ascending_before lo K b : ascending lo K -> b ∈ K -> b.1 + 16 * b.2 <= ends lo K.
Proof.
  revert lo. induction K as [|c K IH]; intros lo Ha Hb; [by apply not_elem_of_nil in Hb|]. cbn in *. destruct Ha as (? & ? & Ha).
  apply elem_of_cons in Hb as [->|Hb]; [by apply ends_ge|by eapply IH].
Qed.
Lemma seg_app m K L nxt : seg m (K ++ L) nxt <-> seg m K (hd nxt (fst <$> L)) /\ seg m L nxt.
Proof.
  induction K as [|b K IH]; cbn; [tauto|]. rewrite IH. assert (E : hd nxt (fst <$> (K ++ L)) = hd (hd nxt (fst <$> L)) (fst <$> K)) by (by destruct K).
  change (list_fmap _ _ fst (K ++ L)) with (fst <$> (K ++ L)) in *. rewrite E. tauto.
Qed.
Lemma seg_frame m m' L nxt : (forall b, b ∈ L -> hsize m' b.1 = hsize m b.1 /\ hptr m' b.1 = hptr m b.1) -> seg m L nxt -> seg m' L nxt.
Proof.
  induction L as [|b L IH]; intros Hf; [done|]. cbn [seg]. intros (E1 & E2 & Hs). destruct (Hf b ltac:(left)) as [-> ->]. split_and!; [done|done|].
  apply IH; [|done]. intros c Hc. apply Hf. by right.
Qed.
Lemma free_at_app K L z : free_at (K ++ L) z <-> free_at K z \/ free_at L z.
Proof. apply Exists_app. Qed.
Lemma free_at_cons b L z : free_at (b :: L) z <-> inb z b \/ free_at L z.
Proof. apply Exists_cons. Qed.

(** ** Finding a block's place *)

(** From a node before the place. *)
Lemma free_walk m bp base p sp L2 : base <= p -> p < bp -> bp < hd (bp + 1) (fst <$> L2) -> forall K1 lo fuel,
  ascending lo (K1 ++ (p, sp) :: L2) -> seg m (K1 ++ (p, sp) :: L2) base -> (length K1 < fuel)%nat ->
  free_loop m bp (hd p (fst <$> K1)) fuel = Some p.
Proof.
  intros Hb Hp Hn. induction K1 as [|[q sq] K1 IH]; intros lo fuel Ha Hs Hf; (destruct fuel as [|fuel]; [cbn in Hf; lia|]); cbn [free_loop hd fmap list_fmap app fst] in *.
  - destruct Hs as (_ & Hq & _). cbn [fst] in Hq. rewrite Hq. destruct L2 as [|[b sb] L2]; cbn in Hn |- *.
    + destruct (Z.ltb_spec p bp); [|lia]. destruct (Z.ltb_spec bp base); [lia|]. destruct (Z.leb_spec base p); [done|lia].
    + destruct (Z.ltb_spec p bp); [|lia]. destruct (Z.ltb_spec bp b); [done|lia].
  - destruct Hs as (_ & Hq & Hs). cbn [fst] in Hq. destruct Ha as (_ & Hsq & Ha). cbn [fst snd] in Hsq.
    assert (E : hptr m q = hd p (fst <$> K1)) by (rewrite Hq; by destruct K1). rewrite E.
    assert (Hle : q < hd p (fst <$> K1) <= p).
    { destruct K1 as [|[c sc] K1]; cbn [hd fmap list_fmap fst].
      - pose proof (ascending_ge _ _ (p, sp) Ha ltac:(left)). cbn in *. lia.
      - apply ascending_app in Ha as [Ha Ha2]. pose proof (ascending_before _ _ (c, sc) Ha ltac:(left)) as H. cbn in H, Ha, Ha2. destruct Ha as (? & ? & _), Ha2 as (? & _). lia. }
    destruct (Z.ltb_spec bp (hd p (fst <$> K1))); [lia|]. rewrite andb_false_r. destruct (Z.leb_spec (hd p (fst <$> K1)) q); [lia|]. cbn [andb].
    eapply IH; [exact Ha|done|cbn in Hf; lia].
Qed.

(** From a node after it, round through [base]. *)
Lemma free_wrap m bp base : base < bp -> forall K lo fuel n, ascending lo K -> seg m K base -> bp < hd (bp + 1) (fst <$> K) -> fuel = (n + length K)%nat ->
  free_loop m bp (hd base (fst <$> K)) fuel = free_loop m bp base n.
Proof.
  intros Hb. induction K as [|[q sq] K IH]; intros lo fuel n Ha Hs Hq ->; cbn [length]; [by rewrite Nat.add_0_r|]. rewrite Nat.add_succ_r.
  cbn [free_loop hd fmap list_fmap fst] in *. destruct Hs as (_ & E & Hs). destruct Ha as (? & ? & Ha). cbn [fst snd] in *. rewrite E.
  destruct (Z.ltb_spec q bp); [lia|]. cbn [andb orb].
  assert (Hx : (hd base (fst <$> K) <=? q) && (bp <? hd base (fst <$> K)) = false).
  { destruct K as [|[c sc] K]; cbn in *; [destruct (Z.ltb_spec bp base); [lia|]; by rewrite andb_false_r|]. destruct (Z.leb_spec c q); [lia|done]. }
  change (list_fmap _ _ fst K) with (fst <$> K). rewrite Hx. eapply IH; [exact Ha|done| |done].
  destruct K as [|[c sc] K]; cbn in *; lia.
Qed.

(** From anywhere on the list. *)
Lemma free_finds m bp base K1 p sp L2 L q fuel : (base, 0) :: L = K1 ++ (p, sp) :: L2 ->
  p < bp -> bp < hd (bp + 1) (fst <$> L2) -> ascending (base - 1) ((base, 0) :: L) -> seg m ((base, 0) :: L) base ->
  q ∈ base :: (fst <$> L) -> (length L + length L + 2 < fuel)%nat -> free_loop m bp q fuel = Some p.
Proof.
  intros E Hp Hn Ha Hs Hq Hf. assert (Hbp : base <= p).
  { rewrite E in Ha. pose proof (ascending_ge _ _ (p, sp) Ha ltac:(apply elem_of_app; right; left)). cbn in *. lia. }
  assert (Hbase : forall n, (length K1 < n)%nat -> free_loop m bp base n = Some p).
  { intros n Hlt. rewrite E in Ha, Hs. assert (Eb : base = hd p (fst <$> K1)) by (destruct K1; injection E as E1 E2; subst; done). rewrite Eb at 1. by eapply free_walk. }
  assert (Hlen : (length L + 1 = length K1 + length L2 + 1)%nat) by (apply (f_equal length) in E; rewrite length_app in E; cbn in E; lia).
  change (base :: (fst <$> L)) with (fst <$> ((base, 0) :: L)) in Hq. rewrite E in Hq, Ha, Hs. rewrite fmap_app, fmap_cons, elem_of_app, elem_of_cons in Hq.
  destruct Hq as [Hin|[->|Hin]]; [| |]; cbn [fst].
  - apply list_elem_of_fmap in Hin as ([q' sq] & -> & Hin). apply list_elem_of_split in Hin as (X & Y & ->). cbn [fst]. rewrite <- app_assoc in Ha, Hs.
    apply ascending_app in Ha as [_ Ha]. apply seg_app in Hs as [_ Hs]. rewrite length_app in Hlen. cbn [length] in Hlen.
    eapply (free_walk m bp base p sp L2 Hbp Hp Hn ((q', sq) :: Y)); [exact Ha|exact Hs|cbn [length]; lia].
  - apply ascending_app in Ha as [_ Ha]. apply seg_app in Hs as [_ Hs]. eapply (free_walk m bp base p sp L2 Hbp Hp Hn []); [exact Ha|exact Hs|cbn; lia].
  - apply list_elem_of_fmap in Hin as ([q' sq] & -> & Hin). apply list_elem_of_split in Hin as (X & Y & ->). cbn [fst].
    assert (Hq : bp < q').
    { destruct X as [|[c sc] X]; [by cbn in Hn|]. cbn in Hn. apply ascending_app in Ha as [_ Ha]. cbn in Ha. destruct Ha as (_ & _ & _ & ? & Ha).
      apply ascending_ge with (b := (q', sq)) in Ha; [cbn in Ha; lia|]. apply elem_of_app. right. left. }
    rewrite app_comm_cons, app_assoc in Ha, Hs. apply ascending_app in Ha as [_ Ha]. apply seg_app in Hs as [_ Hs]. rewrite length_app in Hlen. cbn [length] in Hlen.
    pose proof (free_wrap m bp base ltac:(lia) ((q', sq) :: Y) _ fuel (fuel - length ((q', sq) :: Y)) Ha Hs Hq ltac:(cbn [length]; lia)) as Ew. cbn [hd fmap list_fmap fst] in Ew.
    rewrite Ew. apply Hbase. cbn [length]. lia.
Qed.

(** ** Linking a block *)

Definition join (b : blk) (L : list blk) : list blk :=
  match L with
  | c :: L' => if b.1 + 16 * b.2 =? c.1 then (b.1, b.2 + c.2) :: L' else b :: L
  | [] => [b]
  end.

Lemma join_cover b L z : 0 <= b.2 -> Forall (fun c => 0 <= c.2) L -> free_at (join b L) z <-> inb z b \/ free_at L z.
Proof.
  intros Hb HL. unfold join. destruct L as [|c L]; [apply free_at_cons|]. apply Forall_cons in HL as [Hc _]. destruct (Z.eqb_spec (b.1 + 16 * b.2) c.1) as [E|E]; rewrite !free_at_cons; [|done].
  unfold inb. cbn. assert (b.1 <= z < b.1 + 16 * (b.2 + c.2) <-> b.1 <= z < b.1 + 16 * b.2 \/ c.1 <= z < c.1 + 16 * c.2) by lia. tauto.
Qed.
Lemma join_ascending b L lo : lo < b.1 -> 0 <= b.2 -> ascending (b.1 + 16 * b.2 - 1) L -> ascending lo (join b L).
Proof.
  intros H1 H2 Ha. unfold join. destruct L as [|c L]; [done|]. cbn in Ha. destruct Ha as (? & ? & Ha). destruct (Z.eqb_spec (b.1 + 16 * b.2) c.1) as [E|E]; cbn.
  - split_and!; [done|lia|]. by replace (b.1 + 16 * (b.2 + c.2)) with (c.1 + 16 * c.2) by lia.
  - split_and!; [done|done|lia|done|done].
Qed.
Lemma join_head b L : exists s R, join b L = (b.1, s) :: R.
Proof. unfold join. destruct b as [a s]. destruct L as [|c L]; [eauto|]. destruct (_ =? _); eauto. Qed.

Definition outside (a : Z) (m m' : mem) : Prop := forall x, x < a \/ a + 16 <= x -> mget m' x = mget m x.
Lemma outside_hptr a m m' b : outside a m m' -> apart a b -> hptr m' b = hptr m b.
Proof. intros H Hb. apply hptr_ext. intros x Hx. apply H. unfold apart in Hb. lia. Qed.
Lemma outside_hsize a m m' b : outside a m m' -> apart a b -> hsize m' b = hsize m b.
Proof. intros H Hb. apply hsize_ext. intros x Hx. apply H. unfold apart in Hb. lia. Qed.
Lemma outside_seg a m m' L nxt : outside a m m' -> Forall (fun b => apart a b.1) L -> seg m L nxt -> seg m' L nxt.
Proof.
  intros Ho HL. apply seg_frame. intros b Hb. rewrite Forall_forall in HL. specialize (HL b Hb). split; [by eapply outside_hsize|by eapply outside_hptr].
Qed.

(** Joining block [b] with the list [L] after it, in memory. *)
Lemma join_mem m a s q L nxt : hsize m a = s -> 0 <= s -> seg m L nxt -> q = hd nxt (fst <$> L) -> 0 <= q < 2 ^ 64 -> 0 <= nxt < 2 ^ 64 ->
  ascending a L -> ends a L <= 2 ^ 32 -> Forall (fun b => apart a b.1) L -> (L = [] -> a + 16 * s <> nxt) -> 0 <= a ->
  s + (match L with [] => 0 | c :: _ => c.2 end) < 2 ^ 32 ->
  let m' := if a + HDR * hsize m a =? q then
      let m := put_size a (u32 (hsize m a + hsize m q)) m in put_ptr a (hptr m q) m
    else put_ptr a q m in
  outside a m m' /\ seg m' (join (a, s) L) nxt.
Proof.
  intros Hs Hs0 HL Hq Hqr Hnr Ha He Hap Hne Ha0 Hsz. cbv zeta. unfold HDR. rewrite Hs. destruct L as [|[c sc] L].
  - cbn in Hq. subst q. destruct (Z.eqb_spec (a + 16 * s) nxt) as [?|_]; [by destruct Hne|]. split; [intros x Hx; by apply mget_put_ptr|]. cbn [join seg fst snd].
    rewrite hsize_put_ptr, hptr_put_ptr by (done || by left). done.
  - cbn in Hq. subst q. cbn [join fst snd]. apply Forall_cons in Hap as [Hac Hap]. cbn in Hac. destruct HL as (Hsc & Hpc & HL). cbn in Hsc, Hpc, Ha, Hsz.
    destruct Ha as (? & ? & Ha). destruct (Z.eqb_spec (a + 16 * s) c) as [E|E].
    + rewrite Hsc, u32_small by lia. rewrite (hptr_put_size m a c) by (by right). rewrite Hpc.
      assert (Ho : outside a m (put_ptr a (hd nxt (fst <$> L)) (put_size a (s + sc) m))) by (intros x Hx; rewrite mget_put_ptr, mget_put_size by done; done).
      assert (Hd : 0 <= hd nxt (fst <$> L) < 2 ^ 64).
      { destruct L as [|[c' sc'] L]; [done|]. cbn in *. pose proof (ends_ge (c' + 16 * sc') L ltac:(tauto)). lia. }
      split; [done|]. cbn [seg fst snd]. rewrite hsize_put_ptr, hsize_put_size, hptr_put_ptr by first [lia|by left].
      split_and!; [done|done|by eapply outside_seg].
    + assert (Ho : outside a m (put_ptr a c m)) by (intros x Hx; by apply mget_put_ptr). split; [done|]. cbn [seg fst snd].
      rewrite hsize_put_ptr, hptr_put_ptr by (done || by left). rewrite (outside_hsize _ _ _ _ Ho Hac), (outside_hptr _ _ _ _ Ho Hac).
      split_and!; [done|done|done|done|by eapply outside_seg].
Qed.

(** ** The invariant *)

Definition used_at (A : gmap Z Z) (z : Z) : Prop := exists a s, A !! a = Some s /\ a <= z < a + 16 * s.

(** The free blocks [L] and the blocks in use [A] divide the memory from [lo] to
    [brk] between them; the free blocks are linked in address order and none
    touches the next. *)
Record uinv (base lo : Z) (h : heap) (L : list blk) (A : gmap Z Z) : Prop := {
  ui_base : 0 < base /\ base + 16 <= lo;
  ui_brk : lo <= brk h <= 2 ^ 32;
  ui_seg : seg (um h) ((base, 0) :: L) base;
  ui_asc : ascending base L;
  ui_pos : Forall (fun b => 1 <= b.2) L;
  ui_freep : freep h ∈ base :: (fst <$> L);
  ui_live : forall a s, A !! a = Some s -> 1 <= s /\ hsize (um h) a = s;
  ui_disj : forall a s a' s', A !! a = Some s -> A !! a' = Some s' -> a <> a' -> a + 16 * s <= a' \/ a' + 16 * s' <= a;
  ui_cover : forall z, lo <= z < brk h <-> free_at L z \/ used_at A z;
  ui_excl : forall z, free_at L z -> used_at A z -> False;
}.

Section Inv.
Context (base lo : Z) (h : heap) (L : list blk) (A : gmap Z Z).
Hypothesis (I : uinv base lo h L A).

Lemma free_block b : b ∈ L -> 1 <= b.2 /\ lo <= b.1 /\ b.1 + 16 * b.2 <= brk h.
Proof.
  intros Hb. pose proof (ui_pos _ _ _ _ _ I) as Hp. rewrite Forall_forall in Hp. specialize (Hp b Hb).
  assert (Hz : forall z, inb z b -> lo <= z < brk h) by (intros z Hz; apply (ui_cover _ _ _ _ _ I); left; apply Exists_exists; eauto).
  pose proof (Hz b.1 ltac:(unfold inb; lia)). pose proof (Hz (b.1 + 16 * b.2 - 1) ltac:(unfold inb; lia)). lia.
Qed.
Lemma used_block a s : A !! a = Some s -> 1 <= s /\ lo <= a /\ a + 16 * s <= brk h.
Proof.
  intros Ha. destruct (ui_live _ _ _ _ _ I a s Ha) as [Hs _].
  assert (Hz : forall z, a <= z < a + 16 * s -> lo <= z < brk h) by (intros z Hz; apply (ui_cover _ _ _ _ _ I); right; by exists a, s).
  pose proof (Hz a ltac:(lia)). pose proof (Hz (a + 16 * s - 1) ltac:(lia)). lia.
Qed.
Lemma free_used b a s : b ∈ L -> A !! a = Some s -> b.1 + 16 * b.2 <= a \/ a + 16 * s <= b.1.
Proof.
  intros Hb Ha. destruct (free_block b Hb) as [Hb1 _], (used_block a s Ha) as [Hs _].
  assert (Hz : forall z, inb z b -> a <= z < a + 16 * s -> False).
  { intros z H1 H2. apply (ui_excl _ _ _ _ _ I z); [apply Exists_exists; eauto|by exists a, s]. }
  destruct (Z.le_gt_cases a b.1); [specialize (Hz b.1)|specialize (Hz a)]; unfold inb in Hz; lia.
Qed.
Lemma node_asc : ascending (base - 1) ((base, 0) :: L).
Proof. cbn. split_and!; [lia|lia|]. rewrite Z.add_0_r. apply I. Qed.
Lemma ends_brk K M x : L = K ++ M -> x <= brk h -> ends x K <= brk h.
Proof.
  intros EL Hx. destruct K as [|b K _] using rev_ind; [done|].
  assert (E : forall y, ends y (K ++ [b]) = b.1 + 16 * b.2) by (clear; induction K as [|c K IH]; intros y; [done|]; cbn; apply IH).
  rewrite E. apply free_block. rewrite EL. apply elem_of_app. left. apply elem_of_app. right. left.
Qed.
End Inv.

(** Where a block belongs. *)
Lemma place bp L : forall b, ascending (b.1 + 16 * b.2) L -> b.1 < bp -> bp ∉ (fst <$> L) ->
  exists K1 p sp L2, b :: L = K1 ++ (p, sp) :: L2 /\ p < bp /\ bp < hd (bp + 1) (fst <$> L2).
Proof.
  induction L as [|c L IH]; intros [p sp] Ha Hp Hn; [exists [], p, sp, []; cbn in *; split_and!; [done|done|lia]|].
  cbn [fmap list_fmap] in Hn. apply not_elem_of_cons in Hn as [Hc Hn]. destruct Ha as (? & ? & Ha). destruct (Z.le_gt_cases c.1 bp) as [Hle|Hgt].
  - destruct (IH c Ha ltac:(lia) Hn) as (K1 & p' & sp' & L2 & -> & ? & ?). by exists ((p, sp) :: K1), p', sp', L2.
  - exists [], p, sp, (c :: L). split_and!; [done|done|cbn; lia].
Qed.
Lemma join_pos b L : 1 <= b.2 -> Forall (fun b => 1 <= b.2) L -> Forall (fun b => 1 <= b.2) (join b L).
Proof.
  intros Hb HL. unfold join. destruct L as [|c L]; [by repeat constructor|]. destruct (_ =? _); [|by constructor].
  apply Forall_cons in HL as [Hc HL]. constructor; [cbn; lia|done].
Qed.
Lemma join_in b L c : c ∈ join b L -> c.1 = b.1 \/ c ∈ L.
Proof. unfold join. destruct L as [|d L]; [|destruct (_ =? _)]; rewrite ?elem_of_cons; [intros [->|?]; auto|intros [->|?]; auto|intros [->|[->|?]]; auto]. Qed.
Lemma join_ends b L x : ends x (join b L) = ends (b.1 + 16 * b.2) L.
Proof. unfold join. destruct L as [|c L]; [done|]. destruct (Z.eqb_spec (b.1 + 16 * b.2) c.1) as [E|_]; [|done]. cbn. f_equal. lia. Qed.
Lemma join_first b L : match join b L with [] => 0 | c :: _ => c.2 end <= Z.max b.2 (b.2 + match L with [] => 0 | c :: _ => c.2 end).
Proof. unfold join. destruct L as [|c L]; [lia|]. destruct (_ =? _); cbn; lia. Qed.
Lemma join_length b L : (length (join b L) <= S (length L))%nat.
Proof. unfold join. destruct L as [|c L]; [done|]. destruct (_ =? _); cbn; lia. Qed.

(** ** free *)

Section Free.
Context (base lo : Z) (h : heap) (L : list blk) (A : gmap Z Z) (bp s : Z) (K1 : list blk) (p sp : Z) (L2 : list blk).
Hypothesis (I : uinv base lo h L A) (Ha : A !! bp = Some s).
Hypothesis (EK : (base, 0) :: L = K1 ++ (p, sp) :: L2) (Hp : p < bp) (Hn : bp < hd (bp + 1) (fst <$> L2)).
Local Abbreviation m := (um h).
Local Abbreviation m1 := (link_right bp p m).
Local Abbreviation m2 := (link_left bp p m1).

Lemma fr_node b : b ∈ K1 ++ (p, sp) :: L2 -> b = (base, 0) \/ b ∈ L.
Proof. rewrite <- EK. by intros [->|]%elem_of_cons; [left|right]. Qed.
Lemma fr_p : base <= p /\ 0 <= sp /\ p + 16 <= bp /\ p + 16 * sp <= bp.
Proof.
  destruct (used_block _ _ _ _ _ I bp s Ha) as (Hs & Hlo & Hhi). pose proof (ui_base _ _ _ _ _ I).
  destruct (fr_node (p, sp)) as [[= -> ->]|Hin]; [set_solver|lia|].
  destruct (free_block _ _ _ _ _ I _ Hin) as (? & ? & ?). destruct (free_used _ _ _ _ _ I _ _ _ Hin Ha); cbn in *; lia.
Qed.
Lemma fr_L2 b : b ∈ L2 -> b ∈ L /\ bp + 16 * s <= b.1.
Proof.
  intros Hb. destruct (fr_node b ltac:(set_solver)) as [->|Hin].
  - exfalso. pose proof (node_asc _ _ _ _ _ I) as Has. rewrite EK in Has. apply ascending_app in Has as [_ Has]. cbn [ascending] in Has. destruct Has as (_ & ? & Has).
    pose proof (ascending_ge _ _ _ Has Hb). pose proof fr_p. cbn in *. lia.
  - split; [done|]. destruct (free_block _ _ _ _ _ I _ Hin) as (? & ? & ?). destruct (free_used _ _ _ _ _ I _ _ _ Hin Ha); [|done]. exfalso.
    destruct L2 as [|c L3]; [by apply not_elem_of_nil in Hb|]. cbn in Hn. pose proof (node_asc _ _ _ _ _ I) as Has. rewrite EK in Has. apply ascending_app in Has as [_ Has].
    cbn [ascending] in Has. destruct Has as (_ & _ & Hc0 & Hc1 & Has). apply elem_of_cons in Hb as [->|Hb]; [lia|]. pose proof (ascending_ge _ _ _ Has Hb). lia.
Qed.
Lemma fr_K1 b : b ∈ K1 -> b.1 + 16 <= p.
Proof.
  intros Hb. pose proof (node_asc _ _ _ _ _ I) as Has. rewrite EK in Has. apply ascending_app in Has as [HasK Has]. cbn [ascending] in Has. destruct Has as (Hlt & _ & _).
  pose proof (ascending_before _ _ _ HasK Hb) as Hle. cbn in Hlt. destruct (fr_node b ltac:(set_solver)) as [->|Hin].
  - destruct (fr_node (p, sp) ltac:(set_solver)) as [[= -> ->]|Hin]; [cbn in *; lia|]. destruct (free_block _ _ _ _ _ I _ Hin) as (? & ? & ?).
    pose proof (ui_base _ _ _ _ _ I). cbn in *. lia.
  - destruct (free_block _ _ _ _ _ I _ Hin) as (? & ? & ?). lia.
Qed.
Lemma fr_asc : ascending (bp + 16 * s - 1) L2.
Proof.
  pose proof (node_asc _ _ _ _ _ I) as Has. rewrite EK in Has. apply ascending_app in Has as [_ (_ & _ & Has)]. pose proof fr_L2 as H2.
  destruct L2 as [|c L3]; [done|]. cbn [ascending] in Has |- *. destruct (H2 c ltac:(left)). destruct Has as (_ & ? & Has). split_and!; [lia|done|done].
Qed.
Lemma fr_small : 0 <= sp + (s + match L2 with [] => 0 | c :: _ => c.2 end) < 2 ^ 32.
Proof.
  destruct (used_block _ _ _ _ _ I bp s Ha) as (Hs & Hlo & Hhi). pose proof (ui_brk _ _ _ _ _ I). pose proof fr_p. pose proof (ui_base _ _ _ _ _ I).
  pose proof fr_L2 as H2. destruct L2 as [|c L3]; [lia|]. destruct (H2 c ltac:(left)) as [Hin ?]. destruct (free_block _ _ _ _ _ I _ Hin) as (? & ? & ?). lia.
Qed.
Lemma fr_ends x : x <= brk h -> ends x L2 <= 2 ^ 32.
Proof.
  intros Hx. pose proof (ui_brk _ _ _ _ _ I). destruct K1 as [|b K] eqn:E; injection EK as _ EL.
  - pose proof (ends_brk _ _ _ _ _ I L2 [] x ltac:(by rewrite app_nil_r)). lia.
  - destruct L2 as [|c L3 _] using rev_ind; [cbn; lia|]. assert (EE : forall y, ends y (L3 ++ [c]) = c.1 + 16 * c.2) by (clear; induction L3 as [|d L3 IH]; intros y; [done|]; cbn; apply IH).
    rewrite EE. destruct (free_block _ _ _ _ _ I c) as (? & ? & ?); [rewrite EL; set_solver|lia].
Qed.

(** The memory after the block is linked. *)
Lemma fr_right : outside bp m m1 /\ seg m1 (join (bp, s) L2) base.
Proof.
  pose proof fr_p as (P1 & P2 & P3 & P4). pose proof (ui_base _ _ _ _ _ I) as [Hb0 Hb1]. pose proof (ui_brk _ _ _ _ _ I) as Hbrk. pose proof fr_small as Hsm.
  destruct (used_block _ _ _ _ _ I bp s Ha) as (Hs & Hlo & Hhi). destruct (ui_live _ _ _ _ _ I bp s Ha) as [_ Hsz].
  pose proof (ui_seg _ _ _ _ _ I) as Hseg. rewrite EK in Hseg. apply seg_app in Hseg as [_ (_ & Hq & Hseg)]. cbn [fst] in Hq.
  assert (Hqr : 0 <= hptr m p < 2 ^ 64).
  { rewrite Hq. pose proof fr_L2 as H2. destruct L2 as [|c L3]; [cbn; lia|]. destruct (H2 c ltac:(left)) as [Hin ?]. destruct (free_block _ _ _ _ _ I _ Hin) as (? & ? & ?). cbn. lia. }
  destruct (join_mem m bp s (hptr m p) L2 base) as [Ho Hj]; try done; [lia|lia| | | | |lia|lia|].
  - eapply ascending_weaken; [apply fr_asc|lia].
  - apply fr_ends. lia.
  - apply Forall_forall. intros b Hb. apply fr_L2 in Hb as [_ ?]. left. lia.
  - lia.
  - assert (E : link_right bp p m = if bp + HDR * hsize m bp =? hptr m p then
        let m := put_size bp (u32 (hsize m bp + hsize m (hptr (um h) p))) m in put_ptr bp (hptr m (hptr (um h) p)) m else put_ptr bp (hptr m p) m).
    { unfold link_right. cbv zeta. rewrite !(hptr_put_size _ bp p) by (right; right; lia). done. }
    rewrite E. split; [exact Ho|exact Hj].
Qed.
Lemma fr_left : (forall x, (x < bp \/ bp + 16 <= x) -> (x < p \/ p + 16 <= x) -> mget m2 x = mget m x) /\
  seg m2 (K1 ++ join (p, sp) (join (bp, s) L2)) base.
Proof.
  pose proof fr_p as (P1 & P2 & P3 & P4). pose proof (ui_base _ _ _ _ _ I) as [Hb0 Hb1]. pose proof (ui_brk _ _ _ _ _ I) as Hbrk. pose proof fr_small as Hsm.
  destruct (used_block _ _ _ _ _ I bp s Ha) as (Hs & Hlo & Hhi). destruct fr_right as [Ho Hj]. destruct (join_head (bp, s) L2) as (s' & R & ER). cbn [fst] in ER.
  pose proof (ui_seg _ _ _ _ _ I) as Hseg. rewrite EK in Hseg. apply seg_app in Hseg as [HsegK (Hsp & _ & _)]. cbn [fst snd hd fmap list_fmap] in Hsp, HsegK.
  assert (Hap : Forall (fun b => apart p b.1) (join (bp, s) L2)).
  { apply Forall_forall. intros b [Eb|Hb]%join_in; cbn in *; [left; lia|]. apply fr_L2 in Hb as [_ ?]. left. lia. }
  pose proof (join_first (bp, s) L2) as Hfst. pose proof fr_asc as Hasc.
  destruct (join_mem m1 p sp bp (join (bp, s) L2) base) as [Ho2 Hj2]; try done.
  - rewrite (outside_hsize _ _ _ _ Ho); [done|]. right. lia.
  - by rewrite ER.
  - lia.
  - lia.
  - apply join_ascending; [cbn; lia|cbn; lia|exact Hasc].
  - rewrite join_ends. apply fr_ends. cbn. lia.
  - by rewrite ER.
  - lia.
  - cbn [snd] in Hfst. destruct L2 as [|c L3]; cbn [ascending] in Hasc; lia.
  - split.
    + intros x H1 H2. etransitivity; [exact (Ho2 x H2)|by apply Ho].
    + apply seg_app. split; [|exact Hj2]. destruct (join_head (p, sp) (join (bp, s) L2)) as (s2 & R2 & ->). cbn [hd fmap list_fmap fst].
      apply (outside_seg p m1); [exact Ho2|apply Forall_forall; intros b Hb%fr_K1; right; lia|].
      apply (outside_seg bp m); [exact Ho|apply Forall_forall; intros b Hb%fr_K1; right; lia|exact HsegK].
Qed.

Lemma fr_pos : Forall (fun b => 0 <= b.2) L2.
Proof. apply Forall_forall. intros b [Hb _]%fr_L2. apply (free_block _ _ _ _ _ I) in Hb as [? _]. lia. Qed.
Lemma fr_cover z : free_at (K1 ++ join (p, sp) (join (bp, s) L2)) z <-> free_at L z \/ bp <= z < bp + 16 * s.
Proof.
  pose proof fr_p as (P1 & P2 & P3 & P4). destruct (used_block _ _ _ _ _ I bp s Ha) as (Hs & _). pose proof fr_pos as Hpos.
  assert (E : free_at L z <-> free_at (K1 ++ (p, sp) :: L2) z) by (rewrite <- EK, free_at_cons; split; [by right|intros [Hz|?]; [unfold inb in Hz; cbn in Hz; lia|done]]).
  rewrite E, !free_at_app, free_at_cons, !join_cover; [unfold inb; cbn; tauto|cbn; lia|done|cbn; lia|].
  unfold join. destruct L2 as [|c L3]; [repeat constructor; cbn; lia|]. apply Forall_cons in Hpos as [? ?]. destruct (_ =? _); repeat constructor; cbn; try lia; done.
Qed.
Lemma fr_list : exists L', K1 ++ join (p, sp) (join (bp, s) L2) = (base, 0) :: L' /\ Forall (fun b => 1 <= b.2) L' /\ (length L' <= S (length L))%nat /\
  p ∈ base :: (fst <$> L') /\ Exists (fun b => s <= b.2) L'.
Proof.
  pose proof fr_p as (P1 & P2 & P3 & P4). destruct (used_block _ _ _ _ _ I bp s Ha) as (Hs & _). pose proof (ui_pos _ _ _ _ _ I) as Hpos.
  assert (HL2 : Forall (fun b => 1 <= b.2) L2) by (apply Forall_forall; intros b [Hb _]%fr_L2; by apply (free_block _ _ _ _ _ I) in Hb as [? _]).
  assert (Hbig : forall b L, s <= b.2 -> Forall (fun b => 1 <= b.2) L -> Exists (fun b => s <= b.2) (join b L)).
  { intros b M Hb HM. unfold join. destruct M as [|c M]; [by left|]. apply Forall_cons in HM as [? _]. destruct (_ =? _); left; cbn; lia. }
  assert (Hlen : (length L + 1 = length K1 + length L2 + 1)%nat) by (apply (f_equal length) in EK; rewrite length_app in EK; cbn in EK; lia).
  destruct K1 as [|b K] eqn:EK1; cbn [app] in *.
  - injection EK as <- <- EL. exists (join (bp, s) L2). split_and!.
    + unfold join at 1. destruct (join_head (bp, s) L2) as (s2 & R & ->). cbn [fst snd]. rewrite (proj2 (Z.eqb_neq _ _)) by lia. done.
    + by apply join_pos.
    + pose proof (join_length (bp, s) L2). cbn [length] in Hlen. lia.
    + left.
    + by apply Hbig.
  - injection EK as <- EL. exists (K ++ join (p, sp) (join (bp, s) L2)). rewrite EL in Hpos. apply Forall_app in Hpos as [HpK [Hpp _]%Forall_cons]. cbn in Hpp. split_and!.
    + done.
    + apply Forall_app. split; [done|]. apply join_pos; [done|]. by apply join_pos.
    + rewrite length_app. pose proof (join_length (bp, s) L2). pose proof (join_length (p, sp) (join (bp, s) L2)). cbn [length] in Hlen. lia.
    + right. rewrite fmap_app. apply elem_of_app. right. destruct (join_head (p, sp) (join (bp, s) L2)) as (s2 & R & ->). left.
    + apply Exists_app. right. unfold join at 1. destruct (join (bp, s) L2) as [|c M] eqn:EM; [by destruct (join_head (bp, s) L2) as (? & ? & ?); congruence|].
      assert (Hc : Exists (fun b => s <= b.2) (c :: M)) by (rewrite <- EM; by apply Hbig). destruct (_ =? _).
      * apply Exists_cons in Hc as [Hc|Hc]; [left; cbn; lia|by right].
      * by right.
Qed.

Lemma fr_asc_all : ascending (base - 1) (K1 ++ join (p, sp) (join (bp, s) L2)).
Proof.
  pose proof fr_p as (P1 & P2 & P3 & P4). destruct (used_block _ _ _ _ _ I bp s Ha) as (Hs & _). pose proof (node_asc _ _ _ _ _ I) as Has. rewrite EK in Has.
  apply ascending_app in Has as [HK (Hlt & _ & _)]. apply ascending_app. split; [done|]. apply join_ascending; [done|done|].
  apply join_ascending; [cbn; lia|cbn; lia|]. exact fr_asc.
Qed.
Lemma fr_live a s' : delete bp A !! a = Some s' -> forall x, a <= x < a + 16 * s' -> mget m2 x = mget m x.
Proof.
  intros [Hne Hl]%lookup_delete_Some x Hx. destruct (used_block _ _ _ _ _ I a s' Hl) as (Hs' & Hlo & _). apply (proj1 fr_left).
  - destruct (ui_disj _ _ _ _ _ I bp s a s' Ha Hl Hne); destruct (used_block _ _ _ _ _ I bp s Ha) as (? & _); lia.
  - pose proof (ui_base _ _ _ _ _ I). destruct (fr_node (p, sp) ltac:(set_solver)) as [[= -> ->]|Hin]; [lia|].
    destruct (free_used _ _ _ _ _ I _ _ _ Hin Hl); destruct (free_block _ _ _ _ _ I _ Hin) as (? & _); cbn in *; lia.
Qed.
Lemma fr_inv : exists L', uinv base lo (set_freep p (set_um m2 h)) L' (delete bp A) /\ (length L' <= S (length L))%nat /\ Exists (fun b => s <= b.2) L'.
Proof.
  destruct fr_list as (L' & EL' & Hpos & Hlen & Hfp & Hbig). exists L'. split; [|done]. pose proof fr_asc_all as Hasc. pose proof (proj2 fr_left) as Hseg. pose proof fr_cover as Hcov.
  rewrite EL' in *. assert (Hc : forall z, free_at L' z <-> free_at L z \/ bp <= z < bp + 16 * s).
  { intros z. rewrite <- Hcov, free_at_cons. unfold inb. cbn. split; [by right|]. intros [?|?]; [lia|done]. }
  assert (Hu : forall z, used_at A z <-> used_at (delete bp A) z \/ bp <= z < bp + 16 * s).
  { intros z. unfold used_at. split.
    - intros (a & s' & Hl & Hz). destruct (decide (a = bp)) as [->|Hne]; [right; congruence|]. left. exists a, s'. by rewrite lookup_delete_ne.
    - intros [(a & s' & [_ Hl]%lookup_delete_Some & Hz)|Hz]; [by exists a, s'|by exists bp, s]. }
  split; try apply I; cbn [freep set_freep set_um um brk].
  - exact Hseg.
  - destruct Hasc as (_ & _ & Hasc). by rewrite Z.add_0_r in Hasc.
  - done.
  - done.
  - intros a s' Hl. pose proof Hl as [_ Hl']%lookup_delete_Some. destruct (ui_live _ _ _ _ _ I a s' Hl') as [? <-]. split; [done|].
    apply hsize_ext. intros x Hx. eapply fr_live; [done|]. destruct (ui_live _ _ _ _ _ I a _ Hl') as [? E]. lia.
  - intros a s1 a' s2 [_ H1]%lookup_delete_Some [_ H2]%lookup_delete_Some. by apply (ui_disj _ _ _ _ _ I).
  - intros z. rewrite Hc. rewrite (ui_cover _ _ _ _ _ I z), Hu. tauto.
  - intros z [Hz|Hz]%Hc (a & s' & [Hne Hl]%lookup_delete_Some & Hz').
    + apply (ui_excl _ _ _ _ _ I z Hz). by exists a, s'.
    + destruct (ui_disj _ _ _ _ _ I bp s a s' Ha Hl Hne); lia.
Qed.
End Free.

(** Freeing a block in use puts it on the free list and leaves the other blocks
    in use alone. *)
Lemma inv_free base lo h L A bp s fuel : uinv base lo h L A -> A !! bp = Some s -> (length L + length L + 2 < fuel)%nat ->
  exists L' h', free (bp + 16) fuel h = Ok tt h' /\ uinv base lo h' L' (delete bp A) /\ brk h' = brk h /\ (length L' <= S (length L))%nat /\
    Exists (fun b => s <= b.2) L' /\ forall a s' x, delete bp A !! a = Some s' -> a <= x < a + 16 * s' -> mget (um h') x = mget (um h) x.
Proof.
  intros I Ha Hf. destruct (used_block _ _ _ _ _ I bp s Ha) as (Hs & Hlo & Hhi). pose proof (ui_base _ _ _ _ _ I) as [Hb0 Hb1].
  destruct (place bp L (base, 0)) as (K1 & p & sp & L2 & EK & Hp & Hn).
  - cbn. rewrite Z.add_0_r. apply I.
  - cbn. lia.
  - intros (b & Eb & Hb)%list_elem_of_fmap. destruct (free_used _ _ _ _ _ I b bp s Hb Ha); destruct (free_block _ _ _ _ _ I b Hb) as (? & _); lia.
  - destruct (fr_inv base lo h L A bp s K1 p sp L2 I Ha EK Hp Hn) as (L' & I' & Hlen & Hbig).
    exists L', (set_freep p (set_um (link_left bp p (link_right bp p (um h))) h)). split_and!; try done.
    + unfold free, HDR. replace (bp + 16 - 16) with bp by lia.
      by rewrite (free_finds _ _ _ _ _ _ _ _ _ _ EK Hp Hn (node_asc _ _ _ _ _ I) (ui_seg _ _ _ _ _ I) (ui_freep _ _ _ _ _ I) Hf).
    + intros a s' x Hl Hx. by eapply (fr_live base lo h L A bp s K1 p sp L2 I Ha EK Hp Hn).
Qed.

(** ** Taking a block *)

Section Carve.
Context (base lo : Z) (h : heap) (L : list blk) (A : gmap Z Z) (nu : Z) (K1 : list blk) (pr sp x sx : Z) (L2 : list blk).
Hypothesis (I : uinv base lo h L A) (Hnu : 1 <= nu <= sx) (EK : (base, 0) :: L = K1 ++ (pr, sp) :: (x, sx) :: L2).
Local Abbreviation m := (um h).
Local Abbreviation a := (x + 16 * (sx - nu)).

Lemma cv_tail : exists M, L = M ++ (x, sx) :: L2 /\ K1 ++ [(pr, sp)] = (base, 0) :: M.
Proof.
  destruct K1 as [|b K]; injection EK as <- EL.
  - exists []. split; [done|]. subst. done.
  - exists (K ++ [(pr, sp)]). split; [by rewrite <- app_assoc|done].
Qed.
Lemma cv_x : (x, sx) ∈ L.
Proof. destruct cv_tail as (M & -> & _). set_solver. Qed.
Lemma cv_pr : pr + 16 <= x /\ 0 < pr < 2 ^ 64.
Proof.
  destruct cv_tail as (M & EL & EM). destruct (free_block _ _ _ _ _ I _ cv_x) as (? & ? & ?). pose proof (ui_base _ _ _ _ _ I). pose proof (ui_brk _ _ _ _ _ I).
  assert (Hin : (pr, sp) ∈ (base, 0) :: M) by (rewrite <- EM; set_solver). apply elem_of_cons in Hin as [[= -> ->]|Hin]; [cbn in *; lia|].
  destruct (free_block _ _ _ _ _ I (pr, sp)) as (? & ? & ?); [rewrite EL; set_solver|]. pose proof (ui_asc _ _ _ _ _ I) as Has. rewrite EL in Has.
  apply ascending_app in Has as [HM (Hx & _)]. pose proof (ascending_before _ _ _ HM Hin). cbn in *. lia.
Qed.
Lemma cv_apart b : b ∈ K1 ++ (pr, sp) :: L2 -> b.1 + 16 <= x \/ x + 16 * sx <= b.1.
Proof.
  destruct cv_tail as (M & EL & EM). rewrite cons_middle, app_assoc, EM. cbn [app]. destruct (free_block _ _ _ _ _ I _ cv_x) as (? & ? & ?). pose proof (ui_base _ _ _ _ _ I).
  pose proof (ui_asc _ _ _ _ _ I) as Has. rewrite EL in Has. apply ascending_app in Has as [HM (Hx & _ & HL2)].
  intros [->|[Hb|Hb]%elem_of_app]%elem_of_cons; [cbn in *; left; lia| |].
  - destruct (free_block _ _ _ _ _ I b) as (? & ? & ?); [rewrite EL; set_solver|]. pose proof (ascending_before _ _ _ HM Hb). cbn in *. lia.
  - pose proof (ascending_ge _ _ _ HL2 Hb). cbn in *. lia.
Qed.
Lemma cv_L2 b : b ∈ L2 -> b ∈ L /\ x + 16 * sx <= b.1.
Proof.
  intros Hb. destruct cv_tail as (M & EL & EM). pose proof (ui_asc _ _ _ _ _ I) as Has. rewrite EL in Has |- *. apply ascending_app in Has as [HM (Hx & _ & HL2)].
  pose proof (ascending_ge _ _ _ HL2 Hb). cbn in *. split; [set_solver|lia].
Qed.
Lemma cv_K1 b : b ∈ K1 -> b.1 + 16 <= pr.
Proof.
  intros Hb. pose proof (node_asc _ _ _ _ _ I) as Has. rewrite EK in Has. apply ascending_app in Has as [HasK (Hlt & _)]. pose proof (ascending_before _ _ _ HasK Hb) as Hle. cbn in Hlt.
  destruct cv_tail as (M & EL & EM). pose proof (ui_base _ _ _ _ _ I). assert (Hin : b ∈ (base, 0) :: M) by (rewrite <- EM; set_solver).
  assert (Hp : (pr, sp) ∈ (base, 0) :: M) by (rewrite <- EM; set_solver). apply elem_of_cons in Hin as [->|Hin].
  - apply elem_of_cons in Hp as [[= -> ->]|Hp]; [cbn in *; lia|]. destruct (free_block _ _ _ _ _ I (pr, sp)) as (? & ? & ?); [rewrite EL; set_solver|]. cbn in *. lia.
  - destruct (free_block _ _ _ _ _ I b) as (? & ? & ?); [rewrite EL; set_solver|]. lia.
Qed.
Lemma cv_used a' s' : A !! a' = Some s' -> x + 16 * sx <= a' \/ a' + 16 * s' <= x.
Proof. intros Hl. exact (free_used _ _ _ _ _ I _ _ _ cv_x Hl). Qed.

(** The free list without the part that is taken. *)
Definition rest : list blk := if sx =? nu then L2 else (x, sx - nu) :: L2.
Lemma cv_cover M z : free_at (M ++ (x, sx) :: L2) z <-> free_at (M ++ rest) z \/ a <= z < a + 16 * nu.
Proof.
  unfold rest. rewrite !free_at_app, free_at_cons. unfold inb. cbn. destruct (Z.eqb_spec sx nu) as [->|]; [|rewrite free_at_cons; unfold inb; cbn].
  - replace (x + 16 * (nu - nu)) with x by lia. tauto.
  - assert (x <= z < x + 16 * sx <-> x <= z < x + 16 * (sx - nu) \/ a <= z < a + 16 * nu) by lia. tauto.
Qed.
Lemma cv_rest_excl M z : ascending base (M ++ (x, sx) :: L2) -> free_at (M ++ rest) z -> ~ a <= z < a + 16 * nu.
Proof.
  intros [HM (Hx & _ & H2)]%ascending_app Hz Hr. cbn in Hx, H2. apply free_at_app in Hz as [Hz|Hz].
  - apply Exists_exists in Hz as (b & Hb & Hz). pose proof (ascending_before _ _ _ HM Hb). unfold inb in Hz. lia.
  - assert (Hz2 : free_at L2 z).
    { unfold rest in Hz. destruct (_ =? _); [done|]. apply free_at_cons in Hz as [Hz|]; [unfold inb in Hz; cbn in Hz; lia|done]. }
    apply Exists_exists in Hz2 as (b & Hb & Hz2). pose proof (ascending_ge _ _ _ H2 Hb). unfold inb in Hz2. lia.
Qed.

(** The memory after the block is taken: only the headers of [pr], of [x] and of
    the block taken change. *)
Lemma cv_mem : exists m', carve nu pr x h = Ok (a + 16) (set_freep pr (set_um m' h)) /\ hsize m' a = nu /\ seg m' (K1 ++ (pr, sp) :: rest) base /\
  forall z, (z < pr \/ pr + 16 <= z) -> (z < x \/ x + 16 * sx <= z) -> mget m' z = mget m z.
Proof.
  destruct (free_block _ _ _ _ _ I _ cv_x) as (Hsx & Hlo & Hhi). cbn in Hsx, Hlo, Hhi. destruct cv_pr as [Hpr Hpr64]. pose proof (ui_brk _ _ _ _ _ I) as Hbrk.
  pose proof (ui_base _ _ _ _ _ I) as [Hb0 Hb1]. pose proof (ui_seg _ _ _ _ _ I) as Hseg. rewrite EK in Hseg. apply seg_app in Hseg as [HsK (Hs1 & Hp1 & Hs2 & Hp2 & HsL)].
  cbn [fst snd hd fmap list_fmap] in *. unfold carve, rest, get_size, get_ptr, mem_do, bindM, getM, modifyM, retM, HDR. rewrite Hs2. destruct (Z.eqb_spec sx nu) as [E|E].
  - replace a with x by lia. exists (put_ptr pr (hptr m x) m). assert (Ho : outside pr m (put_ptr pr (hptr m x) m)) by (intros z Hz; by apply mget_put_ptr).
    assert (Hqr : 0 <= hptr m x < 2 ^ 64).
    { rewrite Hp2. pose proof cv_L2 as H2. destruct L2 as [|c L3]; [cbn; lia|]. destruct (H2 c ltac:(left)) as [Hc _].
      destruct (free_block _ _ _ _ _ I c Hc) as (? & ? & ?). cbn. lia. }
    split_and!; [done|rewrite (outside_hsize _ _ _ _ Ho) by (left; lia); congruence| |].
    + apply seg_app. split; [apply (outside_seg pr m); [done| |exact HsK]|].
      * apply Forall_forall. intros b Hb%cv_K1. right. lia.
      * cbn [seg fst snd]. rewrite hsize_put_ptr, hptr_put_ptr by (done || by left). split_and!; [done|done|].
        apply (outside_seg pr m); [done| |exact HsL]. apply Forall_forall. intros b Hb. destruct (cv_L2 b Hb). left. lia.
    + intros z Hz _. by apply Ho.
  - cbn [um set_um]. set (mx := put_size x (sx - nu) m). assert (Hsz : hsize mx x = sx - nu) by (apply hsize_put_size; lia). rewrite Hsz.
    exists (put_size a nu mx). assert (Ho1 : outside x m mx) by (intros z Hz; by apply mget_put_size).
    assert (Ho2 : outside a mx (put_size a nu mx)) by (intros z Hz; by apply mget_put_size).
    assert (Hfr : forall z, (z < x \/ x + 16 * sx <= z) -> mget (put_size a nu mx) z = mget m z) by (intros z Hz; rewrite Ho2, Ho1 by lia; done).
    assert (Hseg' : forall M nxt, (forall b, b ∈ M -> b ∈ K1 ++ (pr, sp) :: L2) -> seg m M nxt -> seg (put_size a nu mx) M nxt).
    { intros M nxt HM. apply seg_frame. intros b Hb%HM%cv_apart. split; [apply hsize_ext|apply hptr_ext]; intros z Hz; apply Hfr; lia. }
    split_and!; [done|apply hsize_put_size; lia| |by intros z _ Hz; apply Hfr].
    apply seg_app. split; [apply Hseg'; [set_solver|exact HsK]|]. cbn [seg fst snd hd fmap list_fmap].
    destruct (Hseg' [(pr, sp)] x ltac:(set_solver)) as (T1 & T2 & _); [by split_and!|]. cbn in T1, T2. rewrite T1, T2.
    rewrite (outside_hsize _ _ _ _ Ho2), (outside_hptr _ _ _ _ Ho2) by (right; lia). rewrite Hsz. unfold mx at 1. rewrite hptr_put_size by (by left).
    split_and!; [done|done|done|done|]. apply Hseg'; [set_solver|exact HsL].
Qed.

Lemma cv_inv : exists h' L', carve nu pr x h = Ok (a + 16) h' /\ uinv base lo h' L' (<[a := nu]> A) /\ A !! a = None /\ brk h' = brk h /\
  forall a' s' z, A !! a' = Some s' -> a' <= z < a' + 16 * s' -> mget (um h') z = mget m z.
Proof.
  destruct cv_tail as (M & EL & EM). destruct cv_mem as (m' & Ec & Hsz & Hseg & Hfr). destruct (free_block _ _ _ _ _ I _ cv_x) as (Hsx & Hlo & Hhi). cbn in Hsx, Hlo, Hhi.
  pose proof (ui_asc _ _ _ _ _ I) as Has. rewrite EL in Has. pose proof cv_pr as [Hpr _].
  assert (Hlive : forall a' s' z, A !! a' = Some s' -> a' <= z < a' + 16 * s' -> mget m' z = mget m z).
  { intros a' s' z Hl Hz. destruct (used_block _ _ _ _ _ I a' s' Hl) as (? & ? & _). apply Hfr; [|destruct (cv_used a' s' Hl); lia].
    assert (Hin : (pr, sp) ∈ (base, 0) :: M) by (rewrite <- EM; set_solver). pose proof (ui_base _ _ _ _ _ I). apply elem_of_cons in Hin as [[= -> ->]|Hin]; [lia|].
    assert (HinL : (pr, sp) ∈ L) by (rewrite EL; set_solver). destruct (free_used _ _ _ _ _ I _ _ _ HinL Hl); destruct (free_block _ _ _ _ _ I _ HinL) as (? & _); cbn in *; lia. }
  assert (Hna : A !! a = None) by (destruct (A !! a) as [s'|] eqn:E; [destruct (cv_used a s' E); destruct (used_block _ _ _ _ _ I a s' E); lia|done]).
  exists (set_freep pr (set_um m' h)), (M ++ rest). split_and!; try done. split; try apply I; cbn [freep set_freep set_um um brk].
  - by rewrite app_comm_cons, <- EM, <- app_assoc.
  - apply ascending_app in Has as [HM (Hx & _ & HL2)]. cbn in Hx, HL2. apply ascending_app. split; [done|]. unfold rest. destruct (_ =? _).
    + eapply ascending_weaken; [exact HL2|lia].
    + cbn. split_and!; [done|lia|]. eapply ascending_weaken; [exact HL2|lia].
  - pose proof (ui_pos _ _ _ _ _ I) as Hp. rewrite EL in Hp. apply Forall_app in Hp as [HpM [_ HpL]%Forall_cons]. apply Forall_app. split; [done|]. unfold rest.
    destruct (Z.eqb_spec sx nu); [done|]. constructor; [cbn; lia|done].
  - assert (Hin : (pr, sp) ∈ (base, 0) :: M) by (rewrite <- EM; set_solver). apply elem_of_cons in Hin as [[= -> ->]|Hin]; [left|]. right. rewrite fmap_app. apply elem_of_app. left.
    apply list_elem_of_fmap. by exists (pr, sp).
  - intros a' s' [[<- <-]|[Hne Hl]]%lookup_insert_Some; [by split; [lia|]|]. destruct (ui_live _ _ _ _ _ I a' s' Hl) as [? E]. split; [done|]. rewrite <- E.
    apply hsize_ext. intros z Hz. eapply Hlive; [exact Hl|lia].
  - intros a1 s1 a2 s2 [[<- <-]|[N1 H1]]%lookup_insert_Some [[<- <-]|[N2 H2]]%lookup_insert_Some Hne; [done| | |by apply (ui_disj _ _ _ _ _ I)].
    + destruct (cv_used a2 s2 H2); lia.
    + destruct (cv_used a1 s1 H1); lia.
  - assert (Hu : forall z, used_at (<[a := nu]> A) z <-> used_at A z \/ a <= z < a + 16 * nu).
    { intros z. unfold used_at. split.
      - intros (a' & s' & [[<- <-]|[_ Hl]]%lookup_insert_Some & Hz); [by right|left; eauto].
      - intros [(a' & s' & Hl & Hz)|Hz]; [exists a', s'|exists a, nu; by rewrite lookup_insert_eq]. rewrite lookup_insert_ne by congruence. done. }
    intros z. rewrite (ui_cover _ _ _ _ _ I z), EL, cv_cover, Hu. tauto.
  - intros z Hz (a' & s' & [[<- <-]|[_ Hl]]%lookup_insert_Some & Hz').
    + by apply (cv_rest_excl M z Has Hz).
    + apply (ui_excl _ _ _ _ _ I z); [|by exists a', s']. rewrite EL. apply cv_cover. by left.
Qed.
End Carve.

(** ** Searching the free list *)

(** What [sbrk(n)] does for an [n] that is not negative: it fails, or it moves the
    end of the process's memory and returns the old one; sizes are of type
    [uint]. *)
Class SbrkLaws (sbrk : Z -> M heap Z) : Prop := sbrk_ok : forall n h, 0 <= n < 2 ^ 31 ->
  sbrk n h = Ok (-1) h \/
  exists m', sbrk n h = Ok (brk h) (mk_heap m' (freep h) (brk h + n)) /\ brk h + n <= 2 ^ 32 /\ forall x, x < brk h -> mget m' x = mget (um h) x.

Lemma addr_unique lo L : ascending lo L -> NoDup (fst <$> L).
Proof.
  revert lo. induction L as [|b L IH]; intros lo; [constructor|]. cbn. intros (? & ? & Ha). constructor; [|by eapply IH].
  intros (c & E & Hc)%list_elem_of_fmap. pose proof (ascending_ge _ _ _ Ha Hc). lia.
Qed.
Lemma split_unique (X Y K M : list blk) b c : NoDup (fst <$> (X ++ b :: K)) -> X ++ b :: K = Y ++ c :: M -> b.1 = c.1 -> X = Y /\ K = M.
Proof.
  revert Y. induction X as [|d X IH]; intros [|e Y] Hnd E Hbc; cbn in *.
  - injection E as _ ->. done.
  - injection E as -> ->. apply NoDup_cons in Hnd as [Hn _]. destruct Hn. rewrite Hbc. change (c.1 ∈ fst <$> (Y ++ c :: M)). rewrite fmap_app. set_solver.
  - injection E as -> <-. apply NoDup_cons in Hnd as [Hn _]. destruct Hn. rewrite <- Hbc. change (b.1 ∈ fst <$> (X ++ b :: K)). rewrite fmap_app. set_solver.
  - injection E as -> E. apply NoDup_cons in Hnd as [_ Hnd]. destruct (IH Y Hnd E Hbc) as [-> ->]. done.
Qed.

Section Search.
Context (base lo : Z) (sbrk : Z -> M heap Z) (nu : Z).
Context `{!SbrkLaws sbrk}.
Local Abbreviation loop := (malloc_loop sbrk nu).

Definition grow (fuel : nat) : M heap Z :=
  let! p := morecore sbrk nu fuel in
  if p =? 0 then retM 0 else let! q := get_ptr p in loop p q fuel.

Lemma loop_step prev p fuel h : loop prev p (S fuel) h =
  if nu <=? hsize (um h) p then carve nu prev p h else if p =? freep h then grow fuel h else loop p (hptr (um h) p) fuel h.
Proof. cbn [malloc_loop]. unfold bindM at 1, get_size at 1, getM at 1. destruct (_ <=? _); [done|]. unfold bindM at 1, getM at 1. by destruct (_ =? _). Qed.

Definition found (N : list blk) (h : heap) (r : outcome heap Z) : Prop :=
  exists K1 pr sp x sx K2, N = K1 ++ (pr, sp) :: (x, sx) :: K2 /\ nu <= sx /\ r = carve nu pr x h.
Definition small (L : list blk) : Prop := Forall (fun b => b.2 < nu) L.

(** The loop from node [q0] to the end of the list. *)
Lemma scan h K : forall q0 s0 fuel, seg (um h) ((q0, s0) :: K) base -> (length K <= fuel)%nat ->
  found ((q0, s0) :: K) h (loop q0 (hd base (fst <$> K)) fuel h) \/
  (exists K1 sx K2 fuel', K = K1 ++ (freep h, sx) :: K2 /\ small (K1 ++ [(freep h, sx)]) /\ (fuel <= fuel' + length K)%nat /\ loop q0 (hd base (fst <$> K)) fuel h = grow fuel' h) \/
  (small K /\ freep h ∉ (fst <$> K) /\ exists q', loop q0 (hd base (fst <$> K)) fuel h = loop q' base (fuel - length K) h).
Proof.
  induction K as [|[x sx] K IH]; intros q0 s0 fuel Hs Hf.
  - right. right. split_and!; [constructor|apply not_elem_of_nil|]. exists q0. by rewrite Nat.sub_0_r.
  - destruct fuel as [|fuel]; [cbn in Hf; lia|]. destruct Hs as (_ & _ & Hs). pose proof Hs as (Hsx & Hpx & _). cbn [fst snd] in Hsx, Hpx. cbn [hd fmap list_fmap fst]. rewrite loop_step, Hsx.
    destruct (Z.leb_spec nu sx) as [Hle|Hlt]; [left; by exists [], q0, s0, x, sx, K|]. destruct (Z.eqb_spec x (freep h)) as [->|Hne].
    + right. left. exists [], sx, K, fuel. split_and!; [done|by repeat constructor|cbn; lia|done].
    + rewrite Hpx. cbn in Hf. destruct (IH x sx fuel Hs ltac:(lia)) as [(K1 & pr & sp & y & sy & K2 & E & Hy & Er)|[(K1 & sy & K2 & fuel' & -> & Hsm & Hfu & Er)|(Hsm & Hn & q' & Er)]].
      * left. exists ((q0, s0) :: K1), pr, sp, y, sy, K2. by rewrite E.
      * right. left. exists ((x, sx) :: K1), sy, K2, fuel'. split_and!; [done|by constructor|cbn; lia|done].
      * right. right. split_and!; [by constructor|by apply not_elem_of_cons|]. by exists q'.
Qed.

(** Once round from [freep]. *)
Lemma full_pass h L A fuel : uinv base lo h L A -> 1 <= nu -> (length L + length L + 2 <= fuel)%nat ->
  found ((base, 0) :: L) h (loop (freep h) (hptr (um h) (freep h)) fuel h) \/
  (small L /\ exists fuel', (fuel <= fuel' + length L + length L + 2)%nat /\ loop (freep h) (hptr (um h) (freep h)) fuel h = grow fuel' h).
Proof.
  intros I Hnu Hf. pose proof (ui_seg _ _ _ _ _ I) as Hs. pose proof (addr_unique _ _ (node_asc _ _ _ _ _ I)) as Hnd. pose proof (ui_freep _ _ _ _ _ I) as Hfp.
  change (base :: (fst <$> L)) with (fst <$> ((base, 0) :: L)) in Hfp. apply list_elem_of_fmap in Hfp as ([q sq] & Eq & Hin). cbn [fst] in Eq.
  apply list_elem_of_split in Hin as (X & K & EX). rewrite EX in Hs. apply seg_app in Hs as [_ Hs]. pose proof Hs as (_ & Hq & _). cbn [fst] in Hq. rewrite Eq, Hq.
  assert (Hlen : (length K <= length L)%nat) by (apply (f_equal length) in EX; rewrite length_app in EX; cbn in EX; lia).
  destruct (scan h K q sq fuel Hs ltac:(lia)) as [(K1 & pr & sp & y & sy & K2 & E & Hy & Er)|[(K1 & sy & K2 & fuel' & -> & _)|(Hsm & Hn & q' & Er)]].
  - left. exists (X ++ K1), pr, sp, y, sy, K2. split_and!; [|done|done]. by rewrite EX, E, app_assoc.
  - exfalso. rewrite EX, Eq, fmap_app, fmap_cons, fmap_app, fmap_cons in Hnd. apply NoDup_app in Hnd as (_ & _ & [Hnd _]%NoDup_cons). set_solver.
  - rewrite Er. destruct (fuel - length K)%nat as [|fuel1] eqn:Ef; [lia|]. rewrite loop_step. pose proof (ui_seg _ _ _ _ _ I) as HsN. pose proof HsN as (Hb0 & Hbp & _). cbn [fst snd] in Hb0, Hbp.
    rewrite Hb0. destruct (Z.leb_spec nu 0); [lia|]. destruct (Z.eqb_spec base (freep h)) as [Eb|Nb].
    + right. assert (EL : X = [] /\ K = L) by (eapply (split_unique X [] K L (q, sq) (base, 0)); [by rewrite <- EX|by rewrite <- EX|cbn; congruence]). destruct EL as [_ ->]. split; [done|].
      exists fuel1. split; [lia|done].
    + rewrite Hbp. destruct (scan h L base 0 fuel1 HsN ltac:(lia)) as [(K1 & pr & sp & y & sy & K2 & E & Hy & Er')|[(K1 & sy & K2 & fuel' & EL & Hsm' & Hfu & Er')|(_ & Hn' & _)]].
      * left. exists K1, pr, sp, y, sy, K2. done.
      * right. assert (EK : X = (base, 0) :: K1 /\ K = K2) by (eapply (split_unique X _ K K2 (q, sq) (freep h, sy)); [by rewrite <- EX|by rewrite <- EX, EL|cbn; congruence]).
        destruct EK as [_ ->]. split; [|exists fuel'; split; [lia|done]]. rewrite EL, cons_middle, app_assoc. by apply Forall_app.
      * exfalso. pose proof (ui_freep _ _ _ _ _ I) as Hfp. apply elem_of_cons in Hfp as [?|?]; congruence || done.
Qed.
End Search.

(** ** malloc *)

(** A block [a] of [nu] headers has been added to those in use. *)
Definition taken_block (base lo nu : Z) (h : heap) (A : gmap Z Z) (a : Z) (h' : heap) : Prop :=
  A !! a = None /\ brk h <= brk h' /\ (exists L', uinv base lo h' L' (<[a := nu]> A)) /\
  forall a' s' z, A !! a' = Some s' -> a' <= z < a' + 16 * s' -> mget (um h') z = mget (um h) z.

Section Malloc.
Context (base lo : Z) (sbrk : Z -> M heap Z).
Context `{!SbrkLaws sbrk}.

(** New memory is a block in use, until it is freed. *)
Lemma inv_new h L A n m' : uinv base lo h L A -> 1 <= n < 2 ^ 32 -> brk h + 16 * n <= 2 ^ 32 -> (forall x, x < brk h -> mget m' x = mget (um h) x) ->
  A !! brk h = None /\ uinv base lo (mk_heap (put_size (brk h) n m') (freep h) (brk h + 16 * n)) L (<[brk h := n]> A).
Proof.
  intros I Hn Hb Hm. assert (Hfr : forall x, x < brk h -> mget (put_size (brk h) n m') x = mget (um h) x) by (intros x Hx; rewrite mget_put_size by lia; by apply Hm).
  assert (Hna : A !! brk h = None) by (destruct (A !! brk h) as [s|] eqn:E; [destruct (used_block _ _ _ _ _ I _ _ E); lia|done]).
  pose proof (ui_base _ _ _ _ _ I) as [Hb0 Hb1]. pose proof (ui_brk _ _ _ _ _ I) as [Hb2 _].
  split; [done|]. split; try apply I; cbn [um freep brk].
  - lia.
  - eapply seg_frame; [|apply I]. intros b Hin. assert (Hb' : b.1 + 16 <= brk h).
    { apply elem_of_cons in Hin as [->|Hin]; [cbn; lia|]. destruct (free_block _ _ _ _ _ I b Hin) as (? & ? & ?). lia. }
    split; [apply hsize_ext|apply hptr_ext]; intros x Hx; apply Hfr; lia.
  - intros a s [[<- <-]|[_ Hl]]%lookup_insert_Some; [split; [lia|apply hsize_put_size; lia]|]. destruct (ui_live _ _ _ _ _ I a s Hl) as [? E]. split; [done|]. rewrite <- E.
    apply hsize_ext. intros x Hx. apply Hfr. destruct (used_block _ _ _ _ _ I a s Hl) as (? & ? & ?). lia.
  - intros a1 s1 a2 s2 [[<- <-]|[_ H1]]%lookup_insert_Some [[<- <-]|[_ H2]]%lookup_insert_Some Hne; [done| | |by apply (ui_disj _ _ _ _ _ I)].
    + destruct (used_block _ _ _ _ _ I _ _ H2) as (? & ? & ?). lia.
    + destruct (used_block _ _ _ _ _ I _ _ H1) as (? & ? & ?). lia.
  - intros z. assert (Hu : used_at (<[brk h := n]> A) z <-> used_at A z \/ brk h <= z < brk h + 16 * n).
    { unfold used_at. split.
      - intros (a' & s' & [[<- <-]|[_ Hl]]%lookup_insert_Some & Hz); [by right|left; eauto].
      - intros [(a' & s' & Hl & Hz)|Hz]; [exists a', s'|exists (brk h), n; by rewrite lookup_insert_eq]. rewrite lookup_insert_ne by congruence. done. }
    rewrite Hu. pose proof (ui_cover _ _ _ _ _ I z). assert (lo <= z < brk h + 16 * n <-> lo <= z < brk h \/ brk h <= z < brk h + 16 * n) by lia. tauto.
  - intros z Hz (a' & s' & [[<- <-]|[_ Hl]]%lookup_insert_Some & Hz'); [|apply (ui_excl _ _ _ _ _ I z Hz); by exists a', s'].
    assert (lo <= z < brk h) by (apply (ui_cover _ _ _ _ _ I); by left). lia.
Qed.

(** [morecore] fails, or there is a free block that is large enough. *)
Lemma inv_morecore nu h L A fuel : uinv base lo h L A -> 1 <= nu -> 16 * nu < 2 ^ 31 -> (length L + length L + 2 < fuel)%nat ->
  (morecore sbrk nu fuel h = Ok 0 h /\ sbrk (16 * Z.max 4096 nu) h = Ok (-1) h) \/
  exists h' L', morecore sbrk nu fuel h = Ok (freep h') h' /\ uinv base lo h' L' A /\ brk h <= brk h' /\ (length L' <= S (length L))%nat /\
    ~ small nu L' /\ forall a' s' z, A !! a' = Some s' -> a' <= z < a' + 16 * s' -> mget (um h') z = mget (um h) z.
Proof.
  intros I Hnu Hsz Hf. unfold morecore. set (n := if nu <? 4096 then 4096 else nu). assert (En : n = Z.max 4096 nu) by (unfold n; destruct (Z.ltb_spec nu 4096); lia).
  unfold HDR. rewrite s32_small by lia. replace (n * 16) with (16 * Z.max 4096 nu) by lia.
  destruct (sbrk_ok (16 * Z.max 4096 nu) h ltac:(lia)) as [E|(m' & E & Hb & Hm)]; rewrite <- En in *.
  - left. split; [|done]. erewrite bindM_ok by exact E. done.
  - right. destruct (inv_new h L A n m' I ltac:(lia) Hb Hm) as [Hna I1]. pose proof (ui_brk _ _ _ _ _ I). pose proof (ui_base _ _ _ _ _ I).
    destruct (inv_free _ _ _ _ _ (brk h) n fuel I1 (lookup_insert_eq _ _ _) Hf) as (L' & h' & Ef & I' & Eb & Hlen & Hbig & Hfr).
    rewrite delete_insert_id in I' by done. exists h', L'. split_and!; [|done|rewrite Eb; cbn; lia|done| |].
    + erewrite bindM_ok by exact E. destruct (Z.eqb_spec (brk h) (-1)); [lia|]. unfold bindM at 1, mem_do, modifyM. unfold bindM. unfold set_um. cbn [um freep brk].
      rewrite Ef. done.
    + intros Hs. apply Exists_exists in Hbig as (b & Hin & Hle). unfold small in Hs. rewrite Forall_forall in Hs. specialize (Hs b Hin). lia.
    + intros a' s' z Hl Hz. rewrite (Hfr a' s' z); [|rewrite delete_insert_id by done; done|done]. cbn. destruct (used_block _ _ _ _ _ I a' s' Hl) as (? & ? & ?).
      rewrite mget_put_size by lia. apply Hm. lia.
Qed.

Lemma found_taken nu h L A r : uinv base lo h L A -> 1 <= nu -> found nu ((base, 0) :: L) h r -> exists a h', r = Ok (a + 16) h' /\ taken_block base lo nu h A a h'.
Proof.
  intros I Hnu (K1 & pr & sp & x & sx & K2 & E & Hle & ->). destruct (cv_inv base lo h L A nu K1 pr sp x sx K2 I ltac:(lia) E) as (h' & L' & Ec & I' & Hna & Hb & Hfr).
  exists (x + 16 * (sx - nu)), h'. split; [done|]. split_and!; [done|lia|by exists L'|done].
Qed.

Lemma inv_loop nu h L A fuel : uinv base lo h L A -> 1 <= nu -> 16 * nu < 2 ^ 31 -> (4 * length L + 10 <= fuel)%nat ->
  (malloc_loop sbrk nu (freep h) (hptr (um h) (freep h)) fuel h = Ok 0 h /\ sbrk (16 * Z.max 4096 nu) h = Ok (-1) h) \/
  exists a h', malloc_loop sbrk nu (freep h) (hptr (um h) (freep h)) fuel h = Ok (a + 16) h' /\ taken_block base lo nu h A a h'.
Proof.
  intros I Hnu Hsz Hf. destruct (full_pass base lo sbrk nu h L A fuel I Hnu ltac:(lia)) as [Hfd|(_ & fuel' & Hfu & ->)]; [right; by eapply found_taken|].
  destruct (inv_morecore nu h L A fuel' I Hnu Hsz ltac:(lia)) as [[E Es]|(h' & L' & E & I' & Hb & Hlen & Hbig & Hfr)].
  - left. split; [|done]. unfold grow. erewrite bindM_ok by exact E. done.
  - right. unfold grow. erewrite bindM_ok by exact E. pose proof (ui_base _ _ _ _ _ I').
    assert (Hnz : freep h' <> 0).
    { pose proof (ui_freep _ _ _ _ _ I') as Hfp. apply elem_of_cons in Hfp as [->|(b & -> & Hb')%list_elem_of_fmap]; [lia|]. destruct (free_block _ _ _ _ _ I' b Hb') as (? & ? & ?). lia. }
    destruct (Z.eqb_spec (freep h') 0); [done|]. unfold bindM at 1, get_ptr at 1, getM at 1.
    destruct (full_pass base lo sbrk nu h' L' A fuel' I' Hnu ltac:(lia)) as [Hfd|(Hsm & _)]; [|done].
    destruct (found_taken nu h' L' A _ I' Hnu Hfd) as (a & h2 & -> & T1 & T2 & T3 & T4). exists a, h2. split; [done|]. split_and!; [done|lia|done|].
    intros a' s' z Hl Hz. rewrite (T4 a' s' z Hl Hz). by eapply Hfr.
Qed.
End Malloc.

(** ** A program that uses the allocator *)

(** The largest request for which [morecore] does not ask [sbrk] for a negative
    amount. *)
Definition MAXREQ : Z := 2 ^ 31 - 32.
(** Enough fuel for the loops: they visit each block of the free list a few
    times. *)
Definition enough (lo : Z) (h : heap) : nat := 4 * Z.to_nat ((brk h - lo) / 16) + 10.

Section Client.
Context (base lo : Z) (sbrk : Z -> M heap Z).
Context `{!SbrkLaws sbrk}.

(** The program's pointers with the sizes it asked for: it gets and frees memory
    and writes to what it has. *)
Inductive ustep : heap * gmap Z Z -> heap * gmap Z Z -> Prop :=
  | us_malloc h live n fuel p h' : 0 <= n <= MAXREQ -> (enough lo h <= fuel)%nat -> malloc base sbrk n fuel h = Ok p h' ->
      ustep (h, live) (h', if p =? 0 then live else <[p := n]> live)
  | us_free h live p n fuel h' : live !! p = Some n -> (enough lo h <= fuel)%nat -> free p fuel h = Ok tt h' -> ustep (h, live) (h', delete p live)
  | us_write h live p n x v : live !! p = Some n -> p <= x < p + n -> ustep (h, live) (set_um (mset (um h) x v) h, live).

(** The blocks in use are the ones the program has pointers to. *)
Definition owned (live A : gmap Z Z) : Prop :=
  (forall p n, live !! p = Some n -> exists s, A !! (p - 16) = Some s /\ 0 <= n <= 16 * (s - 1)) /\
  (forall a s, A !! a = Some s -> is_Some (live !! (a + 16))).
Definition fresh_heap (h : heap) : Prop := freep h = 0 /\ brk h = lo /\ 0 < base /\ base + 16 <= lo <= 2 ^ 32.
Definition client_ok (h : heap) (live : gmap Z Z) : Prop :=
  (fresh_heap h /\ live = ∅) \/ exists L A, uinv base lo h L A /\ owned live A.

Lemma enough_fuel h L A : uinv base lo h L A -> (4 * length L + 10 <= enough lo h)%nat.
Proof.
  intros I. assert (H : forall K x, ascending x K -> Forall (fun b => 1 <= b.2) K -> x + 17 * Z.of_nat (length K) <= ends x K).
  { clear. induction K as [|b K IH]; intros x; cbn [ascending ends length]; [lia|]. intros (? & ? & Ha) [? HK]%Forall_cons. specialize (IH _ Ha HK). lia. }
  assert (Hasc : ascending (lo - 1) L).
  { pose proof (ui_asc _ _ _ _ _ I) as Ha. destruct L as [|b L]; [done|]. cbn in *. destruct (free_block _ _ _ _ _ I b ltac:(left)) as (? & ? & _). split_and!; [lia|tauto|tauto]. }
  specialize (H L (lo - 1) Hasc (ui_pos _ _ _ _ _ I)). pose proof (ends_brk _ _ _ _ _ I L [] (lo - 1) ltac:(by rewrite app_nil_r)). pose proof (ui_brk _ _ _ _ _ I).
  unfold enough. assert (Z.of_nat (length L) <= (brk h - lo) / 16) by (apply Z.div_le_lower_bound; lia). lia.
Qed.

(** The first call makes the empty list. *)
Definition initialised (h : heap) : heap := if freep h =? 0 then mk_heap (put_size base 0 (put_ptr base base (um h))) base (brk h) else h.
Lemma malloc_start n fuel h : malloc base sbrk n fuel h = malloc_loop sbrk (nunits n) (freep (initialised h)) (hptr (um (initialised h)) (freep (initialised h))) fuel (initialised h).
Proof. unfold malloc, initialised, mem_do, get_ptr, bindM, getM, modifyM, retM. by destruct (freep h =? 0). Qed.
Lemma initialised_ok h live : client_ok h live -> exists L A, uinv base lo (initialised h) L A /\ owned live A.
Proof.
  intros [[(Hf & Hb & Hb0 & Hb1) ->]|(L & A & I & Ho)]; unfold initialised.
  - rewrite Hf. cbn [Z.eqb]. exists [], ∅. split; [|split; intros ? ?; by rewrite lookup_empty].
    split; cbn [um freep brk]; try done; [lia|rewrite Hb; lia| |left| |].
    + cbn. rewrite hsize_put_size, hptr_put_size, hptr_put_ptr by (lia || by left). done.
    + intros z. split; [lia|]. intros [Hz|(a & s & Hz & _)]; [by inversion Hz|done].
    + intros z Hz. by inversion Hz.
  - exists L, A. destruct (Z.eqb_spec (freep h) 0) as [E|_]; [|done]. exfalso. pose proof (ui_freep _ _ _ _ _ I) as Hfp. pose proof (ui_base _ _ _ _ _ I).
    apply elem_of_cons in Hfp as [?|(b & ? & Hb')%list_elem_of_fmap]; [lia|]. destruct (free_block _ _ _ _ _ I b Hb') as (? & ? & ?). lia.
Qed.
Lemma initialised_frame h x : lo <= x -> base + 16 <= lo -> mget (um (initialised h)) x = mget (um h) x.
Proof. intros Hx Hb. unfold initialised. destruct (_ =? _); [|done]. cbn. rewrite mget_put_size, mget_put_ptr by lia. done. Qed.

Lemma nunits_ok n : 0 <= n <= MAXREQ -> 1 <= nunits n /\ 16 * nunits n < 2 ^ 31 /\ n <= 16 * (nunits n - 1).
Proof. unfold MAXREQ, nunits, HDR. intros Hn. rewrite u32_small; Z.div_mod_to_equations; lia. Qed.

(** What the program's memory holds does not change. *)
Definition same_bytes (live : gmap Z Z) (h h' : heap) : Prop := forall q k x, live !! q = Some k -> q <= x < q + k -> mget (um h') x = mget (um h) x.

Lemma client_malloc h live n fuel : client_ok h live -> 0 <= n <= MAXREQ -> (enough lo h <= fuel)%nat ->
  exists p h', malloc base sbrk n fuel h = Ok p h' /\ client_ok h' (if p =? 0 then live else <[p := n]> live) /\ same_bytes live h h' /\
    ((p = 0 /\ exists h1, brk h1 = brk h /\ sbrk (16 * Z.max 4096 (nunits n)) h1 = Ok (-1) h1) \/
     (lo + 16 <= p /\ p + n <= brk h' /\ live !! p = None /\ forall q k, live !! q = Some k -> p + n <= q \/ q + k <= p)).
Proof.
  intros Hc Hn Hf. rewrite malloc_start. destruct (initialised_ok h live Hc) as (L & A & I & Ho1 & Ho2). destruct (nunits_ok n Hn) as (Hu & Hu2 & Hu3).
  assert (Hbrk : brk (initialised h) = brk h) by (unfold initialised; by destruct (_ =? _)). pose proof (ui_base _ _ _ _ _ I) as [Hb0 Hb1].
  assert (Hini : same_bytes live h (initialised h)).
  { intros q k x Hq Hx. apply initialised_frame; [|done]. destruct (Ho1 q k Hq) as (s & Hs & ?). destruct (used_block _ _ _ _ _ I _ _ Hs) as (? & ? & _). lia. }
  pose proof (enough_fuel _ _ _ I) as Hen. unfold enough in Hen, Hf. rewrite Hbrk in Hen.
  destruct (inv_loop base lo sbrk (nunits n) (initialised h) L A fuel I Hu Hu2 ltac:(lia)) as [[E Es]|(a & h' & E & Hna & Hbb & (L' & I') & Hfr)].
  - exists 0, (initialised h). split_and!; [done|right; by exists L, A|done|]. left. split; [done|]. by exists (initialised h).
  - destruct (used_block _ _ _ _ _ I' a (nunits n) (lookup_insert_eq _ _ _)) as (_ & Hlo & Hhi). exists (a + 16), h'. destruct (Z.eqb_spec (a + 16) 0); [lia|]. split_and!; [done| | |].
    + right. exists L', (<[a := nunits n]> A). split; [done|]. split.
      * intros p k [[<- <-]|[Hne Hl]]%lookup_insert_Some; [exists (nunits n); replace (a + 16 - 16) with a by lia; rewrite lookup_insert_eq; split; [done|lia]|].
        destruct (Ho1 p k Hl) as (s & Hs & ?). exists s. rewrite lookup_insert_ne by lia. done.
      * intros a' s' [[<- <-]|[Hne Hl]]%lookup_insert_Some; [by rewrite lookup_insert_eq|]. rewrite lookup_insert_ne by lia. by eapply Ho2.
    + intros q k x Hq Hx. destruct (Ho1 q k Hq) as (s & Hs & ?). rewrite (Hfr _ _ x Hs) by lia. by eapply Hini.
    + right. split_and!; [lia|lia| |].
      * destruct (live !! (a + 16)) as [k|] eqn:E'; [|done]. destruct (Ho1 _ _ E') as (s & Hs & _). replace (a + 16 - 16) with a in Hs by lia. congruence.
      * intros q k Hq. destruct (Ho1 q k Hq) as (s & Hs & ?). assert (Hne : a <> q - 16) by (intros ->; congruence).
        destruct (ui_disj _ _ _ _ _ I' a (nunits n) (q - 16) s) as [?|?]; [by rewrite lookup_insert_eq|by rewrite lookup_insert_ne|done|lia|lia].
Qed.

Lemma client_free h live p n fuel : client_ok h live -> live !! p = Some n -> (enough lo h <= fuel)%nat ->
  exists h', free p fuel h = Ok tt h' /\ client_ok h' (delete p live) /\ brk h' = brk h /\ same_bytes (delete p live) h h'.
Proof.
  intros [[_ ->]|(L & A & I & Ho1 & Ho2)] Hp Hf; [by rewrite lookup_empty in Hp|]. destruct (Ho1 p n Hp) as (s & Hs & Hns). pose proof (enough_fuel _ _ _ I).
  destruct (inv_free base lo h L A (p - 16) s fuel I Hs ltac:(lia)) as (L' & h' & E & I' & Eb & _ & _ & Hfr). replace (p - 16 + 16) with p in E by lia.
  exists h'. split_and!; [done| |done|].
  - right. exists L', (delete (p - 16) A). split; [done|]. split.
    + intros q k [Hne Hl]%lookup_delete_Some. destruct (Ho1 q k Hl) as (s' & Hs' & ?). exists s'. rewrite lookup_delete_ne by lia. done.
    + intros a s' [Hne Hl]%lookup_delete_Some. rewrite lookup_delete_ne by lia. by eapply Ho2.
  - intros q k x [Hne Hl]%lookup_delete_Some Hx. destruct (Ho1 q k Hl) as (s' & Hs' & ?). apply (Hfr (q - 16) s'); [by rewrite lookup_delete_ne by lia|lia].
Qed.

Lemma client_write h live p n x v : client_ok h live -> live !! p = Some n -> p <= x < p + n -> client_ok (set_um (mset (um h) x v) h) live.
Proof.
  intros [[_ ->]|(L & A & I & Ho1 & Ho2)] Hp Hx; [by rewrite lookup_empty in Hp|]. right. exists L, A. split; [|done]. destruct (Ho1 p n Hp) as (s & Hs & Hns).
  destruct (used_block _ _ _ _ _ I _ _ Hs) as (Hs1 & Hlo & _). pose proof (ui_base _ _ _ _ _ I) as [Hb0 Hb1].
  assert (Hfr : forall y, y <> x -> mget (mset (um h) x v) y = mget (um h) y) by (intros y Hy; by apply mget_mset_ne).
  split; try apply I; cbn [um freep brk set_um].
  - eapply seg_frame; [|apply I]. intros b Hin. assert (Hb' : b.1 + 16 <= x \/ x < b.1).
    { apply elem_of_cons in Hin as [->|Hin]; [cbn; lia|]. destruct (free_block _ _ _ _ _ I b Hin) as (? & _). destruct (free_used _ _ _ _ _ I b _ _ Hin Hs); lia. }
    split; [apply hsize_ext|apply hptr_ext]; intros y Hy; apply Hfr; lia.
  - intros a s' Hl. destruct (ui_live _ _ _ _ _ I a s' Hl) as [? E]. split; [done|]. rewrite <- E. apply hsize_ext. intros y Hy. apply Hfr.
    destruct (decide (a = p - 16)) as [->|Hne]; [lia|]. destruct (ui_disj _ _ _ _ _ I _ _ _ _ Hl Hs Hne); lia.
Qed.

Lemma ustep_ok x y : ustep x y -> client_ok x.1 x.2 -> client_ok y.1 y.2.
Proof.
  destruct 1 as [h live n fuel p h' Hn Hf E|h live p n fuel h' Hp Hf E|h live p n x v Hp Hx]; cbn; intros Hc.
  - destruct (client_malloc h live n fuel Hc Hn Hf) as (p' & h2 & E' & Hc' & _). rewrite E in E'. injection E' as <- <-. done.
  - destruct (client_free h live p n fuel Hc Hp Hf) as (h2 & E' & Hc' & _). rewrite E in E'. injection E' as <-. done.
  - by eapply client_write.
Qed.
Lemma usteps_ok x y : rtc ustep x y -> client_ok x.1 x.2 -> client_ok y.1 y.2.
Proof. induction 1; [done|]. intros Hc. by eapply IHrtc, ustep_ok. Qed.

(** When everything has been freed the free list is one block. *)
Lemma all_joined h L A : uinv base lo h L A -> A = ∅ -> lo < brk h -> hptr (um h) base = lo /\ 16 * hsize (um h) lo = brk h - lo.
Proof.
  intros I -> Hlt. pose proof (ui_base _ _ _ _ _ I). assert (Hc : forall z, lo <= z < brk h -> free_at L z).
  { intros z Hz. apply (ui_cover _ _ _ _ _ I) in Hz as [?|(a & s & Hl & _)]; [done|by rewrite lookup_empty in Hl]. }
  pose proof (ui_seg _ _ _ _ _ I) as (_ & Hb & Hseg). pose proof (ui_asc _ _ _ _ _ I) as Ha. destruct L as [|[a s] L]; [specialize (Hc lo ltac:(lia)); by apply Exists_nil in Hc|].
  assert (Hin : (a, s) ∈ (a, s) :: L) by left. destruct (free_block _ _ _ _ _ I _ Hin) as (? & ? & ?). destruct Hseg as (Hs & _). cbn in *. destruct Ha as (_ & _ & Ha).
  assert (Hnext : forall z, z <= a + 16 * s -> ~ free_at L z).
  { intros z Hz Hf. apply Exists_exists in Hf as (b & Hb' & Hz'). pose proof (ascending_ge _ _ _ Ha Hb'). unfold inb in Hz'. lia. }
  assert (Ea : a = lo).
  { specialize (Hc lo ltac:(lia)). apply free_at_cons in Hc as [Hz|Hz]; [unfold inb in Hz; cbn in Hz; lia|]. exfalso. eapply Hnext; [|exact Hz]. lia. }
  split; [congruence|]. rewrite <- Ea, Hs. destruct (decide (lo + 16 * s = brk h)); [lia|]. exfalso.
  specialize (Hc (lo + 16 * s) ltac:(lia)). apply free_at_cons in Hc as [Hz|Hz]; [unfold inb in Hz; cbn in Hz; lia|]. eapply Hnext; [|exact Hz]. lia.
Qed.
End Client.

(** C16: whatever memory a program gets, frees and writes to, in whatever order:
    [malloc] returns, and the memory it returns lies in what [sbrk] has given and
    overlaps nothing the program already has; it returns 0 only when [sbrk]
    fails; freeing anything the program has returns; both leave the contents of
    everything else the program has as they were; and when everything has been
    freed, all the memory is one free block again. *)
Theorem malloc_correct base lo sbrk `{!SbrkLaws sbrk} h0 h live : fresh_heap base lo h0 -> rtc (ustep base lo sbrk) (h0, ∅) (h, live) ->
  (forall n fuel, 0 <= n <= MAXREQ -> (enough lo h <= fuel)%nat -> exists p h', malloc base sbrk n fuel h = Ok p h' /\ same_bytes live h h' /\
     ((p = 0 /\ exists h1, brk h1 = brk h /\ sbrk (16 * Z.max 4096 (nunits n)) h1 = Ok (-1) h1) \/
      (lo + 16 <= p /\ p + n <= brk h' /\ forall q k, live !! q = Some k -> p <> q /\ (p + n <= q \/ q + k <= p)))) /\
  (forall p n fuel, live !! p = Some n -> (enough lo h <= fuel)%nat -> exists h', free p fuel h = Ok tt h' /\ same_bytes (delete p live) h h') /\
  (live = ∅ -> lo < brk h -> hptr (um h) base = lo /\ 16 * hsize (um h) lo = brk h - lo).
Proof.
  intros Hf Hs. pose proof (usteps_ok base lo sbrk _ _ Hs (or_introl (conj Hf eq_refl))) as Hx. cbn in Hx. clear Hs. split_and!.
  - intros n fuel Hn Hfu. destruct (client_malloc base lo sbrk h live n fuel Hx Hn Hfu) as (p & h' & E & _ & Hs & Hr). exists p, h'. split_and!; [done|done|].
    destruct Hr as [?|(? & ? & Hl & Hd)]; [by left|]. right. split_and!; [done|done|]. intros q k Hq. split; [congruence|by apply Hd].
  - intros p n fuel Hp Hfu. destruct (client_free base lo h live p n fuel Hx Hp Hfu) as (h' & E & _ & _ & Hs). by exists h'.
  - intros -> Hlt. destruct Hx as [[(_ & E & _) _]|(L & A & I & Ho1 & Ho2)]; [lia|]. apply (all_joined base lo h L A I); [|done].
    apply map_empty. intros a. destruct (A !! a) as [s|] eqn:E; [|done]. destruct (Ho2 a s E) as [k Hk]. by rewrite lookup_empty in Hk.
Qed.

(** ** An example, and a request that is too large *)

(** A process whose memory can grow to 1 MB. *)
Definition ex_sbrk (n : Z) : M heap Z := fun h =>
  if brk h + n <=? 2 ^ 20 then Ok (brk h) (mk_heap (um h) (freep h) (brk h + n)) else Ok (-1) h.
#[export] Instance ex_sbrk_laws : SbrkLaws ex_sbrk.
Proof.
  intros n h Hn. unfold ex_sbrk. destruct (Z.leb_spec (brk h + n) (2 ^ 20)); [right|by left]. exists (um h). split_and!; [done|lia|done].
Qed.
Definition um_base : Z := 0x1000.
Definition um_lo : Z := 0x4000.
Definition um_h0 : heap := mk_heap ∅ 0 um_lo.
Definition um_h1 : heap := match malloc um_base ex_sbrk 100 10 um_h0 with Ok _ h => h | _ => um_h0 end.
Lemma um_malloc : malloc um_base ex_sbrk 100 10 um_h0 = Ok 0x13f90 um_h1 /\ brk um_h1 = 0x14000.
Proof. split; vm_compute; reflexivity. Qed.

(** After [malloc(100)] a second [malloc(50)] does not overlap the first. *)
Lemma malloc_correct_witness : exists q h2, malloc um_base ex_sbrk 50 (enough um_lo um_h1) um_h1 = Ok q h2 /\ um_lo + 16 <= q /\ (q + 50 <= 0x13f90 \/ 0x13f90 + 100 <= q).
Proof.
  destruct um_malloc as [E Eb].
  destruct (malloc_correct um_base um_lo ex_sbrk um_h0 um_h1 (<[0x13f90 := 100]> ∅)) as [H _].
  - split_and!; [done|done|done|unfold um_base, um_lo; lia|unfold um_lo; lia].
  - apply rtc_once. apply (us_malloc um_base um_lo ex_sbrk um_h0 ∅ 100 10 0x13f90 um_h1); [unfold MAXREQ; lia|done|exact E].
  - destruct (H 50 (enough um_lo um_h1)) as (q & h2 & E2 & _ & Hr); [unfold MAXREQ; lia|done|]. exists q, h2. split; [done|].
    destruct Hr as [(_ & h3 & Eb3 & E3)|(Hlo & _ & Hd)]; [|split; [done|by apply (Hd 0x13f90 100)]].
    unfold ex_sbrk in E3. rewrite Eb3, Eb in E3. discriminate E3.
Defined.

(** A request of 2 GB makes [morecore] ask for a negative amount. *)
Lemma malloc_too_large : s32 (nunits (2 ^ 31) * HDR) = - 2 ^ 31 + 16.
Proof. reflexivity. Qed.
