(* ===== verification/Printf.v ===== *)
(** * Formatted output (kernel/printf.c, user/printf.c)

    Both versions print characters one at a time through a [putc] of their own,
    which is a parameter here: [consputc] for the kernel, a one-byte [write] for
    a program.  The arguments are the 64-bit values [va_arg] takes, in order, 0
    when there are no more; [str p] is the string at address [p].  A format is
    the list of its characters. *)

From stdpp Require Import base list gmap strings.
From Stdlib Require Import ZArith Lia.
From S2P Require Import Prelude Mem Layout Kalloc Vm Sleeplock FsFormat Store Fs Kernel Sched File Console.
Open Scope Z_scope.

Definition PERCENT : Z := 37.
Definition MINUS : Z := 45.
Definition decimal : list Z := [48; 49; 50; 51; 52; 53; 54; 55; 56; 57].
(** [digits[]]: of the kernel, of the programs. *)
Definition kdigits : list Z := decimal ++ [97; 98; 99; 100; 101; 102].
Definition udigits : list Z := decimal ++ [65; 66; 67; 68; 69; 70].
Definition NULLSTR : list Z := [40; 110; 117; 108; 108; 41].

Section Printf.
Context {S : Type} (putc : Z -> M S unit) (digits : list Z) (str : Z -> list Z).

(** The loop [do ... while((x /= base) != 0)]: what it puts into [buf]. *)
Fixpoint int_digits (x base : Z) (fuel : nat) : option (list Z) :=
  match fuel with
  | O => None
  | Datatypes.S fuel =>
      let d := nth (Z.to_nat (x mod base)) digits 0 in
      if negb (x / base =? 0) then (fun l => d :: l) <$> int_digits (x / base) base fuel else Some [d]
  end.
(** [buf], from the last character to be printed to the first. *)
Definition int_buf (xx base : Z) (sgn : bool) : option (list Z) :=
  let neg := sgn && (xx <? 0) in
  let x := if neg then u32 (- xx) else u32 xx in
  buf ← int_digits x base 32; Some (buf ++ (if neg then [MINUS] else [])).
Definition printint (xx base : Z) (sgn : bool) : M S unit :=
  match int_buf xx base sgn with
  | Some buf => for_each (reverse buf) putc
  | None => fun _ => NoFuel
  end.

Fixpoint printptr_loop (x : Z) (i : nat) : M S unit :=
  match i with
  | O => retM tt
  | Datatypes.S i =>
      do! putc (nth (Z.to_nat (Z.shiftr x 60)) digits 0) in
      printptr_loop (u64 (Z.shiftl x 4)) i
  end.
Definition printptr (x : Z) : M S unit :=
  do! putc 48 in
  do! putc 120 in
  printptr_loop (u64 x) 16.

Definition printstr (p : Z) : M S unit := for_each (if p =? 0 then NULLSTR else str p) putc.

(** [printf] of the kernel. *)
Fixpoint kprintf (fmt ap : list Z) : M S unit :=
  match fmt with
  | [] => retM tt
  | c :: fmt =>
      let c := Z.land c 0xff in
      if c =? 0 then retM tt
      else if negb (c =? PERCENT) then do! putc c in kprintf fmt ap
      else
        match fmt with
        | [] => retM tt
        | c :: fmt =>
            let c := Z.land c 0xff in
            let a := hd 0 ap in
            if c =? 0 then retM tt
            else if c =? 100 then do! printint (s32 a) 10 true in kprintf fmt (tl ap)
            else if c =? 120 then do! printint (s32 a) 16 true in kprintf fmt (tl ap)
            else if c =? 112 then do! printptr a in kprintf fmt (tl ap)
            else if c =? 115 then do! printstr a in kprintf fmt (tl ap)
            else if c =? PERCENT then do! putc PERCENT in kprintf fmt ap
            else do! putc PERCENT in do! putc c in kprintf fmt ap
        end
  end.

(** [vprintf] of the programs; [state] is 0 or ['%']. *)
Fixpoint vprintf (fmt : list Z) (state : Z) (ap : list Z) : M S unit :=
  match fmt with
  | [] => retM tt
  | c :: fmt =>
      if c =? 0 then retM tt
      else
        let c := Z.land c 0xff in
        if state =? 0 then
          if c =? PERCENT then vprintf fmt PERCENT ap else do! putc c in vprintf fmt state ap
        else if state =? PERCENT then
          let a := hd 0 ap in
          if c =? 100 then do! printint (s32 a) 10 true in vprintf fmt 0 (tl ap)
          else if c =? 108 then do! printint (s32 a) 10 false in vprintf fmt 0 (tl ap)
          else if c =? 120 then do! printint (s32 a) 16 false in vprintf fmt 0 (tl ap)
          else if c =? 112 then do! printptr a in vprintf fmt 0 (tl ap)
          else if c =? 115 then do! printstr a in vprintf fmt 0 (tl ap)
          else if c =? 99 then do! putc (u8 a) in vprintf fmt 0 (tl ap)
          else if c =? PERCENT then do! putc c in vprintf fmt 0 ap
          else do! putc PERCENT in do! putc c in vprintf fmt 0 ap
        else vprintf fmt state ap
  end.
End Printf.

(** ** The kernel's *)

Section Kernel.
Context {H : Type} `{!UartDev H} {S : Type}.
Context (str : Z -> list Z).
Local Abbreviation K := (kstate S (condev (H := H))).

Definition printf (fmt ap : list Z) : M K unit := kprintf consputc kdigits str fmt ap.

(** [panic(s)]: the message, then nothing more is sent and the hart spins. *)
Definition panic (s : list Z) : M K unit :=
  do! printf [112; 97; 110; 105; 99; 58; 32] [] in
  do! printf s [] in
  do! printf [NL] [] in
  do! setd (fun d => mk_condev (cd_cons d) (tx_buf d) (tx_w d) (tx_r d) 1 (uart d)) in
  blockM.
End Kernel.
