(* ===== verification/Ulib.v ===== *)
(** * The library of the user programs (user/ulib.c, user/printf.c)

    The string and memory routines on a process's memory, [atoi], and [printf]
    with what it writes to each descriptor.  Loops that stop at a NUL take
    fuel. *)

From stdpp Require Import base list gmap strings.
From Stdlib Require Import ZArith Lia.
From S2P Require Import Prelude Mem Printf.
Open Scope Z_scope.

Module Ulib.
Fixpoint strcpy (m : mem) (s t : Z) (fuel : nat) : option mem :=
  match fuel with
  | O => None
  | S fuel =>
      let m := mset m s (mget m t) in
      if negb (mget m s =? 0) then strcpy m (s + 1) (t + 1) fuel else Some m
  end.

Fixpoint strcmp (m : mem) (p q : Z) (fuel : nat) : option Z :=
  match fuel with
  | O => None
  | S fuel =>
      if negb (mget m p =? 0) && (mget m p =? mget m q) then strcmp m (p + 1) (q + 1) fuel
      else Some (u8 (mget m p) - u8 (mget m q))
  end.

Fixpoint strlen_loop (m : mem) (s n : Z) (fuel : nat) : option Z :=
  match fuel with
  | O => None
  | S fuel => if negb (mget m (s + n) =? 0) then strlen_loop m s (n + 1) fuel else Some n
  end.
Definition strlen (m : mem) (s : Z) (fuel : nat) : option Z := strlen_loop m s 0 fuel.

Fixpoint memset_loop (m : mem) (cdst c i : Z) (k : nat) : mem :=
  match k with
  | O => m
  | S k => memset_loop (mset m (cdst + i) (u8 c)) cdst c (i + 1) k
  end.
Definition memset (m : mem) (dst c n : Z) : mem := memset_loop m dst c 0 (Z.to_nat n).

Fixpoint forward (m : mem) (dst src : Z) (n : nat) : mem :=
  match n with
  | O => m
  | S n => forward (mset m dst (mget m src)) (dst + 1) (src + 1) n
  end.
Fixpoint backward (m : mem) (dst src : Z) (n : nat) : mem :=
  match n with
  | O => m
  | S n => backward (mset m (dst - 1) (mget m (src - 1))) (dst - 1) (src - 1) n
  end.
Definition memmove (m : mem) (vdst vsrc n : Z) : mem :=
  if vdst <? vsrc then forward m vdst vsrc (Z.to_nat n) else backward m (vdst + n) (vsrc + n) (Z.to_nat n).
Definition memcpy (m : mem) (dst src n : Z) : mem := memmove m dst src n.

Fixpoint memcmp (m : mem) (p1 p2 : Z) (n : nat) : Z :=
  match n with
  | O => 0
  | S n => if negb (mget m p1 =? mget m p2) then mget m p1 - mget m p2 else memcmp m (p1 + 1) (p2 + 1) n
  end.

(** [gets] with the bytes that can still be read: what is left of them, and how
    many have been stored. *)
Fixpoint gets_loop (m : mem) (buf max i : Z) (input : list Z) : mem * list Z * Z :=
  if i + 1 <? max then
    match input with
    | [] => (m, [], i)
    | c :: input =>
        let m := mset m (buf + i) c in
        if (c =? 10) || (c =? 13) then (m, input, i + 1) else gets_loop m buf max (i + 1) input
    end
  else (m, input, i).
Definition gets (m : mem) (buf max : Z) (input : list Z) : mem * list Z :=
  let '(m, input, i) := gets_loop m buf max 0 input in (mset m (buf + i) 0, input).

(** [atoi] of the characters at [s]. *)
Fixpoint atoi_loop (s : list Z) (n : Z) : Z :=
  match s with
  | [] => n
  | c :: s => if (48 <=? c) && (c <=? 57) then atoi_loop s (s32 (n * 10 + c - 48)) else n
  end.
Definition atoi (s : list Z) : Z := atoi_loop s 0.

(** ** Output *)

(** The bytes written, each with its descriptor. *)
Definition out : Type := list (Z * Z).
Definition putc (fd c : Z) : M out unit := modifyM (fun o => o ++ [(fd, u8 c)]).
Definition fprintf (str : Z -> list Z) (fd : Z) (fmt ap : list Z) : M out unit := vprintf (putc fd) udigits str fmt 0 ap.
Definition printf (str : Z -> list Z) (fmt ap : list Z) : M out unit := vprintf (putc 1) udigits str fmt 0 ap.
End Ulib.

(** ** What the routines compute *)

(** The memory routines are those of the kernel, with another choice of
    direction. *)
Lemma umemmove_spec m dst src n x : 0 <= n ->
  mget (Ulib.memmove m dst src n) x = if decide (dst <= x < dst + n) then mget m (src + (x - dst)) else mget m x.
Proof.
  intros Hn. unfold Ulib.memmove. change Ulib.forward with copy_forward. change Ulib.backward with copy_backward.
  destruct (Z.ltb_spec dst src); [rewrite copy_forward_spec by lia|rewrite copy_backward_spec by lia]; repeat case_decide; try lia; try done; f_equal; lia.
Qed.
Lemma umemset_spec m dst c n x : mget (Ulib.memset m dst c n) x = if decide (dst <= x < dst + n) then u8 c else mget m x.
Proof. change Ulib.memset with memset. apply mget_memset. Qed.

(** [strcpy] copies a string to where it does not overlap. *)
Lemma strcpy_ok l : forall m s t fuel, cstr m t l -> (s + Z.of_nat (length l) < t \/ t + Z.of_nat (length l) < s) -> (length l < fuel)%nat ->
  exists m', Ulib.strcpy m s t fuel = Some m' /\ cstr m' s l /\ forall x, x < s \/ s + Z.of_nat (length l) < x -> mget m' x = mget m x.
Proof.
  induction l as [|b l IH]; intros m s t fuel Hc Hd Hf; (destruct fuel as [|fuel]; [cbn in Hf; lia|]); cbn [Ulib.strcpy cstr length] in *.
  - rewrite mget_mset_eq, Hc. eexists. split_and!; [done|by rewrite mget_mset_eq|]. intros x Hx. rewrite mget_mset_ne by lia. done.
  - destruct Hc as (Hb & Hb0 & Hc). rewrite mget_mset_eq, Hb. destruct (Z.eqb_spec b 0); [done|]. cbn [negb].
    destruct (IH (mset m s b) (s + 1) (t + 1) fuel) as (m' & E & Hc' & Hfr); [|lia|lia|].
    + eapply cstr_ext; [|exact Hc]. intros x Hx. rewrite mget_mset_ne by lia. done.
    + exists m'. split_and!; [done|rewrite Hfr by lia; by rewrite mget_mset_eq|done|done|]. intros x Hx. rewrite Hfr by lia. rewrite mget_mset_ne by lia. done.
Qed.

(** [gets] stays within the buffer and ends what it read with a NUL. *)
Lemma gets_loop_ok max buf input : forall m i m' input' i', Ulib.gets_loop m buf max i input = (m', input', i') -> 0 <= i -> i < max ->
  i <= i' < max /\ forall x, x < buf + i \/ buf + i' <= x -> mget m' x = mget m x.
Proof.
  induction input as [|c input IH]; intros m i m' input' i' E Hi Hm; cbn [Ulib.gets_loop] in E; destruct (Z.ltb_spec (i + 1) max); try (injection E as <- <- <-; split; [lia|done]).
  destruct ((c =? 10) || (c =? 13)).
  - injection E as <- <- <-. split; [lia|]. intros x Hx. rewrite mget_mset_ne by lia. done.
  - apply IH in E as [? Hfr]; [|lia|lia]. split; [lia|]. intros x Hx. rewrite Hfr by lia. rewrite mget_mset_ne by lia. done.
Qed.
Lemma gets_ok m buf max input m' input' : Ulib.gets m buf max input = (m', input') -> 0 < max ->
  (exists i, 0 <= i < max /\ mget m' (buf + i) = 0) /\ forall x, x < buf \/ buf + max <= x -> mget m' x = mget m x.
Proof.
  unfold Ulib.gets. destruct (Ulib.gets_loop m buf max 0 input) as [[m1 in1] i] eqn:E. intros [= <- <-] Hm. apply gets_loop_ok in E as [Hi Hfr]; [|lia|lia]. split.
  - exists i. split; [done|]. by rewrite mget_mset_eq.
  - intros x Hx. rewrite mget_mset_ne by lia. apply Hfr. lia.
Qed.

(** ** Printing and reading numbers *)

Definition is_digit (c : Z) : Prop := 48 <= c <= 57.
(** The value of digits, the least significant first. *)
Fixpoint rval (l : list Z) : Z := match l with [] => 0 | c :: l => (c - 48) + 10 * rval l end.

Lemma nth_decimal k : 0 <= k < 10 -> nth (Z.to_nat k) udigits 0 = 48 + k.
Proof. intros Hk. assert (Hc : k = 0 \/ k = 1 \/ k = 2 \/ k = 3 \/ k = 4 \/ k = 5 \/ k = 6 \/ k = 7 \/ k = 8 \/ k = 9) by lia. by repeat destruct Hc as [->|Hc]; subst. Qed.

Lemma int_digits_ok fuel : forall x k, 0 <= x < 10 ^ Z.of_nat k -> (1 <= k <= fuel)%nat ->
  exists buf, int_digits udigits x 10 fuel = Some buf /\ Forall is_digit buf /\ rval buf = x /\ (1 <= length buf <= k)%nat /\ (0 < x -> last buf <> Some 48).
Proof.
  induction fuel as [|fuel IH]; intros x k Hx Hk; [lia|]. cbn [int_digits]. pose proof (Z.mod_pos_bound x 10 ltac:(lia)) as Hm. rewrite nth_decimal by lia.
  pose proof (Z.div_mod x 10 ltac:(lia)) as Hdm. destruct (Z.eqb_spec (x / 10) 0) as [E|E]; cbn [negb].
  - exists [48 + x mod 10]. split_and!; [done|apply Forall_singleton; unfold is_digit; lia|cbn; lia|cbn; lia|cbn; lia|]. intros Hp [= ?]. lia.
  - destruct k as [|k]; [lia|]. assert (Hk1 : (1 <= k)%nat) by (destruct k; [change (10 ^ Z.of_nat 1) with 10 in Hx; Z.div_mod_to_equations; lia|lia]).
    rewrite Nat2Z.inj_succ, Z.pow_succ_r in Hx by lia. destruct (IH (x / 10) k) as (buf & -> & Hd & Hv & Hl & Hz); [|lia|].
    { split; [apply Z.div_pos; lia|apply Z.div_lt_upper_bound; lia]. }
    exists (48 + x mod 10 :: buf). assert (Hpos : 0 < x / 10) by (pose proof (Z.div_pos x 10); lia).
    split_and!; [done|constructor; [unfold is_digit; lia|done]|cbn [rval]; lia|cbn [length]; lia|cbn [length]; lia|]. intros _. destruct buf; [cbn in Hl; lia|]. by apply Hz.
Qed.

Lemma s32_idem a b : s32 (s32 a * 10 + b) = s32 (a * 10 + b).
Proof.
  unfold s32. f_equal. pose proof (Z.div_mod (a + 2 ^ 31) (2 ^ 32) ltac:(lia)) as E. set (r := (a + 2 ^ 31) mod 2 ^ 32) in *. set (q := (a + 2 ^ 31) / 2 ^ 32) in *.
  replace (a * 10 + b + 2 ^ 31) with ((r - 2 ^ 31) * 10 + b + 2 ^ 31 + q * 10 * 2 ^ 32) by lia. by rewrite Z_mod_plus_full.
Qed.
Lemma atoi_snoc s c : Forall is_digit s -> is_digit c -> forall n, Ulib.atoi_loop (s ++ [c]) n = s32 (Ulib.atoi_loop s n * 10 + c - 48).
Proof.
  unfold is_digit. intros Hs Hc. induction Hs as [|d s Hd Hs IH]; intros n; cbn [app Ulib.atoi_loop].
  - destruct (Z.leb_spec 48 c); [|lia]. destruct (Z.leb_spec c 57); [done|lia].
  - destruct (Z.leb_spec 48 d); [|lia]. destruct (Z.leb_spec d 57); [apply IH|lia].
Qed.
Lemma atoi_rval buf : Forall is_digit buf -> Ulib.atoi (reverse buf) = s32 (rval buf).
Proof.
  unfold Ulib.atoi. induction 1 as [|c buf Hc Hb IH]; [done|]. rewrite reverse_cons, atoi_snoc, IH by (try done; by apply Forall_reverse). cbn [rval].
  rewrite <- Z.add_sub_assoc, s32_idem. f_equal. lia.
Qed.
Lemma putc_all fd l : forall o, for_each l (Ulib.putc fd) o = Ok tt (o ++ ((fun c => (fd, u8 c)) <$> l)).
Proof. induction l as [|c l IH]; intros o; cbn [for_each fmap list_fmap]; [by rewrite app_nil_r|]. unfold bindM, Ulib.putc at 1, modifyM. rewrite IH. by rewrite <- app_assoc. Qed.

(** C39: [printf] with ["%d"] writes any 32-bit integer as a minus sign, if it is
    negative, and the decimal digits of its absolute value without leading
    zeros, in at most 11 characters, so within [buf[16]]; [atoi] of the digits is
    the absolute value (which for the smallest integer wraps to itself). *)
Theorem printf_atoi_roundtrip str x o : - 2 ^ 31 <= x < 2 ^ 31 ->
  exists s, Ulib.printf str [PERCENT; 100] [u64 x] o = Ok tt (o ++ ((fun c => (1, c)) <$> ((if x <? 0 then [MINUS] else []) ++ s))) /\
    Forall is_digit s /\ (1 <= length s <= 10)%nat /\ (x <> 0 -> head s <> Some 48) /\ Ulib.atoi s = s32 (Z.abs x).
Proof.
  intros Hx. destruct (int_digits_ok 32 (Z.abs x) 10) as (buf & E & Hd & Hv & Hl & Hz); [change (10 ^ Z.of_nat 10) with 10000000000; lia|lia|].
  exists (reverse buf). assert (Hs : s32 (u64 x) = x) by (unfold s32, u64; Z.div_mod_to_equations; lia).
  assert (Hb : int_buf udigits x 10 true = Some (buf ++ (if x <? 0 then [MINUS] else []))).
  { unfold int_buf. cbn [andb]. destruct (Z.ltb_spec x 0); rewrite u32_small by lia; [replace (- x) with (Z.abs x) by lia|replace x with (Z.abs x) at 1 by lia]; by rewrite E. }
  split_and!; [|by apply Forall_reverse|rewrite length_reverse; lia..| |].
  - unfold Ulib.printf. cbn [vprintf]. cbn [Z.eqb PERCENT Pos.eqb Z.land Pos.land]. change (Z.land 100 255) with 100. cbn [Z.eqb Pos.eqb hd tl]. rewrite Hs.
    change (Z.land PERCENT 255 =? PERCENT) with true. cbv iota. unfold printint. rewrite Hb. erewrite bindM_ok by apply putc_all. unfold retM. do 2 f_equal. rewrite reverse_app.
    replace (reverse (if x <? 0 then [MINUS] else [])) with (if x <? 0 then [MINUS] else []) by (by destruct (x <? 0)).
    apply list_fmap_ext. intros i c Hc. f_equal. apply Z.mod_small. assert (Hin : c ∈ (if x <? 0 then [MINUS] else []) ++ reverse buf) by (by eapply list_elem_of_lookup_2).
    apply elem_of_app in Hin as [Hin|Hin]; [destruct (x <? 0); [apply list_elem_of_singleton in Hin as ->; done|by apply not_elem_of_nil in Hin]|].
    rewrite elem_of_reverse in Hin. rewrite Forall_forall in Hd. specialize (Hd c Hin). unfold is_digit in Hd. lia.
  - intros Hne. rewrite head_reverse. apply Hz. lia.
  - rewrite atoi_rval by done. by rewrite Hv.
Qed.
Lemma printf_atoi_roundtrip_witness : exists s, Ulib.printf (fun _ => []) [PERCENT; 100] [u64 (-305)] [] = Ok tt ((fun c => (1, c)) <$> (MINUS :: s)) /\ Ulib.atoi s = 305.
Proof. destruct (printf_atoi_roundtrip (fun _ => []) (-305) [] ltac:(lia)) as (s & E & _ & _ & _ & Ha). exists s. by split. Defined.
