(* ===== verification/Sh.v ===== *)
(** * The shell's parser (user/sh.c)

    The line is a list of characters with its NUL; pointers into it are offsets.
    The parser's state is the offset [*ps].  A node of the tree holds the
    offsets of its words; [nulterminate] then ends them with NULs in the line
    itself.  [panic] ends the parse.  The functions that call each other take
    fuel. *)

From stdpp Require Import base list gmap strings.
From Stdlib Require Import ZArith Lia.
From S2P Require Import Prelude Sysfile Grep.
Open Scope Z_scope.

Definition MAXARGS : nat := 10.

(** A word: where it begins and where it ends. *)
Definition word : Type := nat * nat.
Inductive cmd :=
  | EXEC (argv : list word)
  | REDIR (c : cmd) (file : word) (mode fd : Z)
  | PIPE (left right : cmd)
  | LIST (left right : cmd)
  | BACK (c : cmd).

Definition whitespace : list Z := [32; 9; 13; 10; 11].
Definition LT : Z := 60.
Definition BAR : Z := 124.
Definition GT : Z := 62.
Definition AMP : Z := 38.
Definition SEMI : Z := 59.
Definition LPAR : Z := 40.
Definition RPAR : Z := 41.
Definition PLUS : Z := 43.
Definition WORD : Z := 97.
Definition symbols : list Z := [LT; BAR; GT; AMP; SEMI; LPAR; RPAR].
Definition in_str (s : list Z) (c : Z) : bool := match strchr s c with Some _ => true | None => false end.

Section Parser.
(** The line, and the offset [es] of its end. *)
Context (B : list Z) (es : nat).
Local Abbreviation P := (M nat).

Definition at_ (s : nat) : Z := nth s B 0.
(** Skipping the characters that satisfy [p], up to [es]. *)
Fixpoint skip_loop (p : Z -> bool) (s n : nat) : nat :=
  match n with
  | O => s
  | S n => if p (at_ s) then skip_loop p (S s) n else s
  end.
Definition skip (p : Z -> bool) (s : nat) : nat := skip_loop p s (es - s).

Definition gettoken : P (Z * word) := fun ps =>
  let s := skip (in_str whitespace) ps in
  let q := s in
  let c := at_ s in
  let '(ret, s) :=
    if c =? 0 then (c, s)
    else if (c =? BAR) || (c =? LPAR) || (c =? RPAR) || (c =? SEMI) || (c =? AMP) || (c =? LT) then (c, S s)
    else if c =? GT then (if at_ (S s) =? GT then (PLUS, S (S s)) else (c, S s))
    else (WORD, skip (fun c => negb (in_str whitespace c) && negb (in_str symbols c)) s) in
  Ok (ret, (q, s)) (skip (in_str whitespace) s).

Definition peek (toks : list Z) : P bool := fun ps =>
  let s := skip (in_str whitespace) ps in
  Ok (negb (at_ s =? 0) && in_str toks (at_ s)) s.

Fixpoint parseredirs (c : cmd) (fuel : nat) : P cmd :=
  match fuel with
  | O => fun _ => NoFuel
  | S fuel =>
      let! b := peek [LT; GT] in
      if b : bool then
        let! '(tok, _) := gettoken in
        let! '(tok2, w) := gettoken in
        if negb (tok2 =? WORD) then panicM "missing file for redirection"
        else
          let c :=
            if tok =? LT then REDIR c w O_RDONLY 0
            else if tok =? GT then REDIR c w (Z.lor O_WRONLY (Z.lor O_CREATE O_TRUNC)) 1
            else if tok =? PLUS then REDIR c w (Z.lor O_WRONLY O_CREATE) 1
            else c in
          parseredirs c fuel
      else retM c
  end.

(** Setting the arguments of the [execcmd] inside the redirections. *)
Fixpoint set_argv (argv : list word) (c : cmd) : cmd :=
  match c with
  | REDIR c w mode fd => REDIR (set_argv argv c) w mode fd
  | _ => EXEC argv
  end.

(** The loop of [parseexec] over the arguments. *)
Fixpoint args_loop (ret : cmd) (argv : list word) (n fuel : nat) : P cmd :=
  match fuel with
  | O => fun _ => NoFuel
  | S fuel =>
      let! b := peek [BAR; RPAR; AMP; SEMI] in
      if b : bool then retM (set_argv argv ret)
      else
        let! '(tok, w) := gettoken in
        if tok =? 0 then retM (set_argv argv ret)
        else if negb (tok =? WORD) then panicM "syntax"
        else
          let argv := argv ++ [w] in
          if decide (MAXARGS <= length argv)%nat then panicM "too many args"
          else
            let! ret := parseredirs ret n in
            args_loop ret argv n fuel
  end.

(** [while(peek(ps, es, "&"))] *)
Fixpoint back_loop (c : cmd) (fuel : nat) : P cmd :=
  match fuel with
  | O => fun _ => NoFuel
  | S fuel =>
      let! b := peek [AMP] in
      if b : bool then
        do! gettoken in
        back_loop (BACK c) fuel
      else retM c
  end.

(** The loops have at most a round per character of the line. *)
Definition rounds : nat := es + 1.

Fixpoint parseline (fuel : nat) : P cmd :=
  match fuel with
  | O => fun _ => NoFuel
  | S fuel =>
      let! c := parsepipe fuel in
      let! c := back_loop c rounds in
      let! b := peek [SEMI] in
      if b : bool then
        do! gettoken in
        let! r := parseline fuel in
        retM (LIST c r)
      else retM c
  end
with parsepipe (fuel : nat) : P cmd :=
  match fuel with
  | O => fun _ => NoFuel
  | S fuel =>
      let! c := parseexec fuel in
      let! b := peek [BAR] in
      if b : bool then
        do! gettoken in
        let! r := parsepipe fuel in
        retM (PIPE c r)
      else retM c
  end
with parseexec (fuel : nat) : P cmd :=
  match fuel with
  | O => fun _ => NoFuel
  | S fuel =>
      let! b := peek [LPAR] in
      if b : bool then parseblock fuel
      else
        let! ret := parseredirs (EXEC []) rounds in
        args_loop ret [] rounds rounds
  end
with parseblock (fuel : nat) : P cmd :=
  match fuel with
  | O => fun _ => NoFuel
  | S fuel =>
      let! b := peek [LPAR] in
      if negb b then panicM "parseblock"
      else
        do! gettoken in
        let! c := parseline fuel in
        let! b := peek [RPAR] in
        if negb b then panicM "syntax - missing )"
        else
          do! gettoken in
          parseredirs c rounds
  end.
End Parser.

(** NULs at the ends of all the words. *)
Fixpoint nulterminate (c : cmd) (B : list Z) : list Z :=
  match c with
  | EXEC argv => fold_left (fun B w => <[w.2 := 0]> B) argv B
  | REDIR c w _ _ => <[w.2 := 0]> (nulterminate c B)
  | PIPE l r => nulterminate r (nulterminate l B)
  | LIST l r => nulterminate r (nulterminate l B)
  | BACK c => nulterminate c B
  end.

(** [strlen(s)] of the line. *)
Fixpoint linelen (B : list Z) : nat :=
  match B with
  | [] => O
  | c :: B => if c =? 0 then O else S (linelen B)
  end.

(** The tree and the line as [nulterminate] leaves it. *)
Definition parsecmd (B : list Z) (fuel : nat) : outcome nat (cmd * list Z) :=
  let es := linelen B in
  (let! c := parseline B es fuel in
   do! peek B es [] in
   let! s := getM id in
   if decide (s = es) then retM (c, nulterminate c B) else panicM "syntax") O.
