(* ===== verification/ShThms.v ===== *)
(** * The shell's parser: theorems

    Every command can be written down as a line ([show]), and the parser reads
    the line back as that command. *)

From stdpp Require Import base list gmap strings.
From Stdlib Require Import ZArith Lia.
From S2P Require Import Prelude Sysfile Grep Sh.
Open Scope Z_scope.

(** ** Commands and how they are written *)

Inductive redir := RIn | ROut | RApp.
Inductive acmd :=
  | AExec (argv : list (list Z))
  | ARedir (c : acmd) (k : redir) (file : list Z)
  | APipe (l r : acmd)
  | AList (l r : acmd)
  | ABack (c : acmd).

Definition SP : Z := 32.
Definition rsym (k : redir) : list Z := match k with RIn => [LT] | ROut => [GT] | RApp => [GT; GT] end.
Definition rtok (k : redir) : Z := match k with RIn => LT | ROut => GT | RApp => PLUS end.
Definition rmode (k : redir) : Z := match k with RIn => O_RDONLY | ROut => Z.lor O_WRONLY (Z.lor O_CREATE O_TRUNC) | RApp => Z.lor O_WRONLY O_CREATE end.
Definition rfd (k : redir) : Z := match k with RIn => 0 | _ => 1 end.

(** Each word or symbol is followed by a space. *)
Definition show_words (ws : list (list Z)) : list Z := flat_map (fun w => w ++ [SP]) ws.
Definition show_redir (k : redir) (w : list Z) : list Z := rsym k ++ SP :: w ++ [SP].
Definition sym (c : Z) : list Z := [c; SP].
(** What can follow: 0 a list of commands, 1 a background command, 2 a pipeline,
    3 a part of one; a command that is not of its place's form is put in
    parentheses. *)
Definition paren (lvl k : nat) (t : list Z) : list Z := if decide (lvl <= k)%nat then t else sym LPAR ++ t ++ sym RPAR.
Fixpoint show (lvl : nat) (c : acmd) : list Z :=
  match c with
  | AExec ws => show_words ws
  | ARedir c k w => show 3 c ++ show_redir k w
  | APipe l r => paren lvl 2 (show 3 l ++ sym BAR ++ show 2 r)
  | ABack c => paren lvl 1 (show 1 c ++ sym AMP)
  | AList l r => paren lvl 0 (show 1 l ++ sym SEMI ++ show 0 r)
  end.

Definition is_ws (c : Z) : bool := in_str whitespace c.
Definition is_sym (c : Z) : bool := in_str symbols c.
Definition wordchar (c : Z) : Prop := c <> 0 /\ is_ws c = false /\ is_sym c = false.
Definition okword (w : list Z) : Prop := w <> [] /\ Forall wordchar w.
Fixpoint okcmd (c : acmd) : Prop :=
  match c with
  | AExec ws => Forall okword ws /\ (length ws < MAXARGS)%nat
  | ARedir c k w => okcmd c /\ okword w
  | APipe l r => okcmd l /\ okcmd r
  | AList l r => okcmd l /\ okcmd r
  | ABack c => okcmd c
  end.

(** ** The tree, with the places of the words *)

Fixpoint wpos (i : nat) (ws : list (list Z)) : list word :=
  match ws with
  | [] => []
  | w :: ws => (i, i + length w)%nat :: wpos (i + length w + 1) ws
  end.
Definition inner (lvl k i : nat) : nat := if decide (lvl <= k)%nat then i else (i + 2)%nat.
Definition rplace (c : cmd) (i : nat) (k : redir) (w : list Z) : cmd :=
  let q := (i + length (rsym k) + 1)%nat in REDIR c (q, q + length w)%nat (rmode k) (rfd k).
Fixpoint place (lvl i : nat) (c : acmd) : cmd :=
  match c with
  | AExec ws => EXEC (wpos i ws)
  | ARedir c k w => rplace (place 3 i c) (i + length (show 3 c)) k w
  | APipe l r => let i := inner lvl 2 i in PIPE (place 3 i l) (place 2 (i + length (show 3 l) + 2) r)
  | ABack c => BACK (place 1 (inner lvl 1 i) c)
  | AList l r => let i := inner lvl 0 i in LIST (place 1 i l) (place 0 (i + length (show 1 l) + 2) r)
  end.

(** ** Tokens *)

Section Tokens.
(** The line without its NUL. *)
Context (L : list Z).
Local Abbreviation B := (L ++ [0]).
Local Abbreviation es := (length L).
Definition rest_at (i : nat) (t : list Z) : Prop := drop i L = t.

Lemma at_rest i t : rest_at i t -> at_ B i = hd 0 t.
Proof.
  intros <-. unfold at_. rewrite nth_lookup. rewrite <- (Nat.add_0_r i) at 1. destruct (drop i L) as [|c t] eqn:E.
  - rewrite lookup_app_r by (rewrite <- (take_drop i L), E, app_nil_r, length_take; lia). destruct (i + 0 - length L)%nat; [done|]. cbn. by destruct n.
  - rewrite lookup_app_l; [rewrite <- lookup_drop, E; done|]. rewrite <- (take_drop i L), E, length_app, length_take. cbn.
    assert (i < length L)%nat; [|lia]. destruct (Nat.lt_ge_cases i (length L)) as [?|Hge]; [done|]. by rewrite drop_ge in E.
Qed.
Lemma rest_len i t : rest_at i t -> (es - i = length t)%nat.
Proof. intros <-. by rewrite length_drop. Qed.
Lemma rest_next i a t : rest_at i (a ++ t) -> rest_at (i + length a) t.
Proof. unfold rest_at. intros E. by rewrite <- drop_drop, E, drop_app_length. Qed.

Lemma skip_ok p a t i : rest_at i (a ++ t) -> Forall (fun c => p c = true) a -> (t = [] \/ p (hd 0 t) = false) -> skip B es p i = (i + length a)%nat.
Proof.
  intros Hr Ha Ht. unfold skip. rewrite (rest_len _ _ Hr), length_app. revert i Hr. induction Ha as [|c a Hc Ha IH]; intros i Hr; cbn [app length] in *.
  - rewrite Nat.add_0_r. destruct t as [|c t]; [done|]. destruct Ht as [?|Ht]; [done|]. cbn [skip_loop length Nat.add]. by rewrite (at_rest _ _ Hr), Ht.
  - cbn [Nat.add skip_loop]. rewrite (at_rest _ _ Hr). cbn [hd]. rewrite Hc, IH; [lia|]. apply (rest_next i [c]) in Hr. by rewrite Nat.add_1_r in Hr.
Qed.
Definition nows (t : list Z) : Prop := is_ws (hd 0 t) = false.
Lemma skip_none i t : rest_at i t -> nows t -> skip B es (in_str whitespace) i = i.
Proof. intros Hr Ht. rewrite (skip_ok _ [] t i); [cbn; lia|done|constructor|by right]. Qed.
Lemma skip_space i t : rest_at i (SP :: t) -> nows t -> skip B es (in_str whitespace) i = S i.
Proof. intros Hr Ht. rewrite (skip_ok _ [SP] t i); [cbn; lia|done|by repeat constructor|by right]. Qed.

Lemma peek_ok toks i t : rest_at i t -> nows t -> peek B es toks i = Ok (negb (hd 0 t =? 0) && in_str toks (hd 0 t)) i.
Proof. intros Hr Ht. unfold peek. rewrite (skip_none i t Hr Ht). by rewrite (at_rest _ _ Hr). Qed.

Lemma gettoken_word i w t : rest_at i (w ++ SP :: t) -> okword w -> nows t -> gettoken B es i = Ok (WORD, (i, i + length w)%nat) (i + length w + 1)%nat.
Proof.
  intros Hr [Hne Hw] Ht. destruct w as [|c w]; [done|]. pose proof (Forall_inv Hw) as (Hc0 & Hcw & Hcs). unfold gettoken.
  assert (Hs : skip B es (in_str whitespace) i = i) by (apply (skip_none i _ Hr); exact Hcw). rewrite Hs, (at_rest _ _ Hr). cbn [hd app].
  assert (Hsym : forall d, in_str symbols d = true -> c =? d = false) by (intros d Hd; apply Z.eqb_neq; intros ->; unfold is_sym in Hcs; congruence).
  rewrite (proj2 (Z.eqb_neq c 0) Hc0), !Hsym by done. cbn [orb].
  assert (Hk : skip B es (fun c => negb (in_str whitespace c) && negb (in_str symbols c)) i = (i + length (c :: w))%nat).
  { apply (skip_ok _ (c :: w) (SP :: t)); [done| |by right]. eapply Forall_impl; [exact Hw|]. intros d (_ & Hdw & Hds). unfold is_ws, is_sym in *. by rewrite Hdw, Hds. }
  rewrite Hk. cbv zeta. rewrite (skip_space _ t); [f_equal; lia|by apply (rest_next i (c :: w))|done].
Qed.
Lemma gettoken_sym i c t : rest_at i (c :: SP :: t) -> nows t -> c ∈ [BAR; LPAR; RPAR; SEMI; AMP; LT; GT] -> exists w, gettoken B es i = Ok (c, w) (i + 2)%nat.
Proof.
  intros Hr Ht Hc. unfold gettoken. assert (Hs : skip B es (in_str whitespace) i = i) by (apply (skip_none i _ Hr); unfold nows; cbn; set_unfold; destruct_or!; subst; done).
  rewrite Hs, (at_rest _ _ Hr). pose proof (rest_next i [c] _ Hr) as Hr1. cbn [length] in Hr1. rewrite Nat.add_1_r in Hr1.
  assert (Hn : skip B es (in_str whitespace) (S i) = (i + 2)%nat) by (rewrite (skip_space _ t Hr1 Ht); lia).
  cbn [hd]. rewrite (at_rest _ _ Hr1). exists (i, S i). set_unfold. destruct_or!; subst; cbn; try done; by rewrite Hn.
Qed.
Lemma gettoken_app i t : rest_at i (GT :: GT :: SP :: t) -> nows t -> exists w, gettoken B es i = Ok (PLUS, w) (i + 3)%nat.
Proof.
  intros Hr Ht. unfold gettoken. rewrite (skip_none i _ Hr) by done. rewrite (at_rest _ _ Hr). pose proof (rest_next i [GT] _ Hr) as Hr1. pose proof (rest_next i [GT; GT] _ Hr) as Hr2.
  cbn [length] in Hr1, Hr2. rewrite Nat.add_1_r in Hr1. cbn [hd]. rewrite (at_rest _ _ Hr1). exists (i, S (S i)). cbn.
  replace (S (S i)) with (i + 2)%nat by lia. rewrite (skip_space _ t Hr2 Ht). do 2 f_equal. lia.
Qed.
Lemma gettoken_end i : rest_at i [] -> (i <= es)%nat -> gettoken B es i = Ok (0, (i, i)) i.
Proof. intros Hr Hi. unfold gettoken. rewrite (skip_none i [] Hr) by done. rewrite (at_rest _ _ Hr). cbn. by rewrite (skip_none i [] Hr). Qed.
End Tokens.

(** ** Redirections and arguments *)

Definition rtext (rs : list (redir * list Z)) : list Z := flat_map (fun r => show_redir r.1 r.2) rs.
Fixpoint rwrap (c : cmd) (i : nat) (rs : list (redir * list Z)) : cmd :=
  match rs with
  | [] => c
  | (k, w) :: rs => rwrap (rplace c i k w) (i + length (show_redir k w)) rs
  end.
Lemma rtext_app a b : rtext (a ++ b) = rtext a ++ rtext b.
Proof. apply flat_map_app. Qed.
Lemma rwrap_snoc rs k w : forall c i, rwrap c i (rs ++ [(k, w)]) = rplace (rwrap c i rs) (i + length (rtext rs)) k w.
Proof.
  induction rs as [|[k' w'] rs IH]; intros c i; cbn [rwrap app]; [cbn; by rewrite Nat.add_0_r|]. rewrite IH. f_equal. unfold rtext. cbn [flat_map fst snd]. rewrite length_app. lia.
Qed.
Lemma set_argv_rwrap a rs : forall c i, set_argv a (rwrap c i rs) = rwrap (set_argv a c) i rs.
Proof. induction rs as [|[k w] rs IH]; intros c i; cbn [rwrap]; [done|]. by rewrite IH. Qed.

(** A command inside its redirections. *)
Fixpoint core (c : acmd) : acmd := match c with ARedir c _ _ => core c | _ => c end.
Fixpoint reds (c : acmd) : list (redir * list Z) := match c with ARedir c k w => reds c ++ [(k, w)] | _ => [] end.
Lemma show_core c : show 3 c = show 3 (core c) ++ rtext (reds c).
Proof.
  induction c as [|c IH k w| | |]; try (cbn [core reds rtext flat_map]; by rewrite app_nil_r). cbn [core reds]. rewrite rtext_app, app_assoc, <- IH. cbn [show]. f_equal.
  unfold rtext. cbn. by rewrite app_nil_r.
Qed.
Lemma place_core i c : place 3 i c = rwrap (place 3 i (core c)) (i + length (show 3 (core c))) (reds c).
Proof.
  induction c as [|c IH k w| | |]; try done. cbn [core reds place]. rewrite rwrap_snoc, <- IH. f_equal. rewrite (show_core c), length_app. lia.
Qed.
Lemma ok_core c : okcmd c -> okcmd (core c) /\ Forall (fun r => okword r.2) (reds c).
Proof. induction c as [|c IH k w| | |]; try (intros H; split; [exact H|constructor]). intros [Hc Hw]. destruct (IH Hc). split; [done|]. apply Forall_app. split; [done|]. by apply Forall_singleton. Qed.

Definition follow (F : list Z) (t : list Z) : Prop := t = [] \/ exists c t', t = c :: t' /\ c ∈ F.
Definition F3 : list Z := [BAR; RPAR; AMP; SEMI].
Definition F2 : list Z := [RPAR; AMP; SEMI].
Definition F1 : list Z := [RPAR; SEMI].
Definition F0 : list Z := [RPAR].
Lemma follow_sub F G t : F ⊆ G -> follow F t -> follow G t.
Proof. intros HS [->|(c & t' & -> & Hc)]; [by left|]. right. exists c, t'. split; [done|]. by apply HS. Qed.
Lemma follow_nows F t : F ⊆ F3 -> follow F t -> nows t.
Proof. intros HS [->|(c & t' & -> & Hc)]; [done|]. apply HS in Hc. unfold nows. cbn. unfold F3 in Hc. set_unfold. destruct_or!; by subst. Qed.
(** What [peek] finds before such a text. *)
Definition sees (toks : list Z) (t : list Z) : bool := negb (hd 0 t =? 0) && in_str toks (hd 0 t).
Lemma follow_sees F toks t : follow F t -> Forall (fun c => in_str toks c = false) F -> sees toks t = false.
Proof. intros [->|(c & t' & -> & Hc)] HF; [done|]. rewrite Forall_forall in HF. unfold sees. cbn. rewrite (HF c Hc). apply andb_false_r. Qed.
Lemma word_sees toks w t : okword w -> Forall (fun c => is_sym c = true) toks -> sees toks (w ++ t) = false.
Proof.
  intros [Hne Hw] Ht. destruct w as [|c w]; [done|]. pose proof (Forall_inv Hw) as (_ & _ & Hs). unfold sees. cbn [hd app]. assert (E : in_str toks c = false); [|by rewrite E, andb_false_r].
  unfold in_str. clear -Hs Ht. induction Ht as [|d toks Hd Ht IH]; [done|]. cbn [strchr]. destruct (Z.eqb_spec d 0) as [->|_]; [done|]. destruct (Z.eqb_spec d c) as [->|_]; [congruence|].
  destruct (strchr toks c); [done|done].
Qed.
Lemma word_nows w t : okword w -> nows (w ++ t).
Proof. intros [Hne Hw]. destruct w as [|c w]; [done|]. pose proof (Forall_inv Hw) as (_ & Hc & _). exact Hc. Qed.
Lemma words_nows ws t : Forall okword ws -> nows t -> nows (show_words ws ++ t).
Proof. intros Hw Ht. destruct ws as [|w ws]; [done|]. apply Forall_cons in Hw as [Hw _]. cbn. rewrite <- !app_assoc. by apply word_nows. Qed.
Lemma rtext_nows rs t : nows t -> nows (rtext rs ++ t).
Proof. intros Ht. destruct rs as [|[[] w] rs]; done. Qed.

Section Parse.
Context (L : list Z).
Local Abbreviation B := (L ++ [0]).
Local Abbreviation es := (length L).

Lemma peek_sees toks i t : rest_at L i t -> nows t -> peek B es toks i = Ok (sees toks t) i.
Proof. apply peek_ok. Qed.
Lemma parseredirs_ok t rs : nows t -> sees [LT; GT] t = false -> Forall (fun r => okword r.2) rs -> forall c i fuel, rest_at L i (rtext rs ++ t) -> (length rs < fuel)%nat ->
  parseredirs B es c fuel i = Ok (rwrap c i rs) (i + length (rtext rs))%nat.
Proof.
  intros Ht Hs Hok. induction Hok as [|[k w] rs Hw Hok IH]; intros c i fuel Hr Hf; (destruct fuel as [|fuel]; [cbn in Hf; lia|]); cbn [parseredirs].
  - change (rtext [] ++ t) with t in Hr. rewrite (bindM_ok _ _ _ _ _ (peek_sees [LT; GT] i t Hr Ht)), Hs. cbn. by rewrite Nat.add_0_r.
  - unfold rtext in Hr. cbn [flat_map fst snd] in Hr. fold (rtext rs) in Hr. cbn in Hw.
    assert (Hn : nows (show_redir k w ++ rtext rs ++ t)) by (by destruct k).
    erewrite bindM_ok by (apply peek_sees; [rewrite <- app_assoc in Hr; exact Hr|done]). assert (Es : sees [LT; GT] (show_redir k w ++ rtext rs ++ t) = true) by (by destruct k). rewrite Es.
    assert (Hr' : rest_at L i (rsym k ++ SP :: (w ++ SP :: (rtext rs ++ t)))) by (unfold show_redir in Hr; rewrite <- !app_assoc in Hr; cbn [app] in Hr; rewrite <- !app_assoc in Hr; exact Hr).
    assert (Hg : exists x, gettoken B es i = Ok (rtok k, x) (i + length (rsym k) + 1)%nat).
    { pose proof (word_nows w (SP :: rtext rs ++ t) Hw) as Hwn. destruct k; cbn [rsym app length rtok] in *.
      - destruct (gettoken_sym L i LT _ Hr' Hwn ltac:(set_solver)) as [x ->]. exists x. f_equal. lia.
      - destruct (gettoken_sym L i GT _ Hr' Hwn ltac:(set_solver)) as [x ->]. exists x. f_equal. lia.
      - destruct (gettoken_app L i _ Hr' Hwn) as [x ->]. exists x. f_equal. lia. }
    destruct Hg as [x Hg]. erewrite bindM_ok by exact Hg. cbv beta iota.
    assert (Hr2 : rest_at L (i + length (rsym k) + 1) (w ++ SP :: (rtext rs ++ t))).
    { replace (i + length (rsym k) + 1)%nat with (i + length (rsym k ++ [SP]))%nat by (rewrite length_app; cbn; lia). apply rest_next. rewrite <- app_assoc. exact Hr'. }
    erewrite bindM_ok by (eapply (gettoken_word L); [exact Hr2|done|by apply rtext_nows]). cbv beta iota. cbn [negb Z.eqb WORD Pos.eqb].
    assert (Hlen : length (show_redir k w) = (length (rsym k) + 1 + length w + 1)%nat) by (unfold show_redir; rewrite length_app; cbn; rewrite length_app; cbn; lia).
    transitivity (parseredirs B es (rplace c i k w) fuel (i + length (show_redir k w))%nat).
    { rewrite Hlen. replace (i + (length (rsym k) + 1 + length w + 1))%nat with (i + length (rsym k) + 1 + length w + 1)%nat by lia. by destruct k. }
    rewrite IH; [|rewrite <- app_assoc in Hr; by apply rest_next|cbn in Hf; lia]. cbn [rwrap]. f_equal. unfold rtext. cbn [flat_map fst snd]. rewrite length_app. lia.
Qed.

Lemma args_nil t ret argv n fuel i : follow F3 t -> rest_at L i t -> (i <= es)%nat -> args_loop B es ret argv n (S fuel) i = Ok (set_argv argv ret) i.
Proof.
  intros Ht Hr Hi. cbn [args_loop]. rewrite (bindM_ok _ _ _ _ _ (peek_sees _ i t Hr (follow_nows F3 t ltac:(done) Ht))). destruct Ht as [->|(c & t' & -> & Hc)].
  - cbn. rewrite (bindM_ok _ _ _ _ _ (gettoken_end L i Hr Hi)). done.
  - assert (E : sees [BAR; RPAR; AMP; SEMI] (c :: t') = true); [|by rewrite E]. unfold F3 in Hc. set_unfold. destruct_or!; by subst.
Qed.
Lemma rest_le i a t : rest_at L i (a ++ t) -> (i <= es)%nat -> (i + length a <= es)%nat /\ (i + length a + length t = es)%nat.
Proof. intros Hr Hi. apply rest_len in Hr. rewrite length_app in Hr. lia. Qed.

Lemma args_ok t rs n : follow F3 t -> Forall (fun r => okword r.2) rs -> (length rs < n)%nat -> forall ws argv ret i fuel, ws <> [] -> Forall okword ws ->
  rest_at L i (show_words ws ++ rtext rs ++ t) -> (i <= es)%nat -> (length argv + length ws < MAXARGS)%nat -> (length ws < fuel)%nat ->
  args_loop B es ret argv n fuel i = Ok (set_argv (argv ++ wpos i ws) (rwrap ret (i + length (show_words ws)) rs)) (i + length (show_words ws) + length (rtext rs))%nat.
Proof.
  intros Ht Hrs Hn. induction ws as [|w ws IH]; intros argv ret i fuel Hne Hws Hr Hi Hmax Hf; [done|]. apply Forall_cons in Hws as [Hw Hws]. pose proof (follow_nows F3 t ltac:(done) Ht) as Htn.
  destruct fuel as [|fuel]; [cbn in Hf; lia|]. cbn [args_loop]. unfold show_words in Hr. cbn [flat_map] in Hr. fold (show_words ws) in Hr. rewrite <- !app_assoc in Hr. cbn [app] in Hr.
  rewrite (bindM_ok _ _ _ _ _ (peek_sees _ i _ Hr (word_nows _ _ Hw))), word_sees by (try done; by repeat constructor).
  assert (Hnx : nows (show_words ws ++ rtext rs ++ t)) by (apply words_nows; [done|by apply rtext_nows]).
  erewrite bindM_ok by (eapply (gettoken_word L); [exact Hr|done|done]). cbv beta iota. cbn [Z.eqb WORD Pos.eqb negb].
  rewrite decide_False by (rewrite length_app; cbn [length] in *; lia).
  assert (Hr2 : rest_at L (i + length w + 1) (show_words ws ++ rtext rs ++ t)).
  { replace (i + length w + 1)%nat with (i + length (w ++ [SP]))%nat by (rewrite length_app; cbn; lia). apply rest_next. by rewrite <- app_assoc. }
  assert (Hi2 : (i + length w + 1 <= es)%nat) by (apply rest_len in Hr; rewrite length_app in Hr; cbn [length] in Hr; lia).
  assert (Hlen : length (show_words (w :: ws)) = (length w + 1 + length (show_words ws))%nat) by (unfold show_words; cbn [flat_map]; rewrite !length_app; cbn; lia).
  cbn [length] in Hmax, Hf. destruct ws as [|w2 ws].
  - erewrite bindM_ok by (apply (parseredirs_ok t rs); [done|eapply follow_sees; [exact Ht|by repeat constructor]|done|exact Hr2|lia]).
    destruct fuel as [|fuel]; [lia|]. rewrite args_nil with (t := t); [|done|by apply rest_next|apply (rest_le _ (rtext rs) t Hr2 Hi2)].
    cbn [wpos]. rewrite Hlen. cbn [show_words flat_map length]. f_equal; [|lia]. do 2 f_equal. lia.
  - assert (Hs2 : sees [LT; GT] (show_words (w2 :: ws) ++ rtext rs ++ t) = false).
    { apply Forall_cons in Hws as [Hw2 _]. unfold show_words. cbn [flat_map]. rewrite <- !app_assoc. apply word_sees; [done|by repeat constructor]. }
    erewrite bindM_ok by (apply (parseredirs_ok (show_words (w2 :: ws) ++ rtext rs ++ t) []); [done|done|apply Forall_nil_2|exact Hr2|cbn [length]; lia]).
    cbn [rtext flat_map length]. rewrite Nat.add_0_r. cbn [rwrap]. rewrite IH; [|done|done|exact Hr2|lia|rewrite length_app; cbn [length] in *; lia|cbn [length] in *; lia].
    rewrite Hlen. cbn [wpos]. rewrite <- app_assoc. f_equal; [|lia]. f_equal. f_equal. lia.
Qed.

(** ** The grammar *)

Definition parses (m : nat -> M nat cmd) (lvl k : nat) (F : list Z) (c : acmd) : Prop := forall i t fuel,
  rest_at L i (show lvl c ++ t) -> (i <= es)%nat -> follow F t -> (4 * length (show lvl c ++ t) + k <= fuel)%nat ->
  m fuel i = Ok (place lvl i c) (i + length (show lvl c))%nat.
Definition parseback (fuel : nat) : M nat cmd := let! c := parsepipe B es fuel in back_loop B es c (rounds es).
Definition PL := parses (parseline B es) 0 4 F0.
Definition PB := parses parseback 1 3 F1.
Definition PP := parses (parsepipe B es) 2 3 F2.
Definition PE := parses (parseexec B es) 3 2 F3.

Lemma back_stop c n i t : rest_at L i t -> nows t -> sees [AMP] t = false -> back_loop B es c (S n) i = Ok c i.
Proof. intros Hr Hn Hs. cbn [back_loop]. by rewrite (bindM_ok _ _ _ _ _ (peek_sees _ i t Hr Hn)), Hs. Qed.

Lemma exec_pipe c : show 2 c = show 3 c -> (forall i, place 2 i c = place 3 i c) -> PE c -> PP c.
Proof.
  intros Es Ep H i t fuel Hr Hi Ht Hf. rewrite Es in *. destruct fuel as [|fuel]; [lia|]. cbn [parsepipe].
  assert (Ht3 : follow F3 t) by (eapply follow_sub; [|exact Ht]; unfold F2, F3; set_solver).
  rewrite (bindM_ok _ _ _ _ _ (H i t fuel Hr Hi Ht3 ltac:(lia))).
  rewrite (bindM_ok _ _ _ _ _ (peek_sees _ _ t (rest_next _ _ _ _ Hr) (follow_nows F3 t ltac:(done) Ht3))), (follow_sees F2) by (try done; by repeat constructor).
  by rewrite Ep.
Qed.
(** A command with the ["&"]s read so far, when more may follow. *)
Definition PB0 (c : acmd) : Prop := forall i t fuel, rest_at L i (show 1 c ++ t) -> (i <= es)%nat -> follow F2 t -> (4 * length (show 1 c ++ t) + 3 <= fuel)%nat ->
  exists c0 j m, parsepipe B es fuel i = Ok c0 j /\ (m <= length (show 1 c))%nat /\
    forall k, back_loop B es c0 (m + k) j = back_loop B es (place 1 i c) k (i + length (show 1 c))%nat.
Lemma pipe_back0 c : show 1 c = show 2 c -> (forall i, place 1 i c = place 2 i c) -> PP c -> PB0 c.
Proof.
  intros Es Ep H i t fuel Hr Hi Ht Hf. rewrite Es in *. rewrite Ep. exists (place 2 i c), (i + length (show 2 c))%nat, 0%nat.
  split_and!; [by apply (H i t fuel Hr Hi Ht)|lia|done].
Qed.
Lemma back0_back c : PB0 c -> PB c.
Proof.
  intros H i t fuel Hr Hi Ht Hf. assert (Ht2 : follow F2 t) by (eapply follow_sub; [|exact Ht]; unfold F1, F2; set_solver).
  destruct (H i t fuel Hr Hi Ht2 Hf) as (c0 & j & m & E & Hm & Hk). unfold parseback. rewrite (bindM_ok _ _ _ _ _ E). pose proof (rest_le _ _ _ Hr Hi) as [Hle _].
  unfold rounds. replace (es + 1)%nat with (m + S (es - m))%nat by lia. rewrite Hk.
  apply back_stop with (t := t); [by apply rest_next|eapply follow_nows; [|exact Ht2]; unfold F2, F3; set_solver|eapply follow_sees; [exact Ht|by repeat constructor]].
Qed.
Lemma back_back0 c : PB0 c -> PB0 (ABack c).
Proof.
  intros H i t fuel Hr Hi Ht Hf. change (show 1 (ABack c)) with (show 1 c ++ sym AMP) in *. change (place 1 i (ABack c)) with (BACK (place 1 i c)). rewrite <- app_assoc in Hr.
  assert (Hn : nows t) by (eapply follow_nows; [|exact Ht]; unfold F2, F3; set_solver).
  destruct (H i (sym AMP ++ t) fuel Hr Hi ltac:(right; eexists _, _; split; [done|unfold F2; set_solver]) ltac:(rewrite !length_app in *; lia)) as (c0 & j & m & E & Hm & Hk).
  exists c0, j, (m + 1)%nat. rewrite length_app. cbn [sym length]. split_and!; [done|lia|]. intros k. rewrite <- Nat.add_assoc, Hk. cbn [Nat.add back_loop].
  pose proof (rest_next _ _ _ _ Hr) as Hr1. cbn [sym app] in Hr1. rewrite (bindM_ok _ _ _ _ _ (peek_sees _ _ _ Hr1 ltac:(done))). change (sees [AMP] (AMP :: _)) with true. cbv iota.
  destruct (gettoken_sym L _ AMP _ Hr1 Hn ltac:(set_solver)) as [x Hg]. rewrite (bindM_ok _ _ _ _ _ Hg). f_equal. lia.
Qed.
Lemma back_line c : show 0 c = show 1 c -> (forall i, place 0 i c = place 1 i c) -> PB c -> PL c.
Proof.
  intros Es Ep H i t fuel Hr Hi Ht Hf. rewrite Es in *. destruct fuel as [|fuel]; [lia|]. cbn [parseline].
  assert (Ht1 : follow F1 t) by (eapply follow_sub; [|exact Ht]; unfold F0, F1; set_solver). specialize (H i t fuel Hr Hi Ht1 ltac:(lia)). unfold parseback in H.
  apply bindM_ok_inv in H as (c1 & s1 & H1 & H2). rewrite (bindM_ok _ _ _ _ _ H1), (bindM_ok _ _ _ _ _ H2).
  rewrite (bindM_ok _ _ _ _ _ (peek_sees _ _ t (rest_next _ _ _ _ Hr) (follow_nows F1 t ltac:(unfold F1, F3; set_solver) Ht1))), (follow_sees F0) by (try done; by repeat constructor).
  by rewrite Ep.
Qed.

Lemma sees_rtext toks rs t : in_str toks LT = false -> in_str toks GT = false -> sees toks t = false -> sees toks (rtext rs ++ t) = false.
Proof. intros H1 H2 Ht. destruct rs as [|[[] w] rs]; [done|..]; unfold sees; cbn [rtext flat_map show_redir rsym fst snd app hd]; by rewrite ?H1, ?H2, andb_false_r. Qed.
Lemma rtext_count rs : Forall (fun r => okword r.2) rs -> (length rs <= length (rtext rs))%nat.
Proof.
  induction 1 as [|[k w] rs _ _ IH]; [done|]. change (rtext ((k, w) :: rs)) with (show_redir k w ++ rtext rs). rewrite length_app. unfold show_redir. rewrite length_app. cbn [length]. lia.
Qed.
Lemma words_count ws : (length ws <= length (show_words ws))%nat.
Proof. induction ws as [|w ws IH]; [done|]. change (show_words (w :: ws)) with ((w ++ [SP]) ++ show_words ws). rewrite !length_app. cbn [length]. lia. Qed.

Lemma exec_words c ws : core c = AExec ws -> okcmd c -> PE c.
Proof.
  intros Ec Hok i t fuel Hr Hi Ht Hf. destruct (ok_core c Hok) as [Hcore Hrs]. rewrite Ec in Hcore. destruct Hcore as [Hws Hmax]. rewrite place_core, (show_core c), Ec in *. cbn [show place] in *.
  rewrite <- app_assoc in Hr. destruct fuel as [|fuel]; [lia|]. cbn [parseexec]. pose proof (follow_nows F3 t ltac:(done) Ht) as Htn. pose proof (rest_len _ _ _ Hr) as Hlen. rewrite !length_app in Hlen.
  pose proof (rtext_count _ Hrs). pose proof (words_count ws). assert (Hnw : nows (show_words ws ++ rtext (reds c) ++ t)) by (apply words_nows; [done|by apply rtext_nows]).
  assert (Hsl : sees [LPAR] (rtext (reds c) ++ t) = false) by (apply sees_rtext; [done|done|eapply follow_sees; [exact Ht|by repeat constructor]]).
  assert (Hsr : sees [LT; GT] t = false) by (eapply follow_sees; [exact Ht|by repeat constructor]).
  rewrite (bindM_ok _ _ _ _ _ (peek_sees _ i _ Hr Hnw)). unfold rounds. destruct ws as [|w ws].
  - change (show_words [] ++ rtext (reds c) ++ t) with (rtext (reds c) ++ t) in *. rewrite Hsl. cbn [show_words flat_map length] in *.
    erewrite bindM_ok by (apply (parseredirs_ok t (reds c)); [done|done|done|exact Hr|lia]).
    rewrite Nat.add_1_r. rewrite args_nil with (t := t); [|done|by apply rest_next|apply (rest_le _ (rtext (reds c)) t Hr Hi)]. rewrite set_argv_rwrap. cbn [set_argv wpos app]. by rewrite Nat.add_0_r.
  - pose proof (Forall_inv Hws) as Hw. assert (Hsw : forall toks, Forall (fun c => is_sym c = true) toks -> sees toks (show_words (w :: ws) ++ rtext (reds c) ++ t) = false).
    { intros toks Hs. unfold show_words. cbn [flat_map]. rewrite <- !app_assoc. by apply word_sees. }
    rewrite Hsw by (by repeat constructor). erewrite bindM_ok by (apply (parseredirs_ok (show_words (w :: ws) ++ rtext (reds c) ++ t) []); [done|apply Hsw; by repeat constructor|apply Forall_nil_2|exact Hr|cbn [length]; lia]).
    cbn [rtext flat_map length rwrap]. rewrite Nat.add_0_r. rewrite (args_ok t (reds c) (es + 1) Ht Hrs ltac:(lia) (w :: ws)); [|done|done|exact Hr|done|cbn [length] in *; lia|cbn [length] in *; lia].
    rewrite set_argv_rwrap. cbn [set_argv app]. f_equal. rewrite length_app. lia.
Qed.

Lemma exec_block c : show 3 (core c) = sym LPAR ++ show 0 (core c) ++ sym RPAR -> (forall i, place 3 i (core c) = place 0 (i + 2) (core c)) -> nows (show 0 (core c) ++ sym RPAR) ->
  okcmd c -> PL (core c) -> PE c.
Proof.
  intros Es Ep Hn0 Hok H i t fuel Hr Hi Ht Hf. destruct (ok_core c Hok) as [_ Hrs]. rewrite place_core, (show_core c), Es, Ep in *. rewrite <- !app_assoc in Hr. cbn [sym app] in Hr.
  pose proof (follow_nows F3 t ltac:(done) Ht) as Htn. pose proof (rest_len _ _ _ Hr) as Hlen. cbn [length] in Hlen. rewrite !length_app in Hlen. cbn [length] in Hlen. rewrite length_app in Hlen.
  pose proof (rtext_count _ Hrs). rewrite !length_app in Hf. cbn [sym length] in Hf.
  destruct fuel as [|[|fuel]]; [lia|lia|]. cbn [parseexec]. rewrite (bindM_ok _ _ _ _ _ (peek_sees _ i _ Hr ltac:(done))). change (sees [LPAR] (LPAR :: _)) with true. cbv iota.
  cbn [parseblock]. rewrite (bindM_ok _ _ _ _ _ (peek_sees _ i _ Hr ltac:(done))). change (sees [LPAR] (LPAR :: _)) with true. cbn [negb].
  set (t1 := RPAR :: SP :: rtext (reds c) ++ t) in *. assert (Hn1 : nows (show 0 (core c) ++ t1)) by (unfold nows in *; destruct (show 0 (core c)); done).
  destruct (gettoken_sym L i LPAR _ Hr Hn1 ltac:(set_solver)) as [x Hg]. rewrite (bindM_ok _ _ _ _ _ Hg).
  assert (Hr1 : rest_at L (i + 2) (show 0 (core c) ++ t1)) by exact (rest_next L i [LPAR; SP] _ Hr).
  assert (Hl1 : length t1 = (2 + length (rtext (reds c)) + length t)%nat) by (unfold t1; cbn; rewrite length_app; lia).
  rewrite (bindM_ok _ _ _ _ _ (H (i + 2)%nat t1 fuel Hr1 ltac:(lia) ltac:(right; unfold t1, F0; eexists _, _; split; [done|set_solver]) ltac:(rewrite length_app; lia))).
  pose proof (rest_next _ _ _ _ Hr1) as Hr2. unfold t1 in Hr2. rewrite (bindM_ok _ _ _ _ _ (peek_sees _ _ _ Hr2 ltac:(done))). change (sees [RPAR] (RPAR :: _)) with true. cbn [negb].
  destruct (gettoken_sym L _ RPAR _ Hr2 ltac:(by apply rtext_nows) ltac:(set_solver)) as [y Hg2]. rewrite (bindM_ok _ _ _ _ _ Hg2).
  assert (Hr3 : rest_at L (i + 2 + length (show 0 (core c)) + 2) (rtext (reds c) ++ t)) by exact (rest_next L _ [RPAR; SP] _ Hr2).
  rewrite (parseredirs_ok t (reds c)); [|done|eapply follow_sees; [exact Ht|by repeat constructor]|done|exact Hr3|unfold rounds; lia].
  rewrite !length_app. cbn [length sym]. f_equal; [f_equal; lia|lia].
Qed.

Lemma show_nows c : okcmd c -> forall lvl t, nows t -> nows (show lvl c ++ t).
Proof.
  assert (Hp : forall lvl k a t, nows (a ++ t) -> nows (paren lvl k a ++ t)) by (intros lvl k a t Ha; unfold paren; case_decide; done).
  assert (Hs : forall c t, is_ws c = false -> nows (sym c ++ t)) by done.
  induction c as [ws|c IH k w|l IHl r IHr|l IHl r IHr|c IH]; cbn [okcmd show]; intros Hok lvl t Ht.
  - destruct Hok. by apply words_nows.
  - destruct Hok. rewrite <- app_assoc. apply IH; [done|]. by destruct k.
  - destruct Hok. apply Hp. rewrite <- app_assoc. by apply IHl.
  - destruct Hok. apply Hp. rewrite <- app_assoc. by apply IHl.
  - apply Hp. rewrite <- app_assoc. by apply IH.
Qed.

(** [(c)], for a command that is a list, in the background or a pipeline. *)
Lemma block_exec c : core c = c -> okcmd c -> show 3 c = sym LPAR ++ show 0 c ++ sym RPAR -> (forall i, place 3 i c = place 0 (i + 2) c) -> PL c -> PE c.
Proof. intros Ec Hok Es Ep H. apply exec_block; rewrite ?Ec; try done. by apply show_nows. Qed.

Lemma pipe_ok l r : okcmd l -> okcmd r -> PE l -> PP r -> PP (APipe l r).
Proof.
  intros Hl Hr He Hp i t fuel H Hi Ht Hf. change (show 2 (APipe l r)) with (show 3 l ++ sym BAR ++ show 2 r) in *.
  change (place 2 i (APipe l r)) with (PIPE (place 3 i l) (place 2 (i + length (show 3 l) + 2) r)). rewrite !length_app in Hf. cbn [sym length] in Hf.
  rewrite <- !app_assoc in H. cbn [sym app] in H. destruct fuel as [|fuel]; [lia|]. cbn [parsepipe].
  assert (Hnt : nows t) by (eapply follow_nows; [|exact Ht]; unfold F2, F3; set_solver). pose proof (show_nows r Hr 2 t Hnt) as Hnr.
  assert (Hfo : follow F3 (BAR :: SP :: show 2 r ++ t)) by (right; unfold F3; eexists _, _; split; [done|set_solver]).
  rewrite (bindM_ok _ _ _ _ _ (He i _ fuel H Hi Hfo ltac:(rewrite length_app; cbn [length]; rewrite length_app; lia))).
  pose proof (rest_next _ _ _ _ H) as H1. pose proof (rest_le _ _ _ H Hi) as [Hi1 Hlen]. cbn [length] in Hlen. rewrite length_app in Hlen.
  rewrite (bindM_ok _ _ _ _ _ (peek_sees _ _ _ H1 ltac:(done))). change (sees [BAR] (BAR :: _)) with true. cbv iota.
  destruct (gettoken_sym L _ BAR _ H1 Hnr ltac:(set_solver)) as [x Hg]. rewrite (bindM_ok _ _ _ _ _ Hg).
  pose proof (rest_next L _ [BAR; SP] _ H1) as H2. cbn [length] in H2. rewrite (bindM_ok _ _ _ _ _ (Hp _ t fuel H2 ltac:(lia) Ht ltac:(rewrite length_app; lia))).
  unfold retM. f_equal. rewrite !length_app. cbn [length sym]. lia.
Qed.
Lemma list_ok l r : okcmd l -> okcmd r -> PB l -> PL r -> PL (AList l r).
Proof.
  intros Hl Hr He Hp i t fuel H Hi Ht Hf. change (show 0 (AList l r)) with (show 1 l ++ sym SEMI ++ show 0 r) in *.
  change (place 0 i (AList l r)) with (LIST (place 1 i l) (place 0 (i + length (show 1 l) + 2) r)). rewrite !length_app in Hf. cbn [sym length] in Hf.
  rewrite <- !app_assoc in H. cbn [sym app] in H. destruct fuel as [|fuel]; [lia|]. cbn [parseline].
  assert (Hnt : nows t) by (eapply follow_nows; [|exact Ht]; unfold F0, F3; set_solver). pose proof (show_nows r Hr 0 t Hnt) as Hnr.
  assert (Hfo : follow F1 (SEMI :: SP :: show 0 r ++ t)) by (right; unfold F1; eexists _, _; split; [done|set_solver]).
  pose proof (He i _ fuel H Hi Hfo ltac:(rewrite length_app; cbn [length]; rewrite length_app; lia)) as Hb. unfold parseback in Hb.
  apply bindM_ok_inv in Hb as (c1 & s1 & E1 & E2). rewrite (bindM_ok _ _ _ _ _ E1), (bindM_ok _ _ _ _ _ E2).
  pose proof (rest_next _ _ _ _ H) as H1. pose proof (rest_le _ _ _ H Hi) as [Hi1 Hlen]. cbn [length] in Hlen. rewrite length_app in Hlen.
  rewrite (bindM_ok _ _ _ _ _ (peek_sees _ _ _ H1 ltac:(done))). change (sees [SEMI] (SEMI :: _)) with true. cbv iota.
  destruct (gettoken_sym L _ SEMI _ H1 Hnr ltac:(set_solver)) as [x Hg]. rewrite (bindM_ok _ _ _ _ _ Hg).
  pose proof (rest_next L _ [SEMI; SP] _ H1) as H2. cbn [length] in H2. rewrite (bindM_ok _ _ _ _ _ (Hp _ t fuel H2 ltac:(lia) Ht ltac:(rewrite length_app; lia))).
  unfold retM. f_equal. rewrite !length_app. cbn [length sym]. lia.
Qed.

(** The four kinds of texts of a command, and the command inside its redirections
    as a whole line. *)
Lemma parser_ok c : okcmd c -> PL c /\ PB0 c /\ PP c /\ PE c /\ ((exists ws, core c = AExec ws) \/ PL (core c) /\ show 3 (core c) = sym LPAR ++ show 0 (core c) ++ sym RPAR /\
  (forall i, place 3 i (core c) = place 0 (i + 2) (core c))).
Proof.
  induction c as [ws|c IH k w|l IHl r IHr|l IHl r IHr|c IH]; intros Hok.
  - assert (He : PE (AExec ws)) by (by eapply exec_words). assert (Hp : PP (AExec ws)) by (by apply exec_pipe). assert (Hb : PB0 (AExec ws)) by (by apply pipe_back0).
    split_and!; [by apply back_line, back0_back|done|done|done|left; by exists ws].
  - destruct (IH (proj1 Hok)) as (_ & _ & _ & _ & Hcore). assert (He : PE (ARedir c k w)).
    { destruct Hcore as [[ws Ec]|(Hl & Es & Ep)]; [by apply (exec_words _ ws)|]. apply exec_block; try done. apply show_nows; [|done]. by apply (ok_core c), Hok. }
    assert (Hp : PP (ARedir c k w)) by (by apply exec_pipe). assert (Hb : PB0 (ARedir c k w)) by (by apply pipe_back0).
    split_and!; [by apply back_line, back0_back|done|done|done|exact Hcore].
  - destruct (IHl (proj1 Hok)) as (_ & _ & _ & Hel & _), (IHr (proj2 Hok)) as (_ & _ & Hpr & _ & _).
    assert (Hp : PP (APipe l r)) by (by apply pipe_ok; destruct Hok). assert (Hb : PB0 (APipe l r)) by (by apply pipe_back0). assert (Hl : PL (APipe l r)) by (by apply back_line, back0_back).
    split_and!; [done|done|done|by apply block_exec|by right].
  - destruct (IHl (proj1 Hok)) as (_ & Hbl & _), (IHr (proj2 Hok)) as (Hlr & _).
    assert (Hl : PL (AList l r)) by (apply list_ok; [apply Hok|apply Hok|by apply back0_back|done]). assert (He : PE (AList l r)) by (by apply block_exec).
    assert (Hp : PP (AList l r)) by (by apply exec_pipe). assert (Hb : PB0 (AList l r)) by (by apply pipe_back0). split_and!; [done|done|done|done|by right].
  - destruct (IH Hok) as (_ & Hbc & _). assert (Hb : PB0 (ABack c)) by (by apply back_back0). assert (Hl : PL (ABack c)) by (by apply back_line, back0_back).
    assert (He : PE (ABack c)) by (by apply block_exec). assert (Hp : PP (ABack c)) by (by apply exec_pipe). split_and!; [done|done|done|done|by right].
Qed.
End Parse.

(** ** The strings of the tree *)

(** The C string at an offset of the line. *)
Fixpoint upto_nul (l : list Z) : list Z :=
  match l with
  | [] => []
  | c :: l => if c =? 0 then [] else c :: upto_nul l
  end.
Definition string_at (B : list Z) (i : nat) : list Z := upto_nul (drop i B).
(** The tree stands for the command, with its strings in the line [B]. *)
Fixpoint means (B : list Z) (c : cmd) (a : acmd) : Prop :=
  match c, a with
  | EXEC argv, AExec ws => (fun w => string_at B w.1) <$> argv = ws
  | REDIR c w mode fd, ARedir a k f => means B c a /\ string_at B w.1 = f /\ mode = rmode k /\ fd = rfd k
  | PIPE l r, APipe l' r' => means B l l' /\ means B r r'
  | LIST l r, AList l' r' => means B l l' /\ means B r r'
  | BACK c, ABack a => means B c a
  | _, _ => False
  end.

Fixpoint ends_of (c : cmd) : list nat :=
  match c with
  | EXEC argv => snd <$> argv
  | REDIR c w _ _ => ends_of c ++ [w.2]
  | PIPE l r | LIST l r => ends_of l ++ ends_of r
  | BACK c => ends_of c
  end.
Lemma nulterminate_lookup c : forall B j, (j < length B)%nat -> nulterminate c B !! j = if decide (j ∈ ends_of c) then Some 0 else B !! j.
Proof.
  assert (Hlen : forall c B, length (nulterminate c B) = length B).
  { assert (Hf : forall argv B, length (fold_left (fun B (w : word) => <[w.2 := 0]> B) argv B) = length B) by (induction argv as [|w argv IH]; intros B; cbn; [done|]; by rewrite IH, length_insert).
    induction c0 as [argv|c1 IH w m f|l IHl r IHr|l IHl r IHr|c1 IH]; intros B; cbn; rewrite ?length_insert, ?IHr; auto. }
  induction c as [argv|c IH w m f|l IHl r IHr|l IHl r IHr|c IH]; intros B j Hj; cbn [nulterminate ends_of].
  - revert B Hj. induction argv as [|w argv IH]; intros B Hj; cbn [fold_left fmap list_fmap]; [by rewrite decide_False by apply not_elem_of_nil|]. rewrite IH by (by rewrite length_insert).
    destruct (decide (w.2 = j)) as [<-|Hne]; [rewrite list_lookup_insert_eq by done; rewrite (decide_True (P := w.2 ∈ w.2 :: _)) by left; by case_decide|].
    rewrite list_lookup_insert_ne by done. apply decide_ext. rewrite elem_of_cons. naive_solver.
  - destruct (decide (w.2 = j)) as [<-|Hne]; [rewrite list_lookup_insert_eq by (by rewrite Hlen); by rewrite decide_True by set_solver|].
    rewrite list_lookup_insert_ne, IH by done. apply decide_ext. set_solver.
  - rewrite IHr, IHl by (by rewrite ?Hlen). repeat case_decide; try done; set_solver.
  - rewrite IHr, IHl by (by rewrite ?Hlen). repeat case_decide; try done; set_solver.
  - by apply IH.
Qed.

Section Strings.
Context (L : list Z).
(** The word [x] is at [w] in the line, with a space after it. *)
Definition word_at (w : word) (x : list Z) : Prop := (exists t, rest_at L w.1 (x ++ SP :: t)) /\ w.2 = (w.1 + length x)%nat /\ okword x.
Fixpoint tree_at (c : cmd) (a : acmd) : Prop :=
  match c, a with
  | EXEC argv, AExec ws => Forall2 word_at argv ws
  | REDIR c w mode fd, ARedir a k f => tree_at c a /\ word_at w f /\ mode = rmode k /\ fd = rfd k
  | PIPE l r, APipe l' r' => tree_at l l' /\ tree_at r r'
  | LIST l r, AList l' r' => tree_at l l' /\ tree_at r r'
  | BACK c, ABack a => tree_at c a
  | _, _ => False
  end.

Lemma paren_inner lvl k i a t : rest_at L i (paren lvl k a ++ t) -> exists t', rest_at L (inner lvl k i) (a ++ t').
Proof.
  unfold paren, inner. intros Hr. case_decide; [eauto|]. rewrite <- !app_assoc in Hr. apply (rest_next L i (sym LPAR)) in Hr. cbn [sym length] in Hr. eauto.
Qed.
Lemma wpos_at ws : forall i t, Forall okword ws -> rest_at L i (show_words ws ++ t) -> Forall2 word_at (wpos i ws) ws.
Proof.
  induction ws as [|w ws IH]; intros i t Hok Hr; cbn [wpos]; [constructor|]. apply Forall_cons in Hok as [Hw Hok]. change (show_words (w :: ws)) with ((w ++ [SP]) ++ show_words ws) in Hr.
  rewrite <- !app_assoc in Hr. cbn [app] in Hr. constructor; [split_and!; [by eexists|done|done]|]. apply (IH _ t Hok).
  replace (i + length w + 1)%nat with (i + length (w ++ [SP]))%nat by (rewrite length_app; cbn; lia). apply rest_next. by rewrite <- app_assoc.
Qed.
Lemma place_at c : okcmd c -> forall lvl i t, rest_at L i (show lvl c ++ t) -> tree_at (place lvl i c) c.
Proof.
  induction c as [ws|c IH k w|l IHl r IHr|l IHl r IHr|c IH]; cbn [okcmd show place tree_at]; intros Hok lvl i t Hr.
  - destruct Hok. by eapply wpos_at.
  - destruct Hok as [Hc Hw]. rewrite <- app_assoc in Hr. split_and!; [by eapply IH| |done|done]. apply rest_next in Hr. unfold show_redir in Hr. rewrite <- !app_assoc in Hr. cbn [app] in Hr.
    split_and!; [|done|done]. exists t. cbn [fst]. rewrite Nat.add_1_r. apply rest_next in Hr. apply (rest_next L _ [SP]) in Hr. cbn [length] in Hr. rewrite Nat.add_1_r in Hr. by rewrite <- app_assoc in Hr.
  - destruct Hok. apply paren_inner in Hr as [t' Hr]. rewrite <- !app_assoc in Hr. split; [by eapply IHl|]. apply rest_next in Hr. apply (rest_next L _ (sym BAR)) in Hr. by eapply IHr.
  - destruct Hok. apply paren_inner in Hr as [t' Hr]. rewrite <- !app_assoc in Hr. split; [by eapply IHl|]. apply rest_next in Hr. apply (rest_next L _ (sym SEMI)) in Hr. by eapply IHr.
  - apply paren_inner in Hr as [t' Hr]. rewrite <- app_assoc in Hr. by eapply IH.
Qed.

(** Every word ends at a space. *)
Lemma word_end w x : word_at w x -> L !! w.2 = Some SP.
Proof. intros ((t & Hr) & -> & _). apply rest_next in Hr. unfold rest_at in Hr. rewrite <- (Nat.add_0_r (w.1 + length x)), <- lookup_drop, Hr. done. Qed.
Lemma ends_space c : forall a j, tree_at c a -> j ∈ ends_of c -> L !! j = Some SP.
Proof.
  induction c as [argv|c IH w m f|l IHl r IHr|l IHl r IHr|c IH]; intros [ws|a k x|a1 a2|a1 a2|a] j Ht Hj; try done; cbn [tree_at ends_of] in *.
  - apply list_elem_of_fmap in Hj as (w & -> & Hw). apply list_elem_of_lookup_1 in Hw as [n Hn]. destruct (Forall2_lookup_l _ _ _ _ _ Ht Hn) as (x & _ & Hx). by eapply word_end.
  - destruct Ht as (Ht & Hw & _). apply elem_of_app in Hj as [Hj|Hj]; [by eapply IH|]. apply list_elem_of_singleton in Hj as ->. by eapply word_end.
  - destruct Ht. apply elem_of_app in Hj as [?|?]; [by eapply IHl|by eapply IHr].
  - destruct Ht. apply elem_of_app in Hj as [?|?]; [by eapply IHl|by eapply IHr].
  - by eapply IH.
Qed.

(** So putting NULs there leaves the words as they are and ends them. *)
Lemma cstring_at B x : forall q, Forall (fun c => c <> 0) x -> (forall n c, x !! n = Some c -> B !! (q + n)%nat = Some c) -> B !! (q + length x)%nat = Some 0 -> string_at B q = x.
Proof.
  unfold string_at. induction x as [|c x IH]; intros q Hx Hb He.
  - cbn in He. rewrite Nat.add_0_r in He. by rewrite (drop_S B 0 q He).
  - apply Forall_cons in Hx as [Hc Hx]. pose proof (Hb 0%nat c eq_refl) as H0. rewrite Nat.add_0_r in H0. rewrite (drop_S B c q H0). cbn [upto_nul]. rewrite (proj2 (Z.eqb_neq _ _) Hc). f_equal.
    apply IH; [done| |by rewrite Nat.add_succ_l, <- Nat.add_succ_r]. intros n d Hn. rewrite Nat.add_succ_l, <- Nat.add_succ_r. by apply Hb.
Qed.
Lemma tree_means (E : list nat) (B : list Z) : (forall j, j ∈ E -> L !! j = Some SP) -> (forall j c, L !! j = Some c -> B !! j = if decide (j ∈ E) then Some 0 else Some c) ->
  forall c a, (forall j, j ∈ ends_of c -> j ∈ E) -> tree_at c a -> means B c a.
Proof.
  intros HE HB. assert (Hw : forall w x, word_at w x -> w.2 ∈ E -> string_at B w.1 = x).
  { intros w x Hx Hin. pose proof (word_end w x Hx) as Hend. destruct Hx as ((t & Hr) & Ew & [_ Hok]). apply cstring_at.
    - eapply Forall_impl; [exact Hok|]. by intros c (? & _).
    - intros n c Hn. assert (HL : L !! (w.1 + n)%nat = Some c) by (rewrite <- lookup_drop, Hr; by apply lookup_app_l_Some). rewrite (HB _ _ HL), decide_False; [done|].
      intros Hj%HE. rewrite HL in Hj. injection Hj as ->. rewrite Forall_lookup in Hok. destruct (Hok n SP Hn) as (_ & Hws & _). done.
    - rewrite <- Ew. rewrite (HB _ _ Hend). by rewrite decide_True. }
  induction c as [argv|c IH w m f|l IHl r IHr|l IHl r IHr|c IH]; intros [ws|a k x|a1 a2|a1 a2|a] Hs Ht; try done; cbn [tree_at means ends_of] in *.
  - clear -Hw Hs Ht. induction Ht as [|w x argv ws Hx Ht IH]; [done|]. cbn [fmap list_fmap] in *. f_equal; [apply Hw; [done|apply Hs; left]|]. apply IH. intros j Hj. apply Hs. by right.
  - destruct Ht as (Ht & Hx & -> & ->). split_and!; [apply IH; [set_solver|done]|apply Hw; [done|apply Hs; set_solver]|done|done].
  - destruct Ht. split; [apply IHl; [set_solver|done]|apply IHr; [set_solver|done]].
  - destruct Ht. split; [apply IHl; [set_solver|done]|apply IHr; [set_solver|done]].
  - by apply IH.
Qed.
End Strings.

(** ** Every line is parsed *)

Lemma linelen_app L t : Forall (fun c => c <> 0) L -> linelen (L ++ 0 :: t) = length L.
Proof. induction 1 as [|c L Hc HL IH]; cbn; [done|]. by rewrite (proj2 (Z.eqb_neq _ _) Hc), IH. Qed.
Lemma linelen_le B : (linelen B <= length B)%nat.
Proof. induction B as [|c B IH]; cbn; [done|]. destruct (c =? 0); lia. Qed.
Lemma linelen_end B : at_ B (linelen B) = 0.
Proof. unfold at_. induction B as [|c B IH]; cbn; [done|]. destruct (Z.eqb_spec c 0); [done|]. exact IH. Qed.

Lemma in_str_elem l c : in_str l c = true -> c ∈ l.
Proof.
  unfold in_str. induction l as [|d l IH]; cbn [strchr]; [done|]. destruct (d =? 0); [done|]. destruct (Z.eqb_spec d c) as [->|_]; [left|]. destruct (strchr l c); [|done]. intros _. right. by apply IH.
Qed.

Section Total.
Context (B : list Z) (es : nat).
Hypothesis (Hes : at_ B es = 0).

(** Run from [i], a parser fails with a message or stops at [j]. *)
Definition goes {A} (m : M nat A) (i : nat) (Q : A -> nat -> Prop) : Prop :=
  match m i with
  | Ok a j => (i <= j <= es)%nat /\ Q a j
  | Panic _ => True
  | _ => False
  end.
Lemma goes_bind {A A'} (m : M nat A) (k : A -> M nat A') i (P : A -> nat -> Prop) (Q : A' -> nat -> Prop) :
  goes m i P -> (forall a j, (i <= j <= es)%nat -> P a j -> goes (k a) j (fun b j' => Q b j')) -> goes (bindM m k) i Q.
Proof.
  unfold goes, bindM. destruct (m i) as [a j|msg|j|]; try done. intros [Hj HP] Hk. specialize (Hk a j Hj HP). destruct (k a j) as [b j'|msg|j'|]; try done.
  destruct Hk as [? ?]. split; [lia|done].
Qed.
Lemma goes_mono {A} (m : M nat A) i (P Q : A -> nat -> Prop) : goes m i P -> (forall a j, (i <= j <= es)%nat -> P a j -> Q a j) -> goes m i Q.
Proof. unfold goes. destruct (m i); try done. intros [? ?] Hm. split; [done|]. by apply Hm. Qed.

Lemma skip_loop_le p n : forall s, (s <= skip_loop B p s n <= s + n)%nat.
Proof. induction n as [|n IH]; intros s; cbn; [lia|]. destruct (p _); [|lia]. specialize (IH (S s)). lia. Qed.
Lemma skip_le p s : (s <= es)%nat -> (s <= skip B es p s <= es)%nat.
Proof. intros Hs. unfold skip. pose proof (skip_loop_le p (es - s) s). lia. Qed.
Lemma skip_more p s : (s < es)%nat -> p (at_ B s) = true -> (s < skip B es p s <= es)%nat.
Proof. intros Hs Hp. unfold skip. destruct (es - s)%nat as [|n] eqn:E; [lia|]. cbn [skip_loop]. rewrite Hp. pose proof (skip_loop_le p n (S s)). lia. Qed.
Lemma skip_stop p s n : p (at_ B (skip_loop B p s n)) = true -> (skip_loop B p s n = s + n)%nat.
Proof. revert s. induction n as [|n IH]; intros s; cbn; [lia|]. destruct (p (at_ B s)) eqn:E; [|congruence]. intros H. rewrite IH by done. lia. Qed.
Lemma skip_ws_stops s : (s <= es)%nat -> is_ws (at_ B (skip B es (in_str whitespace) s)) = false.
Proof.
  intros Hs. destruct (is_ws _) eqn:E; [|done]. pose proof E as E'. apply skip_stop in E'. unfold skip in E. rewrite E' in E. replace (s + (es - s))%nat with es in E by lia. by rewrite Hes in E.
Qed.

Lemma peek_goes toks i : (i <= es)%nat -> goes (peek B es toks) i (fun b j => b = true -> at_ B (skip B es (in_str whitespace) j) <> 0).
Proof.
  intros Hi. unfold goes, peek. pose proof (skip_le (in_str whitespace) i Hi) as Hs. split; [done|]. intros [Hb _]%andb_true_iff.
  assert (E : skip B es (in_str whitespace) (skip B es (in_str whitespace) i) = skip B es (in_str whitespace) i).
  { pose proof (skip_ws_stops i Hi) as Hw. unfold skip at 1. destruct (es - _)%nat; [done|]. cbn [skip_loop]. unfold is_ws in Hw. by rewrite Hw. }
  rewrite E. by apply negb_true_iff, Z.eqb_neq in Hb.
Qed.
(** A token that is not the end takes at least a character. *)
Lemma gettoken_goes i : (i <= es)%nat -> goes (gettoken B es) i (fun r j => r.1 <> 0 \/ at_ B (skip B es (in_str whitespace) i) <> 0 -> (i < j)%nat).
Proof.
  intros Hi. unfold goes, gettoken. pose proof (skip_le (in_str whitespace) i Hi) as Hs. pose proof (skip_ws_stops i Hi) as Hw. set (s := skip B es (in_str whitespace) i) in *.
  assert (Hend : at_ B s <> 0 -> (s < es)%nat) by (intros H; destruct (Nat.eq_dec s es) as [E|]; [rewrite E in H; done|lia]).
  destruct (Z.eqb_spec (at_ B s) 0) as [E0|N0].
  - pose proof (skip_le (in_str whitespace) s ltac:(lia)). split; [lia|]. cbn [fst]. rewrite E0. by intros [?|?].
  - specialize (Hend N0). destruct (_ || _) eqn:Esym.
    + pose proof (skip_le (in_str whitespace) (S s) ltac:(lia)). split; [lia|]. intros _. lia.
    + destruct (Z.eqb_spec (at_ B s) GT) as [Eg|Ng].
      * destruct (Z.eqb_spec (at_ B (S s)) GT) as [E2|_].
        -- assert (S s <> es) by (intros E; rewrite E, Hes in E2; done). pose proof (skip_le (in_str whitespace) (S (S s)) ltac:(lia)). split; [lia|]. intros _. lia.
        -- pose proof (skip_le (in_str whitespace) (S s) ltac:(lia)). split; [lia|]. intros _. lia.
      * assert (Hns : in_str symbols (at_ B s) = false).
        { destruct (in_str symbols (at_ B s)) eqn:Ei; [|done]. apply in_str_elem in Ei. rewrite !orb_false_iff, !Z.eqb_neq in Esym. unfold symbols in Ei. set_unfold. naive_solver. }
        pose proof (skip_more (fun c => negb (in_str whitespace c) && negb (in_str symbols c)) s Hend ltac:(cbv beta; unfold is_ws in Hw; by rewrite Hw, Hns)) as Hm.
        pose proof (skip_le (in_str whitespace) (skip B es (fun c => negb (in_str whitespace c) && negb (in_str symbols c)) s) ltac:(lia)). split; [lia|]. intros _. lia.
Qed.

Local Abbreviation ok := (fun _ _ => True).
Lemma redirs_goes fuel : forall c i, (i <= es)%nat -> (es - i < fuel)%nat -> goes (parseredirs B es c fuel) i ok.
Proof.
  induction fuel as [|fuel IH]; intros c i Hi Hf; [lia|]. cbn [parseredirs]. eapply goes_bind; [by apply peek_goes|]. intros [] j1 H1 _; [|split; [lia|done]].
  eapply goes_bind; [apply gettoken_goes; lia|]. intros [tok w] j2 H2 _. eapply goes_bind; [apply gettoken_goes; lia|]. intros [tok2 w2] j3 H3 H4. cbn [fst] in H4.
  destruct (Z.eqb_spec tok2 WORD) as [->|]; cbn [negb]; [|done]. assert (j2 < j3)%nat by (apply H4; by left). apply IH; lia.
Qed.
Lemma args_goes n fuel : (es < n)%nat -> forall ret argv i, (i <= es)%nat -> (es - i < fuel)%nat -> goes (args_loop B es ret argv n fuel) i ok.
Proof.
  intros Hn. induction fuel as [|fuel IH]; intros ret argv i Hi Hf; [lia|]. cbn [args_loop]. eapply goes_bind; [by apply peek_goes|]. intros [] j1 H1 _; [split; [lia|done]|].
  eapply goes_bind; [apply gettoken_goes; lia|]. intros [tok w] j2 H2 H3. cbn [fst] in H3. destruct (Z.eqb_spec tok 0) as [->|]; [split; [lia|done]|]. assert (j1 < j2)%nat by (apply H3; by left).
  destruct (negb _); [done|]. case_decide; [done|]. eapply goes_bind; [apply redirs_goes; lia|]. intros ret' j3 H4 _. apply IH; lia.
Qed.
Lemma back_goes fuel : forall c i, (i <= es)%nat -> (es - i < fuel)%nat -> goes (back_loop B es c fuel) i ok.
Proof.
  induction fuel as [|fuel IH]; intros c i Hi Hf; [lia|]. cbn [back_loop]. eapply goes_bind; [by apply peek_goes|]. intros [] j1 H1 Hp; [|split; [lia|done]]. specialize (Hp eq_refl).
  eapply goes_bind; [apply gettoken_goes; lia|]. intros tok j2 H2 H3. specialize (H3 (or_intror Hp)). apply IH; lia.
Qed.
Lemma parsers_go fuel : forall i, (i <= es)%nat ->
  ((4 * (es - i) + 4 <= fuel)%nat -> goes (parseline B es fuel) i ok) /\ ((4 * (es - i) + 3 <= fuel)%nat -> goes (parsepipe B es fuel) i ok) /\
  ((4 * (es - i) + 2 <= fuel)%nat -> goes (parseexec B es fuel) i ok) /\ ((4 * (es - i) + 1 <= fuel)%nat -> goes (parseblock B es fuel) i ok).
Proof.
  induction fuel as [|fuel IH]; intros i Hi; [split_and!; lia|]. cbn [parseline parsepipe parseexec parseblock]. split_and!; intros Hf.
  - eapply goes_bind; [apply IH; lia|]. intros c j1 H1 _. eapply goes_bind; [apply back_goes; unfold rounds; lia|]. intros c2 j2 H2 _. eapply goes_bind; [apply peek_goes; lia|].
    intros [] j3 H3 Hp; [|split; [lia|done]]. eapply goes_bind; [apply gettoken_goes; lia|]. intros tok j4 H4 H5. specialize (H5 (or_intror (Hp eq_refl))).
    eapply goes_bind; [apply IH; lia|]. intros r j5 H6 _. by split; [lia|].
  - eapply goes_bind; [apply IH; lia|]. intros c j1 H1 _. eapply goes_bind; [apply peek_goes; lia|].
    intros [] j3 H3 Hp; [|split; [lia|done]]. eapply goes_bind; [apply gettoken_goes; lia|]. intros tok j4 H4 H5. specialize (H5 (or_intror (Hp eq_refl))).
    eapply goes_bind; [apply IH; lia|]. intros r j5 H6 _. by split; [lia|].
  - eapply goes_bind; [apply peek_goes; lia|]. intros [] j1 H1 _; [apply IH; lia|]. eapply goes_bind; [apply redirs_goes; unfold rounds; lia|]. intros ret j2 H2 _. apply args_goes; unfold rounds; lia.
  - eapply goes_bind; [apply peek_goes; lia|]. intros [] j1 H1 Hp; cbn [negb]; [|done]. eapply goes_bind; [apply gettoken_goes; lia|]. intros tok j2 H2 H3. specialize (H3 (or_intror (Hp eq_refl))).
    eapply goes_bind; [apply IH; lia|]. intros c j3 H4 _. eapply goes_bind; [apply peek_goes; lia|]. intros [] j4 H5 _; cbn [negb]; [|done].
    eapply goes_bind; [apply gettoken_goes; lia|]. intros tok2 j5 H6 _. apply redirs_goes; unfold rounds; lia.
Qed.
End Total.

Lemma parse_total B fuel : (4 * linelen B + 4 <= fuel)%nat -> (exists r s, parsecmd B fuel = Ok r s) \/ exists msg, parsecmd B fuel = Panic msg.
Proof.
  intros Hf. unfold parsecmd. set (es := linelen B). assert (Hes : at_ B es = 0) by apply linelen_end.
  assert (H : goes es (let! c := parseline B es fuel in do! peek B es [] in let! s := getM id in if decide (s = es) then retM (c, nulterminate c B) else panicM "syntax") 0 (fun _ _ => True)).
  { eapply goes_bind; [apply (parsers_go B es Hes fuel 0); unfold es; lia|]. intros c j1 H1 _. eapply goes_bind; [apply peek_goes; [done|lia]|]. intros b j2 H2 _.
    eapply (goes_bind _ _ _ _ (fun _ _ => True)); [split; [lia|done]|]. intros s j3 H3 _. case_decide; [split; [lia|done]|done]. }
  unfold goes in H. revert H. match goal with |- match ?x with Ok _ _ => _ | _ => _ end -> _ => destruct x end; [left; eauto|right; eauto|done|done].
Qed.

(** The characters a command is written with. *)
Lemma show_chars (P : Z -> Prop) c : (forall x, wordchar x -> P x) -> P SP -> Forall P symbols -> okcmd c -> forall lvl, Forall P (show lvl c).
Proof.
  intros Hwc HSP Hsyms. assert (Hs : forall x, x ∈ symbols -> Forall P (sym x)) by (intros x Hx; rewrite Forall_forall in Hsyms; repeat constructor; auto).
  assert (Hp : forall lvl k a, Forall P a -> Forall P (paren lvl k a)).
  { intros lvl k a Ha. unfold paren. case_decide; [done|]. rewrite !Forall_app. split_and!; [apply Hs; set_solver|done|apply Hs; set_solver]. }
  assert (Hw : forall w, okword w -> Forall P (w ++ [SP])) by (intros w [_ Hw]; apply Forall_app; split; [by eapply Forall_impl; [exact Hw|]|by repeat constructor]).
  induction c as [ws|c IH k w|l IHl r IHr|l IHl r IHr|c IH]; cbn [okcmd show]; intros Hok lvl.
  - destruct Hok as [Hws _]. induction Hws as [|w ws Hx Hws IH]; [apply Forall_nil_2|]. change (show_words (w :: ws)) with ((w ++ [SP]) ++ show_words ws). apply Forall_app. auto.
  - destruct Hok. apply Forall_app. split; [by apply IH|]. unfold show_redir. rewrite Forall_forall in Hsyms. apply Forall_app. split; [destruct k; cbn; repeat constructor; apply Hsyms; set_solver|]. constructor; [done|by apply Hw].
  - destruct Hok. apply Hp. rewrite !Forall_app. split_and!; [by apply IHl|apply Hs; set_solver|by apply IHr].
  - destruct Hok. apply Hp. rewrite !Forall_app. split_and!; [by apply IHl|apply Hs; set_solver|by apply IHr].
  - apply Hp, Forall_app. split; [by apply IH|apply Hs; set_solver].
Qed.
Lemma show_nonzero c : okcmd c -> forall lvl, Forall (fun c => c <> 0) (show lvl c).
Proof. apply show_chars; [by intros x (? & _)|done|by repeat constructor]. Qed.

(** What is written for a command is read as that command. *)
Lemma parse_written c fuel : okcmd c -> (4 * length (show 0 c) + 4 <= fuel)%nat -> exists tree B' s, parsecmd (show 0 c ++ [0]) fuel = Ok (tree, B') s /\ means B' tree c.
Proof.
  intros Hok Hf. set (L := show 0 c) in *. pose proof (show_nonzero c Hok 0) as Hnz. fold L in Hnz.
  assert (Hr : rest_at L 0 (show 0 c ++ [])) by (unfold rest_at; by rewrite drop_0, app_nil_r). destruct (parser_ok L c Hok) as (Hl & _).
  pose proof (Hl 0%nat [] fuel Hr ltac:(lia) ltac:(by left) ltac:(rewrite app_nil_r; exact Hf)) as E. exists (place 0 0 c), (nulterminate (place 0 0 c) (L ++ [0])), (length L).
  split.
  - unfold parsecmd. rewrite linelen_app by done. rewrite (bindM_ok _ _ _ _ _ E). fold L. cbn [Nat.add].
    rewrite (bindM_ok _ _ _ _ _ (peek_sees L [] (length L) [] ltac:(unfold rest_at; by rewrite drop_all) ltac:(done))). unfold bindM, getM, id. by rewrite decide_True.
  - pose proof (place_at L c Hok 0 0 [] Hr) as Ht. apply (tree_means L (ends_of (place 0 0 c))); [by intros j; apply ends_space with (a := c)| |done|done].
    intros j x Hj. pose proof (lookup_lt_Some _ _ _ Hj) as Hlt. rewrite nulterminate_lookup by (rewrite length_app; lia). case_decide; [done|]. by apply lookup_app_l_Some.
Qed.

(** C17: the parser comes to an end on every line, with a tree or with an error
    message; and every command, however built from programs with their arguments
    (at most 9), redirections, pipes, lists, background and parentheses, is the
    command it finds in the line that is written for it: after [nulterminate] the
    tree's pointers are to exactly the command's strings. *)
Theorem parsecmd_correct :
  (forall B fuel, (4 * linelen B + 4 <= fuel)%nat -> (exists r s, parsecmd B fuel = Ok r s) \/ exists msg, parsecmd B fuel = Panic msg) /\
  (forall c fuel, okcmd c -> (4 * length (show 0 c) + 4 <= fuel)%nat -> exists tree B' s, parsecmd (show 0 c ++ [0]) fuel = Ok (tree, B') s /\ means B' tree c).
Proof. split; [exact parse_total|exact parse_written]. Qed.

(** The line [a | ( b x ; c ) & ; d >> f]. *)
Definition a_command : acmd :=
  AList (ABack (APipe (AExec [[97]]) (AList (AExec [[98]; [120]]) (AExec [[99]])))) (ARedir (AExec [[100]]) RApp [102]).
Lemma parsecmd_correct_witness :
  show 0 a_command = [97;32; 124;32; 40;32; 98;32; 120;32; 59;32; 99;32; 41;32; 38;32; 59;32; 100;32; 62;62;32; 102;32] /\
  exists tree B' s, parsecmd (show 0 a_command ++ [0]) 200 = Ok (tree, B') s /\ means B' tree a_command.
Proof.
  split; [reflexivity|]. apply (proj2 parsecmd_correct); [|vm_compute; lia].
  assert (Hw : forall x, x ∈ [97; 98; 120; 99; 100; 102] -> okword [x]) by (intros x Hx; split; [done|]; apply Forall_singleton; repeat (apply elem_of_cons in Hx as [->|Hx]; [by vm_compute|]); by apply elem_of_nil in Hx).
  cbn [okcmd a_command]. repeat split; repeat constructor; try (apply Hw; set_solver); cbn; unfold MAXARGS; lia.
Defined.
