(* ===== verification/ShRun.v ===== *)
(** * Running commands (user/sh.c)

    [runcmd], [getcmd] and [main].  A process is what it does that others can see:
    it forks, waits, executes a program with a table of open descriptors, or exits.
    Opening a descriptor takes the lowest free one, as the kernel's [fdalloc] does.
    A call that can fail does so as an oracle says, which is asked with the place of
    the call in the tree of processes.

    The theorems: whatever fails, the programs that are executed have exactly the
    descriptors the command line means them to have, and no other; and a session at
    the prompt, from the bytes typed to the programs executed. *)

From stdpp Require Import base list gmap strings.
From Stdlib Require Import ZArith Lia.
From S2P Require Import Prelude Mem Layout Kernel Sysfile Grep Ulib Sh ShThms.
Open Scope Z_scope.

Module ShRun.
(** What a descriptor is open on: something the shell was given, a file, or an end of
    the pipe made at a place. *)
Inductive stream :=
  | Given (fd : nat)
  | Opened (file : list Z) (mode : Z)
  | ReadEnd (place : list nat)
  | WriteEnd (place : list nat).
Definition fdtable : Type := list (option stream).

(** The lowest free descriptor. *)
Fixpoint fdalloc {A} (x : A) (t : list (option A)) : option (nat * list (option A)) :=
  match t with
  | [] => None
  | None :: t => Some (O, Some x :: t)
  | Some y :: t => (fun r => (S r.1, Some y :: r.2)) <$> fdalloc x t
  end.
Definition close (fd : nat) (t : fdtable) : fdtable := <[fd := None]> t.
(** [dup(fd)], its result not looked at. *)
Definition dup (fd : nat) (t : fdtable) : fdtable :=
  match t !! fd with
  | Some (Some x) => match fdalloc x t with Some (_, t) => t | None => t end
  | _ => t
  end.
Definition pipe (place : list nat) (t : fdtable) : option (nat * nat * fdtable) :=
  match fdalloc (ReadEnd place) t with
  | None => None
  | Some (p0, t) =>
      match fdalloc (WriteEnd place) t with
      | None => None
      | Some (p1, t) => Some (p0, p1, t)
      end
  end.

(** What a process does; after [PExec] it goes on only if exec fails. *)
Inductive process :=
  | PExit (code : Z)
  | PExec (argv : list (list Z)) (t : fdtable) (failed : process)
  | PFork (child parent : process)
  | PWait (t : fdtable) (k : process)
  | PChdir (path : list Z) (k : process).

Section Run.
(** Which calls of open, pipe and fork succeed, by their place. *)
Context (ok : list nat -> bool).
(** [fork1]: the child, or [panic] when fork fails. *)
Definition fork1 (place : list nat) (child parent : process) : process :=
  if ok place then PFork child parent else PExit 1.

(** The command's strings are in the line [B]. *)
Fixpoint runcmd (B : list Z) (c : cmd) (t : fdtable) (place : list nat) : process :=
  match c with
  | EXEC argv =>
      match argv with
      | [] => PExit 1
      | _ => PExec ((fun w => string_at B w.1) <$> argv) t (PExit 0)
      end
  | REDIR c file mode fd =>
      let t := close (Z.to_nat fd) t in
      if ok (2%nat :: place) then
        match fdalloc (Opened (string_at B file.1) mode) t with
        | None => PExit 1
        | Some (_, t) => runcmd B c t (0%nat :: place)
        end
      else PExit 1
  | LIST l r =>
      fork1 (3%nat :: place) (runcmd B l t (0%nat :: place))
        (PWait t (runcmd B r t (1%nat :: place)))
  | PIPE l r =>
      if ok (2%nat :: place) then
        match pipe place t with
        | None => PExit 1
        | Some (p0, p1, t) =>
            fork1 (3%nat :: place)
              (let t := close 1 t in
               let t := dup p1 t in
               let t := close p0 t in
               let t := close p1 t in
               runcmd B l t (0%nat :: place))
              (fork1 (4%nat :: place)
                (let t := close 0 t in
                 let t := dup p0 t in
                 let t := close p0 t in
                 let t := close p1 t in
                 runcmd B r t (1%nat :: place))
                (let t := close p0 t in
                 let t := close p1 t in
                 PWait t (PWait t (PExit 0))))
        end
      else PExit 1
  | BACK c => fork1 (3%nat :: place) (runcmd B c t (0%nat :: place)) (PExit 0)
  end.

(** [getcmd] with the bytes that can still be read from the console; the prompt is
    not modelled. *)
Definition getcmd (m : mem) (buf nbuf : Z) (input : list Z) : Z * mem * list Z :=
  let m := Ulib.memset m buf 0 nbuf in
  let '(m, input) := Ulib.gets m buf nbuf input in
  (if mget m buf =? 0 then -1 else 0, m, input).

Definition console : list Z := [99; 111; 110; 115; 111; 108; 101].
(** [while((fd = open("console", O_RDWR)) >= 0)] *)
Fixpoint open_console (t : fdtable) (place : list nat) (fuel : nat) : option fdtable :=
  match fuel with
  | O => None
  | S fuel =>
      if ok (2%nat :: place) then
        match fdalloc (Opened console O_RDWR) t with
        | None => Some t
        | Some (fd, t) => if decide (3 <= fd)%nat then Some (close fd t) else open_console t (1%nat :: place) fuel
        end
      else Some t
  end.

Definition BUF : Z := 100.
(** The line in the buffer. *)
Definition line (m : mem) (buf : Z) : list Z := mread m buf (Z.to_nat BUF).
(** The child's [runcmd(parsecmd(buf))]; the line is the child's copy. *)
Definition command (B : list Z) (t : fdtable) (place : list nat) : option process :=
  match parsecmd B (4 * linelen B + 4) with
  | Ok (c, B) _ => Some (runcmd B c t place)
  | Panic _ => Some (PExit 1)
  | _ => None
  end.
(** [while(getcmd(buf, sizeof(buf)) >= 0)] *)
Fixpoint main_loop (m : mem) (buf : Z) (t : fdtable) (input : list Z) (place : list nat) (fuel : nat) : option process :=
  match fuel with
  | O => None
  | S fuel =>
      let '(r, m, input) := getcmd m buf BUF input in
      if r <? 0 then Some (PExit 0)
      else if (mget m buf =? 99) && (mget m (buf + 1) =? 100) && (mget m (buf + 2) =? 32) then
        let m := mset m (buf + Z.of_nat (linelen (line m buf)) - 1) 0 in
        PChdir (string_at (line m buf) 3) <$> main_loop m buf t input (1%nat :: place) fuel
      else
        child ← command (line m buf) t (0%nat :: place);
        rest ← main_loop m buf t input (1%nat :: place) fuel;
        Some (fork1 (3%nat :: place) child (PWait t rest))
  end.
Definition main (m : mem) (buf : Z) (t : fdtable) (input : list Z) : option process :=
  t ← open_console t [0%nat] 4;
  main_loop m buf t input [] (length input + 1).
End Run.
End ShRun.
Import ShRun.

(** ** The descriptors are the kernel's

    The kernel's [fdalloc] does to the running process's table what the shell's does
    to its own. *)
Lemma fdalloc_loop_kernel {St Dv : Type} f (k : kstate St Dv) : forall n j, let t := p_ofile (proc_at k (k_cur k)) in length t = (j + n)%nat ->
  fdalloc_loop f (seq j n) k =
    match ShRun.fdalloc f (drop j t) with
    | None => Ok (-1) k
    | Some (fd, t') => Ok (Z.of_nat (j + fd)) (set_k_procs (alter (set_p_ofile (take j t ++ t')) (k_cur k) (k_procs k)) k)
    end.
Proof.
  induction n as [|n IH]; intros j t Hl; cbn [seq fdalloc_loop]; [by rewrite drop_ge by (unfold t in *; lia)|].
  destruct (lookup_lt_is_Some_2 t j ltac:(lia)) as [x Ex]. rewrite (drop_S t x j Ex). unfold bindM, myproc, getp, getM. fold t. rewrite nth_lookup, Ex. cbn [default].
  destruct x as [y|]; cbn [ShRun.fdalloc].
  - cbn [id]. rewrite IH by (unfold t in *; lia). fold t. destruct (ShRun.fdalloc f (drop (S j) t)) as [[fd t']|]; cbn [fmap option_fmap option_map fst snd]; [|done].
    rewrite (take_S_r t j (Some y) Ex), <- app_assoc. cbn [app]. do 2 f_equal. lia.
  - cbn [id]. unfold setp, modifyM, retM. rewrite Nat.add_0_r. do 2 f_equal. apply list_alter_ext; [|done]. intros p Hp.
    assert (Et : p_ofile p = t) by (unfold t, proc_at; by rewrite nth_lookup, Hp). rewrite Et. f_equal. by rewrite <- (take_drop_middle t j None Ex) at 1; rewrite insert_app_r_alt, length_take_le, Nat.sub_diag by (rewrite ?length_take; lia).
Qed.
Lemma fdalloc_kernel {St Dv : Type} f (k : kstate St Dv) : let t := p_ofile (proc_at k (k_cur k)) in length t = Z.to_nat NOFILE ->
  Sysfile.fdalloc f k =
    match ShRun.fdalloc f t with
    | None => Ok (-1) k
    | Some (fd, t') => Ok (Z.of_nat fd) (set_k_procs (alter (set_p_ofile t') (k_cur k) (k_procs k)) k)
    end.
Proof. intros t Hl. unfold Sysfile.fdalloc. by rewrite fdalloc_loop_kernel by exact Hl. Qed.

(** ** The plumbing *)

(** A table with only the standard descriptors open. *)
Definition std (i o e : stream) : fdtable := Some i :: Some o :: Some e :: replicate 13 None.
(** The programs a command stands for, with their input and output; the arguments
    are where the standard input and output go. *)
Fixpoint plan (e i o : stream) (c : acmd) (place : list nat) : list (list (list Z) * fdtable) :=
  match c with
  | AExec [] => []
  | AExec ws => [(ws, std i o e)]
  | ARedir c RIn f => plan e (Opened f (rmode RIn)) o c (0%nat :: place)
  | ARedir c k f => plan e i (Opened f (rmode k)) c (0%nat :: place)
  | APipe l r => plan e i (WriteEnd place) l (0%nat :: place) ++ plan e (ReadEnd place) o r (1%nat :: place)
  | AList l r => plan e i o l (0%nat :: place) ++ plan e i o r (1%nat :: place)
  | ABack c => plan e i o c (0%nat :: place)
  end.

(** The programs a process and its children execute. *)
Fixpoint execs (p : process) : list (list (list Z) * fdtable) :=
  match p with
  | PExit _ => []
  | PExec argv t k => (argv, t) :: execs k
  | PFork c p => execs c ++ execs p
  | PWait _ k | PChdir _ k => execs k
  end.
(** The tables of the processes that wait. *)
Fixpoint waits (p : process) : list fdtable :=
  match p with
  | PExit _ => []
  | PExec _ _ k | PChdir _ k => waits k
  | PFork c p => waits c ++ waits p
  | PWait t k => t :: waits k
  end.

(** What is proved of a process: it executes part of the plan, whatever fails, and all
    of it when nothing does; and a process that waits holds nothing but its standard
    descriptors. *)
Definition carries_out (ok : list nat -> bool) (e : stream) (p : process) (want : list (list (list Z) * fdtable)) : Prop :=
  execs p `sublist_of` want /\ ((forall q, ok q = true) -> execs p = want) /\ Forall (fun t => exists i o, t = std i o e) (waits p).
Lemma carries_out_exit ok e code want : (~ (forall q, ok q = true) \/ want = []) -> carries_out ok e (PExit code) want.
Proof. intros H. split_and!; [apply sublist_nil_l| |constructor]. intros Hall. by destruct H as [H| ->]. Qed.
Lemma carries_out_fork ok e place c p w1 w2 : carries_out ok e c w1 -> carries_out ok e p w2 -> carries_out ok e (fork1 ok place c p) (w1 ++ w2).
Proof.
  intros (S1 & E1 & W1) (S2 & E2 & W2). unfold fork1. destruct (ok place) eqn:E; [|apply carries_out_exit; left; intros H; specialize (H place); congruence].
  split_and!; cbn [execs waits]; [by apply sublist_app|intros H; by rewrite E1, E2|by apply Forall_app].
Qed.
Lemma carries_out_wait ok e i o p w : carries_out ok e p w -> carries_out ok e (PWait (std i o e) p) w.
Proof. intros (S1 & E1 & W1). split_and!; cbn [execs waits]; [done|done|]. apply Forall_cons_2; [by exists i, o|done]. Qed.

Lemma runcmd_plan ok B c : forall a i o e place, means B c a -> carries_out ok e (runcmd ok B c (std i o e) place) (plan e i o a place).
Proof.
  induction c as [argv|c IH w m f|l IHl r IHr|l IHl r IHr|c IH]; intros [ws|a k x|a1 a2|a1 a2|a] i o e place Hm; try done; cbn [means] in Hm; cbn [runcmd plan].
  - subst ws. destruct argv as [|w argv]; [by apply carries_out_exit; right|]. split_and!; cbn [execs waits fmap list_fmap plan]; [done|done|constructor].
  - destruct Hm as (Hm & <- & -> & ->). destruct (ok (2%nat :: place)) eqn:E; [|apply carries_out_exit; left; intros H; specialize (H (2%nat :: place)); congruence].
    destruct k; by apply IH.
  - destruct Hm as [H1 H2]. destruct (ok (2%nat :: place)) eqn:E; [|apply carries_out_exit; left; intros H; specialize (H (2%nat :: place)); congruence].
    rewrite <- (app_nil_r (plan _ _ _ a1 _ ++ _)), <- app_assoc. apply carries_out_fork; [by apply IHl|]. apply carries_out_fork; [by apply IHr|].
    apply (carries_out_wait _ _ i o), (carries_out_wait _ _ i o). by apply carries_out_exit; right.
  - destruct Hm as [H1 H2]. apply carries_out_fork; [by apply IHl|]. apply carries_out_wait. by apply IHr.
  - rewrite <- (app_nil_r (plan _ _ _ _ _)). apply carries_out_fork; [by apply IH|]. by apply carries_out_exit; right.
Qed.

(** ** Lines that differ in their white space

    The parser finds the same commands in two lines that have white space at the
    same places. *)
Definition like (B B' : list Z) : Prop := forall s, at_ B s = at_ B' s \/ is_ws (at_ B s) = true /\ is_ws (at_ B' s) = true.

Lemma ws_not x : is_ws x = true -> forall y, is_ws y = false -> x =? y = false.
Proof. intros Hx y Hy. apply Z.eqb_neq. intros ->. congruence. Qed.
Lemma ws_not_in x toks : is_ws x = true -> Forall (fun y => is_ws y = false) toks -> in_str toks x = false.
Proof.
  intros Hx Ht. unfold in_str. induction Ht as [|y toks Hy Ht IH]; cbn [strchr]; [done|]. destruct (y =? 0); [done|]. rewrite Z.eqb_sym, (ws_not x Hx y Hy). by destruct (strchr toks x).
Qed.

Lemma bindM_cong {S A B} (m m' : M S A) (k k' : A -> M S B) s : m s = m' s -> (forall a s, k a s = k' a s) -> bindM m k s = bindM m' k' s.
Proof. intros Hm Hk. unfold bindM. rewrite Hm. destruct (m' s); auto. Qed.

Section Like.
Context (B B' : list Z) (es : nat) (Hlike : like B B').

Lemma skip_like p s : (forall x, is_ws x = true -> forall y, is_ws y = true -> p x = p y) -> skip B es p s = skip B' es p s.
Proof.
  intros Hp. unfold skip. generalize (es - s)%nat as n. intros n. revert s. induction n as [|n IH]; intros s; cbn [skip_loop]; [done|]. rewrite IH.
  destruct (Hlike s) as [->|[H1 H2]]; [done|]. by rewrite (Hp _ H1 _ H2).
Qed.
Lemma skip_ws_like s : skip B es (in_str whitespace) s = skip B' es (in_str whitespace) s.
Proof. apply skip_like. unfold is_ws. congruence. Qed.
Lemma skip_word_like s : skip B es (fun c => negb (in_str whitespace c) && negb (in_str symbols c)) s = skip B' es (fun c => negb (in_str whitespace c) && negb (in_str symbols c)) s.
Proof. apply skip_like. unfold is_ws. intros x Hx y Hy. by rewrite Hx, Hy. Qed.
Lemma gettoken_like s : gettoken B es s = gettoken B' es s.
Proof.
  unfold gettoken. rewrite skip_ws_like. set (q := skip B' es (in_str whitespace) s). rewrite skip_word_like.
  destruct (Hlike q) as [->|[H1 H2]].
  - assert (E : (at_ B (S q) =? GT) = (at_ B' (S q) =? GT)) by (destruct (Hlike (S q)) as [->|[H1 H2]]; [done|]; by rewrite !ws_not).
    rewrite E. destruct (if at_ B' q =? 0 then _ else _) as [ret s']. by rewrite skip_ws_like.
  - rewrite !(ws_not _ H1), !(ws_not _ H2) by done. cbn [orb]. by rewrite skip_ws_like.
Qed.
Lemma peek_like toks s : Forall (fun y => is_ws y = false) toks -> peek B es toks s = peek B' es toks s.
Proof.
  intros Ht. unfold peek. rewrite skip_ws_like. set (q := skip B' es (in_str whitespace) s). destruct (Hlike q) as [->|[H1 H2]]; [done|].
  by rewrite (ws_not_in _ toks H1), (ws_not_in _ toks H2), !andb_false_r.
Qed.

Ltac like_step := first
  [ apply gettoken_like | (apply peek_like; by repeat constructor) | done
  | match goal with |- bindM _ _ _ = bindM _ _ _ => apply bindM_cong; [|intros ? ?] end
  | match goal with |- (let '(_, _) := ?x in _) _ = _ => destruct x end
  | match goal with |- (if ?b then _ else _) _ = _ => destruct b end ].
Lemma parseredirs_like fuel : forall c s, parseredirs B es c fuel s = parseredirs B' es c fuel s.
Proof. induction fuel as [|fuel IH]; intros c s; cbn [parseredirs]; [done|]. repeat (like_step || apply IH). Qed.
Lemma args_loop_like n fuel : forall ret argv s, args_loop B es ret argv n fuel s = args_loop B' es ret argv n fuel s.
Proof. induction fuel as [|fuel IH]; intros ret argv s; cbn [args_loop]; [done|]. repeat (like_step || apply parseredirs_like || apply IH). Qed.
Lemma back_loop_like fuel : forall c s, back_loop B es c fuel s = back_loop B' es c fuel s.
Proof. induction fuel as [|fuel IH]; intros c s; cbn [back_loop]; [done|]. repeat (like_step || apply IH). Qed.
Lemma parsers_like fuel : forall s, parseline B es fuel s = parseline B' es fuel s /\ parsepipe B es fuel s = parsepipe B' es fuel s /\
  parseexec B es fuel s = parseexec B' es fuel s /\ parseblock B es fuel s = parseblock B' es fuel s.
Proof.
  induction fuel as [|fuel IH]; intros s; [done|]. cbn [parseline parsepipe parseexec parseblock].
  split_and!; repeat (like_step || apply IH || apply back_loop_like || apply parseredirs_like || apply args_loop_like).
Qed.
End Like.

Lemma at_insert B e s : at_ (<[e := 0]> B) s = if decide (s = e) then 0 else at_ B s.
Proof.
  unfold at_. case_decide as E; [subst s|by rewrite !nth_lookup, list_lookup_insert_ne]. rewrite nth_lookup.
  destruct (decide (e < length B)%nat); [by rewrite list_lookup_insert_eq|]. rewrite list_insert_ge by lia. by rewrite lookup_ge_None_2 by lia.
Qed.
Lemma like_insert B B' e : like B B' -> like (<[e := 0]> B) (<[e := 0]> B').
Proof. intros H s. rewrite !at_insert. case_decide; [by left|apply H]. Qed.
Lemma nulterminate_like c : forall B B', like B B' -> like (nulterminate c B) (nulterminate c B').
Proof.
  induction c as [argv|c IH w m f|l IHl r IHr|l IHl r IHr|c IH]; intros B B' H; cbn [nulterminate]; auto using like_insert.
  revert B B' H. induction argv as [|w argv IH]; intros B B' H; cbn [fold_left]; auto using like_insert.
Qed.

Lemma string_at_step B i : string_at B i = if at_ B i =? 0 then [] else at_ B i :: string_at B (S i).
Proof.
  unfold string_at, at_. rewrite nth_lookup. destruct (B !! i) as [x|] eqn:E; [by rewrite (drop_S _ _ _ E)|]. rewrite drop_ge by (by apply lookup_ge_None). done.
Qed.
Lemma string_at_like B B' : like B B' -> forall x i, string_at B i = x -> Forall (fun c => is_ws c = false) x -> string_at B' i = x.
Proof.
  intros H. induction x as [|c x IH]; intros i Hx Hn; rewrite string_at_step in Hx |- *.
  - destruct (Z.eqb_spec (at_ B i) 0) as [E|]; [|done]. destruct (H i) as [<-|[H1 _]]; [by rewrite E|]. by rewrite E in H1.
  - apply Forall_cons in Hn as [Hc Hn]. destruct (Z.eqb_spec (at_ B i) 0) as [|E0]; [done|]. injection Hx as Hc' Hx. destruct (H i) as [<-|[H1 _]]; [|congruence].
    rewrite (proj2 (Z.eqb_neq _ _) E0), Hc'. f_equal. by apply IH.
Qed.
Lemma means_like B B' : like B B' -> forall c a, okcmd a -> means B c a -> means B' c a.
Proof.
  intros H. assert (Hs : forall i x, okword x -> string_at B i = x -> string_at B' i = x).
  { intros i x [_ Hx] E. apply (string_at_like B B' H); [done|]. eapply Forall_impl; [exact Hx|]. by intros y (_ & ? & _). }
  induction c as [argv|c IH w m f|l IHl r IHr|l IHl r IHr|c IH]; intros [ws|a k x|a1 a2|a1 a2|a] Hok Hm; try done; cbn [means okcmd] in *; try naive_solver.
  destruct Hok as [Hok _]. subst ws. induction argv as [|w argv IH]; [done|]. cbn [fmap list_fmap] in *. apply Forall_cons in Hok as [Hw Hok]. f_equal; [by apply Hs|by apply IH].
Qed.

Lemma parsecmd_like B B' fuel c X s : like B B' -> linelen B = linelen B' -> parsecmd B fuel = Ok (c, X) s ->
  X = nulterminate c B /\ parsecmd B' fuel = Ok (c, nulterminate c B') s.
Proof.
  intros H Hl. unfold parsecmd. rewrite <- Hl. set (es := linelen B). unfold bindM. rewrite (proj1 (parsers_like B B' es H fuel 0)).
  destruct (parseline B' es fuel 0%nat) as [c1 s1| | |]; [|done|done|done]. rewrite (peek_like B B' es H [] s1) by constructor. destruct (peek B' es [] s1) as [b s2| | |]; [|done|done|done].
  unfold getM, id. case_decide; [|done]. unfold retM. intros [= <- <- <-]. done.
Qed.

(** ** A line as it is typed *)

(** What is typed for a command: its last space is the newline. *)
Definition typed (c : acmd) : list Z := removelast (show 0 c) ++ [10].
Lemma show_ends c : forall lvl, show lvl c = [] \/ exists x, show lvl c = x ++ [SP].
Proof.
  induction c as [ws|c IH k w|l IHl r IHr|l IHl r IHr|c IH]; intros lvl; cbn [show].
  - destruct ws as [|w ws _] using rev_ind; [by left|]. right. exists (show_words ws ++ w). unfold show_words. rewrite flat_map_app. cbn. by rewrite app_nil_r, app_assoc.
  - right. exists (show 3 c ++ rsym k ++ SP :: w). unfold show_redir. by rewrite <- !app_assoc, <- app_comm_cons.
  - unfold paren. case_decide; [|right; exists (sym LPAR ++ (show 3 l ++ sym BAR ++ show 2 r) ++ [RPAR]); by rewrite <- !app_assoc].
    right. destruct (IHr 2%nat) as [->|[x ->]]; [exists (show 3 l ++ [BAR]); by rewrite app_nil_r, <- app_assoc|exists (show 3 l ++ sym BAR ++ x); by rewrite <- !app_assoc].
  - unfold paren. case_decide; [|right; exists (sym LPAR ++ (show 1 l ++ sym SEMI ++ show 0 r) ++ [RPAR]); by rewrite <- !app_assoc].
    right. destruct (IHr 0%nat) as [->|[x ->]]; [exists (show 1 l ++ [SEMI]); by rewrite app_nil_r, <- app_assoc|exists (show 1 l ++ sym SEMI ++ x); by rewrite <- !app_assoc].
  - unfold paren. case_decide; right; [exists (show 1 c ++ [AMP])|exists (sym LPAR ++ (show 1 c ++ sym AMP) ++ [RPAR])]; by rewrite <- !app_assoc.
Qed.
Lemma typed_spec c : show 0 c <> [] -> exists x, show 0 c = x ++ [SP] /\ typed c = x ++ [10].
Proof. intros Hne. destruct (show_ends c 0) as [?|[x E]]; [done|]. exists x. split; [done|]. unfold typed. by rewrite E, removelast_last. Qed.
Lemma like_tail x n : (1 <= n)%nat -> like (x ++ [SP] ++ [0]) (x ++ [10] ++ replicate n 0).
Proof.
  intros Hn s. unfold at_. destruct (decide (s < length x)%nat); [left; by rewrite !app_nth1|]. rewrite (app_nth2 x ([SP] ++ _)), (app_nth2 x ([10] ++ _)) by lia. destruct (s - length x)%nat as [|k]; [right; split; reflexivity|]. left.
  cbn [app nth]. assert (E : nth k (replicate n 0) 0 = 0) by (rewrite nth_lookup; destruct (replicate n 0 !! k) eqn:E; [by apply lookup_replicate in E as [-> _]|done]). rewrite E. by destruct k as [|[|k]].
Qed.

(** The parser reads what is typed for a command as that command. *)
Lemma parse_typed c n : okcmd c -> show 0 c <> [] -> (1 <= n)%nat ->
  let B := typed c ++ replicate n 0 in exists tree B' s, parsecmd B (4 * linelen B + 4) = Ok (tree, B') s /\ means B' tree c.
Proof.
  intros Hok Hne Hn B. destruct (typed_spec c Hne) as (x & Ex & Et). pose proof (show_nonzero c Hok 0) as Hnz.
  assert (Hl : linelen (show 0 c ++ [0]) = linelen B).
  { unfold B. rewrite linelen_app by done. destruct n as [|n]; [lia|]. cbn [replicate]. rewrite linelen_app; [by rewrite Et, Ex, !length_app|]. rewrite Et. rewrite Ex in Hnz. apply Forall_app in Hnz as [? _]. apply Forall_app. split; [done|by repeat constructor]. }
  assert (Hlike : like (show 0 c ++ [0]) B) by (unfold B; rewrite Et, Ex, <- !app_assoc; by apply like_tail).
  destruct (parse_written c (4 * linelen B + 4) Hok) as (tree & X & s & E & Hm); [rewrite <- Hl, linelen_app by done; lia|].
  destruct (parsecmd_like _ _ _ _ _ _ Hlike Hl E) as [-> E']. eexists tree, _, s. split; [exact E'|]. eapply means_like; [by apply nulterminate_like|done|done].
Qed.

(** ** Reading lines *)

Lemma gets_loop_line x : forall m buf max i rest, Forall (fun c => c <> 10 /\ c <> 13) x -> i + Z.of_nat (length x) + 1 < max ->
  Ulib.gets_loop m buf max i (x ++ 10 :: rest) = (mwrite m (buf + i) (x ++ [10]), rest, i + Z.of_nat (length x) + 1).
Proof.
  induction x as [|c x IH]; intros m buf max i rest Hx Hm; cbn [app length mwrite Ulib.gets_loop] in *; rewrite (proj2 (Z.ltb_lt (i + 1) max)) by lia.
  - cbn. do 2 f_equal. lia.
  - apply Forall_cons in Hx as [[H10 H13] Hx]. rewrite (proj2 (Z.eqb_neq _ _) H10), (proj2 (Z.eqb_neq _ _) H13). cbn [orb]. rewrite IH by (done || lia).
    replace (buf + (i + 1)) with (buf + i + 1) by lia. f_equal. lia.
Qed.
(** A line of at most 99 characters is in the buffer, with zeros after it. *)
Lemma getcmd_line m buf x rest : Forall (fun c => c <> 10 /\ c <> 13) x -> (length x + 1 <= 99)%nat -> hd 10 x <> 0 -> exists m',
  getcmd m buf BUF (x ++ 10 :: rest) = (0, m', rest) /\ line m' buf = (x ++ [10]) ++ replicate (99 - length x) 0.
Proof.
  intros Hx Hl Hh. unfold getcmd, Ulib.gets. rewrite (gets_loop_line x) by (done || unfold BUF; lia). rewrite Z.add_0_r. set (m0 := Ulib.memset m buf 0 BUF). set (m' := mset _ _ 0).
  assert (Hline : line m' buf = (x ++ [10]) ++ replicate (99 - length x) 0).
  { unfold line, BUF. apply list_eq. intros k. destruct (decide (k < 100)%nat) as [Hk|Hk].
    2: { rewrite !lookup_ge_None_2; [done| |]; rewrite ?length_mread, ?length_app, ?length_replicate; cbn [length]; lia. }
    rewrite lookup_mread by lia. unfold m'. rewrite mget_mset. destruct (decide (k < length x + 1)%nat) as [Hlt|Hge].
    - rewrite decide_False by lia. rewrite mget_mwrite, decide_True by (rewrite length_app; cbn [length]; lia). replace (Z.to_nat (buf + Z.of_nat k - buf)) with k by lia.
      rewrite lookup_app_l by (rewrite length_app; cbn [length]; lia). destruct (nth_lookup_or_length (x ++ [10]) k 0) as [E|E]; [by rewrite E|rewrite length_app in E; cbn [length] in E; lia].
    - rewrite lookup_app_r, lookup_replicate_2 by (rewrite ?length_app in *; cbn [length] in *; lia). case_decide; [done|].
      rewrite mget_mwrite_out by (rewrite length_app; cbn [length]; lia). unfold m0. rewrite umemset_spec, decide_True by (unfold BUF; lia). done. }
  clearbody m'. exists m'. split; [|done]. assert (E0 : mget m' buf = hd 10 x).
  { assert (E : line m' buf !! 0%nat = Some (mget m' buf)) by (unfold line, BUF; rewrite lookup_mread by lia; by rewrite Z.add_0_r). rewrite Hline in E. destruct x; injection E as <-; reflexivity. }
  rewrite E0. by rewrite (proj2 (Z.eqb_neq _ _) Hh).
Qed.

Lemma gets_loop_shrinks input : forall m buf max i m' input' i', Ulib.gets_loop m buf max i input = (m', input', i') -> (length input' <= length input)%nat /\ (i < i' -> (length input' < length input)%nat) /\ i <= i'.
Proof.
  induction input as [|c input IH]; intros m buf max i m' input' i' E; cbn [Ulib.gets_loop] in E; destruct (i + 1 <? max); try (injection E as <- <- <-; split_and!; lia).
  destruct ((c =? 10) || (c =? 13)); [injection E as <- <- <-; cbn [length]; split_and!; lia|]. apply IH in E as (H1 & H2 & H3). cbn [length]. split_and!; lia.
Qed.
(** A command takes at least a character of the input. *)
Lemma getcmd_shrinks m buf input r m' input' : getcmd m buf BUF input = (r, m', input') -> (length input' <= length input)%nat /\ (0 <= r -> (length input' < length input)%nat).
Proof.
  unfold getcmd, Ulib.gets. destruct (Ulib.gets_loop _ buf BUF 0 input) as [[m1 in1] i] eqn:E. apply gets_loop_shrinks in E as (H1 & H2 & H3). intros [= <- <- <-]. split; [done|].
  intros Hr. destruct (Z.eqb_spec (mget (mset m1 (buf + i) 0) buf) 0) as [|Hne]; [lia|]. apply H2. destruct (decide (i = 0)) as [->|]; [|lia]. rewrite Z.add_0_r, mget_mset_eq in Hne. done.
Qed.

(** The shell comes to the end of its input. *)
Lemma command_total ok B t place : exists p, command ok B t place = Some p.
Proof. unfold command. destruct (parse_total B (4 * linelen B + 4)) as [([c X] & s & ->)|[msg ->]]; eauto. Qed.
Lemma main_loop_total ok buf t fuel : forall m input place, (length input < fuel)%nat -> exists p, main_loop ok m buf t input place fuel = Some p.
Proof.
  induction fuel as [|fuel IH]; intros m input place Hf; [lia|]. cbn [main_loop]. destruct (getcmd m buf BUF input) as [[r m1] in1] eqn:E. apply getcmd_shrinks in E as [_ Hs].
  destruct (Z.ltb_spec r 0); [by eexists|]. specialize (Hs ltac:(done)). case_match.
  - match goal with |- exists p, _ <$> main_loop _ ?m _ _ _ _ _ = _ => destruct (IH m in1 (1%nat :: place)) as [p ->]; [lia|by eexists] end.
  - destruct (command_total ok (line m1 buf) t (0%nat :: place)) as [c ->]. destruct (IH m1 in1 (1%nat :: place)) as [p E]; [lia|]. cbn. rewrite E. by eexists.
Qed.

(** ** A session *)

(** The descriptor after [open_console]. *)
Definition filled (x : option stream) : stream := default (Opened console O_RDWR) x.
Lemma open_console_ok ok a b c place : (is_Some a /\ is_Some b /\ is_Some c) \/ (forall p, ok p = true) ->
  open_console ok (a :: b :: c :: replicate 13 None) place 4 = Some (std (filled a) (filled b) (filled c)).
Proof.
  intros [((x & ->) & (y & ->) & (z & ->))|Hok]; cbn [open_console]; [by destruct (ok (2%nat :: place))|].
  rewrite !Hok. destruct a as [x|], b as [y|], c as [z|]; reflexivity.
Qed.

(** What can be typed at the prompt: a command that fits in the buffer and is not cd. *)
Definition fits (c : acmd) : Prop := okcmd c /\ show 0 c <> [] /\ (length (show 0 c) <= 99)%nat /\ take 3 (typed c) <> [99; 100; 32].
Fixpoint session_plan (e i o : stream) (cs : list acmd) (place : list nat) : list (list (list Z) * fdtable) :=
  match cs with
  | [] => []
  | c :: cs => plan e i o c (0%nat :: place) ++ session_plan e i o cs (1%nat :: place)
  end.

Lemma not_cd m buf x n : line m buf = x ++ replicate n 0 -> take 3 x <> [99; 100; 32] -> (mget m buf =? 99) && (mget m (buf + 1) =? 100) && (mget m (buf + 2) =? 32) = false.
Proof.
  intros Hl Hx. apply not_true_iff_false. rewrite !andb_true_iff, !Z.eqb_eq. intros [[H0 H1] H2].
  assert (Hc : forall k : nat, (k < 3)%nat -> (x ++ replicate n 0) !! k = Some (mget m (buf + Z.of_nat k))) by (intros k Hk; rewrite <- Hl; unfold line, BUF; by rewrite lookup_mread by lia).
  assert (Hr : forall k y, replicate n 0 !! k = Some y -> y = 0) by (intros k y E; by apply lookup_replicate in E as [-> _]).
  pose proof (Hc 0%nat ltac:(lia)) as E0. pose proof (Hc 1%nat ltac:(lia)) as E1. pose proof (Hc 2%nat ltac:(lia)) as E2. cbn [Z.of_nat] in *. rewrite Z.add_0_r, H0 in E0.
  change (Z.of_nat 1) with 1 in E1. change (Z.of_nat 2) with 2 in E2. rewrite H1 in E1. rewrite H2 in E2.
  destruct x as [|u [|v [|w x]]]; cbn [app lookup list_lookup] in E0, E1, E2.
  - by apply Hr in E0.
  - by apply Hr in E1.
  - by apply Hr in E2.
  - apply Hx. injection E0 as ->. injection E1 as ->. injection E2 as ->. reflexivity.
Qed.

Lemma typed_line c : fits c -> exists x, typed c = x ++ [10] /\ Forall (fun c => c <> 10 /\ c <> 13) x /\ (length x + 1 <= 99)%nat /\ hd 10 x <> 0.
Proof.
  intros (Hok & Hne & Hl & _). destruct (typed_spec c Hne) as (x & Ex & Et). exists x. split; [done|].
  assert (Hc : Forall (fun c => c <> 10 /\ c <> 13 /\ c <> 0) (show 0 c)).
  { apply show_chars; [|done|by repeat constructor|done]. intros y (H0 & Hw & _). split_and!; [| |done]; intros ->; done. }
  rewrite Ex in Hc, Hl. apply Forall_app in Hc as [Hc _]. rewrite length_app in Hl. cbn [length] in Hl. split_and!; [eapply Forall_impl; [exact Hc|naive_solver]|lia|].
  destruct Hc as [|y x Hy _]; [done|naive_solver].
Qed.

Lemma main_loop_session ok buf i o e cs : Forall fits cs -> forall m place fuel, (length (concat (typed <$> cs)) < fuel)%nat -> exists p,
  main_loop ok m buf (std i o e) (concat (typed <$> cs)) place fuel = Some p /\ carries_out ok e p (session_plan e i o cs place).
Proof.
  induction 1 as [|c cs Hc _ IH]; intros m place [|fuel] Hf; try lia.
  - exists (PExit 0). split; [|by apply carries_out_exit; right]. cbn [main_loop fmap list_fmap concat]. unfold getcmd, Ulib.gets. cbn [Ulib.gets_loop].
    change (0 + 1 <? BUF) with true. cbn iota beta. rewrite Z.add_0_r, mget_mset_eq. done.
  - destruct (typed_line c Hc) as (x & Et & Hx & Hlx & Hh). cbn [fmap list_fmap concat] in *. rewrite Et, <- app_assoc in *. cbn [app] in *. cbn [main_loop].
    destruct (getcmd_line m buf x (concat (typed <$> cs)) Hx Hlx Hh) as (m' & Eg & El). rewrite Eg. cbn [Z.ltb Z.compare].
    destruct Hc as (Hok & Hne & _ & Hcd). rewrite Et in Hcd. rewrite (not_cd m' buf (x ++ [10]) _ El Hcd).
    destruct (parse_typed c (99 - length x) Hok Hne ltac:(lia)) as (tree & B' & s & Ep & Hm). rewrite Et, <- El in Ep. unfold command. rewrite Ep. cbn [mbind option_bind].
    destruct (IH m' (1%nat :: place) fuel) as (p & -> & Hp); [rewrite length_app in Hf; cbn [length] in Hf; lia|]. eexists. split; [reflexivity|]. cbn [session_plan].
    apply carries_out_fork; [by apply runcmd_plan|]. by apply carries_out_wait.
Qed.


(** [a | b > f], typed to a shell that has to open its own console. *)
Definition a_pipeline : acmd := APipe (AExec [[97]]) (ARedir (AExec [[98]]) ROut [102]).
