(* ===== verification/Mkfs.v ===== *)
(** * The program that makes the initial file system (mkfs/mkfs.c)

    The image is a file of the build host, as a map from sectors to their 1024
    bytes; [nsect] is its length in sectors, and a sector below it that was never
    written reads as zeros.  [die] and a failed [assert] end the program: they are
    a [Panic].  The host is little-endian.  A file to be put into the image is its
    name on the command line with what the host says: whether it can be opened,
    and the pieces [read] returns one after the other. *)

From stdpp Require Import base list gmap strings.
From Stdlib Require Import ZArith Lia.
From S2P Require Import Prelude Layout FsFormat Bio Fs.
Open Scope Z_scope.

Module Mkfs.
Definition NINODES : Z := 200.
Definition nbitmap : Z := FSSIZE / (BSIZE * 8) + 1.
Definition ninodeblocks : Z := NINODES / IPB + 1.
Definition nlog : Z := LOGSIZE.
Definition nmeta : Z := 2 + nlog + ninodeblocks + nbitmap.
Definition nblocks : Z := FSSIZE - nmeta.

(** The fields of the image are little-endian. *)
Definition xshort (x : Z) : Z := le_val [u8 x; u8 (Z.shiftr x 8)].
Definition xint (x : Z) : Z := le_val [u8 x; u8 (Z.shiftr x 8); u8 (Z.shiftr x 16); u8 (Z.shiftr x 24)].

Definition sb : superblock :=
  mk_superblock FSMAGIC (xint FSSIZE) (xint nblocks) (xint NINODES) (xint nlog) (xint 2) (xint (2 + nlog)) (xint (2 + nlog + ninodeblocks)).

Record state := mk_state { sectors : gmap Z (list Z); nsect : Z; freeinode : Z; freeblock : Z }.
Definition init : state := mk_state ∅ 0 1 0.
Definition sector (st : state) (b : Z) : list Z := default zero_block (sectors st !! b).

(** The offset [sec * BSIZE] is a 32-bit number; in sectors: *)
Definition pos (sec : Z) : Z := u32 (sec * BSIZE) / BSIZE.
Definition wsect (sec : Z) (buf : list Z) : M state unit :=
  modifyM (fun st => mk_state (<[pos sec := buf]> (sectors st)) (Z.max (nsect st) (pos sec + 1)) (freeinode st) (freeblock st)).
Definition rsect (sec : Z) : M state (list Z) := fun st =>
  if pos sec <? nsect st then Ok (sector st (pos sec)) st else Panic "read".

Definition winode (inum : Z) (ip : dinode) : M state unit :=
  let bn := IBLOCK inum sb in
  let! buf := rsect bn in
  wsect bn (put_dinode (ioff inum) ip buf).
Definition rinode (inum : Z) : M state dinode :=
  let bn := IBLOCK inum sb in
  let! buf := rsect bn in
  retM (dinode_at (ioff inum) buf).

Definition ialloc (type : Z) : M state Z :=
  let! inum := getM freeinode in
  do! modifyM (fun st => mk_state (sectors st) (nsect st) (u32 (inum + 1)) (freeblock st)) in
  do! winode inum (mk_dinode (s16 (xshort type)) 0 0 (s16 (xshort 1)) (xint 0) (replicate 13 0)) in
  retM inum.

(** The bits of the first [used] blocks. *)
Definition bitmap (used : nat) : list Z := foldl (fun buf i => set_bit (Z.of_nat i) buf) zero_block (seq 0 used).
Definition balloc (used : Z) : M state unit :=
  if used <? BSIZE * 8 then wsect (sb_bmapstart sb) (bitmap (Z.to_nat used)) else panicM "used < BSIZE*8".

(** [freeblock++] *)
Definition take_block : M state Z :=
  let! b := getM freeblock in
  do! modifyM (fun st => mk_state (sectors st) (nsect st) (freeinode st) (u32 (b + 1))) in
  retM b.
Definition set_addr (k b : Z) (din : dinode) : dinode :=
  mk_dinode (di_type din) (di_major din) (di_minor din) (di_nlink din) (di_size din) (<[Z.to_nat k := b]> (di_addrs din)).
Definition set_size (n : Z) (din : dinode) : dinode :=
  mk_dinode (di_type din) (di_major din) (di_minor din) (di_nlink din) n (di_addrs din).
Definition addr (k : Z) (din : dinode) : Z := xint (nth (Z.to_nat k) (di_addrs din) 0).
(** [if(xint(din.addrs[k]) == 0) din.addrs[k] = xint(freeblock++);] *)
Definition need_addr (k : Z) (din : dinode) : M state dinode :=
  if addr k din =? 0 then let! b := take_block in retM (set_addr k (xint b) din) else retM din.

(** The sector in entry [fbn - NDIRECT] of the indirect block [ia]. *)
Definition need_entry (ia fbn : Z) : M state Z :=
  let k := 4 * (fbn - NDIRECT) in
  let! indirect := rsect ia in
  let! indirect :=
    (if get32 k indirect =? 0 then
       let! b := take_block in
       let indirect := put32 k (xint b) indirect in
       do! wsect ia indirect in
       retM indirect
     else retM indirect) in
  retM (xint (get32 k indirect)).

(** The sector of block [fbn] of the file. *)
Definition iappend_block (din : dinode) (fbn : Z) : M state (dinode * Z) :=
  if fbn <? NDIRECT then
    let! din := need_addr fbn din in
    retM (din, addr fbn din)
  else
    let! din := need_addr NDIRECT din in
    let! x := need_entry (addr NDIRECT din) fbn in
    retM (din, x).

(** The loop of [iappend]; the bytes still to be written are [p]. *)
Fixpoint iappend_loop (din : dinode) (off : Z) (p : list Z) (fuel : nat) : M state (dinode * Z) :=
  if decide (0 < length p)%nat then
    match fuel with
    | O => fun _ => NoFuel
    | S fuel =>
        let fbn := off / BSIZE in
        if negb (fbn <? MAXFILE) then panicM "fbn < MAXFILE"
        else
          let! '(din, x) := iappend_block din fbn in
          let n1 := Z.min (Z.of_nat (length p)) (u32 ((fbn + 1) * BSIZE - off)) in
          let! buf := rsect x in
          do! wsect x (splice (Z.to_nat (off - fbn * BSIZE)) (take (Z.to_nat n1) p) buf) in
          iappend_loop din (u32 (off + n1)) (drop (Z.to_nat n1) p) fuel
    end
  else retM (din, off).

Definition iappend (inum : Z) (p : list Z) : M state unit :=
  let! din := rinode inum in
  let! '(din, off) := iappend_loop din (xint (di_size din)) p (length p) in
  winode inum (set_size (xint off) din).

(** ** main *)

(** A file of the command line: [argv[i]], and the results of [read], or none
    when it cannot be opened. *)
Record hostfile := mk_hostfile { arg : list Z; reads : option (list (list Z)) }.

Definition USER : list Z := [117; 115; 101; 114; 47].
Definition UNDERSCORE : Z := 95.
Definition DOT : Z := 46.
Definition strip_user (arg : list Z) : list Z := if strncmp_bytes arg USER 5 =? 0 then drop 5 arg else arg.
Definition strip_underscore (name : list Z) : list Z := if hd 0 name =? UNDERSCORE then tl name else name.
(** [strcpy] into the zeroed name of an entry. *)
Definition strcpy_name (s : list Z) : list Z := splice 0 (s ++ [0]) (replicate (Z.to_nat DIRSIZ) 0).

Definition add_entry (dir inum : Z) (name : list Z) : M state unit :=
  iappend dir (bytes_of_dirent (mk_dirent (xshort inum) name)).

Definition add_file (rootino : Z) (f : hostfile) : M state unit :=
  let shortname := strip_user (arg f) in
  if existsb (Z.eqb SLASH) shortname then panicM "index(shortname, '/') == 0"
  else
    match reads f with
    | None => panicM "argv[i]"
    | Some chunks =>
        let shortname := strip_underscore shortname in
        let! inum := ialloc T_FILE in
        do! add_entry rootino inum (strncpy_bytes shortname (Z.to_nat DIRSIZ)) in
        for_each chunks (iappend inum)
    end.

(** [memmove(buf, &sb, sizeof(sb))] *)
Definition sb_bytes (sb : superblock) : list Z :=
  le_bytes 4 (sb_magic sb) ++ le_bytes 4 (sb_size sb) ++ le_bytes 4 (sb_nblocks sb) ++ le_bytes 4 (sb_ninodes sb) ++
  le_bytes 4 (sb_nlog sb) ++ le_bytes 4 (sb_logstart sb) ++ le_bytes 4 (sb_inodestart sb) ++ le_bytes 4 (sb_bmapstart sb).

(** The size of the root directory, rounded up. *)
Definition fix_root (rootino : Z) : M state unit :=
  let! din := rinode rootino in
  let off := xint (di_size din) in
  let off := u32 ((off / BSIZE + 1) * BSIZE) in
  winode rootino (set_size (xint off) din).

(** [image]: what opening the image gives, or none without an argument. *)
Definition main (image : option Z) (files : list hostfile) : M state unit :=
  match image with
  | None => panicM "Usage: mkfs fs.img files..."
  | Some fsfd =>
      if fsfd <? 0 then panicM "argv[1]"
      else
        do! modifyM (fun st => mk_state (sectors st) (nsect st) (freeinode st) nmeta) in
        do! for_each (seqZ 0 FSSIZE) (fun i => wsect i zero_block) in
        do! wsect 1 (splice 0 (sb_bytes sb) zero_block) in
        let! rootino := ialloc T_DIR in
        if negb (rootino =? ROOTINO) then panicM "rootino == ROOTINO"
        else
          do! add_entry rootino rootino (strcpy_name [DOT]) in
          do! add_entry rootino rootino (strcpy_name [DOT; DOT]) in
          do! for_each files (add_file rootino) in
          do! fix_root rootino in
          let! used := getM freeblock in
          balloc used
  end.
End Mkfs.
