(* ===== verification/MkfsSpec.v ===== *)
(** * mkfs: the image it builds

    The bitmap is written last, but the blocks in use are always those below
    [freeblock]: [W st] is the image as it will be with that bitmap.  Seen
    through it, taking a block is the kernel's [alloc], so that what is known of
    the kernel's files holds of the files mkfs writes. *)

From stdpp Require Import base list gmap strings.
From Stdlib Require Import ZArith Lia FunctionalExtensionality.
From S2P Require Import Prelude Layout FsFormat Bio Tx Store Fs FsAlloc FsFile FsIO FsInode FsWrite Mkfs.
Open Scope Z_scope.

Local Abbreviation sb := Mkfs.sb.
Local Abbreviation state := Mkfs.state.
Local Abbreviation freeblock := Mkfs.freeblock.
Local Abbreviation freeinode := Mkfs.freeinode.

Lemma xint_eq x : Mkfs.xint x = u32 x.
Proof. unfold Mkfs.xint. cbn [le_val]. rewrite !Z.shiftr_div_pow2 by lia. unfold u8, u32. Z.div_mod_to_equations. lia. Qed.
Lemma xshort_eq x : Mkfs.xshort x = u16 x.
Proof. unfold Mkfs.xshort. cbn [le_val]. rewrite !Z.shiftr_div_pow2 by lia. unfold u8, u16. Z.div_mod_to_equations. lia. Qed.
Lemma mkfs_sb_eq : sb = mk_superblock FSMAGIC 1000 954 200 30 2 32 45.
Proof. reflexivity. Qed.
Lemma mkfs_layout : sb_layout sb.
Proof. rewrite mkfs_sb_eq. split; vm_compute; repeat split; congruence. Qed.
Lemma pos_small b : 0 <= b < 1000 -> Mkfs.pos b = b.
Proof. intros Hb. unfold Mkfs.pos, BSIZE. rewrite u32_small by lia. apply Z.div_mul. lia. Qed.

(** ** The bitmap *)

Lemma bitmap_S n : Mkfs.bitmap (S n) = set_bit (Z.of_nat n) (Mkfs.bitmap n).
Proof. unfold Mkfs.bitmap. by rewrite seq_S, foldl_app. Qed.
Lemma zero_block_is_block : is_block zero_block.
Proof. split; [apply length_replicate|]. apply Forall_replicate. unfold is_byte. lia. Qed.
Lemma bitmap_block n : is_block (Mkfs.bitmap n).
Proof. induction n as [|n IH]; [apply zero_block_is_block|]. rewrite bitmap_S. by apply set_bit_block. Qed.
Lemma busy_zero_block i : busy i zero_block = false.
Proof. unfold busy. by rewrite nth_zero_block, Z.testbit_0_l. Qed.
Lemma busy_bitmap n i : Z.of_nat n <= BPB -> 0 <= i -> busy i (Mkfs.bitmap n) = (i <? Z.of_nat n).
Proof.
  intros Hn Hi. induction n as [|n IH]; [rewrite busy_zero_block; symmetry; apply Z.ltb_ge; lia|].
  rewrite bitmap_S, busy_set, IH by (try apply bitmap_block; lia). rewrite Nat2Z.inj_succ.
  destruct (decide (i = Z.of_nat n)); [rewrite bool_decide_true by done|rewrite bool_decide_false by done]; cbn [orb]; destruct (Z.ltb_spec i (Z.of_nat n)), (Z.ltb_spec i (Z.succ (Z.of_nat n))); (done || lia).
Qed.

(** ** The image *)

Definition W (st : state) : Z -> list Z := put (Mkfs.sector st) 45 (Mkfs.bitmap (Z.to_nat (freeblock st))).
Record img (st : state) : Prop := {
  ig_nsect : Mkfs.nsect st = FSSIZE;
  ig_free : Mkfs.nmeta <= freeblock st <= FSSIZE;
  ig_block : forall b, is_block (Mkfs.sector st b);
  ig_zero : forall b, freeblock st <= b -> Mkfs.sector st b = zero_block;
}.
Lemma img_range st : img st -> 46 <= freeblock st <= 1000.
Proof. intros [_ H _ _]. exact H. Qed.
Lemma W_block st b : img st -> is_block (W st b).
Proof. intros Hi. unfold W, put. case_decide; [apply bitmap_block|apply Hi]. Qed.
Lemma is_data_sb b : is_data sb b <-> 46 <= b < 1000.
Proof. done. Qed.
Lemma is_bmap_sb b : is_bmap sb b <-> 45 <= b < 46.
Proof. done. Qed.

Lemma used_W st x : img st -> 0 <= x < 1000 -> used (W st) sb x = (x <? freeblock st).
Proof.
  intros Hi Hx. pose proof (img_range _ Hi). unfold used. rewrite (bblock_eq _ mkfs_layout) by exact Hx. change BPB with 8192. change (sb_bmapstart sb) with 45.
  rewrite Z.div_small, Z.mod_small by lia. change (0 + 45) with 45. unfold W. rewrite put_eq, busy_bitmap by (change BPB with 8192; lia). by rewrite Z2Nat.id by lia.
Qed.

Lemma rsect_ok st b : img st -> 0 <= b < 1000 -> Mkfs.rsect b st = Ok (Mkfs.sector st b) st.
Proof. intros Hi Hb. unfold Mkfs.rsect. rewrite pos_small by done. rewrite (ig_nsect _ Hi). change FSSIZE with 1000. by rewrite (proj2 (Z.ltb_lt _ _)) by lia. Qed.

Definition wrote (b : Z) (v : list Z) (st : state) : state := Mkfs.mk_state (<[b := v]> (Mkfs.sectors st)) FSSIZE (freeinode st) (freeblock st).
Lemma sector_wrote b v st : Mkfs.sector (wrote b v st) = put (Mkfs.sector st) b v.
Proof.
  apply functional_extensionality. intros x. unfold Mkfs.sector, wrote, put. cbn. case_decide; [subst; by rewrite lookup_insert_eq|by rewrite lookup_insert_ne].
Qed.
Lemma put_comm f b c v w : b <> c -> put (put f b v) c w = put (put f c w) b v.
Proof. intros Hne. apply functional_extensionality. intros x. unfold put. repeat case_decide; congruence. Qed.

(** Writing a sector in use, other than the bitmap's. *)
Lemma wsect_ok st b v : img st -> 0 <= b < freeblock st -> b <> 45 -> is_block v ->
  Mkfs.wsect b v st = Ok tt (wrote b v st) /\ img (wrote b v st) /\ W (wrote b v st) = put (W st) b v.
Proof.
  intros Hi Hb Hne Hv. pose proof (img_range _ Hi) as Hr. split_and!.
  - unfold Mkfs.wsect, modifyM, wrote. rewrite pos_small by lia. rewrite (ig_nsect _ Hi). change FSSIZE with 1000. by rewrite Z.max_l by lia.
  - split; [done|apply Hi|..]; intros x; rewrite sector_wrote; unfold put; case_decide; try done; [apply Hi|cbn; lia|apply Hi].
  - unfold W. rewrite sector_wrote. by apply put_comm.
Qed.

(** [freeblock++] *)
Definition took (st : state) : state := Mkfs.mk_state (Mkfs.sectors st) (Mkfs.nsect st) (freeinode st) (freeblock st + 1).
Lemma take_ok st : img st -> freeblock st < 1000 ->
  Mkfs.take_block st = Ok (freeblock st) (took st) /\ img (took st) /\ W (took st) = alloc (W st) sb (freeblock st).
Proof.
  intros Hi Hlt. pose proof (img_range _ Hi) as Hr. split_and!.
  - unfold Mkfs.take_block. mrun. unfold retM, took. by rewrite u32_small by lia.
  - destruct Hi as [? ? ? Hz]. split; [done|cbn; unfold Mkfs.nmeta in *; change FSSIZE with 1000 in *; lia|done|]. intros b Hb. cbn in Hb. apply Hz. lia.
  - apply functional_extensionality. intros x. unfold alloc, mark. rewrite (bblock_eq _ mkfs_layout) by (change (sb_size sb) with 1000; lia).
    change BPB with 8192. change (sb_bmapstart sb) with 45. rewrite Z.div_small, Z.mod_small by lia. change (0 + 45) with 45. rewrite (put_eq _ 45 _ : W st 45 = _).
    unfold W. cbn [took Mkfs.freeblock Mkfs.sector Mkfs.sectors]. change (Mkfs.sector (took st)) with (Mkfs.sector st). unfold put. destruct (decide (x = 45)) as [->|Hx].
    + rewrite decide_False by lia. replace (Z.to_nat (freeblock st + 1)) with (S (Z.to_nat (freeblock st))) by lia. rewrite bitmap_S. by rewrite Z2Nat.id by lia.
    + case_decide as E; [|done]. subst x. apply Hi. lia.
Qed.

(** ** The blocks of a file *)

(** Blocks a file of [n] bytes takes, its indirect block included. *)
Definition nb (n : Z) : Z := (n + 1023) / 1024 + (if 12288 <? n then 1 else 0).

(** The file with these addresses is exactly [data]. *)
Record stored (V : Z -> list Z) (addrs data : list Z) : Prop := {
  so_ok : file_ok V sb addrs;
  so_len : Z.of_nat (length data) <= MAXFILE * BSIZE;
  so_bytes : forall o, 0 <= o < MAXFILE * BSIZE -> fbyte V addrs o = nth (Z.to_nat o) data 0;
  so_full : forall m, in_file m -> fblock V addrs m <> 0 <-> m * BSIZE < Z.of_nat (length data);
  so_ind : indirect addrs <> 0 <-> NDIRECT * BSIZE < Z.of_nat (length data);
}.

Lemma addrs_small V addrs k : file_ok V sb addrs -> 0 <= k <= 12 -> 0 <= nth (Z.to_nat k) addrs 0 < 1000.
Proof.
  intros Hok Hk. destruct (decide (nth (Z.to_nat k) addrs 0 = 0)) as [->|Hz]; [lia|].
  assert (Ho : owns V addrs (nth (Z.to_nat k) addrs 0)).
  { split; [done|]. destruct (decide (k = 12)) as [->|]; [by left|right]. exists k. split; [split; [lia|change MAXFILE with 268; lia]|]. apply fblock_direct. unfold NDIRECT. lia. }
  apply (fk_own _ _ _ Hok) in Ho as [Ho _]. rewrite is_data_sb in Ho. lia.
Qed.

Lemma free_data st : img st -> freeblock st < 1000 -> is_data sb (freeblock st) /\ used (W st) sb (freeblock st) = false.
Proof. intros Hi Hlt. pose proof (img_range _ Hi). split; [rewrite is_data_sb; lia|]. rewrite used_W by (done || lia). apply Z.ltb_irrefl. Qed.

Definition set_addrs (addrs : list Z) (din : dinode) : dinode :=
  mk_dinode (di_type din) (di_major din) (di_minor din) (di_nlink din) (di_size din) addrs.
Lemma addr_eq V din k : file_ok V sb (di_addrs din) -> 0 <= k <= 12 -> Mkfs.addr k din = nth (Z.to_nat k) (di_addrs din) 0.
Proof. intros Hok Hk. unfold Mkfs.addr. rewrite xint_eq. pose proof (addrs_small _ _ k Hok Hk). apply u32_small. lia. Qed.

Lemma need_ok V st din k : img st -> file_ok V sb (di_addrs din) -> 0 <= k <= 12 -> (nth (Z.to_nat k) (di_addrs din) 0 = 0 -> freeblock st < 1000) ->
  Mkfs.need_addr k din st = if decide (nth (Z.to_nat k) (di_addrs din) 0 = 0) then Ok (set_addrs (<[Z.to_nat k := freeblock st]> (di_addrs din)) din) (took st) else Ok din st.
Proof.
  intros Hi Hok Hk Hroom. unfold Mkfs.need_addr. rewrite (addr_eq V) by done. case_decide as E.
  - rewrite E. cbn [Z.eqb]. specialize (Hroom E). destruct (take_ok st Hi Hroom) as (Et & _ & _). mstep Et. unfold retM. rewrite xint_eq. pose proof (img_range _ Hi).
    by rewrite u32_small by lia.
  - by rewrite (proj2 (Z.eqb_neq _ 0) E).
Qed.

(** What mapping the next block of a file does. *)
Record extended (st st' : state) (addrs addrs' : list Z) (off x : Z) : Prop := {
  xt_img : img st';
  xt_ino : freeinode st' = freeinode st;
  xt_free : freeblock st' = freeblock st + nb (off + 1) - nb off;
  xt_grows : grows (W st) (W st') sb addrs addrs';
  xt_block : fblock (W st') addrs' (off / BSIZE) = x /\ x <> 0;
  xt_full : forall m, in_file m -> fblock (W st') addrs' m <> 0 <-> m * BSIZE < off + 1;
  xt_ind : indirect addrs' <> 0 <-> NDIRECT * BSIZE < off + 1;
}.

Section Block.
Context (st : state) (din : dinode) (data : list Z) (Hi : img st) (Hs : stored (W st) (di_addrs din) data).
Local Abbreviation addrs := (di_addrs din).
Local Abbreviation off := (Z.of_nat (length data)).
Local Abbreviation fbn := (off / BSIZE).
Context (Hmax : off < MAXFILE * BSIZE) (Hroom : freeblock st + nb (off + 1) - nb off <= 1000).

Lemma fbn_in : in_file fbn.
Proof. change (MAXFILE * BSIZE) with 274432 in Hmax. unfold in_file, BSIZE. change MAXFILE with 268. Z.div_mod_to_equations. lia. Qed.

(** In the middle of a block nothing is needed. *)
Lemma extended_same : off mod BSIZE <> 0 -> extended st st addrs addrs off (fblock (W st) addrs fbn).
Proof.
  intros Hm. pose proof (so_ok _ _ _ Hs) as Hok. assert (Hf : fblock (W st) addrs fbn <> 0).
  { apply (so_full _ _ _ Hs); [apply fbn_in|]. unfold BSIZE in *. Z.div_mod_to_equations. lia. }
  split; try done.
  - unfold nb, BSIZE in *. destruct (Z.ltb_spec 12288 off), (Z.ltb_spec 12288 (off + 1)); Z.div_mod_to_equations; lia.
  - by apply grows_refl.
  - intros m Hin. rewrite (so_full _ _ _ Hs m Hin). unfold BSIZE in *. Z.div_mod_to_equations. lia.
  - rewrite (so_ind _ _ _ Hs). unfold NDIRECT, BSIZE in *. Z.div_mod_to_equations. lia.
Qed.

(** At its beginning the block is new. *)
Lemma fresh_block : off mod BSIZE = 0 -> fblock (W st) addrs fbn = 0.
Proof.
  intros Hm. destruct (decide (fblock (W st) addrs fbn = 0)) as [|Hf]; [done|]. apply (so_full _ _ _ Hs) in Hf; [|apply fbn_in].
  unfold BSIZE in *. Z.div_mod_to_equations. lia.
Qed.
Lemma full_next (F : Z -> Z) b : off mod BSIZE = 0 -> b <> 0 -> (forall m, in_file m -> F m = if decide (m = fbn) then b else fblock (W st) addrs m) ->
  forall m, in_file m -> F m <> 0 <-> m * BSIZE < off + 1.
Proof.
  intros Hz Hb HF m Hm. rewrite HF by done. case_decide as E.
  - subst m. unfold BSIZE in *. Z.div_mod_to_equations. lia.
  - rewrite (so_full _ _ _ Hs m Hm). unfold BSIZE in *. Z.div_mod_to_equations. lia.
Qed.
Lemma block_blk b : is_block (W st b).
Proof. by apply W_block. Qed.

Lemma extended_direct : fbn < NDIRECT -> off mod BSIZE = 0 ->
  extended st (took st) addrs (<[Z.to_nat fbn := freeblock st]> addrs) off (freeblock st).
Proof.
  intros Hd Hz. pose proof (so_ok _ _ _ Hs) as Hok. pose proof (img_range _ Hi) as Hr.
  assert (Hnb : nb (off + 1) - nb off = 1).
  { unfold nb, NDIRECT, BSIZE in *. destruct (Z.ltb_spec 12288 off), (Z.ltb_spec 12288 (off + 1)); Z.div_mod_to_equations; lia. }
  destruct (take_ok st Hi ltac:(lia)) as (_ & Hi' & EW). destruct (free_data st Hi ltac:(lia)) as [Hfd Hfu]. pose proof fbn_in as Hin.
  destruct (attach_direct sb mkfs_layout (W st) addrs fbn (freeblock st) Hok Hfd Hfu block_blk) as [Hg Hb]; [destruct Hin; lia|by apply fresh_block|].
  rewrite <- EW in Hg, Hb. split; [done|done|cbn; lia|done|split; [done|lia]|..].
  - apply (full_next _ (freeblock st)); [done|lia|]. intros m Hm. rewrite EW. apply fblock_attach_direct; [apply mkfs_layout|done..| |done]. destruct Hin; lia.
  - unfold indirect. rewrite nth_insert, decide_False by (rewrite ?(fk_len _ _ _ Hok); unfold NDIRECT, BSIZE in *; Z.div_mod_to_equations; lia).
    fold (indirect addrs). rewrite (so_ind _ _ _ Hs). unfold NDIRECT, BSIZE in *. Z.div_mod_to_equations. lia.
Qed.

End Block.

Lemma W_ne st b : b <> 45 -> W st b = Mkfs.sector st b.
Proof. intros Hb. unfold W. by rewrite put_ne. Qed.

(** An entry of the indirect block that is there, and one that is not. *)
Section Entry.
Context (st : state) (addrs : list Z) (fbn : Z) (Hi : img st) (Hok : file_ok (W st) sb addrs) (Hia : indirect addrs <> 0) (Hn : NDIRECT <= fbn < MAXFILE).
Local Abbreviation ia := (indirect addrs).
Local Abbreviation k := (4 * (fbn - NDIRECT)).

Lemma ia_range : 46 <= ia < freeblock st.
Proof. destruct (owned_ind sb _ _ Hok Hia) as [Hd Hu]. rewrite is_data_sb in Hd. rewrite used_W in Hu by (done || lia). lia. Qed.
Lemma entry_fblock : get32 k (Mkfs.sector st ia) = fblock (W st) addrs fbn.
Proof. pose proof ia_range. rewrite fblock_indirect by lia. rewrite (proj2 (Z.eqb_neq _ 0) Hia). by rewrite W_ne by lia. Qed.
Lemma entry_small : 0 <= fblock (W st) addrs fbn < 1000.
Proof.
  destruct (decide (fblock (W st) addrs fbn = 0)) as [->|Hz]; [lia|]. assert (Hin : in_file fbn) by (split; unfold NDIRECT in *; lia).
  destruct (owned_block sb _ _ _ Hok Hin Hz) as [Hd _]. rewrite is_data_sb in Hd. lia.
Qed.

Lemma entry_there : fblock (W st) addrs fbn <> 0 -> Mkfs.need_entry ia fbn st = Ok (fblock (W st) addrs fbn) st.
Proof.
  intros Hz. pose proof ia_range. pose proof (img_range _ Hi). unfold Mkfs.need_entry. mstep (rsect_ok st ia Hi ltac:(lia)). rewrite entry_fblock.
  rewrite (proj2 (Z.eqb_neq _ 0) Hz). mrun. unfold retM. rewrite entry_fblock, xint_eq. pose proof entry_small. by rewrite u32_small by lia.
Qed.

Definition entered : state := wrote ia (put32 k (freeblock st) (Mkfs.sector st ia)) (took st).
Lemma entry_new : fblock (W st) addrs fbn = 0 -> freeblock st < 1000 -> Mkfs.need_entry ia fbn st = Ok (freeblock st) entered /\ img entered /\
  W entered = put (alloc (W st) sb (freeblock st)) ia (put32 k (freeblock st) (W st ia)).
Proof.
  intros Hz Hlt. pose proof ia_range. pose proof (img_range _ Hi). destruct (take_ok st Hi Hlt) as (Et & Hi1 & EW1).
  assert (Hb : is_block (Mkfs.sector st ia)) by apply Hi. destruct (Hb) as [Hlen _]. unfold bsize, NDIRECT in *. change MAXFILE with 268 in Hn.
  destruct (wsect_ok (took st) ia (put32 k (freeblock st) (Mkfs.sector st ia)) Hi1) as (Ew & Hi2 & EW2); [cbn; lia|lia|apply put32_is_block; (done || unfold NDIRECT; lia)|].
  unfold entered. split_and!; [|done|by rewrite EW2, EW1, W_ne by lia]. unfold Mkfs.need_entry. mstep (rsect_ok st ia Hi ltac:(lia)). rewrite entry_fblock, Hz. cbn [Z.eqb].
  rewrite bind_assoc. mstep Et. rewrite xint_eq, u32_small by lia. rewrite bind_assoc. mstep Ew. mrun. unfold retM. f_equal. rewrite get_put_eq by (unfold NDIRECT; lia).
  rewrite xint_eq. unfold u32. change (256 ^ Z.of_nat 4) with (2 ^ 32). rewrite Z.mod_mod by lia. apply Z.mod_small. lia.
Qed.
End Entry.

Section IndirectBlock.
Context (st : state) (din : dinode) (data : list Z) (Hi : img st) (Hs : stored (W st) (di_addrs din) data).
Local Abbreviation addrs := (di_addrs din).
Local Abbreviation off := (Z.of_nat (length data)).
Local Abbreviation fbn := (off / BSIZE).
Context (Hmax : off < MAXFILE * BSIZE) (Hroom : freeblock st + nb (off + 1) - nb off <= 1000).
Context (Hn : NDIRECT <= fbn) (Hz : off mod BSIZE = 0).

Lemma fbn_range : NDIRECT <= fbn < MAXFILE.
Proof. split; [done|]. apply (fbn_in _ Hmax). Qed.

Lemma extended_entry : indirect addrs <> 0 -> extended st (entered st addrs fbn) addrs addrs off (freeblock st).
Proof.
  intros Hia. pose proof (so_ok _ _ _ Hs) as Hok. pose proof (img_range _ Hi) as Hr. pose proof (proj1 (so_ind _ _ _ Hs) Hia) as Hgt.
  assert (Hnb : nb (off + 1) - nb off = 1).
  { unfold nb, NDIRECT, BSIZE in *. destruct (Z.ltb_spec 12288 off), (Z.ltb_spec 12288 (off + 1)); Z.div_mod_to_equations; lia. }
  pose proof (fresh_block _ _ _ Hs Hmax Hz) as Hfb. destruct (free_data st Hi ltac:(lia)) as [Hfd Hfu]. pose proof fbn_range as Hfr.
  destruct (entry_new st addrs fbn Hi Hok Hia Hfr Hfb ltac:(lia)) as (_ & Hi' & EW).
  destruct (attach_entry sb mkfs_layout (W st) addrs fbn (freeblock st) Hok Hfd Hfu (fun b => W_block st b Hi) Hfr Hia Hfb) as [Hg Hb]. rewrite <- EW in Hg, Hb.
  split; [done|done|cbn; lia|done|split; [done|lia]|..].
  - apply (full_next _ _ _ Hs _ (freeblock st)); [done|lia|]. intros m Hm. rewrite EW. apply fblock_attach_entry; (done || apply mkfs_layout || by apply W_block).
  - split; [lia|done].
Qed.

Local Abbreviation addrs1 := (<[Z.to_nat NDIRECT := freeblock st]> addrs).
Lemma extended_first : indirect addrs = 0 -> extended st (entered (took st) addrs1 fbn) addrs addrs1 off (freeblock st + 1) /\
  indirect addrs1 = freeblock st /\ Mkfs.need_entry (freeblock st) fbn (took st) = Ok (freeblock st + 1) (entered (took st) addrs1 fbn).
Proof.
  intros Hia. pose proof (so_ok _ _ _ Hs) as Hok. pose proof (img_range _ Hi) as Hr.
  assert (Hoff : off = 12288). { destruct (decide (off = 12288)); [done|]. exfalso. apply (so_ind _ _ _ Hs); [|done]. unfold NDIRECT, BSIZE in *. Z.div_mod_to_equations. lia. }
  assert (Hnb : nb (off + 1) - nb off = 2) by (rewrite Hoff; done).
  pose proof (fresh_block _ _ _ Hs Hmax Hz) as Hfb. destruct (free_data st Hi ltac:(lia)) as [Hfd Hfu]. pose proof fbn_range as Hfr.
  destruct (take_ok st Hi ltac:(lia)) as (_ & Hi1 & EW1).
  destruct (attach_indirect sb mkfs_layout (W st) addrs (freeblock st) Hok Hfd Hfu (fun b => W_block st b Hi) Hia) as [Hg1 Hia1]. rewrite <- EW1 in Hg1.
  pose proof (gr_ok _ _ _ _ _ Hg1) as Hok1. assert (Hne : indirect addrs1 <> 0) by lia.
  assert (Hsame : forall m, in_file m -> fblock (W (took st)) addrs1 m = fblock (W st) addrs m).
  { intros m Hm. rewrite EW1. by apply fblock_attach_indirect; [apply mkfs_layout|..]. }
  assert (Hin : in_file fbn) by (apply (fbn_in _ Hmax)). assert (Hfb1 : fblock (W (took st)) addrs1 fbn = 0) by (by rewrite Hsame).
  destruct (free_data (took st) Hi1 ltac:(cbn; lia)) as [Hfd1 Hfu1].
  destruct (entry_new (took st) addrs1 fbn Hi1 Hok1 Hne Hfr Hfb1 ltac:(cbn; lia)) as (E2 & Hi2 & EW2).
  destruct (attach_entry sb mkfs_layout (W (took st)) addrs1 fbn _ Hok1 Hfd1 Hfu1 (fun b => W_block _ b Hi1) Hfr Hne Hfb1) as [Hg2 Hb2]. rewrite <- EW2 in Hg2, Hb2.
  rewrite Hia1 in E2. split_and!; [|done|done]. split; [done|done|cbn; lia|by eapply grows_trans; [apply mkfs_layout|..]|split; [done|lia]|..].
  - apply (full_next _ _ _ Hs _ (freeblock st + 1)); [done|lia|]. intros m Hm. rewrite <- (Hsame m) by done. rewrite EW2. apply fblock_attach_entry; (done || apply mkfs_layout || by apply W_block).
  - rewrite Hoff. split; [done|lia].
Qed.
End IndirectBlock.

Lemma iappend_block_ok st din data : img st -> stored (W st) (di_addrs din) data -> Z.of_nat (length data) < MAXFILE * BSIZE ->
  freeblock st + nb (Z.of_nat (length data) + 1) - nb (Z.of_nat (length data)) <= 1000 ->
  exists addrs' x st', Mkfs.iappend_block din (Z.of_nat (length data) / BSIZE) st = Ok (set_addrs addrs' din, x) st' /\
    extended st st' (di_addrs din) addrs' (Z.of_nat (length data)) x.
Proof.
  intros Hi Hs Hmax Hroom. pose proof (so_ok _ _ _ Hs) as Hok. set (off := Z.of_nat (length data)) in *. pose proof (fbn_in _ Hmax) as Hin. fold off in Hin.
  assert (Hdin : din = set_addrs (di_addrs din) din) by (by destruct din). unfold Mkfs.iappend_block.
  destruct (Z.ltb_spec (off / BSIZE) NDIRECT) as [Hd|Hd].
  - assert (Hfd : forall V a, fblock V a (off / BSIZE) = nth (Z.to_nat (off / BSIZE)) a 0) by (intros; by apply fblock_direct).
    assert (Hk : 0 <= off / BSIZE <= 12) by (destruct Hin; unfold NDIRECT in *; lia). destruct (decide (off mod BSIZE = 0)) as [Hz|Hz].
    + pose proof (extended_direct st din data Hi Hs Hmax Hroom Hd Hz) as Hx. fold off in Hx.
      pose proof (fresh_block st din data Hs Hmax Hz) as Hf. fold off in Hf. rewrite Hfd in Hf.
      assert (Hlt : freeblock st < 1000) by (pose proof (xt_free _ _ _ _ _ _ Hx) as E; unfold took in E; cbn [Mkfs.freeblock] in E; lia).
      pose proof (need_ok (W st) st din _ Hi Hok Hk (fun _ => Hlt)) as E. rewrite decide_True in E by done. mstep E.
      do 3 eexists. split; [|exact Hx]. unfold retM. do 2 f_equal.
      rewrite (addr_eq _ (set_addrs _ din) _ (gr_ok _ _ _ _ _ (xt_grows _ _ _ _ _ _ Hx)) Hk). rewrite <- (Hfd (W (took st))). apply (proj1 (xt_block _ _ _ _ _ _ Hx)).
    + pose proof (extended_same st din data Hi Hs Hmax Hroom Hz) as Hx. fold off in Hx. destruct (xt_block _ _ _ _ _ _ Hx) as [_ Hf].
      pose proof (need_ok (W st) st din _ Hi Hok Hk) as E. rewrite decide_False in E by (by rewrite <- (Hfd (W st))). rewrite (bindM_ok _ _ _ _ _ (E ltac:(rewrite <- (Hfd (W st)); done))).
      exists (di_addrs din). do 2 eexists. split; [|exact Hx]. unfold retM. rewrite <- Hdin. do 2 f_equal. rewrite (addr_eq (W st)) by done. symmetry. apply Hfd.
  - pose proof (need_ok (W st) st din NDIRECT Hi Hok ltac:(unfold NDIRECT; lia)) as E. fold (indirect (di_addrs din)) in E. destruct (decide (indirect (di_addrs din) = 0)) as [Hia|Hia].
    + assert (Hz : off mod BSIZE = 0).
      { destruct (decide (off mod BSIZE = 0)); [done|]. exfalso. apply (so_ind _ _ _ Hs); [|done]. fold off. unfold NDIRECT, BSIZE in *. Z.div_mod_to_equations. lia. }
      destruct (extended_first st din data Hi Hs Hmax Hroom Hd Hz Hia) as (Hx & Eia & Ee). fold off in Hx, Ee.
      assert (Hlt : freeblock st < 1000) by (pose proof (xt_free _ _ _ _ _ _ Hx) as Ef; unfold entered, wrote, took in Ef; cbn [Mkfs.freeblock] in Ef; lia). mstep (E (fun _ => Hlt)).
      rewrite (addr_eq _ (set_addrs _ din) NDIRECT (gr_ok _ _ _ _ _ (xt_grows _ _ _ _ _ _ Hx)) ltac:(unfold NDIRECT; lia)). cbn [di_addrs set_addrs]. fold (indirect (<[Z.to_nat NDIRECT := freeblock st]> (di_addrs din))).
      rewrite Eia. mstep Ee. do 3 eexists. split; [reflexivity|exact Hx].
    + mstep (E ltac:(done)). rewrite (addr_eq (W st)) by (done || unfold NDIRECT; lia). fold (indirect (di_addrs din)).
      destruct Hin as [_ Hlt]. destruct (decide (off mod BSIZE = 0)) as [Hz|Hz].
      * pose proof (extended_entry st din data Hi Hs Hmax Hroom Hd Hz Hia) as Hx. fold off in Hx. pose proof (fresh_block st din data Hs Hmax Hz) as Hf. fold off in Hf.
        destruct (entry_new st (di_addrs din) (off / BSIZE) Hi Hok Hia ltac:(lia) Hf) as (Ee & _); [pose proof (xt_free _ _ _ _ _ _ Hx) as Ef; unfold entered, wrote, took in Ef; cbn [Mkfs.freeblock] in Ef; lia|].
        mstep Ee. exists (di_addrs din). do 2 eexists. split; [|exact Hx]. by rewrite <- Hdin.
      * pose proof (extended_same st din data Hi Hs Hmax Hroom Hz) as Hx. fold off in Hx. destruct (xt_block _ _ _ _ _ _ Hx) as [_ Hf].
        mstep (entry_there st (di_addrs din) (off / BSIZE) Hi Hok Hia ltac:(lia) Hf). exists (di_addrs din). do 2 eexists. split; [|exact Hx]. by rewrite <- Hdin.
Qed.

(** ** Appending to a file *)

Lemma nb_chunk off n : 0 <= off -> 1 <= n -> off mod 1024 + n <= 1024 -> nb (off + n) = nb (off + 1).
Proof. intros H0 H1 H2. unfold nb. destruct (Z.ltb_spec 12288 (off + n)), (Z.ltb_spec 12288 (off + 1)); Z.div_mod_to_equations; lia. Qed.
Lemma nb_mono a b : a <= b -> nb a <= nb b.
Proof. intros H. unfold nb. destruct (Z.ltb_spec 12288 a), (Z.ltb_spec 12288 b); Z.div_mod_to_equations; lia. Qed.

Lemma nth_splice (l new : list Z) k j : (k + length new <= length l)%nat ->
  nth j (splice k new l) 0 = if decide (k <= j < k + length new)%nat then nth (j - k) new 0 else nth j l 0.
Proof. intros Hk. rewrite !nth_lookup, lookup_splice by done. repeat case_decide; try lia; try done. Qed.

Record appended (st st' : state) (addrs addrs' data p : list Z) : Prop := {
  ap_img : img st';
  ap_ino : freeinode st' = freeinode st;
  ap_free : freeblock st' = freeblock st + nb (Z.of_nat (length (data ++ p))) - nb (Z.of_nat (length data));
  ap_stored : stored (W st') addrs' (data ++ p);
  ap_evolves : evolves (W st) (W st') sb addrs addrs';
}.

Section Chunk.
Context (st st' : state) (addrs addrs' data p : list Z) (x : Z).
Local Abbreviation off := (Z.of_nat (length data)).
Local Abbreviation n := (Z.of_nat (length p)).
Context (Hi : img st) (Hs : stored (W st) addrs data) (Hx : extended st st' addrs addrs' off x).
Context (Hp : Forall is_byte p) (Hmax : off < MAXFILE * BSIZE) (Hn : 1 <= n) (Hfit : off mod BSIZE + n <= BSIZE).
Local Abbreviation v := (splice (Z.to_nat (off - off / BSIZE * BSIZE)) p (Mkfs.sector st' x)).

Lemma chunk_range : 46 <= x < freeblock st'.
Proof.
  destruct (xt_block _ _ _ _ _ _ Hx) as [E Hz]. pose proof (xt_img _ _ _ _ _ _ Hx) as Hi'. rewrite <- E in Hz.
  destruct (owned_block sb _ _ _ (gr_ok _ _ _ _ _ (xt_grows _ _ _ _ _ _ Hx)) (fbn_in _ Hmax) Hz) as [Hd Hu]. rewrite E in Hd, Hu.
  rewrite is_data_sb in Hd. rewrite used_W in Hu by (done || lia). lia.
Qed.
Lemma chunk_block : is_block v.
Proof.
  destruct (ig_block _ (xt_img _ _ _ _ _ _ Hx) x) as [Hl Hb]. split; [|by apply Forall_splice]. rewrite length_splice; [done|]. rewrite Hl. unfold bsize, BSIZE in *.
  Z.div_mod_to_equations. lia.
Qed.

Lemma chunk_stored : stored (put (W st') x v) addrs' (data ++ p).
Proof.
  pose proof chunk_range as Hr. destruct (xt_block _ _ _ _ _ _ Hx) as [E Hz]. pose proof (xt_grows _ _ _ _ _ _ Hx) as Hg. pose proof (gr_ok _ _ _ _ _ Hg) as Hok'.
  pose proof (fbn_in _ Hmax) as Hin. assert (Hfb : forall m, fblock (put (W st') x v) addrs' m = fblock (W st') addrs' m) by (intros; by eapply fblock_put).
  assert (Hend : off + n <= MAXFILE * BSIZE) by (change (MAXFILE * BSIZE) with 274432 in *; unfold BSIZE in *; Z.div_mod_to_equations; lia).
  split.
  - apply (ev_ok _ _ _ _ _ (evolves_put sb mkfs_layout (W st') addrs' (off / BSIZE) x v Hok' Hin E Hz)).
  - rewrite length_app. lia.
  - intros o Ho. rewrite (fbyte_put sb (W st') addrs' (off / BSIZE) x v o Hok' Hin E Hz Ho).
    assert (Hold : fbyte (W st') addrs' o = nth (Z.to_nat o) data 0) by (rewrite (grows_bytes sb (W st) _ _ _ _ (so_ok _ _ _ Hs) Hg Ho); by apply (so_bytes _ _ _ Hs)).
    destruct (ig_block _ (xt_img _ _ _ _ _ _ Hx) x) as [Hl _]. unfold bsize in Hl. case_decide as Eo.
    + rewrite nth_splice by (rewrite Hl; unfold BSIZE in *; Z.div_mod_to_equations; lia). case_decide as Ej.
      * rewrite app_nth2 by (unfold BSIZE in *; Z.div_mod_to_equations; lia). f_equal. unfold BSIZE in *. Z.div_mod_to_equations. lia.
      * rewrite <- (W_ne st') by lia. transitivity (fbyte (W st') addrs' o); [unfold fbyte; rewrite Eo, E; by rewrite (proj2 (Z.eqb_neq x 0) Hz)|]. rewrite Hold.
        destruct (decide (o < off)); [by rewrite app_nth1 by lia|]. rewrite !nth_overflow; rewrite ?length_app; try done; unfold BSIZE in *; Z.div_mod_to_equations; lia.
    + rewrite Hold. destruct (decide (o < off)); [by rewrite app_nth1 by lia|]. rewrite !nth_overflow; rewrite ?length_app; try done; unfold BSIZE in *; Z.div_mod_to_equations; lia.
  - intros m Hm. rewrite Hfb, (xt_full _ _ _ _ _ _ Hx m Hm), length_app. unfold BSIZE in *. Z.div_mod_to_equations. lia.
  - rewrite (xt_ind _ _ _ _ _ _ Hx), length_app. unfold NDIRECT, BSIZE in *. Z.div_mod_to_equations. lia.
Qed.

Lemma chunk_ok : Mkfs.rsect x st' = Ok (Mkfs.sector st' x) st' /\ Mkfs.wsect x v st' = Ok tt (wrote x v st') /\ appended st (wrote x v st') addrs addrs' data p.
Proof.
  pose proof chunk_range as Hr. pose proof (xt_img _ _ _ _ _ _ Hx) as Hi'. pose proof (img_range _ Hi') as Hr'. destruct (xt_block _ _ _ _ _ _ Hx) as [E Hz].
  pose proof (xt_grows _ _ _ _ _ _ Hx) as Hg. destruct (wsect_ok st' x v Hi') as (Ew & Hi2 & EW); [lia|lia|apply chunk_block|].
  split_and!; [apply rsect_ok; (done || lia)|done|]. split; [done|apply Hx|..].
  - change (freeblock (wrote x v st')) with (freeblock st'). rewrite (xt_free _ _ _ _ _ _ Hx), length_app, Nat2Z.inj_add. unfold BSIZE in *. by rewrite (nb_chunk off n) by lia.
  - rewrite EW. apply chunk_stored.
  - rewrite EW. apply (evolves_trans sb mkfs_layout _ (W st') _ _ addrs'); [apply grows_evolves; [apply mkfs_layout|done|apply Hs]|].
    apply (evolves_put sb mkfs_layout _ _ (off / BSIZE)); [apply Hg|by apply fbn_in|done|done].
Qed.
End Chunk.

Lemma appended_trans st st1 st2 a a1 a2 data p1 p2 : appended st st1 a a1 data p1 -> appended st1 st2 a1 a2 (data ++ p1) p2 ->
  appended st st2 a a2 data (p1 ++ p2).
Proof.
  intros [A1 A2 A3 A4 A5] [B1 B2 B3 B4 B5]. split; [done|congruence| |by rewrite app_assoc|].
  - rewrite app_assoc. lia.
  - eapply evolves_trans; [apply mkfs_layout|done|done].
Qed.

Lemma iappend_loop_ok fuel : forall st din data p, img st -> stored (W st) (di_addrs din) data -> Forall is_byte p ->
  Z.of_nat (length (data ++ p)) <= MAXFILE * BSIZE ->
  freeblock st + nb (Z.of_nat (length (data ++ p))) - nb (Z.of_nat (length data)) <= 1000 -> (length p <= fuel)%nat ->
  exists addrs' st', Mkfs.iappend_loop din (Z.of_nat (length data)) p fuel st = Ok (set_addrs addrs' din, Z.of_nat (length (data ++ p))) st' /\
    appended st st' (di_addrs din) addrs' data p.
Proof.
  induction fuel as [|fuel IH]; intros st din data p Hi Hs Hp Hmax Hroom Hfuel; cbn [Mkfs.iappend_loop].
  all: case_decide as Hpos.
  2, 4: assert (p = []) as -> by (destruct p; [done|cbn in Hpos; lia]); rewrite app_nil_r; exists (di_addrs din), st;
    split; [by destruct din|split; [done|done|rewrite app_nil_r; lia|by rewrite app_nil_r|by apply evolves_refl, Hs]].
  { lia. }
  rewrite length_app, Nat2Z.inj_add in *. set (off := Z.of_nat (length data)) in *. set (n := Z.of_nat (length p)) in *. assert (Hn : 1 <= n) by lia.
  change (MAXFILE * BSIZE) with 274432 in *.
  assert (Hin : in_file (off / BSIZE)) by (apply (fbn_in data); change (MAXFILE * BSIZE) with 274432; lia). destruct Hin as [Hf0 Hf]. rewrite (proj2 (Z.ltb_lt _ _) Hf). cbn [negb].
  pose proof (nb_mono (off + 1) (off + n) ltac:(lia)) as Hmono.
  destruct (iappend_block_ok st din data Hi Hs) as (a1 & x & st1 & E1 & Hx); [change (MAXFILE * BSIZE) with 274432; lia|fold off; lia|]. fold off in E1, Hx. mstep E1.
  set (n1 := Z.min n (u32 ((off / BSIZE + 1) * BSIZE - off))).
  assert (En1 : n1 = Z.min n (BSIZE - off mod BSIZE)) by (unfold n1; rewrite u32_small; unfold BSIZE; Z.div_mod_to_equations; lia).
  assert (Hn1 : 1 <= n1 <= n /\ off mod BSIZE + n1 <= BSIZE) by (rewrite En1; unfold BSIZE; Z.div_mod_to_equations; lia). clearbody n1.
  set (p1 := take (Z.to_nat n1) p). set (p2 := drop (Z.to_nat n1) p).
  assert (Hl1 : Z.of_nat (length p1) = n1) by (unfold p1; rewrite length_take; lia). assert (Hl2 : Z.of_nat (length p2) = n - n1) by (unfold p2; rewrite length_drop; lia).
  assert (Ep : p = p1 ++ p2) by (by unfold p1, p2; rewrite take_drop). assert (Hp12 : Forall is_byte p1 /\ Forall is_byte p2) by (by apply Forall_app; rewrite <- Ep). destruct Hp12 as [Hp1 Hp2].
  destruct (chunk_ok st st1 (di_addrs din) a1 data p1 x Hs Hx Hp1) as (Er & Ew & Ha); rewrite ?Hl1; fold off; change (MAXFILE * BSIZE) with 274432; [lia..|]. fold off in Ew, Ha.
  mstep Er. mstep Ew. set (st2 := wrote x _ st1) in *.
  replace (u32 (off + n1)) with (Z.of_nat (length (data ++ p1))) by (rewrite length_app, u32_small; lia).
  assert (Hl : Z.of_nat (length ((data ++ p1) ++ p2)) = off + n) by (rewrite !length_app; lia). pose proof (ap_free _ _ _ _ _ _ Ha) as Hfree. fold off in Hfree.
  destruct (IH st2 (set_addrs a1 din) (data ++ p1) p2) as (a2 & st3 & E3 & Ha3); [apply Ha|apply Ha|done|rewrite Hl; change (MAXFILE * BSIZE) with 274432; lia|rewrite Hl; lia|lia|].
  rewrite Hl in E3. exists a2, st3. split; [exact E3|]. rewrite Ep. by eapply appended_trans.
Qed.
