(* ===== verification/MkfsThms.v ===== *)
(** * mkfs: theorems

    What [ialloc], [iappend] and [main] leave in the image, file by file; and
    that a kernel booted from the image finds every file with its contents. *)

From stdpp Require Import base list gmap strings.
From Stdlib Require Import ZArith Lia FunctionalExtensionality.
From S2P Require Import Prelude Layout FsFormat Bio Tx Store Fs FsAlloc FsFile FsIO FsInode FsWrite FsDir Mkfs MkfsSpec.
Open Scope Z_scope.

Local Abbreviation sb := Mkfs.sb.
Local Abbreviation state := Mkfs.state.
Local Abbreviation freeblock := Mkfs.freeblock.
Local Abbreviation freeinode := Mkfs.freeinode.

(** ** One file changes, the others do not *)

Lemma fblock_same V V' addrs m : (indirect addrs <> 0 -> V' (indirect addrs) = V (indirect addrs)) -> fblock V' addrs m = fblock V addrs m.
Proof. intros H. unfold fblock. destruct (m <? NDIRECT); [done|]. destruct (Z.eqb_spec (indirect addrs) 0); [done|]. by rewrite H. Qed.

Lemma o_block o : 0 <= o < MAXFILE * BSIZE -> in_file (o / BSIZE).
Proof. intros Ho. split; [apply Z.div_pos; [lia|done]|apply Z.div_lt_upper_bound; [done|lia]]. Qed.

(** Contents depend on the file's own blocks and their marks. *)
Lemma stored_agree V V' addrs data : stored V addrs data -> (forall x, owns V addrs x -> V' x = V x /\ used V' sb x = true) ->
  stored V' addrs data /\ (forall x, owns V' addrs x <-> owns V addrs x).
Proof.
  intros [Hok Hlen Hb Hf Hi] Hag. assert (Hfb : forall m, fblock V' addrs m = fblock V addrs m).
  { intros m. apply fblock_same. intros Hz. apply Hag. split; [done|by left]. }
  assert (Ho : forall x, owns V' addrs x <-> owns V addrs x) by (intros x; unfold owns; by setoid_rewrite Hfb).
  split; [|done]. split; [|done|..|done].
  - split; [apply Hok|..].
    + intros x Hx. rewrite Ho in Hx. split; [by apply (fk_own _ _ _ Hok)|by apply Hag].
    + intros m1 m2. rewrite !Hfb. apply Hok.
    + intros m. rewrite Hfb. apply Hok.
  - intros o Hr. rewrite <- Hb by done. unfold fbyte. rewrite Hfb. destruct (Z.eqb_spec (fblock V addrs (o / BSIZE)) 0) as [|Hz]; [done|].
    rewrite (proj1 (Hag _ (conj Hz (or_intror (ex_intro _ (o / BSIZE) (conj (o_block o Hr) eq_refl)))))). done.
  - intros m. rewrite Hfb. apply Hf.
Qed.

Lemma stored_other V V' a a' addrs data : evolves V V' sb a a' -> stored V addrs data -> (forall x, owns V a x -> ~ owns V addrs x) ->
  stored V' addrs data /\ (forall x, owns V' addrs x <-> owns V addrs x) /\ (forall x, owns V' a' x -> ~ owns V' addrs x).
Proof.
  intros He Hs Hd. destruct (stored_agree V V' addrs data Hs) as [H1 H2].
  { intros x Hx. destruct (fk_own _ _ _ (so_ok _ _ _ Hs) x Hx) as [Hdx Hu]. pose proof (data_pos _ mkfs_layout x Hdx). split.
    - apply (ev_data _ _ _ _ _ He); [done|done|]. intros Hax. by apply (Hd x Hax).
    - apply (ev_used _ _ _ _ _ He); [lia|done]. }
  split_and!; [done|done|]. intros x Hx. rewrite H2. intros Ho. destruct (ev_own _ _ _ _ _ He x Hx) as [Ha|Hu]; [by apply (Hd x Ha)|].
  destruct (fk_own _ _ _ (so_ok _ _ _ Hs) x Ho) as [_ Hu']. congruence.
Qed.

Lemma stored_meta V addrs data b v : 0 <= b < 45 -> stored V addrs data ->
  stored (put V b v) addrs data /\ (forall x, owns (put V b v) addrs x <-> owns V addrs x).
Proof.
  intros Hb Hs. apply stored_agree; [done|]. intros x Hx. destruct (fk_own _ _ _ (so_ok _ _ _ Hs) x Hx) as [Hd Hu]. pose proof Hd as Hd'. rewrite is_data_sb in Hd'. split.
  - apply put_ne. lia.
  - rewrite used_put; [done|apply mkfs_layout|change (sb_size sb) with 1000; lia|]. rewrite is_bmap_sb. lia.
Qed.

Lemma stored_empty V : stored V (replicate 13 0) [].
Proof.
  assert (Hn : forall k, nth k (replicate 13 0) 0 = 0). { intros k. rewrite nth_lookup. destruct (replicate 13 0 !! k) as [x|] eqn:E; [|done]. by apply lookup_replicate in E as [-> _]. }
  assert (Hi : indirect (replicate 13 0) = 0) by done. assert (Hf : forall m, fblock V (replicate 13 0) m = 0) by (intros m; unfold fblock; rewrite Hn; by destruct (m <? NDIRECT)).
  split.
  - split; [done|..].
    + intros x [Hx [->|(m & _ & E)]]; [done|]. rewrite Hf in E. congruence.
    + intros n m _ _ Hz. by rewrite Hf in Hz.
    + intros n _ Hz. by rewrite Hf in Hz.
  - done.
  - intros o Ho. unfold fbyte. rewrite Hf. cbn. by destruct (Z.to_nat o).
  - intros m [Hm _]. rewrite Hf. unfold BSIZE. cbn [length]. split; [done|lia].
  - rewrite Hi. unfold NDIRECT, BSIZE. cbn [length]. split; [done|lia].
Qed.
Lemma owns_empty V x : ~ owns V (replicate 13 0) x.
Proof.
  intros Hx. destruct (stored_empty V) as [Hok _ _ Hf _]. destruct Hx as [Hz [E|(m & Hm & E)]]; [by subst|]. rewrite <- E in Hz. apply Hf in Hz; [|done]. cbn in Hz. destruct Hm. unfold BSIZE in *. lia.
Qed.

(** ** Inodes *)

Definition ino (V : Z -> list Z) (i : Z) : dinode := dinode_at (ioff i) (V (IBLOCK i sb)).
Lemma iblock_sb i : 0 <= i < 200 -> 32 <= IBLOCK i sb < 45.
Proof. apply (iblock_range i sb mkfs_layout). Qed.

Lemma rinode_ok st i : img st -> 0 <= i < 200 -> Mkfs.rinode i st = Ok (ino (W st) i) st.
Proof.
  intros Hi Hr. pose proof (iblock_sb i Hr). unfold Mkfs.rinode. mstep (rsect_ok st (IBLOCK i sb) Hi ltac:(lia)). unfold retM, ino. by rewrite W_ne by lia.
Qed.
Lemma winode_ok st i d : img st -> 0 <= i < 200 -> dinode_wf d -> exists st',
  Mkfs.winode i d st = Ok tt st' /\ img st' /\ freeinode st' = freeinode st /\ freeblock st' = freeblock st /\
  (exists v, W st' = put (W st) (IBLOCK i sb) v) /\ ino (W st') i = d /\ (forall j, 0 <= j < 200 -> j <> i -> ino (W st') j = ino (W st) j).
Proof.
  intros Hi Hr Hd. pose proof (iblock_sb i Hr) as Hb. pose proof (img_range _ Hi). destruct (ioff_range i) as [Ho1 Ho2]. set (b := IBLOCK i sb) in *.
  assert (Hblk : is_block (Mkfs.sector st b)) by apply Hi. destruct (Hblk) as [Hlen _]. unfold bsize in Hlen.
  destruct (wsect_ok st b (put_dinode (ioff i) d (Mkfs.sector st b)) Hi) as (Ew & Hi' & EW); [lia|lia|by apply put_dinode_block|].
  exists (wrote b (put_dinode (ioff i) d (Mkfs.sector st b)) st). split_and!; [|done|done|done|by eexists|..].
  - unfold Mkfs.winode. fold b. mstep (rsect_ok st b Hi ltac:(lia)). done.
  - unfold ino. fold b. rewrite EW, put_eq. apply dinode_at_put; [lia|lia|done].
  - intros j Hj Hne. unfold ino. rewrite EW. destruct (decide (IBLOCK j sb = b)) as [E|E]; [|by rewrite put_ne].
    rewrite E, put_eq, (W_ne st b) by lia. destruct (ioff_range j). apply dinode_at_other; try lia.
    destruct (ioff_disjoint i j sb mkfs_layout Hr Hj ltac:(done) ltac:(done)); lia.
Qed.

(** A file as mkfs knows it. *)
Record mfile := mk_mfile { m_type : Z; m_addrs : list Z; m_data : list Z }.
Definition m_size (f : mfile) : Z := Z.of_nat (length (m_data f)).
Definition dinode_of_mfile (f : mfile) : dinode := mk_dinode (m_type f) 0 0 1 (m_size f) (m_addrs f).
Definition total (fl : list mfile) : Z := foldr (fun f s => nb (m_size f) + s) 0 fl.

Lemma taken_app l1 l2 : total (l1 ++ l2) = total l1 + total l2.
Proof. unfold total. induction l1 as [|f l1 IH]; [done|]. cbn [app foldr]. lia. Qed.
Lemma total_insert fl k f g : fl !! k = Some f -> total (<[k := g]> fl) = total fl - nb (m_size f) + nb (m_size g).
Proof.
  unfold total. revert k. induction fl as [|h fl IH]; intros k Hk; [done|]. destruct k as [|k].
  - injection Hk as ->. change (<[0%nat := g]> (f :: fl)) with (g :: fl). cbn [foldr]. lia.
  - change (<[S k := g]> (h :: fl)) with (h :: <[k := g]> fl). cbn [foldr]. rewrite (IH k Hk). lia.
Qed.
Lemma dinode_wf_of V f : stored V (m_addrs f) (m_data f) -> - 2 ^ 15 <= m_type f < 2 ^ 15 -> dinode_wf (dinode_of_mfile f).
Proof.
  intros Hs Ht. pose proof (so_len _ _ _ Hs) as Hl. change (MAXFILE * BSIZE) with 274432 in Hl. pose proof (fk_len _ _ _ (so_ok _ _ _ Hs)) as Hn.
  split; cbn; [lia|unfold m_size; lia|done|]. intros k. destruct (decide (k <= 12)%nat).
  - pose proof (addrs_small _ _ (Z.of_nat k) (so_ok _ _ _ Hs) ltac:(lia)) as H. rewrite Nat2Z.id in H. lia.
  - rewrite nth_overflow; [lia|]. rewrite Hn. unfold NDIRECT. lia.
Qed.

(** The image holds the files [fl], whose inodes are 1, 2, ... *)
Record made (st : state) (fl : list mfile) : Prop := {
  md_img : img st;
  md_count : freeinode st = 1 + Z.of_nat (length fl) /\ (length fl < 200)%nat;
  md_free : freeblock st = Mkfs.nmeta + total fl;
  md_ino : forall k f, fl !! k = Some f -> - 2 ^ 15 <= m_type f < 2 ^ 15 /\ ino (W st) (Z.of_nat k + 1) = dinode_of_mfile f;
  md_none : forall i, 0 <= i < 200 -> (forall k f, fl !! k = Some f -> i <> Z.of_nat k + 1) -> di_type (ino (W st) i) = 0;
  md_stored : forall k f, fl !! k = Some f -> stored (W st) (m_addrs f) (m_data f);
  md_disj : forall j k f g, j <> k -> fl !! j = Some f -> fl !! k = Some g -> forall x, owns (W st) (m_addrs f) x -> ~ owns (W st) (m_addrs g) x;
  md_low : forall b, 0 <= b < 32 -> W st b = if decide (b = 1) then splice 0 (Mkfs.sb_bytes sb) zero_block else zero_block;
}.

(** [ialloc] adds an empty file. *)
Lemma ialloc_ok st fl t : made st fl -> (length fl < 199)%nat -> 0 <= t < 2 ^ 15 -> exists st',
  Mkfs.ialloc t st = Ok (Z.of_nat (length fl) + 1) st' /\ made st' (fl ++ [mk_mfile t (replicate 13 0) []]).
Proof.
  intros Hm Hl Ht. pose proof (md_img _ _ Hm) as Hi. destruct (md_count _ _ Hm) as [Hc _]. set (i := Z.of_nat (length fl) + 1) in *.
  assert (Ei : freeinode st = i) by lia. set (f := mk_mfile t (replicate 13 0) []).
  set (st1 := Mkfs.mk_state (Mkfs.sectors st) (Mkfs.nsect st) (i + 1) (freeblock st)). assert (Hi1 : img st1) by (destruct Hi; by split).
  assert (Hwf : dinode_wf (dinode_of_mfile f)) by (apply (dinode_wf_of (W st)); [apply stored_empty|cbn; lia]).
  destruct (winode_ok st1 i (dinode_of_mfile f) Hi1 ltac:(lia) Hwf) as (st' & Ew & Hi' & En & Ef & (v & EW) & Hino & Hother).
  change (W st1) with (W st) in *. pose proof (iblock_sb i ltac:(lia)) as Hib. exists st'. split.
  { unfold Mkfs.ialloc. rewrite bind_get. rewrite Ei. rewrite bind_modify, (u32_small (i + 1)) by lia.
    assert (Ed : mk_dinode (s16 (Mkfs.xshort t)) 0 0 (s16 (Mkfs.xshort 1)) (Mkfs.xint 0) (replicate 13 0) = dinode_of_mfile f).
    { unfold dinode_of_mfile, f, m_size. cbn [m_type m_addrs m_data length]. rewrite xshort_eq. unfold s16, u16. f_equal. rewrite (Z.mod_small t) by lia. rewrite Z.mod_small by lia. lia. }
    rewrite Ed. mstep Ew. done. }
  assert (Hlk : forall k g, (fl ++ [f]) !! k = Some g -> (k = length fl /\ g = f) \/ ((k < length fl)%nat /\ fl !! k = Some g)).
  { intros k g [Hk|[Hge Hk]]%lookup_app_Some; [right; split; [by eapply lookup_lt_Some|done]|left]. apply list_lookup_singleton_Some in Hk as [Hz ->]. split; [lia|done]. }
  assert (Hst : forall k g, fl !! k = Some g -> stored (W st') (m_addrs g) (m_data g) /\ forall x, owns (W st') (m_addrs g) x <-> owns (W st) (m_addrs g) x).
  { intros k g Hk. rewrite EW. apply stored_meta; [lia|]. by apply (md_stored _ _ Hm k). }
  split.
  - done.
  - rewrite length_app. cbn [length]. rewrite En. cbn. lia.
  - rewrite Ef, taken_app, (md_free _ _ Hm : freeblock st1 = _). change (total [f]) with 0. lia.
  - intros k g [[-> ->]|[Hlt Hk]]%Hlk; [split; [cbn; lia|done]|]. rewrite Hother by lia. by apply (md_ino _ _ Hm).
  - intros j Hj Hno. assert (j <> i) by (apply (Hno (length fl) f); rewrite lookup_app_r, Nat.sub_diag by done; done). rewrite Hother by done.
    apply (md_none _ _ Hm); [done|]. intros k g Hk. apply (Hno k g). by apply lookup_app_l_Some.
  - intros k g [[-> ->]|[Hlt Hk]]%Hlk; [apply stored_empty|]. by apply (Hst k).
  - intros j k g h Hne Hj Hk x. apply Hlk in Hj as [[-> ->]|[Hltj Hj]]; [by intros ?%owns_empty|]. apply Hlk in Hk as [[-> ->]|[Hltk Hk]]; [intros _; apply owns_empty|].
    rewrite (proj2 (Hst j g Hj)), (proj2 (Hst k h Hk)). by apply (md_disj _ _ Hm j k).
  - intros b Hb. rewrite EW, put_ne by lia. by apply (md_low _ _ Hm).
Qed.

(** [iappend] extends one file. *)
Lemma iappend_ok st fl k f p : made st fl -> fl !! k = Some f -> Forall is_byte p -> m_size f + Z.of_nat (length p) <= MAXFILE * BSIZE ->
  freeblock st + nb (m_size f + Z.of_nat (length p)) - nb (m_size f) <= 1000 -> exists addrs' st',
  Mkfs.iappend (Z.of_nat k + 1) p st = Ok tt st' /\ made st' (<[k := mk_mfile (m_type f) addrs' (m_data f ++ p)]> fl).
Proof.
  intros Hm Hk Hp Hmax Hroom. pose proof (md_img _ _ Hm) as Hi. destruct (md_count _ _ Hm) as [Hc Hl]. pose proof (lookup_lt_Some _ _ _ Hk) as Hlt.
  destruct (md_ino _ _ Hm k f Hk) as [Ht Hino]. pose proof (md_stored _ _ Hm k f Hk) as Hs. assert (Hsz : 0 <= m_size f < 2 ^ 32).
  { pose proof (so_len _ _ _ Hs) as H. change (MAXFILE * BSIZE) with 274432 in H. unfold m_size. lia. }
  assert (Hlen : Z.of_nat (length (m_data f ++ p)) = m_size f + Z.of_nat (length p)) by (rewrite length_app; unfold m_size; lia).
  destruct (iappend_loop_ok (length p) st (dinode_of_mfile f) (m_data f) p Hi Hs Hp) as (a & st1 & E1 & [Hi1 En1 Ef1 Hs1 He]); [lia|rewrite Hlen; exact Hroom|done|].
  cbn [di_addrs dinode_of_mfile] in He. set (g := mk_mfile (m_type f) a (m_data f ++ p)). rewrite Hlen in Ef1.
  destruct (winode_ok st1 (Z.of_nat k + 1) (dinode_of_mfile g) Hi1 ltac:(lia)) as (st2 & Ew & Hi2 & En2 & Ef2 & (v & EW) & Hino2 & Hother); [by apply (dinode_wf_of (W st1))|].
  pose proof (iblock_sb (Z.of_nat k + 1) ltac:(lia)) as Hib. exists a, st2. fold g. split.
  { unfold Mkfs.iappend. mstep (rinode_ok st (Z.of_nat k + 1) Hi ltac:(lia)). rewrite Hino. cbn [di_size dinode_of_mfile]. rewrite xint_eq, u32_small by done.
    mstep E1. rewrite Hlen, xint_eq, u32_small by (change (MAXFILE * BSIZE) with 274432 in Hmax; lia). rewrite <- Ew. f_equal. unfold Mkfs.set_size, set_addrs, dinode_of_mfile, g.
    cbn. by rewrite <- Hlen. }
  assert (Hold : forall i, 0 <= i < 200 -> ino (W st1) i = ino (W st) i).
  { intros i Hr. pose proof (iblock_sb i Hr). unfold ino. rewrite (ev_meta _ _ _ _ _ He); [done|rewrite is_bmap_sb; lia|rewrite is_data_sb; lia]. }
  assert (Hg : stored (W st2) a (m_data g) /\ forall x, owns (W st2) a x <-> owns (W st1) a x) by (rewrite EW; by apply stored_meta; [lia|]). destruct Hg as [Hg1 Hg2].
  assert (Hh : forall j h, j <> k -> fl !! j = Some h -> stored (W st2) (m_addrs h) (m_data h) /\ (forall x, owns (W st2) (m_addrs h) x <-> owns (W st) (m_addrs h) x) /\
    forall x, owns (W st2) a x -> ~ owns (W st2) (m_addrs h) x).
  { intros j h Hne Hj. destruct (stored_other _ _ _ _ _ _ He (md_stored _ _ Hm j h Hj)) as (H1 & H2 & H3); [by apply (md_disj _ _ Hm k j)|].
    destruct (stored_meta _ _ _ (IBLOCK (Z.of_nat k + 1) sb) v ltac:(lia) H1) as [H4 H5]. rewrite <- EW in H4, H5. split_and!; [done| |].
    - intros x. by rewrite H5.
    - intros x. rewrite Hg2, H5. apply H3. }
  split.
  - done.
  - rewrite length_insert. lia.
  - rewrite (total_insert fl k f g Hk), Ef2, Ef1, (md_free _ _ Hm). unfold g, m_size at 3. cbn [m_data]. rewrite Hlen. unfold m_size. lia.
  - intros j h [(-> & <- & _)|[Hne Hj]]%list_lookup_insert_Some; [done|]. pose proof (lookup_lt_Some _ _ _ Hj). rewrite Hother, Hold by lia. by apply (md_ino _ _ Hm).
  - intros i Hr Hno. assert (i <> Z.of_nat k + 1) by (apply (Hno k g); by apply list_lookup_insert_eq). rewrite Hother, Hold by done. apply (md_none _ _ Hm); [done|].
    intros j h Hj. destruct (decide (j = k)) as [->|]; [done|]. apply (Hno j h). by rewrite list_lookup_insert_ne by done.
  - intros j h [(-> & <- & _)|[Hne Hj]]%list_lookup_insert_Some; [done|]. by apply (Hh j h).
  - intros j1 j2 h1 h2 Hne H1 H2 x. apply list_lookup_insert_Some in H1 as [(<- & <- & _)|[Hn1 H1]], H2 as [(<- & <- & _)|[Hn2 H2]]; [done|..].
    + by apply (Hh j2 h2).
    + intros Ho1 Ho2. by apply (proj2 (proj2 (Hh j1 h1 ltac:(done) H1)) x).
    + rewrite (proj1 (proj2 (Hh j1 h1 ltac:(done) H1))), (proj1 (proj2 (Hh j2 h2 ltac:(done) H2))). by apply (md_disj _ _ Hm j1 j2).
  - intros b Hb. rewrite EW, put_ne by lia. rewrite (ev_meta _ _ _ _ _ He); [by apply (md_low _ _ Hm)|rewrite is_bmap_sb; lia|rewrite is_data_sb; lia].
Qed.

(** ** Files in the order they are added *)

Definition shape (fl : list mfile) : list (Z * list Z) := (fun f => (m_type f, m_data f)) <$> fl.
Definition blocks (sh : list (Z * list Z)) : Z := foldr (fun f s => nb (Z.of_nat (length f.2)) + s) 0 sh.
Lemma total_shape fl : total fl = blocks (shape fl).
Proof. unfold total, blocks, shape, m_size. induction fl as [|f fl IH]; [done|]. cbn. by rewrite IH. Qed.
Lemma blocks_app l1 l2 : blocks (l1 ++ l2) = blocks l1 + blocks l2.
Proof. unfold blocks. induction l1 as [|f l1 IH]; [done|]. cbn [app foldr]. lia. Qed.
Lemma nb_nonneg n : 0 <= n -> 0 <= nb n.
Proof. intros Hn. unfold nb. destruct (12288 <? n); Z.div_mod_to_equations; lia. Qed.
Lemma blocks_nonneg sh : 0 <= blocks sh.
Proof. unfold blocks. induction sh as [|f sh IH]; [done|]. cbn [foldr]. pose proof (nb_nonneg (Z.of_nat (length f.2)) ltac:(lia)). lia. Qed.

(** The image holds files of these types and contents. *)
Definition holds (st : state) (sh : list (Z * list Z)) : Prop := exists fl, made st fl /\ shape fl = sh.

Lemma holds_free st sh : holds st sh -> freeblock st = 46 + blocks sh /\ (length sh < 200)%nat.
Proof. intros (fl & Hm & <-). rewrite <- total_shape. unfold shape. rewrite length_fmap. split; [exact (md_free _ _ Hm)|apply (md_count _ _ Hm)]. Qed.

Lemma ialloc_holds st sh t : holds st sh -> (length sh < 199)%nat -> 0 <= t < 2 ^ 15 -> exists st',
  Mkfs.ialloc t st = Ok (Z.of_nat (length sh) + 1) st' /\ holds st' (sh ++ [(t, [])]).
Proof.
  intros (fl & Hm & <-) Hl Ht. unfold shape in *. rewrite length_fmap in *. destruct (ialloc_ok st fl t Hm Hl Ht) as (st' & E & Hm'). exists st'. split; [done|].
  exists (fl ++ [mk_mfile t (replicate 13 0) []]). split; [done|]. unfold shape. by rewrite fmap_app.
Qed.
Lemma iappend_holds st sh1 sh2 t d p : holds st (sh1 ++ (t, d) :: sh2) -> Forall is_byte p -> Z.of_nat (length (d ++ p)) <= MAXFILE * BSIZE ->
  46 + blocks (sh1 ++ (t, d ++ p) :: sh2) <= 1000 -> exists st',
  Mkfs.iappend (Z.of_nat (length sh1) + 1) p st = Ok tt st' /\ holds st' (sh1 ++ (t, d ++ p) :: sh2).
Proof.
  intros Hh Hp Hmax Hroom. destruct (holds_free _ _ Hh) as [Hf _]. destruct Hh as (fl & Hm & Hsh). rewrite blocks_app in *. unfold blocks at 2 in Hf. unfold blocks at 2 in Hroom. cbn [foldr snd] in Hf, Hroom.
  fold (blocks sh2) in Hf, Hroom. assert (Hk : shape fl !! length sh1 = Some (t, d)) by (by rewrite Hsh, list_lookup_middle).
  unfold shape in Hk. apply list_lookup_fmap_Some in Hk as (f & Ef & Hk). injection Ef as -> ->. rewrite length_app, Nat2Z.inj_add in *. unfold m_size in *.
  destruct (iappend_ok st fl (length sh1) f p Hm Hk Hp) as (a & st' & E & Hm'); [unfold m_size; lia|unfold m_size; lia|]. exists st'. split; [exact E|]. eexists. split; [exact Hm'|].
  unfold shape. rewrite list_fmap_insert. fold (shape fl). rewrite Hsh. cbn [m_type m_data]. rewrite insert_app_r_alt, Nat.sub_diag by done. done.
Qed.

(** Appending in pieces. *)
Lemma iappends_holds chunks : forall st sh1 sh2 t d, holds st (sh1 ++ (t, d) :: sh2) -> Forall (Forall is_byte) chunks ->
  Z.of_nat (length (d ++ concat chunks)) <= MAXFILE * BSIZE -> 46 + blocks (sh1 ++ (t, d ++ concat chunks) :: sh2) <= 1000 -> exists st',
  for_each chunks (Mkfs.iappend (Z.of_nat (length sh1) + 1)) st = Ok tt st' /\ holds st' (sh1 ++ (t, d ++ concat chunks) :: sh2).
Proof.
  induction chunks as [|c chunks IH]; intros st sh1 sh2 t d Hh Hb Hmax Hroom; cbn [for_each concat] in *.
  { rewrite app_nil_r in *. by exists st. }
  apply Forall_cons in Hb as [Hc Hb]. rewrite app_assoc in *. pose proof (length_app (d ++ c) (concat chunks)) as Hl.
  destruct (iappend_holds st sh1 sh2 t d c Hh Hc) as (st1 & E1 & Hh1); [lia| |].
  { revert Hroom. rewrite !blocks_app. unfold blocks at 2 4. cbn [foldr snd]. pose proof (nb_mono (Z.of_nat (length (d ++ c))) (Z.of_nat (length ((d ++ c) ++ concat chunks))) ltac:(lia)). lia. }
  mstep E1. by apply (IH st1 sh1 sh2 t (d ++ c)).
Qed.

(** ** The files of the command line *)

(** The name and the contents a file of the command line gets. *)
Definition hname (h : Mkfs.hostfile) : list Z := Mkfs.strip_underscore (Mkfs.strip_user (Mkfs.arg h)).
Definition hdata (h : Mkfs.hostfile) : list Z := match Mkfs.reads h with Some chunks => concat chunks | None => [] end.
Record hostfile_ok (h : Mkfs.hostfile) : Prop := {
  hf_arg : Forall (fun c => 0 < c < 256) (Mkfs.arg h);
  hf_slash : existsb (Z.eqb SLASH) (Mkfs.strip_user (Mkfs.arg h)) = false;
  hf_reads : exists chunks, Mkfs.reads h = Some chunks /\ Forall (Forall is_byte) chunks;
  hf_size : Z.of_nat (length (hdata h)) <= MAXFILE * BSIZE;
}.

(** The root directory: itself twice, and the files from inode 2 on. *)
Definition dot : dirent := mk_dirent ROOTINO (Mkfs.strcpy_name [Mkfs.DOT]).
Definition dotdot : dirent := mk_dirent ROOTINO (Mkfs.strcpy_name [Mkfs.DOT; Mkfs.DOT]).
Definition file_entries (i : Z) (hs : list Mkfs.hostfile) : list dirent := imap (fun k h => new_dirent (hname h) (i + Z.of_nat k)) hs.
Definition root_entries (hs : list Mkfs.hostfile) : list dirent := dot :: dotdot :: file_entries 2 hs.
Definition dir_bytes (ents : list dirent) : list Z := concat (bytes_of_dirent <$> ents).
Definition final_shape (hs : list Mkfs.hostfile) : list (Z * list Z) := (T_DIR, dir_bytes (root_entries hs)) :: ((fun h => (T_FILE, hdata h)) <$> hs).

Lemma dir_bytes_app l1 l2 : dir_bytes (l1 ++ l2) = dir_bytes l1 ++ dir_bytes l2.
Proof. unfold dir_bytes. by rewrite fmap_app, concat_app. Qed.
Lemma dir_bytes_one e : dir_bytes [e] = bytes_of_dirent e.
Proof. unfold dir_bytes. cbn [fmap list_fmap concat]. apply app_nil_r. Qed.
Lemma root_entries_snoc hs h : root_entries (hs ++ [h]) = root_entries hs ++ [new_dirent (hname h) (2 + Z.of_nat (length hs))].
Proof. unfold root_entries, file_entries. rewrite imap_app. cbn. by rewrite Nat.add_0_r. Qed.
Lemma length_root hs : length (dir_bytes (root_entries hs)) = (32 + 16 * length hs)%nat.
Proof.
  induction hs as [|h hs IH] using rev_ind; [done|]. rewrite root_entries_snoc, dir_bytes_app, dir_bytes_one, !length_app, length_new_dirent, IH. cbn [length]. lia.
Qed.

Lemma new_dirent_are_bytes name i : Forall is_byte name -> Forall is_byte (bytes_of_dirent (new_dirent name i)).
Proof. intros Hn. unfold bytes_of_dirent, new_dirent. apply Forall_app. split; [apply le_bytes_byte|]. cbn [de_name]. by apply strncpy_byte. Qed.
Lemma hname_bytes h : Forall is_byte (Mkfs.arg h) -> Forall is_byte (hname h).
Proof.
  intros Ha. unfold hname, Mkfs.strip_underscore, Mkfs.strip_user. assert (H : forall l : list Z, Forall is_byte l -> Forall is_byte (tl l)) by (intros l Hl; destruct Hl; [constructor|done]).
  repeat case_match; auto using Forall_drop.
Qed.

Lemma add_file_holds st rd fs h : holds st ((T_DIR, rd) :: fs) -> hostfile_ok h -> (length fs < 198)%nat ->
  46 + blocks ((T_DIR, rd ++ bytes_of_dirent (new_dirent (hname h) (2 + Z.of_nat (length fs)))) :: fs ++ [(T_FILE, hdata h)]) <= 1000 ->
  Z.of_nat (length rd) + 16 <= MAXFILE * BSIZE -> exists st',
  Mkfs.add_file 1 h st = Ok tt st' /\ holds st' ((T_DIR, rd ++ bytes_of_dirent (new_dirent (hname h) (2 + Z.of_nat (length fs)))) :: fs ++ [(T_FILE, hdata h)]).
Proof.
  intros Hh [Hag Hsl (chunks & Er & Hcb) Hsz] Hl Hroom Hrd. set (e := bytes_of_dirent (new_dirent (hname h) (2 + Z.of_nat (length fs)))) in *.
  destruct (ialloc_holds st _ T_FILE Hh) as (st1 & E1 & Hh1); [cbn [length]; lia|done|]. cbn [length] in E1. replace (Z.of_nat (S (length fs)) + 1) with (2 + Z.of_nat (length fs)) in E1 by lia.
  assert (He : length e = 16%nat) by apply length_new_dirent. unfold hdata in *. rewrite Er in *.
  destruct (iappend_holds st1 [] (fs ++ [(T_FILE, [])]) T_DIR rd e Hh1) as (st2 & E2 & Hh2); [apply new_dirent_are_bytes, hname_bytes; eapply Forall_impl; [exact Hag|unfold is_byte; lia]|rewrite length_app; lia| |].
  { revert Hroom. cbn [app]. unfold blocks. cbn [foldr]. fold (blocks (fs ++ [(T_FILE, [])])) (blocks (fs ++ [(T_FILE, concat chunks)])). rewrite !blocks_app.
    pose proof (blocks_nonneg [(T_FILE, concat chunks)]). change (blocks [(T_FILE, [])]) with 0. lia. }
  destruct (iappends_holds chunks st2 ((T_DIR, rd ++ e) :: fs) [] T_FILE [] Hh2 Hcb) as (st3 & E3 & Hh3); [done|exact Hroom|]. cbn [length app] in E2, E3.
  exists st3. split; [|exact Hh3]. unfold Mkfs.add_file. rewrite Hsl, Er. mstep E1. unfold Mkfs.add_entry. rewrite xshort_eq. fold (hname h). fold (new_dirent (hname h) (2 + Z.of_nat (length fs))). fold e.
  mstep E2. replace (2 + Z.of_nat (length fs)) with (Z.of_nat (S (length fs)) + 1) by lia. exact E3.
Qed.

Lemma blocks_cons t d sh : blocks ((t, d) :: sh) = nb (Z.of_nat (length d)) + blocks sh.
Proof. done. Qed.

Lemma add_files_holds hs2 : forall hs1 st, holds st (final_shape hs1) -> Forall hostfile_ok hs2 -> (length (hs1 ++ hs2) <= 198)%nat ->
  46 + blocks (final_shape (hs1 ++ hs2)) <= 1000 -> exists st', for_each hs2 (Mkfs.add_file 1) st = Ok tt st' /\ holds st' (final_shape (hs1 ++ hs2)).
Proof.
  induction hs2 as [|h hs2 IH]; intros hs1 st Hh Hok Hl Hroom; cbn [for_each]. { rewrite app_nil_r in *. by exists st. }
  apply Forall_cons in Hok as [Hok1 Hok]. rewrite length_app in Hl. cbn [length] in Hl. assert (Es : forall hs, length ((fun h => (T_FILE, hdata h)) <$> hs) = length hs) by (intros; apply length_fmap).
  destruct (add_file_holds st (dir_bytes (root_entries hs1)) ((fun h => (T_FILE, hdata h)) <$> hs1) h Hh Hok1) as (st1 & E1 & Hh1).
  - rewrite Es. lia.
  - revert Hroom. unfold final_shape. rewrite fmap_app, !blocks_cons, !blocks_app, length_app, length_new_dirent, !length_root, length_app. cbn [length fmap list_fmap]. rewrite !blocks_cons.
    pose proof (blocks_nonneg ((fun h => (T_FILE, hdata h)) <$> hs2)). change (blocks []) with 0.
    pose proof (nb_mono (Z.of_nat (32 + 16 * length hs1 + 16)) (Z.of_nat (32 + 16 * (length hs1 + S (length hs2)))) ltac:(lia)). lia.
  - rewrite length_root. change (MAXFILE * BSIZE) with 274432. lia.
  - mstep E1. rewrite Es in Hh1. assert (Ef : final_shape (hs1 ++ [h]) = (T_DIR, dir_bytes (root_entries hs1) ++ bytes_of_dirent (new_dirent (hname h) (2 + Z.of_nat (length hs1)))) ::
      ((fun h => (T_FILE, hdata h)) <$> hs1) ++ [(T_FILE, hdata h)]) by (unfold final_shape; by rewrite root_entries_snoc, dir_bytes_app, dir_bytes_one, fmap_app).
    rewrite <- Ef in Hh1. rewrite (cons_middle h hs1 hs2) in *. rewrite (app_assoc hs1 [h] hs2) in *. apply (IH (hs1 ++ [h]) st1 Hh1 Hok); [rewrite !length_app; cbn [length]; lia|done].
Qed.

(** ** The whole image *)

Definition root_size (hs : list Mkfs.hostfile) : Z := ((32 + 16 * Z.of_nat (length hs)) / BSIZE + 1) * BSIZE.

(** The disk [V] is a file system with the files [hs]: the super block and an empty
    log, the bitmap of the blocks in use, one inode for the root and one for each
    file, no other inode, and the files' blocks, which are disjoint. *)
Record image_of (V : Z -> list Z) (hs : list Mkfs.hostfile) (fl : list mfile) : Prop := {
  im_block : forall b, is_block (V b);
  im_low : forall b, 0 <= b < 32 -> V b = if decide (b = 1) then splice 0 (Mkfs.sb_bytes sb) zero_block else zero_block;
  im_used : forall x, 0 <= x < FSSIZE -> used V sb x = (x <? Mkfs.nmeta + blocks (final_shape hs));
  im_shape : shape fl = final_shape hs;
  im_ino : forall k f, fl !! k = Some f ->
    ino V (Z.of_nat k + 1) = mk_dinode (m_type f) 0 0 1 (if decide (k = 0%nat) then root_size hs else m_size f) (m_addrs f);
  im_none : forall i, 0 <= i < Mkfs.NINODES -> ~ 1 <= i <= Z.of_nat (length fl) -> di_type (ino V i) = 0;
  im_stored : forall k f, fl !! k = Some f -> stored V (m_addrs f) (m_data f);
  im_disj : forall j k f g, j <> k -> fl !! j = Some f -> fl !! k = Some g -> forall x, owns V (m_addrs f) x -> ~ owns V (m_addrs g) x;
}.
Definition image (V : Z -> list Z) (hs : list Mkfs.hostfile) : Prop := exists fl, image_of V hs fl.

Lemma zero_loop fb n : 0 <= n <= 1000 -> exists st, for_each (seqZ 0 n) (fun i => Mkfs.wsect i zero_block) (Mkfs.mk_state ∅ 0 1 fb) = Ok tt st /\
  Mkfs.nsect st = n /\ freeinode st = 1 /\ freeblock st = fb /\ forall b, Mkfs.sector st b = zero_block.
Proof.
  intros Hn. assert (H : returns (for_each (seqZ 0 n) (fun i => Mkfs.wsect i zero_block)) (Mkfs.mk_state ∅ 0 1 fb) (fun _ st =>
    Mkfs.nsect st = Z.of_nat (length (seqZ 0 n)) /\ freeinode st = 1 /\ freeblock st = fb /\ forall b, Mkfs.sector st b = zero_block)).
  { apply (returns_for_each _ _ (fun l st => Mkfs.nsect st = Z.of_nat (length l) /\ freeinode st = 1 /\ freeblock st = fb /\ forall b, Mkfs.sector st b = zero_block)).
    - split_and!; [done|done|done|]. intros b. unfold Mkfs.sector. cbn. by rewrite lookup_empty.
    - intros l a rest st El (H1 & H2 & H3 & H4). assert (Ha : seqZ 0 n !! length l = Some a) by (rewrite El; by apply list_lookup_middle). apply lookup_seqZ in Ha as [-> Hlt].
      unfold returns, Mkfs.wsect, modifyM. cbn [Mkfs.nsect Mkfs.freeinode Mkfs.freeblock]. rewrite pos_small by lia. rewrite length_app. cbn [length]. split_and!; [lia|done|done|].
      intros b. unfold Mkfs.sector. cbn [Mkfs.sectors]. destruct (decide (b = 0 + Z.of_nat (length l))) as [->|]; [by rewrite lookup_insert_eq|rewrite lookup_insert_ne by done; apply H4]. }
  apply returns_inv in H as (u & st & E & H1 & H2). destruct u. rewrite length_seqZ in H1. exists st. split_and!; [done|lia|apply H2..].
Qed.

Lemma get_zero_block n o : get_at n o zero_block = 0.
Proof. unfold get_at, slice, zero_block. rewrite drop_replicate, take_replicate. apply le_val_zeros. Qed.

(** The empty file system. *)
Lemma formatted st : Mkfs.nsect st = 1000 -> freeinode st = 1 -> freeblock st = 46 -> (forall b, Mkfs.sector st b = zero_block) -> exists st',
  Mkfs.wsect 1 (splice 0 (Mkfs.sb_bytes sb) zero_block) st = Ok tt st' /\ holds st' [].
Proof.
  intros H1 H2 H3 H4. assert (Hi : img st). { split; [done|rewrite H3; done|intros b; rewrite H4; apply zero_block_is_block|intros b _; apply H4]. }
  destruct (wsect_ok st 1 (splice 0 (Mkfs.sb_bytes sb) zero_block) Hi) as (E & Hi' & EW); [lia|lia| |].
  { split; [rewrite length_splice; [apply zero_block_is_block|]; cbn; unfold bsize; lia|]. apply Forall_splice; [|apply zero_block_is_block]. unfold Mkfs.sb_bytes. rewrite !Forall_app. split_and!; apply le_bytes_byte. }
  eexists. split; [exact E|]. exists []. split; [|done]. split; try done.
  - split; [exact H2|cbn; lia].
  - intros i Hr _. pose proof (iblock_sb i Hr). unfold ino. rewrite EW, put_ne, W_ne, H4 by lia. cbn [dinode_at di_type]. by rewrite get_zero_block.
  - intros b Hb. rewrite EW. unfold put. case_decide; [done|]. by rewrite W_ne, H4 by lia.
Qed.

Lemma fix_root_ok st hs : holds st (final_shape hs) -> (length hs <= 198)%nat -> exists st' fl, Mkfs.fix_root 1 st = Ok tt st' /\ img st' /\
  freeblock st' = 46 + blocks (final_shape hs) /\ image_of (W st') hs fl.
Proof.
  intros Hh Hl. destruct (holds_free _ _ Hh) as [Hf _]. destruct Hh as (fl & Hm & Hsh). pose proof (md_img _ _ Hm) as Hi. destruct (md_count _ _ Hm) as [_ Hc].
  destruct fl as [|r fl]; [done|]. pose proof (md_ino _ _ Hm 0%nat r eq_refl) as [_ Hr]. pose proof (md_stored _ _ Hm 0%nat r eq_refl) as Hs. injection Hsh as Ht Hd Hfl.
  assert (Hsz : m_size r = 32 + 16 * Z.of_nat (length hs)) by (unfold m_size; rewrite Hd, length_root; lia).
  assert (Hrs : 0 <= root_size hs <= 4096) by (unfold root_size, BSIZE; Z.div_mod_to_equations; lia).
  set (d := mk_dinode (m_type r) 0 0 1 (root_size hs) (m_addrs r)). assert (Hwf : dinode_wf d).
  { destruct (dinode_wf_of (W st) r Hs ltac:(rewrite Ht; done)) as [A B C D]. split; [exact A|cbn; lia|exact C|exact D]. }
  destruct (winode_ok st 1 d Hi ltac:(lia) Hwf) as (st' & Ew & Hi' & _ & Ef & (v & EW) & Hino & Hother). pose proof (iblock_sb 1 ltac:(lia)) as Hib.
  exists st', (r :: fl). split_and!; [|done|lia|].
  - unfold Mkfs.fix_root. change 1 with (Z.of_nat 0 + 1) at 1. mstep (rinode_ok st (Z.of_nat 0 + 1) Hi ltac:(lia)). rewrite Hr. cbn [di_size dinode_of_mfile].
    rewrite Hsz, !xint_eq, (u32_small (32 + _)) by lia. fold (root_size hs). rewrite !(u32_small (root_size hs)) by lia. exact Ew.
  - assert (Hst : forall k f, (r :: fl) !! k = Some f -> stored (W st') (m_addrs f) (m_data f) /\ forall x, owns (W st') (m_addrs f) x <-> owns (W st) (m_addrs f) x).
    { intros k f Hk. rewrite EW. apply stored_meta; [lia|]. by apply (md_stored _ _ Hm k). }
    split.
    + intros b. by apply W_block.
    + intros b Hb. rewrite EW, put_ne by lia. by apply (md_low _ _ Hm).
    + intros x Hx. rewrite used_W by done. by rewrite Ef, Hf.
    + unfold final_shape, shape. cbn. by rewrite Ht, Hd, <- Hfl.
    + intros k f Hk. pose proof (lookup_lt_Some _ _ _ Hk). destruct k as [|k]; [injection Hk as <-; exact Hino|]. rewrite Hother by lia. by apply (md_ino _ _ Hm).
    + intros i Hr' Hno. change Mkfs.NINODES with 200 in Hr'. rewrite Hother by (cbn [length] in Hno; lia). apply (md_none _ _ Hm); [done|]. intros k f Hk. pose proof (lookup_lt_Some _ _ _ Hk). lia.
    + intros k f Hk. by apply (Hst k).
    + intros j k f g Hne Hj Hk x. rewrite (proj2 (Hst j f Hj)), (proj2 (Hst k g Hk)). by apply (md_disj _ _ Hm j k).
Qed.

Lemma balloc_image st hs fl : img st -> image_of (W st) hs fl -> exists st', Mkfs.balloc (freeblock st) st = Ok tt st' /\ Mkfs.nsect st' = FSSIZE /\ Mkfs.sector st' = W st.
Proof.
  intros Hi Him. pose proof (img_range _ Hi). unfold Mkfs.balloc. change (BSIZE * 8) with 8192. rewrite (proj2 (Z.ltb_lt _ _)) by lia. eexists. split; [reflexivity|].
  change (sb_bmapstart sb) with 45. rewrite pos_small by lia. cbn [Mkfs.nsect]. rewrite (ig_nsect _ Hi). split; [done|]. unfold W. rewrite <- sector_wrote. done.
Qed.

Lemma dots_bytes : Forall is_byte (bytes_of_dirent dot) /\ Forall is_byte (bytes_of_dirent dotdot).
Proof.
  split; (apply Forall_app; split; [apply le_bytes_byte|]; cbn [de_name]; apply Forall_splice; [|apply Forall_replicate; unfold is_byte; lia];
    cbn [app]; repeat (apply Forall_cons_2; [unfold is_byte, Mkfs.DOT; lia|]); apply Forall_nil_2).
Qed.

Lemma main_image fd hs : 0 <= fd -> Forall hostfile_ok hs -> (length hs <= 198)%nat -> Mkfs.nmeta + blocks (final_shape hs) <= FSSIZE ->
  exists st', Mkfs.main (Some fd) hs Mkfs.init = Ok tt st' /\ Mkfs.nsect st' = FSSIZE /\ image (Mkfs.sector st') hs.
Proof.
  intros Hfd Hok Hl Hroom. change Mkfs.nmeta with 46 in Hroom. change FSSIZE with 1000 in Hroom. unfold Mkfs.main. rewrite (proj2 (Z.ltb_ge _ _) Hfd). rewrite bind_modify. cbn [Mkfs.init Mkfs.sectors Mkfs.nsect Mkfs.freeinode].
  destruct (zero_loop Mkfs.nmeta FSSIZE ltac:(done)) as (st0 & E0 & H1 & H2 & H3 & H4). mstep E0. destruct (formatted st0 H1 H2 H3 H4) as (st1 & E1 & Hh1). mstep E1.
  destruct (ialloc_holds st1 [] T_DIR Hh1) as (st2 & E2 & Hh2); [cbn; lia|done|]. cbn [length] in E2. change (Z.of_nat 0 + 1) with 1 in E2. mstep E2. cbn [Z.eqb negb ROOTINO Pos.eqb].
  pose proof dots_bytes as Hdot.
  destruct (iappend_holds st2 [] [] T_DIR [] (bytes_of_dirent dot) Hh2) as (st3 & E3 & Hh3); [apply Hdot|done|done|].
  destruct (iappend_holds st3 [] [] T_DIR (bytes_of_dirent dot) (bytes_of_dirent dotdot) Hh3) as (st4 & E4 & Hh4); [apply Hdot|done|done|].
  unfold Mkfs.add_entry. change (Mkfs.xshort 1) with ROOTINO. fold dot dotdot. change (Z.of_nat (length (A := Z * list Z) []) + 1) with 1 in E3, E4. mstep E3. mstep E4.
  destruct (add_files_holds hs [] st4) as (st5 & E5 & Hh5); [|done|done|exact Hroom|].
  { unfold final_shape, root_entries. cbn [file_entries imap]. change [dot; dotdot] with ([dot] ++ [dotdot]). rewrite dir_bytes_app, !dir_bytes_one. exact Hh4. }
  mstep E5. destruct (fix_root_ok st5 hs Hh5 Hl) as (st6 & fl & E6 & Hi6 & _ & Him). mstep E6. rewrite bind_get. destruct (balloc_image st6 hs fl Hi6 Him) as (st7 & E7 & Hn & EV).
  exists st7. split_and!; [exact E7|done|]. rewrite EV. by exists fl.
Qed.
