(* ===== verification/MkfsBoot.v ===== *)
(** * Booting from the image

    From the image that mkfs wrote, through [binit], [iinit] and [fsinit], to
    [namei] and [readi]: the kernel finds every file by its name and reads back
    its contents, with the buffer cache and the log in between. *)

From stdpp Require Import base list gmap strings.
From Stdlib Require Import ZArith Lia FunctionalExtensionality.
From S2P Require Import Prelude Layout Sleeplock FsFormat Bio BioSpec Tx Store Fs Log LogSpec LogSim LogStore FsAlloc FsFile FsIO FsInode FsWrite FsDir Mkfs MkfsSpec MkfsThms.
Open Scope Z_scope.

Local Abbreviation sb := Mkfs.sb.

(** ** The root directory as the kernel reads it *)

Lemma fbytes_stored V addrs data off n : stored V addrs data -> 0 <= off -> 0 <= n -> off + n <= MAXFILE * BSIZE ->
  fbytes V addrs off n = (fun k => nth (Z.to_nat (off + k)) data 0) <$> seqZ 0 n.
Proof.
  intros Hs Ho Hn Hmax. unfold fbytes. apply list_fmap_ext. intros i k Hk. apply lookup_seqZ in Hk as [-> Hi]. apply (so_bytes _ _ _ Hs). lia.
Qed.
Lemma nth_range (data : list Z) off n : 0 <= off -> off + n <= Z.of_nat (length data) -> 0 <= n ->
  (fun k => nth (Z.to_nat (off + k)) data 0) <$> seqZ 0 n = take (Z.to_nat n) (drop (Z.to_nat off) data).
Proof.
  intros Ho Hl Hn. apply list_eq. intros i. destruct (decide (Z.of_nat i < n)) as [Hi|Hi].
  - rewrite list_lookup_fmap, lookup_seqZ_lt by lia. rewrite lookup_take_lt, lookup_drop by lia. cbn. rewrite Z.add_0_l.
    replace (Z.to_nat (off + Z.of_nat i)) with (Z.to_nat off + i)%nat by lia.
    destruct (lookup_lt_is_Some_2 data (Z.to_nat off + i)) as [x Hx]; [lia|]. by rewrite Hx, (nth_lookup_Some _ _ _ _ Hx).
  - rewrite list_lookup_fmap, lookup_seqZ_ge by lia. symmetry. apply lookup_take_ge. lia.
Qed.

Lemma whole_file V addrs data : stored V addrs data -> fbytes V addrs 0 (Z.of_nat (length data)) = data.
Proof.
  intros Hs. pose proof (so_len _ _ _ Hs). rewrite (fbytes_stored V addrs data) by (done || lia). rewrite nth_range by lia. cbn. rewrite drop_0. apply take_ge. lia.
Qed.

Definition wf_dirent (e : dirent) : Prop := 0 <= de_inum e < 2 ^ 16 /\ length (de_name e) = 14%nat.
Lemma dirent_roundtrip e : wf_dirent e -> dirent_of_bytes (bytes_of_dirent e) = e.
Proof.
  intros [Hi Hl]. destruct e as [i name]. unfold dirent_of_bytes, bytes_of_dirent. cbn [de_inum de_name] in *. f_equal.
  - unfold get_at, slice. cbn [Z.to_nat]. rewrite drop_0, take_app_le by (by rewrite length_le_bytes). rewrite take_ge by (by rewrite length_le_bytes). rewrite le_val_bytes. apply Z.mod_small. done.
  - rewrite drop_app_length' by (by rewrite length_le_bytes). apply take_ge. change (Z.to_nat DIRSIZ) with 14%nat. lia.
Qed.
Lemma length_bytes_of_dirent e : wf_dirent e -> length (bytes_of_dirent e) = 16%nat.
Proof. intros [_ Hl]. unfold bytes_of_dirent. rewrite length_app, length_le_bytes. lia. Qed.
Lemma dir_bytes_lookup ents k e : Forall wf_dirent ents -> ents !! k = Some e -> take 16 (drop (16 * k) (dir_bytes ents)) = bytes_of_dirent e.
Proof.
  intros Hw. revert k. induction Hw as [|x ents Hx Hw IH]; intros k Hk; [done|]. change (dir_bytes (x :: ents)) with (bytes_of_dirent x ++ dir_bytes ents).
  pose proof (length_bytes_of_dirent x Hx) as Hl. destruct k as [|k].
  - injection Hk as ->. rewrite Nat.mul_0_r, drop_0. by rewrite take_app_length' by done.
  - rewrite drop_app_ge by lia. replace (16 * S k - length (bytes_of_dirent x))%nat with (16 * k)%nat by lia. by apply IH.
Qed.
Lemma root_wf hs : Forall wf_dirent (root_entries hs).
Proof.
  apply Forall_cons. split; [by split|]. apply Forall_cons. split; [by split|]. unfold file_entries. apply Forall_lookup. intros k e He. rewrite list_lookup_imap in He.
  apply fmap_Some in He as (h & _ & ->). split; cbn [de_inum de_name new_dirent]; [apply Z.mod_pos_bound; lia|apply length_strncpy].
Qed.

Lemma dents_root V addrs hs n j e : stored V addrs (dir_bytes (root_entries hs)) -> root_entries hs !! j = Some e -> Z.of_nat (length (root_entries hs)) <= n ->
  dents V addrs n !! j = Some e.
Proof.
  intros Hs He Hn. pose proof (lookup_lt_Some _ _ _ He) as Hlt. rewrite lookup_dents by lia. f_equal. unfold dent. pose proof (so_len _ _ _ Hs) as Hl.
  assert (Hlen : length (root_entries hs) = (2 + length hs)%nat) by (unfold root_entries, file_entries; cbn; by rewrite length_imap). rewrite length_root in Hl.
  rewrite (fbytes_stored V addrs _ _ _ Hs), nth_range by (rewrite ?length_root; lia). replace (Z.to_nat (16 * Z.of_nat j)) with (16 * j)%nat by lia. change (Z.to_nat 16) with 16%nat.
  rewrite (dir_bytes_lookup _ j e (root_wf hs) He). apply dirent_roundtrip. by apply (Forall_lookup_1 _ _ _ _ (root_wf hs) He).
Qed.

Lemma cname_nul n : forall e r, cname n (e ++ 0 :: r) = cname n e.
Proof. induction n as [|n IH]; intros e r; [done|]. destruct e as [|c e]; cbn [app cname hd tl]; [done|]. destruct (c =? 0); [done|]. by rewrite IH. Qed.
Lemma cname_take n : forall e, cname n (take n e) = cname n e.
Proof. induction n as [|n IH]; intros e; [done|]. destruct e as [|c e]; [done|]. cbn [take cname hd tl]. destruct (c =? 0); [done|]. by rewrite IH. Qed.
Lemma cname_buf e : cname 14 (name_buf (replicate 14 0) e) = cname 14 e.
Proof.
  unfold name_buf, splice. destruct (Z.leb_spec DIRSIZ (Z.of_nat (length e))) as [Hl|Hl]; change DIRSIZ with 14 in *; rewrite take_0; cbn [app].
  - change (Z.to_nat 14) with 14%nat. rewrite drop_ge by (rewrite length_replicate, length_take; lia). by rewrite app_nil_r, cname_take.
  - rewrite <- app_assoc. apply cname_nul.
Qed.

(** No two files have the same name, and none is called [.] or [..]. *)
Record names_ok (hs : list Mkfs.hostfile) : Prop := {
  nm_uniq : NoDup ((fun h => cname 14 (hname h)) <$> hs);
  nm_some : Forall (fun h => hname h <> [] /\ cname 14 (hname h) <> [Mkfs.DOT] /\ cname 14 (hname h) <> [Mkfs.DOT; Mkfs.DOT]) hs;
}.

Lemma find_root V addrs hs n k h : stored V addrs (dir_bytes (root_entries hs)) -> names_ok hs -> hs !! k = Some h -> Z.of_nat (2 + length hs) <= n -> (length hs <= 198)%nat ->
  list_find (has_name (name_buf (replicate 14 0) (hname h))) (dents V addrs n) = Some ((k + 2)%nat, new_dirent (hname h) (2 + Z.of_nat k)).
Proof.
  intros Hs [Hu Hn] Hk Hlen Hmax. pose proof (lookup_lt_Some _ _ _ Hk) as Hlt. assert (Hl : Z.of_nat (length (root_entries hs)) <= n) by (unfold root_entries, file_entries; cbn [length]; rewrite length_imap; lia).
  assert (Hat : forall j g, hs !! j = Some g -> root_entries hs !! (j + 2)%nat = Some (new_dirent (hname g) (2 + Z.of_nat j))).
  { intros j g Hg. rewrite (Nat.add_comm j 2). change (root_entries hs !! (2 + j)%nat) with (file_entries 2 hs !! j). unfold file_entries. by rewrite list_lookup_imap, Hg. }
  destruct (Forall_lookup_1 _ _ _ _ Hn Hk) as (_ & Hd1 & Hd2). apply list_find_Some. split_and!.
  - apply (dents_root V addrs hs n _ _ Hs); [by apply Hat|done].
  - split; [cbn; unfold u16; rewrite Z.mod_small; lia|]. unfold same_name. rewrite cname_buf. cbn [de_name new_dirent]. change (Z.to_nat DIRSIZ) with 14%nat. apply cname_strncpy.
  - intros j e He Hj. assert (Hj' : (j < length (root_entries hs))%nat) by (unfold root_entries, file_entries; cbn [length]; rewrite length_imap; lia).
    destruct (lookup_lt_is_Some_2 _ _ Hj') as [e' He']. rewrite (dents_root V addrs hs n j e' Hs He' Hl) in He. injection He as <-. unfold has_name, same_name. rewrite cname_buf.
    destruct j as [|[|j]]; [injection He' as <-; intros [_ E]; by apply Hd1|injection He' as <-; intros [_ E]; by apply Hd2|].
    destruct (lookup_lt_is_Some_2 hs j ltac:(lia)) as [g Hg]. pose proof (Hat j g Hg) as Ha. rewrite (Nat.add_comm j 2) in Ha. change (2 + j)%nat with (S (S j)) in Ha. rewrite He' in Ha. injection Ha as ->.
    cbn [de_name new_dirent]. change (Z.to_nat DIRSIZ) with 14%nat. rewrite cname_strncpy. intros [_ E]. assert (j = k); [|lia].
    apply (NoDup_lookup _ j k (cname 14 (hname g)) Hu); rewrite list_lookup_fmap, ?Hg, ?Hk; cbn [fmap option_fmap option_map]; congruence.
Qed.

(** ** Looking up and reading a file *)

Section Kernel.
Context {S : Type} `{!TxOps S} `{!TxGhost S} `{!TxLaws S}.
Local Abbreviation fstate := (@fstate S).
Local Abbreviation V f := (view (fstore f)).
Context (U : Z -> list Z) (hs : list Mkfs.hostfile) (fl : list mfile) (Him : image_of U hs fl) (Hmax : (length hs <= 198)%nat).

(** The kernel's file system shows the image, outside the log. *)
Record on_image (f : fstate) : Prop := {
  oi_ok : fs_ok f [];
  oi_bud : budget f [] 0;
  oi_sb : fsb f = sb;
  oi_dev : sdev (fstore f) = ROOTDEV;
  oi_view : forall b, 32 <= b -> V f b = U b;
}.

Lemma on_image_upd f ip g : on_image f -> on_image (upd_i ip g f).
Proof. intros [? ? ? ? ?]. split; try done; [by apply fs_ok_upd|by apply budget_upd]. Qed.
Lemma on_image_same f f' : on_image f -> fs_ok f' [] -> budget f' [] 0 -> ext f f' -> (forall x, V f' x = V f x) -> on_image f'.
Proof.
  intros [? ? Hsb Hd Hv] Hok Hb [Hk He _ _] Hx. split; [done|done|congruence|by rewrite (kp_dev _ _ Hk)|]. intros b Hge. rewrite Hx. by apply Hv.
Qed.
Lemma on_image_step f f' : on_image f -> stepped f f' [] (V f) [] 0 -> on_image f'.
Proof.
  intros Hi Hs. pose proof (oi_ok _ Hi) as Hok. destruct Hs as [Hinv Hext Htab Hview Hbud]. apply (on_image_same f); try done. by apply (fs_ok_same f).
Qed.

Lemma length_fl : length fl = (1 + length hs)%nat.
Proof. pose proof (im_shape _ _ _ Him) as E. apply (f_equal length) in E. unfold shape, final_shape in E. cbn [length] in E. by rewrite !length_fmap in E. Qed.
Lemma file_at k m : fl !! k = Some m -> match k with O => m_type m = T_DIR /\ m_data m = dir_bytes (root_entries hs) | Datatypes.S j => exists h, hs !! j = Some h /\ m_type m = T_FILE /\ m_data m = hdata h end.
Proof.
  intros Hk. assert (E : final_shape hs !! k = Some (m_type m, m_data m)) by (rewrite <- (im_shape _ _ _ Him); unfold shape; by rewrite list_lookup_fmap, Hk).
  destruct k as [|j]; [by injection E|]. change (final_shape hs !! Datatypes.S j) with (((fun h => (T_FILE, hdata h)) <$> hs) !! j) in E. apply list_lookup_fmap_Some in E as (h & E & Hh). exists h. by injection E.
Qed.
Lemma file_some j h : hs !! j = Some h -> exists m, fl !! Datatypes.S j = Some m /\ m_type m = T_FILE /\ m_data m = hdata h.
Proof.
  intros Hj. pose proof (lookup_lt_Some _ _ _ Hj). destruct (lookup_lt_is_Some_2 fl (Datatypes.S j)) as [m Hm]; [rewrite length_fl; lia|]. exists m. split; [done|].
  destruct (file_at _ _ Hm) as (h' & Hh' & ?). by simplify_eq.
Qed.

Lemma stored_image f k m : on_image f -> fl !! k = Some m -> stored (V f) (m_addrs m) (m_data m).
Proof.
  intros Hi Hk. pose proof (im_stored _ _ _ Him k m Hk) as Hs. apply (stored_agree U (V f) _ _ Hs). intros x Hx. destruct (fk_own _ _ _ (so_ok _ _ _ Hs) x Hx) as [Hd Hu].
  rewrite is_data_sb in Hd. split; [apply Hi; lia|]. rewrite <- Hu. unfold used. f_equal. apply (oi_view _ Hi). rewrite (bblock_eq _ mkfs_layout) by (change (sb_size sb) with 1000; lia).
  change BPB with 8192. change (sb_bmapstart sb) with 45. rewrite Z.div_small by lia. lia.
Qed.

Definition disk_size (k : nat) (m : mfile) : Z := if decide (k = 0%nat) then root_size hs else m_size m.
Definition loaded (pid : Z) (k : nat) (m : mfile) (i : inode) : inode :=
  set_i_lock (mk_sleeplock 1 pid) (set_i_valid 1 (load_dinode (mk_dinode (m_type m) 0 0 1 (disk_size k m) (m_addrs m)) i)).

(** [ilock] reads the inode. *)
Lemma ilock_image f ip k m i : on_image f -> fl !! k = Some m -> itable f !! ip = Some i -> i_dev i = ROOTDEV -> i_inum i = Z.of_nat k + 1 -> 1 <= i_ref i ->
  is_free (i_lock i) -> i_valid i = 0 -> exists f', ilock ip f = Ok tt f' /\ on_image f' /\ fpid f' = fpid f /\ itable f' = <[ip := loaded (fpid f) k m i]> (itable f).
Proof.
  intros Hi Hk Hip Hdev Hin Href Hfree Hval. pose proof (lookup_lt_Some _ _ _ Hk) as Hlt. rewrite length_fl in Hlt. assert (Eat : inode_at f ip = i) by (unfold inode_at; by apply nth_lookup_Some).
  assert (Hr : inode_ref f ip). { split; [by eapply lookup_lt_Some|rewrite Eat, Hdev; symmetry; apply Hi|]. rewrite Eat, Hin, (oi_sb _ Hi). change (sb_ninodes sb) with 200. lia. }
  pose proof (ilock_ok f ip [] 0 (oi_ok _ Hi) (oi_bud _ Hi) Hr) as H. rewrite Eat in H. specialize (H Href Hfree). cbn zeta in H. rewrite Hval in H. cbn [Z.eqb andb] in H.
  assert (Ed : dinode_at (ioff (i_inum i)) (V f (inode_block f ip)) = mk_dinode (m_type m) 0 0 1 (disk_size k m) (m_addrs m)).
  { unfold inode_block, disk_size. rewrite Eat, Hin, (oi_sb _ Hi), (oi_view _ Hi) by (pose proof (iblock_sb (Z.of_nat k + 1) ltac:(lia)); lia). apply (im_ino _ _ _ Him k m Hk). }
  rewrite Ed in H. cbn [di_type] in H. assert (Ht : m_type m =? 0 = false).
  { pose proof (file_at k m Hk) as Hf. destruct k; [destruct Hf as [-> _]|destruct Hf as (? & _ & -> & _)]; done. }
  rewrite Ht in H. destruct H as (f' & E & Hok & Hb & He & Hv & Ht'). exists f'. split_and!; [done|by apply (on_image_same f)|apply He|exact Ht'].
Qed.

(** A locked file may be read. *)
Lemma rcur_image f ip k m i pid : on_image f -> fl !! k = Some m -> itable f !! ip = Some (loaded pid k m i) -> i_dev i = ROOTDEV ->
  (k = 0%nat -> (2 + Z.of_nat (length hs)) mod 64 <> 0) -> rcur f ip [] 0 (disk_size k m).
Proof.
  intros Hi Hk Hip Hdev Hfull. assert (Eat : inode_at f ip = loaded pid k m i) by (unfold inode_at; by apply nth_lookup_Some). pose proof (stored_image f k m Hi Hk) as Hs.
  pose proof (so_len _ _ _ Hs) as Hl. change (MAXFILE * BSIZE) with 274432 in Hl. split.
  - apply Hi.
  - rewrite Eat. cbn. by rewrite Hdev, (oi_dev _ Hi).
  - rewrite Eat, (oi_sb _ Hi). apply Hs.
  - apply Hi.
  - change (MAXFILE * BSIZE) with 274432. unfold disk_size, m_size. case_decide; [unfold root_size, BSIZE; Z.div_mod_to_equations; lia|lia].
  - intros n Hn Hlt. rewrite Eat. cbn [i_addrs loaded set_i_lock set_i_valid load_dinode di_addrs]. unfold disk_size in Hlt.
    assert (Hlt' : n * BSIZE < Z.of_nat (length (m_data m))).
    { revert Hlt. case_decide as E; [|done]. subst k. destruct (file_at _ _ Hk) as [_ ->]. rewrite length_root. specialize (Hfull eq_refl). unfold root_size, BSIZE. Z.div_mod_to_equations. lia. }
    apply (so_full _ _ _ Hs); [|done]. split; [done|]. change MAXFILE with 268. unfold BSIZE in *. lia.
Qed.

(** A new entry of the inode table. *)
Definition new_inode (inum : Z) : inode := mk_inode ROOTDEV inum 1 (mk_sleeplock 0 0) 0 0 0 0 0 0 (replicate 13 0).
Lemma iget_scan_empty dev inum n : forall k e, iget_scan dev inum (replicate n inode0) k (Some e) = inr (Some e).
Proof. induction n as [|n IH]; intros k e; [done|]. cbn [replicate iget_scan]. change (0 <? i_ref inode0) with false. cbn [andb]. apply IH. Qed.
Lemma iget_empty (f : fstate) n : itable f = replicate (Datatypes.S n) inode0 ->
  iget ROOTDEV ROOTINO f = Ok 0%nat (upd_i 0 (fun _ => new_inode ROOTINO) f) /\ itable (upd_i 0 (fun _ => new_inode ROOTINO) f) = new_inode ROOTINO :: replicate n inode0.
Proof.
  intros Ht. cbn [replicate] in Ht. unfold upd_i. rewrite Ht. split; [|done]. unfold iget. rewrite bind_get, Ht. cbn [iget_scan]. change (0 <? i_ref inode0) with false. change (i_ref inode0 =? 0) with true.
  cbn [andb]. rewrite iget_scan_empty. unfold seti. rewrite bind_modify. unfold retM, upd_i. by rewrite Ht.
Qed.
Lemma iget_second (f : fstate) r n inum : itable f = r :: replicate (Datatypes.S n) inode0 -> i_ref r = 1 -> i_inum r <> inum ->
  iget ROOTDEV inum f = Ok 1%nat (upd_i 1 (fun _ => new_inode inum) f) /\ itable (upd_i 1 (fun _ => new_inode inum) f) = r :: new_inode inum :: replicate n inode0.
Proof.
  intros Ht Hr Hne. cbn [replicate] in Ht. unfold upd_i. rewrite Ht. split; [|done]. unfold iget. rewrite bind_get, Ht. cbn [iget_scan]. rewrite (proj2 (Z.eqb_neq _ _) Hne), andb_false_r, Hr.
  change (0 <? i_ref inode0) with false. change (i_ref inode0 =? 0) with true. cbn [andb Z.eqb]. rewrite iget_scan_empty. unfold seti. rewrite bind_modify. unfold retM, upd_i. by rewrite Ht.
Qed.

Lemma elements_name e : e <> [] -> existsb (Z.eqb SLASH) e = false -> elements (SLASH :: e) = [e].
Proof.
  intros Hne Hs. rewrite elements_slash. assert (E : split_slash e = [e]).
  { clear Hne. induction e as [|c e IH]; [done|]. cbn [existsb] in Hs. apply orb_false_iff in Hs as [Hc Hs]. cbn [split_slash]. by rewrite Z.eqb_sym, Hc, (IH Hs). }
  unfold elements. rewrite E, filter_cons_True, filter_nil by done. done.
Qed.

(** Unlocking and dropping an inode that has links. *)
Lemma iunlockput_linked (f : fstate) ip i : itable f !! ip = Some i -> i_lock i = mk_sleeplock 1 (fpid f) -> i_ref i = 1 -> i_nlink i = 1 -> exists f',
  iunlockput ip f = Ok tt f' /\ f' = upd_i ip (fun i => set_i_ref (i_ref i - 1) i) (upd_i ip (set_i_lock (mk_sleeplock 0 0)) f).
Proof.
  intros Hip Hl Hr Hn. pose proof (lookup_lt_Some _ _ _ Hip) as Hlt. assert (Eat : inode_at f ip = i) by (unfold inode_at; by apply nth_lookup_Some).
  eexists. split; [|reflexivity]. unfold iunlockput. set (f1 := upd_i ip (set_i_lock (mk_sleeplock 0 0)) f). assert (E1 : iunlock ip f = Ok tt f1).
  { unfold iunlock, geti. rewrite !bind_get, Eat, Hl, Hr. unfold holdingsleep. cbn [locked lk_pid Z.eqb negb andb]. rewrite Z.eqb_refl. done. }
  mstep E1. unfold iput, geti. rewrite bind_get. assert (Eat1 : inode_at f1 ip = set_i_lock (mk_sleeplock 0 0) i) by (unfold f1; rewrite inode_at_upd, decide_True, Eat by done; done).
  rewrite Eat1. unfold id. cbn [i_nlink set_i_lock]. rewrite Hn, andb_false_r. rewrite bind_ret. done.
Qed.

Lemma namei_image (f : fstate) j h cwd : on_image f -> itable f = replicate 50 inode0 -> names_ok hs -> hs !! j = Some h -> existsb (Z.eqb SLASH) (hname h) = false ->
  (2 + Z.of_nat (length hs)) mod 64 <> 0 -> exists f', namei (SLASH :: hname h) cwd f = Ok (Some 1%nat) f' /\ on_image f' /\ itable f' !! 1%nat = Some (new_inode (2 + Z.of_nat j)).
Proof.
  intros Hi Ht Hnm Hj Hsl Hfull. pose proof (lookup_lt_Some _ _ _ Hj) as Hlt. destruct (Forall_lookup_1 _ _ _ _ (nm_some _ Hnm) Hj) as [Hne _].
  destruct (iget_empty f 49 Ht) as [E1 Ht1]. set (f1 := upd_i 0 _ f) in *. assert (Hi1 : on_image f1) by (by apply on_image_upd). set (r := new_inode ROOTINO) in *.
  destruct (lookup_lt_is_Some_2 fl 0) as [m Hm]; [rewrite length_fl; lia|]. destruct (file_at _ _ Hm) as [Hty Hda].
  destruct (ilock_image f1 0 0 m r Hi1 Hm) as (f2 & E2 & Hi2 & Ep2 & Ht2); [by rewrite Ht1|done|done|done|done|done|]. rewrite Ht1 in Ht2. change (<[0%nat := ?x]> (r :: ?l)) with (x :: l) in Ht2.
  set (r2 := loaded (fpid f1) 0 m r) in *. assert (Eat2 : inode_at f2 0 = r2) by (unfold inode_at; by rewrite Ht2).
  assert (Hdir : dir_ok f2 0 [] 0 (root_size hs / 16)).
  { split; rewrite ?Eat2; [apply (rcur_image f2 0 0 m r (fpid f1) Hi2 Hm); [by rewrite Ht2|done|done]|exact Hty|]. change (i_size r2) with (root_size hs). unfold root_size, BSIZE. Z.div_mod_to_equations. lia. }
  pose proof (dirlookup_ok f2 0 [] 0 _ (name_buf (replicate 14 0) (hname h)) Hdir) as Hd. rewrite Eat2 in Hd. change (i_addrs r2) with (m_addrs m) in Hd. change (i_dev r2) with ROOTDEV in Hd.
  pose proof (stored_image f2 0 m Hi2 Hm) as Hs. rewrite Hda in Hs.
  rewrite (find_root _ _ hs _ j h Hs Hnm Hj) in Hd by (try done; unfold root_size, BSIZE; Z.div_mod_to_equations; lia). destruct Hd as (f3 & Hst & E3).
  pose proof (on_image_step f2 f3 Hi2 Hst) as Hi3. pose proof (sp_tab _ _ _ _ _ _ Hst) as Ht3. rewrite Ht2 in Ht3. assert (Ep3 : fpid f3 = fpid f1) by (rewrite (ext_pid _ _ (sp_ext _ _ _ _ _ _ Hst)); done).
  assert (Ein : de_inum (new_dirent (hname h) (2 + Z.of_nat j)) = 2 + Z.of_nat j) by (cbn; apply Z.mod_small; lia). rewrite Ein in E3.
  destruct (iget_second f3 r2 48 (2 + Z.of_nat j) Ht3) as [E4 Ht4]; [done|change (i_inum r2) with 1; lia|]. set (f4 := upd_i 1 _ f3) in *. rewrite (bindM_ok _ _ _ _ _ E4) in E3.
  assert (Hi4 : on_image f4) by (by apply on_image_upd). destruct (iunlockput_linked f4 0 r2) as (f5 & E5 & Ef5); [by rewrite Ht4|cbn; by rewrite Ep3|done|done|].
  exists f5. split_and!; [|rewrite Ef5; by do 2 apply on_image_upd|rewrite Ef5; unfold upd_i; cbn [itable]; by rewrite Ht4].
  unfold namei, namex. change (hd 0 (SLASH :: hname h) =? SLASH) with true. rewrite bind_assoc. mstep E1. unfold bindM at 1. rewrite namex_loop_resolve by lia.
  rewrite elements_name by done. cbn [resolve]. mstep E2. unfold geti. rewrite bind_get, Eat2. change (i_type r2) with (m_type m). rewrite Hty. cbn [negb andb T_DIR Z.eqb Pos.eqb].
  change (Z.to_nat DIRSIZ) with 14%nat. rewrite (bindM_ok _ _ _ _ _ E3). by mstep E5.
Qed.

Lemma read_image (f : fstate) j h : on_image f -> hs !! j = Some h -> itable f !! 1%nat = Some (new_inode (2 + Z.of_nat j)) ->
  let n := Z.of_nat (length (hdata h)) in
  exists f1 f2, ilock 1 f = Ok tt f1 /\ i_size (inode_at f1 1) = n /\ readi local_copyout 1 0 0 n (f1, replicate (Z.to_nat n) 0) = Ok n (f2, hdata h).
Proof.
  intros Hi Hj Ht n. destruct (file_some j h Hj) as (m & Hm & Hty & Hda). set (i := new_inode (2 + Z.of_nat j)) in *.
  destruct (ilock_image f 1 (Datatypes.S j) m i Hi Hm Ht) as (f1 & E1 & Hi1 & _ & Ht1); [done|cbn; lia|done|done|done|].
  pose proof (lookup_lt_Some _ _ _ Ht) as Hlt. assert (Ht1' : itable f1 !! 1%nat = Some (loaded (fpid f) (Datatypes.S j) m i)) by (by rewrite Ht1, list_lookup_insert_eq).
  assert (Eat : inode_at f1 1 = loaded (fpid f) (Datatypes.S j) m i) by (unfold inode_at; by apply nth_lookup_Some).
  assert (Hsz : disk_size (Datatypes.S j) m = n) by (unfold disk_size, m_size; by rewrite decide_False, Hda by done).
  pose proof (rcur_image f1 1 (Datatypes.S j) m i (fpid f) Hi1 Hm Ht1' eq_refl ltac:(done)) as Hrc. pose proof (rc_len _ _ _ _ _ Hrc) as Hlen. rewrite Hsz in *. change (MAXFILE * BSIZE) with 274432 in Hlen.
  assert (Esz : i_size (inode_at f1 1) = n) by (rewrite Eat; exact Hsz). rewrite <- Esz in Hrc.
  destruct (readi_ok local_copyout (filled n) 0 n (fun b1 b2 => local_copyout_filled n b1 b2 ltac:(lia)) f1 1 [] 0 0 n Hrc) as (f2 & E2 & _); [lia..|]. rewrite Esz in E2.
  exists f1, f2. split_and!; [done|done|]. unfold read_len in E2. rewrite decide_False, Z.sub_0_r, Z.min_id in E2 by lia. unfold filled in E2 at 1. cbn [app length] in E2. rewrite drop_0 in E2. rewrite E2. do 2 f_equal.
  rewrite filled_full by apply length_fbytes. rewrite Eat. change (i_addrs (loaded (fpid f) (Datatypes.S j) m i)) with (m_addrs m). unfold n. rewrite <- Hda. apply whole_file. by apply (stored_image f1 (Datatypes.S j)).
Qed.
End Kernel.

(** ** Booting *)

(** Zeroed kernel memory, with the image on the disk. *)
Definition fs_bss (dk : disk) (pid : Z) : fstate (S := lstate) := mk_fs (bss dk pid) (mk_superblock 0 0 0 0 0 0 0 0) (replicate (Z.to_nat NINODE) inode0) pid.
(** What [main] and the first process do to it: [binit], [iinit], [fsinit]. *)
Definition fs_boot : M (fstate (S := lstate)) unit :=
  do! St (B binit) in
  do! iinit in
  fsinit ROOTDEV.

Lemma iinit_ok (f : fstate (S := lstate)) : itable f = replicate 50 inode0 -> iinit f = Ok tt f.
Proof. intros Ht. destruct f as [st s tab pid]. cbn [itable] in Ht. subst tab. reflexivity. Qed.
Lemma sb_roundtrip : sb_of_bytes (splice 0 (Mkfs.sb_bytes sb) zero_block) = sb.
Proof. reflexivity. Qed.

Lemma St_run {A} (m : M lstate A) (f : fstate (S := lstate)) a s : m (fstore f) = Ok a s -> St m f = Ok a (mk_fs s (fsb f) (itable f) (fpid f)).
Proof. apply St_ok. Qed.
Lemma B_run {A} (m : M bio A) b l a b' : m b = Ok a b' -> B m (mk_lstate b l) = Ok a (mk_lstate b' l).
Proof. intros H. by apply (B_ok m (mk_lstate b l)). Qed.

Lemma readsb_ok (s1 : bio) l sb0 tab pid : tx s1 ROOTDEV [] [] [] -> exists s2,
  readsb ROOTDEV (mk_fs (mk_lstate s1 l) sb0 tab pid) = Ok tt (mk_fs (mk_lstate s2 l) (sb_of_bytes (dread (dsk s1) 1)) tab pid) /\ tx s2 ROOTDEV [] [] [] /\ dsk s2 = dsk s1.
Proof.
  intros Ht. destruct (tx_open ROOTDEV [] s1 [] [] 1 Ht (not_elem_of_nil _) (not_elem_of_nil _)) as (i & s2 & Eb & Ht2 & Hv & Hd & _); [right; unfold nbuf, NBUF, MAXOPBLOCKS; simpl; lia|].
  assert (Hin : (i, 1) ∈ [(i, 1)]) by apply list_elem_of_here. pose proof (tx_data_view _ _ _ _ _ _ _ Ht2 Hin) as Hdata.
  assert (Hview : bview s2 ROOTDEV 1 = dread (dsk s1) 1) by (rewrite Hv; apply (tx_unlogged ROOTDEV [] s1 [] []); [done|apply not_elem_of_nil..]).
  destruct (tx_close ROOTDEV [] s2 [] [] i 1 Ht2) as (s3 & Er & Ht3 & Hd3 & _); [left; by rewrite Hview, Hd|].
  exists s3. split_and!; [|done|congruence]. unfold readsb.
  rewrite (bindM_ok _ _ _ _ _ (St_run _ (mk_fs (mk_lstate s1 l) sb0 tab pid) _ _ (B_run _ _ l _ _ Eb))). cbn [fsb itable fpid].
  rewrite (bindM_ok _ _ _ _ _ (St_run _ (mk_fs (mk_lstate s2 l) sb0 tab pid) _ _ (B_run (getf i data) s2 l _ _ eq_refl))). cbn [fsb itable fpid].
  rewrite bind_modify. cbn [fstore itable fpid]. rewrite Hdata, Hview. exact (St_run _ (mk_fs (mk_lstate s2 l) (sb_of_bytes (dread (dsk s1) 1)) tab pid) _ _ (B_run _ _ l _ _ Er)).
Qed.

Lemma boot_image dk pid U hs fl : image_of U hs fl -> (forall b, dread dk b = U b) ->
  exists f, fs_boot (fs_bss dk pid) = Ok tt f /\ on_image U f /\ itable f = replicate 50 inode0.
Proof.
  intros Him HU. assert (Hblk : forall b, is_block (dread dk b)) by (intros b; rewrite HU; apply (im_block _ _ _ Him)).
  destruct (binit_tx ROOTDEV dk pid ltac:(done) Hblk) as (s1 & Eb & Ht1 & Hd1). set (l0 := lg (bss dk pid)).
  destruct (readsb_ok s1 l0 (mk_superblock 0 0 0 0 0 0 0 0) (replicate (Z.to_nat NINODE) inode0) pid Ht1) as (s2 & Es & Ht2 & Hd2).
  rewrite Hd1, HU, (im_low _ _ _ Him 1 ltac:(lia)), decide_True, sb_roundtrip in Es by done.
  assert (Hh : dread (dsk s2) 2 = zero_block) by (rewrite Hd2, Hd1, HU, (im_low _ _ _ Him) by lia; by rewrite decide_False).
  assert (Hn : hdr_n (dread (dsk s2) 2) = 0) by (rewrite Hh; unfold hdr_n; by rewrite get32_zero_block).
  assert (Hbt : bootable (sb_logstart sb) (sb_nlog sb) (dsk s2)) by (split; [by apply log_disk_idle|by rewrite Hd2, Hd1]).
  assert (Hll : log_layout ROOTDEV sb) by (split; rewrite ?mkfs_sb_eq; cbn; unfold LOGSIZE, MAXOPBLOCKS; (done || lia)).
  destruct (initlog_ok ROOTDEV sb s2 l0 Hll Hbt Ht2) as (s3 & h0 & Ei & _ & _ & (L1 & L2 & L3) & Ln & Hsim); [done|done|apply length_replicate|].
  exists (mk_fs s3 sb (replicate (Z.to_nat NINODE) inode0) pid). split_and!; [| |done].
  - unfold fs_boot. rewrite (bindM_ok _ _ _ _ _ (St_run _ (fs_bss dk pid) _ _ (B_run _ _ l0 _ _ Eb))). cbn [fs_bss fsb itable fpid].
    rewrite (bindM_ok _ _ _ _ _ (iinit_ok (mk_fs _ _ _ _) eq_refl)). unfold fsinit. rewrite (bindM_ok _ _ _ _ _ Es). rewrite bind_get. cbn [fsb]. change (negb (sb_magic sb =? FSMAGIC)) with false. cbv iota.
    exact (St_run _ (mk_fs (mk_lstate s2 l0) sb _ pid) _ _ Ei).
  - assert (Hv : forall b, 32 <= b -> view s3 b = U b).
    { intros b Hb. cbn [view log_ghost]. rewrite (sm_view _ _ Hsim) by (unfold in_log; rewrite L1, L2; rewrite mkfs_sb_eq; cbn; lia). cbn [fresh a_view]. unfold recovered, log_dest.
      rewrite (Hn : hdr_n (dread (dsk s2) (sb_logstart sb)) = 0). transitivity (dread (dsk s2) b); [reflexivity|]. rewrite Hd2, Hd1. apply HU. }
    assert (Hu : forall x, 0 <= x < 1000 -> used (view s3) sb x = (x <? Mkfs.nmeta + blocks (final_shape hs))).
    { intros x Hx. rewrite <- (im_used _ _ _ Him x Hx). unfold used. f_equal. apply Hv. rewrite (bblock_eq _ mkfs_layout) by exact Hx. change BPB with 8192. change (sb_bmapstart sb) with 45. rewrite Z.div_small by lia. lia. }
    pose proof (blocks_nonneg (final_shape hs)) as Hbn. split; cbn [fstore fsb].
    + split; cbn [fstore fsb]; [apply Hsim|apply mkfs_layout|..].
      * intros b Hb. cbn [shome log_ghost]. unfold home. rewrite L1, L2. rewrite mkfs_sb_eq in *. cbn in *. lia.
      * intros b Hb. change (data_start sb) with 46 in Hb. rewrite Hu by lia. change Mkfs.nmeta with 46. lia.
      * by intros b ?%not_elem_of_nil.
    + split; cbn [fstore].
      * cbn [logged log_ghost]. unfold lh_list. rewrite Ln. cbn. done.
      * intros Htx. exfalso. apply Htx. cbn [fstore]. change (scap s3) with (if 1 <=? outstanding (lg s3) then Z.to_nat (Z.min LOGSIZE (size (lg s3) - 1)) else 0%nat). rewrite (proj1 (sm_out _ _ Hsim)). done.
      * cbn [sbufs log_ghost length]. unfold nbuf, NBUF, MAXOPBLOCKS. simpl. lia.
    + done.
    + exact L3.
    + exact Hv.
Qed.

Lemma hname_slash h : hostfile_ok h -> existsb (Z.eqb SLASH) (hname h) = false.
Proof.
  intros Hh. pose proof (hf_slash _ Hh) as Hs. unfold hname, Mkfs.strip_underscore. destruct (hd 0 (Mkfs.strip_user (Mkfs.arg h)) =? Mkfs.UNDERSCORE); [|done].
  destruct (Mkfs.strip_user (Mkfs.arg h)) as [|c e]; [done|]. cbn [existsb] in Hs. by apply orb_false_iff in Hs as [_ ?].
Qed.

(** The image as a disk. *)
Definition disk_of (st : Mkfs.state) : disk := mk_disk (Mkfs.sectors st) [].

(** C7: the image mkfs makes is a file system, and the kernel that boots from it
    has the files.  When the files can be read, have different names and fit
    (at most 198 of them, none larger than [MAXFILE] blocks, all together within
    [FSSIZE]), [main] returns with an image of exactly [FSSIZE] sectors that holds
    the super block, an empty log, the bitmap of the blocks in use, one inode for
    the root and for each file and no other, and disjoint blocks with the files'
    bytes, however the host's [read] cuts them.  Booting from it ([binit],
    [iinit], [fsinit] with the log's recovery) returns, and then, for every file,
    [namei] of its name finds its inode, which [ilock] locks with the file's size,
    and [readi] reads exactly the file's bytes.  (The number of directory entries
    must not be a multiple of 64: the directory's last block is missing then.) *)
Theorem mkfs_boots fd hs pid : 0 <= fd -> Forall hostfile_ok hs -> names_ok hs -> (length hs <= 198)%nat ->
  Mkfs.nmeta + blocks (final_shape hs) <= FSSIZE -> (2 + Z.of_nat (length hs)) mod 64 <> 0 ->
  exists st, Mkfs.main (Some fd) hs Mkfs.init = Ok tt st /\ Mkfs.nsect st = FSSIZE /\ image (Mkfs.sector st) hs /\
    exists f, fs_boot (fs_bss (disk_of st) pid) = Ok tt f /\
      forall k h cwd, hs !! k = Some h -> let n := Z.of_nat (length (hdata h)) in exists ip f1 f2 f3,
        namei (SLASH :: hname h) cwd f = Ok (Some ip) f1 /\ i_inum (inode_at f1 ip) = 2 + Z.of_nat k /\
        ilock ip f1 = Ok tt f2 /\ i_size (inode_at f2 ip) = n /\
        readi local_copyout ip 0 0 n (f2, replicate (Z.to_nat n) 0) = Ok n (f3, hdata h).
Proof.
  intros Hfd Hok Hnm Hl Hroom H64. destruct (main_image fd hs Hfd Hok Hl Hroom) as (st & E & Hn & Him). exists st. split_and!; [done|done|done|]. destruct Him as [fl Him].
  destruct (boot_image (disk_of st) pid _ hs fl Him ltac:(done)) as (f & Eb & Hi & Ht). exists f. split; [done|]. intros k h cwd Hk n. pose proof (Forall_lookup_1 _ _ _ _ Hok Hk) as Hh.
  destruct (namei_image _ hs fl Him Hl f k h cwd Hi Ht Hnm Hk (hname_slash h Hh) H64) as (f1 & E1 & Hi1 & Ht1).
  destruct (read_image _ hs fl Him Hl f1 k h Hi1 Hk Ht1) as (f2 & f3 & E2 & Hs & E3). exists 1%nat, f1, f2, f3. split_and!; [exact E1| |exact E2|exact Hs|exact E3]. unfold inode_at. by rewrite (nth_lookup_Some _ _ _ _ Ht1).
Qed.

(** [user/_cat], read in two pieces, and [README]. *)
Definition two_files : list Mkfs.hostfile :=
  [Mkfs.mk_hostfile [117; 115; 101; 114; 47; 95; 99; 97; 116] (Some [[127; 69]; [76; 70; 2]]); Mkfs.mk_hostfile [82; 69; 65; 68; 77; 69] (Some [[120]])].
Lemma mkfs_boots_witness : exists st f f1 f2 f3 ip, Mkfs.main (Some 3) two_files Mkfs.init = Ok tt st /\ fs_boot (fs_bss (disk_of st) 1) = Ok tt f /\
  namei [47; 99; 97; 116] 0 f = Ok (Some ip) f1 /\ ilock ip f1 = Ok tt f2 /\ readi local_copyout ip 0 0 5 (f2, replicate 5 0) = Ok 5 (f3, [127; 69; 76; 70; 2]).
Proof.
  destruct (mkfs_boots 3 two_files 1 ltac:(lia)) as (st & E & _ & _ & f & Eb & Hf).
  - repeat (apply Forall_cons; split); [..|apply Forall_nil_2];
      (split; [repeat (apply Forall_cons; split); [lia..|apply Forall_nil_2]|reflexivity|eexists; split; [reflexivity|]|cbn; change (MAXFILE * BSIZE) with 274432; lia]);
      repeat (apply Forall_cons; split); try apply Forall_nil_2; unfold is_byte; lia.
  - split; [repeat constructor; cbn; set_solver|]. repeat (apply Forall_cons; split); [..|apply Forall_nil_2]; split_and!; discriminate.
  - cbn. lia.
  - discriminate.
  - discriminate.
  - destruct (Hf 0%nat _ 0%nat eq_refl) as (ip & f1 & f2 & f3 & H1 & _ & H2 & _ & H3). exists st, f, f1, f2, f3, ip. split_and!; [exact E|exact Eb|exact H1|exact H2|exact H3].
Defined.
