(* ===== verification/Asm.v ===== *)
(** * The assembly (kernel/entry.S, swtch.S, trampoline.S, kernelvec.S)

    The instructions the kernel's assembly files use, as functions on a hart's
    registers, CSRs and memory, and the files' code as lists of instructions.
    Execution goes on to the next instruction that leaves the code: a jump, a
    call, a return.  Registers are numbered as in the instruction set; memory is
    bytes by physical address, reached through a translation that depends on
    [satp], except in machine mode.

    The theorems follow blocks of saves and restores: the context switch, the way
    from a program into the kernel and back, the traps of the kernel itself, and the
    timer interrupt. *)

From stdpp Require Import base list gmap strings.
From Stdlib Require Import ZArith Lia.
From S2P Require Import Prelude Mem Layout Kernel.
Open Scope Z_scope.

Module Asm.
Definition ra : nat := 1.
Definition sp : nat := 2.
Definition gp : nat := 3.
Definition tp : nat := 4.
Definition t0 : nat := 5.
Definition t1 : nat := 6.
Definition t2 : nat := 7.
Definition s0 : nat := 8.
Definition s1 : nat := 9.
Definition a0 : nat := 10.
Definition a1 : nat := 11.
Definition a2 : nat := 12.
Definition a3 : nat := 13.
Definition a4 : nat := 14.
Definition a5 : nat := 15.
Definition a6 : nat := 16.
Definition a7 : nat := 17.
Definition s2 : nat := 18.
Definition s3 : nat := 19.
Definition s4 : nat := 20.
Definition s5 : nat := 21.
Definition s6 : nat := 22.
Definition s7 : nat := 23.
Definition s8 : nat := 24.
Definition s9 : nat := 25.
Definition s10 : nat := 26.
Definition s11 : nat := 27.
Definition t3 : nat := 28.
Definition t4 : nat := 29.
Definition t5 : nat := 30.
Definition t6 : nat := 31.

Inductive csr := Sscratch | Satp | Stvec | Sie | Sip | Mhartid | Mstatus | Mepc | Medeleg | Mideleg | Mie | Mtvec | Mscratch | Pmpcfg0 | Pmpaddr0.
#[export] Instance csr_eq_dec : EqDecision csr.
Proof. solve_decision. Defined.
Inductive mode := User | Supervisor | Machine.

Record hart := mk_hart { regs : nat -> Z; csrs : csr -> Z; ram : mem; hmode : mode }.
Definition rset (r : nat) (v : Z) (R : nat -> Z) (x : nat) : Z := if decide (x = r) then v else R x.
Definition cset (c : csr) (v : Z) (C : csr -> Z) (x : csr) : Z := if decide (x = c) then v else C x.
Definition wreg (r : nat) (v : Z) (h : hart) : hart := mk_hart (rset r v (regs h)) (csrs h) (ram h) (hmode h).
Definition wcsr (c : csr) (v : Z) (h : hart) : hart := mk_hart (regs h) (cset c v (csrs h)) (ram h) (hmode h).
Definition wram (m : mem) (h : hart) : hart := mk_hart (regs h) (csrs h) m (hmode h).

Inductive instr :=
  | SD (rs : nat) (off : Z) (base : nat)
  | LD (rd : nat) (off : Z) (base : nat)
  | ADDI (rd rs : nat) (imm : Z)
  | ADD (rd rs1 rs2 : nat)
  | MUL (rd rs1 rs2 : nat)
  | LI (rd : nat) (imm : Z)          (* li, la *)
  | CSRRW (rd : nat) (c : csr) (rs : nat)
  | CSRR (rd : nat) (c : csr)
  | CSRW (c : csr) (rs : nat)
  | SFENCE
  | JR (rs : nat)
  | RET
  | CALL (f : Z)
  | SRET
  | MRET.

(** How the code is left. *)
Inductive leave := Jump (a : Z) | Call (f : Z) | Sret | Mret.

Section Run.
(** The translation of virtual addresses, by [satp]. *)
Context (tr : Z -> Z -> Z).

Definition phys (h : hart) (va : Z) : Z := match hmode h with Machine => va | _ => tr (csrs h Satp) va end.
Definition ea (h : hart) (base : nat) (off : Z) : Z := phys h (u64 (regs h base + off)).

(** A step, or the way out. *)
Definition step (i : instr) (h : hart) : hart + leave :=
  match i with
  | SD rs off base => inl (wram (store64 (ram h) (ea h base off) (regs h rs)) h)
  | LD rd off base => inl (wreg rd (load64 (ram h) (ea h base off)) h)
  | ADDI rd rs imm => inl (wreg rd (u64 (regs h rs + imm)) h)
  | ADD rd rs1 rs2 => inl (wreg rd (u64 (regs h rs1 + regs h rs2)) h)
  | MUL rd rs1 rs2 => inl (wreg rd (u64 (regs h rs1 * regs h rs2)) h)
  | LI rd imm => inl (wreg rd (u64 imm) h)
  | CSRRW rd c rs => inl (wreg rd (csrs h c) (wcsr c (regs h rs) h))
  | CSRR rd c => inl (wreg rd (csrs h c) h)
  | CSRW c rs => inl (wcsr c (regs h rs) h)
  | SFENCE => inl h
  | JR rs => inr (Jump (regs h rs))
  | RET => inr (Jump (regs h ra))
  | CALL f => inr (Call f)
  | SRET => inr Sret
  | MRET => inr Mret
  end.

(** The hart when the code is left, how, and the code after that. *)
Fixpoint run (code : list instr) (h : hart) : option (hart * leave * list instr) :=
  match code with
  | [] => None
  | i :: code =>
      match step i h with
      | inl h => run code h
      | inr l => Some (h, l, code)
      end
  end.
End Run.

(** ** entry.S *)
Definition entry (stack0 start : Z) : list instr :=
  [LI sp stack0; LI a0 (1024 * 4); CSRR a1 Mhartid; ADDI a1 a1 1; MUL a0 a0 a1; ADD sp sp a0; CALL start].

(** ** swtch.S *)
Definition swtch : list instr :=
  [SD ra 0 a0; SD sp 8 a0; SD s0 16 a0; SD s1 24 a0; SD s2 32 a0; SD s3 40 a0; SD s4 48 a0; SD s5 56 a0;
   SD s6 64 a0; SD s7 72 a0; SD s8 80 a0; SD s9 88 a0; SD s10 96 a0; SD s11 104 a0;
   LD ra 0 a1; LD sp 8 a1; LD s0 16 a1; LD s1 24 a1; LD s2 32 a1; LD s3 40 a1; LD s4 48 a1; LD s5 56 a1;
   LD s6 64 a1; LD s7 72 a1; LD s8 80 a1; LD s9 88 a1; LD s10 96 a1; LD s11 104 a1;
   RET].

(** ** trampoline.S *)
Definition uservec : list instr :=
  [CSRRW a0 Sscratch a0;
   SD ra 40 a0; SD sp 48 a0; SD gp 56 a0; SD tp 64 a0; SD t0 72 a0; SD t1 80 a0; SD t2 88 a0; SD s0 96 a0; SD s1 104 a0;
   SD a1 120 a0; SD a2 128 a0; SD a3 136 a0; SD a4 144 a0; SD a5 152 a0; SD a6 160 a0; SD a7 168 a0;
   SD s2 176 a0; SD s3 184 a0; SD s4 192 a0; SD s5 200 a0; SD s6 208 a0; SD s7 216 a0; SD s8 224 a0; SD s9 232 a0; SD s10 240 a0; SD s11 248 a0;
   SD t3 256 a0; SD t4 264 a0; SD t5 272 a0; SD t6 280 a0;
   CSRR t0 Sscratch; SD t0 112 a0;
   LD sp 8 a0; LD tp 32 a0; LD t0 16 a0; LD t1 0 a0;
   CSRW Satp t1; SFENCE;
   JR t0].
Definition userret : list instr :=
  [CSRW Satp a1; SFENCE;
   LD t0 112 a0; CSRW Sscratch t0;
   LD ra 40 a0; LD sp 48 a0; LD gp 56 a0; LD tp 64 a0; LD t0 72 a0; LD t1 80 a0; LD t2 88 a0; LD s0 96 a0; LD s1 104 a0;
   LD a1 120 a0; LD a2 128 a0; LD a3 136 a0; LD a4 144 a0; LD a5 152 a0; LD a6 160 a0; LD a7 168 a0;
   LD s2 176 a0; LD s3 184 a0; LD s4 192 a0; LD s5 200 a0; LD s6 208 a0; LD s7 216 a0; LD s8 224 a0; LD s9 232 a0; LD s10 240 a0; LD s11 248 a0;
   LD t3 256 a0; LD t4 264 a0; LD t5 272 a0; LD t6 280 a0;
   CSRRW a0 Sscratch a0;
   SRET].

(** ** kernelvec.S *)
Definition kernelvec (kerneltrap : Z) : list instr :=
  [ADDI sp sp (-256);
   SD ra 0 sp; SD sp 8 sp; SD gp 16 sp; SD tp 24 sp; SD t0 32 sp; SD t1 40 sp; SD t2 48 sp; SD s0 56 sp; SD s1 64 sp;
   SD a0 72 sp; SD a1 80 sp; SD a2 88 sp; SD a3 96 sp; SD a4 104 sp; SD a5 112 sp; SD a6 120 sp; SD a7 128 sp;
   SD s2 136 sp; SD s3 144 sp; SD s4 152 sp; SD s5 160 sp; SD s6 168 sp; SD s7 176 sp; SD s8 184 sp; SD s9 192 sp; SD s10 200 sp; SD s11 208 sp;
   SD t3 216 sp; SD t4 224 sp; SD t5 232 sp; SD t6 240 sp;
   CALL kerneltrap;
   LD ra 0 sp; LD sp 8 sp; LD gp 16 sp; LD t0 32 sp; LD t1 40 sp; LD t2 48 sp; LD s0 56 sp; LD s1 64 sp;
   LD a0 72 sp; LD a1 80 sp; LD a2 88 sp; LD a3 96 sp; LD a4 104 sp; LD a5 112 sp; LD a6 120 sp; LD a7 128 sp;
   LD s2 136 sp; LD s3 144 sp; LD s4 152 sp; LD s5 160 sp; LD s6 168 sp; LD s7 176 sp; LD s8 184 sp; LD s9 192 sp; LD s10 200 sp; LD s11 208 sp;
   LD t3 216 sp; LD t4 224 sp; LD t5 232 sp; LD t6 240 sp;
   ADDI sp sp 256;
   SRET].

Definition timervec : list instr :=
  [CSRRW a0 Mscratch a0;
   SD a1 0 a0; SD a2 8 a0; SD a3 16 a0;
   LD a1 24 a0; LD a2 32 a0; LD a3 0 a1; ADD a3 a3 a2; SD a3 0 a1;
   LI a1 2; CSRW Sip a1;
   LD a3 16 a0; LD a2 8 a0; LD a1 0 a0;
   CSRRW a0 Mscratch a0;
   MRET].
End Asm.
Import Asm.

(** ** The assembly: theorems

    Saving and restoring registers: what a block of stores leaves in memory and
    a block of loads in the registers, and from that the context switch, the way
    from a user program into the kernel and back, the traps of the kernel itself,
    and the timer interrupt. *)


(** ** Blocks of stores and loads *)

(** Registers with the offsets they are kept at. *)
Definition slots : Type := list (nat * Z).
Definition sds (base : nat) (l : slots) : list instr := (fun p => SD p.1 p.2 base) <$> l.
Definition lds (base : nat) (l : slots) : list instr := (fun p => LD p.1 p.2 base) <$> l.
Definition saved (R : nat -> Z) (pb : Z) (l : slots) (m : mem) : mem := foldl (fun m p => store64 m (pb + p.2) (R p.1)) m l.
Definition restored (m : mem) (pb : Z) (l : slots) (R : nat -> Z) : nat -> Z := foldl (fun R p => rset p.1 (load64 m (pb + p.2)) R) R l.
Definition wregs (R : nat -> Z) (h : hart) : hart := mk_hart R (csrs h) (ram h) (hmode h).
Fixpoint spaced (l : slots) : bool :=
  match l with
  | [] => true
  | p :: l => forallb (fun q => (q.2 + 8 <=? p.2) || (p.2 + 8 <=? q.2)) l && spaced l
  end.

Section Blocks.
Context (tr : Z -> Z -> Z).

Lemma run_next i c h h' : step tr i h = inl h' -> run tr (i :: c) h = run tr c h'.
Proof. intros H. cbn [run]. by rewrite H. Qed.
Lemma run_leave i c h l : step tr i h = inr l -> run tr (i :: c) h = Some (h, l, c).
Proof. intros H. cbn [run]. by rewrite H. Qed.

Lemma run_sds base l rest pb : forall h, (forall p, p ∈ l -> ea tr h base p.2 = pb + p.2) ->
  run tr (sds base l ++ rest) h = run tr rest (wram (saved (regs h) pb l (ram h)) h).
Proof.
  induction l as [|p l IH]; intros h He; [by destruct h|]. cbn [sds fmap list_fmap app run step]. fold (sds base l). rewrite (He p) by left.
  rewrite IH; [done|]. intros q Hq. apply (He q). by right.
Qed.
Lemma run_lds base l rest pb : forall h, (forall p, p ∈ l -> ea tr h base p.2 = pb + p.2) -> base ∉ l.*1 ->
  run tr (lds base l ++ rest) h = run tr rest (wregs (restored (ram h) pb l (regs h)) h).
Proof.
  induction l as [|p l IH]; intros h He Hb; [by destruct h|]. cbn [lds fmap list_fmap app run step]. fold (lds base l). rewrite (He p) by left.
  apply not_elem_of_cons in Hb as [Hne Hb]. rewrite IH; [done| |done]. intros q Hq. rewrite <- (He q) by (by right).
  unfold ea, phys. cbn [wreg regs csrs hmode]. unfold rset. by rewrite decide_False.
Qed.

Lemma saved_cons R pb p l m : saved R pb (p :: l) m = saved R pb l (store64 m (pb + p.2) (R p.1)).
Proof. done. Qed.
Lemma restored_cons m pb p l R : restored m pb (p :: l) R = restored m pb l (rset p.1 (load64 m (pb + p.2)) R).
Proof. done. Qed.
Lemma load_saved_out R pb l x : forall m, (forall p, p ∈ l -> x + 8 <= pb + p.2 \/ pb + p.2 + 8 <= x) -> load64 (saved R pb l m) x = load64 m x.
Proof.
  induction l as [|p l IH]; intros m Ho; [done|]. rewrite saved_cons. rewrite IH by (intros q Hq; apply Ho; by right).
  apply load64_store64_ne. apply Ho. left.
Qed.
Lemma load_saved R pb l r o : forall m, spaced l = true -> (r, o) ∈ l -> load64 (saved R pb l m) (pb + o) = u64 (R r).
Proof.
  induction l as [|p l IH]; intros m Hs Hin; [by apply not_elem_of_nil in Hin|]. cbn [spaced] in Hs. apply andb_true_iff in Hs as [Hp Hs]. rewrite saved_cons.
  apply elem_of_cons in Hin as [<-|Hin]; [|by apply IH]. rewrite load_saved_out; [apply load64_store64_eq|]. intros q Hq. rewrite forallb_forall in Hp. specialize (Hp q). cbn [snd] in Hp.
  apply list_elem_of_In, Hp, orb_true_iff in Hq as [H%Z.leb_le|H%Z.leb_le]; lia.
Qed.
Lemma mget_saved_out R pb l x : forall m, (forall p, p ∈ l -> x < pb + p.2 \/ pb + p.2 + 8 <= x) -> mget (saved R pb l m) x = mget m x.
Proof.
  induction l as [|p l IH]; intros m Ho; [done|]. rewrite saved_cons. rewrite IH by (intros q Hq; apply Ho; by right).
  apply mget_store64_out. apply Ho. left.
Qed.
Lemma restored_out m pb l r : forall R, r ∉ l.*1 -> restored m pb l R r = R r.
Proof.
  induction l as [|p l IH]; intros R Hr; [done|]. apply not_elem_of_cons in Hr as [Hne Hr]. rewrite restored_cons. rewrite IH by done. unfold rset. by rewrite decide_False.
Qed.
Lemma restored_in m pb l r o : forall R, NoDup l.*1 -> (r, o) ∈ l -> restored m pb l R r = load64 m (pb + o).
Proof.
  induction l as [|p l IH]; intros R Hd Hin; [by apply not_elem_of_nil in Hin|]. apply NoDup_cons in Hd as [Hn Hd]. rewrite restored_cons.
  apply elem_of_cons in Hin as [<-|Hin]; [|by apply IH]. rewrite restored_out by done. unfold rset. by rewrite decide_True.
Qed.
End Blocks.

(** Register [r] of [x1 .. x31], kept at [off + 8 * r]. *)
Definition bank (off : Z) (rs : list nat) : slots := (fun r => (r, off + 8 * Z.of_nat r)) <$> rs.
Lemma elem_bank off rs r : r ∈ rs -> (r, off + 8 * Z.of_nat r) ∈ bank off rs.
Proof. intros Hr. apply list_elem_of_fmap. by exists r. Qed.
Lemma bank_elem off rs p : p ∈ bank off rs -> p.1 ∈ rs /\ p.2 = off + 8 * Z.of_nat p.1.
Proof. intros (r & -> & Hr)%list_elem_of_fmap. done. Qed.

(** The registers a program can see. *)
Definition user_regs : list nat := seq 1 31.
Definition slot (r : nat) : Z := 32 + 8 * Z.of_nat r.
Definition not_a0 : list nat := seq 1 9 ++ seq 11 21.

(** What the kernel runs with, from the trapframe. *)
Definition kernel_regs : slots := [(sp, TF_kernel_sp); (tp, TF_kernel_hartid); (t0, TF_kernel_trap); (t1, TF_kernel_satp)].
Lemma kernel_regs_elem : (sp, TF_kernel_sp) ∈ kernel_regs /\ (tp, TF_kernel_hartid) ∈ kernel_regs /\ (t0, TF_kernel_trap) ∈ kernel_regs /\ (t1, TF_kernel_satp) ∈ kernel_regs.
Proof. unfold kernel_regs. rewrite !elem_of_cons. naive_solver. Qed.
Lemma kernel_regs_offset p : p ∈ kernel_regs -> 0 <= p.2 <= 32.
Proof. intros Hp. repeat (apply elem_of_cons in Hp as [->|Hp]; [done|]). by apply not_elem_of_nil in Hp. Qed.

Lemma uservec_blocks : uservec =
  CSRRW a0 Sscratch a0 :: sds a0 (bank 32 not_a0) ++ CSRR t0 Sscratch :: sds a0 [(t0, 112)] ++
  lds a0 kernel_regs ++ [CSRW Satp t1; SFENCE; JR t0].
Proof. reflexivity. Qed.
Lemma userret_blocks : userret =
  CSRW Satp a1 :: SFENCE :: lds a0 [(t0, 112)] ++ CSRW Sscratch t0 :: lds a0 (bank 32 not_a0) ++ [CSRRW a0 Sscratch a0; SRET].
Proof. reflexivity. Qed.
Lemma not_a0_spec r : r ∈ user_regs -> r = a0 \/ r ∈ not_a0.
Proof. intros [? ?]%elem_of_seq. unfold not_a0, a0. rewrite elem_of_app, !elem_of_seq. lia. Qed.
Lemma not_a0_range r : r ∈ not_a0 -> (1 <= r <= 31)%nat /\ r <> a0.
Proof. unfold not_a0, a0. rewrite elem_of_app, !elem_of_seq. lia. Qed.
Lemma user_regs_range r : r ∈ user_regs <-> (1 <= r <= 31)%nat.
Proof. unfold user_regs. rewrite elem_of_seq. lia. Qed.

Section Trap.
Context (tr : Z -> Z -> Z) (usatp tf : Z).
(** The user page table maps the page at TRAPFRAME to the process's trapframe. *)
Hypothesis Htr : forall o, 0 <= o < PGSIZE -> tr usatp (TRAPFRAME + o) = tf + o.

Lemma ea_trapframe h base o : hmode h <> Machine -> csrs h Satp = usatp -> regs h base = TRAPFRAME -> 0 <= o < PGSIZE -> ea tr h base o = tf + o.
Proof.
  intros Hm Hs Hb Ho. unfold ea, phys. rewrite Hb, Hs, u64_small; [|change TRAPFRAME with (2 ^ 38 - 8192); change PGSIZE with 4096 in *; lia].
  rewrite Htr by done. by destruct (hmode h).
Qed.
Lemma ea_bank h base rs : hmode h <> Machine -> csrs h Satp = usatp -> regs h base = TRAPFRAME -> (forall r, r ∈ rs -> (r <= 31)%nat) ->
  forall p, p ∈ bank 32 rs -> ea tr h base p.2 = tf + p.2.
Proof. intros Hm Hs Hb Hr p [Hp ->]%bank_elem. apply ea_trapframe; try done. specialize (Hr _ Hp). change PGSIZE with 4096. lia. Qed.

(** From the program to the kernel: its registers are in the trapframe, and the
    kernel runs on its own stack and page table. *)
Lemma uservec_ok h : hmode h = Supervisor -> csrs h Satp = usatp -> csrs h Sscratch = TRAPFRAME -> exists h',
  run tr uservec h = Some (h', Jump (load64 (ram h) (tf + TF_kernel_trap)), []) /\
  hmode h' = Supervisor /\ csrs h' Satp = load64 (ram h) (tf + TF_kernel_satp) /\
  regs h' sp = load64 (ram h) (tf + TF_kernel_sp) /\ regs h' tp = load64 (ram h) (tf + TF_kernel_hartid) /\
  (forall r, r ∈ user_regs -> load64 (ram h') (tf + slot r) = u64 (regs h r)) /\
  (forall x, x < tf + slot ra \/ tf + slot t6 + 8 <= x -> mget (ram h') x = mget (ram h) x).
Proof.
  intros Hm Hs Hss. rewrite uservec_blocks. erewrite run_next by reflexivity. set (h1 := wreg a0 _ _).
  assert (H1 : hmode h1 <> Machine /\ csrs h1 Satp = usatp /\ regs h1 a0 = TRAPFRAME) by (cbn; rewrite Hm; done). destruct H1 as (M1 & S1 & A1).
  erewrite run_sds by (apply ea_bank; try done; intros r Hr%not_a0_range; lia). erewrite run_next by reflexivity. set (h2 := wreg t0 _ _).
  assert (H2 : hmode h2 <> Machine /\ csrs h2 Satp = usatp /\ regs h2 a0 = TRAPFRAME) by (cbn; rewrite Hm; done). destruct H2 as (M2 & S2 & A2).
  erewrite run_sds by (intros p ->%list_elem_of_singleton; by apply ea_trapframe). set (h3 := wram _ h2).
  assert (R3 : ram h3 = saved (regs h2) tf [(t0, 112)] (saved (regs h1) tf (bank 32 not_a0) (ram h))) by done.
  erewrite run_lds; [| |compute_done]. 2: { intros p Hp%kernel_regs_offset. apply ea_trapframe; try done. change PGSIZE with 4096. lia. }
  assert (Hk : forall o, o + 8 <= 40 -> load64 (ram h3) (tf + o) = load64 (ram h) (tf + o)).
  { intros o Ho. rewrite R3, !load_saved_out; [done|intros p [Hp%not_a0_range ->]%bank_elem; lia|intros p ->%list_elem_of_singleton; cbn; lia]. }
  set (h4 := wregs _ h3).
  assert (H4 : forall p, p ∈ kernel_regs -> regs h4 p.1 = load64 (ram h) (tf + p.2)).
  { intros [r o] Hp. rewrite <- Hk by (apply kernel_regs_offset in Hp; cbn [snd] in *; lia). apply restored_in; [compute_done|done]. }
  destruct kernel_regs_elem as (Esp%H4 & Etp%H4 & Et0%H4 & Et1%H4). cbn [fst snd] in *.
  assert (R4 : ram h4 = ram h3) by done. assert (M4 : hmode h4 = Supervisor) by done. clearbody h4.
  do 2 (erewrite run_next by reflexivity). erewrite run_leave by reflexivity. eexists. split; [cbn [wcsr regs]; rewrite Et0; reflexivity|]. cbn [wcsr regs csrs ram hmode]. rewrite R4, Et1.
  split_and!; [exact M4|done|exact Esp|exact Etp| |].
  - intros r [->|Hr]%not_a0_spec; rewrite R3.
    + change (slot a0) with 112. rewrite (load_saved _ _ [(t0, 112)] t0) by (done || left). done.
    + rewrite load_saved_out by (intros p ->%list_elem_of_singleton; pose proof (not_a0_range _ Hr); unfold slot, a0 in *; cbn; lia).
      unfold slot. rewrite (load_saved _ _ _ r) by (reflexivity || by apply elem_bank). cbn. unfold rset. rewrite decide_False; [done|]. by apply not_a0_range.
  - intros x Hx. rewrite R3, !mget_saved_out; [done|intros p [Hp%not_a0_range ->]%bank_elem|intros p ->%list_elem_of_singleton]; unfold slot, ra, t6 in *; cbn; lia.
Qed.

(** And back: the registers are those of the trapframe, [sscratch] is ready for
    the next trap. *)
Lemma userret_ok h : hmode h = Supervisor -> regs h a0 = TRAPFRAME -> regs h a1 = usatp -> exists h',
  run tr userret h = Some (h', Sret, []) /\ hmode h' = Supervisor /\ csrs h' Satp = usatp /\ csrs h' Sscratch = TRAPFRAME /\ ram h' = ram h /\
  forall r, r ∈ user_regs -> regs h' r = load64 (ram h) (tf + slot r).
Proof.
  intros Hm Ha Hs. rewrite userret_blocks. do 2 (erewrite run_next by reflexivity). set (h1 := wcsr Satp _ _).
  assert (H1 : hmode h1 <> Machine /\ csrs h1 Satp = usatp /\ regs h1 a0 = TRAPFRAME) by (cbn; rewrite Hm; done). destruct H1 as (M1 & S1 & A1).
  erewrite run_lds; [|intros p ->%list_elem_of_singleton; by apply ea_trapframe|compute_done]. erewrite run_next by reflexivity. set (h2 := wcsr Sscratch _ _).
  assert (H2 : hmode h2 <> Machine /\ csrs h2 Satp = usatp /\ regs h2 a0 = TRAPFRAME) by (cbn; rewrite Hm; done). destruct H2 as (M2 & S2 & A2).
  erewrite run_lds; [|apply ea_bank; try done; intros r Hr%not_a0_range; lia|compute_done].
  set (h3 := wregs _ h2).
  assert (A3 : regs h3 a0 = TRAPFRAME) by (unfold h3; cbn [wregs regs]; rewrite restored_out by compute_done; exact A2).
  assert (C3 : csrs h3 Sscratch = load64 (ram h) (tf + 112)) by done. assert (S3 : csrs h3 Satp = usatp) by done. assert (M3 : hmode h3 = Supervisor) by done. assert (R3 : ram h3 = ram h) by done.
  assert (B3 : forall r, r ∈ not_a0 -> regs h3 r = load64 (ram h) (tf + slot r)) by (intros r Hr; apply restored_in; [compute_done|by apply elem_bank]).
  clearbody h3. erewrite run_next by reflexivity. erewrite run_leave by reflexivity. eexists. split; [reflexivity|].
  cbn [wreg wcsr regs csrs ram hmode]. split_and!; [exact M3|exact S3|exact A3|exact R3|].
  intros r [->|Hr]%not_a0_spec; unfold rset; [by rewrite decide_True, C3|]. rewrite decide_False by (by apply not_a0_range). by apply B3.
Qed.
End Trap.

(** ** The context switch *)

(** struct context. *)
Definition context_slots : slots :=
  [(ra, 0); (sp, 8); (s0, 16); (s1, 24); (s2, 32); (s3, 40); (s4, 48); (s5, 56); (s6, 64); (s7, 72); (s8, 80); (s9, 88); (s10, 96); (s11, 104)].
Lemma swtch_blocks : swtch = sds a0 context_slots ++ lds a1 context_slots ++ [RET].
Proof. reflexivity. Qed.
Lemma context_offset p : p ∈ context_slots -> 0 <= p.2 <= 104.
Proof. intros Hp. repeat (apply elem_of_cons in Hp as [->|Hp]; [done|]). by apply not_elem_of_nil in Hp. Qed.

(** [n] bytes at the address in a register are [n] bytes of memory at [pb]. *)
Definition reaches (tr : Z -> Z -> Z) (h : hart) (b pb n : Z) : Prop :=
  0 <= b /\ b + n <= 2 ^ 64 /\ forall o, 0 <= o < n -> phys tr h (b + o) = pb + o.
Lemma ea_reaches tr h base pb n o : reaches tr h (regs h base) pb n -> 0 <= o < n -> ea tr h base o = pb + o.
Proof. intros (Hb & Hn & Hp) Ho. unfold ea. rewrite u64_small by lia. by apply Hp. Qed.

(** A switch leaves the old context in memory and goes on with the new one. *)
Lemma swtch_ok tr h old new : reaches tr h (regs h a0) old 112 -> reaches tr h (regs h a1) new 112 -> old + 112 <= new \/ new + 112 <= old -> exists h',
  run tr swtch h = Some (h', Jump (load64 (ram h) new), []) /\ csrs h' = csrs h /\ hmode h' = hmode h /\
  (forall p, p ∈ context_slots -> regs h' p.1 = load64 (ram h) (new + p.2)) /\ (forall r, r ∉ context_slots.*1 -> regs h' r = regs h r) /\
  (forall p, p ∈ context_slots -> load64 (ram h') (old + p.2) = u64 (regs h p.1)) /\
  (forall x, x < old \/ old + 112 <= x -> mget (ram h') x = mget (ram h) x).
Proof.
  intros Ho Hn Hd. rewrite swtch_blocks. erewrite run_sds by (intros p Hp%context_offset; apply (ea_reaches _ _ _ _ _ _ Ho); lia).
  set (h1 := wram _ h). erewrite run_lds; [|intros p Hp%context_offset; apply (ea_reaches _ h1 a1 _ _ _ Hn); lia|compute_done].
  set (h2 := wregs _ h1).
  assert (R2 : forall p, p ∈ context_slots -> regs h2 p.1 = load64 (ram h) (new + p.2)).
  { intros [r o] Hp. pose proof (context_offset _ Hp) as Hr. cbn [fst snd] in *. unfold h2. cbn [wregs regs]. rewrite (restored_in _ _ _ r o) by (done || compute_done).
    apply load_saved_out. intros q Hq%context_offset. lia. }
  assert (O2 : forall r, r ∉ context_slots.*1 -> regs h2 r = regs h r) by (intros r Hr; unfold h2; cbn [wregs regs]; by rewrite restored_out).
  assert (H2 : csrs h2 = csrs h /\ hmode h2 = hmode h /\ ram h2 = saved (regs h) old context_slots (ram h)) by done. destruct H2 as (C2 & M2 & S2). clearbody h2.
  erewrite run_leave by reflexivity. eexists. split; [do 3 f_equal; specialize (R2 (ra, 0)); cbn [fst snd] in R2; rewrite R2, Z.add_0_r; [done|left]|]. rewrite S2.
  split_and!; try done.
  - intros [r o] Hp. by apply load_saved.
  - intros x Hx. apply mget_saved_out. intros p Hp%context_offset. lia.
Qed.

(** C19: a thread that calls [swtch] gets back from it as from a function that does
    nothing: whatever other threads do on the hart in between, once one of them
    switches back to the saved context the execution goes on at the first thread's
    return address, with its stack pointer and every callee-saved register as they
    were, provided the context's fourteen words were left alone. *)
Theorem swtch_resumes tr h old new : forall h' code k old' other,
  reaches tr h (regs h a0) old 112 -> reaches tr h (regs h a1) new 112 -> old + 112 <= new \/ new + 112 <= old ->
  (forall r, 0 <= regs h r < 2 ^ 64) ->
  run tr swtch h = Some (h', Jump k, code) ->
  reaches tr other (regs other a0) old' 112 -> reaches tr other (regs other a1) old 112 -> old' + 112 <= old \/ old + 112 <= old' ->
  (forall x, old <= x < old + 112 -> mget (ram other) x = mget (ram h') x) ->
  exists back, run tr swtch other = Some (back, Jump (regs h ra), []) /\
  (forall r, r ∈ context_slots.*1 -> regs back r = regs h r) /\ (forall r, r ∉ context_slots.*1 -> regs back r = regs other r) /\ csrs back = csrs other.
Proof.
  intros h' code k old' other Ho Hn Hd Hr Hrun Ho' Hn' Hd' Hsame. destruct (swtch_ok _ _ _ _ Ho Hn Hd) as (h1 & E1 & _ & _ & _ & _ & S1 & _).
  rewrite E1 in Hrun. injection Hrun as -> _ _.
  assert (Hl : forall p, p ∈ context_slots -> load64 (ram other) (old + p.2) = regs h p.1).
  { intros p Hp. rewrite <- (u64_small (regs h p.1)) by apply Hr. rewrite <- S1 by done. apply load64_ext. intros i Hi. apply Hsame. apply context_offset in Hp. lia. }
  destruct (swtch_ok _ _ _ _ Ho' Hn' Hd') as (back & E2 & C2 & _ & R2 & O2 & _ & _). exists back. split_and!; [| |exact O2|exact C2].
  - rewrite E2. specialize (Hl (ra, 0)). cbn [fst snd] in Hl. rewrite Z.add_0_r in Hl. rewrite Hl; [done|left].
  - intros r (p & -> & Hp)%list_elem_of_fmap. rewrite R2 by done. by apply Hl.
Qed.
Lemma swtch_resumes_witness :
  let R x y := rset a0 x (rset a1 y (fun _ => 7)) in
  let h := mk_hart (R 1000 2000) (fun _ => 0) ∅ Machine in
  exists h' k back, run (fun _ va => va) swtch h = Some (h', Jump k, []) /\
  run (fun _ va => va) swtch (mk_hart (R 3000 1000) (fun _ => 0) (ram h') Machine) = Some (back, Jump 7, []) /\ regs back sp = 7.
Proof.
  intros R h. assert (Hre : forall R m b, 0 <= b <= 3000 -> reaches (fun _ va => va) (mk_hart R (fun _ => 0) m Machine) b b 112) by (intros; split_and!; [lia|lia|done]).
  destruct (swtch_ok (fun _ va => va) h 1000 2000) as (h' & E & _); [apply Hre; lia|apply Hre; lia|lia|]. exists h', (load64 (ram h) 2000).
  destruct (swtch_resumes (fun _ va => va) h 1000 2000 h' [] (load64 (ram h) 2000) 3000 (mk_hart (R 3000 1000) (fun _ => 0) (ram h') Machine)) as (back & Eb & Rb & _).
  - apply Hre. lia.
  - apply Hre. lia.
  - lia.
  - intros r. unfold h, R. cbn [regs]. unfold rset. repeat case_decide; lia.
  - exact E.
  - apply Hre. lia.
  - apply Hre. lia.
  - lia.
  - reflexivity.
  - exists back. split_and!; [exact E|exact Eb|]. rewrite (Rb sp); [reflexivity|]. right. left.
Defined.

(** ** Traps of the kernel *)

(** The registers [kernelvec] restores: [tp] is the hart's, and [ra] and [sp] come first. *)
Definition kernel_restored : list nat := 3%nat :: seq 5 27.
Lemma kernelvec_blocks kt : kernelvec kt =
  ADDI sp sp (-256) :: sds sp (bank (-8) user_regs) ++ CALL kt ::
  lds sp [(ra, 0)] ++ LD sp 8 sp :: lds sp (bank (-8) kernel_restored) ++ [ADDI sp sp 256; SRET].
Proof. reflexivity. Qed.
Lemma kernel_restored_range r : r ∈ kernel_restored -> (3 <= r <= 31)%nat /\ r <> tp.
Proof. unfold kernel_restored, tp. rewrite elem_of_cons, elem_of_seq. lia. Qed.
Lemma kernel_restored_spec r : r ∈ user_regs -> r = ra \/ r = sp \/ r = tp \/ r ∈ kernel_restored.
Proof. rewrite user_regs_range. unfold kernel_restored, ra, sp, tp. rewrite elem_of_cons, elem_of_seq. lia. Qed.

(** Up to the call of kerneltrap. *)
Lemma kernelvec_enter tr kt h fr : 256 <= regs h sp < 2 ^ 64 -> reaches tr h (regs h sp - 256) fr 256 -> exists h' rest,
  run tr (kernelvec kt) h = Some (h', Call kt, rest) /\
  rest = lds sp [(ra, 0)] ++ LD sp 8 sp :: lds sp (bank (-8) kernel_restored) ++ [ADDI sp sp 256; SRET] /\
  regs h' sp = regs h sp - 256 /\ (forall r, r <> sp -> regs h' r = regs h r) /\ csrs h' = csrs h /\ hmode h' = hmode h /\
  (forall r, r ∈ user_regs -> load64 (ram h') (fr + (-8 + 8 * Z.of_nat r)) = u64 (regs h' r)) /\
  (forall x, x < fr \/ fr + 256 <= x -> mget (ram h') x = mget (ram h) x).
Proof.
  intros Hsp Hre. rewrite kernelvec_blocks. erewrite run_next by reflexivity. set (h1 := wreg sp _ _).
  assert (S1 : regs h1 sp = regs h sp - 256) by (unfold h1; cbn [wreg regs]; unfold rset; rewrite decide_True by done; apply u64_small; lia).
  assert (O1 : forall r, r <> sp -> regs h1 r = regs h r) by (intros r Hr; unfold h1; cbn [wreg regs]; unfold rset; by rewrite decide_False).
  assert (Hre1 : reaches tr h1 (regs h1 sp) fr 256) by (rewrite S1; exact Hre).
  erewrite run_sds by (intros p [Hp%user_regs_range ->]%bank_elem; apply (ea_reaches _ _ _ _ _ _ Hre1); lia).
  erewrite run_leave by reflexivity. do 2 eexists. split; [reflexivity|]. split; [reflexivity|]. cbn [wram regs csrs hmode ram]. split_and!; [exact S1|exact O1|reflexivity|reflexivity| |].
  - intros r Hr. apply load_saved; [reflexivity|]. by apply elem_bank.
  - intros x Hx. rewrite mget_saved_out; [reflexivity|]. intros p [Hp%user_regs_range ->]%bank_elem. lia.
Qed.
(** And from its return. *)
Lemma kernelvec_leave tr h fr : 0 <= regs h sp < 2 ^ 64 - 256 -> reaches tr h (regs h sp) fr 256 -> load64 (ram h) (fr + 8) = regs h sp -> exists h',
  run tr (lds sp [(ra, 0)] ++ LD sp 8 sp :: lds sp (bank (-8) kernel_restored) ++ [ADDI sp sp 256; SRET]) h = Some (h', Sret, []) /\
  regs h' sp = regs h sp + 256 /\ regs h' tp = regs h tp /\ (forall r, r ∈ user_regs -> r <> sp -> r <> tp -> regs h' r = load64 (ram h) (fr + (-8 + 8 * Z.of_nat r))) /\
  csrs h' = csrs h /\ ram h' = ram h.
Proof.
  intros Hsp Hre Hslot. erewrite run_lds; [|intros p ->%list_elem_of_singleton; apply (ea_reaches _ _ _ _ _ _ Hre); cbn; lia|compute_done]. set (h1 := wregs _ h).
  erewrite run_next by reflexivity. rewrite (ea_reaches tr h1 sp fr 256) by (exact Hre || lia). change (ram h1) with (ram h). rewrite Hslot. set (h2 := wreg sp _ h1).
  assert (H2 : reaches tr h2 (regs h2 sp) fr 256) by exact Hre.
  erewrite run_lds; [|intros p [Hp%kernel_restored_range ->]%bank_elem; apply (ea_reaches _ _ _ _ _ _ H2); lia|compute_done]. set (h3 := wregs _ h2).
  assert (S3 : regs h3 sp = regs h sp) by (unfold h3; cbn [wregs regs]; rewrite restored_out by compute_done; reflexivity).
  assert (T3 : regs h3 tp = regs h tp) by (unfold h3; cbn [wregs regs]; rewrite restored_out by compute_done; reflexivity).
  assert (A3 : regs h3 ra = load64 (ram h) (fr + 0)) by (unfold h3; cbn [wregs regs]; rewrite restored_out by compute_done; reflexivity).
  assert (B3 : forall r, r ∈ kernel_restored -> regs h3 r = load64 (ram h) (fr + (-8 + 8 * Z.of_nat r))) by (intros r Hr; apply restored_in; [compute_done|by apply elem_bank]).
  assert (C3 : csrs h3 = csrs h /\ ram h3 = ram h) by done. destruct C3 as [C3 R3]. clearbody h3.
  erewrite run_next by reflexivity. erewrite run_leave by reflexivity. eexists. split; [reflexivity|]. cbn [wreg regs csrs ram]. unfold rset.
  split_and!; [rewrite decide_True, S3 by done; apply u64_small; lia|rewrite decide_False by done; exact T3| |exact C3|exact R3].
  intros r [->|[->|[->|Hr]]]%kernel_restored_spec Hs Ht; try done. rewrite decide_False by done. by apply B3.
Qed.

(** A trap the kernel takes is invisible to the kernel code it interrupts: with its
    stack frame left alone by kerneltrap, every register but [tp], which is the
    hart's own, is restored. *)
Theorem kernelvec_transparent tr kt h fr : 256 <= regs h sp < 2 ^ 64 -> reaches tr h (regs h sp - 256) fr 256 -> (forall r, 0 <= regs h r < 2 ^ 64) ->
  exists h1 rest, run tr (kernelvec kt) h = Some (h1, Call kt, rest) /\ (forall x, x < fr \/ fr + 256 <= x -> mget (ram h1) x = mget (ram h) x) /\
  forall h2, regs h2 sp = regs h1 sp -> reaches tr h2 (regs h2 sp) fr 256 -> (forall x, fr <= x < fr + 256 -> mget (ram h2) x = mget (ram h1) x) ->
  exists h3, run tr rest h2 = Some (h3, Sret, []) /\ (forall r, r ∈ user_regs -> r <> tp -> regs h3 r = regs h r) /\ regs h3 tp = regs h2 tp /\ csrs h3 = csrs h2 /\ ram h3 = ram h2.
Proof.
  intros Hsp Hre Hr. destruct (kernelvec_enter tr kt h fr Hsp Hre) as (h1 & rest & E1 & -> & S1 & O1 & _ & _ & L1 & F1).
  exists h1, (lds sp [(ra, 0)] ++ LD sp 8 sp :: lds sp (bank (-8) kernel_restored) ++ [ADDI sp sp 256; SRET]). split; [exact E1|]. split; [exact F1|]. intros h2 S2 Hre2 Hsame.
  assert (L2 : forall r, r ∈ user_regs -> load64 (ram h2) (fr + (-8 + 8 * Z.of_nat r)) = u64 (regs h1 r)).
  { intros r Hin. rewrite <- L1 by done. apply load64_ext. intros x Hx. apply Hsame. apply user_regs_range in Hin. lia. }
  destruct (kernelvec_leave tr h2 fr) as (h3 & E3 & S3 & T3 & B3 & C3 & R3); [lia|exact Hre2| |].
  { rewrite S2, <- (u64_small (regs h1 sp)) by lia. apply (L2 sp). apply user_regs_range. unfold sp. lia. }
  exists h3. split_and!; [exact E3| |exact T3|exact C3|exact R3]. intros r Hin Ht. destruct (decide (r = sp)) as [->|Hs]; [lia|].
  rewrite B3, L2, O1 by done. by apply u64_small.
Qed.

(** C18: a trap is invisible to the user program: [uservec] saves all 31 registers
    in the trapframe and enters the kernel at the trapframe's handler with the
    kernel's stack, hart id and page table; and [userret], called with TRAPFRAME
    and the program's page table as usertrapret calls it, gives the program back
    every register it had, except [a0], which is what the kernel left in its slot
    (a system call's result), and makes [sscratch] ready for the next trap. *)
Theorem trap_roundtrip tr usatp tf h : (forall o, 0 <= o < PGSIZE -> tr usatp (TRAPFRAME + o) = tf + o) ->
  hmode h = Supervisor -> csrs h Satp = usatp -> csrs h Sscratch = TRAPFRAME -> (forall r, 0 <= regs h r < 2 ^ 64) ->
  exists h1, run tr uservec h = Some (h1, Jump (load64 (ram h) (tf + TF_kernel_trap)), []) /\
  csrs h1 Satp = load64 (ram h) (tf + TF_kernel_satp) /\ regs h1 sp = load64 (ram h) (tf + TF_kernel_sp) /\ regs h1 tp = load64 (ram h) (tf + TF_kernel_hartid) /\
  (forall r, r ∈ user_regs -> load64 (ram h1) (tf + slot r) = regs h r) /\ (forall x, x < tf + 40 \/ tf + 288 <= x -> mget (ram h1) x = mget (ram h) x) /\
  forall h2, hmode h2 = Supervisor -> regs h2 a0 = TRAPFRAME -> regs h2 a1 = usatp ->
  (forall x, tf + 40 <= x < tf + TF_a0 \/ tf + TF_a0 + 8 <= x < tf + 288 -> mget (ram h2) x = mget (ram h1) x) ->
  exists h3, run tr userret h2 = Some (h3, Sret, []) /\ csrs h3 Satp = usatp /\ csrs h3 Sscratch = TRAPFRAME /\ ram h3 = ram h2 /\
  regs h3 a0 = load64 (ram h2) (tf + TF_a0) /\ forall r, r ∈ user_regs -> r <> a0 -> regs h3 r = regs h r.
Proof.
  intros Htr Hm Hs Hss Hr. destruct (uservec_ok _ _ _ Htr h Hm Hs Hss) as (h1 & E1 & _ & S1 & P1 & T1 & L1 & F1).
  assert (L1' : forall r, r ∈ user_regs -> load64 (ram h1) (tf + slot r) = regs h r) by (intros r Hin; rewrite L1 by done; by apply u64_small).
  exists h1. split_and!; [exact E1|exact S1|exact P1|exact T1|exact L1'|intros x Hx; apply F1; unfold slot, ra, t6; lia|]. intros h2 M2 A2 B2 Hsame.
  destruct (userret_ok _ _ _ Htr h2 M2 A2 B2) as (h3 & E3 & _ & S3 & C3 & R3 & L3). exists h3. split_and!; [exact E3|exact S3|exact C3|exact R3| |].
  - apply (L3 a0). apply user_regs_range. unfold a0. lia.
  - intros r Hin Ha. rewrite L3, <- L1' by done. apply load64_ext. intros x Hx. apply Hsame. apply user_regs_range in Hin. unfold slot, a0, TF_a0 in *. lia.
Qed.
Lemma trap_roundtrip_witness :
  let tr satp va := if satp =? 1 then va - TRAPFRAME + 8192 else va in
  let C c := match c with Satp => 1 | Sscratch => TRAPFRAME | _ => 0 end in
  let h := mk_hart (fun _ => 7) C ∅ Supervisor in
  exists h1 h3, run tr uservec h = Some (h1, Jump 0, []) /\
  run tr userret (mk_hart (rset a0 TRAPFRAME (fun _ => 1)) (fun _ => 0) (store64 (ram h1) (8192 + TF_a0) 42) Supervisor) = Some (h3, Sret, []) /\
  regs h3 a0 = 42 /\ regs h3 sp = 7.
Proof.
  intros tr C h. destruct (trap_roundtrip tr 1 8192 h) as (h1 & E1 & _ & _ & _ & _ & _ & Back).
  - intros o Ho. unfold tr. cbn [Z.eqb Pos.eqb]. lia.
  - reflexivity.
  - reflexivity.
  - reflexivity.
  - intros r. cbn [h regs]. lia.
  - set (h2 := mk_hart (rset a0 TRAPFRAME (fun _ => 1)) (fun _ => 0) (store64 (ram h1) (8192 + TF_a0) 42) Supervisor).
    destruct (Back h2) as (h3 & E3 & _ & _ & _ & A3 & R3); [reflexivity|reflexivity|reflexivity| |].
    + intros x Hx. apply mget_store64_out. lia.
    + exists h1, h3. split_and!; [exact E1|exact E3| |].
      * rewrite A3. cbn [h2 ram]. rewrite load64_store64_eq. reflexivity.
      * apply (R3 sp); [apply user_regs_range; unfold sp; lia|done].
Defined.

(** ** The timer interrupt *)

(** The registers [timervec] uses besides [a0], in its scratch area. *)
Definition timer_saved : slots := [(a1, 0); (a2, 8); (a3, 16)].
Definition timer_tail : list instr :=
  lds a1 [(a3, 0)] ++ ADD a3 a3 a2 :: sds a1 [(a3, 0)] ++ LI a1 2 :: CSRW Sip a1 :: lds a0 (rev timer_saved) ++ [CSRRW a0 Mscratch a0; MRET].
Lemma timervec_blocks : timervec = CSRRW a0 Mscratch a0 :: sds a0 timer_saved ++ lds a0 [(a1, 24); (a2, 32)] ++ timer_tail.
Proof. reflexivity. Qed.
Lemma timer_saved_offset p : p ∈ timer_saved -> 0 <= p.2 <= 16 /\ p.1 <> a0.
Proof. intros Hp. repeat (apply elem_of_cons in Hp as [->|Hp]; [done|]). by apply not_elem_of_nil in Hp. Qed.
Lemma elem_rev p : p ∈ rev timer_saved <-> p ∈ timer_saved.
Proof. rewrite !list_elem_of_In. symmetry. apply in_rev. Qed.
Lemma timer_saved_spec r : r ∈ timer_saved.*1 -> exists o, (r, o) ∈ timer_saved.
Proof. intros ([r' o] & -> & Hp)%list_elem_of_fmap. by exists o. Qed.

(** The memory [timervec] writes. *)
Definition timer_writes (sc cmp x : Z) : Prop := sc <= x < sc + 24 \/ cmp <= x < cmp + 8.

Section Timer.
Context (tr : Z -> Z -> Z) (h : hart) (sc cmp : Z).
Hypothesis Hm : hmode h = Machine.
Hypothesis Hsc : csrs h Mscratch = sc.
Hypothesis Hsc0 : 0 <= sc.
Hypothesis Hsc40 : sc + 40 <= 2 ^ 64.
Hypothesis Hcmp : load64 (ram h) (sc + 24) = cmp.
Hypothesis Hcmp64 : 0 <= cmp < 2 ^ 64.
Hypothesis Hapart : cmp + 8 <= sc \/ sc + 40 <= cmp.
Hypothesis Hregs : forall r, 0 <= regs h r < 2 ^ 64.

Lemma ea_machine g base b o : hmode g = Machine -> regs g base = b -> 0 <= b + o < 2 ^ 64 -> ea tr g base o = b + o.
Proof. intros Hg Hb Ho. unfold ea, phys. rewrite Hg, Hb. by apply u64_small. Qed.

(** The first half: the registers are in the scratch area, the address of the
    deadline and the interval in [a1] and [a2]. *)
Lemma timervec_first : exists g, run tr timervec h = run tr timer_tail g /\ hmode g = Machine /\
  regs g a1 = cmp /\ regs g a2 = load64 (ram h) (sc + 32) /\ (forall r, r <> a1 -> r <> a2 -> regs g r = rset a0 sc (regs h) r) /\
  csrs g = cset Mscratch (regs h a0) (csrs h) /\ (forall r o, (r, o) ∈ timer_saved -> load64 (ram g) (sc + o) = regs h r) /\
  (forall x, x < sc \/ sc + 24 <= x -> mget (ram g) x = mget (ram h) x).
Proof.
  rewrite timervec_blocks. erewrite run_next by reflexivity. set (h1 := wreg a0 _ _).
  erewrite run_sds by (intros p [Hp _]%timer_saved_offset; apply ea_machine; [exact Hm|exact Hsc|lia]). set (m1 := saved (regs h1) sc timer_saved (ram h1)).
  assert (F1 : forall x, x < sc \/ sc + 24 <= x -> mget m1 x = mget (ram h) x) by (intros x Hx; apply mget_saved_out; intros p [Hp _]%timer_saved_offset; lia).
  assert (K1 : forall x, sc + 24 <= x -> load64 m1 x = load64 (ram h) x) by (intros x Hx; apply load64_ext; intros y Hy; apply F1; lia).
  erewrite run_lds; [| |compute_done].
  2: { intros p Hp. apply ea_machine; [exact Hm|exact Hsc|]. assert (24 <= p.2 <= 32) by (repeat (apply elem_of_cons in Hp as [->|Hp]; [done|]); by apply not_elem_of_nil in Hp). lia. }
  eexists. split; [reflexivity|]. split_and!; [exact Hm| | | |reflexivity| |exact F1].
  - change (load64 m1 (sc + 24) = cmp). rewrite K1 by lia. exact Hcmp.
  - change (load64 m1 (sc + 32) = load64 (ram h) (sc + 32)). apply K1. lia.
  - intros r X1 X2. cbn [wregs regs]. rewrite restored_out, <- Hsc; [reflexivity|]. intros [?|[?|[]%elem_of_nil]%elem_of_cons]%elem_of_cons; done.
  - intros r o Hp. pose proof (timer_saved_offset _ Hp) as [_ Ha]. change (load64 m1 (sc + o) = regs h r). unfold m1. rewrite (load_saved _ _ _ r) by (done || reflexivity).
    unfold h1. cbn [wreg wcsr regs]. unfold rset. rewrite decide_False by done. by apply u64_small.
Qed.

(** A timer interrupt changes no register, sets the next deadline an interval after
    the last one, and raises a supervisor software interrupt; its scratch area is as
    it found it for the next. *)
Lemma timervec_ok : exists h', run tr timervec h = Some (h', Mret, []) /\ hmode h' = Machine /\ (forall r, regs h' r = regs h r) /\
  (forall c, csrs h' c = if decide (c = Sip) then 2 else csrs h c) /\
  load64 (ram h') cmp = u64 (load64 (ram h) cmp + load64 (ram h) (sc + 32)) /\
  (forall x, ~ timer_writes sc cmp x -> mget (ram h') x = mget (ram h) x).
Proof.
  destruct timervec_first as (h3 & -> & M3 & A3 & B3 & O3 & C3 & L3 & F3). unfold timer_tail.
  erewrite run_lds; [|intros p ->%list_elem_of_singleton; apply ea_machine; cbn [snd]; [done|done|lia]|compute_done]. set (h4 := wregs _ h3).
  assert (A4 : regs h4 a3 = load64 (ram h) cmp).
  { change (load64 (ram h3) (cmp + 0) = load64 (ram h) cmp). rewrite Z.add_0_r. apply load64_ext. intros x Hx. apply F3. lia. }
  erewrite run_next by reflexivity. set (h5 := wreg a3 _ h4). assert (A5 : regs h5 a3 = u64 (load64 (ram h) cmp + load64 (ram h) (sc + 32))) by (rewrite <- A4, <- B3; reflexivity).
  erewrite run_sds by (intros p ->%list_elem_of_singleton; apply ea_machine; cbn [snd]; [exact M3|exact A3|lia]). change (ram h5) with (ram h3). set (m2 := saved (regs h5) cmp [(a3, 0)] (ram h3)).
  do 2 (erewrite run_next by reflexivity). erewrite run_lds; [| |compute_done].
  2: { intros p [Hp _]%elem_rev%timer_saved_offset. apply (ea_machine _ _ sc); [exact M3|transitivity (regs h3 a0); [reflexivity|rewrite O3 by done; reflexivity]|lia]. }
  set (h8 := wcsr Sip _ _). change (ram h8) with m2. set (h9 := wregs _ h8).
  assert (R9 : forall r, r <> a0 -> regs h9 r = regs h r).
  { intros r Ha. unfold h9. cbn [wregs regs]. destruct (decide (r ∈ timer_saved.*1)) as [[o Hp]%timer_saved_spec|Hout].
    - rewrite (restored_in _ _ _ r o) by (by apply elem_rev || compute_done). pose proof (timer_saved_offset _ Hp) as [Ho _]. cbn [snd] in Ho. rewrite <- (L3 r o) by done.
      unfold m2. apply load_saved_out. intros p ->%list_elem_of_singleton. cbn [snd]. lia.
    - rewrite restored_out by (cbn in *; set_solver). cbn [fmap list_fmap timer_saved fst] in Hout. rewrite !not_elem_of_cons in Hout. destruct Hout as (X1 & X2 & X3 & _).
      cbn [h8 wcsr wreg wram h5 h4 wregs regs]. unfold rset. rewrite !decide_False by done. rewrite restored_out by (cbn; set_solver). rewrite O3 by done. unfold rset. by rewrite decide_False. }
  assert (A9 : regs h9 a0 = sc).
  { unfold h9. cbn [wregs regs]. rewrite restored_out by compute_done. transitivity (regs h3 a0); [reflexivity|rewrite O3 by done; reflexivity]. }
  assert (C9 : csrs h9 = cset Sip 2 (cset Mscratch (regs h a0) (csrs h))) by (rewrite <- C3; reflexivity). assert (M9 : hmode h9 = Machine) by exact M3. assert (N9 : ram h9 = m2) by reflexivity. clearbody h9.
  erewrite run_next by reflexivity. erewrite run_leave by reflexivity. eexists. split; [reflexivity|]. cbn [wreg wcsr regs csrs ram hmode]. rewrite A9, C9, N9. split_and!.
  - exact M9.
  - intros r. unfold rset. destruct (decide (r = a0)) as [->|Ha]; [reflexivity|by apply R9].
  - intros c. unfold cset. repeat case_decide; congruence.
  - rewrite <- A5, <- (Z.add_0_r cmp) at 1. unfold m2. rewrite (load_saved _ _ [(a3, 0)] a3) by (reflexivity || left). rewrite A5. unfold u64. by rewrite Z.mod_mod.
  - intros x Hx. unfold timer_writes in Hx. unfold m2. rewrite mget_saved_out by (intros p ->%list_elem_of_singleton; cbn; lia). apply F3. lia.
Qed.
End Timer.
