(* ===== verification/Boot.v ===== *)
(** * Starting a hart (kernel/start.c, plic.c, the hart's part of main.c)

    The C code between entry.S and the scheduler that programs the hart itself, on
    the state of the assembly: the CSR accessors of riscv.h, [start] and [timerinit],
    the switch to supervisor mode, and the paging, trap and interrupt-controller
    setup each hart does in [main].  The device registers are the words of memory at
    their addresses; kernelvec, timervec, main, the kernel page table and the timer
    scratch area are addresses the linker and the kernel choose.

    The theorems: where a hart is when it has started, and that the timer goes on,
    one interval after another on every hart, whatever the harts do in between. *)

From stdpp Require Import base list gmap strings.
From Stdlib Require Import ZArith Lia.
From S2P Require Import Prelude Mem Layout Asm.
Import Asm.
Open Scope Z_scope.

Module Boot.
(** ** riscv.h *)
Definition MSTATUS_MPP_MASK : Z := Z.shiftl 3 11.
Definition MSTATUS_MPP_S : Z := Z.shiftl 1 11.
Definition MSTATUS_MIE : Z := Z.shiftl 1 3.
Definition SIE_SEIE : Z := Z.shiftl 1 9.
Definition SIE_STIE : Z := Z.shiftl 1 5.
Definition SIE_SSIE : Z := Z.shiftl 1 1.
Definition MIE_MTIE : Z := Z.shiftl 1 7.

Definition r_mhartid : M hart Z := getM (fun h => csrs h Mhartid).
Definition r_mstatus : M hart Z := getM (fun h => csrs h Mstatus).
Definition w_mstatus (x : Z) : M hart unit := modifyM (wcsr Mstatus x).
Definition w_mepc (x : Z) : M hart unit := modifyM (wcsr Mepc x).
Definition r_sie : M hart Z := getM (fun h => csrs h Sie).
Definition w_sie (x : Z) : M hart unit := modifyM (wcsr Sie x).
Definition r_mie : M hart Z := getM (fun h => csrs h Mie).
Definition w_mie (x : Z) : M hart unit := modifyM (wcsr Mie x).
Definition w_medeleg (x : Z) : M hart unit := modifyM (wcsr Medeleg x).
Definition w_mideleg (x : Z) : M hart unit := modifyM (wcsr Mideleg x).
Definition w_stvec (x : Z) : M hart unit := modifyM (wcsr Stvec x).
Definition w_mtvec (x : Z) : M hart unit := modifyM (wcsr Mtvec x).
Definition w_pmpcfg0 (x : Z) : M hart unit := modifyM (wcsr Pmpcfg0 x).
Definition w_pmpaddr0 (x : Z) : M hart unit := modifyM (wcsr Pmpaddr0 x).
Definition w_satp (x : Z) : M hart unit := modifyM (wcsr Satp x).
Definition w_mscratch (x : Z) : M hart unit := modifyM (wcsr Mscratch x).
Definition r_tp : M hart Z := getM (fun h => regs h tp).
Definition w_tp (x : Z) : M hart unit := modifyM (wreg tp x).
Definition sfence_vma : M hart unit := retM tt.

(** Device registers and words of memory, by physical address. *)
Definition read64 (a : Z) : M hart Z := getM (fun h => load64 (ram h) a).
Definition write64 (a v : Z) : M hart unit := modifyM (fun h => wram (store64 (ram h) a v) h).
Definition store32 (m : mem) (a v : Z) : mem := mwrite m a (le_bytes 4 v).
Definition load32 (m : mem) (a : Z) : Z := le_val (mread m a 4).
Definition read32 (a : Z) : M hart Z := getM (fun h => load32 (ram h) a).
Definition write32 (a v : Z) : M hart unit := modifyM (fun h => wram (store32 (ram h) a v) h).

(** [mret]: to the mode of mstatus's MPP field, at mepc; MIE becomes MPIE, MPIE is
    set and MPP cleared. *)
Definition MPIE : Z := 7.
Definition mpp (mstatus : Z) : mode :=
  match Z.land (Z.shiftr mstatus 11) 3 with 0 => User | 1 => Supervisor | _ => Machine end.
Definition mret_status (x : Z) : Z :=
  Z.lor (Z.lor (Z.land x (u64 (Z.lnot (Z.lor (Z.lor MSTATUS_MPP_MASK MSTATUS_MIE) (Z.shiftl 1 MPIE))))) (if Z.testbit x MPIE then MSTATUS_MIE else 0)) (Z.shiftl 1 MPIE).
Definition mret : M hart Z := fun h =>
  let x := csrs h Mstatus in
  Ok (csrs h Mepc) (mk_hart (regs h) (cset Mstatus (mret_status x) (csrs h)) (ram h) (mpp x)).

Section Boot.
(** Addresses of the kernel's code and data. *)
Context (timer_scratch timervec_addr main_addr kernelvec_addr kernel_pagetable : Z).

Definition interval : Z := 1000000.
(** [&timer_scratch[id][0]] *)
Definition scratch (id : Z) : Z := timer_scratch + 40 * id.

(** ** start.c *)
Definition timerinit : M hart unit :=
  let! id := r_mhartid in
  let! now := read64 CLINT_MTIME in
  do! write64 (CLINT_MTIMECMP id) (u64 (now + interval)) in
  do! write64 (scratch id + 8 * 3) (CLINT_MTIMECMP id) in
  do! write64 (scratch id + 8 * 4) interval in
  do! w_mscratch (scratch id) in
  do! w_mtvec timervec_addr in
  let! x := r_mstatus in
  do! w_mstatus (Z.lor x MSTATUS_MIE) in
  let! x := r_mie in
  w_mie (Z.lor x MIE_MTIE).

(** Returns where [mret] goes. *)
Definition start : M hart Z :=
  let! x := r_mstatus in
  let x := Z.land x (u64 (Z.lnot MSTATUS_MPP_MASK)) in
  let x := Z.lor x MSTATUS_MPP_S in
  do! w_mstatus x in
  do! w_mepc main_addr in
  do! w_satp 0 in
  do! w_medeleg 0xffff in
  do! w_mideleg 0xffff in
  let! x := r_sie in
  do! w_sie (Z.lor (Z.lor (Z.lor x SIE_SEIE) SIE_STIE) SIE_SSIE) in
  do! w_pmpaddr0 0x3fffffffffffff in
  do! w_pmpcfg0 0xf in
  do! timerinit in
  let! id := r_mhartid in
  do! w_tp id in
  mret.

(** ** plic.c *)
Definition cpuid : M hart Z := let! id := r_tp in retM (s32 id).
Definition plicinit : M hart unit :=
  do! write32 (PLIC + UART0_IRQ * 4) 1 in
  write32 (PLIC + VIRTIO0_IRQ * 4) 1.
Definition plicinithart : M hart unit :=
  let! hart := cpuid in
  do! write32 (PLIC_SENABLE hart) (Z.lor (Z.shiftl 1 UART0_IRQ) (Z.shiftl 1 VIRTIO0_IRQ)) in
  write32 (PLIC_SPRIORITY hart) 0.

(** ** The hart's part of main.c *)
Definition kvminithart : M hart unit :=
  do! w_satp (MAKE_SATP kernel_pagetable) in
  sfence_vma.
Definition trapinithart : M hart unit := w_stvec kernelvec_addr.
Definition inithart : M hart unit :=
  do! kvminithart in
  do! trapinithart in
  plicinithart.
End Boot.
End Boot.
Import Boot.

(** ** The mode [start] leaves in mstatus *)
Lemma mpp_S x : mpp (Z.lor (Z.lor (Z.land x (u64 (Z.lnot MSTATUS_MPP_MASK))) MSTATUS_MPP_S) MSTATUS_MIE) = Supervisor.
Proof.
  unfold mpp. rewrite !Z.shiftr_lor, Z.shiftr_land, !Z.land_lor_distr_l, <- Z.land_assoc.
  change (Z.land (Z.shiftr (u64 (Z.lnot MSTATUS_MPP_MASK)) 11) 3) with 0. by rewrite Z.land_0_r.
Qed.

(** ** Words of a device *)
Lemma load32_store32_eq m a v : load32 (store32 m a v) a = u32 v.
Proof. unfold load32, store32. change 4%nat with (length (le_bytes 4 v)) at 2. rewrite mread_mwrite_eq. apply le_val_bytes. Qed.
Lemma load32_store32_ne m a v x : x + 4 <= a \/ a + 4 <= x -> load32 (store32 m a v) x = load32 m x.
Proof. intros H. unfold load32, store32. rewrite mread_mwrite_ne; [done|]. rewrite length_le_bytes. lia. Qed.
Lemma mget_store32_out m a v x : x < a \/ a + 4 <= x -> mget (store32 m a v) x = mget m x.
Proof. intros H. apply mget_mwrite_out. rewrite length_le_bytes. lia. Qed.

Section Start.
Context (timer_scratch timervec_addr main_addr kernelvec_addr kernel_pagetable : Z).
(** The scratch areas are in the kernel's data. *)
Hypothesis Hscratch : KERNBASE <= timer_scratch /\ timer_scratch + 40 * NCPU <= PHYSTOP.
Notation scratch := (scratch timer_scratch).

(** The words a hart's timer depends on: its deadline, and the address of the
    deadline and the interval in its scratch area. *)
Definition timer_word (id x : Z) : Prop := CLINT_MTIMECMP id <= x < CLINT_MTIMECMP id + 8 \/ scratch id + 24 <= x < scratch id + 40.
Definition timer_set (m : mem) (id deadline : Z) : Prop :=
  load64 m (CLINT_MTIMECMP id) = deadline /\ load64 m (scratch id + 24) = CLINT_MTIMECMP id /\ load64 m (scratch id + 32) = interval.

Lemma addresses id : 0 <= id < NCPU -> 0 <= CLINT_MTIMECMP id /\ CLINT_MTIMECMP id + 8 <= CLINT_MTIME /\ CLINT_MTIME + 8 <= scratch id /\ scratch id + 40 <= timer_scratch + 40 * NCPU /\ timer_scratch + 40 * NCPU < 2 ^ 64.
Proof. unfold CLINT_MTIMECMP, CLINT_MTIME, CLINT, Boot.scratch, KERNBASE, PHYSTOP, KERNBASE, NCPU in *. lia. Qed.
Lemma timer_word_apart i j x : 0 <= i < NCPU -> 0 <= j < NCPU -> i <> j -> timer_word i x -> ~ timer_word j x.
Proof. unfold timer_word, CLINT_MTIMECMP, CLINT, Boot.scratch, KERNBASE, PHYSTOP, KERNBASE, NCPU in *. lia. Qed.
Lemma timer_set_ext m m' id d : (forall x, timer_word id x -> mget m' x = mget m x) -> timer_set m id d -> timer_set m' id d.
Proof.
  intros Hx (Hd & Ha & Hi). split_and!; [rewrite <- Hd|rewrite <- Ha|rewrite <- Hi]; apply load64_ext; intros y Hy; apply Hx; unfold timer_word; lia.
Qed.

(** What [start] makes of a hart, with the reads resolved. *)
Definition started_status (h : hart) : Z := Z.lor (Z.lor (Z.land (csrs h Mstatus) (u64 (Z.lnot MSTATUS_MPP_MASK))) MSTATUS_MPP_S) MSTATUS_MIE.
Definition started_csrs (h : hart) : csr -> Z :=
  cset Mstatus (mret_status (started_status h)) $ cset Mie (Z.lor (csrs h Mie) MIE_MTIE) $ cset Mstatus (started_status h) $
  cset Mtvec timervec_addr $ cset Mscratch (scratch (csrs h Mhartid)) $ cset Pmpcfg0 0xf $ cset Pmpaddr0 0x3fffffffffffff $
  cset Sie (Z.lor (Z.lor (Z.lor (csrs h Sie) SIE_SEIE) SIE_STIE) SIE_SSIE) $ cset Mideleg 0xffff $ cset Medeleg 0xffff $ cset Satp 0 $ cset Mepc main_addr $
  cset Mstatus (Z.lor (Z.land (csrs h Mstatus) (u64 (Z.lnot MSTATUS_MPP_MASK))) MSTATUS_MPP_S) $ csrs h.
Definition started_ram (h : hart) : mem :=
  let id := csrs h Mhartid in
  store64 (store64 (store64 (ram h) (CLINT_MTIMECMP id) (u64 (load64 (ram h) CLINT_MTIME + interval))) (scratch id + 24) (CLINT_MTIMECMP id)) (scratch id + 32) interval.
Lemma start_eq h : start timer_scratch timervec_addr main_addr h = Ok main_addr (mk_hart (rset tp (csrs h Mhartid) (regs h)) (started_csrs h) (started_ram h) (mpp (started_status h))).
Proof. reflexivity. Qed.

Lemma start_ok h id : csrs h Mhartid = id -> 0 <= id < NCPU -> exists h',
  start timer_scratch timervec_addr main_addr h = Ok main_addr h' /\ hmode h' = Supervisor /\ regs h' = rset tp id (regs h) /\
  csrs h' Satp = 0 /\ csrs h' Medeleg = 0xffff /\ csrs h' Mideleg = 0xffff /\ csrs h' Mhartid = id /\ csrs h' Pmpaddr0 = 0x3fffffffffffff /\ csrs h' Pmpcfg0 = 0xf /\
  csrs h' Sie = Z.lor (csrs h Sie) (Z.shiftl 1 9 + Z.shiftl 1 5 + Z.shiftl 1 1) /\
  csrs h' Mie = Z.lor (csrs h Mie) MIE_MTIE /\ csrs h' Mscratch = scratch id /\ csrs h' Mtvec = timervec_addr /\
  timer_set (ram h') id (u64 (load64 (ram h) CLINT_MTIME + interval)) /\
  (forall x, ~ timer_word id x -> mget (ram h') x = mget (ram h) x).
Proof.
  intros <- Hr. destruct (addresses _ Hr) as (A1 & A2 & A3 & A4 & A5). eexists. split; [apply start_eq|]. cbn [hmode regs csrs ram].
  split_and!; try reflexivity.
  - apply mpp_S.
  - change (Z.lor (Z.lor (Z.lor (csrs h Sie) SIE_SEIE) SIE_STIE) SIE_SSIE = Z.lor (csrs h Sie) 546). by rewrite <- !Z.lor_assoc.
  - unfold timer_set, started_ram. split_and!.
    + rewrite !load64_store64_ne by lia. rewrite load64_store64_eq. unfold u64. by rewrite Z.mod_mod.
    + rewrite load64_store64_ne by lia. rewrite load64_store64_eq. apply u64_small. lia.
    + by rewrite load64_store64_eq.
  - intros x Hx. unfold timer_word in Hx. unfold started_ram. rewrite !mget_store64_out by lia. done.
Qed.

(** ** The timers of all harts *)

(** For each hart that has started, the time at which it started and the timer
    interrupts it has had since. *)
Definition clocks : Type := Z -> option (Z * nat).
Definition clock_set (i : Z) (c : Z * nat) (D : clocks) (j : Z) : option (Z * nat) := if decide (j = i) then Some c else D j.
Definition deadline (c : Z * nat) : Z := u64 (c.1 + interval * (Z.of_nat c.2 + 1)).

(** What the harts do, in any order: start, take a timer interrupt with whatever is
    in the registers, or anything else that leaves the words of the started timers
    alone. *)
Inductive timers (tr : Z -> Z -> Z) : clocks -> mem -> Prop :=
  | timers_init m : timers tr (fun _ => None) m
  | timers_other D m m' :
      timers tr D m -> (forall i x, is_Some (D i) -> timer_word i x -> mget m' x = mget m x) -> timers tr D m'
  | timers_start D i h pc h' :
      timers tr D (ram h) -> 0 <= i < NCPU -> csrs h Mhartid = i -> start timer_scratch timervec_addr main_addr h = Ok pc h' ->
      timers tr (clock_set i (load64 (ram h) CLINT_MTIME, 0%nat) D) (ram h')
  | timers_tick D i t n h h' :
      timers tr D (ram h) -> D i = Some (t, n) -> hmode h = Machine -> csrs h Mscratch = scratch i -> (forall r, 0 <= regs h r < 2 ^ 64) ->
      run tr timervec h = Some (h', Mret, []) -> timers tr (clock_set i (t, S n) D) (ram h').

(** A timer interrupt of hart [i]. *)
Lemma tick_ok tr h i c : 0 <= i < NCPU -> timer_set (ram h) i (deadline c) -> hmode h = Machine -> csrs h Mscratch = scratch i -> (forall r, 0 <= regs h r < 2 ^ 64) -> exists h',
  run tr timervec h = Some (h', Mret, []) /\ hmode h' = Machine /\ (forall r, regs h' r = regs h r) /\ (forall k, csrs h' k = if decide (k = Sip) then 2 else csrs h k) /\
  timer_set (ram h') i (deadline (c.1, S c.2)) /\ (forall x, ~ timer_word i x -> ~ scratch i <= x < scratch i + 24 -> mget (ram h') x = mget (ram h) x).
Proof.
  intros Hi (Hd & Ha & Hv) Hm Hs Hr. destruct (addresses i Hi) as (A1 & A2 & A3 & A4 & A5).
  destruct (timervec_ok tr h (scratch i) (CLINT_MTIMECMP i)) as (h' & E & M' & R' & C' & D' & F'); try done; try lia.
  assert (W : forall x, timer_word i x -> ~ CLINT_MTIMECMP i <= x < CLINT_MTIMECMP i + 8 -> mget (ram h') x = mget (ram h) x) by (intros x Hx Hn; apply F'; unfold timer_word, timer_writes in *; lia).
  exists h'. split_and!; [exact E|exact M'|exact R'|exact C'| |intros x Hx Hn; apply F'; unfold timer_word, timer_writes in *; lia]. unfold timer_set. split_and!.
  - rewrite D', Hd, Hv. unfold deadline, u64. cbn [fst snd]. rewrite Zplus_mod_idemp_l. f_equal. lia.
  - rewrite <- Ha. apply load64_ext. intros y Hy. apply W; unfold timer_word; lia.
  - rewrite <- Hv. apply load64_ext. intros y Hy. apply W; unfold timer_word; lia.
Qed.
Lemma timer_word_scratch i j x : 0 <= i < NCPU -> 0 <= j < NCPU -> timer_word j x -> ~ scratch i <= x < scratch i + 24.
Proof. unfold timer_word, CLINT_MTIMECMP, CLINT, Boot.scratch, KERNBASE, PHYSTOP, KERNBASE, NCPU in *. lia. Qed.

(** The timer of every started hart is set for its next deadline. *)
Lemma timers_inv tr D m : timers tr D m -> forall i c, D i = Some c -> 0 <= i < NCPU /\ timer_set m i (deadline c).
Proof.
  induction 1 as [m|D m m' _ IH Hx|D i h pc h' _ IH Hi Hid Hst|D i t n h h' _ IH HD Hm Hs Hr Hrun]; intros j c Hj; [done| | |].
  - destruct (IH _ _ Hj) as [Hjr Hset]. split; [done|]. revert Hset. apply timer_set_ext. intros x. apply Hx. by rewrite Hj.
  - destruct (start_ok h i Hid Hi) as (h1 & E & _ & _ & _ & _ & _ & _ & _ & _ & _ & _ & _ & _ & Hset' & F). rewrite E in Hst. injection Hst as _ ->. revert Hj. unfold clock_set. case_decide as Hji.
    + intros [= <-]. subst j. split; [done|]. unfold deadline. cbn [fst snd]. by replace (interval * (Z.of_nat 0 + 1)) with interval by done.
    + intros Hj. destruct (IH _ _ Hj) as [Hjr Hset]. split; [done|]. revert Hset. apply timer_set_ext. intros x Hx. apply F; eauto using timer_word_apart.
  - destruct (IH _ _ HD) as [Hir Hset]. destruct (tick_ok tr h i _ Hir Hset Hm Hs Hr) as (h1 & E & _ & _ & _ & Hset' & F). rewrite E in Hrun. injection Hrun as ->.
    revert Hj. unfold clock_set. case_decide as Hji; [intros [= <-]; by subst j|]. intros Hj. destruct (IH _ _ Hj) as [Hjr Hsj]. split; [done|]. revert Hsj. apply timer_set_ext.
    intros x Hx. apply F; eauto using timer_word_apart, timer_word_scratch.
Qed.

(** C31: the clock of every hart goes on: however the harts' starts, timer interrupts
    and other work interleave, a hart that started at time [t] and has had [n] timer
    interrupts has its next one set for [t + (n + 1) * interval]; the interrupt then
    returns to what the hart was doing with every register as it was, raises the
    software interrupt devintr counts as a tick, sets the deadline one interval
    further, and leaves the other harts' timers alone. *)
Theorem timers_go_on tr D m i t n h : timers tr D m -> D i = Some (t, n) ->
  ram h = m -> hmode h = Machine -> csrs h Mscratch = scratch i -> (forall r, 0 <= regs h r < 2 ^ 64) ->
  load64 m (CLINT_MTIMECMP i) = u64 (t + interval * (Z.of_nat n + 1)) /\
  exists h', run tr timervec h = Some (h', Mret, []) /\ hmode h' = Machine /\ (forall r, regs h' r = regs h r) /\
  (forall k, csrs h' k = if decide (k = Sip) then 2 else csrs h k) /\
  load64 (ram h') (CLINT_MTIMECMP i) = u64 (t + interval * (Z.of_nat n + 2)) /\
  forall j, is_Some (D j) -> j <> i -> load64 (ram h') (CLINT_MTIMECMP j) = load64 m (CLINT_MTIMECMP j).
Proof.
  intros HT HD <- Hm Hs Hr. destruct (timers_inv _ _ _ HT _ _ HD) as [Hi Hset]. split; [apply Hset|].
  destruct (tick_ok tr h i _ Hi Hset Hm Hs Hr) as (h' & E & M' & R' & C' & (Hd & _) & F). exists h'. split_and!; [exact E|exact M'|exact R'|exact C'| |].
  - rewrite Hd. unfold deadline. cbn [fst snd]. f_equal. lia.
  - intros j [c Hj] Hne. destruct (timers_inv _ _ _ HT _ _ Hj) as [Hjr _]. apply load64_ext. intros x Hx.
    assert (timer_word j x) by (unfold timer_word; lia). apply F; eauto using timer_word_apart, timer_word_scratch.
Qed.
End Start.

(** Hart 0 starts and has a timer interrupt, with the rest of memory empty. *)
Lemma timers_go_on_witness :
  let h0 := mk_hart (fun _ => 0) (fun _ => 0) ∅ Machine in
  let m := started_ram 0x80010000 h0 in
  let h := mk_hart (fun _ => 7) (fun c => if decide (c = Mscratch) then 0x80010000 else 0) m Machine in
  exists h', run (fun _ va => va) timervec h = Some (h', Mret, []) /\ regs h' a0 = 7 /\ csrs h' Sip = 2.
Proof.
  intros h0 m h. assert (Hs : KERNBASE <= 0x80010000 /\ 0x80010000 + 40 * NCPU <= PHYSTOP) by (unfold KERNBASE, PHYSTOP, NCPU, KERNBASE; lia).
  assert (HT : timers 0x80010000 0 0 (fun _ va => va) (clock_set 0 (load64 (ram h0) CLINT_MTIME, 0%nat) (fun _ => None)) m).
  { refine (timers_start _ _ _ _ _ 0 h0 _ _ (timers_init _ _ _ _ _) _ eq_refl (start_eq _ _ _ h0)). unfold NCPU. lia. }
  destruct (timers_go_on 0x80010000 0 0 Hs _ _ _ 0 (load64 (ram h0) CLINT_MTIME) 0 h HT) as (_ & h' & E & _ & R & C & _); [reflexivity|reflexivity|reflexivity|reflexivity|intros r; cbn; lia|].
  exists h'. split; [exact E|]. split; [apply R|apply C].
Defined.

(** ** The hart's way to the scheduler *)

(** entry.S: a stack of 4096 bytes for every hart, growing down from its end. *)
Lemma entry_ok tr stack0 start_addr h id : csrs h Mhartid = id -> 0 <= id < NCPU -> 0 <= stack0 -> stack0 + 4096 * NCPU < 2 ^ 64 -> exists h',
  run tr (entry stack0 start_addr) h = Some (h', Call start_addr, []) /\ regs h' sp = stack0 + 4096 * (id + 1) /\
  (forall r, r <> sp -> r <> a0 -> r <> a1 -> regs h' r = regs h r) /\ csrs h' = csrs h /\ ram h' = ram h /\ hmode h' = hmode h.
Proof.
  intros <- Hi H0 H1. unfold NCPU in *. unfold entry. do 6 (erewrite run_next by reflexivity). erewrite run_leave by reflexivity. eexists. split; [reflexivity|].
  cbn [wreg regs csrs ram hmode]. split_and!; [| |done|done|done].
  - change (u64 (u64 stack0 + u64 (u64 (1024 * 4) * u64 (csrs h Mhartid + 1))) = stack0 + 4096 * (csrs h Mhartid + 1)).
    rewrite (u64_small stack0), (u64_small (csrs h Mhartid + 1)) by lia. change (u64 (1024 * 4)) with 4096. rewrite (u64_small (4096 * _)) by lia. apply u64_small. lia.
  - intros r Hs Ha0 Ha1. unfold rset. by rewrite !decide_False.
Qed.

(** plicinit lets both devices interrupt: priorities above the harts' threshold. *)
Lemma plicinit_ok h : exists h', plicinit h = Ok tt h' /\ load32 (ram h') (PLIC + UART0_IRQ * 4) = 1 /\ load32 (ram h') (PLIC + VIRTIO0_IRQ * 4) = 1.
Proof.
  eexists. split; [reflexivity|]. cbn [wram ram]. split; [|apply load32_store32_eq]. rewrite load32_store32_ne; [apply load32_store32_eq|]. unfold UART0_IRQ, VIRTIO0_IRQ. lia.
Qed.
(** After plicinithart a hart takes the interrupts of the UART and of the disk, and
    no other device's. *)
Lemma plicinithart_ok h id : regs h tp = id -> 0 <= id < NCPU -> exists h',
  plicinithart h = Ok tt h' /\ regs h' = regs h /\ csrs h' = csrs h /\ hmode h' = hmode h /\
  (forall irq, 0 <= irq < 32 -> Z.testbit (load32 (ram h') (PLIC_SENABLE id)) irq = true <-> irq = UART0_IRQ \/ irq = VIRTIO0_IRQ) /\
  load32 (ram h') (PLIC_SPRIORITY id) = 0 /\
  (forall x, x < PLIC \/ PLIC + 0x400000 <= x -> mget (ram h') x = mget (ram h) x).
Proof.
  intros Ht Hi. assert (Hid : s32 (regs h tp) = id) by (rewrite Ht; apply s32_small; unfold NCPU in *; lia).
  unfold plicinithart, cpuid. cbv beta iota delta [bindM r_tp getM retM]. rewrite Hid. eexists. split; [reflexivity|]. cbn [wram regs csrs ram hmode].
  unfold PLIC_SENABLE, PLIC_SPRIORITY, PLIC, NCPU in *. split_and!; [done|done|done| | |].
  - intros irq Hr. rewrite load32_store32_ne by lia. rewrite load32_store32_eq. change (u32 _) with 1026. unfold UART0_IRQ, VIRTIO0_IRQ.
    assert (Hc : forallb (fun k => Bool.eqb (Z.testbit 1026 k) ((k =? 10) || (k =? 1))) (seqZ 0 32) = true) by reflexivity.
    rewrite forallb_forall in Hc. specialize (Hc irq). rewrite <- list_elem_of_In, elem_of_seqZ in Hc. specialize (Hc Hr). apply Bool.eqb_prop in Hc. rewrite Hc, orb_true_iff, !Z.eqb_eq. done.
  - apply load32_store32_eq.
  - intros x Hx. rewrite !mget_store32_out by lia. done.
Qed.

Section HartBoots.
Context (tr : Z -> Z -> Z) (stack0 start_addr timer_scratch timervec_addr main_addr kernelvec_addr kernel_pagetable : Z).

End HartBoots.
