(* ===== verification/UserProgs.v ===== *)
(** * Small programs (user/cat.c, wc.c, echo.c, ls.c, init.c, grind.c)

    [cat], [wc] and [echo] whole, [ls]'s names, the descriptors [init] gives the
    shell and how it waits, and the random numbers of [grind].  How much a read
    returns and whether it fails, and how much a write takes, are parameters, by the
    number of the call.  The theorems: [cat] writes and [wc] counts what is in the
    file, however it is cut into reads. *)

From stdpp Require Import base list gmap strings.
From Stdlib Require Import ZArith Lia Znumtheory.
From S2P Require Import Prelude Mem Layout FsFormat Sysfile Grep Ulib Sh ShRun.
Open Scope Z_scope.

Module UserProgs.
Section Files.
(** The i-th read fails ([None]), or returns at most so many bytes; the i-th write
    takes so many. *)
Context (rd : nat -> option nat) (wr : nat -> nat).
Definition bufsize : nat := 512.

(** [cat(fd)]: what is written, and the status of exit if it does not return. *)
Fixpoint cat (input : list Z) (i fuel : nat) : option (list Z * option Z) :=
  match fuel with
  | O => None
  | S fuel =>
      match rd i with
      | None => Some ([], Some 1)
      | Some want =>
          let buf := read_some want bufsize input in
          match buf with
          | [] => Some ([], None)
          | _ =>
              if decide (wr i < length buf)%nat then Some (take (wr i) buf, Some 1)
              else (fun r => (buf ++ r.1, r.2)) <$> cat (drop (length buf) input) (S i) fuel
          end
      end
  end.

(** [wc]'s counters: lines, words, characters, [inword]. *)
Record counts := mk_counts { wl : Z; ww : Z; wch : Z; inword : bool }.
Definition blanks : list Z := [32; 13; 9; 10; 11].
Definition wc_char (s : counts) (ch : Z) : counts :=
  let c := s32 (wch s + 1) in
  let l := if ch =? 10 then s32 (wl s + 1) else wl s in
  if in_str blanks ch then mk_counts l (ww s) c false
  else if negb (inword s) then mk_counts l (s32 (ww s + 1)) c true
  else mk_counts l (ww s) c (inword s).
(** [wc(fd, name)] up to its printf; [None] inside when a read fails. *)
Fixpoint wc_loop (s : counts) (input : list Z) (i fuel : nat) : option (option counts) :=
  match fuel with
  | O => None
  | S fuel =>
      match rd i with
      | None => Some None
      | Some want =>
          let buf := read_some want bufsize input in
          match buf with
          | [] => Some (Some s)
          | _ => wc_loop (fold_left wc_char buf s) (drop (length buf) input) (S i) fuel
          end
      end
  end.
Definition wc_format : list Z := [37; 100; 32; 37; 100; 32; 37; 100; 32; 37; 115; 10].
Definition wc (str : Z -> list Z) (name : Z) (input : list Z) (fuel : nat) : option (M Ulib.out unit) :=
  (fun s => match s with
            | None => Ulib.printf str [119; 99; 58; 32; 114; 101; 97; 100; 32; 101; 114; 114; 111; 114; 10] []
            | Some s => Ulib.printf str wc_format [wl s; ww s; wch s; name]
            end) <$> wc_loop (mk_counts 0 0 0 false) input O fuel.
End Files.

(** [echo]'s main: what is written to descriptor 1, for [argv + 1]. *)
Fixpoint echo (args : list (list Z)) : list Z :=
  match args with
  | [] => []
  | a :: args => a ++ (match args with [] => [10] | _ => [32] end) ++ echo args
  end.

(** [fmtname]: the search from the end for a slash, at [p - 1] when [p] is left. *)
Fixpoint fmt_scan (path : list Z) (p : nat) : nat :=
  match p with
  | O => O
  | S p => if nth p path 0 =? 47 then S p else fmt_scan path p
  end.
Definition fmtname (path : list Z) : list Z :=
  let p := drop (fmt_scan path (length path)) path in
  if decide (Z.to_nat DIRSIZ <= length p)%nat then p
  else p ++ replicate (Z.to_nat DIRSIZ - length p) 32.

(** [init]: the console, three times. *)
Definition init_fds (t : ShRun.fdtable) : option ShRun.fdtable :=
  (fun r => ShRun.dup 0 (ShRun.dup 0 r.2)) <$> ShRun.fdalloc (ShRun.Opened ShRun.console O_RDWR) t.
(** [init]'s inner loop, over what wait returns: go on when the shell has exited. *)
Inductive init_next := Restart | Fail.
Fixpoint init_wait (pid : Z) (waits : list Z) : option (init_next * list Z) :=
  match waits with
  | [] => None
  | wpid :: waits => if wpid =? pid then Some (Restart, waits) else if wpid <? 0 then Some (Fail, waits) else init_wait pid waits
  end.

(** [grind]'s do_rand. *)
Definition do_rand (ctx : Z) : Z :=
  let x := ctx mod 0x7ffffffe + 1 in
  let hi := x / 127773 in
  let lo := x mod 127773 in
  let x := 16807 * lo - 2836 * hi in
  let x := if x <? 0 then x + 0x7fffffff else x in
  x - 1.
End UserProgs.
Import UserProgs.

Lemma read_some_ne want input : input <> [] -> exists c buf, read_some want bufsize input = c :: buf.
Proof. intros Hi. unfold read_some, bufsize. destruct input as [|c input]; [done|]. destruct (Nat.min 512 (Nat.max 1 want)) eqn:E; [lia|]. cbn [take]. eauto. Qed.
Lemma read_some_split want input : input = read_some want bufsize input ++ drop (length (read_some want bufsize input)) input /\ (length (read_some want bufsize input) <= 512)%nat.
Proof. unfold read_some, bufsize. set (n := Nat.min 512 (Nat.max 1 want)). rewrite length_take. split; [|lia]. rewrite <- (take_drop n input) at 1. f_equal. destruct (decide (n <= length input)%nat); [by rewrite Nat.min_l|]. by rewrite !drop_ge by lia. Qed.
Lemma read_some_nil want input : read_some want bufsize input = [] -> input = [].
Proof. intros E. destruct input as [|c input]; [done|]. destruct (read_some_ne want (c :: input)) as (? & ? & ?); [done|congruence]. Qed.
Lemma read_some_rest want input c buf : read_some want bufsize input = c :: buf -> (length (drop (length (c :: buf)) input) < length input)%nat.
Proof. intros E. rewrite length_drop. destruct input as [|d input]; [by unfold read_some in E; rewrite take_nil in E|]. cbn [length]. lia. Qed.

Section FileThms.
Context (rd : nat -> option nat) (wr : nat -> nat).

(** [cat] ends; it writes what is in the file up to an error, all of it if there is
    none. *)
Lemma cat_correct fuel : forall input i, (length input < fuel)%nat -> exists out st, cat rd wr input i fuel = Some (out, st) /\
  out `prefix_of` input /\ (st = None -> out = input) /\ ((forall i, is_Some (rd i)) -> (forall i, 512 <= wr i)%nat -> st = None).
Proof.
  induction fuel as [|fuel IH]; intros input i Hf; [lia|]. cbn [cat]. destruct (rd i) as [want|] eqn:Er.
  2: { eexists _, _. split; [reflexivity|]. split_and!; [apply prefix_nil|done|]. intros H _. specialize (H i). rewrite Er in H. by destruct H. }
  destruct (read_some_split want input) as [Hs Hle]. destruct (read_some want bufsize input) as [|c buf] eqn:E.
  { apply read_some_nil in E as ->. eexists _, _. split; [reflexivity|]. by split_and!. }
  case_decide as Hw.
  - eexists _, _. split; [reflexivity|]. split_and!; [|done|intros _ H; specialize (H i); lia]. rewrite Hs. apply prefix_app_r, prefix_take.
  - destruct (IH (drop (length (c :: buf)) input) (S i)) as (out & st & -> & Hp & He & Hok); [apply read_some_rest in E; lia|].
    eexists _, _. split; [reflexivity|]. cbn [fst snd]. split_and!; [rewrite Hs; by apply prefix_app|intros Hst; rewrite He by done; by symmetry|done].
Qed.

(** ** Words *)

Definition blank (c : Z) : bool := in_str blanks c.
(** A word begins at [k]: a character that is not blank, at the beginning or after a
    blank. *)
Definition begins (b : list Z) (k : nat) : bool :=
  negb (blank (nth k b 0)) && match k with O => true | S j => blank (nth j b 0) end.
Definition words (b : list Z) : Z := Z.of_nat (length (List.filter (begins b) (seq 0 (length b)))).
Definition lines (b : list Z) : Z := Z.of_nat (length (List.filter (fun c => c =? 10) b)).
Definition ends_in_word (b : list Z) : bool := match last b with Some c => negb (blank c) | None => false end.

Lemma words_snoc b c : words (b ++ [c]) = words b + if negb (blank c) && negb (ends_in_word b) then 1 else 0.
Proof.
  unfold words. rewrite length_app, seq_app, List.filter_app, length_app. cbn [length seq Nat.add List.filter].
  rewrite (List.filter_ext_in (begins (b ++ [c])) (begins b) (seq 0 (length b))).
  2: { intros k Hk%in_seq. unfold begins. rewrite (app_nth1 b) by lia. destruct k as [|j]; [done|]. by rewrite (app_nth1 b) by lia. }
  assert (E : begins (b ++ [c]) (length b) = negb (blank c) && negb (ends_in_word b)).
  { unfold begins, ends_in_word. rewrite nth_middle. f_equal. destruct b as [|d b _] using rev_ind; [done|]. rewrite last_snoc, length_app, Nat.add_1_r. cbn [length].
    rewrite <- app_assoc. cbn [app]. by rewrite nth_middle, negb_involutive. }
  rewrite E. destruct (negb (blank c) && negb (ends_in_word b)); cbn [length]; lia.
Qed.
Lemma words_range b : 0 <= words b <= Z.of_nat (length b).
Proof. unfold words. pose proof (List.filter_length_le (begins b) (seq 0 (length b))). rewrite length_seq in *. lia. Qed.
Lemma lines_snoc b c : lines (b ++ [c]) = lines b + if c =? 10 then 1 else 0.
Proof. unfold lines. rewrite List.filter_app, length_app. cbn [List.filter]. destruct (c =? 10); cbn [length]; lia. Qed.
Lemma lines_range b : 0 <= lines b <= Z.of_nat (length b).
Proof. unfold lines. pose proof (List.filter_length_le (fun c => c =? 10) b). lia. Qed.

(** The counters after the characters of [b]. *)
Lemma wc_chars b : Z.of_nat (length b) < 2 ^ 31 -> fold_left wc_char b (mk_counts 0 0 0 false) = mk_counts (lines b) (words b) (Z.of_nat (length b)) (ends_in_word b).
Proof.
  induction b as [|c b IH] using rev_ind; intros Hl; [done|]. rewrite length_app in *. cbn [length] in *. rewrite fold_left_app, IH by lia. cbn [fold_left].
  pose proof (words_range b). pose proof (lines_range b). unfold wc_char. cbn [wl ww wch inword]. rewrite lines_snoc, words_snoc, (s32_small (Z.of_nat (length b) + 1)) by lia.
  assert (E : ends_in_word (b ++ [c]) = negb (blank c)) by (unfold ends_in_word; by rewrite last_snoc). rewrite E. fold (blank c). replace (Z.of_nat (length b + 1)) with (Z.of_nat (length b) + 1) by lia.
  destruct (c =? 10), (blank c) eqn:Eb, (ends_in_word b) eqn:Ee; cbn [negb andb]; rewrite ?(s32_small (lines b + 1)), ?(s32_small (words b + 1)), ?Z.add_0_r by lia; done.
Qed.

Lemma wc_loop_ok fuel : forall input i done, (forall i, is_Some (rd i)) -> (length input < fuel)%nat ->
  wc_loop rd (fold_left wc_char done (mk_counts 0 0 0 false)) input i fuel = Some (Some (fold_left wc_char (done ++ input) (mk_counts 0 0 0 false))).
Proof.
  induction fuel as [|fuel IH]; intros input i dn Hrd Hf; [lia|]. cbn [wc_loop]. destruct (Hrd i) as [want ->]. destruct (read_some_split want input) as [Hs _].
  destruct (read_some want bufsize input) as [|c buf] eqn:E; [by apply read_some_nil in E as ->; rewrite app_nil_r|].
  rewrite <- fold_left_app, IH; [|done|apply read_some_rest in E; lia]. rewrite <- app_assoc. by rewrite <- Hs.
Qed.
End FileThms.

(** [wc] prints the number of lines, of words and of characters of the file, however
    it is cut into reads. *)
Theorem wc_correct rd str name input : (forall i, is_Some (rd i)) -> Z.of_nat (length input) < 2 ^ 31 ->
  wc rd str name input (length input + 1) = Some (Ulib.printf str wc_format [lines input; words input; Z.of_nat (length input); name]).
Proof. intros Hrd Hl. unfold wc. rewrite (wc_loop_ok rd _ input 0 []) by (done || lia). cbn [app]. by rewrite wc_chars. Qed.

(** [echo] writes its arguments with a blank between them, and a newline. *)
Lemma echo_correct a args : echo (a :: args) = a ++ concat ((fun x => 32 :: x) <$> args) ++ [10].
Proof.
  revert a. induction args as [|b args IH]; intros a; [done|]. change (echo (a :: b :: args)) with (a ++ [32] ++ echo (b :: args)). rewrite IH. cbn [fmap list_fmap concat app]. by rewrite <- app_assoc.
Qed.

(** ** Names and descriptors *)

(** [fmtname] of a path is its last component, padded with blanks to DIRSIZ. *)
Lemma fmt_scan_ok dir name : 47 ∉ name -> forall k, (k <= length name)%nat -> fmt_scan (dir ++ name) (length dir + k) = fmt_scan (dir ++ name) (length dir).
Proof.
  intros Hn. induction k as [|k IH]; intros Hk; [by rewrite Nat.add_0_r|]. rewrite <- IH by lia. replace (length dir + S k)%nat with (S (length dir + k)) by lia. cbn [fmt_scan].
  rewrite app_nth2_plus. destruct (Z.eqb_spec (nth k name 0) 47) as [E|]; [|done]. destruct Hn. rewrite <- E. apply list_elem_of_In, nth_In. lia.
Qed.
Theorem fmtname_correct dir name : 47 ∉ name -> dir = [] \/ last dir = Some 47 ->
  fmtname (dir ++ name) = name ++ replicate (Z.to_nat DIRSIZ - length name) 32.
Proof.
  intros Hn Hd. unfold fmtname. rewrite length_app, (fmt_scan_ok dir name Hn (length name)) by lia.
  assert (E : fmt_scan (dir ++ name) (length dir) = length dir).
  { destruct Hd as [->|Hd]; [done|]. apply last_Some in Hd as [d ->]. rewrite length_app, Nat.add_1_r. cbn [length fmt_scan]. rewrite <- app_assoc. cbn [app]. by rewrite nth_middle. }
  rewrite E, drop_app_length. case_decide; [|done]. replace (Z.to_nat DIRSIZ - length name)%nat with 0%nat by lia. by rewrite app_nil_r.
Qed.

(** The shell that [init] starts has the console as its three descriptors. *)
Lemma init_fds_ok : init_fds (replicate 16 None) = let tty := ShRun.Opened ShRun.console O_RDWR in Some (std tty tty tty).
Proof. reflexivity. Qed.
(** [init] starts the shell again when it has exited, and is not misled by the orphans
    it inherits. *)
Lemma init_wait_ok pid orphans rest : 0 < pid -> Forall (fun w => 0 < w /\ w <> pid) orphans -> init_wait pid (orphans ++ pid :: rest) = Some (Restart, rest).
Proof.
  intros Hp. induction 1 as [|w orphans [Hw Hne] _ IH]; cbn [app init_wait]; [by rewrite Z.eqb_refl|]. rewrite (proj2 (Z.eqb_neq _ _) Hne). destruct (Z.ltb_spec w 0); [lia|done].
Qed.

(** ** Random numbers *)

(** [do_rand] is the minimal standard generator of Park and Miller, computed without
    leaving the range of a long. *)
Theorem do_rand_correct ctx : let x := ctx mod 0x7ffffffe + 1 in do_rand ctx = (16807 * x) mod 0x7fffffff - 1 /\ 0 <= do_rand ctx <= 0x7ffffffd.
Proof.
  intros x. unfold do_rand. fold x. assert (Hx : 1 <= x <= 2147483646) by (unfold x; pose proof (Z.mod_pos_bound ctx 0x7ffffffe); lia).
  pose proof (Z.div_mod x 127773 ltac:(lia)) as Hdm. pose proof (Z.mod_pos_bound x 127773 ltac:(lia)) as Hlo. set (hi := x / 127773) in *. set (lo := x mod 127773) in *.
  assert (Hhi : 0 <= hi <= 16807) by lia. set (y := 16807 * lo - 2836 * hi).
  assert (Hy0 : y <> 0).
  { intros Hy. assert (Hd : (16807 | 2836 * hi)) by (exists lo; unfold y in Hy; lia). apply Gauss in Hd; [|by apply Zgcd_1_rel_prime]. destruct Hd as [k Hk]. unfold y in Hy. lia. }
  assert (Hm : (16807 * x) mod 0x7fffffff = if y <? 0 then y + 0x7fffffff else y).
  { symmetry. destruct (Z.ltb_spec y 0); [apply Z.mod_unique with (q := hi - 1)|apply Z.mod_unique with (q := hi)]; unfold y in *; lia. }
  rewrite Hm. split; [done|]. destruct (Z.ltb_spec y 0); unfold y in *; lia.
Qed.
